(* ===== verification/_CoqProject ===== *)
-Q . S2P
Prelude.v
JobStore.v
JobStoreFacts.v
PyFloat.v
PyValue.v
Orders.v
Instrument.v
Accounts.v
Risk.v
Paper.v
LiveAdapter.v
Router.v
Scheduler.v
SchedulerFacts.v
Workers.v
Coverage.v
DataOrchestrator.v
Flights.v
ParallelFetch.v
Fanout.v
PeriodicFetcher.v
Json.v
Mtf.v
Registry.v
RegistrySpec.v
StateCodec.v
StateStore.v
Recovery.v
Admission.v
JsonFacts.v
BuildIdentity.v
RunIdentity.v
Artifacts.v
RunBinding.v
WorkerProtocol.v
WorkerChild.v
WorkerLoop.v
WorkerSession.v
WorkerLink.v
Supervisor.v
Security.v
EventBus.v
Ledger.v
JobExecutor.v
Threads.v
BacktestRuns.v
BacktestFacts.v
BacktestSafety.v
BacktestRequests.v
Faults.v
BacktestStore.v
BacktestStoreFacts.v
BacktestStoreSafety.v
