(* ===== verification/Prelude.v ===== *)
(** * OpenPine: a verification of the trading backend's core

    OpenPine is a Python backend that runs trading strategies: it loads market
    data, schedules strategy jobs, keeps strategy state, gates the orders that
    strategies emit and hands them to paper or live execution adapters.  This
    library models that core as executable definitions and proves what makes
    each part correct.  Names follow the source; every path below is relative
    to the repository's [openpine/] package.

    ** The program's parts and how they interact

    - Market data.  A query for bars goes to [DataOrchestrator]
      (data/orchestrator.py): storage, cache or provider, missing intervals
      fetched from the provider and merged, the result validated.  Concurrent
      requests for one series share one provider call.  Large windows are
      fetched by chunks in threads (data/parallel_fetcher.py).  A thread
      (data/periodic_fetcher.py) keeps the series of the enabled strategies up
      to date.
    - Strategies.  [SQLiteStrategyRegistry] (registry/strategies.py) holds the
      strategies, whether each is enabled, and the worker circuit that stops
      them all.
    - Closed bars.  [StrategyBarFanout] (workers/strategy_fanout.py) turns a
      closed source bar into the target bars it completes and enqueues one job
      for each strategy in the [JobScheduler] (jobs/scheduler.py).
      [StrategyJobExecutor] (workers/strategy_job_executor.py) runs such a job:
      it restores the strategy's snapshot, has the runtime evaluate the bar,
      saves the next snapshot and writes positions and trades to the ledger
      (storage/strategy_ledger.py).
    - Supervision.  The gateway keeps its background worker process alive with
      [WorkerSupervisor] (gateway/worker_supervisor.py): heartbeats, fail-safe,
      bounded restarts.  gateway/security.py decides who may call the gateway,
      and [EventBus] (events/bus.py) records what happened.
    - Long-running work.  [JobV1Store] (jobs/transactional_store.py) is the
      durable job table with leases, versions and an event log.
    - Strategy runtime.  Parent and worker exchange the chained messages of a
      [WorkerProtocolTranscript] (runtime/worker_protocol.py): the parent is
      [InteractiveWorkerSession], the worker the loop of the bootstrap script,
      both of runtime/isolated_worker.py.  Strategy state is saved in snapshots
      (state/store.py, state/policy.py) and rebuilt by recovery/rebuild.py.  Bars
      of other timeframes are requested and stamped by runtime/mtf.py.
    - Admission.  What may run at all is decided by admission.py, against the
      deployment that is installed; run_identity.py publishes the identity of an
      admitted run, once, and derives from it the context the worker executes
      under; build_identity.py says which build this is.
    - Backtests.  The gateway (gateway/routes/backtest.py) takes requests for
      runs under idempotency keys and a limit of permits, computes each run in a
      family of processes of its own, owned by the gateway until its end is
      proven, and cancels runs on request.  Results are files and rows that
      storage/backtest_storage.py publishes together, and rolls back at the next
      start when it was cut off.
    - Artifacts.  Compiled scripts and their metadata are kept on disk by
      [ArtifactStore] (artifacts/store.py), sealed by a manifest of digests.
    - Orders.  An [OrderIntent] passes the account lookup (accounts/), the
      [RiskManager] (risk/manager.py) and reaches the adapter of the account's
      type through [ExecutionRouter] (execution/router.py): paper
      (execution/paper.py) or live (execution/binance.py, bybit.py,
      ccxt_common.py), the latter after the instrument rules
      (execution/models.py).  [OrderManager] (orders/manager.py) keeps the order
      table.

    ** The files

    - [Prelude]: results and their notation, Python dictionaries in insertion
      order ([dget], [dset], ...), stable sorting, list and option lemmas, the
      tactics and hint databases of the library.
    - [PyFloat], [PyValue]: binary64 floats on the Standard Library's
      [spec_float], decimals of their shortest text, and the untyped scalars of
      a provider's response with Python's conversions.
    - [JobStore], [JobStoreFacts]: the job store.  The database is a record of
      the jobs and events tables; each operation is a function from database
      and arguments to database and result, an exception rolling back.
    - [Scheduler], [SchedulerFacts]: the scheduler.  Jobs are shared mutable
      objects: the state has a store of objects, and queue, job table and
      callers hold references into it.
    - [Workers]: retry policy and worker pool.
    - [Orders], [Instrument], [Accounts], [Risk]: order table, exchange rules,
      accounts and the risk rules with their state.
    - [Paper], [LiveAdapter], [Router]: execution.  The router's theorems are
      proved against the class [LawfulAdapter]; the paper adapter and both live
      adapters are its instances.
    - [Coverage], [DataOrchestrator], [Flights], [ParallelFetch]: market data.
      [Flights] is a step relation of threads sharing provider requests.
    - [Fanout]: closed bars to jobs, on top of [Scheduler].
    - [PeriodicFetcher]: the refresh of market data, against a record of the
      data layer's operations with the class [SeriesStore] of its laws.
    - [Json], [Mtf]: JSON text as Python's json module reads and writes it, and
      the multi-timeframe requests kept in it.
    - [JsonFacts], [Artifacts]: the characters of a JSON text and sorted
      dictionaries; the artifact store on a disk of paths, sealed and unsealed
      saves as a step relation in which a process may die between any two file
      operations.
    - [Registry], [RegistrySpec]: the strategy registry, one database and the
      connections of its processes; its abstract specification and a forward
      simulation.
    - [StateCodec]: the typed codec of resume state (state/codec.py) and the
      payload encoding of state/store.py.
    - [StateStore]: one disk shared by processes that each hold a copy of the
      index; a snapshot's file holds the payload of its state.
    - [Recovery]: rebuilding a snapshot by replaying bars, on top of [StateStore].
    - [Admission], [BuildIdentity], [RunIdentity], [RunBinding]: the deployment
      and the admission of a run; the build; the hash of the data and the
      publication of an identity as a step relation of processes; the admission
      of a run together with the context it is bound to.
    - [WorkerProtocol]: transcripts of the worker protocol.
    - [WorkerChild], [WorkerLoop]: the bootstrap's own copy of the protocol, and
      its loop over a strategy, with the broker projection it shows to it.
    - [WorkerSession], [WorkerLink]: the parent's session against the class
      [Peer] of what a worker process answers, and the instance that answers by
      the loop of [WorkerLoop].
    - [Threads]: threads as trees of commands on a shared state, their
      interleavings, and a rely-guarantee logic that is sound for them.
    - [BacktestRuns], [BacktestFacts], [BacktestSafety]: the background task, the
      compute thread and the cancel requests of backtest runs as such threads,
      beside what the processes do; the invariant of the ownership registry and
      what each operation under the lock does to it; the specifications of the
      threads and the theorems.
    - [BacktestRequests]: the handler of a request for a run, with the
      idempotency table that processes share, as this process's connection sees
      it ([idempotency], with what is not committed) and as it is stored
      ([stored]), and the limiters.
    - [Faults]: programs run alone whose commands fail, half-way or after taking
      effect, and whose process dies, with a weakest precondition that counts
      failures.
    - [BacktestStore], [BacktestStoreFacts], [BacktestStoreSafety]: the store of
      backtest results as such programs over disk and tables, what each leaves,
      and the theorems over its histories.
    - [Supervisor]: the supervisor's coroutine in a monad of its own, over a
      trace of all it asked of processes, clocks and callbacks and was told.
    - [Security], [EventBus], [Ledger]: the gateway's authentication and audit,
      the event bus and the strategy ledger.
    - [JobExecutor]: one job from the scheduler's queue to snapshots and ledger,
      on top of [Registry], [DataOrchestrator], [Scheduler], [StateStore],
      [Ledger], [Mtf] and [Fanout].

    ** What the theorems show

    - Job store: every reachable database satisfies the table invariant
      ([store_invariant]); jobs move only along [_ALLOWED_TRANSITIONS], one
      version at a time ([store_state_machine], [final_states_absorbing]);
      creation is idempotent ([create_idempotent]); success needs the live lease
      and the expected version ([mark_succeeded_iff]); recovery finds exactly
      the expired leases ([recover_exact]); paging loses nothing
      ([pagination_complete]).
    - Execution: nothing reaches an adapter without the account and the risk
      manager's consent ([router_gate], [router_kill_switch]), nothing reaches
      an exchange without client, rules and local checks ([live_fail_closed]),
      and what is reported as accepted or cancelled was acknowledged
      ([live_success_acknowledged], [live_cancel_truthful]); the paper ledger
      ([paper_ledger]); the rate limit holds over 59 seconds, and twice the
      limit over 60 ([rate_limit_sliding_window]); client ids are unique
      ([no_duplicate_client_orders]) and orders read back
      ([submit_get_roundtrip]); the instrument checks are sound and have no
      false rejections of exact multiples ([validate_order_sound],
      [aligned_multiple_accepted]).
    - Scheduling: deduplication ([enqueue_deduplicates], [fanout_idempotent]),
      best-first service ([dequeue_serves_best]), serialization by key when a
      dequeued job is marked running at once ([serialization_when_atomic]) and
      locks that exclude until they expire ([lock_excludes]).
    - Market data: missing intervals, coalescing, merging and validation meet
      their specifications ([missing_intervals_exact], [coalesce_correct],
      [merge_correct], [validate_spec]); the fail policy returns complete series
      only ([fail_policy_complete]) and does return one when the provider has
      the history and the store takes it ([auto_fills_gaps]); provider requests
      are single-flight, answer their own query and always progress
      ([single_flight], [flight_result_own_query], [flights_progress]).
    - State and protocol: one active snapshot per strategy, and no more than the
      maximum, whatever processes do ([one_active_snapshot]); a state that the
      codec restores is read back by all of them, but for the time of its save
      ([save_load_visible]); payloads survive encoding and decoding
      ([payload_roundtrip]) and a snapshot can only select public classes of the
      backtest engine ([decode_confined]); transcripts are chained, peers agree and bars are
      committed before the next begins ([transcript_chained],
      [append_accept_agree], [bar_committed_before_next]).  A rebuild replays
      the bars on the latest snapshot ([rebuild_correct]) or changes nothing
      ([failed_rebuild_changes_nothing]).
    - Isolated worker: both copies of the protocol agree but for the kinds
      CHECKPOINT and RESTORE, which the bootstrap does not know
      ([protocols_agree]); the worker begins, processes and commits one bar after
      the other whatever it is sent ([worker_bars_in_order]); a session with its
      worker hands over the new part of the strategy's tape each time, all of it
      once if the tape only grows, with both sides in step ([session_intents]).
    - Admission: exactly the runs that match the deployment are admitted
      ([admit_run_iff], [admit_semantic_profile_iff]), a deployment that loads is
      the one installed ([loaded_deployment_installed]), the compiler's commits
      are those of the environment or the heads ([compiler_commits_exact]).  An
      identity is written once and for ever ([identity_written_once]), without
      waiting ([publication_wait_free]); the data hash determines the data
      ([snapshot_hash_binds]); a bound configuration agrees with the identity on
      disk and hashes these very bars ([bound_execution]).
    - Artifacts: whatever saves run and die, a sealed artifact is whole, the
      files of one save ([sealed_artifact_whole]), and a save that finishes reads
      back ([sealed_artifact_reads_back]), as long as nobody saves without a seal
      under its name or under a name that begins with a dot; no accepted name leaves the root
      ([accepted_path_confined]).
    - Backtests: at most one process family computes for a run
      ([one_family_per_run]) and no more than there are permits
      ([families_within_capacity]); nothing of a run computes once it has ended
      ([ended_run_is_quiet]) or its cancellation was accepted, after which it is
      never recorded as done ([accepted_cancellation_wins]); the permits come
      back ([permits_return]), and a supervisor is killed only after its family
      is gone ([sigkill_after_cleanup]).  A key is answered with one run
      ([one_run_per_key]), the permits of a gateway add up
      ([permits_accounted]), and a refused request leaves nothing behind when
      the commit of its claim and the release did not raise
      ([refused_request_undone]).  A save is all or nothing, but for what a
      failing rename may have done ([save_all_or_nothing]); one that dies is
      rolled back by the next start ([broken_save_rolled_back]), which may itself
      die ([recovery_restartable]); and a run that is done has its whole result
      in every history that does not break off a save of a done run
      ([done_runs_whole]).
    - Registry: names and identifiers stay unique, nothing archived is enabled,
      and nothing at all while the circuit is open ([registry_invariant]);
      every run is a run of the abstract registry ([registry_refines_spec],
      [enable_returns_iff]), an open circuit closes only on a reset
      ([trip_latches], [activation_explicit]), and from a trip until a reset
      neither fan-out nor refresh has work ([tripped_circuit_stops_work]).
    - Job execution: under the policy that saves after every bar, a bar that is
      done is not processed again, in whatever process, while its snapshot is
      kept ([bar_processed_once]); the next bar starts from the state the last one
      exported ([next_bar_resumes]); every job is answered, whatever fails
      ([job_always_answered]); and a fanned-out job is understood as the bar it
      was made for ([fanout_job_understood]).  The ledger reads back what was
      written ([upsert_reads_back], [list_trades_exact]) and records a trade
      once ([record_once]).
    - Refresh: the stored series has no gap below its newest bar, if that can be
      read ([periodic_refresh_gapfree]), one refresh brings it to the last closed bar
      ([refresh_catches_up]) and stores the target bars it completes
      ([target_bars_stored]); at most one loop runs ([one_refresh_loop]).
    - Timeframe requests: normalized keys are well formed ([normalized_keys_ok])
      and survive storage ([mtf_json_roundtrip]); the bars handed to the worker
      are those confirmed at the chart's bars ([confirmed_bars_exact]).
    - Supervision: no worker starts before every earlier one was seen dead
      ([no_overlapping_workers]), none replaces an unhealthy one before a
      fail-safe has succeeded ([fail_safe_before_replacement]), and restarts are
      rate-bounded ([restart_budget]).
    - Gateway: only the configured token opens it ([auth_gate]); a client
      address is vouched for by trusted proxies ([client_ip_vouched],
      [prepended_hops_ignored]); responses carry the security headers
      ([response_hardened]).  Subscribers see committed events only
      ([emit_persists_first]) and listing returns what was emitted, newest first
      ([emitted_event_reads_back], [get_events_ordered]).
    - Theorems that record a surprising behaviour of the code:
      [cancel_reused_key_not_logged], [failed_insert_burns_client_id],
      [tiny_step_accepts_everything], [nan_notional_passes],
      [twice_the_limit_in_a_minute],
      [live_enabled_not_checked], [paper_cancel_never_succeeds],
      [market_order_fills_at_zero], [returned_id_not_cancellable],
      [open_order_reported_rejected], [null_field_fails_reconcile],
      [default_rules_shared], [dequeue_alone_races],
      [completion_overwrites_cancel], [default_backoff],
      [fetch_chunked_keeps_last_chunk], [nonpositive_chunk_diverges],
      [older_save_lost], [interval_policy_period], [foreign_enum_not_loadable],
      [marker_key_misread], [mixin_enum_loses_type],
      [failed_create_blocks_trip], [ledger_failure_not_retried],
      [isolated_runtime_stops], [variable_timeframes_not_refreshed],
      [price_type_ignored], [fallback_skips_a_slot], [read_error_leaves_gap],
      [two_loops_after_timeout], [open_bar_is_stamped],
      [non_ascii_token_errors], [malformed_hop_hides_client],
      [failed_commit_surfaces_later], [unknown_type_blocks_listing],
      [processed_range_not_rebuilt], [rebuild_without_engine],
      [invalidate_forgotten], [state_rebuild_never_succeeds],
      [default_rebuild_refused], [rebuild_skips_bars_before_from],
      [own_run_admission], [refused_run_keeps_identity],
      [producer_versions_differ], [unfilled_metrics],
      [dead_save_blocks_listing], [second_save_fails],
      [carriage_return_unreadable], [unsealed_save_breaks_sealed],
      [early_cancellation_not_recorded], [cancel_before_start_raises],
      [cancel_overwrites_failure], [queued_is_running], [leaked_permit],
      [commit_leaves_claim], [failed_run_bound], [release_leaves_claim],
      [restore_rejected_by_bootstrap], [stale_files_published],
      [renamed_first_result_stays], [torn_by_second_save], [restored_results_deleted],
      [ambiguous_backup_blocks_all], [empty_curve_path_dangles],
      [nan_trade_refused] and [deletion_leaves_files].

    ** Modelling conventions

    - Integers are [Z]: Python's are unbounded.  Floats are binary64 with NaN,
      infinities and signed zeros.
    - The clock and fresh identifiers (time.time, uuid4) are arguments of the
      operation that reads them, one argument for the readings of one call.
    - Code that runs under a lock or in a transaction is one step; code whose
      interleaving matters ([Flights], processes in [StateStore] and
      [RunIdentity], the threads of [BacktestRuns]) is a sequence of smaller
      ones.
    - Between a session and its worker the pipes are queues of lines; the worker
      answers a line as soon as it is written, and only the session waits.
    - Logging and metrics are left out.

    ** Fuel and bounds

    - [ParallelFetch.chunks] takes fuel for the chunk loop; [chunks_partition]
      proves that one unit for each millisecond of the window is enough for any
      positive chunk size, and [nonpositive_chunk_diverges] that no fuel is
      enough otherwise.
    - [Supervisor.monitor_loop] and [restart_until_started] observe the
      coroutine for a number of rounds; their theorems are safety properties of
      every finite observation.  The reader of [Json] recurses on fuel, and
      [loads_total] shows that what it takes is enough.
    - The loops of [BacktestRuns] that poll a process are observed for the number
      of rounds their thread is given and then wait for ever; the theorems hold
      for every number and every moment in between.
    - [PyFloat.decimal_of_float] searches the shortest text among 1 to 17
      digits; 17 digits determine every binary64 number.
    - [all_pages] of [JobStoreFacts] follows cursors with one unit for each listed
      job and one more; [pagination_complete] shows that this is enough.

    ** Parameters

    Code outside the repository enters as arguments: the sealing, hashing and
    validation of openpine_contracts ([JobStore], [WorkerProtocol]), SQLite's
    REAL columns ([Orders]), the exchange client and the interpreter's
    exception texts ([LiveAdapter]), C's pow ([Workers]), the candle store, the
    provider and the completeness test of the marketdata package
    ([DataOrchestrator]), the timeframe parser ([Fanout]), msgpack, pickle, SHA-256
    and the engine's classes ([StateCodec]; [StateStore] takes the encoding of a
    payload as a parameter), the answers of the strategy runtime and the hashes
    of identifiers ([JobExecutor], [Registry]), [ipaddress] and base64
    ([Security]), the event handlers ([EventBus]), and processes, clocks and the
    fail-safe callback ([Supervisor]); the contracts' admission, schemas, hashing
    and sealing ([Admission], [RunIdentity], [RunBinding], [WorkerLoop],
    [WorkerSession]), the state of git and of the environment ([BuildIdentity]),
    the strategy with its runtime and context ([WorkerLoop]), the digest of
    a sealed file ([Artifacts]), and, as the world's choices, what processes,
    queues and databases answer to a backtest ([BacktestRuns],
    [BacktestRequests]); the file format of tables, and whether the filesystem
    may report the failure of a rename that it has made ([BacktestStore]).
    What a theorem needs of them is a named hypothesis, and its witness
    instantiates them with concrete functions.

    ** Not modelled

    Input/output, presentation and calls into other packages are left out: the
    command line, the gateway's other routes, notifications, the web interface,
    storage migrations, compilation of Pine scripts, batch and optimizer
    orchestration, packaging and release checks; of the isolated worker the
    sandbox, the screening and loading of the generated module and the one-shot
    evaluation; of a backtest its numbers, which the engine computes, and the
    supervisor's walk over /proc.  The stream manager, the candle storage kept
    for older installations and the live runner's catch-up are parts with a logic
    of their own that this library does not cover. *)

From stdpp Require Export base option list fin_maps gmap strings pretty.
From Stdlib Require Export ZArith Lia Permutation Sorted.

Declare Scope openpine_scope.
Delimit Scope openpine_scope with openpine.

#[global] Open Scope string_scope.
#[global] Open Scope Z_scope.
#[global] Open Scope list_scope.
#[global] Open Scope openpine_scope.

(** Fallible Python code: [Ok] is a normal return, [Err] a raised exception. *)
Inductive result (E A : Type) : Type :=
| Ok (a : A)
| Err (e : E).
Arguments Ok {E A} a.
Arguments Err {E A} e.

Definition result_bind {E A B} (m : result E A) (f : A -> result E B) : result E B :=
  match m with
  | Ok a => f a
  | Err e => Err e
  end.

Notation "'let!' x ':=' m 'in' k" := (result_bind m (fun x => k))
  (at level 10, x name, m at level 100, k at level 200) : openpine_scope.
Notation "'let!' ' p ':=' m 'in' k" := (result_bind m (fun p => k))
  (at level 10, p strict pattern, m at level 100, k at level 200) : openpine_scope.
Notation "'guard!' b 'else' e 'in' k" := (if (b : bool) then k else Err e)
  (at level 10, b at level 100, e at level 100, k at level 200) : openpine_scope.

(** A Python loop whose body may raise: the exception leaves the loop. *)
Fixpoint result_fold {E S A} (f : S -> A -> result E S) (s : S) (xs : list A) : result E S :=
  match xs with
  | [] => Ok s
  | x :: xs' => let! s' := f s x in result_fold f s' xs'
  end.

Fixpoint result_map {E A B} (f : A -> result E B) (xs : list A) : result E (list B) :=
  match xs with
  | [] => Ok []
  | x :: xs' => let! y := f x in let! ys := result_map f xs' in Ok (y :: ys)
  end.

Definition is_ok {E A} (r : result E A) : bool :=
  match r with Ok _ => true | Err _ => false end.

(** ** Python truthiness *)

(** [if s:] on a [str]. *)
Definition str_truthy (s : string) : bool := negb (bool_decide (s = "")).

(** [if s:] on a [str | None]: the string when it is neither [None] nor empty. *)
Definition opt_truthy (s : option string) : option string :=
  match s with
  | Some v => if str_truthy v then Some v else None
  | None => None
  end.

(** [a or b] on [str | None] operands. *)
Definition str_or (a : option string) (b : string) : string :=
  match opt_truthy a with Some v => v | None => b end.

(** ** Strings as sequences of ASCII characters *)

Definition ascii_lower (c : Ascii.ascii) : Ascii.ascii :=
  let n := Ascii.nat_of_ascii c in
  if ((65 <=? n) && (n <=? 90))%nat then Ascii.ascii_of_nat (n + 32) else c.

Definition ascii_upper (c : Ascii.ascii) : Ascii.ascii :=
  let n := Ascii.nat_of_ascii c in
  if ((97 <=? n) && (n <=? 122))%nat then Ascii.ascii_of_nat (n - 32) else c.

Fixpoint str_map (f : Ascii.ascii -> Ascii.ascii) (s : string) : string :=
  match s with
  | EmptyString => EmptyString
  | String c s' => String (f c) (str_map f s')
  end.

Definition str_lower : string -> string := str_map ascii_lower.
Definition str_upper : string -> string := str_map ascii_upper.

(** The characters [str.strip] removes. *)
Definition ascii_space (c : Ascii.ascii) : bool :=
  let n := Ascii.nat_of_ascii c in
  ((9 <=? n) && (n <=? 13) || (28 <=? n) && (n <=? 32))%nat.

Fixpoint str_lstrip (s : string) : string :=
  match s with
  | EmptyString => EmptyString
  | String c s' => if ascii_space c then str_lstrip s' else s
  end.

Fixpoint str_rstrip (s : string) : string :=
  match s with
  | EmptyString => EmptyString
  | String c s' =>
      match str_rstrip s' with
      | EmptyString => if ascii_space c then EmptyString else String c EmptyString
      | s'' => String c s''
      end
  end.

Definition str_strip (s : string) : string := str_rstrip (str_lstrip s).

Fixpoint str_forall (p : Ascii.ascii -> bool) (s : string) : bool :=
  match s with
  | EmptyString => true
  | String c s' => p c && str_forall p s'
  end.

(** [text.split(sep)] for a separator of one character. *)
Fixpoint split_on (sep : Ascii.ascii) (s : string) : list string :=
  match s with
  | EmptyString => [EmptyString]
  | String c s' =>
      if Ascii.eqb c sep then EmptyString :: split_on sep s'
      else match split_on sep s' with
           | x :: l => String c x :: l
           | [] => [String c EmptyString]
           end
  end.

Definition ascii_digit (c : Ascii.ascii) : bool :=
  let n := Ascii.nat_of_ascii c in ((48 <=? n) && (n <=? 57))%nat.

(** [str.isdigit]: non-empty and every character a digit. *)
Definition str_isdigit (s : string) : bool := str_truthy s && str_forall ascii_digit s.

(** ** Insertion-ordered dictionaries

    A Python [dict] iterates in insertion order and keeps the position of a
    key whose value is replaced. *)
Definition dict (K V : Type) : Type := list (K * V).

Section Dict.
Context {K V : Type} `{EqDecision K}.

Fixpoint dget (d : dict K V) (k : K) : option V :=
  match d with
  | [] => None
  | (k', v) :: d' => if decide (k = k') then Some v else dget d' k
  end.

Fixpoint dset (d : dict K V) (k : K) (v : V) : dict K V :=
  match d with
  | [] => [(k, v)]
  | (k', v') :: d' => if decide (k = k') then (k', v) :: d' else (k', v') :: dset d' k v
  end.

Fixpoint ddel (d : dict K V) (k : K) : dict K V :=
  match d with
  | [] => []
  | (k', v') :: d' => if decide (k = k') then d' else (k', v') :: ddel d' k
  end.

Definition dkeys (d : dict K V) : list K := d.*1.
Definition dvalues (d : dict K V) : list V := d.*2.
Definition dmem (d : dict K V) (k : K) : bool :=
  match dget d k with Some _ => true | None => false end.

End Dict.

(** ** Stable sorting, [list.sort(key=...)] *)
Section Sort.
Context {A : Type} (le : A -> A -> bool).

Fixpoint sort_insert (x : A) (l : list A) : list A :=
  match l with
  | [] => [x]
  | y :: l' => if le x y then x :: y :: l' else y :: sort_insert x l'
  end.

Fixpoint sort_by (l : list A) : list A :=
  match l with
  | [] => []
  | x :: l' => sort_insert x (sort_by l')
  end.

(** [max(l, key=...)]: the first element no later one is greater than. *)
Fixpoint max_by_from (best : A) (l : list A) : A :=
  match l with
  | [] => best
  | y :: l' => max_by_from (if le y best then best else y) l'
  end.

Definition max_by (l : list A) : option A :=
  match l with
  | [] => None
  | x :: l' => Some (max_by_from x l')
  end.

End Sort.

(** Lexicographic order on pairs of integers, the key of most sorts here. *)
Definition pair_leb (a b : Z * Z) : bool :=
  (a.1 <? b.1) || ((a.1 =? b.1) && (a.2 <=? b.2)).

(** Strict order of strings by code point, Python's [<] on ASCII [str]. *)
Fixpoint str_ltb (s t : string) : bool :=
  match s, t with
  | EmptyString, EmptyString => false
  | EmptyString, String _ _ => true
  | String _ _, EmptyString => false
  | String c s', String d t' =>
      let m := Ascii.nat_of_ascii c in
      let n := Ascii.nat_of_ascii d in
      (m <? n)%nat || ((m =? n)%nat && str_ltb s' t')
  end.

Definition str_leb (s t : string) : bool := negb (str_ltb t s).

(** ** Tactics *)

Create HintDb openpine discriminated.

(** Case-split the innermost [match] or [if] of the goal and simplify. *)
Ltac case_goal :=
  match goal with
  | |- context [match ?x with _ => _ end] =>
      lazymatch x with
      | context [match _ with _ => _ end] => fail
      | _ => destruct x eqn:?
      end
  end; simplify_eq/=.

(** The same in a hypothesis. *)
Ltac case_hyp H :=
  match type of H with
  | context [match ?x with _ => _ end] =>
      lazymatch x with
      | context [match _ with _ => _ end] => fail
      | _ => destruct x eqn:?
      end
  end; simplify_eq/=.

(** Turn boolean tests of the code into the propositions they decide. *)
Ltac bool_to_prop :=
  repeat match goal with
  | H : negb _ = true |- _ => apply negb_true_iff in H
  | H : negb _ = false |- _ => apply negb_false_iff in H
  | H : _ && _ = true |- _ => apply andb_true_iff in H as [? ?]
  | H : _ || _ = false |- _ => apply orb_false_iff in H as [? ?]
  | H : bool_decide _ = true |- _ => apply bool_decide_eq_true in H
  | H : bool_decide _ = false |- _ => apply bool_decide_eq_false in H
  | H : (_ <? _) = true |- _ => apply Z.ltb_lt in H
  | H : (_ <? _) = false |- _ => apply Z.ltb_ge in H
  | H : (_ <=? _) = true |- _ => apply Z.leb_le in H
  | H : (_ <=? _) = false |- _ => apply Z.leb_gt in H
  | H : (_ =? _) = true |- _ => apply Z.eqb_eq in H
  | H : (_ =? _) = false |- _ => apply Z.eqb_neq in H
  end.

(** Invert a chain of [let!] and [guard!] known to return normally. *)
Ltac inv_result H :=
  repeat (progress (unfold result_bind in H) || case_hyp H).

(** ** Results *)

Lemma result_bind_ok {E A B} (f : A -> result E B) m b :
  result_bind m f = Ok b -> exists a, m = Ok a /\ f a = Ok b.
Proof. destruct m; simpl; intros; [eauto | done]. Qed.

Lemma result_fold_app {E S A} (f : S -> A -> result E S) s xs ys :
  result_fold f s (xs ++ ys) = (let! s' := result_fold f s xs in result_fold f s' ys).
Proof. revert s; induction xs as [|x xs IH]; intros s; [done|]. simpl. destruct (f s x); simpl; auto. Qed.

(** An invariant of the loop body is an invariant of the loop. *)
Lemma result_fold_inv {E S A} (f : S -> A -> result E S) (P : S -> Prop) s xs s' :
  (forall s x s1, x ∈ xs -> P s -> f s x = Ok s1 -> P s1) ->
  P s -> result_fold f s xs = Ok s' -> P s'.
Proof.
  revert s. induction xs as [|x xs IH]; intros s Hf Hs Hr; simpl in Hr; [by simplify_eq|].
  apply result_bind_ok in Hr as (s1 & H1 & H2).
  eapply IH; [| |exact H2].
  - intros; eapply Hf; [by right| |]; eauto.
  - eapply Hf; [by left| |]; eauto.
Qed.

Lemma result_map_ok {E A B} (f : A -> result E B) xs ys :
  result_map f xs = Ok ys <-> Forall2 (fun x y => f x = Ok y) xs ys.
Proof.
  revert ys. induction xs as [|x xs IH]; intros ys; simpl; split; intros H.
  - by simplify_eq.
  - inversion H; by subst.
  - apply result_bind_ok in H as (y & Hy & H). apply result_bind_ok in H as (zs & Hz & H).
    simplify_eq. constructor; [done|]. by apply IH.
  - inversion H as [|? y ? ys' Hy Hys]; subst. rewrite Hy. simpl.
    apply IH in Hys. by rewrite Hys.
Qed.

(** ** Dictionaries *)
Section DictFacts.
Context {K V : Type} `{EqDecision K}.
Implicit Types (d : dict K V) (k : K) (v : V).

Lemma dget_dset_eq d k v : dget (dset d k v) k = Some v.
Proof. induction d as [|[k' v'] d IH]; simpl; repeat case_decide; simpl; repeat case_decide; congruence. Qed.

Lemma dget_dset_ne d k k' v : k <> k' -> dget (dset d k v) k' = dget d k'.
Proof.
  intros Hne. induction d as [|[k1 v1] d IH]; simpl; repeat case_decide; simpl; repeat case_decide; naive_solver.
Qed.

Lemma dget_None_keys d k : dget d k = None <-> k ∉ dkeys d.
Proof.
  induction d as [|[k' v'] d IH]; simpl; [set_solver|]. case_decide; set_solver.
Qed.

Lemma dget_Some_elem d k v : dget d k = Some v -> (k, v) ∈ d.
Proof.
  induction d as [|[k' v'] d IH]; simpl; [done|]. case_decide; intros; simplify_eq; set_solver.
Qed.

Lemma elem_dget d k v : NoDup (dkeys d) -> (k, v) ∈ d -> dget d k = Some v.
Proof.
  unfold dkeys. induction d as [|[k' v'] d IH]; simpl; [set_solver|].
  rewrite NoDup_cons, elem_of_cons. intros [Hn Hd] [?|Hin]; simplify_eq.
  - by rewrite decide_True.
  - case_decide; [|eauto]. subst. destruct Hn. apply list_elem_of_fmap. by exists (k', v).
Qed.

Lemma dkeys_dset_old d k v v' : dget d k = Some v' -> dkeys (dset d k v) = dkeys d.
Proof.
  unfold dkeys. induction d as [|[k1 v1] d IH]; simpl; [done|].
  case_decide; simpl; intros; simplify_eq; [done|]. f_equal; auto.
Qed.

Lemma dset_new d k v : dget d k = None -> dset d k v = d ++ [(k, v)].
Proof.
  induction d as [|[k' v'] d IH]; simpl; [done|]. case_decide; [done|]. intros. by rewrite IH.
Qed.

Lemma dkeys_dset_new d k v : dget d k = None -> dkeys (dset d k v) = dkeys d ++ [k].
Proof. intros. unfold dkeys. rewrite dset_new by done. by rewrite fmap_app. Qed.

Lemma dset_NoDup d k v : NoDup (dkeys d) -> NoDup (dkeys (dset d k v)).
Proof.
  intros Hd. destruct (dget d k) as [v'|] eqn:Hk.
  - by rewrite (dkeys_dset_old _ _ _ _ Hk).
  - rewrite (dkeys_dset_new _ _ _ Hk). apply NoDup_app; split_and!; [done| |apply NoDup_singleton].
    apply dget_None_keys in Hk. set_solver.
Qed.

Lemma dset_elem d k v k' v' :
  NoDup (dkeys d) -> (k', v') ∈ dset d k v -> (k' = k /\ v' = v) \/ (k' <> k /\ (k', v') ∈ d).
Proof.
  intros Hd Hin. apply elem_dget in Hin; [|by apply dset_NoDup].
  destruct (decide (k' = k)) as [->|Hne].
  - rewrite dget_dset_eq in Hin. naive_solver.
  - rewrite dget_dset_ne in Hin by done. right; eauto using dget_Some_elem.
Qed.

Lemma dkeys_ddel_sub d k : dkeys (ddel d k) `sublist_of` dkeys d.
Proof.
  unfold dkeys. induction d as [|[k' v'] d IH]; simpl; [done|].
  case_decide; simpl; by constructor.
Qed.

Lemma ddel_NoDup d k : NoDup (dkeys d) -> NoDup (dkeys (ddel d k)).
Proof. intros Hd. eapply sublist_NoDup; [exact Hd | apply dkeys_ddel_sub]. Qed.

Lemma dget_ddel_eq d k : NoDup (dkeys d) -> dget (ddel d k) k = None.
Proof.
  unfold dkeys. induction d as [|[k' v'] d IH]; simpl; [done|].
  rewrite NoDup_cons. intros [Hn Hd]. case_decide; subst.
  - by apply dget_None_keys.
  - simpl. rewrite decide_False by done. auto.
Qed.

Lemma dget_ddel_ne d k k' : k <> k' -> dget (ddel d k) k' = dget d k'.
Proof.
  intros Hne. induction d as [|[k1 v1] d IH]; simpl; [done|].
  repeat case_decide; simpl; repeat case_decide; naive_solver.
Qed.

End DictFacts.

#[export] Hint Resolve dset_NoDup ddel_NoDup : openpine.

(** ** Sorting *)
Section SortFacts.
Context {A : Type} (le : A -> A -> bool).
Implicit Types (x y : A) (l : list A).

Lemma sort_insert_perm x l : Permutation (sort_insert le x l) (x :: l).
Proof.
  induction l as [|y l IH]; simpl; [done|]. destruct (le x y); [done|].
  rewrite IH. apply perm_swap.
Qed.

Lemma sort_by_perm l : Permutation (sort_by le l) l.
Proof. induction l as [|x l IH]; simpl; [done|]. by rewrite sort_insert_perm, IH. Qed.

Lemma elem_of_sort_by x l : x ∈ sort_by le l <-> x ∈ l.
Proof. by rewrite sort_by_perm. Qed.

Lemma length_sort_by l : length (sort_by le l) = length l.
Proof. by rewrite sort_by_perm. Qed.

Context (le_total : forall x y, le x y = true \/ le y x = true).
Context (le_trans : forall x y z, le x y = true -> le y z = true -> le x z = true).

Abbreviation sorted := (StronglySorted (fun x y => le x y = true)).

Lemma sort_insert_sorted x l : sorted l -> sorted (sort_insert le x l).
Proof.
  induction l as [|y l IH]; simpl; intros Hs; [by repeat constructor|].
  inversion Hs as [|? ? Hs' Hall]; subst.
  destruct (le x y) eqn:Hxy.
  - constructor; [done|]. constructor; [done|]. eapply Forall_impl; [exact Hall|]. simpl. eauto.
  - constructor; [auto|]. rewrite sort_insert_perm. constructor; [|done].
    destruct (le_total x y); [congruence | done].
Qed.

Lemma sort_by_sorted l : sorted (sort_by le l).
Proof. induction l; simpl; [constructor|]. by apply sort_insert_sorted. Qed.

Lemma sort_insert_sorted_id x l : sorted (x :: l) -> sort_insert le x l = x :: l.
Proof.
  destruct l as [|y l]; [done|]. inversion 1 as [|? ? _ Hall]; subst. simpl.
  inversion Hall; subst. by case_match.
Qed.

Lemma sort_by_sorted_id l : sorted l -> sort_by le l = l.
Proof.
  induction l as [|x l IH]; [done|]. intros Hs. simpl. rewrite IH by (by inversion Hs).
  by apply sort_insert_sorted_id.
Qed.

(** Stability: elements that compare equal both ways keep their order. *)
Lemma sort_by_stable (p : A -> bool) l :
  (forall x y, p x = true -> p y = true -> le x y = true) ->
  List.filter p (sort_by le l) = List.filter p l.
Proof.
  intros Hp. assert (Hins : forall x l, List.filter p (sort_insert le x l) =
    if p x then x :: List.filter p l else List.filter p l).
  { intros x l'. induction l' as [|y l' IH]; simpl; [done|].
    destruct (le x y) eqn:Hxy; simpl; [done|]. rewrite IH.
    destruct (p x) eqn:Hx, (p y) eqn:Hy; try done. rewrite (Hp x y) in Hxy; done. }
  induction l as [|x l IH]; simpl; [done|]. by rewrite Hins, IH.
Qed.

Lemma max_by_from_elem b l : max_by_from le b l = b \/ max_by_from le b l ∈ l.
Proof.
  revert b; induction l as [|y l IH]; intros b; simpl; [by left|].
  destruct (IH (if le y b then b else y)) as [Heq|Hin]; [|right; by right].
  rewrite Heq. case_match; [by left | right; by left].
Qed.

Lemma max_by_from_ge b l x : x = b \/ x ∈ l -> le x (max_by_from le b l) = true.
Proof.
  revert b x; induction l as [|y l IH]; intros b x Hx; simpl.
  { destruct Hx as [->|Hx]; [|set_solver]. by destruct (le_total b b). }
  destruct Hx as [->|Hx%elem_of_cons].
  - destruct (le y b) eqn:Hyb; [apply IH; by left|].
    apply (le_trans _ y); [|apply IH; by left]. destruct (le_total y b); congruence.
  - destruct Hx as [->|Hx]; [|apply IH; by right].
    destruct (le y b) eqn:Hyb; [|apply IH; by left].
    eapply le_trans; [exact Hyb | apply IH; by left].
Qed.

Lemma max_by_spec l m : max_by le l = Some m -> m ∈ l /\ forall x, x ∈ l -> le x m = true.
Proof.
  destruct l as [|b l]; simpl; [done|]. intros [= <-]. split.
  - destruct (max_by_from_elem b l) as [->|]; [by left | by right].
  - intros x Hx. apply max_by_from_ge. by apply elem_of_cons in Hx.
Qed.

End SortFacts.

Lemma pair_leb_total a b : pair_leb a b = true \/ pair_leb b a = true.
Proof. unfold pair_leb. destruct a, b; simpl. lia. Qed.

Lemma pair_leb_trans a b c : pair_leb a b = true -> pair_leb b c = true -> pair_leb a c = true.
Proof. unfold pair_leb. destruct a, b, c; simpl. lia. Qed.

Lemma str_ltb_irrefl s : str_ltb s s = false.
Proof. induction s as [|c s IH]; simpl; [done|]. rewrite IH, Nat.ltb_irrefl. by rewrite andb_false_r. Qed.

Lemma str_ltb_trans s t u : str_ltb s t = true -> str_ltb t u = true -> str_ltb s u = true.
Proof.
  revert t u. induction s as [|c s IH]; intros [|d t] [|e u]; simpl; try done.
  rewrite !orb_true_iff, !andb_true_iff, !Nat.ltb_lt, !Nat.eqb_eq.
  intros [?|[? ?]] [?|[? ?]]; first [left; lia | right; split; [lia | eauto]].
Qed.

Lemma str_ltb_total s t : str_ltb s t = true \/ s = t \/ str_ltb t s = true.
Proof.
  revert t. induction s as [|c s IH]; intros [|d t]; simpl; auto.
  rewrite !orb_true_iff, !andb_true_iff, !Nat.ltb_lt, !Nat.eqb_eq.
  destruct (Nat.lt_trichotomy (Ascii.nat_of_ascii c) (Ascii.nat_of_ascii d)) as [?|[Heq|?]]; auto.
  destruct (IH t) as [?|[->|?]]; auto.
  right; left. f_equal. rewrite <-(Ascii.ascii_nat_embedding c), Heq. apply Ascii.ascii_nat_embedding.
Qed.

Lemma str_leb_total s t : str_leb s t = true \/ str_leb t s = true.
Proof.
  unfold str_leb. destruct (str_ltb t s) eqn:H1, (str_ltb s t) eqn:H2; simpl; auto.
  pose proof (str_ltb_trans _ _ _ H1 H2) as H. by rewrite str_ltb_irrefl in H.
Qed.

Lemma str_leb_trans s t u : str_leb s t = true -> str_leb t u = true -> str_leb s u = true.
Proof.
  unfold str_leb. rewrite !negb_true_iff. intros H1 H2.
  destruct (str_ltb u s) eqn:H3; [|done].
  destruct (str_ltb_total s t) as [H|[->|H]]; [|congruence|congruence].
  pose proof (str_ltb_trans _ _ _ H3 H). congruence.
Qed.

Lemma str_leb_antisym s t : str_leb s t = true -> str_leb t s = true -> s = t.
Proof.
  unfold str_leb. rewrite !negb_true_iff. intros.
  destruct (str_ltb_total s t) as [H1|[?|H1]]; congruence.
Qed.

(** ** Case *)

Lemma str_map_idem f s : (forall c, f (f c) = f c) -> str_map f (str_map f s) = str_map f s.
Proof. intros Hf. induction s as [|c s IH]; simpl; [done|]. by rewrite Hf, IH. Qed.

Lemma str_upper_idem s : str_upper (str_upper s) = str_upper s.
Proof. apply str_map_idem. intros [[] [] [] [] [] [] [] []]; reflexivity. Qed.

Lemma str_lower_idem s : str_lower (str_lower s) = str_lower s.
Proof. apply str_map_idem. intros [[] [] [] [] [] [] [] []]; reflexivity. Qed.

(** ** Truthiness *)

Lemma opt_truthy_Some s v : opt_truthy s = Some v <-> s = Some v /\ v <> "".
Proof.
  unfold opt_truthy, str_truthy. destruct s as [w|]; [|naive_solver].
  case_bool_decide; simpl; naive_solver.
Qed.

#[export] Hint Resolve pair_leb_total pair_leb_trans str_leb_total str_leb_trans : openpine.
