(* ===== verification/JobStore.v ===== *)
(** The transactional job store, [openpine/jobs/transactional_store.py].

    One SQLite database with a [jobs] table (primary key [job_id]) and an
    append-only [events] table.  Every mutating method of [JobV1Store] runs in
    one [BEGIN IMMEDIATE] transaction under the store's lock, so an operation
    is a function from the database to a new database and a result; a raised
    exception rolls the transaction back.  Job payloads are sealed and
    validated by [openpine_contracts], which is outside the repository and
    enters as the parameters [seal_content_hash] and [validate_payload]. *)

From S2P Require Import Prelude.

(** ** Data *)

(** [openpine_contracts.JobState], the members the store names. *)
Inductive JobState :=
| QUEUED | RUNNING | SUCCEEDED | FAILED | CANCELED | LOST | RETRY_WAIT.

#[export] Instance JobState_eq_dec : EqDecision JobState.
Proof. solve_decision. Defined.

Definition JOB_KINDS : list string :=
  ["backtest"; "backfill"; "compile"; "optimize"; "parity"; "report"].

(** [_ALLOWED_TRANSITIONS]. *)
Definition ALLOWED_TRANSITIONS (s : JobState) : list JobState :=
  match s with
  | QUEUED => [RUNNING; FAILED; CANCELED]
  | RUNNING => [SUCCEEDED; FAILED; CANCELED; LOST]
  | FAILED => [QUEUED; CANCELED]
  | LOST => [QUEUED; CANCELED]
  | RETRY_WAIT => [QUEUED; CANCELED]
  | SUCCEEDED => []
  | CANCELED => []
  end.

Record Envelope := mkEnvelope {
  schema_id : string;
  schema_version : string;
  producer : string;
  producer_version : string;
  producer_commit : string;
  stack_id : string;
  created_at_utc_ms : Z;
  serializer_id : string;
  content_hash_alg : string
}.

(** The fields of a job payload apart from the content hash. *)
Record JobCore := mkJobCore {
  envelope : Envelope;
  job_id : string;
  kind : string;
  state : JobState;
  version : Z;
  progress : Z;
  started_at_utc_ms : option Z;
  updated_at_utc_ms : Z;
  finished_at_utc_ms : option Z;
  actor : option string;
  input_artifact_refs : list string;
  result_artifact_refs : list string;
  error_code : option string;
  idempotency_key : option string;
  lease_owner : option string;
  lease_deadline_utc_ms : option Z;
  retry_count : Z;
  max_retries : option Z;
  parent_job_id : option string;
  child_job_ids : list string;
  event_cursor : option string;
  run_id : option string
}.

Record Job := mkJob { core :> JobCore; content_hash : option string }.

(** A row of [jobs]; [None] is a payload text that is not a JSON object. *)
Record JobRow := mkJobRow {
  row_payload : option Job;
  row_idempotency_key : option string;
  row_state : JobState;
  row_version : Z
}.

Record EventBody := mkEventBody {
  ev_event_id : string;
  ev_sequence : Z;
  ev_type : string;
  ev_job_id : string;
  ev_state : JobState;
  ev_version : Z
}.

(** A row of [events]; the payload is ["{}"] ([None]) until it is filled in. *)
Record EventRow := mkEventRow {
  event_seq : Z;
  event_id : string;
  event_job_id : string;
  event_payload : option EventBody
}.

(** The database; [last_seq] is the AUTOINCREMENT counter of [events]. *)
Record DB := mkDB {
  jobs : dict string JobRow;
  events : list EventRow;
  last_seq : Z
}.

Definition empty_db : DB := mkDB [] [] 0.

Inductive store_error :=
| JobV1Error (msg : string)
| DecodeError.

(** ** Field updates *)

Definition set_core (f : JobCore -> JobCore) (j : Job) : Job := mkJob (f j) (content_hash j).

Definition upd_version (now v : Z) (s : JobState) (c : JobCore) : JobCore :=
  mkJobCore (envelope c) (job_id c) (kind c) s v (progress c) (started_at_utc_ms c)
    now (finished_at_utc_ms c) (actor c) (input_artifact_refs c) (result_artifact_refs c)
    (error_code c) (idempotency_key c) (lease_owner c) (lease_deadline_utc_ms c)
    (retry_count c) (max_retries c) (parent_job_id c) (child_job_ids c) (event_cursor c) (run_id c).

Definition upd_lease (owner : option string) (deadline : option Z) (c : JobCore) : JobCore :=
  mkJobCore (envelope c) (job_id c) (kind c) (state c) (version c) (progress c) (started_at_utc_ms c)
    (updated_at_utc_ms c) (finished_at_utc_ms c) (actor c) (input_artifact_refs c) (result_artifact_refs c)
    (error_code c) (idempotency_key c) owner deadline
    (retry_count c) (max_retries c) (parent_job_id c) (child_job_ids c) (event_cursor c) (run_id c).

Definition upd_started (t : option Z) (c : JobCore) : JobCore :=
  mkJobCore (envelope c) (job_id c) (kind c) (state c) (version c) (progress c) t
    (updated_at_utc_ms c) (finished_at_utc_ms c) (actor c) (input_artifact_refs c) (result_artifact_refs c)
    (error_code c) (idempotency_key c) (lease_owner c) (lease_deadline_utc_ms c)
    (retry_count c) (max_retries c) (parent_job_id c) (child_job_ids c) (event_cursor c) (run_id c).

Definition upd_finished (t : option Z) (c : JobCore) : JobCore :=
  mkJobCore (envelope c) (job_id c) (kind c) (state c) (version c) (progress c) (started_at_utc_ms c)
    (updated_at_utc_ms c) t (actor c) (input_artifact_refs c) (result_artifact_refs c)
    (error_code c) (idempotency_key c) (lease_owner c) (lease_deadline_utc_ms c)
    (retry_count c) (max_retries c) (parent_job_id c) (child_job_ids c) (event_cursor c) (run_id c).

Definition upd_result (p : Z) (refs : list string) (c : JobCore) : JobCore :=
  mkJobCore (envelope c) (job_id c) (kind c) (state c) (version c) p (started_at_utc_ms c)
    (updated_at_utc_ms c) (finished_at_utc_ms c) (actor c) (input_artifact_refs c) refs
    (error_code c) (idempotency_key c) (lease_owner c) (lease_deadline_utc_ms c)
    (retry_count c) (max_retries c) (parent_job_id c) (child_job_ids c) (event_cursor c) (run_id c).

Definition upd_error (e : option string) (c : JobCore) : JobCore :=
  mkJobCore (envelope c) (job_id c) (kind c) (state c) (version c) (progress c) (started_at_utc_ms c)
    (updated_at_utc_ms c) (finished_at_utc_ms c) (actor c) (input_artifact_refs c) (result_artifact_refs c)
    e (idempotency_key c) (lease_owner c) (lease_deadline_utc_ms c)
    (retry_count c) (max_retries c) (parent_job_id c) (child_job_ids c) (event_cursor c) (run_id c).

Definition upd_retry_count (n : Z) (c : JobCore) : JobCore :=
  mkJobCore (envelope c) (job_id c) (kind c) (state c) (version c) (progress c) (started_at_utc_ms c)
    (updated_at_utc_ms c) (finished_at_utc_ms c) (actor c) (input_artifact_refs c) (result_artifact_refs c)
    (error_code c) (idempotency_key c) (lease_owner c) (lease_deadline_utc_ms c)
    n (max_retries c) (parent_job_id c) (child_job_ids c) (event_cursor c) (run_id c).

Definition upd_children (ids : list string) (c : JobCore) : JobCore :=
  mkJobCore (envelope c) (job_id c) (kind c) (state c) (version c) (progress c) (started_at_utc_ms c)
    (updated_at_utc_ms c) (finished_at_utc_ms c) (actor c) (input_artifact_refs c) (result_artifact_refs c)
    (error_code c) (idempotency_key c) (lease_owner c) (lease_deadline_utc_ms c)
    (retry_count c) (max_retries c) (parent_job_id c) ids (event_cursor c) (run_id c).

Definition upd_cursor (e : option string) (c : JobCore) : JobCore :=
  mkJobCore (envelope c) (job_id c) (kind c) (state c) (version c) (progress c) (started_at_utc_ms c)
    (updated_at_utc_ms c) (finished_at_utc_ms c) (actor c) (input_artifact_refs c) (result_artifact_refs c)
    (error_code c) (idempotency_key c) (lease_owner c) (lease_deadline_utc_ms c)
    (retry_count c) (max_retries c) (parent_job_id c) (child_job_ids c) e (run_id c).

(** ** The store *)

Section Store.

(** [openpine_contracts.seal_content_hash(payload, schema_id=SCHEMA_ID)] and
    [validate_payload(SCHEMA_ID, payload)]; [Err] carries the message of the
    [SchemaValidationError].  [JobState_value] is the [value] of its enum
    members (the texts of the [state] column), [SERIALIZER_ID] is its serializer's name, and
    [build_identity] is what [current_build_identity()] reports:
    the contract version and commit, or the [BuildIdentityError] message. *)
Variable seal_content_hash : Job -> result string Job.
Variable validate_payload : Job -> result string unit.
Variable JobState_value : JobState -> string.
Variable SERIALIZER_ID : string.
Variable build_identity : result string (string * string).

Definition rehash (payload : Job) : result store_error Job :=
  match seal_content_hash payload with
  | Err m => Err (JobV1Error m)
  | Ok sealed =>
      match validate_payload sealed with
      | Err m => Err (JobV1Error m)
      | Ok _ => Ok sealed
      end
  end.

Definition make_envelope (body : Envelope -> JobCore) (created : Z) (stack : string)
    : result store_error Job :=
  match build_identity with
  | Err m => Err (JobV1Error m)
  | Ok (contract_version, commit) =>
      rehash (mkJob (body (mkEnvelope "openpine.job.v1" "1.0.0" "openpine" contract_version
                             commit stack created SERIALIZER_ID "sha256")) None)
  end.

(** [BEGIN IMMEDIATE] ... [COMMIT], [ROLLBACK] when the body raises. *)
Definition transaction {A} (body : DB -> result store_error (A * DB)) (db : DB)
    : DB * result store_error A :=
  match body db with
  | Ok (a, db') => (db', Ok a)
  | Err e => (db, Err e)
  end.

Definition get_in_transaction (db : DB) (jid : string) : result store_error Job :=
  match dget (jobs db) jid with
  | None => Err (JobV1Error ("job not found: " +:+ jid))
  | Some row =>
      match row_payload row with
      | None => Err (JobV1Error ("corrupt persisted job: " +:+ jid))
      | Some payload =>
          match validate_payload payload with
          | Err m => Err (JobV1Error m)
          | Ok _ => Ok payload
          end
      end
  end.

Definition get (db : DB) (jid : option string) : result store_error Job :=
  match opt_truthy jid with
  | None => Err (JobV1Error "job_id required")
  | Some jid => get_in_transaction db jid
  end.

Definition row_has_key (key : string) (r : string * JobRow) : bool :=
  bool_decide (row_idempotency_key r.2 = Some key).

Definition by_idempotency_in_transaction (db : DB) (key : string)
    : result store_error (option Job) :=
  match List.find (row_has_key key) (jobs db) with
  | None => Ok None
  | Some r =>
      match row_payload r.2 with
      | None => Err (JobV1Error "corrupt persisted idempotency row")
      | Some p => Ok (Some p)
      end
  end.

Definition require_version (j : Job) (expected : option Z) : result store_error unit :=
  match expected with
  | Some v =>
      if version j =? v then Ok tt
      else Err (JobV1Error ("version conflict: expected " +:+ pretty v +:+ ", got " +:+ pretty (version j)))
  | None => Ok tt
  end.

Definition require_live_lease (j : Job) (owner : option string) (now : Z) : result store_error unit :=
  match opt_truthy owner with
  | None => Err (JobV1Error "lease owner mismatch")
  | Some o =>
      if bool_decide (lease_owner j = Some o) then
        match lease_deadline_utc_ms j with
        | None => Err (JobV1Error "lease expired")
        | Some d => if d <? now then Err (JobV1Error "lease expired") else Ok tt
        end
      else Err (JobV1Error "lease owner mismatch")
  end.

(** [UPDATE jobs SET ... WHERE job_id = ? AND version = ?], [None] when
    [rowcount] is not 1. *)
Definition update_row (db : DB) (jid : string) (expected : Z) (f : JobRow -> JobRow) : option DB :=
  match dget (jobs db) jid with
  | Some row =>
      if row_version row =? expected
      then Some (mkDB (dset (jobs db) jid (f row)) (events db) (last_seq db))
      else None
  | None => None
  end.

Definition store_job_in_transaction (db : DB) (payload : Job) (expected : Z)
    : result store_error (Job * DB) :=
  let! sealed := rehash payload in
  match update_row db (job_id sealed) expected
          (fun _ => mkJobRow (Some sealed) (idempotency_key sealed) (state sealed) (version sealed)) with
  | Some db' => Ok (sealed, db')
  | None => Err (JobV1Error "version conflict while storing job")
  end.

Definition stable_event_id (jid etype : string) (j : Job) (eid : option string) : string :=
  str_or eid (jid +:+ ":" +:+ etype +:+ ":v" +:+ pretty (version j)).

Definition event_exists (db : DB) (eid : string) : bool :=
  existsb (fun e => bool_decide (event_id e = eid)) (events db).

Definition fill_event (seq : Z) (b : EventBody) (e : EventRow) : EventRow :=
  if event_seq e =? seq then mkEventRow (event_seq e) (event_id e) (event_job_id e) (Some b) else e.

Definition append_event_in_transaction (db : DB) (jid etype : string) (j : Job) (eid : option string)
    : result store_error (Job * DB) :=
  let sid := stable_event_id jid etype j eid in
  if event_exists db sid then Ok (set_core (upd_cursor (Some sid)) j, db)
  else
    let seq := last_seq db + 1 in
    let inserted := events db ++ [mkEventRow seq sid jid None] in
    let body := mkEventBody sid seq etype jid (state j) (version j) in
    let db1 := mkDB (jobs db) (map (fill_event seq body) inserted) seq in
    let! sealed := rehash (set_core (upd_cursor (Some sid)) j) in
    let set_payload row :=
      mkJobRow (Some sealed) (row_idempotency_key row) (row_state row) (row_version row) in
    match update_row db1 jid (version sealed) set_payload with
    | Some db2 => Ok (sealed, db2)
    | None => Ok (sealed, db1)
    end.

Definition transition_in_transaction (db : DB) (j : Job) (target : JobState) (etype : string)
    (now : Z) (updates : JobCore -> JobCore) (eid : option string) : result store_error (Job * DB) :=
  if bool_decide (target ∈ ALLOWED_TRANSITIONS (state j)) then
    let old_version := version j in
    let j1 := set_core (fun c => upd_version now (old_version + 1) target (updates c)) j in
    let! '(sealed, db1) := store_job_in_transaction db j1 old_version in
    append_event_in_transaction db1 (job_id sealed) etype sealed eid
  else Err (JobV1Error ("transition " +:+ JobState_value (state j) +:+ " -> "
                          +:+ JobState_value target +:+ " is not allowed")).

Definition transition (db : DB) (jid : string) (target : JobState) (etype : string)
    (expected : option Z) (now : Z) (updates : JobCore -> JobCore) : result store_error (Job * DB) :=
  let! j := get_in_transaction db jid in
  let! _ := require_version j expected in
  transition_in_transaction db j target etype now updates None.

(** *** [create] *)

Record CreateArgs := mkCreateArgs {
  c_job_id : option string;
  c_kind : string;
  c_actor : option string;
  c_idempotency_key : option string;
  c_parent_job_id : option string;
  c_input_artifact_refs : list string;
  c_stack_id : string;
  c_max_retries : Z
}.

Definition new_core (jid : string) (a : CreateArgs) (now : Z) (env : Envelope) : JobCore :=
  mkJobCore env jid (c_kind a) QUEUED 1 0 None now None (c_actor a) (c_input_artifact_refs a) []
    None (c_idempotency_key a) None None 0 (Some (c_max_retries a)) (c_parent_job_id a) [] None None.

(** [INSERT INTO jobs]: [None] on a primary-key or unique-index violation. *)
Definition insert_job (db : DB) (jid : string) (payload : Job) (key : option string) : option DB :=
  if dmem (jobs db) jid then None
  else if match key with
          | Some k => existsb (row_has_key k) (jobs db)
          | None => false
          end then None
  else Some (mkDB (dset (jobs db) jid (mkJobRow (Some payload) key QUEUED 1)) (events db) (last_seq db)).

Definition link_child (db : DB) (parent_id jid : string) (now : Z) : result store_error DB :=
  let! parent := get_in_transaction db parent_id in
  if bool_decide (jid ∈ child_job_ids parent) then Ok db
  else
    let old_version := version parent in
    let p1 := set_core (fun c => upd_version now (old_version + 1) (state c)
                                   (upd_children (child_job_ids c ++ [jid]) c)) parent in
    let! '(p2, db1) := store_job_in_transaction db p1 old_version in
    let! '(_, db2) := append_event_in_transaction db1 parent_id "child_linked" p2 None in
    Ok db2.

Definition insert_new_job (db : DB) (a : CreateArgs) (jid : string) (now : Z)
    : result store_error (Job * DB) :=
  let! payload := make_envelope (new_core jid a now) now (c_stack_id a) in
  match insert_job db jid payload (c_idempotency_key a) with
  | None =>
      let! existing :=
        match opt_truthy (c_idempotency_key a) with
        | Some key => by_idempotency_in_transaction db key
        | None => Ok None
        end in
      match existing with
      | Some e => Ok (e, db)
      | None => Err (JobV1Error ("job already exists: " +:+ jid))
      end
  | Some db1 =>
      let! db2 :=
        match opt_truthy (c_parent_job_id a) with
        | Some parent_id => link_child db1 parent_id jid now
        | None => Ok db1
        end in
      append_event_in_transaction db2 jid "created" payload None
  end.

Definition create_body (a : CreateArgs) (jid : string) (now : Z) (db : DB)
    : result store_error (Job * DB) :=
  let! existing :=
    match opt_truthy (c_idempotency_key a) with
    | Some key => by_idempotency_in_transaction db key
    | None => Ok None
    end in
  match existing with
  | Some e => Ok (e, db)
  | None => insert_new_job db a jid now
  end.

Definition create (a : CreateArgs) (now : Z) (db : DB) : DB * result store_error Job :=
  match opt_truthy (c_job_id a) with
  | None => (db, Err (JobV1Error "job_id required"))
  | Some jid =>
      if negb (bool_decide (c_kind a ∈ JOB_KINDS)) then
        (db, Err (JobV1Error ("unknown kind: " +:+ c_kind a)))
      else if c_max_retries a <? 0 then
        (db, Err (JobV1Error "max_retries must be >= 0"))
      else transaction (create_body a jid now) db
  end.

(** *** Leases and transitions *)

Definition mark_running (jid owner : string) (deadline now : Z) (expected : option Z) (db : DB)
    : DB * result store_error Job :=
  if negb (str_truthy owner) then (db, Err (JobV1Error "lease owner required"))
  else if deadline <=? now then (db, Err (JobV1Error "lease deadline must be in the future"))
  else transaction (fun db =>
         transition db jid RUNNING "running" expected now
           (fun c => upd_lease (Some owner) (Some deadline) (upd_started (Some now) c))) db.

Definition renew_body (jid owner : string) (deadline now : Z) (expected : option Z) (db : DB)
    : result store_error (Job * DB) :=
  let! j := get_in_transaction db jid in
  let! _ := require_version j expected in
  let! _ := require_live_lease j (Some owner) now in
  let old_version := version j in
  let j1 := set_core (fun c => upd_version now (old_version + 1) (state c)
                                 (upd_lease (lease_owner c) (Some deadline) c)) j in
  let! '(sealed, db1) := store_job_in_transaction db j1 old_version in
  append_event_in_transaction db1 jid "lease_renewed" sealed None.

Definition renew_lease (jid owner : string) (deadline now : Z) (expected : option Z) (db : DB)
    : DB * result store_error Job :=
  if deadline <=? now then (db, Err (JobV1Error "lease deadline must be in the future"))
  else transaction (renew_body jid owner deadline now expected) db.

Definition succeeded_body (jid owner : string) (expected : option Z) (now : Z) (refs : list string)
    (db : DB) : result store_error (Job * DB) :=
  let! j := get_in_transaction db jid in
  let! _ := require_version j expected in
  if bool_decide (state j = RUNNING) then
    let! _ := require_live_lease j (Some owner) now in
    transition_in_transaction db j SUCCEEDED "succeeded" now
      (fun c => upd_lease None None (upd_result 100 refs (upd_finished (Some now) c))) None
  else Err (JobV1Error ("transition " +:+ JobState_value (state j) +:+ " -> "
                          +:+ JobState_value SUCCEEDED +:+ " is not allowed")).

Definition mark_succeeded (jid owner : string) (expected : option Z) (now : Z) (refs : list string)
    : DB -> DB * result store_error Job :=
  transaction (succeeded_body jid owner expected now refs).

Definition failed_body (jid error : string) (owner : option string) (expected : option Z) (now : Z)
    (db : DB) : result store_error (Job * DB) :=
  let! j := get_in_transaction db jid in
  let! _ := require_version j expected in
  let! _ := if bool_decide (state j = RUNNING) then require_live_lease j owner now else Ok tt in
  transition_in_transaction db j FAILED "failed" now
    (fun c => upd_lease None None (upd_error (Some error) (upd_finished (Some now) c))) None.

Definition mark_failed (jid error : string) (owner : option string) (expected : option Z) (now : Z)
    : DB -> DB * result store_error Job :=
  transaction (failed_body jid error owner expected now).

(** [cancel] reads the clock twice: [now] stamps the update, [now'] the finish. *)
Definition cancel_body (jid : string) (key : option string) (now now' : Z) (db : DB)
    : result store_error (Job * DB) :=
  let! j := get_in_transaction db jid in
  if bool_decide (state j = CANCELED) then Ok (j, db)
  else transition_in_transaction db j CANCELED "canceled" now
         (fun c => upd_lease None None (upd_finished (Some now') c)) key.

Definition cancel (jid : string) (key : option string) (now now' : Z)
    : DB -> DB * result store_error Job :=
  transaction (cancel_body jid key now now').

Definition retry_body (jid : string) (now : Z) (db : DB) : result store_error (Job * DB) :=
  let! j := get_in_transaction db jid in
  if bool_decide (state j = QUEUED) && (0 <? retry_count j) then Ok (j, db)
  else
    let next_count := retry_count j + 1 in
    if match max_retries j with Some m => m <? next_count | None => false end
    then Err (JobV1Error "retry limit reached")
    else transition_in_transaction db j QUEUED "retried" now
           (fun c => upd_retry_count next_count (upd_error None (upd_finished None c))) None.

Definition retry (jid : string) (now : Z) : DB -> DB * result store_error Job :=
  transaction (retry_body jid now).

(** *** [recover_lost_leases] *)

(** [SELECT payload FROM jobs WHERE state = 'running' ORDER BY job_id]. *)
Definition running_rows (db : DB) : list (string * JobRow) :=
  sort_by (fun a b => str_leb a.1 b.1)
    (List.filter (fun r => bool_decide (row_state r.2 = RUNNING)) (jobs db)).

Definition lease_lost (now : Z) (j : Job) : bool :=
  match lease_deadline_utc_ms j with
  | None => false
  | Some d => d <? now
  end.

Definition recover_row (now : Z) (acc : DB * Z) (r : string * JobRow) : result store_error (DB * Z) :=
  match row_payload r.2 with
  | None => Err DecodeError
  | Some j =>
      if lease_lost now j then
        let! '(_, db') := transition_in_transaction acc.1 j LOST "lost" now
                            (fun c => upd_lease None None (upd_finished (Some now) c)) None in
        Ok (db', acc.2 + 1)
      else Ok acc
  end.

Definition recover_body (now : Z) (db : DB) : result store_error (Z * DB) :=
  let! '(db', n) := result_fold (recover_row now) (db, 0) (running_rows db) in
  Ok (n, db').

Definition recover_lost_leases (now : Z) : DB -> DB * result store_error Z :=
  transaction (recover_body now).

(** *** Queries *)

Definition decode_row (r : string * JobRow) : result store_error Job :=
  match row_payload r.2 with
  | None => Err DecodeError
  | Some j => Ok j
  end.

(** The sort key of [list_jobs]: newest first, then by job id. *)
Definition job_leb (a b : Job) : bool :=
  let ta := - created_at_utc_ms (envelope a) in
  let tb := - created_at_utc_ms (envelope b) in
  (ta <? tb) || ((ta =? tb) && str_leb (job_id a) (job_id b)).

(** [for index, item in enumerate(jobs): if item["job_id"] == cursor: ...]:
    the jobs after the first one with the cursor's id, or all of them. *)
Fixpoint after_cursor (c : string) (js : list Job) : option (list Job) :=
  match js with
  | [] => None
  | j :: js' => if bool_decide (job_id j = c) then Some js' else after_cursor c js'
  end.

Definition from_cursor (cursor : option string) (js : list Job) : list Job :=
  match opt_truthy cursor with
  | None => js
  | Some c => default js (after_cursor c js)
  end.

Definition kind_matches (k : option string) (j : Job) : bool :=
  match opt_truthy k with Some k => bool_decide (kind j = k) | None => true end.

Definition state_matches (s : option string) (j : Job) : bool :=
  match opt_truthy s with
  | Some s => bool_decide (JobState_value (state j) = s)
  | None => true
  end.

Definition listing (db : DB) (k s : option string) : result store_error (list Job) :=
  let! js := result_map decode_row (jobs db) in
  Ok (List.filter (state_matches s) (List.filter (kind_matches k) (sort_by job_leb js))).

Definition list_jobs (db : DB) (k s cursor : option string) (limit : Z)
    : result store_error (list Job * option string) :=
  let! filtered := listing db k s in
  let js := from_cursor cursor filtered in
  let bounded_limit := Z.max 1 (Z.min limit 1000) in
  let page := take (Z.to_nat bounded_limit) js in
  let next_cursor :=
    if (length page <? length js)%nat then job_id ∘ core <$> last page else None in
  Ok (page, next_cursor).

(** [SELECT payload FROM events ... ORDER BY seq]. *)
Definition find_event (db : DB) (eid : string) : option EventRow :=
  List.find (fun e => bool_decide (event_id e = eid)) (events db).

Definition events_after (db : DB) (after : string) : list (option EventBody) :=
  if str_truthy after then
    match find_event db after with
    | None => []
    | Some anchor =>
        event_payload <$> sort_by (fun a b => event_seq a <=? event_seq b)
          (List.filter (fun e => event_seq anchor <? event_seq e) (events db))
    end
  else event_payload <$> sort_by (fun a b => event_seq a <=? event_seq b) (events db).

Definition needs_resync (db : DB) (after : string) : bool :=
  str_truthy after && match find_event db after with None => true | Some _ => false end.

(** ** Operations as labels *)

Inductive Op :=
| OCreate (a : CreateArgs) (now : Z)
| OMarkRunning (jid owner : string) (deadline now : Z) (expected : option Z)
| ORenewLease (jid owner : string) (deadline now : Z) (expected : option Z)
| OMarkSucceeded (jid owner : string) (expected : option Z) (now : Z) (refs : list string)
| OMarkFailed (jid error : string) (owner : option string) (expected : option Z) (now : Z)
| OCancel (jid : string) (key : option string) (now now' : Z)
| ORetry (jid : string) (now : Z)
| ORecover (now : Z).

(** The database after a call, whatever the call returns. *)
Definition exec (op : Op) (db : DB) : DB :=
  match op with
  | OCreate a now => (create a now db).1
  | OMarkRunning jid o d now v => (mark_running jid o d now v db).1
  | ORenewLease jid o d now v => (renew_lease jid o d now v db).1
  | OMarkSucceeded jid o v now refs => (mark_succeeded jid o v now refs db).1
  | OMarkFailed jid e o v now => (mark_failed jid e o v now db).1
  | OCancel jid k now now' => (cancel jid k now now' db).1
  | ORetry jid now => (retry jid now db).1
  | ORecover now => (recover_lost_leases now db).1
  end.

Definition exec_all (ops : list Op) (db : DB) : DB := fold_left (fun d o => exec o d) ops db.

End Store.
