(* ===== verification/JobStoreFacts.v ===== *)
(** Correctness of the transactional job store (JobStore.v): the invariant of
    the database, the job state machine it implements, idempotent creation,
    lease fencing and recovery, pagination and the event log. *)

From S2P Require Import Prelude JobStore.

(** ** Specification *)

(** What a stored job payload satisfies. *)
Definition core_ok (c : JobCore) : Prop :=
  1 <= version c /\ 0 <= retry_count c /\
  (forall m, max_retries c = Some m -> retry_count c <= m) /\
  (if decide (state c = RUNNING)
   then (exists o, lease_owner c = Some o /\ o <> "") /\ is_Some (lease_deadline_utc_ms c)
   else lease_owner c = None /\ lease_deadline_utc_ms c = None) /\
  (finished_at_utc_ms c = None <-> state c = QUEUED \/ state c = RUNNING) /\
  state c <> RETRY_WAIT /\
  progress c = (if decide (state c = SUCCEEDED) then 100 else 0).

(** The indexed columns of a row repeat what its payload says. *)
Definition agrees (jid : string) (row : JobRow) (j : Job) : Prop :=
  job_id j = jid /\ idempotency_key j = row_idempotency_key row /\
  state j = row_state row /\ version j = row_version row.

Definition idem_keys (db : DB) : list string := omap (fun r => row_idempotency_key r.2) (jobs db).

(** The state, version and key of a job, as the [jobs] table shows them. *)
Definition view (db : DB) (jid : string) : option (JobState * Z * option string) :=
  (fun row => (row_state row, row_version row, row_idempotency_key row)) <$> dget (jobs db) jid.

Definition event_ok (db : DB) (e : EventRow) : Prop :=
  1 <= event_seq e <= last_seq db /\
  exists b s v k, event_payload e = Some b /\ ev_event_id b = event_id e /\
    ev_sequence b = event_seq e /\ ev_job_id b = event_job_id e /\
    view db (event_job_id e) = Some (s, v, k) /\ ev_version b <= v.

(** One step of the job state machine: nothing happens, or the version grows
    by one, the key is kept and the state stays or follows [ALLOWED_TRANSITIONS]. *)
Definition job_step (a b : JobState * Z * option string) : Prop :=
  b = a \/
  (b.1.2 = a.1.2 + 1 /\ b.2 = a.2 /\ (b.1.1 = a.1.1 \/ b.1.1 ∈ ALLOWED_TRANSITIONS a.1.1)).

Definition steps (db db' : DB) : Prop :=
  forall jid a, view db jid = Some a -> exists b, view db' jid = Some b /\ job_step a b.

Section Facts.

Context (seal_content_hash : Job -> result string Job).
Context (validate_payload : Job -> result string unit).
Context (JobState_value : JobState -> string).
Context (SERIALIZER_ID : string).
Context (build_identity : result string (string * string)).

(** Sealing writes the content hash and nothing else. *)
Hypothesis seal_core : forall j j', seal_content_hash j = Ok j' -> core j' = core j.

Abbreviation rehash := (rehash seal_content_hash validate_payload).
Abbreviation get_in_transaction := (get_in_transaction validate_payload).
Abbreviation store_job := (store_job_in_transaction seal_content_hash validate_payload).
Abbreviation append_event := (append_event_in_transaction seal_content_hash validate_payload).
Abbreviation transition_tx := (transition_in_transaction seal_content_hash validate_payload JobState_value).
Abbreviation exec := (exec seal_content_hash validate_payload JobState_value SERIALIZER_ID build_identity).
Abbreviation exec_all := (exec_all seal_content_hash validate_payload JobState_value SERIALIZER_ID build_identity).

Definition row_ok (r : string * JobRow) : Prop :=
  r.1 <> "" /\ exists j, row_payload r.2 = Some j /\ agrees r.1 r.2 j /\
    validate_payload j = Ok tt /\ core_ok j.

(** The invariant of the database. *)
Record db_ok (db : DB) : Prop := mk_db_ok {
  ok_ids : NoDup (dkeys (jobs db));
  ok_rows : Forall row_ok (jobs db);
  ok_keys : NoDup (idem_keys db);
  ok_event_ids : NoDup (event_id <$> events db);
  ok_seqs : StronglySorted (fun a b => event_seq a < event_seq b) (events db);
  ok_events : Forall (event_ok db) (events db);
  ok_last_seq : 0 <= last_seq db
}.

(** ** Rows *)

Lemma rehash_spec p q : rehash p = Ok q -> core q = core p /\ validate_payload q = Ok tt.
Proof.
  unfold JobStore.rehash. intros H. repeat case_hyp H.
  match goal with u : unit |- _ => destruct u end. split; [eauto|done].
Qed.

Lemma db_ok_row db jid row : db_ok db -> dget (jobs db) jid = Some row -> row_ok (jid, row).
Proof.
  intros Hok Hrow. eapply Forall_forall; [apply ok_rows; eauto|]. by apply dget_Some_elem.
Qed.

Lemma omap_dset_same (d : dict string JobRow) jid row row' :
  dget d jid = Some row -> row_idempotency_key row' = row_idempotency_key row ->
  omap (fun r => row_idempotency_key r.2) (dset d jid row') = omap (fun r => row_idempotency_key r.2) d.
Proof.
  intros Hg Hk. induction d as [|[k r] d IH]; simpl in *; [done|].
  case_decide; simplify_eq; simpl; [by rewrite Hk|]. case_match; [f_equal|]; by apply IH.
Qed.

Lemma dset_elem_row (d : dict string JobRow) jid row r :
  NoDup (dkeys d) -> r ∈ dset d jid row -> r = (jid, row) \/ (r.1 <> jid /\ r ∈ d).
Proof. destruct r as [k x]. intros Hd Hin. apply dset_elem in Hin; naive_solver. Qed.

Lemma Forall_dset (P : string * JobRow -> Prop) d jid row :
  NoDup (dkeys d) -> Forall P d -> P (jid, row) -> Forall P (dset d jid row).
Proof.
  intros Hd Hall HP. apply Forall_forall. intros r Hr.
  apply dset_elem_row in Hr as [->|[_ Hr]]; [done| |done]. by eapply Forall_forall in Hall.
Qed.

Lemma view_set db jid row evs n k :
  view (mkDB (dset (jobs db) jid row) evs n) k =
  if decide (k = jid) then Some (row_state row, row_version row, row_idempotency_key row) else view db k.
Proof.
  unfold view. simpl. case_decide; subst; [by rewrite dget_dset_eq|]. by rewrite dget_dset_ne.
Qed.

(** Replacing a row by a newer one of the same key keeps the invariant. *)
Lemma db_ok_set_row db jid row row' :
  db_ok db -> dget (jobs db) jid = Some row -> row_ok (jid, row') ->
  row_idempotency_key row' = row_idempotency_key row -> row_version row <= row_version row' ->
  db_ok (mkDB (dset (jobs db) jid row') (events db) (last_seq db)).
Proof.
  intros [Hids Hrows Hkeys Heids Hseqs Hev Hls] Hg Hrow Hk Hv. constructor; simpl; auto with openpine.
  - by apply Forall_dset.
  - unfold idem_keys in *. simpl. by erewrite omap_dset_same.
  - eapply Forall_impl; [exact Hev|]. intros e (Hb & b & s & v & k & H1 & H2 & H3 & H4 & H5 & H6).
    split; [done|]. rewrite view_set. case_decide as Hj; [|exists b, s, v, k; by split_and!].
    subst. unfold view in H5. rewrite Hg in H5. simplify_eq/=. eexists b, _, _, _. split_and!; eauto. lia.
Qed.

Lemma store_job_spec db (p : Job) v (q : Job) db' row :
  store_job db p v = Ok (q, db') -> dget (jobs db) (job_id p) = Some row ->
  core q = core p /\ validate_payload q = Ok tt /\ row_version row = v /\
  db' = mkDB (dset (jobs db) (job_id p)
               (mkJobRow (Some q) (idempotency_key p) (state p) (version p))) (events db) (last_seq db).
Proof.
  unfold store_job_in_transaction, update_row. intros H Hrow.
  apply result_bind_ok in H as (q' & Hq & H). apply rehash_spec in Hq as [Hc Hv].
  rewrite Hc, Hrow in H. repeat case_hyp H. bool_to_prop. by split_and!.
Qed.

(** Storing a job read from [row], with a larger version and the same key. *)
Lemma store_job_ok db (p : Job) v (q : Job) db' row :
  db_ok db -> dget (jobs db) (job_id p) = Some row -> store_job db p v = Ok (q, db') ->
  core_ok p -> idempotency_key p = row_idempotency_key row -> v <= version p ->
  db_ok db' /\ core q = core p /\ row_version row = v /\
  dget (jobs db') (job_id p) = Some (mkJobRow (Some q) (idempotency_key p) (state p) (version p)) /\
  events db' = events db /\ last_seq db' = last_seq db /\
  (forall k, view db' k = if decide (k = job_id p) then Some (state p, version p, idempotency_key p) else view db k) /\
  (forall k, k <> job_id p -> dget (jobs db') k = dget (jobs db) k).
Proof.
  intros Hok Hrow Hst Hp Hk Hv.
  pose proof (store_job_spec _ _ _ _ _ _ Hst Hrow) as (Hc & Hval & Hrv & ->).
  split_and!; try done.
  - eapply db_ok_set_row; eauto; simpl; [|lia].
    destruct (db_ok_row _ _ _ Hok Hrow) as [Hne _].
    split; [done|]. exists q. unfold agrees. simpl. rewrite Hc. split_and!; done.
  - simpl. by rewrite dget_dset_eq.
  - intros k. by rewrite view_set.
  - intros k Hne. simpl. by rewrite dget_dset_ne.
Qed.

Lemma get_spec db jid (j : Job) :
  db_ok db -> get_in_transaction db jid = Ok j ->
  exists row, dget (jobs db) jid = Some row /\ row_payload row = Some j /\ agrees jid row j /\ core_ok j.
Proof.
  unfold JobStore.get_in_transaction. intros Hok H. repeat case_hyp H.
  match goal with Hr : dget _ _ = Some ?r |- _ => pose proof (db_ok_row _ _ _ Hok Hr) as (_ & j' & Hj & Ha & Hv & Hc) end.
  simpl in *. simplify_eq. eauto 6.
Qed.

(** ** Events *)

Lemma event_exists_spec db eid : event_exists db eid = true <-> eid ∈ event_id <$> events db.
Proof.
  unfold event_exists. rewrite existsb_exists, list_elem_of_fmap. split.
  - intros (e & Hin & He). bool_to_prop. exists e. by rewrite list_elem_of_In.
  - intros (e & -> & Hin). exists e. rewrite <-list_elem_of_In. by rewrite bool_decide_eq_true.
Qed.

Lemma event_ok_mono db db' e :
  event_ok db e -> last_seq db <= last_seq db' -> (forall k, view db' k = view db k) -> event_ok db' e.
Proof.
  intros (Hb & b & s & v & k & H1 & H2 & H3 & H4 & H5 & H6) Hl Hv. split; [lia|].
  exists b, s, v, k. by rewrite Hv.
Qed.

Lemma fill_event_old seq b (es : list EventRow) n :
  Forall (fun e => event_seq e <= n) es -> n < seq -> map (fill_event seq b) es = es.
Proof.
  intros Hall Hn. induction Hall as [|e es He _ IH]; simpl; [done|]. rewrite IH. f_equal.
  unfold fill_event. case_match; [|done]. bool_to_prop. lia.
Qed.

(** The log after an append: one more event, with the next sequence number. *)
Definition appended (db : DB) (jid etype : string) (j : Job) (sid : string) : list EventRow :=
  events db ++ [mkEventRow (last_seq db + 1) sid jid
                  (Some (mkEventBody sid (last_seq db + 1) etype jid (state j) (version j)))].

Lemma StronglySorted_snoc (es : list EventRow) e :
  StronglySorted (fun a b => event_seq a < event_seq b) es ->
  Forall (fun x => event_seq x < event_seq e) es ->
  StronglySorted (fun a b => event_seq a < event_seq b) (es ++ [e]).
Proof.
  intros Hs Hall. induction Hs as [|x es Hs IH Hx]; simpl; [by repeat constructor|].
  inversion Hall; subst. constructor; [auto|]. apply Forall_app. by split; [|constructor].
Qed.

Lemma db_ok_seq_bound db : db_ok db -> Forall (fun e => event_seq e <= last_seq db) (events db).
Proof. intros Hok. eapply Forall_impl; [apply ok_events, Hok|]. intros e [? _]. lia. Qed.

Lemma db_ok_append db jid etype (j : Job) sid s v key :
  db_ok db -> view db jid = Some (s, v, key) -> version j <= v -> sid ∉ event_id <$> events db ->
  db_ok (mkDB (jobs db) (appended db jid etype j sid) (last_seq db + 1)).
Proof.
  intros Hok Hview Hv Hfresh. pose proof (db_ok_seq_bound _ Hok) as Hbound.
  destruct Hok as [Hids Hrows Hkeys Heids Hseqs Hev Hls].
  constructor; simpl; unfold appended; auto; try lia.
  - rewrite fmap_app. simpl. apply NoDup_app. split_and!; [done| |apply NoDup_singleton]. set_solver.
  - apply StronglySorted_snoc; [done|]. eapply Forall_impl; [exact Hbound|]. simpl. lia.
  - apply Forall_app. split.
    + eapply Forall_impl; [exact Hev|]. intros e He. eapply event_ok_mono; [exact He|simpl; lia|done].
    + constructor; [|done]. split; simpl; [lia|].
      eexists _, s, v, key. split_and!; try done.
Qed.

Lemma append_event_ok db jid etype (j : Job) eid (q : Job) db' row :
  db_ok db -> dget (jobs db) jid = Some row -> append_event db jid etype j eid = Ok (q, db') ->
  version j <= row_version row ->
  (row_version row = version j -> agrees jid row j /\ core_ok j) ->
  db_ok db' /\ core q = upd_cursor (Some (stable_event_id jid etype j eid)) (core j) /\
  (forall k, view db' k = view db k) /\
  (forall k, k <> jid -> dget (jobs db') k = dget (jobs db) k) /\
  events db' = (if event_exists db (stable_event_id jid etype j eid) then events db
                else appended db jid etype j (stable_event_id jid etype j eid)).
Proof.
  intros Hok Hrow Happ Hv Hag. unfold append_event_in_transaction in Happ.
  set (sid := stable_event_id jid etype j eid) in *.
  destruct (event_exists db sid) eqn:Hex; simplify_eq.
  { by split_and!. }
  assert (Hfresh : sid ∉ event_id <$> events db) by (rewrite <-event_exists_spec; congruence).
  assert (Hview : view db jid = Some (row_state row, row_version row, row_idempotency_key row)) by (unfold view; by rewrite Hrow).
  pose proof (db_ok_append db jid etype j sid _ _ _ Hok Hview Hv Hfresh) as Hok1.
  rewrite map_app, (fill_event_old _ _ _ (last_seq db)) in Happ; [|by apply db_ok_seq_bound|lia].
  simpl in Happ. unfold fill_event in Happ. simpl in Happ. rewrite Z.eqb_refl in Happ.
  apply result_bind_ok in Happ as (sealed & Hs & Happ). apply rehash_spec in Hs as [Hc Hval].
  fold (appended db jid etype j sid) in Happ. unfold update_row in Happ. simpl in Happ.
  rewrite Hrow in Happ. destruct (row_version row =? version sealed) eqn:Hver; simplify_eq;
    [|split_and!; [done|by rewrite Hc|done|done|done]].
  bool_to_prop. rewrite Hc in Hver. simpl in Hver. destruct (Hag Hver) as [(A1 & A2 & A3 & A4) Hco].
  split_and!; [| by rewrite Hc | | | done].
  - apply (db_ok_set_row _ jid row _ Hok1); [done| |done|simpl; lia].
    destruct (db_ok_row _ _ _ Hok Hrow) as [Hne _].
    split; [done|]. exists q. unfold agrees. simpl. rewrite Hc. simpl. by split_and!.
  - intros k. unfold view. simpl. destruct (decide (k = jid)) as [->|Hne].
    + by rewrite dget_dset_eq, Hrow.
    + by rewrite dget_dset_ne.
  - intros k Hne. simpl. by rewrite dget_dset_ne.
Qed.

(** ** Transitions *)

(** What a transition needs of the updates it applies. *)
Definition keeps (updates : JobCore -> JobCore) : Prop :=
  forall c, job_id (updates c) = job_id c /\ idempotency_key (updates c) = idempotency_key c /\
            version (updates c) = version c.

Lemma transition_ok db (j : Job) target etype now updates eid (q : Job) db' jid row :
  db_ok db -> dget (jobs db) jid = Some row -> agrees jid row j -> keeps updates ->
  (target ∈ ALLOWED_TRANSITIONS (state j) ->
   core_ok (upd_version now (version j + 1) target (updates j))) ->
  transition_tx db j target etype now updates eid = Ok (q, db') ->
  db_ok db' /\ target ∈ ALLOWED_TRANSITIONS (state j) /\
  (forall k, view db' k = if decide (k = jid) then Some (target, version j + 1, idempotency_key j) else view db k) /\
  (forall k, k <> jid -> dget (jobs db') k = dget (jobs db) k) /\
  (let j1 := mkJob (upd_version now (version j + 1) target (updates j)) None in
   core q = upd_cursor (Some (stable_event_id jid etype j1 eid)) j1 /\
   events db' = (if event_exists db (stable_event_id jid etype j1 eid) then events db
                 else appended db jid etype j1 (stable_event_id jid etype j1 eid))).
Proof.
  intros Hok Hrow (Hid & Hkey & Hst & Hver) Hk Hco Htr. unfold transition_in_transaction in Htr.
  case_bool_decide as Hall; [|done]. apply result_bind_ok in Htr as ([sealed db1] & Hstore & Happ).
  destruct (Hk j) as (K1 & K2 & K3).
  assert (Hidp : job_id (set_core (fun c => upd_version now (version j + 1) target (updates c)) j) = jid)
    by (simpl; congruence).
  eapply store_job_ok in Hstore as (Hok1 & Hc1 & Hv1 & Hg1 & He1 & Hl1 & Hview1 & Hother1);
    [|exact Hok|by rewrite Hidp|by apply Hco|simpl; congruence|simpl; lia].
  simpl in Hc1, Hg1, Hview1, Hother1. rewrite K1, Hid in *.
  assert (Hjid : job_id sealed = jid) by (rewrite Hc1; simpl; congruence). rewrite Hjid in Happ.
  eapply append_event_ok in Happ as (Hok2 & Hc2 & Hview2 & Hother2 & He2); [|exact Hok1|exact Hg1| |].
  - split_and!; [done|done| | |].
    + intros k. by rewrite Hview2, Hview1, K2.
    + intros k Hne. by rewrite Hother2, Hother1.
    + simpl. assert (Hsid : stable_event_id jid etype sealed eid =
        stable_event_id jid etype (mkJob (upd_version now (version j + 1) target (updates j)) None) eid).
      { unfold stable_event_id. rewrite Hc1. done. }
      rewrite Hc2, Hsid, Hc1. split; [done|]. rewrite He2, Hsid. unfold event_exists, appended.
      by rewrite He1, Hl1, Hc1.
  - rewrite Hc1. simpl. lia.
  - intros _. split; [|rewrite Hc1; by apply Hco]. unfold agrees. rewrite Hc1. simpl. split_and!; congruence.
Qed.

Lemma steps_refl db : steps db db.
Proof. intros jid a Ha. exists a. by split; [|left]. Qed.

Lemma view_update_steps db db' jid a b :
  (forall k, view db' k = if decide (k = jid) then Some b else view db k) ->
  view db jid = Some a -> job_step a b -> steps db db'.
Proof.
  intros Hv Ha Hs k x Hx. rewrite Hv. case_decide; subst; [|exists x; by split; [|left]].
  simplify_eq. eauto.
Qed.

Lemma agrees_view db jid row (j : Job) :
  dget (jobs db) jid = Some row -> agrees jid row j -> view db jid = Some (state j, version j, idempotency_key j).
Proof. intros Hrow (_ & Hk & Hs & Hv). unfold view. rewrite Hrow. simpl. congruence. Qed.

(** ** Payloads stay well formed *)

Ltac allowed := intros Hin; apply list_elem_of_In in Hin; simpl in Hin; intuition congruence.

Lemma allowed_running s : RUNNING ∈ ALLOWED_TRANSITIONS s -> s = QUEUED.
Proof. destruct s; allowed. Qed.

Lemma allowed_succeeded s : SUCCEEDED ∈ ALLOWED_TRANSITIONS s -> s = RUNNING.
Proof. destruct s; allowed. Qed.

Lemma allowed_queued s : QUEUED ∈ ALLOWED_TRANSITIONS s -> s = FAILED \/ s = LOST \/ s = RETRY_WAIT.
Proof. destruct s; allowed. Qed.

Lemma allowed_not_succeeded s t : t ∈ ALLOWED_TRANSITIONS s -> s <> SUCCEEDED /\ s <> CANCELED.
Proof. destruct s; allowed. Qed.

Lemma progress_zero c : core_ok c -> state c <> SUCCEEDED -> progress c = 0.
Proof. intros (_ & _ & _ & _ & _ & _ & Hp) Hne. by rewrite decide_False in Hp. Qed.

(** A payload that enters a final state: the lease is gone, the finish time set. *)
Lemma finished_core_ok (c c' : JobCore) :
  core_ok c -> state c' ∈ [SUCCEEDED; FAILED; CANCELED; LOST] -> version c' = version c + 1 ->
  retry_count c' = retry_count c -> max_retries c' = max_retries c ->
  lease_owner c' = None -> lease_deadline_utc_ms c' = None -> finished_at_utc_ms c' <> None ->
  progress c' = (if decide (state c' = SUCCEEDED) then 100 else 0) -> core_ok c'.
Proof.
  intros (Hv & Hr & Hm & _ & _ & _ & _) Hs V R M L D F P.
  assert (state c' <> QUEUED /\ state c' <> RUNNING /\ state c' <> RETRY_WAIT) as (S1 & S2 & S3).
  { apply list_elem_of_In in Hs. simpl in Hs. intuition congruence. }
  unfold core_ok. rewrite decide_False by done. rewrite V, R, M.
  split_and!; auto; try lia. split; intros; [done|]. by destruct_or?.
Qed.

Lemma running_core_ok (c : JobCore) now owner deadline :
  owner <> "" -> core_ok c -> RUNNING ∈ ALLOWED_TRANSITIONS (state c) ->
  core_ok (upd_version now (version c + 1) RUNNING
             (upd_lease (Some owner) (Some deadline) (upd_started (Some now) c))).
Proof.
  intros Ho Hc Hin. apply allowed_running in Hin.
  assert (Hp : progress c = 0) by (apply progress_zero; congruence).
  destruct Hc as (Hv & Hr & Hm & _ & Hf & _ & _). unfold core_ok. simpl.
  split_and!; auto; try lia; try done; [by exists owner|]. rewrite Hf. tauto.
Qed.

Lemma queued_core_ok (c : JobCore) now :
  match max_retries c with Some m => m <? retry_count c + 1 | None => false end = false ->
  core_ok c -> QUEUED ∈ ALLOWED_TRANSITIONS (state c) ->
  core_ok (upd_version now (version c + 1) QUEUED
             (upd_retry_count (retry_count c + 1) (upd_error None (upd_finished None c)))).
Proof.
  intros Hmax Hc Hin. apply allowed_queued in Hin.
  assert (Hp : progress c = 0) by (apply progress_zero; intuition congruence).
  destruct Hc as (Hv & Hr & Hm & Hl & Hf & Hw & _). rewrite decide_False in Hl by intuition congruence.
  unfold core_ok. simpl. split_and!; auto; try lia; try done; try tauto.
  intros m Hmm. rewrite Hmm in Hmax. bool_to_prop. lia.
Qed.

(** An update that keeps the state: renewing the lease, linking a child. *)
Lemma kept_core_ok (c c' : JobCore) :
  core_ok c -> state c' = state c -> version c' = version c + 1 -> retry_count c' = retry_count c ->
  max_retries c' = max_retries c -> lease_owner c' = lease_owner c ->
  (lease_deadline_utc_ms c' = lease_deadline_utc_ms c \/
   (state c = RUNNING /\ is_Some (lease_deadline_utc_ms c'))) ->
  finished_at_utc_ms c' = finished_at_utc_ms c -> progress c' = progress c -> core_ok c'.
Proof.
  intros (Hv & Hr & Hm & Hl & Hf & Hw & Hp) S V R M L D F P. unfold core_ok.
  rewrite S, V, R, M, L, F, P. split_and!; auto; try lia.
  destruct D as [->|[Hrun Hd]]; [done|]. rewrite decide_True in Hl |- * by done. tauto.
Qed.

(** ** Every operation keeps the invariant and follows the state machine *)

Definition post (db db' : DB) : Prop := db_ok db' /\ steps db db'.

Lemma transition_post db (j : Job) target etype now updates eid q db' jid row :
  db_ok db -> dget (jobs db) jid = Some row -> agrees jid row j -> keeps updates ->
  (target ∈ ALLOWED_TRANSITIONS (state j) ->
   core_ok (upd_version now (version j + 1) target (updates j))) ->
  transition_tx db j target etype now updates eid = Ok (q, db') -> post db db'.
Proof.
  intros Hok Hrow Hag Hk Hco Htr.
  pose proof (transition_ok _ _ _ _ _ _ _ _ _ _ _ Hok Hrow Hag Hk Hco Htr) as (Hok' & Hin & Hview & _).
  split; [done|]. eapply view_update_steps; [exact Hview|by eapply agrees_view|].
  right. simpl. auto.
Qed.

Lemma require_live_lease_spec (j : Job) owner now :
  require_live_lease j owner now = Ok tt <->
  exists o d, owner = Some o /\ o <> "" /\ lease_owner j = Some o /\
    lease_deadline_utc_ms j = Some d /\ now <= d.
Proof.
  unfold require_live_lease. split.
  - intros H. repeat case_hyp H. bool_to_prop.
    match goal with He : opt_truthy _ = _ |- _ => apply opt_truthy_Some in He as [-> ?] end. eauto 8.
  - intros (o & d & -> & Ho & Hl & Hd & Hle). rewrite (proj2 (opt_truthy_Some (Some o) o)) by done.
    rewrite bool_decide_true, Hd by done. by rewrite (proj2 (Z.ltb_ge d now)).
Qed.

Lemma mark_running_post jid owner deadline now expected db q db' :
  db_ok db -> owner <> "" ->
  transition seal_content_hash validate_payload JobState_value db jid RUNNING "running" expected now
    (fun c => upd_lease (Some owner) (Some deadline) (upd_started (Some now) c)) = Ok (q, db') ->
  post db db'.
Proof.
  intros Hok Ho H. unfold transition in H.
  apply result_bind_ok in H as (j & Hj & H). apply result_bind_ok in H as ([] & _ & H).
  apply get_spec in Hj as (row & Hrow & _ & Hag & Hc); [|done].
  eapply transition_post; eauto; [done|]. by apply running_core_ok.
Qed.

Lemma succeeded_post jid owner expected now refs db q db' :
  db_ok db -> succeeded_body seal_content_hash validate_payload JobState_value jid owner expected now refs db = Ok (q, db') ->
  post db db'.
Proof.
  intros Hok H. unfold succeeded_body in H.
  apply result_bind_ok in H as (j & Hj & H). apply result_bind_ok in H as ([] & _ & H).
  case_bool_decide as Hrun; [|done]. apply result_bind_ok in H as ([] & _ & H).
  apply get_spec in Hj as (row & Hrow & _ & Hag & Hc); [|done].
  eapply transition_post; eauto; [done|]. intros Hin. eapply finished_core_ok; eauto; simpl; try done.
  set_solver.
Qed.

Lemma failed_post jid error owner expected now db q db' :
  db_ok db -> failed_body seal_content_hash validate_payload JobState_value jid error owner expected now db = Ok (q, db') ->
  post db db'.
Proof.
  intros Hok H. unfold failed_body in H.
  apply result_bind_ok in H as (j & Hj & H). apply result_bind_ok in H as ([] & _ & H).
  apply result_bind_ok in H as ([] & _ & H).
  apply get_spec in Hj as (row & Hrow & _ & Hag & Hc); [|done].
  eapply transition_post; eauto; [done|]. intros Hin.
  eapply finished_core_ok; eauto; simpl; try done; [set_solver|].
  apply progress_zero; [done|]. by eapply allowed_not_succeeded.
Qed.

Lemma cancel_post jid key now now' db q db' :
  db_ok db -> cancel_body seal_content_hash validate_payload JobState_value jid key now now' db = Ok (q, db') ->
  post db db'.
Proof.
  intros Hok H. unfold cancel_body in H. apply result_bind_ok in H as (j & Hj & H).
  case_bool_decide; [simplify_eq; split; [done|apply steps_refl]|].
  apply get_spec in Hj as (row & Hrow & _ & Hag & Hc); [|done].
  eapply transition_post; eauto; [done|]. intros Hin.
  eapply finished_core_ok; eauto; simpl; try done; [set_solver|].
  apply progress_zero; [done|]. by eapply allowed_not_succeeded.
Qed.

Lemma retry_post jid now db q db' :
  db_ok db -> retry_body seal_content_hash validate_payload JobState_value jid now db = Ok (q, db') ->
  post db db'.
Proof.
  intros Hok H. unfold retry_body in H. apply result_bind_ok in H as (j & Hj & H).
  case_match; [simplify_eq; split; [done|apply steps_refl]|]. case_match; [done|].
  apply get_spec in Hj as (row & Hrow & _ & Hag & Hc); [|done].
  eapply transition_post; eauto; [done|]. by apply queued_core_ok.
Qed.

(** Storing and logging a job whose state is kept. *)
Lemma store_append_post db (j1 : Job) old etype q1 q2 db1 db2 jid row s :
  db_ok db -> dget (jobs db) jid = Some row -> job_id j1 = jid -> row_state row = s ->
  idempotency_key j1 = row_idempotency_key row -> state j1 = s -> version j1 = old + 1 -> core_ok j1 ->
  store_job db j1 old = Ok (q1, db1) -> append_event db1 jid etype q1 None = Ok (q2, db2) ->
  post db db2 /\ (forall k, k <> jid -> dget (jobs db2) k = dget (jobs db) k) /\
  view db2 jid = Some (s, old + 1, idempotency_key j1).
Proof.
  intros Hok Hrow Hid Hs Hkey Hst Hver Hco Hstore Happ. subst jid.
  eapply store_job_ok in Hstore as (Hok1 & Hc1 & Hv1 & Hg1 & He1 & Hl1 & Hview1 & Ho1); eauto; [|lia].
  eapply append_event_ok in Happ as (Hok2 & _ & Hview2 & Ho2 & _); [|exact Hok1|exact Hg1| |].
  - split_and!.
    + split; [done|]. eapply (view_update_steps _ _ (job_id j1) (s, old, idempotency_key j1) (s, old + 1, idempotency_key j1)).
      * intros k. rewrite Hview2, Hview1, Hst, Hver. done.
      * unfold view. rewrite Hrow. simpl. congruence.
      * right. simpl. auto.
    + intros k Hne. by rewrite Ho2, Ho1.
    + rewrite Hview2, Hview1, decide_True by done. congruence.
  - rewrite Hc1. simpl. lia.
  - intros _. unfold agrees. rewrite Hc1. by simpl.
Qed.

Lemma renew_post jid owner deadline now expected db q db' :
  db_ok db -> renew_body seal_content_hash validate_payload jid owner deadline now expected db = Ok (q, db') ->
  post db db'.
Proof.
  intros Hok H. unfold renew_body in H.
  apply result_bind_ok in H as (j & Hj & H). apply result_bind_ok in H as ([] & _ & H).
  apply result_bind_ok in H as ([] & Hlease & H). apply result_bind_ok in H as ([q1 db1] & Hst & Happ).
  apply get_spec in Hj as (row & Hrow & _ & (A1 & A2 & A3 & A4) & Hc); [|done].
  eapply store_append_post in Happ as [Hp _]; [exact Hp|exact Hok|exact Hrow| | | | | | |exact Hst]; simpl; eauto.
  eapply kept_core_ok; eauto; simpl; try done.
  right. split; [|by eexists]. apply require_live_lease_spec in Hlease as (o & d & _ & _ & Hlo & _).
  destruct Hc as (_ & _ & _ & Hl & _). case_decide; [done|]. destruct Hl. congruence.
Qed.

Lemma link_child_post db parent_id jid now db' :
  db_ok db -> link_child seal_content_hash validate_payload db parent_id jid now = Ok db' ->
  post db db' /\ (forall k, k <> parent_id -> dget (jobs db') k = dget (jobs db) k) /\
  (db' = db \/ exists a b, view db parent_id = Some a /\ view db' parent_id = Some b /\ b.1.2 = a.1.2 + 1).
Proof.
  intros Hok H. unfold link_child in H. apply result_bind_ok in H as (p & Hp & H).
  case_bool_decide; [simplify_eq; split_and!; [split; [done|apply steps_refl]|done|by left]|].
  apply result_bind_ok in H as ([p1 db1] & Hst & H). apply result_bind_ok in H as ([p2 db2] & Happ & H).
  simplify_eq. apply get_spec in Hp as (row & Hrow & _ & (A1 & A2 & A3 & A4) & Hc); [|done].
  eapply (store_append_post _ _ _ _ _ _ _ _ _ row (row_state row)) in Happ as (Hpo & Ho & Hv);
    [|exact Hok|exact Hrow| | | | | | |exact Hst]; simpl; auto.
  - split_and!; [done|done|]. right. unfold view at 1. rewrite Hrow, Hv. simpl.
    eexists _, _. split_and!; [done|done|simpl; lia].
  - eapply kept_core_ok; eauto; simpl; auto.
Qed.

Lemma insert_job_post db jid payload a now env db1 :
  db_ok db -> jid <> "" -> core payload = new_core jid a now env ->
  validate_payload payload = Ok tt -> 0 <= c_max_retries a ->
  insert_job db jid payload (c_idempotency_key a) = Some db1 ->
  db_ok db1 /\ dget (jobs db) jid = None /\ (forall k, k <> jid -> dget (jobs db1) k = dget (jobs db) k) /\
  dget (jobs db1) jid = Some (mkJobRow (Some payload) (c_idempotency_key a) QUEUED 1).
Proof.
  intros Hok Hne Hcore Hval Hmax H. unfold insert_job, dmem in H.
  destruct (dget (jobs db) jid) eqn:Hnone; [done|]. case_match eqn:Hkey; [done|]. simplify_eq.
  set (row := mkJobRow (Some payload) (c_idempotency_key a) QUEUED 1).
  assert (Hview : forall k x, view db k = Some x ->
     view (mkDB (dset (jobs db) jid row) (events db) (last_seq db)) k = Some x).
  { intros k x Hx. rewrite view_set. case_decide; [|done]. subst. unfold view in Hx. by rewrite Hnone in Hx. }
  split_and!; [|done|intros k Hk; simpl; by rewrite dget_dset_ne|simpl; by rewrite dget_dset_eq].
  destruct Hok as [Hids Hrows Hkeys Heids Hseqs Hev Hls]. constructor; simpl; auto with openpine.
  - apply Forall_dset; [done|done|]. split; [done|]. exists payload. unfold agrees, core_ok. rewrite Hcore. simpl.
    split_and!; try done; try lia; [|tauto]. intros m ?. simplify_eq. lia.
  - unfold idem_keys in *. simpl. rewrite dset_new by done. rewrite omap_app. simpl.
    apply NoDup_app. split_and!; [done| |destruct (c_idempotency_key a); [apply NoDup_singleton|constructor]].
    intros x Hx Hx'. destruct (c_idempotency_key a) as [k|]; [|set_solver].
    apply list_elem_of_singleton in Hx' as ->. apply list_elem_of_omap in Hx as (r & Hr & Hrk).
    eapply not_true_iff_false in Hkey. apply Hkey. apply existsb_exists. exists r.
    rewrite <-list_elem_of_In. split; [done|]. unfold row_has_key. by rewrite bool_decide_eq_true.
  - eapply Forall_impl; [exact Hev|]. intros e (Hb & b & s & v & k & H1 & H2 & H3 & H4 & H5 & H6).
    split; [done|]. exists b, s, v, k. split_and!; auto.
Qed.

Lemma find_key_row db k r :
  db_ok db -> List.find (row_has_key k) (jobs db) = Some r ->
  dget (jobs db) r.1 = Some r.2 /\ row_idempotency_key r.2 = Some k.
Proof.
  intros Hok Hf. apply find_some in Hf as [Hin Hk]. unfold row_has_key in Hk. bool_to_prop.
  split; [|done]. destruct r. apply elem_dget; [apply ok_ids, Hok|by apply list_elem_of_In].
Qed.

Lemma create_post a jid now db (q : Job) db' :
  db_ok db -> jid <> "" -> 0 <= c_max_retries a ->
  create_body seal_content_hash validate_payload SERIALIZER_ID build_identity a jid now db = Ok (q, db') ->
  post db db' /\
  forall k, c_idempotency_key a = Some k -> k <> "" -> exists s v, view db' (job_id q) = Some (s, v, Some k).
Proof.
  intros Hok Hne0 Hmax H. unfold create_body in H. apply result_bind_ok in H as (ex & Hex & H).
  assert (Hkeyed : forall e, match opt_truthy (c_idempotency_key a) with
      | Some key => by_idempotency_in_transaction db key | None => Ok None end = Ok (Some e) ->
    forall k, c_idempotency_key a = Some k -> k <> "" -> exists s v, view db (job_id e) = Some (s, v, Some k)).
  { intros e He k Hk Hne. rewrite Hk, (proj2 (opt_truthy_Some (Some k) k)) in He by done.
    unfold by_idempotency_in_transaction in He. repeat case_hyp He.
    match goal with Hf : List.find _ _ = _ |- _ => apply find_key_row in Hf as [Hg Hkey]; [|done] end.
    pose proof (db_ok_row _ _ _ Hok Hg) as (_ & j' & Hj & (A1 & _) & _). simpl in *. simplify_eq.
    unfold view. rewrite A1, Hg. simpl. rewrite Hkey. eauto. }
  destruct ex; [simplify_eq; split; [split; [done|apply steps_refl]|by apply Hkeyed]|]. unfold insert_new_job in H.
  apply result_bind_ok in H as (payload & Hp & H). unfold make_envelope in Hp.
  destruct build_identity as [[cv cm]|]; [|done]. apply rehash_spec in Hp as [Hcore Hval]. simpl in Hcore.
  destruct (insert_job db jid payload (c_idempotency_key a)) as [db1|] eqn:Hins.
  2:{ rewrite Hex in H. done. }
  eapply insert_job_post in Hins as (Hok1 & Hnone & Hother & Hrow1); eauto.
  apply result_bind_ok in H as (db2 & Hlink & Happ).
  assert (Hdb2 : db_ok db2 /\ steps db1 db2 /\ (exists row, dget (jobs db2) jid = Some row /\
       (row = mkJobRow (Some payload) (c_idempotency_key a) QUEUED 1 \/ row_version row = 2))).
  { destruct (opt_truthy (c_parent_job_id a)) as [parent|].
    - apply link_child_post in Hlink as ([Hok2 Hs2] & Ho2 & Hv2); [|done]. split_and!; [done|done|].
      destruct (decide (jid = parent)) as [<-|Hne]; [|rewrite Ho2 by done; eauto].
      destruct Hv2 as [->|(x & y & Hx & Hy & Hxy)]; [eauto|]. unfold view in Hx, Hy.
      rewrite Hrow1 in Hx. simpl in Hx. destruct (dget (jobs db2) jid); simplify_eq/=. eauto.
    - simplify_eq. split_and!; [done|apply steps_refl|eauto]. }
  destruct Hdb2 as (Hok2 & Hs2 & row & Hrow & Hcase).
  eapply append_event_ok in Happ as (Hok3 & Hcq & Hv3 & _); [|exact Hok2|exact Hrow| |].
  - split; [split; [done|]|].
    + intros k x Hx. rewrite Hv3. apply Hs2. unfold view in *.
      destruct (decide (k = jid)) as [->|]; [by rewrite Hnone in Hx|]. by rewrite Hother.
    + intros k Hk _. rewrite Hcq, Hcore. simpl. rewrite Hv3.
      assert (Hv1 : view db1 jid = Some (QUEUED, 1, Some k)) by (unfold view; rewrite Hrow1; simpl; by rewrite Hk).
      destruct (Hs2 _ _ Hv1) as ([[s v] k'] & Hy & Hstep). exists s, v. rewrite Hy.
      destruct Hstep as [?|(_ & K & _)]; simpl in *; congruence.
  - rewrite Hcore. simpl. destruct Hcase as [->| ->]; simpl; lia.
  - intros Hv. rewrite Hcore in Hv. simpl in Hv. destruct Hcase as [->|]; [|lia].
    eapply db_ok_row in Hrow as (_ & j & Hj & Hag & _ & Hco); [|done]. by simplify_eq/=.
Qed.

(** ** Recovery of lost leases *)

(** A running job whose lease deadline is before [now]. *)
Definition row_lost (now : Z) (row : JobRow) : bool :=
  bool_decide (row_state row = RUNNING) &&
  from_option (fun j : Job => from_option (fun d => d <? now) false (lease_deadline_utc_ms j)) false (row_payload row).

Definition lost_rows (now : Z) (rs : list (string * JobRow)) : list (string * JobRow) :=
  List.filter (fun r => row_lost now r.2) rs.

Lemma recover_row_spec now db n r db' n' :
  db_ok db -> dget (jobs db) r.1 = Some r.2 -> row_state r.2 = RUNNING ->
  recover_row seal_content_hash validate_payload JobState_value now (db, n) r = Ok (db', n') ->
  db_ok db' /\ (forall k, k <> r.1 -> dget (jobs db') k = dget (jobs db) k) /\
  if row_lost now r.2
  then view db' r.1 = Some (LOST, row_version r.2 + 1, row_idempotency_key r.2) /\ n' = n + 1
  else db' = db /\ n' = n.
Proof.
  intros Hok Hrow Hrun H. destruct r as [jid row]. simpl in *.
  pose proof (db_ok_row _ _ _ Hok Hrow) as (_ & j & Hj & Hag & _ & Hco). simpl in *.
  unfold recover_row in H. simpl in H. rewrite Hj in H. unfold row_lost.
  rewrite Hj, bool_decide_true by done. simpl. change (from_option _ _ _) with (lease_lost now j).
  destruct (lease_lost now j); simplify_eq; [|done].
  apply result_bind_ok in H as ([q db1] & Htr & H). simplify_eq.
  pose proof Hag as (A1 & A2 & A3 & A4).
  eapply transition_ok in Htr as (Hok' & _ & Hview & Hother & _); eauto; [|done|].
  - split_and!; [done|done| |done]. by rewrite Hview, decide_True, A4, A2.
  - intros _. eapply finished_core_ok; eauto; simpl; try done; [set_solver|].
    apply progress_zero; [done|]. congruence.
Qed.

Lemma recover_fold_spec now rs db n db' n' :
  db_ok db -> NoDup rs.*1 ->
  (forall r, r ∈ rs -> dget (jobs db) r.1 = Some r.2 /\ row_state r.2 = RUNNING) ->
  result_fold (recover_row seal_content_hash validate_payload JobState_value now) (db, n) rs = Ok (db', n') ->
  db_ok db' /\ n' = n + Z.of_nat (length (lost_rows now rs)) /\
  (forall r, r ∈ lost_rows now rs -> view db' r.1 = Some (LOST, row_version r.2 + 1, row_idempotency_key r.2)) /\
  (forall k, k ∉ (lost_rows now rs).*1 -> dget (jobs db') k = dget (jobs db) k).
Proof.
  revert db n. induction rs as [|r rs IH]; intros db n Hok Hnd Hrs H; simpl in H.
  { simplify_eq. simpl. split_and!; [done|lia|set_solver|done]. }
  apply result_bind_ok in H as ([db1 n1] & H1 & H2).
  rewrite fmap_cons, NoDup_cons in Hnd. destruct Hnd as [Hnin Hnd].
  assert (Hnin' : forall r', r' ∈ rs -> r'.1 <> r.1).
  { intros r' Hr' Heq. apply Hnin. rewrite <-Heq. by apply list_elem_of_fmap_2. }
  destruct (Hrs r) as [Hr Hrun]; [set_solver|].
  eapply recover_row_spec in H1 as (Hok1 & Hother & Hcase); eauto.
  eapply IH in H2 as (Hok' & Hn & Hlost & Hkeep); [|done|done|].
  2:{ intros r' Hr'. rewrite Hother by auto. apply Hrs. set_solver. }
  assert (Hr1 : r.1 ∉ (lost_rows now rs).*1).
  { rewrite list_elem_of_fmap. intros (r' & Heq & Hin%list_elem_of_In).
    apply filter_In in Hin as [Hin%list_elem_of_In _]. by apply (Hnin' r'). }
  unfold lost_rows in *. simpl. destruct (row_lost now r.2).
  - destruct Hcase as [Hv ->]. split_and!; [done|simpl; lia| |].
    + intros r' [->|Hr']%elem_of_cons; [|auto]. unfold view. by rewrite Hkeep.
    + intros k Hk. rewrite Hkeep by set_solver. apply Hother. set_solver.
  - destruct Hcase as [-> ->]. split_and!; auto.
Qed.

Lemma running_rows_spec db :
  db_ok db -> NoDup (running_rows db).*1 /\
  (forall r, r ∈ running_rows db <-> r ∈ jobs db /\ row_state r.2 = RUNNING) /\
  forall r, r ∈ running_rows db -> dget (jobs db) r.1 = Some r.2 /\ row_state r.2 = RUNNING.
Proof.
  intros Hok. assert (Hin : forall r, r ∈ running_rows db <-> r ∈ jobs db /\ row_state r.2 = RUNNING).
  { intros r. unfold running_rows. rewrite elem_of_sort_by, list_elem_of_In, filter_In, <-list_elem_of_In.
    by rewrite bool_decide_eq_true. }
  split_and!; [|done|].
  - unfold running_rows. rewrite sort_by_perm. eapply sublist_NoDup; [apply ok_ids, Hok|].
    unfold dkeys. generalize (jobs db). intros d. induction d as [|r d IH]; simpl; [done|].
    case_match; simpl; by constructor.
  - intros r Hr%Hin. destruct r as [k row]. split; [|by destruct Hr]. apply elem_dget; [apply ok_ids, Hok|by destruct Hr].
Qed.

Lemma lost_running_rows now db r : r ∈ lost_rows now (running_rows db) <-> r ∈ lost_rows now (jobs db).
Proof.
  unfold lost_rows, running_rows. rewrite !list_elem_of_In, !filter_In, <-!list_elem_of_In, elem_of_sort_by.
  rewrite !list_elem_of_In, filter_In. unfold row_lost. destruct (bool_decide _); simpl; intuition congruence.
Qed.

Lemma length_lost_running now db : length (lost_rows now (running_rows db)) = length (lost_rows now (jobs db)).
Proof.
  unfold running_rows, lost_rows. assert (Hp : forall l, Permutation
    (List.filter (fun r : string * JobRow => row_lost now r.2) (sort_by (fun a b => str_leb a.1 b.1) l))
    (List.filter (fun r => row_lost now r.2) l)).
  { intros l. assert (Hl := sort_by_perm (fun a b : string * JobRow => str_leb a.1 b.1) l).
    induction Hl; simpl; repeat case_match; eauto using perm_skip, perm_swap, perm_trans. }
  rewrite Hp. f_equal. generalize (jobs db). intros d. induction d as [|r d IH]; simpl; [done|].
  unfold row_lost in *. destruct (bool_decide (row_state r.2 = RUNNING)) eqn:E; simpl; [|done].
  rewrite E. simpl. case_match; [by rewrite IH|done].
Qed.

Lemma recover_post now db n db' :
  db_ok db -> recover_body seal_content_hash validate_payload JobState_value now db = Ok (n, db') ->
  post db db' /\ n = Z.of_nat (length (lost_rows now (jobs db))) /\
  (forall jid row, dget (jobs db) jid = Some row ->
     if row_lost now row then view db' jid = Some (LOST, row_version row + 1, row_idempotency_key row)
     else dget (jobs db') jid = Some row).
Proof.
  intros Hok H. unfold recover_body in H. apply result_bind_ok in H as ([db1 n1] & H & Heq). simplify_eq.
  destruct (running_rows_spec _ Hok) as (Hnd & _ & Hrs).
  apply recover_fold_spec in H as (Hok' & Hn & Hlost & Hkeep); [|done|done|done].
  assert (Hrow : forall jid row, dget (jobs db) jid = Some row ->
     if row_lost now row then view db' jid = Some (LOST, row_version row + 1, row_idempotency_key row)
     else dget (jobs db') jid = Some row).
  { intros jid row Hg. destruct (row_lost now row) eqn:Hl.
    - apply (Hlost (jid, row)). apply lost_running_rows, list_elem_of_In, filter_In.
      rewrite <-list_elem_of_In. split; [by apply dget_Some_elem|done].
    - rewrite Hkeep; [done|]. rewrite list_elem_of_fmap. intros ([k x] & -> & Hin).
      apply lost_running_rows, list_elem_of_In, filter_In in Hin as [Hin%list_elem_of_In Hx]. simpl in *.
      apply elem_dget in Hin; [|apply ok_ids, Hok]. congruence. }
  split_and!; [split; [done|]|rewrite Hn, length_lost_running; lia|done].
  intros jid a Ha. unfold view in Ha. destruct (dget (jobs db) jid) as [row|] eqn:Hg; simplify_eq/=.
  specialize (Hrow _ _ Hg). destruct (row_lost now row) eqn:Hl.
  - eexists. split; [exact Hrow|]. right. simpl. unfold row_lost in Hl. bool_to_prop.
    match goal with H : row_state row = RUNNING |- _ => rewrite H end. set_solver.
  - exists (row_state row, row_version row, row_idempotency_key row). unfold view. rewrite Hrow.
    split; [done|by left].
Qed.

Lemma transaction_post {A} (body : DB -> result store_error (A * DB)) db :
  db_ok db -> (forall a db', body db = Ok (a, db') -> post db db') -> post db (transaction body db).1.
Proof.
  intros Hok Hb. unfold transaction. destruct (body db) as [[a db']|] eqn:E; simpl; [eauto|].
  split; [done|apply steps_refl].
Qed.

Lemma exec_post op db : db_ok db -> post db (exec op db).
Proof.
  intros Hok. assert (Hrefl : post db db) by (split; [done|apply steps_refl]).
  destruct op; simpl; try (apply transaction_post; [done|]; intros ? ? ?).
  - unfold create. destruct (opt_truthy (c_job_id a)) as [jid|] eqn:Hj; [|done].
    apply opt_truthy_Some in Hj as [_ Hj]. case_match; [done|]. case_match eqn:Hm; [done|].
    apply transaction_post; [done|]. intros. eapply create_post; eauto. bool_to_prop. lia.
  - unfold mark_running. case_match eqn:Ho; [done|]. case_match; [done|].
    apply transaction_post; [done|]. intros. eapply mark_running_post; eauto.
    unfold str_truthy in Ho. by bool_to_prop.
  - unfold renew_lease. case_match; [done|]. apply transaction_post; [done|]. eauto using renew_post.
  - eauto using succeeded_post.
  - eauto using failed_post.
  - eauto using cancel_post.
  - eauto using retry_post.
  - eapply recover_post; eauto.
Qed.

Lemma empty_db_ok : db_ok empty_db.
Proof. constructor; simpl; try constructor; lia. Qed.

Lemma exec_all_ok ops db : db_ok db -> db_ok (exec_all ops db).
Proof.
  revert db. induction ops as [|op ops IH]; intros db Hok; [done|]. simpl.
  apply IH. by apply exec_post.
Qed.

(** A run keeps the key, grows the version and never leaves a final state. *)
Lemma exec_all_view ops db jid a :
  db_ok db -> view db jid = Some a ->
  exists b, view (exec_all ops db) jid = Some b /\ b.2 = a.2 /\ a.1.2 <= b.1.2 /\
    (a.1.1 = SUCCEEDED \/ a.1.1 = CANCELED -> b.1.1 = a.1.1).
Proof.
  revert db a. induction ops as [|op ops IH]; intros db a Hok Ha; simpl.
  { exists a. split_and!; done || lia. }
  destruct (exec_post op _ Hok) as [Hok1 Hs]. destruct (Hs _ _ Ha) as (b & Hb & Hstep).
  destruct (IH _ _ Hok1 Hb) as (c & Hc & Hk & Hv & Hf). exists c. split; [done|].
  destruct Hstep as [->|(V & K & S)]; [done|]. split_and!; [congruence|lia|].
  intros Hfin. assert (b.1.1 = a.1.1) as Heq; [|rewrite <-Heq; apply Hf; by rewrite Heq].
  destruct S as [?|S]; [done|]. destruct Hfin as [Hfin|Hfin]; rewrite Hfin in S; simpl in S; set_solver.
Qed.

(** ** Creation *)

Lemma find_key_spec db jid row k :
  db_ok db -> dget (jobs db) jid = Some row -> row_idempotency_key row = Some k ->
  List.find (row_has_key k) (jobs db) = Some (jid, row).
Proof.
  intros Hok Hg Hk. apply dget_Some_elem in Hg. pose proof (ok_keys _ Hok) as Hnd.
  unfold idem_keys in Hnd. revert Hnd Hg. generalize (jobs db). intros d.
  induction d as [|r d IH]; intros Hnd Hin; [set_solver|]. simpl. unfold row_has_key at 1.
  apply elem_of_cons in Hin as [<-|Hin]; [simpl; by rewrite Hk, bool_decide_true|].
  assert (Hk' : k ∈ omap (fun r : string * JobRow => row_idempotency_key r.2) d)
    by (apply list_elem_of_omap; eauto).
  simpl in Hnd. destruct (row_idempotency_key r.2) as [k'|]; [|rewrite bool_decide_false by done; eauto].
  apply NoDup_cons in Hnd as [Hnin Hnd]. case_bool_decide; [|eauto]. by simplify_eq.
Qed.

Lemma create_existing a now db jid row k j :
  db_ok db -> dget (jobs db) jid = Some row -> row_idempotency_key row = Some k -> row_payload row = Some j ->
  c_idempotency_key a = Some k -> k <> "" -> opt_truthy (c_job_id a) <> None ->
  c_kind a ∈ JOB_KINDS -> 0 <= c_max_retries a ->
  create seal_content_hash validate_payload SERIALIZER_ID build_identity a now db = (db, Ok j).
Proof.
  intros Hok Hg Hk Hj Hka Hne Hid Hkind Hmax. unfold create.
  destruct (opt_truthy (c_job_id a)); [|done]. rewrite bool_decide_true by done. simpl.
  rewrite (proj2 (Z.ltb_ge _ _)) by lia. unfold transaction, create_body.
  rewrite Hka, (proj2 (opt_truthy_Some (Some k) k)) by done. unfold by_idempotency_in_transaction.
  rewrite (find_key_spec _ _ _ _ Hok Hg Hk). simpl. by rewrite Hj.
Qed.

(** After a creation with key [k], the job it returned carries [k]. *)
Lemma create_key a now db db' (j : Job) k :
  db_ok db -> create seal_content_hash validate_payload SERIALIZER_ID build_identity a now db = (db', Ok j) ->
  c_idempotency_key a = Some k -> k <> "" ->
  exists s v, view db' (job_id j) = Some (s, v, Some k).
Proof.
  intros Hok H Hk Hne. unfold create in H. destruct (opt_truthy (c_job_id a)) as [jid|] eqn:Hjid; [|done].
  apply opt_truthy_Some in Hjid as [_ Hjid]. case_match; [done|]. case_match eqn:Hmax; [done|].
  unfold transaction in H. destruct (create_body _ _ _ _ _ _ _ _) as [[q d]|] eqn:Hb; simplify_eq.
  apply create_post in Hb as [_ Hkey]; [by eapply Hkey|done|done|]. bool_to_prop. lia.
Qed.

(** ** Leases *)

Lemma require_version_spec (j : Job) expected :
  require_version j expected = Ok tt <-> (forall v, expected = Some v -> version j = v).
Proof.
  unfold require_version. destruct expected as [v|]; [|naive_solver].
  destruct (version j =? v) eqn:E; bool_to_prop; naive_solver.
Qed.

Lemma get_ok db jid row j :
  db_ok db -> dget (jobs db) jid = Some row -> row_payload row = Some j -> get_in_transaction db jid = Ok j.
Proof.
  intros Hok Hg Hj. pose proof (db_ok_row _ _ _ Hok Hg) as (_ & j' & Hj' & _ & Hv & _).
  simpl in *. rewrite Hj in Hj'. injection Hj' as <-.
  unfold JobStore.get_in_transaction. by rewrite Hg, Hj, Hv.
Qed.

(** What the contract library must accept for a job to be stored by a
    transition: the row's new payload, and then the payload that repeats the id
    of the transition's event, unless an event of that id is logged already. *)
Definition sealable (db : DB) (j : Job) (etype : string) : Prop :=
  exists q, rehash j = Ok q /\
    let sid := job_id j +:+ ":" +:+ etype +:+ ":v" +:+ pretty (version j) in
    (event_exists db sid = true \/ exists q', rehash (set_core (upd_cursor (Some sid)) q) = Ok q').

(** An allowed transition succeeds exactly when its payloads can be sealed. *)
Lemma transition_iff db (j : Job) target etype now updates jid row :
  dget (jobs db) jid = Some row -> agrees jid row j ->
  keeps updates -> target ∈ ALLOWED_TRANSITIONS (state j) ->
  (exists q db', transition_tx db j target etype now updates None = Ok (q, db')) <->
  sealable db (set_core (fun c => upd_version now (version j + 1) target (updates c)) j) etype.
Proof.
  intros Hg (A1 & _ & _ & A4) Hk Hin. unfold transition_in_transaction, sealable. rewrite bool_decide_true by done.
  destruct (Hk j) as (K1 & _ & K3). unfold store_job_in_transaction.
  destruct (rehash _) as [q|e] eqn:Hq; simpl; [|split; [by intros (? & ? & ?)|by intros (? & ? & ?)]].
  pose proof (rehash_spec _ _ Hq) as [Hc _]. simpl in Hc. unfold update_row.
  rewrite Hc. simpl. rewrite K1, A1, Hg. rewrite (proj2 (Z.eqb_eq _ _)) by lia. simpl.
  unfold append_event_in_transaction, stable_event_id, str_or. rewrite Hc. simpl. rewrite K1, A1.
  unfold event_exists. simpl. case_match eqn:He.
  - split; intros _; eauto 6.
  - split.
    + intros (q' & db' & H). apply result_bind_ok in H as (q2 & Hq2 & _). exists q. split; [done|right; eauto].
    + intros (q0 & Hq0 & [?|[q2 Hq2]]); simplify_eq. rewrite Hq2. simpl. case_match; eauto.
Qed.

(** ** Pagination *)

(** A client that follows [next_cursor] until there is none. *)
Fixpoint all_pages (fuel : nat) (db : DB) (k s cursor : option string) (limit : Z)
    : option (list Job) :=
  match fuel with
  | O => None
  | S fuel' =>
      match list_jobs JobState_value db k s cursor limit with
      | Err _ => None
      | Ok (page, None) => Some page
      | Ok (page, Some c) =>
          (fun rest => page ++ rest) <$> all_pages fuel' db k s (Some c) limit
      end
  end.

Lemma after_cursor_app c pre (j : Job) post :
  job_id j = c -> c ∉ (fun x : Job => job_id x) <$> pre -> after_cursor c (pre ++ j :: post) = Some post.
Proof.
  intros Hj. induction pre as [|x pre IH]; simpl; intros Hnin.
  - by rewrite bool_decide_true.
  - rewrite bool_decide_false by set_solver. apply IH. set_solver.
Qed.

Lemma all_pages_suffix fuel db k s limit all pre rest cursor :
  listing JobState_value db k s = Ok all -> all = pre ++ rest ->
  NoDup ((fun x : Job => job_id x) <$> all) -> Forall (fun x : Job => job_id x <> "") all ->
  from_cursor cursor all = rest -> (length rest < fuel)%nat ->
  all_pages fuel db k s cursor limit = Some rest.
Proof.
  intros Hl. revert pre rest cursor. induction fuel as [|fuel IH]; intros pre rest cursor Hall Hnd Hne Hc Hf; [lia|].
  simpl. unfold list_jobs. rewrite Hl. simpl. rewrite Hc.
  set (n := Z.to_nat (Z.max 1 (Z.min limit 1000))). assert (Hn : (1 <= n)%nat) by lia.
  destruct (length (take n rest) <? length rest)%nat eqn:Hlt.
  2:{ apply Nat.ltb_ge in Hlt. rewrite length_take in Hlt. by rewrite take_ge by lia. }
  apply Nat.ltb_lt in Hlt. rewrite length_take in Hlt. assert (Hlen : (n < length rest)%nat) by lia.
  destruct (last (take n rest)) as [x|] eqn:Hx.
  2:{ apply last_None in Hx. apply (f_equal length) in Hx. rewrite length_take in Hx. simpl in Hx. lia. }
  apply last_Some in Hx as (front & Hx). simpl.
  assert (Hsplit : all = (pre ++ front) ++ x :: drop n rest).
  { rewrite Hall. rewrite <-(take_drop n rest) at 1. rewrite Hx, <-!app_assoc. done. }
  rewrite (IH (pre ++ take n rest) (drop n rest)); [by simpl; rewrite take_drop| | done|done| |].
  - rewrite Hall, <-app_assoc, take_drop. done.
  - unfold from_cursor. rewrite (proj2 (opt_truthy_Some _ (job_id x))).
    2:{ split; [done|]. rewrite Hsplit in Hne. apply Forall_app in Hne as [_ Hne]. by inversion Hne. }
    rewrite Hsplit, after_cursor_app; [done|done|].
    rewrite Hsplit, fmap_app in Hnd. apply NoDup_app in Hnd as (_ & Hd & _). intros Hin.
    apply (Hd _ Hin). simpl. by left.
  - rewrite length_drop. lia.
Qed.

Lemma decode_rows_ids d js :
  Forall row_ok d -> result_map decode_row d = Ok js -> (fun x : Job => job_id x) <$> js = dkeys d.
Proof.
  intros Hok H. apply result_map_ok in H. unfold dkeys. revert Hok.
  induction H as [|r j d js Hr _ IH]; intros Hok; [done|].
  inversion Hok as [|? ? (_ & j' & Hj & (A1 & _) & _) Hok']; subst. simpl.
  unfold decode_row in Hr. rewrite Hj in Hr. simplify_eq. f_equal; auto.
Qed.

Lemma listing_ids db k s all :
  db_ok db -> listing JobState_value db k s = Ok all ->
  NoDup ((fun x : Job => job_id x) <$> all) /\ Forall (fun x : Job => job_id x <> "") all.
Proof.
  intros Hok H. unfold listing in H. apply result_bind_ok in H as (js & Hjs & H). simplify_eq.
  pose proof (decode_rows_ids _ _ (ok_rows _ Hok) Hjs) as Hids.
  assert (Hsub : forall p (l : list Job), (fun x : Job => job_id x) <$> List.filter p l `sublist_of` (fun x : Job => job_id x) <$> l).
  { intros q l. induction l as [|x l IH]; simpl; [done|]. case_match; simpl; by constructor. }
  split.
  - eapply sublist_NoDup; [|apply Hsub]. eapply sublist_NoDup; [|apply Hsub].
    rewrite sort_by_perm, Hids. apply ok_ids, Hok.
  - apply Forall_forall. intros x Hx. apply list_elem_of_In, filter_In in Hx as [Hx _].
    apply filter_In in Hx as [Hx%list_elem_of_In _]. apply elem_of_sort_by in Hx.
    assert (Hk : job_id x ∈ dkeys (jobs db)) by (rewrite <-Hids; by apply (list_elem_of_fmap_2 (fun x : Job => job_id x))).
    unfold dkeys in Hk. apply list_elem_of_fmap in Hk as (r & -> & Hr).
    pose proof (ok_rows _ Hok) as Hrows. rewrite Forall_forall in Hrows. by destruct (Hrows _ Hr).
Qed.

(** ** Theorems *)

(** C1: every database the store's operations can build, from an empty one and
    in any order, with any arguments and clocks, satisfies the invariant
    [db_ok]: unique job ids and idempotency keys, columns that repeat the
    payload, a lease exactly on running jobs, a finish time exactly on final
    ones, retries within [max_retries], event ids unique, sequence numbers
    increasing, and no event of a job or version the table does not have. *)
Theorem store_invariant ops : db_ok (exec_all ops empty_db).
Proof. apply exec_all_ok, empty_db_ok. Qed.

(** C2: one call of any operation moves each existing job along
    [_ALLOWED_TRANSITIONS] at most once: its row survives, its key is kept and
    either nothing changes or the version grows by exactly one. *)
Theorem store_state_machine ops op :
  steps (exec_all ops empty_db) (exec op (exec_all ops empty_db)).
Proof. apply exec_post, exec_all_ok, empty_db_ok. Qed.

(** A job that has succeeded or been canceled keeps that state, whatever
    operations follow, and its version never decreases. *)
Theorem final_states_absorbing ops ops' jid s v key :
  view (exec_all ops empty_db) jid = Some (s, v, key) -> s = SUCCEEDED \/ s = CANCELED ->
  exists v', view (exec_all ops' (exec_all ops empty_db)) jid = Some (s, v', key) /\ v <= v'.
Proof.
  intros Hv Hs. apply (exec_all_view ops') in Hv as ([[s' v'] k'] & Hv' & Hk & Hle & Hf);
    [|apply exec_all_ok, empty_db_ok]. simpl in *. exists v'. rewrite Hv', Hk, Hf by done. done.
Qed.

(** C9: creation is idempotent: once a creation with a non-empty key has
    returned a job, every later well-formed creation with that key changes
    nothing and returns the same job, whatever happened in between. *)
Theorem create_idempotent ops ops' a a' now now' db1 (j : Job) k :
  create seal_content_hash validate_payload SERIALIZER_ID build_identity a now (exec_all ops empty_db) = (db1, Ok j) ->
  c_idempotency_key a = Some k -> c_idempotency_key a' = Some k -> k <> "" ->
  opt_truthy (c_job_id a') <> None -> c_kind a' ∈ JOB_KINDS -> 0 <= c_max_retries a' ->
  let db2 := exec_all ops' db1 in
  exists j' : Job, create seal_content_hash validate_payload SERIALIZER_ID build_identity a' now' db2 = (db2, Ok j')
    /\ job_id j' = job_id j.
Proof.
  intros Hcr Hk Hk' Hne Hid Hkind Hmax db2.
  assert (Hok1 : db_ok db1).
  { replace db1 with (exec (OCreate a now) (exec_all ops empty_db)) by (simpl; by rewrite Hcr).
    apply exec_post, exec_all_ok, empty_db_ok. }
  eapply create_key in Hcr as (s & v & Hv); eauto; [|apply exec_all_ok, empty_db_ok].
  apply (exec_all_view ops') in Hv as ([[s' v'] k2] & Hv & Hkk & _); [|done]. simpl in Hkk. subst k2.
  assert (Hok2 : db_ok db2) by by apply exec_all_ok.
  unfold view in Hv. destruct (dget (jobs (exec_all ops' db1)) (job_id j)) as [row|] eqn:Hg; simplify_eq/=.
  pose proof (db_ok_row _ _ _ Hok2 Hg) as (_ & j' & Hj' & (A1 & _) & _). exists j'. split; [|done].
  by eapply create_existing.
Qed.

(** The job [mark_succeeded] stores: everything as it was, except state,
    version, progress, results, the two times and the lease. *)
Definition succeeded_job (j : Job) (now : Z) (refs : list string) : Job :=
  mkJob (mkJobCore (envelope j) (job_id j) (kind j) SUCCEEDED (version j + 1) 100 (started_at_utc_ms j)
           now (Some now) (actor j) (input_artifact_refs j) refs (error_code j) (idempotency_key j)
           None None (retry_count j) (max_retries j) (parent_job_id j) (child_job_ids j)
           (event_cursor j) (run_id j)) (content_hash j).

(** C4: lease fencing.  [mark_succeeded] succeeds exactly for a running job
    whose lease is held by the caller, has not expired and has the expected
    version, and whose succeeded payload the contract library seals and
    validates; the job is then stored as succeeded, one version up, with
    progress 100, the given results and no lease.  In every other case, a
    payload refused by the contract library included, the database is left
    exactly as it was. *)
Theorem mark_succeeded_iff ops jid owner expected now refs :
  let db := exec_all ops empty_db in
  let mark := mark_succeeded seal_content_hash validate_payload JobState_value jid owner expected now refs in
  ((exists db' q, mark db = (db', Ok q)) <->
   exists row j d, dget (jobs db) jid = Some row /\ row_payload row = Some j /\ state j = RUNNING /\
     (forall v, expected = Some v -> version j = v) /\ owner <> "" /\ lease_owner j = Some owner /\
     lease_deadline_utc_ms j = Some d /\ now <= d /\ sealable db (succeeded_job j now refs) "succeeded") /\
  (forall db' (q : Job), mark db = (db', Ok q) ->
     exists v key, view db jid = Some (RUNNING, v, key) /\ view db' jid = Some (SUCCEEDED, v + 1, key) /\
       progress q = 100 /\ result_artifact_refs q = refs /\ lease_owner q = None) /\
  (forall db' e, mark db = (db', Err e) -> db' = db).
Proof.
  intros db mark. assert (Hok : db_ok db) by apply exec_all_ok, empty_db_ok.
  assert (Hinv : forall db' (q : Job), mark db = (db', Ok q) -> succeeded_body seal_content_hash validate_payload
    JobState_value jid owner expected now refs db = Ok (q, db')).
  { unfold mark, mark_succeeded, transaction. intros db' q. case_match; [|done]. case_match. congruence. }
  split; [split|split].
  - intros (db' & q & H%Hinv). unfold succeeded_body in H. apply result_bind_ok in H as (j & Hj & H).
    apply result_bind_ok in H as ([] & Hv & H). case_bool_decide as Hrun; [|done].
    apply result_bind_ok in H as ([] & Hl & H). apply get_spec in Hj as (row & Hrow & Hp & Hag & _); [|done].
    apply require_live_lease_spec in Hl as (o & d & [= <-] & Ho & Hlo & Hd & Hle).
    exists row, j, d. rewrite require_version_spec in Hv. split_and!; try done.
    match type of H with transition_tx ?a ?b ?c ?e ?f ?g ?h = _ =>
      apply (transition_iff a b c e f g jid row); eauto; [done|rewrite Hrun; simpl; set_solver] end.
  - intros (row & j & d & Hg & Hj & Hrun & Hv & Ho & Hlo & Hd & Hle & Hseal).
    pose proof (db_ok_row _ _ _ Hok Hg) as (_ & j' & Hj' & Hag & _). simpl in *. rewrite Hj in Hj'. injection Hj' as <-.
    unfold mark, mark_succeeded, transaction, succeeded_body. rewrite (get_ok _ _ _ _ Hok Hg Hj). simpl.
    rewrite (proj2 (require_version_spec _ _) Hv). simpl. rewrite bool_decide_true by done.
    rewrite (proj2 (require_live_lease_spec _ _ _)) by eauto 8. simpl.
    match goal with |- context [transition_tx ?a ?b ?c ?e ?f ?g ?h] =>
      destruct (transition_iff a b c e f g jid row) as [_ (q & db' & Heq)]; eauto; try done end.
    + rewrite Hrun. simpl. set_solver.
    + rewrite Heq. eauto.
  - intros db' q H%Hinv. unfold succeeded_body in H. apply result_bind_ok in H as (j & Hj & H).
    apply result_bind_ok in H as ([] & Hv & H). case_bool_decide as Hrun; [|done].
    apply result_bind_ok in H as ([] & _ & H). apply get_spec in Hj as (row & Hrow & _ & Hag & Hco); [|done].
    pose proof Hag as (A1 & A2 & A3 & A4).
    eapply transition_ok in H as (_ & _ & Hview & _ & Hq & _); eauto; [|done|].
    + exists (version j), (idempotency_key j). rewrite Hview, decide_True by done.
      rewrite (agrees_view _ _ _ _ Hrow Hag), Hrun. rewrite Hq. done.
    + intros Hin. eapply finished_core_ok; eauto; simpl; try done. set_solver.
  - unfold mark, mark_succeeded, transaction. intros db' e. repeat case_match; congruence.
Qed.

(** C10: recovery is exact: a successful [recover_lost_leases(now)] moves to
    [LOST], one version up, precisely the running jobs whose lease deadline is
    before [now], leaves every other row untouched, and returns their number. *)
Theorem recover_exact ops now db' n :
  let db := exec_all ops empty_db in
  recover_lost_leases seal_content_hash validate_payload JobState_value now db = (db', Ok n) ->
  n = Z.of_nat (length (lost_rows now (jobs db))) /\
  (forall jid row, dget (jobs db) jid = Some row ->
     if row_lost now row then view db' jid = Some (LOST, row_version row + 1, row_idempotency_key row)
     else dget (jobs db') jid = Some row).
Proof.
  intros db H. assert (Hok : db_ok db) by apply exec_all_ok, empty_db_ok.
  unfold recover_lost_leases, transaction in H.
  destruct (recover_body _ _ _ _ _) as [[m d]|] eqn:Hb; simplify_eq.
  apply recover_post in Hb as (_ & Hn & Hrow); [|done]. done.
Qed.

(** C18: pagination is complete: following [next_cursor] from the first page
    returns the whole filtered listing, in order, each job once. *)
Theorem pagination_complete ops k s limit all :
  let db := exec_all ops empty_db in
  listing JobState_value db k s = Ok all ->
  all_pages (S (length all)) db k s None limit = Some all /\
  NoDup ((fun x : Job => job_id x) <$> all).
Proof.
  intros db Hl. assert (Hok : db_ok db) by apply exec_all_ok, empty_db_ok.
  destruct (listing_ids _ _ _ _ Hok Hl) as [Hnd Hne]. split; [|done].
  eapply (all_pages_suffix _ _ _ _ _ all [] all); eauto; lia.
Qed.

(** Canceling a job under an idempotency key that is already an event id
    cancels the job but logs nothing: the event log is unchanged. *)
Theorem cancel_reused_key_not_logged ops jid key now now' db' (q : Job) s v ik :
  let db := exec_all ops empty_db in
  view db jid = Some (s, v, ik) -> s <> CANCELED -> key <> "" -> event_exists db key = true ->
  cancel seal_content_hash validate_payload JobState_value jid (Some key) now now' db = (db', Ok q) ->
  view db' jid = Some (CANCELED, v + 1, ik) /\ events db' = events db /\ event_cursor q = Some key.
Proof.
  intros db Hv Hs Hne Hex H. assert (Hok : db_ok db) by apply exec_all_ok, empty_db_ok.
  unfold cancel, transaction in H. destruct (cancel_body _ _ _ _ _ _ _ _) as [[q' d]|] eqn:Hb; simplify_eq.
  unfold cancel_body in Hb. apply result_bind_ok in Hb as (j & Hj & Hb).
  apply get_spec in Hj as (row & Hrow & _ & Hag & Hco); [|done].
  pose proof (agrees_view _ _ _ _ Hrow Hag) as Hview. fold db in Hview. rewrite Hv in Hview. simplify_eq.
  rewrite bool_decide_false in Hb by done.
  eapply transition_ok in Hb as (_ & _ & Hview' & _ & Hq & Hev); eauto; [|done|].
  - unfold stable_event_id, str_or in *. rewrite (proj2 (opt_truthy_Some (Some key) key)) in * by done.
    rewrite Hex in Hev. rewrite Hview', decide_True by done. rewrite Hq. done.
  - intros Hin. eapply finished_core_ok; eauto; simpl; try done; [set_solver|].
    apply progress_zero; [done|]. by eapply allowed_not_succeeded.
Qed.

End Facts.

(** ** Witnesses: a concrete contract library and a short history *)

Definition w_seal (j : Job) : result string Job := Ok (mkJob (core j) (Some "sha256")).
Definition w_validate (_ : Job) : result string unit := Ok tt.
Definition w_value (s : JobState) : string :=
  match s with
  | QUEUED => "queued" | RUNNING => "running" | SUCCEEDED => "succeeded" | FAILED => "failed"
  | CANCELED => "canceled" | LOST => "lost" | RETRY_WAIT => "retry_wait"
  end.
Definition w_identity : result string (string * string) := Ok ("4.0.2", "abc").
Definition w_args (jid : string) (key parent : option string) : CreateArgs :=
  mkCreateArgs (Some jid) "backtest" None key parent [] "openpine-5.0" 3.

Lemma w_seal_core j j' : w_seal j = Ok j' -> core j' = core j.
Proof. intros H. injection H as <-. reflexivity. Defined.

(** A contract library that seals no job with a result. *)
Definition w_strict (j : Job) : result string Job :=
  match result_artifact_refs j with [] => w_seal j | _ => Err "result reference" end.

Lemma w_strict_core j j' : w_strict j = Ok j' -> core j' = core j.
Proof. unfold w_strict. destruct (result_artifact_refs j); [apply w_seal_core|discriminate]. Defined.

(** Two jobs, the first with a key, started under a lease that runs to 50. *)
Definition w_ops : list Op :=
  [OCreate (w_args "a" (Some "k") None) 1; OCreate (w_args "b" None (Some "a")) 2;
   OMarkRunning "a" "w1" 50 10 None].

Abbreviation w_exec_all := (exec_all w_seal w_validate w_value "json" w_identity).

Lemma store_invariant_witness :
  db_ok w_validate (w_exec_all w_ops empty_db) /\ length (jobs (w_exec_all w_ops empty_db)) = 2%nat.
Proof. split; [apply store_invariant; exact w_seal_core | vm_compute; reflexivity]. Defined.

Lemma store_state_machine_witness :
  steps (w_exec_all w_ops empty_db)
    (exec w_seal w_validate w_value "json" w_identity (OCancel "a" None 20 21) (w_exec_all w_ops empty_db)).
Proof. apply store_state_machine; exact w_seal_core. Defined.

Lemma final_states_absorbing_witness :
  exists v', view (w_exec_all [ORetry "a" 40; OMarkRunning "a" "w2" 90 41 None]
                     (w_exec_all (w_ops ++ [OCancel "a" None 20 21]) empty_db)) "a"
             = Some (CANCELED, v', Some "k") /\ 4 <= v'.
Proof.
  apply final_states_absorbing; [exact w_seal_core | vm_compute; reflexivity | right; reflexivity].
Defined.

Lemma create_idempotent_witness :
  let '(db1, r) := create w_seal w_validate "json" w_identity (w_args "a" (Some "k") None) 1 empty_db in
  let db2 := w_exec_all [OMarkRunning "a" "w1" 50 10 None] db1 in
  exists j' : Job, create w_seal w_validate "json" w_identity (w_args "c" (Some "k") None) 30 db2 = (db2, Ok j')
    /\ job_id j' = "a".
Proof.
  set (c := create w_seal w_validate "json" w_identity (w_args "a" (Some "k") None) 1 empty_db).
  destruct c as [db1 r] eqn:Hc. destruct r as [j|e]; [|vm_compute in Hc; discriminate].
  assert (Hj : job_id j = "a") by (vm_compute in Hc; injection Hc as _ <-; reflexivity).
  pattern "a" at 2. rewrite <-Hj. cbv beta.
  apply (create_idempotent w_seal w_validate w_value "json" w_identity w_seal_core []
           [OMarkRunning "a" "w1" 50 10 None] (w_args "a" (Some "k") None) (w_args "c" (Some "k") None)
           1 30 db1 j "k"); [exact Hc|reflexivity|reflexivity|discriminate|discriminate| |simpl; lia].
  apply (bool_decide_unpack _). vm_compute. exact I.
Defined.

Lemma mark_succeeded_iff_witness :
  (exists db' q, mark_succeeded w_seal w_validate w_value "a" "w1" (Some 3) 20 ["ref"]
                   (w_exec_all w_ops empty_db) = (db', Ok q)) /\
  ~ (exists db' q, mark_succeeded w_strict w_validate w_value "a" "w1" (Some 3) 20 ["bad ref"]
                   (exec_all w_strict w_validate w_value "json" w_identity w_ops empty_db) = (db', Ok q)).
Proof.
  split.
  - apply (mark_succeeded_iff w_seal w_validate w_value "json" w_identity w_seal_core w_ops "a" "w1" (Some 3) 20 ["ref"]).
    do 3 eexists. split; [vm_compute; reflexivity|]. split; [reflexivity|].
    split; [reflexivity|]. split; [intros v Hv; injection Hv as <-; reflexivity|].
    split; [discriminate|]. split; [reflexivity|]. split; [reflexivity|]. split; [lia|].
    eexists. split; [reflexivity|]. right. eexists. reflexivity.
  - intros H.
    apply (mark_succeeded_iff w_strict w_validate w_value "json" w_identity w_strict_core w_ops "a" "w1" (Some 3) 20
             ["bad ref"]) in H.
    destruct H as (row & j & d & _ & _ & _ & _ & _ & _ & _ & _ & q & Hq & _). discriminate Hq.
Defined.

Lemma recover_exact_witness :
  exists db' n, recover_lost_leases w_seal w_validate w_value 60 (w_exec_all w_ops empty_db) = (db', Ok n) /\
    n = Z.of_nat (length (lost_rows 60 (jobs (w_exec_all w_ops empty_db)))) /\ n = 1.
Proof.
  destruct (recover_lost_leases w_seal w_validate w_value 60 (w_exec_all w_ops empty_db)) as [db' r] eqn:Hr.
  destruct r as [n|e]; [|vm_compute in Hr; discriminate].
  exists db', n. split; [reflexivity|].
  split; [apply (recover_exact w_seal w_validate w_value "json" w_identity w_seal_core w_ops 60 db' n Hr)|].
  vm_compute in Hr. injection Hr as _ <-. reflexivity.
Defined.

Lemma pagination_complete_witness :
  exists all, listing w_value (w_exec_all w_ops empty_db) (Some "backtest") None = Ok all /\
    all_pages w_value (S (length all)) (w_exec_all w_ops empty_db) (Some "backtest") None None 1 = Some all.
Proof.
  destruct (listing w_value (w_exec_all w_ops empty_db) (Some "backtest") None) as [all|e] eqn:Hl;
    [|vm_compute in Hl; discriminate].
  exists all. split; [reflexivity|].
  apply (pagination_complete w_seal w_validate w_value "json" w_identity w_seal_core w_ops (Some "backtest") None 1 all Hl).
Defined.

Lemma cancel_reused_key_witness :
  exists db' q, cancel w_seal w_validate w_value "a" (Some "b:created:v1") 20 21 (w_exec_all w_ops empty_db) = (db', Ok q)
    /\ events db' = events (w_exec_all w_ops empty_db).
Proof.
  destruct (cancel w_seal w_validate w_value "a" (Some "b:created:v1") 20 21 (w_exec_all w_ops empty_db))
    as [db' r] eqn:Hc. destruct r as [q|e]; [|vm_compute in Hc; discriminate].
  exists db', q. split; [reflexivity|].
  apply (cancel_reused_key_not_logged w_seal w_validate w_value "json" w_identity w_seal_core w_ops "a"
           "b:created:v1" 20 21 db' q RUNNING 3 (Some "k"));
    [vm_compute; reflexivity|discriminate|discriminate|vm_compute; reflexivity|exact Hc].
Defined.
