(* ===== verification/PyFloat.v ===== *)
(** Python's [float] (IEEE 754 binary64) and [decimal.Decimal], as the trading
    components use them.

    A float is the Standard Library's [spec_float], whose operations at
    precision 53 and exponent bound 1024 are those of binary64, infinities and
    NaN included; nothing here is axiomatised.  [decimal_of_float] is
    [Decimal(str(x))]: the shortest decimal that reads back as [x]. *)

From Stdlib Require Import SpecFloat.
From S2P Require Import Prelude.

Definition float : Type := spec_float.

Definition fmul : float -> float -> float := SFmul 53 1024.
Definition fdiv : float -> float -> float := SFdiv 53 1024.
Definition fsub : float -> float -> float := SFsub 53 1024.
Definition fadd : float -> float -> float := SFadd 53 1024.
Definition fabs : float -> float := SFabs.
Definition feqb : float -> float -> bool := SFeqb.
Definition fltb : float -> float -> bool := SFltb.
Definition fleb : float -> float -> bool := SFleb.

Definition is_nan (x : float) : bool := match x with S754_nan => true | _ => false end.

#[export] Instance float_eq_dec : EqDecision float.
Proof. solve_decision. Defined.

(** [float(n)] of an integer. *)
Definition float_of_Z (z : Z) : float := binary_normalize 53 1024 z 0 false.

(** The float nearest to [c * 10^e], for a literal or a decimal text. *)
Definition float_of_dec (c e : Z) : float :=
  if c =? 0 then S754_zero false
  else if 0 <=? e then float_of_Z (c * 10 ^ e)
  else fdiv (S754_finite (c <? 0) (Z.to_pos (Z.abs c)) 0) (S754_finite false (Z.to_pos (10 ^ (- e))) 0).

Definition f_zero : float := S754_zero false.

(** [min(a, b)] and [max(a, b)]: the first argument wins unless the second is
    strictly smaller (greater). *)
Definition py_min (a b : float) : float := if fltb b a then b else a.
Definition py_max (a b : float) : float := if fltb a b then b else a.

(** ** The shortest decimal of a float *)

(** A positive finite float [m * 2^e] as a fraction. *)
Definition frac_num (m : positive) (e : Z) : Z := Z.pos m * 2 ^ Z.max 0 e.
Definition frac_den (e : Z) : Z := 2 ^ Z.max 0 (- e).

(** [num/den >= 10^k]. *)
Definition ge_pow10 (num den k : Z) : bool :=
  if 0 <=? k then den * 10 ^ k <=? num else den <=? num * 10 ^ (- k).

(** The number of digits before the decimal point: [10^(k-1) <= x < 10^k]. *)
Fixpoint dec_point (fuel : nat) (num den k : Z) : Z :=
  match fuel with
  | O => k
  | S fuel' => if ge_pow10 num den k then dec_point fuel' num den (k + 1) else k
  end.

Definition scaled (num den s : Z) : Z :=
  if 0 <=? s then num / (den * 10 ^ s) else (num * 10 ^ (- s)) / den.

(** Of the two neighbours of [num/den] with exponent [s], the one that reads
    back as [x], the nearer one when both do. *)
Definition reads_back (x : float) (num den s : Z) : option Z :=
  let lo := scaled num den s in
  let ok c := bool_decide (float_of_dec c s = x) in
  let lo_near :=
    if 0 <=? s then 2 * (num - lo * (den * 10 ^ s)) <=? den * 10 ^ s
    else 2 * (num * 10 ^ (- s) - lo * den) <=? den in
  match ok lo, ok (lo + 1) with
  | true, true => Some (if lo_near then lo else lo + 1)
  | true, false => Some lo
  | false, true => Some (lo + 1)
  | false, false => None
  end.

(** Try 1, 2, ... digits; 17 always suffice for binary64. *)
Fixpoint shortest (fuel : nat) (x : float) (num den k n : Z) : option (Z * Z) :=
  match fuel with
  | O => None
  | S fuel' =>
      match reads_back x num den (k - n) with
      | Some c => Some (c, k - n)
      | None => shortest fuel' x num den k (n + 1)
      end
  end.

(** ** Decimals *)

(** A finite decimal is [coeff * 10^exp] with a signed coefficient; decimals
    that are numerically equal need not be equal. *)
Inductive Decimal :=
| DFin (coeff exp : Z)
| DInf (negative : bool)
| DNan.

(** The shortest coefficient and exponent of a positive float. *)
Definition shortest_dec (m : positive) (e : Z) : option (Z * Z) :=
  let num := frac_num m e in
  let den := frac_den e in
  let guess := (Z.log2 num - Z.log2 den) * 30103 / 100000 - 1 in
  let k := dec_point 4 num den guess in
  shortest 17 (S754_finite false m e) num den k 1.

(** [Decimal(str(x))].  Every finite binary64 number has a decimal of at most
    17 digits that reads back, so the last branch is not taken on one. *)
Definition decimal_of_float (x : float) : Decimal :=
  match x with
  | S754_nan => DNan
  | S754_infinity s => DInf s
  | S754_zero _ => DFin 0 0
  | S754_finite s m e =>
      match shortest_dec m e with
      | Some (c, e10) => DFin (if s then - c else c) e10
      | None => DNan
      end
  end.

(** ** Texts of floats *)

Fixpoint str_repeat (n : nat) (s : string) : string :=
  match n with O => "" | S n' => s +:+ str_repeat n' s end.

Fixpoint strip_zeros (fuel : nat) (c e : Z) : Z * Z :=
  match fuel with
  | O => (c, e)
  | S fuel' => if (c mod 10 =? 0) && (0 <? c) then strip_zeros fuel' (c / 10) (e + 1) else (c, e)
  end.

(** [repr(x)]: positional for exponents from -4 to 15, scientific otherwise. *)
Definition dec_str (c e : Z) : string :=
  let '(c, e) := strip_zeros 20 c e in
  let ds := pretty c in
  let n := Z.of_nat (String.length ds) in
  let point := n + e in
  if (-4 <? point) && (point <=? 16) then
    if point <=? 0 then "0." +:+ str_repeat (Z.to_nat (- point)) "0" +:+ ds
    else if n <=? point then ds +:+ str_repeat (Z.to_nat (point - n)) "0" +:+ ".0"
    else String.substring 0 (Z.to_nat point) ds +:+ "."
           +:+ String.substring (Z.to_nat point) (Z.to_nat (n - point)) ds
  else
    let x := point - 1 in
    let mantissa :=
      if n =? 1 then ds
      else String.substring 0 1 ds +:+ "." +:+ String.substring 1 (Z.to_nat (n - 1)) ds in
    mantissa +:+ "e" +:+ (if x <? 0 then "-" else "+")
      +:+ (if Z.abs x <? 10 then "0" else "") +:+ pretty (Z.abs x).

Definition float_str (x : float) : string :=
  match x with
  | S754_nan => "nan"
  | S754_infinity s => if s then "-inf" else "inf"
  | S754_zero s => if s then "-0.0" else "0.0"
  | S754_finite s m e =>
      match shortest_dec m e with
      | Some (c, e10) => (if s then "-" else "") +:+ dec_str c e10
      | None => "nan"
      end
  end.

(** The coefficients of two finite decimals at their common exponent. *)
Definition common_exp (e1 e2 : Z) : Z := Z.min e1 e2.
Definition at_exp (c e e' : Z) : Z := c * 10 ^ (e - e').

(** [a % b] in the default context (28 digits): [None] when it signals
    [InvalidOperation]. *)
Definition dec_rem (a b : Decimal) : option Decimal :=
  match a, b with
  | DNan, _ | _, DNan => Some DNan
  | DInf _, _ => None
  | DFin c e, DInf _ => Some (DFin c e)
  | DFin c1 e1, DFin c2 e2 =>
      let e := common_exp e1 e2 in
      let n1 := at_exp c1 e1 e in
      let n2 := at_exp c2 e2 e in
      if n2 =? 0 then None
      else if 10 ^ 28 <=? Z.abs (Z.quot n1 n2) then None
      else Some (DFin (Z.rem n1 n2) e)
  end.

(** [a == Decimal(0)]: false on NaN. *)
Definition dec_is_zero (a : Decimal) : bool :=
  match a with DFin c _ => c =? 0 | _ => false end.

(** [a < b]: signals [InvalidOperation] on NaN. *)
Definition dec_ltb (a b : Decimal) : option bool :=
  match a, b with
  | DNan, _ | _, DNan => None
  | DInf s, DInf s' => Some (s && negb s')
  | DInf s, DFin _ _ => Some s
  | DFin _ _, DInf s => Some (negb s)
  | DFin c1 e1, DFin c2 e2 =>
      let e := common_exp e1 e2 in Some (at_exp c1 e1 e <? at_exp c2 e2 e)
  end.

(** [round(x)] of a float: to the nearest integer, ties to even. *)
Inductive round_error := RoundNan | RoundInf.

Definition round_half_even (num den : Z) : Z :=
  let q := num / den in
  let r := num mod den in
  if 2 * r <? den then q
  else if den <? 2 * r then q + 1
  else if Z.even q then q else q + 1.

Definition float_round (x : float) : result round_error Z :=
  match x with
  | S754_nan => Err RoundNan
  | S754_infinity _ => Err RoundInf
  | S754_zero _ => Ok 0
  | S754_finite s m e =>
      let z := round_half_even (frac_num m e) (frac_den e) in
      Ok (if s then - z else z)
  end.

(** [f"{x:.2f}"]. *)
Definition float_fmt2 (x : float) : string :=
  match x with
  | S754_nan => "nan"
  | S754_infinity s => if s then "-inf" else "inf"
  | S754_zero s => if s then "-0.00" else "0.00"
  | S754_finite s m e =>
      let z := round_half_even (frac_num m e * 100) (frac_den e) in
      (if s then "-" else "") +:+ pretty (z / 100) +:+ "."
        +:+ (if z mod 100 <? 10 then "0" else "") +:+ pretty (z mod 100)
  end.

(** ** Comparison facts *)

Lemma fltb_nan_l y : fltb S754_nan y = false.
Proof. reflexivity. Qed.

Lemma fltb_nan_r x : fltb x S754_nan = false.
Proof. destruct x as [| | |? ? ?]; try destruct s; reflexivity. Qed.

Lemma SFcompare_antisym x y : SFcompare y x = CompOpp <$> SFcompare x y.
Proof.
  destruct x as [[]|[]| |[] m1 e1], y as [[]|[]| |[] m2 e2]; try done; unfold SFcompare; simpl;
    rewrite (Z.compare_antisym e1 e2); destruct (e1 ?= e2)%Z eqn:He; try done; simpl;
    change (Pos.compare_cont Eq m1 m2) with (m1 ?= m2)%positive;
    change (Pos.compare_cont Eq m2 m1) with (m2 ?= m1)%positive;
    rewrite (Pos.compare_antisym m1 m2); by destruct (m1 ?= m2)%positive.
Qed.

(** Between numbers, [not (a > b)] is [a <= b]. *)
Lemma fltb_false_fleb x y : is_nan x = false -> is_nan y = false -> fltb x y = false -> fleb y x = true.
Proof.
  intros Hx Hy. unfold fltb, fleb, SFltb, SFleb. rewrite (SFcompare_antisym x y).
  destruct (SFcompare x y) as [[]|] eqn:E; simpl; try done.
  destruct x as [[]|[]| |[] m1 e1], y as [[]|[]| |[] m2 e2]; simpl in *; try done;
    unfold SFcompare in E; simpl in E; repeat case_match; done.
Qed.

(** ** Decimal facts *)

(** What [%] computes: the remainder of a truncated division, exactly. *)
Lemma dec_rem_spec c1 e1 c2 e2 r e :
  dec_rem (DFin c1 e1) (DFin c2 e2) = Some (DFin r e) ->
  e = common_exp e1 e2 /\ exists q, at_exp c1 e1 e = q * at_exp c2 e2 e + r /\
    Z.abs q < 10 ^ 28 /\ Z.abs r < Z.abs (at_exp c2 e2 e).
Proof.
  simpl. intros H. repeat case_hyp H. bool_to_prop. split; [done|].
  exists (at_exp c1 e1 (common_exp e1 e2) `quot` at_exp c2 e2 (common_exp e1 e2)). split_and!.
  - rewrite Z.mul_comm. apply Z.quot_rem'.
  - done.
  - by apply Z.rem_bound_abs.
Qed.

Lemma at_exp_pos c e e' : e' <= e -> 0 < c -> 0 < at_exp c e e'.
Proof. intros. unfold at_exp. assert (0 < 10 ^ (e - e')) by (apply Z.pow_pos_nonneg; lia). nia. Qed.

Lemma at_exp_nonneg c e e' : 0 <= c -> 0 <= at_exp c e e'.
Proof. intros. unfold at_exp. assert (0 <= 10 ^ (e - e')) by (apply Z.pow_nonneg; lia). nia. Qed.
