(* ===== verification/PyValue.v ===== *)
(** Untyped Python scalars: the values of a provider's response dictionary and
    the conversions the adapters apply to them ([bool], [str], [float],
    [str.lower]). *)

From Stdlib Require Import Ascii Floats.SpecFloat.
From S2P Require Import Prelude PyFloat.

Inductive pyval :=
| PNone
| PBool (b : bool)
| PInt (z : Z)
| PFloat (x : float)
| PStr (s : string).

#[export] Instance spec_float_eq_dec : EqDecision spec_float.
Proof. solve_decision. Defined.
#[export] Instance pyval_eq_dec : EqDecision pyval.
Proof. unfold float. solve_decision. Defined.

(** The exceptions these conversions raise, and one raised elsewhere. *)
Inductive py_exn :=
| AttributeError (v : pyval) (attribute : string)
| FloatTypeError (v : pyval)
| FloatValueError (text : string)
| FloatOverflowError
| OtherError (message : string).

(** [if v:]; a NaN is true. *)
Definition float_truthy (x : float) : bool := negb (feqb x f_zero).

Definition truthy (v : pyval) : bool :=
  match v with
  | PNone => false
  | PBool b => b
  | PInt z => negb (z =? 0)
  | PFloat x => float_truthy x
  | PStr s => str_truthy s
  end.

(** [a or b]. *)
Definition py_or (a b : pyval) : pyval := if truthy a then a else b.

(** [str(v)]. *)
Definition py_str (v : pyval) : string :=
  match v with
  | PNone => "None"
  | PBool true => "True"
  | PBool false => "False"
  | PInt z => pretty z
  | PFloat x => float_str x
  | PStr s => s
  end.

(** [v.lower()]. *)
Definition py_lower (v : pyval) : result py_exn string :=
  match v with PStr s => Ok (str_lower s) | _ => Err (AttributeError v "lower") end.

(** ** [float(text)] *)

Definition digit_value (c : Ascii.ascii) : option Z :=
  if ascii_digit c then Some (Z.of_nat (Ascii.nat_of_ascii c) - 48) else None.

(** Digits with single underscores between them: value, count and the rest. *)
Fixpoint scan_digits (s : string) (acc n : Z) : Z * Z * string :=
  match s with
  | EmptyString => (acc, n, s)
  | String c s' =>
      match digit_value c with
      | Some d => scan_digits s' (10 * acc + d) (n + 1)
      | None =>
          match s' with
          | String c' s'' =>
              match bool_decide (c = "_"%char) && (0 <? n), digit_value c' with
              | true, Some d => scan_digits s'' (10 * acc + d) (n + 1)
              | _, _ => (acc, n, s)
              end
          | EmptyString => (acc, n, s)
          end
      end
  end.

Definition scan_sign (s : string) : bool * string :=
  match s with
  | String "-"%char s' => (true, s')
  | String "+"%char s' => (false, s')
  | _ => (false, s)
  end.

(** The exponent part after the digits: [None] when the text goes on otherwise. *)
Definition scan_exponent (s : string) : option Z :=
  match s with
  | EmptyString => Some 0
  | String c s' =>
      if bool_decide (c = "e"%char) then
        let '(neg, s1) := scan_sign s' in
        let '(v, n, rest) := scan_digits s1 0 0 in
        if (0 <? n) && bool_decide (rest = "") then Some (if neg then - v else v) else None
      else None
  end.

Definition scan_number (s : string) : option float :=
  let '(ip, ni, s1) := scan_digits s 0 0 in
  let '(m, nf, s2) := match s1 with
                      | String "."%char s' =>
                          let '(v, n, rest) := scan_digits s' 0 0 in (ip * 10 ^ n + v, n, rest)
                      | _ => (ip, 0, s1)
                      end in
  if 0 <? ni + nf then e ← scan_exponent s2; Some (float_of_dec m (e - nf)) else None.

(** [float(text)]; [None] is the [ValueError]. *)
Definition float_of_str (text : string) : option float :=
  let '(neg, s) := scan_sign (str_lower (str_strip text)) in
  let magnitude :=
    if bool_decide (s = "inf") || bool_decide (s = "infinity") then Some (S754_infinity false)
    else if bool_decide (s = "nan") then Some S754_nan
    else scan_number s in
  x ← magnitude; Some (if neg then SFopp x else x).

(** [float(v)]. *)
Definition py_float (v : pyval) : result py_exn float :=
  match v with
  | PNone => Err (FloatTypeError v)
  | PBool b => Ok (float_of_Z (if b then 1 else 0))
  | PInt z =>
      match float_of_Z z with
      | S754_infinity _ => Err FloatOverflowError
      | x => Ok x
      end
  | PFloat x => Ok x
  | PStr s => match float_of_str s with Some x => Ok x | None => Err (FloatValueError s) end
  end.

(** [float(v) or None]. *)
Definition float_or_none (x : float) : option float := if float_truthy x then Some x else None.

(** [d.get(k, default)]. *)
Definition py_get (d : dict string pyval) (k : string) (dflt : pyval) : pyval := default dflt (dget d k).

Example float_of_str_ex1 : float_of_str " -1_0.25e1 " = Some (SFopp (float_of_dec 1025 (-1))).
Proof. vm_compute. reflexivity. Qed.
Example float_of_str_ex2 : float_of_str "1_.5" = None /\ float_of_str "." = None /\ float_of_str ".5" = Some (float_of_dec 5 (-1)).
Proof. vm_compute. done. Qed.
