(* ===== verification/Orders.v ===== *)
(** Orders: [openpine/orders/models.py] and [openpine/orders/manager.py].

    [OrderManager] keeps the set of client order ids it has seen beside the
    [orders] table ([order_id] primary key, [client_order_id] unique).  SQLite
    itself is outside the repository: what a REAL column gives back for a bound
    float is the parameter [sqlite_real] ([None] is NULL). *)

From S2P Require Import Prelude PyFloat.

(** ** Models *)

Inductive OrderSide := BUY | SELL.
Inductive OrderType := MARKET | LIMIT | STOP | STOP_LIMIT.
Inductive OrderStatus := PENDING | NEW | FILLED | PARTIAL | CANCELLED | REJECTED.

#[export] Instance OrderSide_eq_dec : EqDecision OrderSide.
Proof. solve_decision. Defined.
#[export] Instance OrderType_eq_dec : EqDecision OrderType.
Proof. solve_decision. Defined.
#[export] Instance OrderStatus_eq_dec : EqDecision OrderStatus.
Proof. solve_decision. Defined.

Definition OrderSide_value (s : OrderSide) : string :=
  match s with BUY => "buy" | SELL => "sell" end.

Definition OrderType_value (t : OrderType) : string :=
  match t with MARKET => "market" | LIMIT => "limit" | STOP => "stop" | STOP_LIMIT => "stop_limit" end.

Definition OrderStatus_value (s : OrderStatus) : string :=
  match s with
  | PENDING => "pending" | NEW => "new" | FILLED => "filled"
  | PARTIAL => "partial" | CANCELLED => "cancelled" | REJECTED => "rejected"
  end.

(** [OrderSide(text)] and the like: [None] is the [ValueError] of the enum. *)
Definition parse_enum {A} (value : A -> string) (members : list A) (s : string) : option A :=
  List.find (fun a => bool_decide (value a = s)) members.

Definition OrderSide_of : string -> option OrderSide := parse_enum OrderSide_value [BUY; SELL].
Definition OrderType_of : string -> option OrderType :=
  parse_enum OrderType_value [MARKET; LIMIT; STOP; STOP_LIMIT].
Definition OrderStatus_of : string -> option OrderStatus :=
  parse_enum OrderStatus_value [PENDING; NEW; FILLED; PARTIAL; CANCELLED; REJECTED].

Record OrderIntent := mkIntent {
  oi_client_order_id : string;
  oi_strategy_id : string;
  oi_account_id : string;
  oi_symbol : string;
  oi_side : OrderSide;
  oi_order_type : OrderType;
  oi_quantity : float;
  oi_price : option float;
  oi_stop_price : option float;
  oi_created_at : Z
}.

Record Order := mkOrder {
  order_id : string;
  client_order_id : string;
  strategy_id : string;
  account_id : string;
  symbol : string;
  side : OrderSide;
  order_type : OrderType;
  quantity : float;
  price : option float;
  stop_price : option float;
  status : OrderStatus;
  filled_quantity : float;
  avg_fill_price : option float;
  created_at : Z;
  updated_at : Z;
  error : option string
}.

(** An order that carries the fields of an intent. *)
Definition order_of_intent (i : OrderIntent) (oid : string) (s : OrderStatus) (filled : float)
    (avg : option float) (now : Z) (err : option string) : Order :=
  mkOrder oid (oi_client_order_id i) (oi_strategy_id i) (oi_account_id i) (oi_symbol i) (oi_side i)
    (oi_order_type i) (oi_quantity i) (oi_price i) (oi_stop_price i) s filled avg (oi_created_at i) now err.

(** ** The [orders] table and the manager *)

(** The columns [OrderManager] writes and reads back; the JSON columns, the
    provider id and [reduce_only] are written once and never read. *)
Record OrderRow := mkOrderRow {
  col_strategy_id : string;
  col_account_id : option string;
  col_client_order_id : string;
  col_symbol : string;
  col_side : string;
  col_order_type : string;
  col_qty : option float;
  col_limit_price : option float;
  col_stop_price : option float;
  col_status : string;
  col_filled_quantity : option float;
  col_avg_fill_price : option float;
  col_error : option string;
  col_created_at : Z;
  col_updated_at : Z
}.

Inductive order_error := IntegrityError | EnumError.

Record OrderManager := mkOrderManager {
  seen_client_ids : gset string;
  orders_table : dict string OrderRow
}.

Section Manager.

Variable sqlite_real : float -> option float.

(** [_load_existing_ids], the constructor of a manager over a database. *)
Definition load_existing_ids (table : dict string OrderRow) : OrderManager :=
  mkOrderManager (list_to_set ((fun r => col_client_order_id r.2) <$> table)) table.

Definition row_of_intent (i : OrderIntent) (now : Z) : OrderRow :=
  mkOrderRow (oi_strategy_id i) (Some (oi_account_id i)) (oi_client_order_id i) (oi_symbol i)
    (OrderSide_value (oi_side i)) (OrderType_value (oi_order_type i))
    (sqlite_real (oi_quantity i)) (oi_price i ≫= sqlite_real) (oi_stop_price i ≫= sqlite_real)
    (OrderStatus_value PENDING) (sqlite_real f_zero) None None (oi_created_at i) now.

(** [INSERT INTO orders]: [None] when a constraint fails (primary key, unique
    client id, NOT NULL quantity). *)
Definition insert_order (table : dict string OrderRow) (oid : string) (row : OrderRow)
    : option (dict string OrderRow) :=
  if dmem table oid then None
  else if existsb (fun r => bool_decide (col_client_order_id r.2 = col_client_order_id row)) table then None
  else match col_qty row with
       | None => None
       | Some _ => Some (dset table oid row)
       end.

(** [submit_order]: [oid] is the generated order id, [now] the clock. *)
Definition submit_order (m : OrderManager) (i : OrderIntent) (oid : string) (now : Z)
    : OrderManager * result order_error (option Order) :=
  if bool_decide (oi_client_order_id i ∈ seen_client_ids m) then (m, Ok None)
  else
    let seen := {[oi_client_order_id i]} ∪ seen_client_ids m in
    match insert_order (orders_table m) oid (row_of_intent i now) with
    | None => (mkOrderManager seen (orders_table m), Err IntegrityError)
    | Some table =>
        (mkOrderManager seen table, Ok (Some (order_of_intent i oid PENDING f_zero None now None)))
    end.

(** [_row_to_order]: the stored texts are parsed back into enum members. *)
Definition row_to_order (oid : string) (r : OrderRow) : result order_error Order :=
  match OrderSide_of (col_side r), OrderType_of (col_order_type r), OrderStatus_of (col_status r), col_qty r with
  | Some s, Some t, Some st, Some q =>
      Ok (mkOrder oid (col_client_order_id r) (col_strategy_id r) (str_or (col_account_id r) "")
            (col_symbol r) s t q (col_limit_price r) (col_stop_price r) st
            (default f_zero (col_filled_quantity r)) (col_avg_fill_price r)
            (col_created_at r) (col_updated_at r) (col_error r))
  | _, _, _, _ => Err EnumError
  end.

Definition get_order (m : OrderManager) (oid : string) : result order_error (option Order) :=
  match dget (orders_table m) oid with
  | None => Ok None
  | Some r => let! o := row_to_order oid r in Ok (Some o)
  end.

Definition row_matches (acct : option string) (st : option OrderStatus) (r : string * OrderRow) : bool :=
  match acct with Some a => bool_decide (col_account_id r.2 = Some a) | None => true end &&
  match st with Some s => bool_decide (col_status r.2 = OrderStatus_value s) | None => true end.

(** [SELECT ... ORDER BY created_at DESC]. *)
Definition list_orders (m : OrderManager) (acct : option string) (st : option OrderStatus)
    : result order_error (list Order) :=
  result_map (fun r => row_to_order r.1 r.2)
    (sort_by (fun a b => col_created_at b.2 <=? col_created_at a.2)
       (List.filter (row_matches acct st) (orders_table m))).

Definition update_order_status (m : OrderManager) (oid : string) (st : OrderStatus) (filled : float)
    (avg : option float) (err : option string) (now : Z) : OrderManager * result order_error unit :=
  match dget (orders_table m) oid with
  | None => (m, Ok tt)
  | Some r =>
      match sqlite_real filled with
      | None => (m, Err IntegrityError)
      | Some f =>
          let r' := mkOrderRow (col_strategy_id r) (col_account_id r) (col_client_order_id r) (col_symbol r)
                      (col_side r) (col_order_type r) (col_qty r) (col_limit_price r) (col_stop_price r)
                      (OrderStatus_value st) (Some f) (avg ≫= sqlite_real) err (col_created_at r) now in
          (mkOrderManager (seen_client_ids m) (dset (orders_table m) oid r'), Ok tt)
      end
  end.

(** Calls on a manager, and a restart: a new manager over the same database. *)
Inductive OrderOp :=
| OpSubmit (i : OrderIntent) (oid : string) (now : Z)
| OpUpdate (oid : string) (st : OrderStatus) (filled : float) (avg : option float) (err : option string) (now : Z)
| OpRestart.

Definition order_exec (m : OrderManager) (op : OrderOp) : OrderManager :=
  match op with
  | OpSubmit i oid now => (submit_order m i oid now).1
  | OpUpdate oid st f a e now => (update_order_status m oid st f a e now).1
  | OpRestart => load_existing_ids (orders_table m)
  end.

(** ** Duplicate protection *)

Definition client_ids (m : OrderManager) : list string := (fun r => col_client_order_id r.2) <$> orders_table m.

(** Every stored client id is unique and remembered; every row parses. *)
Record manager_ok (m : OrderManager) : Prop := mk_manager_ok {
  mok_keys : NoDup (dkeys (orders_table m));
  mok_clients : NoDup (client_ids m);
  mok_seen : forall c, c ∈ client_ids m -> c ∈ seen_client_ids m;
  mok_rows : Forall (fun r => is_ok (row_to_order r.1 r.2) = true) (orders_table m)
}.

Lemma parse_enum_value {A} (value : A -> string) members a :
  a ∈ members -> (forall x y, value x = value y -> x = y) -> parse_enum value members (value a) = Some a.
Proof.
  intros Hin Hinj. unfold parse_enum. induction members as [|x members IH]; [set_solver|]. simpl.
  case_bool_decide as E; [by rewrite (Hinj _ _ E)|]. apply elem_of_cons in Hin as [->|]; [done|auto].
Qed.

Lemma OrderSide_roundtrip s : OrderSide_of (OrderSide_value s) = Some s.
Proof. by destruct s. Qed.
Lemma OrderType_roundtrip t : OrderType_of (OrderType_value t) = Some t.
Proof. by destruct t. Qed.
Lemma OrderStatus_roundtrip s : OrderStatus_of (OrderStatus_value s) = Some s.
Proof. by destruct s. Qed.

Lemma insert_order_spec table oid row table' :
  insert_order table oid row = Some table' ->
  dget table oid = None /\ is_Some (col_qty row) /\ table' = dset table oid row /\
  col_client_order_id row ∉ (fun r => col_client_order_id r.2) <$> table.
Proof.
  unfold insert_order, dmem. intros H. repeat case_hyp H. split_and!; try done.
  rewrite list_elem_of_fmap. intros (r & Heq & Hin%list_elem_of_In).
  match goal with E : existsb _ _ = false |- _ => apply not_true_iff_false in E; apply E end.
  apply existsb_exists. exists r. by rewrite bool_decide_eq_true.
Qed.

Lemma dset_rows_ok (P : string * OrderRow -> Prop) table oid row :
  NoDup (dkeys table) -> Forall P table -> P (oid, row) -> Forall P (dset table oid row).
Proof.
  intros Hd Hall HP. apply Forall_forall. intros [k r] Hr.
  apply dset_elem in Hr as [[-> ->]|[_ Hr]]; [done| |done]. by eapply Forall_forall in Hall.
Qed.

Lemma dset_same_client table oid r r' :
  dget table oid = Some r -> col_client_order_id r' = col_client_order_id r ->
  (fun x : string * OrderRow => col_client_order_id x.2) <$> dset table oid r' =
  (fun x : string * OrderRow => col_client_order_id x.2) <$> table.
Proof.
  intros Hg Hc. induction table as [|[k x] table IH]; simpl in *; [done|].
  case_decide; simplify_eq; simpl; [by rewrite Hc|]. f_equal; auto.
Qed.

Lemma submit_order_ok m i oid now : manager_ok m -> manager_ok (submit_order m i oid now).1.
Proof.
  intros Hok. unfold submit_order. case_bool_decide as Hseen; [done|].
  destruct Hok as [Hk Hc Hs Hr]. destruct (insert_order _ _ _) as [table|] eqn:Hins; simpl.
  2:{ constructor; simpl; auto. set_solver. }
  apply insert_order_spec in Hins as (Hnone & [q Hq] & -> & Hfresh).
  assert (Hids : (fun r => col_client_order_id r.2) <$> dset (orders_table m) oid (row_of_intent i now) =
                 client_ids m ++ [oi_client_order_id i]).
  { rewrite dset_new by done. by rewrite fmap_app. }
  constructor; unfold client_ids; simpl; auto with openpine.
  - rewrite Hids. apply NoDup_app. split_and!; [done| |apply NoDup_singleton]. set_solver.
  - rewrite Hids. set_solver.
  - apply dset_rows_ok; [done|done|]. unfold row_to_order. simpl in *.
    by rewrite OrderSide_roundtrip, OrderType_roundtrip, Hq.
Qed.

Lemma update_order_ok m oid st f a e now : manager_ok m -> manager_ok (update_order_status m oid st f a e now).1.
Proof.
  intros Hok. unfold update_order_status. destruct (dget _ _) as [r|] eqn:Hg; [|done].
  destruct (sqlite_real f); [|done]. destruct Hok as [Hk Hc Hs Hr].
  assert (Hrow : is_ok (row_to_order oid r) = true).
  { rewrite Forall_forall in Hr. apply (Hr (oid, r)). by apply dget_Some_elem. }
  constructor; unfold client_ids in *; simpl; auto with openpine.
  - by erewrite dset_same_client.
  - by erewrite dset_same_client.
  - apply dset_rows_ok; [done|done|]. clear Hr. simpl. unfold row_to_order in *. simpl.
    rewrite OrderStatus_roundtrip. by repeat case_match.
Qed.

Lemma restart_ok m : manager_ok m -> manager_ok (load_existing_ids (orders_table m)).
Proof.
  intros [Hk Hc Hs Hr]. constructor; simpl; auto. intros c Hin. by apply elem_of_list_to_set.
Qed.

Lemma order_exec_ok m op : manager_ok m -> manager_ok (order_exec m op).
Proof. destruct op; simpl; eauto using submit_order_ok, update_order_ok, restart_ok. Qed.

Lemma order_exec_all_ok m ops : manager_ok m -> manager_ok (fold_left order_exec ops m).
Proof. revert m. induction ops; intros m Hok; simpl; [done|]. auto using order_exec_ok. Qed.

Lemma empty_manager_ok : manager_ok (load_existing_ids []).
Proof. constructor; simpl; try constructor. set_solver. Qed.

(** Duplicate protection.  Whatever submissions, status updates and
    restarts have happened, no two stored orders share a client order id, and
    resubmitting a stored client id is refused without touching the table. *)
Theorem no_duplicate_client_orders ops i oid now :
  let m := fold_left order_exec ops (load_existing_ids []) in
  NoDup (client_ids m) /\
  (oi_client_order_id i ∈ client_ids m -> submit_order m i oid now = (m, Ok None)).
Proof.
  intros m. assert (Hok : manager_ok m) by (apply order_exec_all_ok, empty_manager_ok).
  split; [by apply mok_clients|]. intros Hin. unfold submit_order.
  rewrite bool_decide_true by (by apply mok_seen). done.
Qed.

(** What SQLite documents of REAL columns: a number other than the negative
    zero is stored and read back unchanged. *)
Definition real_faithful : Prop :=
  forall x, is_nan x = false -> x <> SpecFloat.S754_zero true -> sqlite_real x = Some x.

Definition plain (x : float) : Prop := is_nan x = false /\ x <> SpecFloat.S754_zero true.

(** An accepted order reads back as the one that was returned: [get_order]
    after [submit_order] gives the same order, and the table has grown by
    exactly that row. *)
Theorem submit_get_roundtrip ops i oid now m' o :
  real_faithful ->
  plain (oi_quantity i) -> (forall p, oi_price i = Some p -> plain p) ->
  (forall p, oi_stop_price i = Some p -> plain p) ->
  let m := fold_left order_exec ops (load_existing_ids []) in
  submit_order m i oid now = (m', Ok (Some o)) ->
  get_order m' oid = Ok (Some o) /\ order_id o = oid /\ status o = PENDING /\
  dkeys (orders_table m') = dkeys (orders_table m) ++ [oid].
Proof.
  intros Hreal [Hq1 Hq2] Hp Hsp m H. unfold submit_order in H. case_bool_decide; [simplify_eq|].
  destruct (insert_order _ _ _) as [table|] eqn:Hins; simplify_eq.
  apply insert_order_spec in Hins as (Hnone & _ & -> & _).
  assert (Hopt : forall p : option float, (forall x, p = Some x -> plain x) -> p ≫= sqlite_real = p).
  { intros [x|] Hx; simpl; [|done]. destruct (Hx x); [done|]. by apply Hreal. }
  split_and!; [|done|done|by apply dkeys_dset_new].
  unfold get_order. simpl. rewrite dget_dset_eq. unfold row_to_order. simpl.
  rewrite OrderSide_roundtrip, OrderType_roundtrip, (Hreal _ Hq1 Hq2), (Hopt _ Hp), (Hopt _ Hsp).
  rewrite (Hreal f_zero) by done. simpl. unfold order_of_intent. do 3 f_equal.
  unfold str_or, opt_truthy, str_truthy. by case_bool_decide as E; simpl.
Qed.

(** A failed insert burns the client id: after the exception no order is
    stored, and every retry of the intent on that manager is refused as a
    duplicate although nothing carries its id. *)
Theorem failed_insert_burns_client_id m i oid now m' oid' now' :
  submit_order m i oid now = (m', Err IntegrityError) ->
  orders_table m' = orders_table m /\ submit_order m' i oid' now' = (m', Ok None).
Proof.
  intros H. unfold submit_order in H. case_bool_decide; [done|].
  destruct (insert_order _ _ _); simplify_eq. split; [done|].
  unfold submit_order. simpl. rewrite bool_decide_true; [done|set_solver].
Qed.

End Manager.

(** ** Witnesses *)

Definition w_real (x : float) : option float := if is_nan x then None else Some x.
Definition w_intent (c : string) (q : float) : OrderIntent :=
  mkIntent c "s1" "acct" "BTCUSDT" BUY LIMIT q (Some (float_of_dec 100 0)) None 1.
Definition w_qty : float := float_of_dec 15 (-1).

Lemma no_duplicate_client_orders_witness :
  let m := fold_left (order_exec w_real)
             [OpSubmit (w_intent "c1" w_qty) "o1" 5; OpSubmit (w_intent "c2" w_qty) "o2" 6; OpRestart]
             (load_existing_ids []) in
  submit_order w_real m (w_intent "c1" w_qty) "o3" 9 = (m, Ok None).
Proof.
  apply (no_duplicate_client_orders w_real
    [OpSubmit (w_intent "c1" w_qty) "o1" 5; OpSubmit (w_intent "c2" w_qty) "o2" 6; OpRestart]).
  apply list_elem_of_In. vm_compute. left. reflexivity.
Defined.

Lemma submit_get_roundtrip_witness :
  let m := fold_left (order_exec w_real) [OpSubmit (w_intent "c1" w_qty) "o1" 5] (load_existing_ids []) in
  let '(m', r) := submit_order w_real m (w_intent "c2" w_qty) "o2" 6 in
  exists o, r = Ok (Some o) /\ get_order m' "o2" = Ok (Some o).
Proof.
  cbv zeta. destruct (submit_order w_real _ _ _ _) as [m' r] eqn:H.
  destruct r as [[o|]|e]; [|vm_compute in H; discriminate H|vm_compute in H; discriminate H].
  exists o. split; [reflexivity|].
  apply (submit_get_roundtrip w_real [OpSubmit (w_intent "c1" w_qty) "o1" 5] (w_intent "c2" w_qty) "o2" 6 m' o);
    [|split; [reflexivity|vm_compute; discriminate]| |discriminate|exact H].
  - intros x Hx _. unfold w_real. rewrite Hx. reflexivity.
  - intros p Hp. injection Hp as <-. split; [reflexivity|vm_compute; discriminate].
Defined.

Lemma failed_insert_burns_client_id_witness :
  let nan := SpecFloat.S754_nan in
  let '(m', r) := submit_order w_real (load_existing_ids []) (w_intent "c1" nan) "o1" 5 in
  r = Err IntegrityError /\ submit_order w_real m' (w_intent "c1" nan) "o2" 6 = (m', Ok None).
Proof.
  cbv zeta. destruct (submit_order w_real _ _ _ _) as [m' r] eqn:H.
  assert (Hr : r = Err IntegrityError) by (vm_compute in H; injection H as _ <-; reflexivity). subst r.
  split; [reflexivity|].
  apply (failed_insert_burns_client_id w_real (load_existing_ids []) (w_intent "c1" SpecFloat.S754_nan) "o1" 5 m' "o2" 6 H).
Defined.
