(* ===== verification/Instrument.v ===== *)
(** Instrument rules and result types: [openpine/execution/models.py] and the
    rejected-order helper of [openpine/execution/live_orders.py].

    [InstrumentRules] checks price and quantity against the exchange's
    increments with decimals built from the shortest text of the floats; the
    float fallback and its exceptions are modelled too. *)

From S2P Require Import Prelude PyFloat Orders.

Record InstrumentRules := mkRules {
  ir_symbol : string;
  tick_size : float;
  step_size : float;
  min_qty : float;
  min_notional : float;
  max_qty : option float;
  market_order_supported : bool
}.

(** [(is_valid, error_message)]. *)
Definition verdict : Type := bool * option string.

(** [1e-9]. *)
Definition f_1em9 : float := float_of_dec 1 (-9).

(** [_is_aligned_float]; [round] of a NaN or an infinity raises. *)
Definition is_aligned_float (value step : float) : result round_error bool :=
  if fleb step f_zero then Ok false
  else
    let! n := float_round (fdiv value step) in
    let aligned := fmul (float_of_Z n) step in
    Ok (fltb (fabs (fsub value aligned)) f_1em9).

(** [_is_aligned_decimal]: [InvalidOperation] falls back to the float check. *)
Definition is_aligned_decimal (value step : float) : result round_error bool :=
  if fleb step f_zero then Ok false
  else
    match dec_rem (decimal_of_float value) (decimal_of_float step) with
    | None => is_aligned_float value step
    | Some remainder =>
        if dec_is_zero remainder then Ok true
        else match dec_ltb remainder (decimal_of_float f_1em9) with
             | Some b => Ok b
             | None => is_aligned_float value step
             end
    end.

Definition is_aligned : float -> float -> result round_error bool := is_aligned_decimal.

Definition validate_price (r : InstrumentRules) (price : option float) : result round_error verdict :=
  match price with
  | None => Ok (true, None)
  | Some p =>
      if fleb p f_zero then Ok (false, Some ("Price must be positive, got " +:+ float_str p))
      else
        let! aligned := is_aligned p (tick_size r) in
        if aligned then Ok (true, None)
        else Ok (false, Some ("Price " +:+ float_str p +:+ " does not align to tick_size "
                                +:+ float_str (tick_size r)))
  end.

Definition validate_quantity (r : InstrumentRules) (q : float) : result round_error verdict :=
  if fleb q f_zero then Ok (false, Some ("Quantity must be positive, got " +:+ float_str q))
  else
    let! aligned := is_aligned q (step_size r) in
    if negb aligned then
      Ok (false, Some ("Quantity " +:+ float_str q +:+ " does not align to step_size "
                         +:+ float_str (step_size r)))
    else if fltb q (min_qty r) then
      Ok (false, Some ("Quantity " +:+ float_str q +:+ " below min_qty " +:+ float_str (min_qty r)))
    else
      match max_qty r with
      | Some m =>
          if fltb m q then
            Ok (false, Some ("Quantity " +:+ float_str q +:+ " above max_qty " +:+ float_str m))
          else Ok (true, None)
      | None => Ok (true, None)
      end.

Definition validate_notional (r : InstrumentRules) (q : float) (price : option float) : verdict :=
  match price with
  | None => (true, None)
  | Some p =>
      let notional := fmul p q in
      if fltb notional (min_notional r) then
        (false, Some ("Notional " +:+ float_str notional +:+ " below min_notional "
                        +:+ float_str (min_notional r)))
      else (true, None)
  end.

Definition validate_order (r : InstrumentRules) (q : float) (price : option float) (otype : string)
    : result round_error verdict :=
  if bool_decide (otype = "market") && negb (market_order_supported r) then
    Ok (false, Some ("Market orders not supported for " +:+ ir_symbol r))
  else
    let! v := validate_quantity r q in
    if negb v.1 then Ok v
    else
      let! v := validate_price r price in
      if negb v.1 then Ok v
      else
        let v := validate_notional r q price in
        if negb v.1 then Ok v else Ok (true, None).

Record LiveOrderResult := mkLiveResult {
  lr_success : bool;
  lr_order_id : option string;
  lr_status : option string;
  lr_filled_qty : float;
  lr_avg_fill_price : option float;
  lr_error : option string
}.

Record CancelResult := mkCancelResult { cr_success : bool; cr_error : option string }.

(** [rejected_live_order]. *)
Definition rejected_live_order (i : OrderIntent) (oid : string) (now : Z) (err : string) : Order :=
  order_of_intent i oid REJECTED f_zero None now (Some err).

(** ** Facts *)

Lemma validate_quantity_true r q e :
  validate_quantity r q = Ok (true, e) ->
  fleb q f_zero = false /\ is_aligned q (step_size r) = Ok true /\ fltb q (min_qty r) = false /\
  (forall m, max_qty r = Some m -> fltb m q = false).
Proof.
  unfold validate_quantity. intros H. destruct (fleb q f_zero); [done|].
  apply result_bind_ok in H as ([] & Ha & H); simpl in H; [|done].
  repeat case_hyp H; split_and!; try done; intros; by simplify_eq.
Qed.

Lemma validate_price_true r p e :
  validate_price r (Some p) = Ok (true, e) -> fleb p f_zero = false /\ is_aligned p (tick_size r) = Ok true.
Proof.
  unfold validate_price. intros H. destruct (fleb p f_zero); [done|].
  apply result_bind_ok in H as ([] & Ha & H); [done|done].
Qed.

(** An order that passes [validate_order] respects every exchange rule: the
    quantity is positive, aligned and within the bounds, a price is positive,
    aligned and gives at least the minimum notional, and a market order is
    supported.  (Comparisons are those of floats: a NaN bound is no bound.) *)
Theorem validate_order_sound r q price otype e :
  validate_order r q price otype = Ok (true, e) ->
  (otype = "market" -> market_order_supported r = true) /\
  fleb q f_zero = false /\ is_aligned q (step_size r) = Ok true /\ fltb q (min_qty r) = false /\
  (forall m, max_qty r = Some m -> fltb m q = false) /\
  (forall p, price = Some p -> fleb p f_zero = false /\ is_aligned p (tick_size r) = Ok true /\
     fltb (fmul p q) (min_notional r) = false).
Proof.
  unfold validate_order. intros H. case_match eqn:Hm; [done|].
  assert (Hmkt : otype = "market" -> market_order_supported r = true).
  { intros ->. rewrite bool_decide_true in Hm by done. by destruct (market_order_supported r). }
  apply result_bind_ok in H as ([b e1] & Hq & H). destruct b; simpl in H; [|done].
  apply validate_quantity_true in Hq as (? & ? & ? & ?). split_and!; try done.
  apply result_bind_ok in H as ([b e2] & Hp & H). destruct b; simpl in H; [|done].
  intros p ->. apply validate_price_true in Hp as [? ?]. split_and!; try done.
  simpl in H. by destruct (fltb (fmul p q) (min_notional r)).
Qed.

Lemma decimal_1em9 : decimal_of_float f_1em9 = DFin 1 (-9).
Proof. vm_compute. reflexivity. Qed.

(** The decimal check on two finite decimals, as integer arithmetic at their
    common exponent. *)
Lemma is_aligned_finite value step c1 e1 c2 e2 :
  decimal_of_float value = DFin c1 e1 -> decimal_of_float step = DFin c2 e2 ->
  fleb step f_zero = false -> 0 <= c1 -> 0 < c2 ->
  let e := common_exp e1 e2 in
  let n1 := at_exp c1 e1 e in
  let n2 := at_exp c2 e2 e in
  n1 / n2 < 10 ^ 28 ->
  exists b, is_aligned value step = Ok b /\
    (b = true <-> n1 mod n2 = 0 \/ at_exp (n1 mod n2) e (common_exp e (-9)) < at_exp 1 (-9) (common_exp e (-9))).
Proof.
  intros Hv Hs Hpos H1 H2 e n1 n2 Hbig. unfold is_aligned, is_aligned_decimal.
  assert (Hn2 : 0 < n2) by (apply at_exp_pos; unfold e, common_exp; lia).
  assert (Hn1 : 0 <= n1) by (by apply at_exp_nonneg).
  assert (Hquot : n1 `quot` n2 = n1 / n2) by (apply Z.quot_div_nonneg; lia).
  assert (Hrem : n1 `rem` n2 = n1 mod n2) by (apply Z.rem_mod_nonneg; lia).
  assert (Hdiv : 0 <= n1 / n2) by (apply Z.div_pos; lia).
  rewrite Hpos, Hv, Hs, decimal_1em9. simpl. fold e. fold n1 n2.
  rewrite (proj2 (Z.eqb_neq n2 0)) by lia. rewrite Hquot, Z.abs_eq by done.
  rewrite (proj2 (Z.leb_gt _ _) Hbig). simpl. rewrite Hrem.
  destruct (n1 mod n2 =? 0) eqn:Hz; bool_to_prop.
  - exists true. split; [done|]. tauto.
  - eexists. split; [reflexivity|]. rewrite Z.ltb_lt. tauto.
Qed.

(** A value whose decimal is a whole multiple of the step's decimal (up to
    10^28 steps) is accepted: the check has none of the false rejections of
    float remainders. *)
Theorem aligned_multiple_accepted value step c1 e1 c2 e2 q :
  decimal_of_float value = DFin c1 e1 -> decimal_of_float step = DFin c2 e2 ->
  fleb step f_zero = false -> 0 < c2 -> 0 <= q < 10 ^ 28 ->
  at_exp c1 e1 (common_exp e1 e2) = q * at_exp c2 e2 (common_exp e1 e2) ->
  is_aligned value step = Ok true.
Proof.
  intros Hv Hs Hpos H2 Hq Heq.
  assert (Hn2 : 0 < at_exp c2 e2 (common_exp e1 e2)) by (apply at_exp_pos; unfold common_exp; lia).
  assert (Hc1 : 0 <= c1).
  { assert (0 < 10 ^ (e1 - common_exp e1 e2)) by (apply Z.pow_pos_nonneg; unfold common_exp; lia).
    unfold at_exp in Heq at 1. nia. }
  destruct (is_aligned_finite _ _ _ _ _ _ Hv Hs Hpos Hc1 H2) as (b & -> & Hb).
  { rewrite Heq, Z.div_mul by lia. lia. }
  destruct b; [done|]. exfalso. apply diff_false_true, Hb. left. rewrite Heq. apply Z.mod_mul. lia.
Qed.

(** For an increment of at most [1e-9] the check is vacuous: every
    non-negative value (up to 10^28 steps) passes, aligned or not. *)
Theorem tiny_step_accepts_everything value step c1 e1 c2 e2 :
  decimal_of_float value = DFin c1 e1 -> decimal_of_float step = DFin c2 e2 ->
  fleb step f_zero = false -> 0 <= c1 -> 0 < c2 ->
  at_exp c2 e2 (common_exp e2 (-9)) <= at_exp 1 (-9) (common_exp e2 (-9)) ->
  at_exp c1 e1 (common_exp e1 e2) / at_exp c2 e2 (common_exp e1 e2) < 10 ^ 28 ->
  is_aligned value step = Ok true.
Proof.
  intros Hv Hs Hpos H1 H2 Htiny Hbig.
  destruct (is_aligned_finite _ _ _ _ _ _ Hv Hs Hpos H1 H2 Hbig) as (b & -> & Hb).
  set (e := common_exp e1 e2) in *. set (n1 := at_exp c1 e1 e) in *. set (n2 := at_exp c2 e2 e) in *.
  assert (Hn2 : 0 < n2) by (apply at_exp_pos; unfold e, common_exp; lia).
  destruct b; [done|]. exfalso. apply diff_false_true, Hb. right.
  pose proof (Z.mod_pos_bound n1 n2 Hn2) as Hr.
  (* compare at the lowest of the three exponents *)
  set (lo := common_exp e (-9)). unfold at_exp in *.
  assert (P1 : 0 < 10 ^ (e - lo)) by (apply Z.pow_pos_nonneg; unfold lo, common_exp; lia).
  assert (P2 : 10 ^ (e2 - lo) = 10 ^ (e2 - e) * 10 ^ (e - lo)).
  { rewrite <-Z.pow_add_r by (unfold lo, e, common_exp; lia). f_equal. lia. }
  assert (P3 : c2 * 10 ^ (e2 - lo) <= 10 ^ (-9 - lo)).
  { set (l2 := common_exp e2 (-9)) in *.
    assert (Q : forall x, l2 <= x -> 10 ^ (x - lo) = 10 ^ (x - l2) * 10 ^ (l2 - lo)).
    { intros x Hx. rewrite <-Z.pow_add_r by (subst l2 lo e; unfold common_exp in *; lia). f_equal. lia. }
    rewrite (Q e2), (Q (-9)) by (unfold l2, common_exp; lia).
    assert (0 < 10 ^ (l2 - lo)) by (apply Z.pow_pos_nonneg; unfold l2, lo, e, common_exp; lia). nia. }
  fold n2 in Hr. assert (n2 * 10 ^ (e - lo) = c2 * 10 ^ (e2 - lo)) by (unfold n2; rewrite P2; ring). nia.
Qed.

(** ** Witnesses *)

Definition w_rules : InstrumentRules :=
  mkRules "BTCUSDT" (float_of_dec 1 (-2)) (float_of_dec 1 (-3)) (float_of_dec 1 (-3)) (float_of_dec 10 0)
    (Some (float_of_dec 9000 0)) true.

Lemma validate_order_sound_witness :
  validate_order w_rules (float_of_dec 5 (-3)) (Some (float_of_dec 6500025 (-2))) "limit" = Ok (true, None) /\
  fltb (float_of_dec 5 (-3)) (min_qty w_rules) = false.
Proof.
  assert (H : validate_order w_rules (float_of_dec 5 (-3)) (Some (float_of_dec 6500025 (-2))) "limit" = Ok (true, None))
    by (vm_compute; reflexivity).
  split; [exact H|]. destruct (validate_order_sound _ _ _ _ _ H) as (_ & _ & _ & Hmin & _). exact Hmin.
Defined.

Lemma aligned_multiple_accepted_witness :
  is_aligned (float_of_dec 3 (-1)) (float_of_dec 1 (-1)) = Ok true.
Proof.
  apply (aligned_multiple_accepted _ _ 3 (-1) 1 (-1) 3);
    [vm_compute; reflexivity|vm_compute; reflexivity|vm_compute; reflexivity|lia|lia|vm_compute; reflexivity].
Defined.

Lemma tiny_step_accepts_everything_witness :
  is_aligned (float_of_dec 123456 (-13)) (float_of_dec 1 (-10)) = Ok true.
Proof.
  apply (tiny_step_accepts_everything _ _ 123456 (-13) 1 (-10));
    [vm_compute; reflexivity|vm_compute; reflexivity|vm_compute; reflexivity|lia|lia
    |vm_compute; discriminate|vm_compute; reflexivity].
Defined.
