(* ===== verification/Accounts.v ===== *)
(** Accounts: [openpine/accounts/models.py] and [openpine/accounts/manager.py].

    The [accounts] table has primary key [account_id] and unique [id] and
    [name].  An account's [config] dictionary is represented by its canonical
    JSON text, the form the table stores. *)

From S2P Require Import Prelude Orders.

Inductive AccountType := LIVE | PAPER | BACKTEST.

#[export] Instance AccountType_eq_dec : EqDecision AccountType.
Proof. solve_decision. Defined.

Definition AccountType_value (t : AccountType) : string :=
  match t with LIVE => "live" | PAPER => "paper" | BACKTEST => "backtest" end.

Definition AccountType_of : string -> option AccountType :=
  parse_enum AccountType_value [LIVE; PAPER; BACKTEST].

Record Account := mkAccount {
  acct_id : string;
  acct_name : string;
  acct_provider : string;
  acct_exchange : string;
  acct_market_type : string;
  acct_mode : AccountType;
  acct_live_enabled : bool;
  acct_api_key_ref : option string;
  acct_api_secret_ref : option string;
  acct_permissions : option string;
  acct_api_key_hash : option string;
  acct_config : string;
  acct_created_at : Z;
  acct_updated_at : Z
}.

(** Compatibility properties of [Account]. *)
Definition account_alias_id (a : Account) : string := acct_id a.
Definition account_type (a : Account) : AccountType := acct_mode a.

(** The [mode] argument of [Account.__init__]: a member, or a text to look up. *)
Inductive mode_arg := ModeMember (t : AccountType) | ModeText (s : string).

Definition resolve_mode (mode : mode_arg) (account_type : option mode_arg) : option AccountType :=
  match default mode account_type with
  | ModeMember t => Some t
  | ModeText s => AccountType_of s
  end.

(** [Account.__init__]; [fresh] is [generate_id("acct")], [None] the
    [ValueError] of an unknown mode. *)
Definition Account_init (account_id : option string) (name provider exchange market_type : string)
    (mode : mode_arg) (live_enabled : bool) (key_ref secret_ref permissions key_hash config : option string)
    (created updated : Z) (legacy_id : option string) (atype : option mode_arg) (fresh : string)
    : option Account :=
  match resolve_mode mode atype with
  | None => None
  | Some t =>
      Some (mkAccount (str_or account_id (str_or legacy_id fresh)) name provider exchange market_type t
              live_enabled key_ref secret_ref permissions key_hash (str_or config "{}") created updated)
  end.

Record AccountRow := mkAccountRow {
  ac_id : string;
  ac_name : string;
  ac_provider : string;
  ac_exchange : string;
  ac_market_type : string;
  ac_mode : string;
  ac_account_type : string;
  ac_api_key_ref : option string;
  ac_api_secret_ref : option string;
  ac_permissions : option string;
  ac_api_key_hash : option string;
  ac_live_enabled : Z;
  ac_config : option string;
  ac_created_at : Z;
  ac_updated_at : Z
}.

(** The table: [account_id] to the other columns, in insertion order. *)
Definition AccountTable : Type := dict string AccountRow.

Inductive account_error := AccountIntegrityError | ModeError.

(** [WHERE account_id = ? OR id = ?]. *)
Definition row_is (aid : string) (r : string * AccountRow) : bool :=
  bool_decide (r.1 = aid) || bool_decide (ac_id r.2 = aid).

(** [create_account]; [aid] is the generated id. *)
Definition create_account (t : AccountTable) (aid name : string) (atype mode : option AccountType)
    (exchange provider market_type : string) (key_ref secret_ref permissions key_hash : option string)
    (live_enabled : bool) (config : option string) (now : Z)
    : AccountTable * result account_error Account :=
  let resolved := match mode with
                  | Some m => m
                  | None => default PAPER atype
                  end in
  let config_json := str_or config "{}" in
  let row := mkAccountRow aid name provider exchange market_type (AccountType_value resolved)
               (AccountType_value resolved) key_ref secret_ref permissions key_hash
               (if live_enabled then 1 else 0) (Some config_json) now now in
  if existsb (fun r => bool_decide (r.1 = aid) || bool_decide (ac_id r.2 = aid)
                         || bool_decide (ac_name r.2 = name)) t
  then (t, Err AccountIntegrityError)
  else (t ++ [(aid, row)],
        Ok (mkAccount aid name provider exchange market_type resolved live_enabled key_ref secret_ref
              permissions key_hash config_json now now)).

(** [_row_to_account]. *)
Definition row_to_account (r : string * AccountRow) : result account_error Account :=
  let row := r.2 in
  let mode := str_or (Some (ac_mode row)) (str_or (Some (ac_account_type row)) (AccountType_value PAPER)) in
  match Account_init (Some (str_or (Some r.1) (ac_id row))) (ac_name row)
          (str_or (Some (ac_provider row)) "unknown") (ac_exchange row)
          (str_or (Some (ac_market_type row)) "spot") (ModeText mode) (negb (ac_live_enabled row =? 0))
          (ac_api_key_ref row) (ac_api_secret_ref row) (ac_permissions row) (ac_api_key_hash row)
          (ac_config row) (ac_created_at row) (ac_updated_at row) None None "" with
  | Some a => Ok a
  | None => Err ModeError
  end.

Definition get_account (t : AccountTable) (aid : string) : result account_error (option Account) :=
  match List.find (row_is aid) t with
  | None => Ok None
  | Some r => let! a := row_to_account r in Ok (Some a)
  end.

(** [ORDER BY created_at DESC]. *)
Definition newest_first : list (string * AccountRow) -> list (string * AccountRow) :=
  sort_by (fun a b => ac_created_at b.2 <=? ac_created_at a.2).

Definition list_accounts (t : AccountTable) (atype : option AccountType) : result account_error (list Account) :=
  result_map row_to_account (newest_first (List.filter (fun r =>
    match atype with
    | Some x => bool_decide (ac_mode r.2 = AccountType_value x)
                || bool_decide (ac_account_type r.2 = AccountType_value x)
    | None => true
    end) t)).

Definition list_accounts_by_provider (t : AccountTable) (provider : string) (exchange : option string)
    : result account_error (list Account) :=
  result_map row_to_account (newest_first (List.filter (fun r =>
    bool_decide (ac_provider r.2 = provider) &&
    match exchange with Some e => bool_decide (ac_exchange r.2 = e) | None => true end) t)).

Definition set_live_enabled (t : AccountTable) (aid : string) (enabled : bool) (now : Z) : AccountTable :=
  map (fun r => if row_is aid r then
    (r.1, mkAccountRow (ac_id r.2) (ac_name r.2) (ac_provider r.2) (ac_exchange r.2) (ac_market_type r.2)
            (ac_mode r.2) (ac_account_type r.2) (ac_api_key_ref r.2) (ac_api_secret_ref r.2)
            (ac_permissions r.2) (ac_api_key_hash r.2) (if enabled then 1 else 0) (ac_config r.2)
            (ac_created_at r.2) now)
    else r) t.

Definition delete_account (t : AccountTable) (aid : string) : AccountTable :=
  List.filter (fun r => negb (row_is aid r)) t.

(** ** Facts *)

Lemma AccountType_roundtrip t : AccountType_of (AccountType_value t) = Some t.
Proof. by destruct t. Qed.

Lemma find_app {A} (p : A -> bool) xs ys :
  existsb p xs = false -> List.find p (xs ++ ys) = List.find p ys.
Proof.
  induction xs as [|x xs IH]; simpl; [done|]. intros [Hx Hxs]%orb_false_iff. rewrite Hx. auto.
Qed.

Lemma str_or_ne s d : s <> "" -> str_or (Some s) d = s.
Proof. intros H. unfold str_or, opt_truthy, str_truthy. by rewrite bool_decide_false. Qed.

Lemma str_or_nonempty o d : d <> "" -> str_or o d <> "".
Proof.
  intros Hd. unfold str_or. destruct (opt_truthy o) eqn:E; [|done]. by apply opt_truthy_Some in E as [_ ?].
Qed.

(** An account reads back as it was created, with live trading off unless
    the caller asked for it, and the other accounts are found as before. *)
Theorem create_get_account t aid name atype mode exchange provider market_type kr sr pe kh live config now t' a :
  aid <> "" -> provider <> "" -> market_type <> "" ->
  create_account t aid name atype mode exchange provider market_type kr sr pe kh live config now = (t', Ok a) ->
  get_account t' aid = Ok (Some a) /\ acct_live_enabled a = live /\
  (forall other, other <> aid -> get_account t' other = get_account t other).
Proof.
  intros Haid Hprov Hmkt H. unfold create_account in H.
  destruct (existsb _ t) eqn:Hex; simplify_eq. split_and!; [|done|].
  - unfold get_account. rewrite find_app.
    2:{ clear -Hex. induction t as [|r t IH]; simpl in *; [done|].
        apply orb_false_iff in Hex as [[Hr _]%orb_false_iff Ht]. unfold row_is at 1. rewrite Hr. simpl. by apply IH. }
    simpl. unfold row_is. simpl. rewrite bool_decide_true by done. simpl. unfold row_to_account. simpl.
    assert (Hv : forall x, AccountType_value x <> "") by (by intros []).
    rewrite !(str_or_ne aid), (str_or_ne provider), (str_or_ne market_type), (str_or_ne (AccountType_value _)) by auto.
    unfold Account_init, resolve_mode. simpl. rewrite AccountType_roundtrip, (str_or_ne aid) by done.
    rewrite (str_or_ne (str_or config "{}")) by (by apply str_or_nonempty).
    by destruct live.
  - intros other Hne. unfold get_account.
    replace (List.find (row_is other) (t ++ _)) with (List.find (row_is other) t); [done|].
    clear -Hne. induction t as [|r t IH]; simpl.
    + unfold row_is. simpl. by rewrite !bool_decide_false by congruence.
    + by destruct (row_is other r).
Qed.

(** ** Witness *)

Lemma create_get_account_witness :
  let '(t, r) := create_account [] "acct_1" "main" (Some LIVE) None "binance" "ccxt" "spot" None None None None
                   false None 7 in
  exists a, r = Ok a /\ get_account t "acct_1" = Ok (Some a) /\ acct_live_enabled a = false.
Proof.
  destruct (create_account [] "acct_1" "main" (Some LIVE) None "binance" "ccxt" "spot" None None None None
              false None 7) as [t r] eqn:H.
  destruct r as [a|e]; [|vm_compute in H; discriminate H]. exists a. split; [reflexivity|].
  destruct (create_get_account [] "acct_1" "main" (Some LIVE) None "binance" "ccxt" "spot" None None None None
              false None 7 t a) as (H1 & H2 & _); [discriminate|discriminate|discriminate|exact H|].
  split; [exact H1|exact H2].
Defined.
