(* ===== verification/Risk.v ===== *)
(** The risk gate: [openpine/risk/manager.py].

    A [RiskManager] holds a kill switch, shared by reference with the
    [KillSwitchRule] it installs first, and an ordered list of rules; some
    rules keep state, so a check returns the updated rules.  A clock is read in
    nanoseconds; the rate rule cuts it to whole seconds. *)

From S2P Require Import Prelude PyFloat Orders Accounts.

(** The rules of the module, and any other implementation of the [RiskRule]
    protocol ([OtherRule], with its class name). *)
Inductive RiskRule :=
| KillSwitchRule
| MaxPositionSizeRule (max_notional : float)
| MaxOrdersPerMinuteRule (max_orders : Z) (order_counts : gmap string (list Z))
| OtherRule (class_name : string) (check : OrderIntent -> Account -> bool * option string).

Definition rule_class_name (r : RiskRule) : string :=
  match r with
  | KillSwitchRule => "KillSwitchRule"
  | MaxPositionSizeRule _ => "MaxPositionSizeRule"
  | MaxOrdersPerMinuteRule _ _ => "MaxOrdersPerMinuteRule"
  | OtherRule n _ => n
  end.

Definition kill_switch_check (kill_switch : bool) : bool * option string :=
  if kill_switch then (false, Some "Kill switch is active — all orders blocked") else (true, None).

Definition max_position_check (max_notional : float) (o : OrderIntent) : bool * option string :=
  match oi_price o with
  | None => (true, None)
  | Some p =>
      let notional := fmul p (oi_quantity o) in
      if fltb max_notional notional then
        (false, Some ("Order notional " +:+ float_fmt2 notional +:+ " exceeds max position size "
                        +:+ float_fmt2 max_notional))
      else (true, None)
  end.

(** [int(time.time())] when the clock reads [clock] nanoseconds: the fraction
    of the second is cut off, towards zero. *)
Definition NS : Z := 1000000000.
Definition int_seconds (clock : Z) : Z := Z.quot clock NS.

(** [MaxOrdersPerMinuteRule.check] when the clock reads [clock] nanoseconds:
    prune, test, record. *)
Definition max_orders_check (max_orders : Z) (counts : gmap string (list Z)) (aid : string) (clock : Z)
    : gmap string (list Z) * (bool * option string) :=
  let now := int_seconds clock in
  let cutoff := now - 60 in
  let recent := List.filter (fun ts => cutoff <? ts) (default [] (counts !! aid)) in
  if max_orders <=? Z.of_nat (length recent) then
    (<[aid := recent]> counts,
     (false, Some ("Account " +:+ aid +:+ " has exceeded max orders per minute (" +:+ pretty max_orders +:+ ")")))
  else (<[aid := recent ++ [now]]> counts, (true, None)).

Definition rule_check (kill_switch : bool) (r : RiskRule) (o : OrderIntent) (a : Account) (clock : Z)
    : RiskRule * (bool * option string) :=
  match r with
  | KillSwitchRule => (r, kill_switch_check kill_switch)
  | MaxPositionSizeRule m => (r, max_position_check m o)
  | MaxOrdersPerMinuteRule m counts =>
      let '(counts', v) := max_orders_check m counts (account_alias_id a) clock in
      (MaxOrdersPerMinuteRule m counts', v)
  | OtherRule _ check => (r, check o a)
  end.

Record RiskManager := mkRiskManager {
  kill_switch : bool;
  rules : list RiskRule;
  violations : gmap string (list string)
}.

(** [RiskManager.__init__]: the kill-switch rule comes first. *)
Definition RiskManager_init (global_kill_switch : bool) : RiskManager :=
  mkRiskManager global_kill_switch [KillSwitchRule] ∅.

Definition add_rule (m : RiskManager) (r : RiskRule) : RiskManager :=
  mkRiskManager (kill_switch m) (rules m ++ [r]) (violations m).

(** The loop of [check_order]: rules after the first failure are not run. *)
Fixpoint check_rules (ks : bool) (rs : list RiskRule) (o : OrderIntent) (a : Account) (clock : Z)
    : list RiskRule * option (RiskRule * option string) :=
  match rs with
  | [] => ([], None)
  | r :: rs' =>
      let '(r', (allowed, msg)) := rule_check ks r o a clock in
      if allowed then
        let '(rs'', failed) := check_rules ks rs' o a clock in (r' :: rs'', failed)
      else (r' :: rs', Some (r, msg))
  end.

Definition check_order (m : RiskManager) (o : OrderIntent) (a : Account) (clock : Z)
    : RiskManager * (bool * option string) :=
  let '(rs, failed) := check_rules (kill_switch m) (rules m) o a clock in
  match failed with
  | None => (mkRiskManager (kill_switch m) rs (violations m), (true, None))
  | Some (r, msg) =>
      let aid := account_alias_id a in
      let text := str_or msg ("Order blocked by " +:+ rule_class_name r) in
      (mkRiskManager (kill_switch m) rs (<[aid := default [] (violations m !! aid) ++ [text]]> (violations m)),
       (false, msg))
  end.

Definition set_kill_switch (m : RiskManager) (enabled : bool) : RiskManager :=
  mkRiskManager enabled (rules m) (violations m).

Definition get_violations (m : RiskManager) (aid : string) : list string := default [] (violations m !! aid).

Definition clear_violations (m : RiskManager) (aid : string) : RiskManager :=
  mkRiskManager (kill_switch m) (rules m) (<[aid := []]> (violations m)).

(** Calls on a manager. *)
Inductive RiskOp :=
| RAddRule (r : RiskRule)
| RCheck (o : OrderIntent) (a : Account) (clock : Z)
| RSetKillSwitch (b : bool)
| RClear (aid : string).

Definition risk_exec (m : RiskManager) (op : RiskOp) : RiskManager :=
  match op with
  | RAddRule r => add_rule m r
  | RCheck o a now => (check_order m o a now).1
  | RSetKillSwitch b => set_kill_switch m b
  | RClear aid => clear_violations m aid
  end.

(** A sequence of checks of one rate rule, by account and clock: those it
    allows. *)
Fixpoint rate_run (max : Z) (counts : gmap string (list Z)) (calls : list (string * Z)) : list (string * Z) :=
  match calls with
  | [] => []
  | (aid, clock) :: calls' =>
      let '(counts', v) := max_orders_check max counts aid clock in
      if v.1 then (aid, clock) :: rate_run max counts' calls' else rate_run max counts' calls'
  end.

(** The entries of an account with clocks from [lo] to [hi], in nanoseconds. *)
Definition between (aid : string) (lo hi : Z) (x : string * Z) : bool :=
  bool_decide (x.1 = aid) && (lo <=? x.2) && (x.2 <=? hi).

(** ** The kill switch *)

Lemma check_rules_head ks rs o a now :
  exists rs', (check_rules ks (KillSwitchRule :: rs) o a now).1 = KillSwitchRule :: rs' /\
  (ks = true -> check_rules ks (KillSwitchRule :: rs) o a now =
     (KillSwitchRule :: rs, Some (KillSwitchRule, Some "Kill switch is active — all orders blocked"))).
Proof.
  simpl. unfold kill_switch_check. destruct ks; simpl; [eauto|].
  destruct (check_rules false rs o a now) as [rs'' f]. exists rs''. by split.
Qed.

Definition has_kill_rule (m : RiskManager) : Prop := exists rs, rules m = KillSwitchRule :: rs.

Lemma risk_exec_kill_rule m op : has_kill_rule m -> has_kill_rule (risk_exec m op).
Proof.
  intros [rs Hrs]. destruct op as [r|o a now|b|aid]; simpl; unfold has_kill_rule; simpl; [rewrite Hrs; simpl; eauto| |eauto..].
  unfold check_order. rewrite Hrs.
  destruct (check_rules_head (kill_switch m) rs o a now) as (rs' & H1 & _).
  destruct (check_rules _ _ _ _ _) as [rs'' [[r msg]|]]; simpl in *; eauto.
Qed.

Lemma risk_run_kill_rule m ops : has_kill_rule m -> has_kill_rule (fold_left risk_exec ops m).
Proof. revert m. induction ops; simpl; intros m Hm; [done|]. auto using risk_exec_kill_rule. Qed.

Lemma kill_switch_blocks_check m o a now :
  has_kill_rule m -> kill_switch m = true ->
  exists v, check_order m o a now =
    (mkRiskManager true (rules m) v, (false, Some "Kill switch is active — all orders blocked")).
Proof.
  intros [rs Hrs] Hks. unfold check_order. rewrite Hrs, Hks.
  destruct (check_rules_head true rs o a now) as (rs' & _ & Heq).
  rewrite (Heq eq_refl). eexists. reflexivity.
Qed.

(** With the kill switch on, every order of every account is blocked,
    whatever rules were added and whatever was checked before; the rules,
    their counters included, are untouched. *)
Theorem kill_switch_blocks_all ops b o a now :
  let m := set_kill_switch (fold_left risk_exec ops (RiskManager_init b)) true in
  exists v, check_order m o a now =
    (mkRiskManager true (rules m) v, (false, Some "Kill switch is active — all orders blocked")).
Proof.
  intros m. apply kill_switch_blocks_check; [|done]. unfold m.
  apply (risk_exec_kill_rule _ (RSetKillSwitch true)), risk_run_kill_rule. by exists [].
Qed.

(** ** The rate limit *)

(** The rate rule on the whole-second stamps of one account. *)
Fixpoint rate_run1 (max : Z) (stamps calls : list Z) : list Z :=
  match calls with
  | [] => []
  | now :: calls' =>
      let recent := List.filter (fun ts => now - 60 <? ts) stamps in
      if max <=? Z.of_nat (length recent) then rate_run1 max recent calls'
      else now :: rate_run1 max (recent ++ [now]) calls'
  end.

Definition stamps_of (aid : string) (l : list (string * Z)) : list Z :=
  omap (fun x => if bool_decide (x.1 = aid) then Some (int_seconds x.2) else None) l.

Lemma rate_run_project max counts calls aid :
  stamps_of aid (rate_run max counts calls) =
  rate_run1 max (default [] (counts !! aid)) (stamps_of aid calls).
Proof.
  unfold stamps_of. revert counts. induction calls as [|[a now] calls IH]; intros counts; [done|].
  simpl. unfold max_orders_check. destruct (max <=? _) eqn:Hmax; simpl.
  - rewrite IH. case_bool_decide; subst; simpl; [|by rewrite lookup_insert_ne].
    rewrite lookup_insert_eq. simpl. by rewrite Hmax.
  - case_bool_decide; subst; simpl.
    + rewrite Hmax, IH, lookup_insert_eq. done.
    + rewrite IH. by rewrite lookup_insert_ne.
Qed.

Lemma filter_filter_weaken (c1 c2 : Z) (l : list Z) :
  c1 <= c2 ->
  List.filter (fun ts => c2 <? ts) (List.filter (fun ts => c1 <? ts) l) = List.filter (fun ts => c2 <? ts) l.
Proof.
  intros Hc. induction l as [|x l IH]; simpl; [done|].
  destruct (c1 <? x) eqn:E1, (c2 <? x) eqn:E2; simpl; rewrite ?E2; try congruence. bool_to_prop. lia.
Qed.

Lemma filter_length_mono (p q : Z -> bool) (l : list Z) :
  (forall x, p x = true -> q x = true) -> (length (List.filter p l) <= length (List.filter q l))%nat.
Proof.
  intros H. induction l as [|x l IH]; simpl; [done|]. specialize (H x).
  destruct (p x), (q x); simpl; lia.
Qed.

Lemma filter_length_split (p q r : Z -> bool) (l : list Z) :
  (forall x, p x = true -> q x = true \/ r x = true) ->
  (length (List.filter p l) <= length (List.filter q l) + length (List.filter r l))%nat.
Proof.
  intros H. induction l as [|x l IH]; simpl; [done|]. specialize (H x).
  destruct (p x), (q x), (r x); simpl; lia.
Qed.

(** In every window the stamps of a history that grew one allowed stamp at a
    time, each allowed only under the limit, are within the limit. *)
Lemma window_bound max (h : list Z) t :
  (forall pre s post, h = pre ++ s :: post ->
     Z.of_nat (length (List.filter (fun ts => s - 60 <? ts) (pre ++ [s]))) <= max) -> 0 <= max ->
  Z.of_nat (length (List.filter (fun ts => (t - 60 <? ts) && (ts <=? t)) h)) <= max.
Proof.
  intros Hpre H0. induction h as [|s h IH] using rev_ind; [simpl; lia|].
  rewrite List.filter_app, length_app. simpl.
  assert (Hh : Z.of_nat (length (List.filter (fun ts => (t - 60 <? ts) && (ts <=? t)) h)) <= max).
  { apply IH. intros pre x post ->. apply (Hpre pre x (post ++ [s])). by rewrite <-app_assoc. }
  destruct ((t - 60 <? s) && (s <=? t)) eqn:Hs; simpl; [|lia]. bool_to_prop.
  pose proof (Hpre h s [] eq_refl) as Hlast. rewrite List.filter_app, length_app in Hlast. simpl in Hlast.
  rewrite (proj2 (Z.ltb_lt _ _)) in Hlast by lia. simpl in Hlast.
  enough (length (List.filter (fun ts => ((t - 60 <? ts) && (ts <=? t))%Z) h) <=
          length (List.filter (fun ts => (s - 60 <? ts)%Z) h))%nat by lia.
  apply filter_length_mono. intros x Hx. bool_to_prop. apply Z.ltb_lt. lia.
Qed.

(** The rule's memory is the allowed history above the last cutoff. *)
Lemma rate_run1_prefixes max h c calls :
  0 <= max -> Sorted Z.le calls -> Forall (fun now => c <= now - 60) calls ->
  (forall pre s post, h = pre ++ s :: post ->
     Z.of_nat (length (List.filter (fun ts => s - 60 <? ts) (pre ++ [s]))) <= max) ->
  forall pre s post, h ++ rate_run1 max (List.filter (fun ts => c <? ts) h) calls = pre ++ s :: post ->
     Z.of_nat (length (List.filter (fun ts => s - 60 <? ts) (pre ++ [s]))) <= max.
Proof.
  intros H0. revert h c. induction calls as [|now calls IH]; intros h c Hs Hc Hh; [simpl; rewrite app_nil_r; done|].
  inversion Hc as [|? ? Hc1 Hc2]; subst. simpl. rewrite filter_filter_weaken by done.
  apply Sorted_StronglySorted in Hs; [|intros ? ? ?; lia]. inversion Hs as [|? ? Hs' Hall]; subst.
  assert (Hcut : Forall (fun n => now - 60 <= n - 60) calls).
  { eapply Forall_impl; [exact Hall|]. simpl. intros. lia. }
  apply StronglySorted_Sorted in Hs'.
  destruct (max <=? Z.of_nat (length (List.filter (fun ts => now - 60 <? ts) h))) eqn:Hmax; [by apply IH|].
  bool_to_prop. replace (List.filter (fun ts => now - 60 <? ts) h ++ [now])
    with (List.filter (fun ts => now - 60 <? ts) (h ++ [now])).
  2:{ rewrite List.filter_app. simpl. by rewrite (proj2 (Z.ltb_lt _ _)) by lia. }
  intros pre s post. rewrite cons_middle, app_assoc. apply IH; [done|done|].
  intros pre' s' post' Heq. destruct (decide (post' = [])) as [->|Hne].
  - apply app_inj_tail in Heq as [-> ->]. rewrite List.filter_app, length_app. simpl.
    rewrite (proj2 (Z.ltb_lt _ _)) by lia. simpl. lia.
  - destruct (exists_last Hne) as (post'' & x & ->). rewrite app_comm_cons, app_assoc in Heq.
    apply app_inj_tail in Heq as [-> _]. by eapply Hh.
Qed.

(** Whole seconds keep the order of the clock, and are at most [n] apart when
    the clock readings are at most [n] seconds apart. *)
Lemma int_seconds_mono x y : x <= y -> int_seconds x <= int_seconds y.
Proof. intros H. unfold int_seconds, NS. by apply Z.quot_le_mono. Qed.

Lemma int_seconds_close n x y : x <= y -> y <= x + n * NS -> int_seconds y - n <= int_seconds x.
Proof.
  intros H1 H2. unfold int_seconds, NS in *. Z.to_euclidean_division_equations. lia.
Qed.

(** Orders whose clocks lie between two readings carry stamps between theirs. *)
Lemma between_stamps aid n hi l :
  (length (List.filter (between aid (hi - n * NS) hi) l) <=
   length (List.filter (fun ts => ((int_seconds hi - n <=? ts) && (ts <=? int_seconds hi))%Z) (stamps_of aid l)))%nat.
Proof.
  unfold stamps_of. induction l as [|[a x] l IH]; simpl; [done|]. unfold between at 1. simpl.
  case_bool_decide; simpl; [|done]. destruct ((hi - n * NS <=? x) && (x <=? hi)) eqn:E; simpl.
  - bool_to_prop.
    assert ((int_seconds hi - n <=? int_seconds x) && (int_seconds x <=? int_seconds hi) = true) as ->.
    { apply andb_true_iff. rewrite !Z.leb_le. split; [apply int_seconds_close|apply int_seconds_mono]; lia. }
    simpl. apply le_n_S, IH.
  - clear E. destruct ((int_seconds hi - n <=? int_seconds x) && (int_seconds x <=? int_seconds hi)); simpl; [apply le_S|]; apply IH.
Qed.

Lemma stamps_sorted aid l : Sorted Z.le (l.*2) -> Sorted Z.le (stamps_of aid l).
Proof.
  intros Hs. apply Sorted_StronglySorted in Hs; [|intros ? ? ?; lia]. apply StronglySorted_Sorted.
  unfold stamps_of. induction l as [|[a ts] l IH]; simpl in *; [constructor|].
  inversion Hs as [|? ? Hs' Hall]; subst. case_bool_decide; [|auto]. constructor; [auto|].
  apply Forall_forall. intros x Hx. apply list_elem_of_omap in Hx as ([b y] & Hin & Hy).
  case_bool_decide; simplify_eq/=. apply int_seconds_mono. rewrite Forall_forall in Hall. apply Hall.
  by apply (list_elem_of_fmap_2 snd) in Hin.
Qed.

(** The stamps of the allowed orders of an account: at most the limit in any
    60 whole seconds. *)
Lemma allowed_stamps_bound max calls aid t :
  0 <= max -> Sorted Z.le (calls.*2) ->
  Z.of_nat (length (List.filter (fun ts => (t - 60 <? ts) && (ts <=? t)) (stamps_of aid (rate_run max ∅ calls)))) <= max.
Proof.
  intros H0 Hs. rewrite rate_run_project, lookup_empty. simpl.
  apply window_bound; [|done]. apply (stamps_sorted aid) in Hs.
  set (ts := stamps_of aid calls) in *.
  set (c := match ts with [] => 0 | x :: _ => x - 60 end).
  change (rate_run1 max [] ts) with ([] ++ rate_run1 max (List.filter (fun x => c <? x) []) ts).
  eapply rate_run1_prefixes; [done|done| |].
  - unfold c. destruct ts as [|x ts]; [constructor|].
    apply Sorted_StronglySorted in Hs; [|intros ? ? ?; lia]. inversion Hs as [|? ? _ Hall]; subst.
    constructor; [lia|]. eapply Forall_impl; [exact Hall|]. simpl. intros. lia.
  - intros pre s post Heq. by destruct pre.
Qed.

(** C11: what the rate limit guarantees in real time.  Over any sequence of
    checks at clocks that do not go back, interleaved over accounts, with a
    limit that is not negative, the orders the rule allows for an account
    number at most the limit in any 59 seconds, both ends included, and at
    most twice the limit in any 60.  The rule compares whole seconds, so 60
    seconds are not enough for the limit itself. *)
Theorem rate_limit_sliding_window max calls aid t :
  0 <= max -> Sorted Z.le (calls.*2) ->
  let allowed := rate_run max ∅ calls in
  Z.of_nat (length (List.filter (between aid (t - 59 * NS) t) allowed)) <= max /\
  Z.of_nat (length (List.filter (between aid (t - 60 * NS) t) allowed)) <= 2 * max.
Proof.
  intros H0 Hs allowed. pose proof (fun t => allowed_stamps_bound max calls aid t H0 Hs) as Hb. fold allowed in Hb.
  set (T := int_seconds t). split.
  - pose proof (between_stamps aid 59 t allowed) as H. fold T in H. specialize (Hb T).
    enough (length (List.filter (fun ts => ((T - 59 <=? ts) && (ts <=? T))%Z) (stamps_of aid allowed)) <=
            length (List.filter (fun ts => ((T - 60 <? ts) && (ts <=? T))%Z) (stamps_of aid allowed)))%nat by lia.
    apply filter_length_mono. intros x Hx. bool_to_prop. apply andb_true_iff. rewrite Z.ltb_lt, Z.leb_le. lia.
  - pose proof (between_stamps aid 60 t allowed) as H. fold T in H. pose proof (Hb T) as H1. pose proof (Hb (T - 60)) as H2.
    enough (length (List.filter (fun ts => ((T - 60 <=? ts) && (ts <=? T))%Z) (stamps_of aid allowed)) <=
            length (List.filter (fun ts => ((T - 60 <? ts) && (ts <=? T))%Z) (stamps_of aid allowed)) +
            length (List.filter (fun ts => ((T - 60 - 60 <? ts) && (ts <=? T - 60))%Z) (stamps_of aid allowed)))%nat by lia.
    apply filter_length_split. intros x Hx. bool_to_prop. rewrite !andb_true_iff, !Z.ltb_lt, !Z.leb_le. lia.
Qed.

(** The bound for a minute is reached: with a limit of two, four orders pass
    within 59.001 seconds, because 0.999 s and 60.0 s are stamped 60 seconds
    apart. *)
Example twice_the_limit_in_a_minute :
  let calls := [("a", 999 * 1000000); ("a", 999 * 1000000); ("a", 60 * NS); ("a", 60 * NS)] in
  rate_run 2 ∅ calls = calls /\ length (List.filter (between "a" 0 (60 * NS)) (rate_run 2 ∅ calls)) = 4%nat.
Proof. vm_compute. split; reflexivity. Qed.

(** ** The position limit *)

(** An order allowed by [MaxPositionSizeRule] has no price or a notional
    within the limit, provided neither is a NaN. *)
Theorem max_position_bound max_notional o msg p :
  max_position_check max_notional o = (true, msg) -> oi_price o = Some p ->
  is_nan (fmul p (oi_quantity o)) = false -> is_nan max_notional = false ->
  fleb (fmul p (oi_quantity o)) max_notional = true.
Proof.
  unfold max_position_check. intros H Hp Hn Hm. rewrite Hp in H.
  destruct (fltb max_notional (fmul p (oi_quantity o))) eqn:E; [done|]. by apply fltb_false_fleb.
Qed.

(** A NaN notional passes the position limit, whatever the limit is. *)
Theorem nan_notional_passes max_notional o p :
  oi_price o = Some p -> is_nan (fmul p (oi_quantity o)) = true ->
  max_position_check max_notional o = (true, None).
Proof.
  intros Hp Hn. unfold max_position_check. rewrite Hp.
  destruct (fmul p (oi_quantity o)); try done. by rewrite fltb_nan_r.
Qed.

(** ** Witnesses *)

Lemma rate_limit_sliding_window_witness :
  let calls := [("a", 0); ("a", 1 * NS); ("b", 1 * NS); ("a", 2 * NS); ("a", 61 * NS + 5); ("a", 62 * NS)] in
  rate_run 2 ∅ calls = [("a", 0); ("a", 1 * NS); ("b", 1 * NS); ("a", 61 * NS + 5); ("a", 62 * NS)] /\
  Z.of_nat (length (List.filter (between "a" (61 * NS - 59 * NS) (61 * NS)) (rate_run 2 ∅ calls))) <= 2.
Proof.
  cbv zeta. split; [vm_compute; reflexivity|].
  apply rate_limit_sliding_window; [lia|]. simpl. unfold NS. repeat constructor; lia.
Defined.

Definition w_order (p : option float) : OrderIntent :=
  mkIntent "c" "s" "a" "BTCUSDT" BUY LIMIT (float_of_dec 2 0) p None 0.

Lemma max_position_bound_witness :
  fleb (fmul (float_of_dec 100 0) (float_of_dec 2 0)) (float_of_dec 10000 0) = true.
Proof.
  apply (max_position_bound (float_of_dec 10000 0) (w_order (Some (float_of_dec 100 0))) None (float_of_dec 100 0));
    vm_compute; reflexivity.
Defined.

Lemma nan_notional_passes_witness :
  max_position_check (float_of_dec 10000 0) (w_order (Some SpecFloat.S754_nan)) = (true, None).
Proof. apply (nan_notional_passes _ _ SpecFloat.S754_nan); reflexivity. Defined.
