(* ===== verification/Paper.v ===== *)
(** Paper execution: [openpine/execution/paper.py].

    The adapter's two dictionaries hold references to the same mutable
    [Order] objects, which [submit_order] also returns to the caller; the
    store of objects is therefore explicit. *)

From S2P Require Import Prelude PyFloat Orders.


(** A fill record, the dictionary [_fill_record] builds. *)
Record Fill := mkFill {
  fill_id : string;
  fill_order_id : string;
  fill_strategy_id : string;
  fill_account_id : string;
  fill_symbol : string;
  fill_side : string;
  fill_qty : float;
  fill_price : float;
  fill_fee : float;
  fill_fee_asset : option string;
  fill_time : Z;
  fill_created_at : Z
}.

(** [heap] is the store of [Order] objects; a reference is its index. *)
Record Adapter := mkAdapter {
  heap : list Order;
  orders : dict string nat;
  client_orders : dict string nat;
  fills : list Fill
}.

Definition init : Adapter := mkAdapter [] [] [] [].

Definition intent_fill_price (o : OrderIntent) : float := default f_zero (oi_price o).

Definition fill_record (o : OrderIntent) (filled : Order) (px : float) (t : Z) : Fill :=
  mkFill ("fill_" +:+ order_id filled) (order_id filled) (oi_strategy_id o) (oi_account_id o) (oi_symbol o)
    (OrderSide_value (oi_side o)) (oi_quantity o) px f_zero None t t.

(** [submit_order]; [oid] is [generate_order_id()], [now] the clock.  The
    result is a reference to the new object. *)
Definition submit_order (s : Adapter) (o : OrderIntent) (oid : string) (now : Z) : Adapter * nat :=
  let px := intent_fill_price o in
  let filled := order_of_intent o oid FILLED (oi_quantity o) (Some px) now None in
  let ref := length (heap s) in
  (mkAdapter (heap s ++ [filled]) (dset (orders s) oid ref)
     (dset (client_orders s) (oi_client_order_id o) ref) (fills s ++ [fill_record o filled px now]), ref).

Definition set_status (o : Order) (st : OrderStatus) (now : Z) : Order :=
  mkOrder (order_id o) (client_order_id o) (strategy_id o) (account_id o) (symbol o) (side o) (order_type o)
    (quantity o) (price o) (stop_price o) st (filled_quantity o) (avg_fill_price o) (created_at o) now (error o).

(** [cancel_order]: a filled or cancelled order stays as it is. *)
Definition cancel_order (s : Adapter) (oid : string) (now : Z) : Adapter * bool :=
  match dget (orders s) oid with
  | None => (s, false)
  | Some ref =>
      match heap s !! ref with
      | None => (s, false)
      | Some o =>
          if bool_decide (status o = FILLED) || bool_decide (status o = CANCELLED) then (s, false)
          else (mkAdapter (<[ref := set_status o CANCELLED now]> (heap s)) (orders s) (client_orders s) (fills s), true)
      end
  end.

Definition get_order_status (s : Adapter) (oid : string) : option Order :=
  ref ← dget (orders s) oid; heap s !! ref.

Definition get_fills (s : Adapter) (acct : option string) : list Fill :=
  match acct with
  | None => fills s
  | Some a => List.filter (fun f => bool_decide (fill_account_id f = a)) (fills s)
  end.

Definition get_orders (s : Adapter) (acct : option string) : list Order :=
  let all := omap (fun ref => heap s !! ref) (dvalues (orders s)) in
  match acct with
  | None => all
  | Some a => List.filter (fun o => bool_decide (account_id o = a)) all
  end.

(** Calls on an adapter. *)
Inductive Op :=
| Submit (o : OrderIntent) (oid : string) (now : Z)
| Cancel (oid : string) (now : Z).

Definition exec (s : Adapter) (op : Op) : Adapter :=
  match op with
  | Submit o oid now => (submit_order s o oid now).1
  | Cancel oid now => (cancel_order s oid now).1
  end.

Definition run (ops : list Op) : Adapter := fold_left exec ops init.

Definition submitted (ops : list Op) : list (OrderIntent * string * Z) :=
  omap (fun op => match op with Submit o oid now => Some (o, oid, now) | Cancel _ _ => None end) ops.

(** ** The ledger *)

(** What a submission leaves behind. *)
Definition filled_order (x : OrderIntent * string * Z) : Order :=
  order_of_intent x.1.1 x.1.2 FILLED (oi_quantity x.1.1) (Some (intent_fill_price x.1.1)) x.2 None.

Definition filled_record (x : OrderIntent * string * Z) : Fill :=
  fill_record x.1.1 (filled_order x) (intent_fill_price x.1.1) x.2.

(** Every dictionary entry points into the store, and every object in the
    store is the filled order of its submission, in order. *)
Record ledger (subs : list (OrderIntent * string * Z)) (s : Adapter) : Prop := mk_ledger {
  ledger_heap : heap s = filled_order <$> subs;
  ledger_fills : fills s = filled_record <$> subs;
  ledger_orders : NoDup (subs.*1.*2) -> orders s = imap (fun i x => (x.1.2, i)) subs;
  ledger_clients : Forall (fun e => exists x, subs !! e.2 = Some x /\ oi_client_order_id x.1.1 = e.1) (client_orders s)
}.

Lemma ledger_all_filled subs s ref o : ledger subs s -> heap s !! ref = Some o -> status o = FILLED.
Proof.
  intros H Hr. rewrite (ledger_heap _ _ H), list_lookup_fmap in Hr.
  destruct (subs !! ref); by simplify_eq/=.
Qed.

Lemma cancel_refused subs s oid now : ledger subs s -> cancel_order s oid now = (s, false).
Proof.
  intros H. unfold cancel_order. destruct (dget _ _) as [ref|]; [|done].
  destruct (heap s !! ref) as [o|] eqn:Ho; [|done].
  by rewrite bool_decide_true by (by eapply ledger_all_filled).
Qed.

Lemma dset_clients_ok (subs : list (OrderIntent * string * Z)) x (d : dict string nat) :
  Forall (fun e => exists y, subs !! e.2 = Some y /\ oi_client_order_id y.1.1 = e.1) d ->
  Forall (fun e => exists y, (subs ++ [x]) !! e.2 = Some y /\ oi_client_order_id y.1.1 = e.1)
    (dset d (oi_client_order_id x.1.1) (length subs)).
Proof.
  intros H. induction H as [|[k v] d (y & Hy & Hk) Hd IH]; simpl.
  - constructor; [|constructor]. exists x. by rewrite lookup_app_r, Nat.sub_diag.
  - case_decide as E; constructor; simpl; try done.
    + exists x. by rewrite lookup_app_r, Nat.sub_diag.
    + eapply Forall_impl; [exact Hd|]. intros e (z & Hz & He). exists z. split; [|done].
      by apply lookup_app_l_Some.
    + exists y. split; [by apply lookup_app_l_Some|done].
Qed.

Lemma submit_ledger subs s o oid now :
  ledger subs s -> ledger (subs ++ [(o, oid, now)]) (submit_order s o oid now).1.
Proof.
  intros [Hh Hf Ho Hc]. constructor; simpl.
  - by rewrite fmap_app, Hh.
  - by rewrite fmap_app, Hf.
  - rewrite !fmap_app. simpl. intros Hnd. apply NoDup_app in Hnd as (Hnd & Hdis & _).
    rewrite imap_app, <-(Ho Hnd), Hh, length_fmap. simpl. rewrite Nat.add_0_r.
    apply dset_new. destruct (dget (orders s) oid) as [r|] eqn:E; [|done]. exfalso.
    apply dget_Some_elem in E. rewrite (Ho Hnd) in E. apply elem_of_lookup_imap in E as (i & x & Hx & Hi).
    simplify_eq. apply (Hdis x.1.2); [|set_solver]. do 2 (apply list_elem_of_fmap_2). by eapply list_elem_of_lookup_2.
  - rewrite Hh, length_fmap. by apply (dset_clients_ok subs (o, oid, now)).
Qed.

Lemma exec_ledger subs s op :
  ledger subs s ->
  ledger (subs ++ submitted [op]) (exec s op).
Proof.
  intros H. destruct op as [o oid now|oid now]; simpl; [by apply submit_ledger|].
  by rewrite app_nil_r, (cancel_refused subs).
Qed.

Lemma run_from_ledger subs s ops : ledger subs s -> ledger (subs ++ submitted ops) (fold_left exec ops s).
Proof.
  revert subs s. induction ops as [|op ops IH]; intros subs s H; simpl; [by rewrite app_nil_r|].
  apply (exec_ledger _ _ op) in H. apply IH in H. rewrite <-app_assoc in H. by destruct op.
Qed.

Lemma run_ledger ops : ledger (submitted ops) (run ops).
Proof. apply (run_from_ledger []). constructor; [done..|constructor]. Qed.

Lemma imap_values {A} (subs : list A) (f : A -> string) n :
  (imap (fun i x => (f x, (n + i)%nat)) subs).*2 = seq n (length subs).
Proof.
  revert n. induction subs as [|x subs IH]; intros n; [done|]. simpl. f_equal; [lia|].
  rewrite <-(IH (S n)). f_equal. apply imap_ext. intros. simpl. f_equal. lia.
Qed.

Lemma omap_lookup_seq {A} (pre l : list A) :
  omap (fun i => (pre ++ l) !! i) (seq (length pre) (length l)) = l.
Proof.
  revert pre. induction l as [|x l IH]; intros pre; [done|]. simpl.
  rewrite lookup_app_r, Nat.sub_diag by done. simpl. f_equal.
  specialize (IH (pre ++ [x])). rewrite length_app, Nat.add_1_r, <-app_assoc in IH. exact IH.
Qed.

(** The paper ledger.  Under distinct generated ids, after any sequence of
    submissions and cancellations the adapter's orders are, in submission
    order, the submitted intents completely filled at their own price (zero
    for an intent without one), and the fills are their records, one each:
    cancellations leave no trace. *)
Theorem paper_ledger ops :
  NoDup ((submitted ops).*1.*2) ->
  get_orders (run ops) None = filled_order <$> submitted ops /\
  get_fills (run ops) None = filled_record <$> submitted ops.
Proof.
  intros Hnd. pose proof (run_ledger ops) as H. split; [|apply (ledger_fills _ _ H)].
  simpl. rewrite (ledger_orders _ _ H Hnd), (ledger_heap _ _ H). unfold dvalues.
  rewrite (imap_values _ (fun x => x.1.2) 0). 
  pose proof (omap_lookup_seq [] (filled_order <$> submitted ops)) as E. by rewrite length_fmap in E.
Qed.

(** Cancellation never succeeds: whatever was submitted and cancelled
    before, [cancel_order] returns [False] and changes nothing, because no
    reachable order is ever open. *)
Theorem paper_cancel_never_succeeds ops oid now :
  cancel_order (run ops) oid now = (run ops, false).
Proof. apply (cancel_refused (submitted ops)), run_ledger. Qed.

(** An order without a price, every market order, is recorded as filled
    at 0.0 for its whole quantity. *)
Theorem market_order_fills_at_zero s o oid now :
  oi_price o = None ->
  let '(s', ref) := submit_order s o oid now in
  exists f, heap s' !! ref = Some f /\ status f = FILLED /\ avg_fill_price f = Some f_zero /\
    filled_quantity f = oi_quantity o /\ last (fills s') = Some (fill_record o f f_zero now).
Proof.
  intros Hp. unfold submit_order, intent_fill_price. rewrite Hp. simpl. eexists. split.
  { by rewrite lookup_app_r, Nat.sub_diag. }
  split_and!; try done. by rewrite last_snoc.
Qed.

(** ** Witnesses *)

Definition w_paper (c : string) (p : option float) : OrderIntent :=
  mkIntent c "s" "acct" "BTCUSDT" BUY (match p with Some _ => LIMIT | None => MARKET end) (float_of_dec 2 0) p None 1.

Definition w_ops : list Op :=
  [Submit (w_paper "c1" (Some (float_of_dec 100 0))) "o1" 5; Cancel "o1" 6; Submit (w_paper "c2" None) "o2" 7].

Lemma paper_ledger_witness :
  order_id <$> get_orders (run w_ops) None = ["o1"; "o2"] /\
  get_orders (run w_ops) None = filled_order <$> submitted w_ops.
Proof.
  split; [reflexivity|].
  apply paper_ledger. apply (bool_decide_unpack (NoDup _)). vm_compute. exact I.
Defined.

Lemma market_order_fills_at_zero_witness :
  exists f, heap (submit_order init (w_paper "c2" None) "o2" 7).1 !! 0%nat = Some f /\ avg_fill_price f = Some f_zero.
Proof.
  destruct (market_order_fills_at_zero init (w_paper "c2" None) "o2" 7 eq_refl) as (f & H1 & _ & H2 & _).
  exists f. split; assumption.
Defined.

