(* ===== verification/LiveAdapter.v ===== *)
(** Live execution: [openpine/execution/binance.py], [bybit.py] and
    [ccxt_common.py].

    The two adapters are the same code over an [Exchange]: its name, its
    status map and two differences in reading a response.  The injected client
    is outside the repository: it is the parameter [Client], functions over a
    state [W] of the exchange, so that "no network call" is "[W] unchanged".
    [exn_text] is the text of the interpreter's own exceptions. *)

From S2P Require Import Prelude PyFloat PyValue Orders Instrument.

Record Exchange := mkExchange {
  ex_name : string;
  map_status : string -> string;
  id_keys : list string;
  null_filled_is_zero : bool
}.

Definition BINANCE_STATUS_MAP : dict string string :=
  [("new", "new"); ("filled", "filled"); ("partial", "partial"); ("canceled", "cancelled");
   ("cancelled", "cancelled"); ("rejected", "rejected"); ("expired", "cancelled"); ("pending", "pending")].

Definition map_binance_status (raw : string) : string :=
  default (str_lower raw) (dget BINANCE_STATUS_MAP (str_lower raw)).

Definition BYBIT_STATUS_MAP : dict string string :=
  [("Created", "new"); ("New", "new"); ("Filled", "filled"); ("PartiallyFilled", "partial");
   ("Cancelled", "cancelled"); ("Canceled", "cancelled"); ("Rejected", "rejected"); ("Expired", "cancelled");
   ("pending", "new")].

Definition map_bybit_status (raw : string) : string :=
  default (str_lower raw) (dget BYBIT_STATUS_MAP raw).

Definition binance : Exchange := mkExchange "Binance" map_binance_status ["id"; "orderId"] false.
Definition bybit : Exchange := mkExchange "Bybit" map_bybit_status ["id"; "orderId"; "order_id"] true.

(** A response dictionary of the client. *)
Definition response : Type := dict string pyval.

(** The keyword arguments of [client.create_order]. *)
Record CreateRequest := mkCreate {
  cq_symbol : string;
  cq_type : string;
  cq_side : string;
  cq_amount : string;
  cq_price : option string;
  cq_params : dict string string
}.

(** An injected client: each call may raise ([Err], with the text of the
    exception), [None] is a null response. *)
Record Client (W : Type) := mkClient {
  create_order : W -> CreateRequest -> W * result string (option response);
  cl_cancel_order : W -> pyval -> string -> W * result string (option response);
  fetch_order : W -> pyval -> string -> W * result string (option response);
  fetch_open_orders : W -> W * result string (list response)
}.
Arguments create_order {W}.
Arguments cl_cancel_order {W}.
Arguments fetch_order {W}.
Arguments fetch_open_orders {W}.

(** An order read back from the exchange; most fields keep whatever the
    response held. *)
Record RemoteOrder := mkRemote {
  ro_order_id : pyval;
  ro_client_order_id : pyval;
  ro_account_id : pyval;
  ro_symbol : pyval;
  ro_side : pyval;
  ro_order_type : pyval;
  ro_quantity : float;
  ro_price : option float;
  ro_stop_price : option float;
  ro_status : OrderStatus;
  ro_filled_quantity : float;
  ro_avg_fill_price : option float;
  ro_created_at : pyval;
  ro_updated_at : Z;
  ro_error : option string
}.

(** [own_rules] is [None] when the adapter uses the dictionary of the module,
    [_DEFAULT_RULES], which all such adapters share. *)
Record Adapter (W : Type) := mkAdapter {
  client : option (Client W);
  own_rules : option (dict string InstrumentRules);
  order_symbols : dict pyval pyval
}.
Arguments mkAdapter {W}.
Arguments client {W}.
Arguments own_rules {W}.
Arguments order_symbols {W}.

(** [raise ExecutionUnavailableError(text)]. *)
Inductive unavailable := ExecutionUnavailableError (text : string).

Section Adapters.
Context {W : Type} (exn_text : py_exn -> string).

(** [__init__]: [instrument_rules or _DEFAULT_RULES]. *)
Definition adapter_init (c : option (Client W)) (rules : option (dict string InstrumentRules)) : Adapter W :=
  mkAdapter c (match rules with Some (e :: d) => Some (e :: d) | _ => None end) [].

(** [self._rules], given the contents [shared] of [_DEFAULT_RULES]. *)
Definition rules_of (shared : dict string InstrumentRules) (a : Adapter W) : dict string InstrumentRules :=
  default shared (own_rules a).

Definition add_instrument_rules (shared : dict string InstrumentRules) (a : Adapter W) (r : InstrumentRules)
    : dict string InstrumentRules * Adapter W :=
  match own_rules a with
  | Some d => (shared, mkAdapter (client a) (Some (dset d (ir_symbol r) r)) (order_symbols a))
  | None => (dset shared (ir_symbol r) r, a)
  end.

Definition get_instrument_rules (shared : dict string InstrumentRules) (a : Adapter W) (sym : string)
    : option InstrumentRules := dget (rules_of shared a) sym.

Definition track_order_symbol (a : Adapter W) (oid sym : pyval) : Adapter W :=
  mkAdapter (client a) (own_rules a) (dset (order_symbols a) oid sym).

Definition get_tracked_symbol (a : Adapter W) (oid : string) : option pyval :=
  match dget (order_symbols a) (PStr oid) with Some PNone => None | r => r end.

(** [CcxtOrderClientMixin._validate_order]. *)
Definition validate_intent (shared : dict string InstrumentRules) (a : Adapter W) (o : OrderIntent)
    : result round_error verdict :=
  match dget (rules_of shared a) (oi_symbol o) with
  | None => Ok (false, Some ("No instrument rules for " +:+ oi_symbol o))
  | Some r => validate_order r (oi_quantity o) (oi_price o) (OrderType_value (oi_order_type o))
  end.

(** The request of [_call_create_order]. *)
Definition create_request (o : OrderIntent) : CreateRequest :=
  let p0 : dict string string :=
    if str_truthy (oi_client_order_id o) then [("clientOrderId", oi_client_order_id o)] else [] in
  let ty := OrderType_value (oi_order_type o) in
  let p1 := match bool_decide (ty ∈ ["stop"; "stop_limit"; "STOP"; "STOP_LIMIT"]), oi_stop_price o with
            | true, Some sp => dset p0 "stopPrice" (float_str sp)
            | _, _ => p0
            end in
  mkCreate (oi_symbol o) ty (OrderSide_value (oi_side o)) (float_str (oi_quantity o))
    (match oi_price o with
     | Some p => if float_truthy p then Some (float_str p) else None
     | None => None
     end) p1.

(** [response.get(k1) or response.get(k2) or ...]. *)
Fixpoint get_first (r : response) (ks : list string) : pyval :=
  match ks with
  | [] => PNone
  | [k] => py_get r k PNone
  | k :: ks' => py_or (py_get r k PNone) (get_first r ks')
  end.

Definition success_status (s : string) : bool := bool_decide (s ∈ ["new"; "filled"; "partial"]).

(** [_map_*_status(raw)] on an untyped value. *)
Definition py_map_status (ex : Exchange) (raw : pyval) : result py_exn string :=
  let! _ := py_lower raw in Ok (map_status ex (py_str raw)).

Definition parse_client_response (ex : Exchange) (a : Adapter W) (resp : option response) (sym : string)
    : Adapter W * result py_exn LiveOrderResult :=
  match resp with
  | None => (a, Ok (mkLiveResult false None None f_zero None (Some "Empty response")))
  | Some r =>
      let oid := get_first r (id_keys ex) in
      let raw := py_get r "status" (PStr "unknown") in
      let filled_raw := py_get r "filled" (PInt 0) in
      match (let! st := py_map_status ex raw in
             let! filled := py_float (if null_filled_is_zero ex then py_or filled_raw (PInt 0) else filled_raw) in
             Ok (st, filled)) with
      | Err e => (a, Err e)
      | Ok (st, filled) =>
          let avg := py_or (py_get r "average" PNone) (py_get r "avgPrice" PNone) in
          let a' := if truthy oid && str_truthy sym then track_order_symbol a (PStr (py_str oid)) (PStr sym) else a in
          let ok := success_status st in
          (a', let! px := (if truthy avg then let! x := py_float avg in Ok (Some x) else Ok None) in
               Ok (mkLiveResult ok (if truthy oid then Some (py_str oid) else None) (Some st) filled px
                     (if ok then None else Some ("Unknown exchange status '" +:+ py_str raw +:+ "'"))))
      end
  end.

(** [_call_create_order]. *)
Definition call_create_order (ex : Exchange) (cl : Client W) (w : W) (a : Adapter W) (o : OrderIntent)
    : W * Adapter W * result py_exn LiveOrderResult :=
  let '(w', answer) := create_order cl w (create_request o) in
  match answer with
  | Err msg => (w', a, Err (OtherError msg))
  | Ok resp => let '(a', r) := parse_client_response ex a resp (oi_symbol o) in (w', a', r)
  end.

Definition result_to_order (ex : Exchange) (r : LiveOrderResult) (o : OrderIntent) (oid : string) (now : Z) : Order :=
  if lr_success r then
    let st := if bool_decide (lr_status r = Some "new") then NEW
              else if bool_decide (lr_status r = Some "partial") then PARTIAL
              else FILLED in
    order_of_intent o oid st (lr_filled_qty r) (lr_avg_fill_price r) now None
  else rejected_live_order o oid now
         (str_or (lr_error r) (ex_name ex +:+ " adapter returned unsuccessful order")).

Definition py_text (e : py_exn) : string := match e with OtherError m => m | _ => exn_text e end.

(** [submit_order]; an [Err] is an exception of the local checks, which are
    outside the [try]. *)
Definition submit_order (ex : Exchange) (shared : dict string InstrumentRules) (w : W) (a : Adapter W)
    (o : OrderIntent) (oid : string) (now : Z) : W * Adapter W * result round_error Order :=
  match client a with
  | None => (w, a, Ok (rejected_live_order o oid now (ex_name ex +:+ " adapter: no client injected (fail-closed)")))
  | Some cl =>
      match validate_intent shared a o with
      | Err e => (w, a, Err e)
      | Ok (valid, msg) =>
          if valid then
            let '(w', a', r) := call_create_order ex cl w a o in
            (w', a', Ok (match r with
                         | Ok res => result_to_order ex res o oid now
                         | Err e => rejected_live_order o oid now (ex_name ex +:+ " adapter error: " +:+ py_text e)
                         end))
          else (w, a, Ok (rejected_live_order o oid now
                  (ex_name ex +:+ " adapter validation failed: " +:+ default "None" msg)))
      end
  end.

(** [_call_cancel_order]. *)
Definition call_cancel_order (ex : Exchange) (cl : Client W) (w : W) (oid : string) (sym : pyval)
    : W * result py_exn CancelResult :=
  let '(w', answer) := cl_cancel_order cl w sym oid in
  (w', match answer with
       | Err msg => Err (OtherError msg)
       | Ok None => Ok (mkCancelResult false (Some "Empty response"))
       | Ok (Some r) =>
           let! st := py_map_status ex (py_get r "status" (PStr "")) in
           Ok (mkCancelResult (bool_decide (st = "cancelled")) None)
       end).

Definition cancel_order_for_symbol (ex : Exchange) (w : W) (a : Adapter W) (oid : string) (sym : pyval)
    : W * result unavailable bool :=
  match client a with
  | None => (w, Err (ExecutionUnavailableError (ex_name ex +:+ " cancel requires an injected client")))
  | Some cl =>
      let '(w', r) := call_cancel_order ex cl w oid sym in
      (w', match r with
           | Ok res => Ok (cr_success res)
           | Err e => Err (ExecutionUnavailableError (ex_name ex +:+ " cancel failed: " +:+ py_text e))
           end)
  end.

Definition cancel_order (ex : Exchange) (w : W) (a : Adapter W) (oid : string) : W * result unavailable bool :=
  match get_tracked_symbol a oid with
  | None => (w, Err (ExecutionUnavailableError
                      (ex_name ex +:+ " cancel requires a tracked symbol or explicit symbol")))
  | Some sym => cancel_order_for_symbol ex w a oid sym
  end.

(** [_response_to_order_status]; the keyword arguments are evaluated in order. *)
Definition response_to_order_status (ex : Exchange) (r : response) (now : Z) : result py_exn RemoteOrder :=
  let raw := py_get r "status" (PStr "unknown") in
  let! mapped := py_map_status ex raw in
  let '(st, err) := match OrderStatus_of mapped with
                    | Some s => (s, None)
                    | None => (REJECTED, Some ("Unknown exchange status '" +:+ py_str raw +:+ "'"))
                    end in
  let! quantity := py_float (py_get r "amount" (PInt 0)) in
  let! price := py_float (py_get r "price" (PInt 0)) in
  let! stop := py_float (py_get r "stopPrice" (PInt 0)) in
  let! filled := py_float (py_or (py_get r "filled" (PInt 0)) (PInt 0)) in
  let! avg := py_float (py_get r "average" (PInt 0)) in
  Ok (mkRemote (py_or (py_or (py_get r "id" PNone) (py_get r "orderId" PNone)) (PStr ""))
        (py_get r "clientOrderId" (PStr "")) (py_get r "account_id" (PStr "")) (py_get r "symbol" (PStr ""))
        (py_get r "side" (PStr "buy")) (py_get r "type" (PStr "limit")) quantity (float_or_none price)
        (float_or_none stop) st filled (float_or_none avg) (py_get r "timestamp" (PInt 0)) now err).

(** [_call_get_order] and [get_order_status_for_symbol]. *)
Definition get_order_status_for_symbol (ex : Exchange) (w : W) (a : Adapter W) (oid : string) (sym : pyval) (now : Z)
    : W * result unavailable (option RemoteOrder) :=
  match client a with
  | None => (w, Err (ExecutionUnavailableError (ex_name ex +:+ " order status requires an injected client")))
  | Some cl =>
      let '(w', answer) := fetch_order cl w sym oid in
      (w', match (match answer with
                  | Err msg => Err (OtherError msg)
                  | Ok None => Ok None
                  | Ok (Some r) => let! o := response_to_order_status ex r now in Ok (Some o)
                  end) with
           | Ok res => Ok res
           | Err e => Err (ExecutionUnavailableError (ex_name ex +:+ " order status failed: " +:+ py_text e))
           end)
  end.

Definition get_order_status (ex : Exchange) (w : W) (a : Adapter W) (oid : string) (now : Z)
    : W * result unavailable (option RemoteOrder) :=
  match get_tracked_symbol a oid with
  | None => (w, Err (ExecutionUnavailableError
                      (ex_name ex +:+ " order status requires a tracked symbol or explicit symbol")))
  | Some sym => get_order_status_for_symbol ex w a oid sym now
  end.

(** The loop of [_call_reconcile]: symbols tracked before a failure stay. *)
Fixpoint reconcile_loop (ex : Exchange) (a : Adapter W) (raws : list response) (now : Z) (acc : list RemoteOrder)
    : Adapter W * result py_exn (list RemoteOrder) :=
  match raws with
  | [] => (a, Ok acc)
  | raw :: raws' =>
      match response_to_order_status ex raw now with
      | Err e => (a, Err e)
      | Ok o =>
          let a' := if truthy (ro_order_id o) && truthy (ro_symbol o)
                    then track_order_symbol a (ro_order_id o) (ro_symbol o) else a in
          reconcile_loop ex a' raws' now (acc ++ [o])
      end
  end.

Definition reconcile (ex : Exchange) (w : W) (a : Adapter W) (now : Z)
    : W * Adapter W * result unavailable (list RemoteOrder) :=
  match client a with
  | None => (w, a, Err (ExecutionUnavailableError (ex_name ex +:+ " reconcile requires an injected client")))
  | Some cl =>
      let '(w', answer) := fetch_open_orders cl w in
      let '(a', r) := match answer with
                      | Err msg => (a, Err (OtherError msg))
                      | Ok raws => reconcile_loop ex a raws now []
                      end in
      (w', a', match r with
               | Ok os => Ok os
               | Err e => Err (ExecutionUnavailableError (ex_name ex +:+ " reconcile failed: " +:+ py_text e))
               end)
  end.

(** The Bybit adapter's operations, [bybit.py]. *)
Definition bybit_parse_client_response := parse_client_response bybit.
Definition bybit_result_to_order := result_to_order bybit.
Definition bybit_submit_order := submit_order bybit.
Definition bybit_cancel_order_for_symbol := cancel_order_for_symbol bybit.
Definition bybit_cancel_order := cancel_order bybit.
Definition bybit_response_to_order_status := response_to_order_status bybit.
Definition bybit_get_order_status_for_symbol := get_order_status_for_symbol bybit.
Definition bybit_get_order_status := get_order_status bybit.
Definition bybit_reconcile := reconcile bybit.

(** ** Tracking *)

Lemma parse_tracks ex a resp sym :
  let a' := (parse_client_response ex a resp sym).1 in
  client a' = client a /\ own_rules a' = own_rules a /\
  (order_symbols a' = order_symbols a \/
   exists r, resp = Some r /\ truthy (get_first r (id_keys ex)) = true /\
     order_symbols a' = dset (order_symbols a) (PStr (py_str (get_first r (id_keys ex)))) (PStr sym)).
Proof.
  unfold parse_client_response. destruct resp as [r|]; simpl; [|eauto].
  destruct (let! st := _ in _) as [[st filled]|e]; simpl; [|eauto].
  destruct (truthy (get_first r (id_keys ex))) eqn:Ht; simpl; [|eauto].
  destruct (str_truthy sym); simpl; eauto 10.
Qed.

(** ** Submission *)

Lemma submit_order_cases ex shared w a o oid now :
  (exists err, submit_order ex shared w a o oid now = (w, a, Ok (rejected_live_order o oid now err)) /\
     (client a = None \/ exists msg, validate_intent shared a o = Ok (false, msg))) \/
  (exists e, submit_order ex shared w a o oid now = (w, a, Err e) /\ validate_intent shared a o = Err e) \/
  (exists cl msg, client a = Some cl /\ validate_intent shared a o = Ok (true, msg) /\
     exists st filled avg err,
     submit_order ex shared w a o oid now =
       ((create_order cl w (create_request o)).1, (call_create_order ex cl w a o).1.2,
        Ok (order_of_intent o oid st filled avg now err))).
Proof.
  unfold submit_order. destruct (client a) as [cl|] eqn:Hc; [|left; eauto].
  destruct (validate_intent shared a o) as [[[] msg]|e] eqn:Hv; [|left; eauto|right; left; eauto].
  right; right. exists cl, msg. split_and!; try done. unfold call_create_order.
  destruct (create_order cl w _) as [w' [resp|m]]; simpl; [|unfold rejected_live_order; eauto 10].
  destruct (parse_client_response _ _ _ _) as [a' [res|e]]; simpl; [|unfold rejected_live_order; eauto 10].
  unfold result_to_order, rejected_live_order. destruct (lr_success res); eauto 10.
Qed.

(** C5: the live adapters are fail-closed.  Whatever the exchange would
    answer, an order reaches it only if a client is injected, the symbol has
    rules and every local check passed, and then as exactly the one
    [create_order] call of that intent; otherwise the exchange's state and the
    adapter are untouched and the order is REJECTED (or the check's own
    exception propagates). *)
Theorem live_fail_closed ex shared w a o oid now w' a' r :
  submit_order ex shared w a o oid now = (w', a', r) ->
  (w' = w /\ a' = a /\ (forall ord, r = Ok ord -> status ord = REJECTED /\ is_Some (error ord))) \/
  (exists cl rules msg, client a = Some cl /\ dget (rules_of shared a) (oi_symbol o) = Some rules /\
     validate_order rules (oi_quantity o) (oi_price o) (OrderType_value (oi_order_type o)) = Ok (true, msg) /\
     w' = (create_order cl w (create_request o)).1).
Proof.
  intros H. destruct (submit_order_cases ex shared w a o oid now)
    as [(err & E & _)|[(e & E & _)|(cl & msg & Hc & Hv & st & fl & avg & err & E)]]; rewrite E in H; simplify_eq.
  - left. split_and!; try done. intros ord ?. simplify_eq. by split.
  - left. split_and!; try done.
  - right. unfold validate_intent in Hv. destruct (dget _ _) as [rules|] eqn:Hr; [|done]. eauto 10.
Qed.

Lemma submit_result_of_answer ex shared w a o oid now cl msg :
  client a = Some cl -> validate_intent shared a o = Ok (true, msg) ->
  (submit_order ex shared w a o oid now).2 =
  Ok (match (create_order cl w (create_request o)).2 with
      | Err m => rejected_live_order o oid now (ex_name ex +:+ " adapter error: " +:+ m)
      | Ok resp =>
          match (parse_client_response ex a resp (oi_symbol o)).2 with
          | Ok res => result_to_order ex res o oid now
          | Err e => rejected_live_order o oid now (ex_name ex +:+ " adapter error: " +:+ py_text e)
          end
      end).
Proof.
  intros Hc Hv. unfold submit_order, call_create_order. rewrite Hc, Hv.
  destruct (create_order cl w _) as [w' [resp|m]]; simpl; [|done].
  by destruct (parse_client_response _ _ _ _) as [a' [res|e]].
Qed.

(** An order the adapter reports as live or filled was acknowledged: a
    result other than REJECTED means that the exchange answered this order
    with a status that maps to new, filled or partial, and the reported status
    is the mapped one. *)
Theorem live_success_acknowledged ex shared w a o oid now w' a' ord :
  submit_order ex shared w a o oid now = (w', a', Ok ord) -> status ord <> REJECTED ->
  exists cl r text, client a = Some cl /\ (create_order cl w (create_request o)).2 = Ok (Some r) /\
    py_get r "status" (PStr "unknown") = PStr text /\ OrderStatus_value (status ord) = map_status ex text.
Proof.
  intros H Hst. destruct (submit_order_cases ex shared w a o oid now)
    as [(err & E & _)|[(e & E & _)|(cl & msg & Hc & Hv & _)]]; [rewrite E in H; by simplify_eq..|].
  pose proof (submit_result_of_answer ex shared w a o oid now cl msg Hc Hv) as E. rewrite H in E. simpl in E.
  destruct (create_order cl w (create_request o)).2 as [[r|]|m] eqn:Ha; simpl in E; [|by simplify_eq..].
  exists cl, r. unfold py_map_status in E. destruct (py_get r "status" _) as [| | | |text] eqn:Hs; simpl in E; try by simplify_eq.
  exists text. split_and!; try done.
  destruct (py_float (if null_filled_is_zero ex then _ else _)) as [fl|e] eqn:Hf; simpl in E; [|by simplify_eq].
  destruct (let! px := _ in _) as [res|e] eqn:Hres; simpl in E; [|by simplify_eq].
  apply result_bind_ok in Hres as (px & _ & Hres). simplify_eq. unfold result_to_order. simpl.
  unfold success_status in *. case_bool_decide as Hin; [|done]. simpl.
  apply elem_of_cons in Hin as [->|[->|[->|Hin]%elem_of_cons]%elem_of_cons]; [done..|]. by apply not_elem_of_nil in Hin.
Qed.

(** The id of the returned order is not the key under which its symbol is
    tracked: for any submission whose generated id is neither tracked already
    nor the exchange's own id, cancelling and querying by the returned order's
    id raises without asking the exchange. *)
Theorem returned_id_not_cancellable ex shared w a o oid now w' a' ord now' :
  submit_order ex shared w a o oid now = (w', a', Ok ord) ->
  dget (order_symbols a) (PStr oid) = None ->
  (forall cl r, client a = Some cl -> (create_order cl w (create_request o)).2 = Ok (Some r) ->
     py_str (get_first r (id_keys ex)) <> oid) ->
  order_id ord = oid /\
  cancel_order ex w' a' (order_id ord) =
    (w', Err (ExecutionUnavailableError (ex_name ex +:+ " cancel requires a tracked symbol or explicit symbol"))) /\
  get_order_status ex w' a' (order_id ord) now' =
    (w', Err (ExecutionUnavailableError (ex_name ex +:+ " order status requires a tracked symbol or explicit symbol"))).
Proof.
  intros H Hnone Hid.
  assert (Htr : order_id ord = oid /\ dget (order_symbols a') (PStr oid) = None).
  { destruct (submit_order_cases ex shared w a o oid now)
      as [(err & E & _)|[(e & E & _)|(cl & msg & Hc & Hv & st & fl & avg & err & E)]]; rewrite E in H; simplify_eq; [done|].
    split; [done|]. unfold call_create_order. specialize (Hid cl).
    destruct (create_order cl w _) as [w1 [resp|m]]; simpl in *; [|done].
    pose proof (parse_tracks ex a resp (oi_symbol o)) as (_ & _ & Htr).
    destruct (parse_client_response _ _ _ _) as [a1 res]; simpl in *.
    destruct Htr as [->|(r & -> & _ & ->)]; [done|]. rewrite dget_dset_ne; [done|].
    intros [= Heq]. by apply (Hid r). }
  destruct Htr as [-> Htr]. unfold cancel_order, get_order_status, get_tracked_symbol. by rewrite Htr.
Qed.

(** ** Status and reconciliation *)

Lemma status_null_field ex r now k :
  k ∈ ["amount"; "price"; "stopPrice"; "average"] -> dget r k = Some PNone ->
  exists e, response_to_order_status ex r now = Err e.
Proof.
  intros Hk Hr. unfold response_to_order_status.
  destruct (py_map_status _ _) as [mapped|e]; simpl; [|eauto].
  destruct (match OrderStatus_of mapped with Some _ => _ | None => _ end) as [st err].
  assert (Hnull : py_float (py_get r k (PInt 0)) = Err (FloatTypeError PNone)) by (unfold py_get; by rewrite Hr).
  repeat (apply elem_of_cons in Hk as [->|Hk]); [..|by apply not_elem_of_nil in Hk]; rewrite Hnull;
    repeat (destruct (py_float _); simpl; [|eauto]); simpl; eauto.
Qed.

(** One open order whose price, stop price, average or amount is null, as
    ccxt reports an unfilled order, makes the whole reconciliation raise. *)
Theorem null_field_fails_reconcile ex w a now cl w' raws r k :
  client a = Some cl -> fetch_open_orders cl w = (w', Ok raws) ->
  r ∈ raws -> k ∈ ["amount"; "price"; "stopPrice"; "average"] -> dget r k = Some PNone ->
  exists a' text, reconcile ex w a now = (w', a', Err (ExecutionUnavailableError text)).
Proof.
  intros Hc Hf Hin Hk Hr. unfold reconcile. rewrite Hc, Hf.
  enough (forall a acc, exists a' e, reconcile_loop ex a raws now acc = (a', Err e)) as Hloop.
  { destruct (Hloop a []) as (a' & e & ->). eauto. }
  clear Hf. induction Hin as [r raws|r r' raws Hin IH]; intros a0 acc; simpl.
  - destruct (status_null_field ex r now k Hk Hr) as [e ->]. eauto.
  - destruct (response_to_order_status ex r' now); eauto.
Qed.

(** Cancellation answers truthfully: [cancel_order] returns only when the
    order is tracked and the exchange answered the cancel request for its
    symbol, and it returns [True] exactly when the answer's status maps to
    cancelled. *)
Theorem live_cancel_truthful ex w a oid w' b :
  cancel_order ex w a oid = (w', Ok b) ->
  exists cl sym answer, client a = Some cl /\ get_tracked_symbol a oid = Some sym /\
    cl_cancel_order cl w sym oid = (w', Ok answer) /\
    (b = true <-> exists r s, answer = Some r /\ py_get r "status" (PStr "") = PStr s /\ map_status ex s = "cancelled").
Proof.
  unfold cancel_order. destruct (get_tracked_symbol a oid) as [sym|] eqn:Ht; [|done].
  unfold cancel_order_for_symbol. destruct (client a) as [cl|]; [|done]. unfold call_cancel_order.
  destruct (cl_cancel_order cl w sym oid) as [w1 answer] eqn:Ha. intros H.
  injection H as <- H. destruct answer as [[r|]|m]; [| |done]; eexists cl, sym, _; (split_and!; [done..|]).
  - unfold py_map_status in H. destruct (py_get r "status" _) as [| | | |s] eqn:Hs; simplify_eq/=.
    rewrite bool_decide_eq_true. split; [eauto|]. intros (r2 & s2 & ? & ? & ?). simplify_eq. congruence.
  - simplify_eq/=. split; [done|]. by intros (r & s & ? & _).
Qed.

End Adapters.

(** Ccxt's unified status of a resting order, "open", maps to no known
    status: the order the exchange accepted and the adapter tracked is
    reported REJECTED, on both exchanges. *)
Theorem open_order_reported_rejected {W} (exn_text : py_exn -> string) ex shared (w : W) a o oid now cl msg r x :
  ex = binance \/ ex = bybit ->
  client a = Some cl -> validate_intent shared a o = Ok (true, msg) ->
  (create_order cl w (create_request o)).2 = Ok (Some r) ->
  dget r "status" = Some (PStr "open") -> dget r "id" = Some (PStr x) -> str_truthy x = true ->
  dget r "filled" = Some (PFloat f_zero) -> dget r "average" = Some PNone -> dget r "avgPrice" = None ->
  str_truthy (oi_symbol o) = true ->
  exists w' a', submit_order exn_text ex shared w a o oid now =
    (w', a', Ok (rejected_live_order o oid now "Unknown exchange status 'open'")) /\
  get_tracked_symbol a' x = Some (PStr (oi_symbol o)).
Proof.
  intros Hex Hc Hv Ha Hst Hid Hx Hf Havg Havp Hsym. unfold submit_order, call_create_order. rewrite Hc, Hv.
  destruct (create_order cl w _) as [w' answer]. simpl in Ha. subst answer.
  unfold parse_client_response, py_map_status, py_get. rewrite Hst, Hf, Havg, Havp.
  assert (Hoid : get_first r (id_keys ex) = PStr x).
  { destruct Hex as [-> | ->]; simpl; unfold py_or, py_get; rewrite Hid; simpl; by rewrite Hx. }
  rewrite Hoid. simpl. rewrite Hx, Hsym. simpl. eexists w', _.
  destruct Hex as [-> | ->]; simpl; (split; [reflexivity|]); unfold get_tracked_symbol; simpl; by rewrite dget_dset_eq.
Qed.

(** Adapters built without rules share one dictionary: rules added to one
    of them are in force on every other. *)
Theorem default_rules_shared {W} shared (c1 c2 : option (Client W)) rules :
  let '(shared', a1) := add_instrument_rules shared (adapter_init c1 None) rules in
  get_instrument_rules shared' a1 (ir_symbol rules) = Some rules /\
  get_instrument_rules shared' (adapter_init c2 None) (ir_symbol rules) = Some rules.
Proof. simpl. unfold get_instrument_rules, rules_of. simpl. by rewrite dget_dset_eq. Qed.

(** ** Witnesses *)

(** An exchange that answers every order with one response and logs the
    symbols it was asked to trade. *)
Definition w_client (r : response) (open : list response) : Client (list string) :=
  mkClient _ (fun w q => (w ++ [cq_symbol q], Ok (Some r))) (fun w _ _ => (w, Ok (Some [("status", PStr "canceled")])))
    (fun w _ _ => (w, Ok None)) (fun w => (w, Ok open)).

Definition w_rules : InstrumentRules :=
  mkRules "BTCUSDT" (float_of_dec 1 (-2)) (float_of_dec 1 (-3)) (float_of_dec 1 (-3)) (float_of_dec 10 0) None true.

Definition w_live (st : string) : Adapter (list string) :=
  mkAdapter (Some (w_client [("id", PStr "x1"); ("status", PStr st); ("filled", PFloat f_zero); ("average", PNone)]
                     [[("id", PStr "x1"); ("status", PStr "new"); ("average", PNone)]]))
    (Some [("BTCUSDT", w_rules)]) [].

Definition w_live_intent : OrderIntent :=
  mkIntent "c1" "s" "acct" "BTCUSDT" BUY LIMIT (float_of_dec 5 (-1)) (Some (float_of_dec 100 0)) None 1.

Definition w_text (e : py_exn) : string := "exception".

Lemma w_live_valid st : validate_intent [] (w_live st) w_live_intent = Ok (true, None).
Proof. vm_compute. reflexivity. Qed.

Lemma live_fail_closed_witness :
  let '(w', a', r) := submit_order w_text binance [] [] (adapter_init (W:=list string) None None) w_live_intent "o1" 5 in
  w' = [] /\ a' = adapter_init None None.
Proof.
  destruct (live_fail_closed w_text binance [] [] (adapter_init (W:=list string) None None) w_live_intent "o1" 5 _ _ _ eq_refl)
    as [(Hw & Ha & _)|(cl & rules & msg & Hc & _)]; [split; assumption|discriminate Hc].
Defined.

Lemma live_success_acknowledged_witness :
  let '(_, _, r) := submit_order w_text bybit [] [] (w_live "New") w_live_intent "o1" 5 in
  exists ord, r = Ok ord /\ exists text, OrderStatus_value (status ord) = map_status bybit text.
Proof.
  destruct (submit_order w_text bybit [] [] (w_live "New") w_live_intent "o1" 5) as [[w' a'] [ord|e]] eqn:H;
    [|vm_compute in H; discriminate H].
  exists ord. split; [reflexivity|].
  destruct (live_success_acknowledged w_text bybit [] [] (w_live "New") w_live_intent "o1" 5 w' a' ord H)
    as (cl & r & text & _ & _ & _ & Ht); [|exists text; exact Ht].
  vm_compute in H. injection H as _ _ <-. discriminate.
Defined.

Lemma returned_id_not_cancellable_witness :
  let '(w', a', r) := submit_order w_text binance [] [] (w_live "new") w_live_intent "o1" 5 in
  exists ord text, r = Ok ord /\ status ord = NEW /\
    cancel_order w_text binance w' a' (order_id ord) = (w', Err (ExecutionUnavailableError text)).
Proof.
  destruct (submit_order w_text binance [] [] (w_live "new") w_live_intent "o1" 5) as [[w' a'] [ord|e]] eqn:H;
    [|vm_compute in H; discriminate H].
  exists ord. eexists. split; [reflexivity|]. split; [vm_compute in H; injection H as _ _ <-; reflexivity|].
  apply (returned_id_not_cancellable w_text binance [] [] (w_live "new") w_live_intent "o1" 5 w' a' ord 9 H eq_refl).
  intros cl r Hc Hr. vm_compute in Hc. injection Hc as <-. vm_compute in Hr. injection Hr as <-. discriminate.
Defined.

Lemma null_field_fails_reconcile_witness :
  exists a' text, reconcile w_text bybit [] (w_live "new") 9 = ([], a', Err (ExecutionUnavailableError text)).
Proof.
  eapply (null_field_fails_reconcile w_text bybit [] (w_live "new") 9 _ []
    [[("id", PStr "x1"); ("status", PStr "new"); ("average", PNone)]] _ "average");
    [reflexivity|reflexivity|apply list_elem_of_here| |reflexivity].
  apply (bool_decide_unpack (_ ∈ _)). vm_compute. exact I.
Defined.

Lemma live_cancel_truthful_witness :
  exists cl sym answer, client (track_order_symbol (w_live "new") (PStr "x1") (PStr "BTCUSDT")) = Some cl /\
    cl_cancel_order cl [] sym "x1" = ([], Ok answer).
Proof.
  destruct (live_cancel_truthful w_text binance [] (track_order_symbol (w_live "new") (PStr "x1") (PStr "BTCUSDT"))
    "x1" [] true eq_refl) as (cl & sym & answer & H1 & _ & H2 & _).
  exists cl, sym, answer. split; assumption.
Defined.

Lemma open_order_reported_rejected_witness :
  exists w' a', submit_order w_text binance [] [] (w_live "open") w_live_intent "o1" 5 =
    (w', a', Ok (rejected_live_order w_live_intent "o1" 5 "Unknown exchange status 'open'")) /\
  get_tracked_symbol a' "x1" = Some (PStr "BTCUSDT").
Proof.
  eapply (open_order_reported_rejected w_text binance [] [] (w_live "open") w_live_intent "o1" 5);
    [left; reflexivity|reflexivity|apply w_live_valid|reflexivity..].
Defined.
