(* ===== verification/Router.v ===== *)
(** The execution router: [openpine/execution/router.py].

    The router looks the account up, asks the risk manager and hands the
    intent to the adapter registered for the account's type.  Adapters are
    used through the protocol [ExecutionAdapter]; what the router's theorems
    need of one is the class [LawfulAdapter], of which the paper adapter and
    the two live adapters are instances.  Registered adapters are references
    into a store, since one object may serve several account types. *)

From S2P Require Import Paper LiveAdapter.
From S2P Require Import Prelude PyFloat PyValue Orders Instrument Accounts Risk.

(** An exception out of [cancel_order]: [ExecutionUnavailableError] or another. *)
Inductive cancel_exn :=
| CancelUnavailable (text : string)
| CancelOther (text : string).

(** The protocol: the argument [oid] is the id the adapter generates. *)
Class ExecutionAdapter (A : Type) := {
  ea_submit : A -> OrderIntent -> string -> Z -> A * result string Order;
  ea_cancel : A -> string -> Z -> A * result cancel_exn bool
}.

(** The order stands for the intent: every field the intent fixes. *)
Definition carries (i : OrderIntent) (o : Order) : Prop :=
  client_order_id o = oi_client_order_id i /\ strategy_id o = oi_strategy_id i /\
  account_id o = oi_account_id i /\ symbol o = oi_symbol i /\ side o = oi_side i /\
  order_type o = oi_order_type i /\ quantity o = oi_quantity i /\ price o = oi_price i /\
  stop_price o = oi_stop_price i /\ created_at o = oi_created_at i.

Class LawfulAdapter (A : Type) `{ExecutionAdapter A} := {
  ea_submit_carries : forall a i oid now a' o,
    ea_submit a i oid now = (a', Ok o) -> carries i o /\ order_id o = oid
}.

Lemma order_of_intent_carries i oid st f avg now err : carries i (order_of_intent i oid st f avg now err).
Proof. by unfold carries. Qed.
#[export] Hint Resolve order_of_intent_carries : openpine.

(** *** Instances *)

#[export] Instance paper_adapter : ExecutionAdapter Paper.Adapter := {
  ea_submit s i oid now :=
    let '(s', ref) := Paper.submit_order s i oid now in
    (s', match Paper.heap s' !! ref with Some o => Ok o | None => Err "" end);
  ea_cancel s oid now := let '(s', b) := Paper.cancel_order s oid now in (s', Ok b)
}.

(** A live adapter object: its exchange, the texts of the interpreter's
    exceptions, the module's shared rules, the exchange's state and the
    adapter's own fields. *)
Record LiveObject (W : Type) := mkLiveObject {
  lo_exchange : LiveAdapter.Exchange;
  lo_exn_text : py_exn -> string;
  lo_round_text : round_error -> string;
  lo_shared : dict string InstrumentRules;
  lo_world : W;
  lo_adapter : LiveAdapter.Adapter W
}.
Arguments mkLiveObject {W}.
Arguments lo_exchange {W}.
Arguments lo_exn_text {W}.
Arguments lo_round_text {W}.
Arguments lo_shared {W}.
Arguments lo_world {W}.
Arguments lo_adapter {W}.

Definition lo_update {W} (l : LiveObject W) (w : W) (a : LiveAdapter.Adapter W) : LiveObject W :=
  mkLiveObject (lo_exchange l) (lo_exn_text l) (lo_round_text l) (lo_shared l) w a.

#[export] Instance live_adapter {W} : ExecutionAdapter (LiveObject W) := {
  ea_submit l i oid now :=
    let '(w, a, r) := LiveAdapter.submit_order (lo_exn_text l) (lo_exchange l) (lo_shared l) (lo_world l)
                        (lo_adapter l) i oid now in
    (lo_update l w a, match r with Ok o => Ok o | Err e => Err (lo_round_text l e) end);
  ea_cancel l oid now :=
    let '(w, r) := LiveAdapter.cancel_order (lo_exn_text l) (lo_exchange l) (lo_world l) (lo_adapter l) oid in
    (lo_update l w (lo_adapter l),
     match r with Ok b => Ok b | Err (LiveAdapter.ExecutionUnavailableError t) => Err (CancelUnavailable t) end)
}.

#[export] Instance paper_adapter_lawful : LawfulAdapter Paper.Adapter.
Proof.
  constructor. intros a i oid now a' o H. simpl in H. rewrite lookup_app_r, Nat.sub_diag in H by done.
  simplify_eq/=. eauto with openpine.
Qed.

#[export] Instance live_adapter_lawful W : LawfulAdapter (LiveObject W).
Proof.
  constructor. intros l i oid now l' o H. simpl in H.
  destruct (LiveAdapter.submit_order_cases (lo_exn_text l) (lo_exchange l) (lo_shared l) (lo_world l)
    (lo_adapter l) i oid now) as [(err & E & _)|[(e & E & _)|(cl & msg & _ & _ & st & fl & avg & err & E)]];
    rewrite E in H; simplify_eq/=; unfold rejected_live_order; eauto with openpine.
Qed.

(** An adapter of some type. *)
Inductive AnyAdapter := Pack (A : Type) (EA : ExecutionAdapter A) (LA : LawfulAdapter A) (a : A).

Definition any_submit (x : AnyAdapter) (i : OrderIntent) (oid : string) (now : Z) : AnyAdapter * result string Order :=
  match x with
  | Pack A EA LA a => let '(a', r) := ea_submit a i oid now in (Pack A EA LA a', r)
  end.

Definition any_cancel (x : AnyAdapter) (oid : string) (now : Z) : AnyAdapter * result cancel_exn bool :=
  match x with
  | Pack A EA LA a => let '(a', r) := ea_cancel a oid now in (Pack A EA LA a', r)
  end.

(** ** The router *)

Record Router := mkRouter {
  risk_manager : RiskManager;
  account_manager : AccountTable;
  adapters : dict AccountType nat;
  adapter_store : list AnyAdapter
}.

Definition register_adapter (rt : Router) (t : AccountType) (ref : nat) : Router :=
  mkRouter (risk_manager rt) (account_manager rt) (dset (adapters rt) t ref) (adapter_store rt).

Definition rejected_order (i : OrderIntent) (err : string) (updated : Z) (oid : string) : Order :=
  order_of_intent i oid REJECTED f_zero None updated (Some err).

(** [submit_order]: [oid] is the id the router generates for a rejection,
    [aoid] the adapter's, [now] the clock in milliseconds and [now_ns] the one
    the rate rule reads, in nanoseconds.  [Err] is the exception of the account lookup. *)
Definition submit_order (rt : Router) (i : OrderIntent) (oid aoid : string) (now now_ns : Z)
    : Router * result account_error Order :=
  match get_account (account_manager rt) (oi_account_id i) with
  | Err e => (rt, Err e)
  | Ok None => (rt, Ok (rejected_order i ("Account not found: " +:+ oi_account_id i) now oid))
  | Ok (Some account) =>
      let '(risk, (allowed, msg)) := check_order (risk_manager rt) i account now_ns in
      let rt' := mkRouter risk (account_manager rt) (adapters rt) (adapter_store rt) in
      if negb allowed then (rt', Ok (rejected_order i (str_or msg "RiskManager blocked order") now oid))
      else
        match dget (adapters rt) (account_type account) with
        | None => (rt', Ok (rejected_order i ("No adapter registered for account type: "
                                               +:+ AccountType_value (account_type account)) now oid))
        | Some ref =>
            match adapter_store rt !! ref with
            | None => (rt', Ok (rejected_order i "Adapter error: " now oid))
            | Some adapter =>
                let '(adapter', r) := any_submit adapter i aoid now in
                (mkRouter risk (account_manager rt) (adapters rt) (<[ref := adapter']> (adapter_store rt)),
                 Ok (match r with
                     | Ok o => o
                     | Err e => rejected_order i ("Adapter error: " +:+ e) now oid
                     end))
            end
        end
  end.

Inductive router_error := LookupError (e : account_error) | Unavailable (text : string).

Definition cancel_order (rt : Router) (oid acct : string) (now : Z) : Router * result router_error bool :=
  match get_account (account_manager rt) acct with
  | Err e => (rt, Err (LookupError e))
  | Ok None => (rt, Ok false)
  | Ok (Some account) =>
      match dget (adapters rt) (account_type account) ≫= fun ref => adapter_store rt !! ref with
      | None => (rt, Err (Unavailable ("No adapter registered for account type: "
                                         +:+ AccountType_value (account_type account))))
      | Some adapter =>
          let '(adapter', r) := any_cancel adapter oid now in
          (mkRouter (risk_manager rt) (account_manager rt) (adapters rt)
             (match dget (adapters rt) (account_type account) with
              | Some ref => <[ref := adapter']> (adapter_store rt)
              | None => adapter_store rt
              end),
           match r with
           | Ok b => Ok b
           | Err (CancelUnavailable t) => Err (Unavailable t)
           | Err (CancelOther t) => Err (Unavailable ("Adapter cancel failed: " +:+ t))
           end)
      end
  end.

(** ** Properties *)

(** C3: nothing reaches an adapter without approval.  A submission that
    returns either left every adapter object untouched and produced a REJECTED
    order with an error, or the account exists, the risk manager allowed this
    very order and only the adapter of the account's type was called. *)
Theorem router_gate rt i oid aoid now now_ns rt' o :
  submit_order rt i oid aoid now now_ns = (rt', Ok o) ->
  (adapter_store rt' = adapter_store rt /\ status o = REJECTED /\ is_Some (error o)) \/
  (exists account ref adapter msg,
     get_account (account_manager rt) (oi_account_id i) = Ok (Some account) /\
     (check_order (risk_manager rt) i account now_ns).2 = (true, msg) /\
     dget (adapters rt) (account_type account) = Some ref /\ adapter_store rt !! ref = Some adapter /\
     adapter_store rt' = <[ref := (any_submit adapter i aoid now).1]> (adapter_store rt)).
Proof.
  unfold submit_order. intros H. destruct (get_account _ _) as [[account|]|e]; simplify_eq; [|left; by split_and!].
  destruct (check_order _ _ _ _) as [risk [[] msg]] eqn:Hck; simplify_eq/=; [|left; by split_and!].
  destruct (dget _ _) as [ref|] eqn:Hd; simplify_eq; [|left; by split_and!].
  destruct (adapter_store rt !! ref) as [adapter|] eqn:Ha; simplify_eq; [|left; by split_and!].
  destruct (any_submit adapter i aoid now) as [ad' r] eqn:Hs. simplify_eq. right.
  exists account, ref, adapter, msg. rewrite Hck, Hs. by split_and!.
Qed.

(** The kill switch works end to end: once it is on, every order of every
    account is REJECTED and no adapter is called, whatever rules, orders and
    adapters came before. *)
Theorem router_kill_switch ops b rt i oid aoid now now_ns rt' o :
  risk_manager rt = set_kill_switch (fold_left risk_exec ops (RiskManager_init b)) true ->
  submit_order rt i oid aoid now now_ns = (rt', Ok o) ->
  status o = REJECTED /\ adapter_store rt' = adapter_store rt.
Proof.
  intros Hm. unfold submit_order. destruct (get_account _ _) as [[account|]|e]; intros H; simplify_eq; [|done].
  destruct (kill_switch_blocks_check (risk_manager rt) i account now_ns) as [v Hv].
  - rewrite Hm. apply (risk_exec_kill_rule _ (RSetKillSwitch true)), risk_run_kill_rule. by exists [].
  - by rewrite Hm.
  - rewrite Hv in H. by simplify_eq/=.
Qed.

Lemma any_submit_carries x i oid now x' o : any_submit x i oid now = (x', Ok o) -> carries i o.
Proof.
  destruct x as [A EA LA a]. simpl. destruct (ea_submit a i oid now) as [a' r] eqn:H. intros ?. simplify_eq.
  by apply ea_submit_carries in H as [? _].
Qed.

(** The order that comes back stands for the intent that went in, for
    every lawful adapter and on every path, rejections included. *)
Theorem router_carries rt i oid aoid now now_ns rt' o :
  submit_order rt i oid aoid now now_ns = (rt', Ok o) -> carries i o.
Proof.
  unfold submit_order, rejected_order. intros H.
  destruct (get_account _ _) as [[account|]|e]; simplify_eq; [|auto with openpine].
  destruct (check_order _ _ _ _) as [risk [[] msg]]; simplify_eq/=; [|auto with openpine].
  destruct (dget _ _) as [ref|]; simplify_eq; [|auto with openpine].
  destruct (adapter_store rt !! ref) as [adapter|]; simplify_eq; [|auto with openpine].
  destruct (any_submit adapter i aoid now) as [ad' [o'|e]] eqn:Hs; simplify_eq; [|auto with openpine].
  by eapply any_submit_carries.
Qed.

(** A rule of the module, not a foreign implementation of the protocol. *)
Definition builtin_rule (r : RiskRule) : Prop := match r with OtherRule _ _ => False | _ => True end.

Definition with_live_enabled (a : Account) (b : bool) : Account :=
  mkAccount (acct_id a) (acct_name a) (acct_provider a) (acct_exchange a) (acct_market_type a) (acct_mode a) b
    (acct_api_key_ref a) (acct_api_secret_ref a) (acct_permissions a) (acct_api_key_hash a) (acct_config a)
    (acct_created_at a) (acct_updated_at a).

Lemma check_rules_live_enabled ks rs o a b now :
  Forall builtin_rule rs -> check_rules ks rs o (with_live_enabled a b) now = check_rules ks rs o a now.
Proof.
  induction 1 as [|r rs Hr Hrs IH]; simpl; [done|]. rewrite IH. by destruct r.
Qed.

(** [live_enabled] gates nothing: with the module's rules the risk check
    gives the same answer whether live trading is enabled on the account or
    not, and routing looks only at the account's type. *)
Theorem live_enabled_not_checked m o a b now :
  Forall builtin_rule (rules m) ->
  check_order m o (with_live_enabled a b) now = check_order m o a now /\
  account_type (with_live_enabled a b) = account_type a.
Proof. intros H. split; [|done]. unfold check_order. by rewrite check_rules_live_enabled. Qed.

(** ** Witnesses *)

Definition w_account (live : bool) : Account :=
  mkAccount "acct" "n" "p" "binance" "spot" PAPER live None None None None "{}" 1 1.

Definition w_table : AccountTable :=
  (create_account [] "acct" "n" (Some PAPER) None "binance" "p" "spot" None None None None false None 1).1.

Definition w_router (ks : bool) : Router :=
  register_adapter (mkRouter (set_kill_switch (RiskManager_init false) ks) w_table [] [Pack _ _ _ Paper.init]) PAPER 0.

Definition w_i : OrderIntent := mkIntent "c" "s" "acct" "BTCUSDT" BUY MARKET (float_of_dec 1 0) None None 1.

Definition w_submit (ks : bool) : Router * result account_error Order := submit_order (w_router ks) w_i "r1" "o1" 5 0.

Definition w_filled : Order := order_of_intent w_i "o1" FILLED (float_of_dec 1 0) (Some f_zero) 5 None.
Definition w_blocked : Order :=
  rejected_order w_i "Kill switch is active — all orders blocked" 5 "r1".

Lemma w_submit_filled : w_submit false = ((w_submit false).1, Ok w_filled).
Proof. vm_compute. reflexivity. Qed.
Lemma w_submit_blocked : w_submit true = ((w_submit true).1, Ok w_blocked).
Proof. vm_compute. reflexivity. Qed.

Lemma router_gate_witness :
  exists account msg, get_account w_table "acct" = Ok (Some account) /\
    (check_order (risk_manager (w_router false)) w_i account 0).2 = (true, msg).
Proof.
  destruct (router_gate (w_router false) w_i "r1" "o1" 5 0 _ _ w_submit_filled)
    as [(_ & H & _)|(account & ref & adapter & msg & H1 & H2 & _)]; [discriminate H|].
  exists account, msg. split; assumption.
Defined.

Lemma router_kill_switch_witness : adapter_store (w_submit true).1 = adapter_store (w_router true).
Proof.
  apply (router_kill_switch [] false (w_router true) w_i "r1" "o1" 5 0 _ _ eq_refl w_submit_blocked).
Defined.

Lemma router_carries_witness : carries w_i w_filled.
Proof. apply (router_carries (w_router false) w_i "r1" "o1" 5 0 _ _ w_submit_filled). Defined.

Lemma live_enabled_not_checked_witness :
  check_order (RiskManager_init false) w_i (with_live_enabled (w_account true) false) 0 =
  check_order (RiskManager_init false) w_i (w_account true) 0.
Proof. apply live_enabled_not_checked. repeat constructor. Defined.
