(* ===== verification/Scheduler.v ===== *)
(** The in-memory job scheduler: [openpine/jobs/models.py] and
    [openpine/jobs/scheduler.py].

    [Job] objects are shared between the caller, the queue and the job table,
    so they live in a store and everything else holds references.  Every
    method runs under the scheduler's lock, so a history is a sequence of
    whole calls; the clock readings of one call are one [now]. *)

From S2P Require Import Prelude.

Inductive JobType :=
| BACKTEST | OPTIMIZER | BACKFILL | LIVE_BAR_PROCESS | PAPER_BAR_PROCESS | OBSERVE_BAR_PROCESS | REPORT.

Inductive JobStatus := JPENDING | JRUNNING | JDONE | JFAILED | JCANCELLED.

#[export] Instance JobType_eq_dec : EqDecision JobType.
Proof. solve_decision. Defined.
#[export] Instance JobStatus_eq_dec : EqDecision JobStatus.
Proof. solve_decision. Defined.

(** [Job]; the [input] and [result] dictionaries are JSON texts. *)
Record Job := mkJob {
  job_type : JobType;
  job_id : string;
  job_strategy_id : option string;
  job_status : JobStatus;
  idempotency_key : option string;
  serialization_key : option string;
  priority : Z;
  job_created_at : Z;
  job_updated_at : Z;
  scheduled_at : option Z;
  started_at : option Z;
  finished_at : option Z;
  job_error : option string;
  job_input : option string;
  job_result : option string;
  worker_id : option string;
  attempt : Z;
  max_retries : Z
}.

(** The store of objects, and a scheduler over it. *)
Record Scheduler := mkScheduler {
  objects : list Job;
  queue : list nat;
  jobs : dict string nat;
  running : dict string string;
  locks : dict string (string * Z);
  idempotency_map : dict string string
}.

Definition scheduler_init : Scheduler := mkScheduler [] [] [] [] [] [].

(** [Job(...)]: a new object. *)
Definition new_job (s : Scheduler) (j : Job) : Scheduler * nat :=
  (mkScheduler (objects s ++ [j]) (queue s) (jobs s) (running s) (locks s) (idempotency_map s), length (objects s)).

Definition update_object (s : Scheduler) (ref : nat) (f : Job -> Job) : Scheduler :=
  mkScheduler (alter f ref (objects s)) (queue s) (jobs s) (running s) (locks s) (idempotency_map s).

Definition set_id (x : string) (j : Job) : Job :=
  mkJob (job_type j) x (job_strategy_id j) (job_status j) (idempotency_key j) (serialization_key j) (priority j)
    (job_created_at j) (job_updated_at j) (scheduled_at j) (started_at j) (finished_at j) (job_error j)
    (job_input j) (job_result j) (worker_id j) (attempt j) (max_retries j).

(** The key of [_requeue_sort]. *)
Definition sort_key (objs : list Job) (ref : nat) : Z * Z :=
  match objs !! ref with
  | Some j => (- priority j, job_created_at j)
  | None => (0, 0)
  end.

Definition requeue_sort (objs : list Job) : list nat -> list nat :=
  sort_by (fun a b => pair_leb (sort_key objs a) (sort_key objs b)).

(** The job an idempotency key already stands for. *)
Definition existing_job (s : Scheduler) (key : option string) : option nat :=
  k ← opt_truthy key; existing_id ← dget (idempotency_map s) k; dget (jobs s) existing_id.

(** [enqueue]; [uuid] is the id given to an object without one. *)
Definition enqueue (s : Scheduler) (ref : nat) (uuid : string) : Scheduler * nat :=
  match objects s !! ref with
  | None => (s, ref)
  | Some j =>
      match existing_job s (idempotency_key j) with
      | Some existing => (s, existing)
      | None =>
          let jid := if str_truthy (job_id j) then job_id j else uuid in
          let objs := <[ref := set_id jid j]> (objects s) in
          (mkScheduler objs (requeue_sort objs (queue s ++ [ref])) (dset (jobs s) jid ref) (running s) (locks s)
             (match opt_truthy (idempotency_key j) with
              | Some k => dset (idempotency_map s) k jid
              | None => idempotency_map s
              end), ref)
      end
  end.

(** May [dequeue] hand this job out? *)
Definition eligible (s : Scheduler) (ref : nat) : bool :=
  match objects s !! ref with
  | None => false
  | Some j =>
      bool_decide (job_status j = JPENDING) &&
      negb (match opt_truthy (serialization_key j) with
            | Some k => dmem (running s) k
            | None => false
            end)
  end.

(** The scan of [dequeue]: the first eligible job and the queue without it. *)
Fixpoint take_first (p : nat -> bool) (q : list nat) : option (nat * list nat) :=
  match q with
  | [] => None
  | r :: q' => if p r then Some (r, q') else '(x, rest) ← take_first p q'; Some (x, r :: rest)
  end.

Definition dequeue (s : Scheduler) : Scheduler * option nat :=
  match take_first (eligible s) (queue s) with
  | None => (s, None)
  | Some (ref, q) => (mkScheduler (objects s) q (jobs s) (running s) (locks s) (idempotency_map s), Some ref)
  end.

Definition set_running (now : Z) (j : Job) : Job :=
  mkJob (job_type j) (job_id j) (job_strategy_id j) JRUNNING (idempotency_key j) (serialization_key j) (priority j)
    (job_created_at j) now (scheduled_at j) (Some now) (finished_at j) (job_error j)
    (job_input j) (job_result j) (worker_id j) (attempt j) (max_retries j).

Definition set_finished (st : JobStatus) (err res : option string) (now : Z) (j : Job) : Job :=
  mkJob (job_type j) (job_id j) (job_strategy_id j) st (idempotency_key j) (serialization_key j) (priority j)
    (job_created_at j) now (scheduled_at j) (started_at j) (Some now) err
    (job_input j) res (worker_id j) (attempt j) (max_retries j).

Definition with_running (s : Scheduler) (r : dict string string) : Scheduler :=
  mkScheduler (objects s) (queue s) (jobs s) r (locks s) (idempotency_map s).

Definition mark_running (s : Scheduler) (jid : string) (now : Z) : Scheduler :=
  match dget (jobs s) jid with
  | None => s
  | Some ref =>
      let s' := update_object s ref (set_running now) in
      match objects s' !! ref with
      | Some j => match opt_truthy (serialization_key j) with
                  | Some k => with_running s' (dset (running s') k jid)
                  | None => s'
                  end
      | None => s'
      end
  end.

(** The common tail of [mark_done], [mark_failed] and [cancel]: the
    serialization key is freed if this job holds it. *)
Definition free_key (s : Scheduler) (jid : string) (key : option string) : Scheduler :=
  match opt_truthy key with
  | Some k => if bool_decide (dget (running s) k = Some jid) then with_running s (ddel (running s) k) else s
  | None => s
  end.

Definition finish (s : Scheduler) (jid : string) (ref : nat) (f : Job -> Job) : Scheduler :=
  match objects s !! ref with
  | Some j => free_key (update_object s ref f) jid (serialization_key j)
  | None => s
  end.

Definition mark_done (s : Scheduler) (jid : string) (res : option string) (now : Z) : Scheduler :=
  match dget (jobs s) jid with
  | None => s
  | Some ref => finish s jid ref (fun j => set_finished JDONE (job_error j) res now j)
  end.

Definition mark_failed (s : Scheduler) (jid err : string) (now : Z) : Scheduler :=
  match dget (jobs s) jid with
  | None => s
  | Some ref => finish s jid ref (fun j => set_finished JFAILED (Some err) (job_result j) now j)
  end.

Definition job_terminal (st : JobStatus) : bool :=
  match st with JDONE | JFAILED | JCANCELLED => true | _ => false end.

Definition cancel (s : Scheduler) (jid : string) (now : Z) : Scheduler :=
  match dget (jobs s) jid with
  | None => s
  | Some ref =>
      match objects s !! ref with
      | None => s
      | Some j =>
          if job_terminal (job_status j) then s
          else finish s jid ref (fun j => set_finished JCANCELLED (job_error j) (job_result j) now j)
      end
  end.

Definition get_job (s : Scheduler) (jid : string) : option Job := ref ← dget (jobs s) jid; objects s !! ref.

Definition list_jobs (s : Scheduler) (st : option JobStatus) : list Job :=
  let all := omap (fun ref => objects s !! ref) (dvalues (jobs s)) in
  let kept := match st with
              | None => all
              | Some x => List.filter (fun j => bool_decide (job_status j = x)) all
              end in
  sort_by (fun a b => - job_created_at a <=? - job_created_at b) kept.

Definition is_running (s : Scheduler) (key : string) : bool := dmem (running s) key.

(** *** Locks with a time to live *)

Definition with_locks (s : Scheduler) (l : dict string (string * Z)) : Scheduler :=
  mkScheduler (objects s) (queue s) (jobs s) (running s) l (idempotency_map s).

Definition acquire_lock (s : Scheduler) (resource owner : string) (ttl_seconds now_ms : Z) : Scheduler * bool :=
  let taken := (with_locks s (dset (locks s) resource (owner, now_ms + ttl_seconds * 1000)), true) in
  match dget (locks s) resource with
  | Some (lock_owner, expiry_ms) =>
      if bool_decide (lock_owner = owner) then taken
      else if now_ms <? expiry_ms then (s, false)
      else taken
  | None => taken
  end.

Definition release_lock (s : Scheduler) (resource owner : string) : Scheduler :=
  match dget (locks s) resource with
  | Some (lock_owner, _) =>
      if bool_decide (lock_owner = owner) then with_locks s (ddel (locks s) resource) else s
  | None => s
  end.

Definition recover_stale_locks (s : Scheduler) (now_ms : Z) : Scheduler * Z :=
  let stale := dkeys (List.filter (fun e => e.2.2 <=? now_ms) (locks s)) in
  (with_locks s (fold_left ddel stale (locks s)), Z.of_nat (length stale)).

(** Calls on a scheduler.  [SNew] creates a job object. *)
Inductive SOp :=
| SNew (j : Job)
| SEnqueue (ref : nat) (uuid : string)
| SDequeue
| SRunning (jid : string) (now : Z)
| SDone (jid : string) (res : option string) (now : Z)
| SFailed (jid err : string) (now : Z)
| SCancel (jid : string) (now : Z)
| SAcquire (resource owner : string) (ttl now : Z)
| SRelease (resource owner : string)
| SRecover (now : Z).

Definition sexec (s : Scheduler) (op : SOp) : Scheduler :=
  match op with
  | SNew j => (new_job s j).1
  | SEnqueue ref uuid => (enqueue s ref uuid).1
  | SDequeue => (dequeue s).1
  | SRunning jid now => mark_running s jid now
  | SDone jid res now => mark_done s jid res now
  | SFailed jid err now => mark_failed s jid err now
  | SCancel jid now => cancel s jid now
  | SAcquire r o ttl now => (acquire_lock s r o ttl now).1
  | SRelease r o => release_lock s r o
  | SRecover now => (recover_stale_locks s now).1
  end.

(** What [uuid.uuid4] promises here: the text is not empty. *)
Definition sop_ok (op : SOp) : Prop :=
  match op with SEnqueue _ uuid => str_truthy uuid = true | _ => True end.
