(* ===== verification/SchedulerFacts.v ===== *)
(** The contracts of the job scheduler: deduplication, the order of the
    queue, serialization by key, and the locks. *)

From S2P Require Import Prelude Scheduler.

(** ** Well-formedness *)

(** The fields no call of the scheduler changes once a job has an id. *)
Definition core (j : Job) : string * Z * Z * option string :=
  (job_id j, priority j, job_created_at j, serialization_key j).

Definition queue_le (objs : list Job) (a b : nat) : bool := pair_leb (sort_key objs a) (sort_key objs b).

Record sched_ok (s : Scheduler) : Prop := mk_sched_ok {
  ok_queue : Forall (fun r => is_Some (objects s !! r)) (queue s);
  ok_sorted : StronglySorted (fun a b => queue_le (objects s) a b = true) (queue s);
  ok_jobs : forall jid r, dget (jobs s) jid = Some r ->
              exists j, objects s !! r = Some j /\ job_id j = jid /\ str_truthy jid = true;
  ok_idem : forall k jid, dget (idempotency_map s) k = Some jid -> is_Some (dget (jobs s) jid)
}.

Definition keeps_core (objs objs' : list Job) : Prop :=
  forall r j, objs !! r = Some j -> exists j', objs' !! r = Some j' /\ core j' = core j.

Lemma keeps_core_alter objs r f : (forall j, core (f j) = core j) -> keeps_core objs (alter f r objs).
Proof.
  intros Hf r' j Hj. destruct (decide (r = r')) as [->|Hne].
  - rewrite list_lookup_alter_eq, Hj. simpl. eauto.
  - rewrite list_lookup_alter_ne by done. eauto.
Qed.

Lemma keeps_core_app objs j : keeps_core objs (objs ++ [j]).
Proof. intros r j' Hj. exists j'. by rewrite lookup_app_l_Some with (x := j'). Qed.

Lemma keeps_core_refl objs : keeps_core objs objs.
Proof. intros r j Hj. eauto. Qed.

Lemma sort_key_ext objs objs' r :
  is_Some (objs !! r) ->
  (forall j, objs !! r = Some j -> exists j', objs' !! r = Some j' /\ priority j' = priority j /\ job_created_at j' = job_created_at j) ->
  sort_key objs' r = sort_key objs r.
Proof.
  intros [j Hj] H. destruct (H j Hj) as (j' & Hj' & Hp & Hc). unfold sort_key. by rewrite Hj, Hj', Hp, Hc.
Qed.

Lemma sorted_ext objs objs' q :
  Forall (fun r => is_Some (objs !! r)) q ->
  (forall r j, objs !! r = Some j -> exists j', objs' !! r = Some j' /\ priority j' = priority j /\ job_created_at j' = job_created_at j) ->
  StronglySorted (fun a b => queue_le objs a b = true) q ->
  StronglySorted (fun a b => queue_le objs' a b = true) q.
Proof.
  intros Hq H Hs. induction Hs as [|x q Hs IH Hall]; [constructor|]. inversion Hq as [|? ? Hx Hq']; subst.
  constructor; [auto|]. rewrite Forall_forall in *. intros y Hy. unfold queue_le.
  rewrite !(sort_key_ext objs objs') by eauto. by apply Hall.
Qed.

Lemma sched_ok_objects s s' :
  queue s' = queue s -> jobs s' = jobs s -> idempotency_map s' = idempotency_map s ->
  keeps_core (objects s) (objects s') -> sched_ok s -> sched_ok s'.
Proof.
  intros Hq Hj Hi Hk [H1 H2 H3 H4]. constructor; rewrite ?Hq, ?Hj, ?Hi; try done.
  - eapply Forall_impl; [exact H1|]. intros r [j Hr]. destruct (Hk r j Hr) as (j' & -> & _). eauto.
  - eapply sorted_ext; [exact H1| |exact H2]. intros r j Hr. destruct (Hk r j Hr) as (j' & Hj' & Hc).
    unfold core in Hc. simplify_eq. eauto.
  - intros jid r Hr. destruct (H3 jid r Hr) as (j & Hjr & <- & Ht). destruct (Hk r j Hjr) as (j' & Hj' & Hc).
    unfold core in Hc. simplify_eq. eauto.
Qed.

Lemma finish_ok s jid r f : (forall j, core (f j) = core j) -> sched_ok s -> sched_ok (finish s jid r f).
Proof.
  intros Hf. unfold finish, free_key. destruct (objects s !! r) as [j|]; [|done].
  apply sched_ok_objects; repeat case_match; simpl; auto using keeps_core_alter.
Qed.

Lemma mark_running_ok s jid now : sched_ok s -> sched_ok (mark_running s jid now).
Proof.
  unfold mark_running. destruct (dget (jobs s) jid) as [r|]; [|done].
  apply sched_ok_objects; repeat case_match; simpl; auto using keeps_core_alter.
Qed.

Lemma take_first_spec p q :
  match take_first p q with
  | None => Forall (fun r => p r = false) q
  | Some (r, rest) => exists pre post, q = pre ++ r :: post /\ rest = pre ++ post /\ p r = true /\
                        Forall (fun x => p x = false) pre
  end.
Proof.
  induction q as [|x q IH]; simpl; [constructor|]. destruct (p x) eqn:Hx.
  - exists [], q. by split_and!.
  - destruct (take_first p q) as [[r rest]|]; simpl in *.
    + destruct IH as (pre & post & -> & -> & Hr & Hpre). exists (x :: pre), post. split_and!; auto.
    + auto.
Qed.

Lemma StronglySorted_remove {A} (R : A -> A -> Prop) pre x post :
  StronglySorted R (pre ++ x :: post) -> StronglySorted R (pre ++ post) /\ Forall (R x) post.
Proof.
  induction pre as [|y pre IH]; simpl; intros H; inversion H as [|? ? Hs Hall]; subst; [done|].
  apply IH in Hs as [Hs Hx]. split; [|done]. constructor; [done|].
  apply Forall_app in Hall as [H1 H2]. inversion H2; subst. by apply Forall_app.
Qed.

Lemma dequeue_ok s : sched_ok s -> sched_ok (dequeue s).1.
Proof.
  intros [H1 H2 H3 H4]. unfold dequeue. pose proof (take_first_spec (eligible s) (queue s)) as Ht.
  destruct (take_first _ _) as [[r rest]|]; simpl; [|done]. destruct Ht as (pre & post & Hq & -> & _).
  rewrite Hq in *. constructor; simpl; try done.
  - apply Forall_app in H1 as [Ha Hb]. inversion Hb; subst. by apply Forall_app.
  - by apply StronglySorted_remove in H2 as [? _].
Qed.

Lemma queue_le_total objs a b : queue_le objs a b = true \/ queue_le objs b a = true.
Proof. apply pair_leb_total. Qed.
Lemma queue_le_trans objs a b c : queue_le objs a b = true -> queue_le objs b c = true -> queue_le objs a c = true.
Proof. apply pair_leb_trans. Qed.

Lemma enqueue_ok s r uuid : str_truthy uuid = true -> sched_ok s -> sched_ok (enqueue s r uuid).1.
Proof.
  intros Hu Hok. unfold enqueue. destruct (objects s !! r) as [j|] eqn:Hr; [|done].
  destruct (existing_job _ _); [done|]. simpl. set (jid := if str_truthy (job_id j) then _ else _).
  assert (Hjid : str_truthy jid = true) by (unfold jid; by destruct (str_truthy (job_id j)) eqn:E).
  destruct Hok as [H1 H2 H3 H4].
  assert (Hlt : (r < length (objects s))%nat) by (by eapply lookup_lt_Some).
  constructor; simpl.
  - unfold requeue_sort. rewrite sort_by_perm. apply Forall_app. split.
    + eapply Forall_impl; [exact H1|]. intros x Hx. by rewrite list_lookup_insert_is_Some.
    + repeat constructor. by rewrite list_lookup_insert_eq.
  - apply sort_by_sorted; [apply queue_le_total|apply queue_le_trans].
  - intros x r'. destruct (decide (jid = x)) as [<-|Hne].
    + rewrite dget_dset_eq. intros [= <-]. rewrite list_lookup_insert_eq by done. eauto.
    + rewrite dget_dset_ne by done. intros Hx. destruct (H3 _ _ Hx) as (j' & Hj' & Hid & Ht).
      destruct (decide (r = r')) as [<-|Hne'].
      * simplify_eq. exfalso. apply Hne. unfold jid. by rewrite Ht.
      * rewrite list_lookup_insert_ne by done. eauto.
  - intros k x Hk. assert (Hdom : is_Some (dget (jobs s) x) \/ x = jid).
    { destruct (opt_truthy (idempotency_key j)) as [k'|]; [|eauto].
      destruct (decide (k' = k)) as [<-|Hne].
      - rewrite dget_dset_eq in Hk. simplify_eq. by right.
      - rewrite dget_dset_ne in Hk by done. eauto. }
    destruct (decide (jid = x)) as [<-|Hne]; [rewrite dget_dset_eq; eauto|].
    rewrite dget_dset_ne by done. destruct Hdom; [done|congruence].
Qed.

Lemma sexec_ok s op : sop_ok op -> sched_ok s -> sched_ok (sexec s op).
Proof.
  destruct op as [j|r u| |jid now|jid res now|jid err now|jid now|r o ttl now|r o|now]; simpl; intros Hop Hok.
  - eapply sched_ok_objects; [..|exact Hok]; simpl; auto using keeps_core_app.
  - by apply enqueue_ok.
  - by apply dequeue_ok.
  - by apply mark_running_ok.
  - unfold mark_done. case_match; [|done]. by apply finish_ok.
  - unfold mark_failed. case_match; [|done]. by apply finish_ok.
  - unfold cancel. repeat case_match; try done. by apply finish_ok.
  - eapply sched_ok_objects; [..|exact Hok]; unfold acquire_lock; repeat case_match; simpl; auto using keeps_core_refl.
  - eapply sched_ok_objects; [..|exact Hok]; unfold release_lock; repeat case_match; simpl; auto using keeps_core_refl.
  - eapply sched_ok_objects; [..|exact Hok]; simpl; auto using keeps_core_refl.
Qed.

Lemma srun_ok s ops : Forall sop_ok ops -> sched_ok s -> sched_ok (fold_left sexec ops s).
Proof. intros H. revert s. induction H; simpl; intros s Hs; auto using sexec_ok. Qed.

Lemma init_ok : sched_ok scheduler_init.
Proof. constructor; simpl; try constructor; done. Qed.

(** ** Deduplication *)

Lemma existing_job_mapped s key k jid :
  sched_ok s -> opt_truthy key = Some k -> dget (idempotency_map s) k = Some jid ->
  exists r, existing_job s key = Some r /\ dget (jobs s) jid = Some r.
Proof.
  intros Hok Hkey Hk. unfold existing_job. rewrite Hkey. simpl. rewrite Hk. simpl.
  destruct (ok_idem _ Hok _ _ Hk) as [r Hr]. eauto.
Qed.

Lemma idem_stable s op k jid :
  dget (idempotency_map s) k = Some jid -> sched_ok s -> dget (idempotency_map (sexec s op)) k = Some jid.
Proof.
  intros Hk Hok. assert (Hfin : forall jid' r f, idempotency_map (finish s jid' r f) = idempotency_map s).
  { intros. unfold finish, free_key. by repeat case_match. }
  destruct op as [|r uuid| | | | | | | |]; simpl;
    [done| |unfold dequeue, mark_running, mark_done, mark_failed, cancel, acquire_lock, release_lock;
            repeat case_match; simpl; by rewrite ?Hfin..].
  unfold enqueue. destruct (objects s !! r) as [j|]; [|done]. destruct (existing_job _ _) eqn:He; [done|]. simpl.
  destruct (opt_truthy (idempotency_key j)) as [k'|] eqn:Hkey; [|done].
  rewrite dget_dset_ne; [done|]. intros ->.
  destruct (existing_job_mapped s _ _ _ Hok Hkey Hk) as (r' & E & _). congruence.
Qed.

Lemma srun_idem_stable s ops k jid :
  Forall sop_ok ops -> sched_ok s -> dget (idempotency_map s) k = Some jid ->
  dget (idempotency_map (fold_left sexec ops s)) k = Some jid.
Proof.
  intros H. revert s. induction H as [|op ops Hop Hops IH]; simpl; intros s Hok Hk; [done|].
  apply IH; auto using sexec_ok, idem_stable.
Qed.

Lemma enqueue_maps_key s r uuid j k :
  sched_ok s -> str_truthy uuid = true -> objects s !! r = Some j -> opt_truthy (idempotency_key j) = Some k ->
  let '(s', r') := enqueue s r uuid in
  exists jid, dget (idempotency_map s') k = Some jid /\ dget (jobs s') jid = Some r'.
Proof.
  intros Hok Hu Hr Hkey. unfold enqueue. rewrite Hr. destruct (existing_job s _) as [r'|] eqn:He.
  - unfold existing_job in He. rewrite Hkey in He. simpl in He.
    destruct (dget (idempotency_map s) k) as [jid|] eqn:Hk; [|done]. simpl in He. eauto.
  - rewrite Hkey. eexists. simpl. split; apply dget_dset_eq.
Qed.

(** One idempotency key, one job.  Once a job has been enqueued under a
    key, whatever calls follow - dequeues, completions, failures and
    cancellations included - enqueueing any job with that key creates nothing:
    it returns the job stored under the first one's id and leaves the
    scheduler unchanged. *)
Theorem enqueue_deduplicates ops1 ops2 r1 uuid1 j1 r2 uuid2 j2 k :
  Forall sop_ok (ops1 ++ SEnqueue r1 uuid1 :: ops2) ->
  let s1 := fold_left sexec ops1 scheduler_init in
  let '(s1', first) := enqueue s1 r1 uuid1 in
  let s2 := fold_left sexec ops2 s1' in
  objects s1 !! r1 = Some j1 -> opt_truthy (idempotency_key j1) = Some k ->
  objects s2 !! r2 = Some j2 -> opt_truthy (idempotency_key j2) = Some k ->
  exists jid ref, dget (jobs s1') jid = Some first /\ dget (jobs s2) jid = Some ref /\
    enqueue s2 r2 uuid2 = (s2, ref).
Proof.
  intros Hops s1. apply Forall_app in Hops as [Hops1 Hops2]. inversion Hops2 as [|? ? Hu Hops2']; subst.
  assert (Hok1 : sched_ok s1) by (by apply srun_ok, init_ok).
  destruct (enqueue s1 r1 uuid1) as [s1' first] eqn:He. intros s2 Hr1 Hk1 Hr2 Hk2.
  pose proof (enqueue_maps_key s1 r1 uuid1 j1 k Hok1 Hu Hr1 Hk1) as Hm. rewrite He in Hm.
  destruct Hm as (jid & Hi & Hf). pose proof (enqueue_ok s1 r1 uuid1 Hu Hok1) as Hok1'. rewrite He in Hok1'.
  pose proof (srun_idem_stable _ ops2 _ _ Hops2' Hok1' Hi) as Hi2.
  assert (Hok2 : sched_ok s2) by (by apply srun_ok).
  destruct (existing_job_mapped s2 _ _ _ Hok2 Hk2 Hi2) as (ref & E & Href).
  exists jid, ref. split_and!; [done..|]. unfold enqueue. by rewrite Hr2, E.
Qed.

(** ** The order of the queue *)

(** A job may be started: it is pending, and nothing is registered as running
    under its serialization key, if it has one. *)
Definition ready (s : Scheduler) (j : Job) : Prop :=
  job_status j = JPENDING /\ forall k, serialization_key j = Some k -> k <> "" -> dget (running s) k = None.

(** [j] is to be served no later than [other]: the greater priority number
    first, then the older job. *)
Definition served_before (j other : Job) : Prop :=
  priority other < priority j \/ (priority other = priority j /\ job_created_at j <= job_created_at other).

Lemma eligible_ready s r j : objects s !! r = Some j -> eligible s r = true <-> ready s j.
Proof.
  intros Hr. unfold eligible, ready. rewrite Hr, andb_true_iff, bool_decide_eq_true, negb_true_iff. apply and_iff_compat_l.
  unfold dmem. split.
  - intros H k Hk Hne. rewrite (proj2 (opt_truthy_Some (serialization_key j) k)) in H by done. by destruct (dget (running s) k).
  - intros H. destruct (opt_truthy (serialization_key j)) as [k|] eqn:E; [|done].
    apply opt_truthy_Some in E as [E Hne]. by rewrite (H k E Hne).
Qed.

Lemma sort_key_served objs r x j other :
  objs !! r = Some j -> objs !! x = Some other -> queue_le objs r x = true -> served_before j other.
Proof.
  intros Hr Hx. unfold queue_le, sort_key, served_before. rewrite Hr, Hx. unfold pair_leb. simpl. intros H.
  repeat case_match; bool_to_prop; lia.
Qed.

(** C12: [dequeue] serves the queue by priority.  In every state the calls can
    reach it returns [None], and changes nothing, exactly when no queued job is
    ready (pending, with nothing running under its serialization key);
    otherwise it takes one ready job out of the queue and changes nothing else,
    and every other ready job in the queue has a smaller priority number, or
    the same and was not created earlier. *)
Theorem dequeue_serves_best ops :
  Forall sop_ok ops ->
  let s := fold_left sexec ops scheduler_init in
  match dequeue s with
  | (s', None) => s' = s /\ forall x j, x ∈ queue s -> objects s !! x = Some j -> ~ ready s j
  | (s', Some r) =>
      exists j pre post, objects s !! r = Some j /\ ready s j /\ queue s = pre ++ r :: post /\
        s' = mkScheduler (objects s) (pre ++ post) (jobs s) (running s) (locks s) (idempotency_map s) /\
        forall x other, x ∈ queue s -> objects s !! x = Some other -> ready s other -> served_before j other
  end.
Proof.
  intros Hops s. assert (Hok : sched_ok s) by (by apply srun_ok, init_ok).
  unfold dequeue. pose proof (take_first_spec (eligible s) (queue s)) as Ht.
  destruct (take_first _ _) as [[r rest]|].
  2:{ split; [done|]. intros x j Hx Hj Hready%(eligible_ready _ _ _ Hj). rewrite Forall_forall in Ht.
      by rewrite (Ht x Hx) in Hready. }
  destruct Ht as (pre & post & Hq & -> & Hr & Hpre). destruct (objects s !! r) as [j|] eqn:Hj;
    [|unfold eligible in Hr; by rewrite Hj in Hr].
  exists j, pre, post. split_and!; [done|by apply (eligible_ready s r)|done|done|].
  intros x other Hx Ho Hready%(eligible_ready _ _ _ Ho). apply (sort_key_served (objects s) r x); [done|done|].
  pose proof (ok_sorted _ Hok) as Hs. rewrite Hq in Hs, Hx.
  apply StronglySorted_remove in Hs as [_ Hpost]. rewrite Forall_forall in Hpre, Hpost.
  apply elem_of_app in Hx as [Hx|[->|Hx]%elem_of_cons]; [by rewrite (Hpre _ Hx) in Hready| |by apply Hpost].
  by destruct (queue_le_total (objects s) r r).
Qed.

(** ** Locks *)

(** Calls that leave a lock held by [owner] until [e] alone: the clock is
    before [e], and [owner] itself neither releases nor refreshes it. *)
Definition quiet (resource owner : string) (e : Z) (op : SOp) : Prop :=
  match op with
  | SAcquire r o _ now => r = resource -> o <> owner /\ now < e
  | SRelease r o => r = resource -> o <> owner
  | SRecover now => now < e
  | _ => True
  end.

Lemma ddel_fold_keep {V} (d : dict string V) ks k : k ∉ ks -> dget (fold_left ddel ks d) k = dget d k.
Proof.
  revert d. induction ks as [|x ks IH]; intros d Hk; simpl; [done|].
  rewrite IH by set_solver. apply dget_ddel_ne. set_solver.
Qed.

Lemma locks_finish s jid r f : locks (finish s jid r f) = locks s.
Proof. unfold finish, free_key. by repeat case_match. Qed.

Definition locks_unique (s : Scheduler) : Prop := NoDup (dkeys (locks s)).

Lemma fold_ddel_NoDup {V} (d : dict string V) ks : NoDup (dkeys d) -> NoDup (dkeys (fold_left ddel ks d)).
Proof. revert d. induction ks; simpl; intros d Hd; auto with openpine. Qed.

Lemma locks_unique_exec s op : locks_unique s -> locks_unique (sexec s op).
Proof.
  unfold locks_unique. intros H. destruct op; simpl; try done; unfold enqueue, dequeue, mark_running, mark_done,
    mark_failed, cancel, acquire_lock, release_lock; repeat case_match; simpl; rewrite ?locks_finish;
    auto using fold_ddel_NoDup with openpine.
Qed.

Lemma locks_unique_run s ops : locks_unique s -> locks_unique (fold_left sexec ops s).
Proof. revert s. induction ops; simpl; auto using locks_unique_exec. Qed.

Lemma quiet_exec s op r o e :
  locks_unique s -> dget (locks s) r = Some (o, e) -> quiet r o e op -> dget (locks (sexec s op)) r = Some (o, e).
Proof.
  intros Hu Hl Hq. destruct op as [| | | | | | |r' o' ttl now|r' o'|now]; simpl in *;
    [done|by unfold enqueue, dequeue, mark_running, mark_done, mark_failed, cancel; repeat case_match; simpl;
       rewrite ?locks_finish..| | |].
  - unfold acquire_lock. destruct (decide (r' = r)) as [->|Hne].
    + destruct (Hq eq_refl) as [Ho Hn]. rewrite Hl, bool_decide_false, (proj2 (Z.ltb_lt _ _)) by congruence.
      done.
    + repeat case_match; simpl; try rewrite dget_dset_ne; done.
  - unfold release_lock. destruct (decide (r' = r)) as [->|Hne].
    + rewrite Hl. rewrite bool_decide_false by (intros ->; by apply Hq). done.
    + repeat case_match; simpl; try rewrite dget_ddel_ne; done.
  - rewrite ddel_fold_keep; [done|]. unfold dkeys. rewrite list_elem_of_fmap. intros ([k [o' e']] & Heq & Hin).
    apply list_elem_of_In, filter_In in Hin as [Hin He]. simpl in *. subst k. bool_to_prop.
    apply list_elem_of_In, (elem_dget _ _ _ Hu) in Hin. simplify_eq. lia.
Qed.

(** Locks exclude.  When [owner] acquires a resource for [ttl] seconds,
    then through any calls before the expiry that are not its own release or
    refresh - recovery of stale locks included - every other owner is refused
    without effect, and from the expiry on any owner is granted the lock. *)
Theorem lock_excludes ops0 ops resource owner ttl now s1 other ttl' now' :
  let s := fold_left sexec ops0 scheduler_init in
  let e := now + ttl * 1000 in
  acquire_lock s resource owner ttl now = (s1, true) ->
  Forall (quiet resource owner e) ops -> other <> owner ->
  let s2 := fold_left sexec ops s1 in
  (now' < e -> acquire_lock s2 resource other ttl' now' = (s2, false)) /\
  (e <= now' -> (acquire_lock s2 resource other ttl' now').2 = true).
Proof.
  intros s e Ha Hq Ho s2.
  assert (Hu : locks_unique s) by (apply locks_unique_run; constructor).
  assert (H1 : locks_unique s1 /\ dget (locks s1) resource = Some (owner, e)).
  { pose proof (locks_unique_exec s (SAcquire resource owner ttl now) Hu) as Hu1. simpl in Hu1. rewrite Ha in Hu1.
    split; [done|]. unfold acquire_lock in Ha. repeat case_match; simplify_eq/=; by rewrite dget_dset_eq. }
  assert (H2 : dget (locks s2) resource = Some (owner, e)).
  { unfold s2. clear Ha s2. revert s1 H1. induction Hq as [|op ops Hop _ IH]; intros s1 [Hu1 Hl]; simpl; [done|].
    apply IH. split; [by apply locks_unique_exec|by apply quiet_exec]. }
  unfold acquire_lock. rewrite H2, bool_decide_false by congruence.
  split; intros Hn; [by rewrite (proj2 (Z.ltb_lt _ _))|]. by rewrite (proj2 (Z.ltb_ge _ _)).
Qed.

(** ** Serialization by key *)

(** The disciplined use: new pending jobs under fresh ids, and a job taken
    from the queue marked running in the same atomic step. *)
Definition take (s : Scheduler) (now : Z) : Scheduler :=
  let '(s', r) := dequeue s in
  match r with
  | Some ref => match objects s' !! ref with Some j => mark_running s' (job_id j) now | None => s' end
  | None => s'
  end.

Definition add_job (s : Scheduler) (j : Job) : Scheduler :=
  let '(s', ref) := new_job s j in (enqueue s' ref "").1.

Inductive astep : Scheduler -> Scheduler -> Prop :=
| a_add s j :
    job_status j = JPENDING -> str_truthy (job_id j) = true -> dget (jobs s) (job_id j) = None ->
    astep s (add_job s j)
| a_take s now : astep s (take s now)
| a_done s jid res now : astep s (mark_done s jid res now)
| a_failed s jid err now : astep s (mark_failed s jid err now)
| a_cancel s jid now : astep s (cancel s jid now).

(** Every running job holds its key; every queued job is the one stored under
    its id. *)
Record serial_ok (s : Scheduler) : Prop := mk_serial_ok {
  ser_holds : forall jid r j k, dget (jobs s) jid = Some r -> objects s !! r = Some j -> job_status j = JRUNNING ->
    opt_truthy (serialization_key j) = Some k -> dget (running s) k = Some jid;
  ser_queue : forall r, r ∈ queue s -> exists j, objects s !! r = Some j /\ dget (jobs s) (job_id j) = Some r;
  ser_jobs : forall jid r, dget (jobs s) jid = Some r -> exists j, objects s !! r = Some j /\ job_id j = jid
}.

Lemma serial_finish s jid r f :
  (forall j, core (f j) = core j /\ job_status (f j) <> JRUNNING) -> dget (jobs s) jid = Some r ->
  serial_ok s -> serial_ok (finish s jid r f).
Proof.
  intros Hf Hr [H1 H2 H3]. destruct (H3 _ _ Hr) as (j & Hj & Hid). unfold finish. rewrite Hj.
  set (s1 := update_object s r f).
  assert (Hkeep : keeps_core (objects s) (objects s1)) by (apply keeps_core_alter; intros; apply Hf).
  assert (Hrun : forall jid' r' j' k, dget (jobs s) jid' = Some r' -> objects s1 !! r' = Some j' ->
    job_status j' = JRUNNING -> opt_truthy (serialization_key j') = Some k -> dget (running s) k = Some jid' /\ r' <> r).
  { intros jid' r' j' k Hr' Hj' Hst Hk. unfold s1 in Hj'. simpl in Hj'. destruct (decide (r = r')) as [<-|Hne].
    - rewrite list_lookup_alter_eq, Hj in Hj'. simplify_eq/=. by destruct (Hf j).
    - rewrite list_lookup_alter_ne in Hj' by done. split; [by eapply H1|done]. }
  assert (Hfree : objects (free_key s1 jid (serialization_key j)) = objects s1 /\
    queue (free_key s1 jid (serialization_key j)) = queue s /\ jobs (free_key s1 jid (serialization_key j)) = jobs s).
  { unfold free_key. by repeat case_match. }
  destruct Hfree as (Ho & Hq & Hjb). constructor; rewrite ?Ho, ?Hq, ?Hjb.
  - intros jid' r' j' k Hr' Hj' Hst Hk. destruct (Hrun _ _ _ _ Hr' Hj' Hst Hk) as [Hd Hne].
    unfold free_key. destruct (opt_truthy (serialization_key j)) as [k'|]; [|done]. case_bool_decide as Hb; [|done].
    simpl in *. rewrite dget_ddel_ne; [done|]. intros ->. rewrite Hb in Hd. simplify_eq.
  - intros x Hx. destruct (H2 _ Hx) as (jx & Hjx & Hd). destruct (Hkeep _ _ Hjx) as (jx' & Hjx' & Hc).
    unfold core in Hc. simplify_eq. exists jx'. split; [done|congruence].
  - intros jid' r' Hr'. destruct (H3 _ _ Hr') as (jx & Hjx & Hd). destruct (Hkeep _ _ Hjx) as (jx' & Hjx' & Hc).
    unfold core in Hc. simplify_eq. exists jx'. split; [done|congruence].
Qed.

Lemma serial_add s j :
  job_status j = JPENDING -> str_truthy (job_id j) = true -> dget (jobs s) (job_id j) = None ->
  serial_ok s -> serial_ok (add_job s j).
Proof.
  intros Hst Hid Hfresh [H1 H2 H3]. unfold add_job. simpl. unfold enqueue. simpl.
  rewrite lookup_app_r, Nat.sub_diag by done. simpl.
  assert (Hold : forall r x, objects s !! r = Some x -> r <> length (objects s) /\ (objects s ++ [j]) !! r = Some x).
  { intros r x Hx. split; [apply lookup_lt_Some in Hx; lia|by apply lookup_app_l_Some]. }
  assert (Hnew : forall r x, (objects s ++ [j]) !! r = Some x -> r <> length (objects s) -> objects s !! r = Some x).
  { intros r x Hx Hne. apply lookup_app_Some in Hx as [Hx|[Hl Hx]]; [done|].
    destruct (r - length (objects s))%nat eqn:E; [lia|done]. }
  destruct (existing_job _ _); simpl.
  - constructor; simpl.
    + intros jid r x k Hr Hx. destruct (H3 _ _ Hr) as (y & Hy & _). apply Hnew in Hx; [eauto|].
      by eapply Hold.
    + intros r Hr. destruct (H2 _ Hr) as (y & Hy & Hd). exists y. split; [by apply Hold|done].
    + intros jid r Hr. destruct (H3 _ _ Hr) as (y & Hy & Hd). exists y. split; [by apply Hold|done].
  - rewrite Hid. set (objs := <[_ := _]> _).
    assert (Hobjs : objs = objects s ++ [j]).
    { unfold objs. rewrite insert_app_r_alt, Nat.sub_diag by done. simpl. by destruct j. }
    rewrite Hobjs. constructor; simpl.
    + intros jid r x k Hr Hx Hrun Hk. destruct (decide (job_id j = jid)) as [<-|Hne].
      * rewrite dget_dset_eq in Hr. simplify_eq. rewrite lookup_app_r, Nat.sub_diag in Hx by done. simplify_eq/=. congruence.
      * rewrite dget_dset_ne in Hr by done. destruct (H3 _ _ Hr) as (y & Hy & _).
        apply Hnew in Hx; [exact (H1 _ _ _ _ Hr Hx Hrun Hk)|by eapply Hold].
    + intros r. unfold requeue_sort. rewrite elem_of_sort_by, elem_of_app, list_elem_of_singleton. intros [Hr| ->].
      * destruct (H2 _ Hr) as (y & Hy & Hd). exists y. split; [by apply Hold|].
        rewrite dget_dset_ne; [done|]. intros E. congruence.
      * exists j. rewrite lookup_app_r, Nat.sub_diag by done. by rewrite dget_dset_eq.
    + intros jid r Hr. destruct (decide (job_id j = jid)) as [<-|Hne].
      * rewrite dget_dset_eq in Hr. simplify_eq. exists j. by rewrite lookup_app_r, Nat.sub_diag by done.
      * rewrite dget_dset_ne in Hr by done. destruct (H3 _ _ Hr) as (y & Hy & Hd). exists y. split; [by apply Hold|done].
Qed.

Lemma serial_mark_running s r j now :
  eligible s r = true -> objects s !! r = Some j -> dget (jobs s) (job_id j) = Some r ->
  serial_ok s -> serial_ok (mark_running s (job_id j) now).
Proof.
  intros Hel Hj Hr [H1 H2 H3]. unfold eligible in Hel. rewrite Hj in Hel. bool_to_prop.
  unfold mark_running. rewrite Hr. set (s1 := update_object s r (set_running now)).
  assert (Hkeep : keeps_core (objects s) (objects s1)) by (by apply keeps_core_alter).
  assert (Hs1 : objects s1 !! r = Some (set_running now j)).
  { unfold s1. simpl. by rewrite list_lookup_alter_eq, Hj. }
  rewrite Hs1. simpl.
  assert (Hgoal : forall run, (forall k v, opt_truthy (serialization_key j) <> Some k -> dget (running s) k = Some v -> dget run k = Some v) ->
    (forall k, opt_truthy (serialization_key j) = Some k -> dget run k = Some (job_id j)) -> serial_ok (with_running s1 run)).
  { intros run Hother Hown. constructor; simpl.
    - intros jid x jx k Hx Hjx Hst Hk. destruct (decide (r = x)) as [<-|Hne].
      + change (alter (set_running now) r (objects s)) with (objects s1) in Hjx. rewrite Hs1 in Hjx. simplify_eq.
        simpl in Hk. destruct (H3 _ _ Hx) as (y & Hy & Hid). simplify_eq. by apply Hown.
      + rewrite list_lookup_alter_ne in Hjx by done. pose proof (H1 _ _ _ _ Hx Hjx Hst Hk) as Hheld.
        apply Hother; [|done]. intros E. rewrite E in *. unfold dmem in *. by rewrite Hheld in *.
    - intros x Hx. destruct (H2 _ Hx) as (y & Hy & Hd). destruct (Hkeep _ _ Hy) as (y' & Hy' & Hc).
      unfold core in Hc. simplify_eq. exists y'. split; [done|congruence].
    - intros jid x Hx. destruct (H3 _ _ Hx) as (y & Hy & Hd). destruct (Hkeep _ _ Hy) as (y' & Hy' & Hc).
      unfold core in Hc. simplify_eq. exists y'. split; [done|congruence]. }
  destruct (opt_truthy (serialization_key j)) as [k|] eqn:Hk; simpl.
  - apply Hgoal; [|intros k' [= <-]; by rewrite dget_dset_eq].
    intros k' v Hne Hv. rewrite dget_dset_ne; [done|congruence].
  - change s1 with (with_running s1 (running s)). apply Hgoal; [by intros|by intros].
Qed.

Lemma serial_take s now : serial_ok s -> serial_ok (take s now).
Proof.
  intros Hok. unfold take, dequeue. pose proof (take_first_spec (eligible s) (queue s)) as Ht.
  destruct (take_first _ _) as [[r rest]|]; [|done]. destruct Ht as (pre & post & Hq & -> & Hr & _). simpl.
  destruct (ser_queue _ Hok r) as (j & Hj & Hd); [rewrite Hq; set_solver|]. rewrite Hj.
  apply serial_mark_running with (r := r); try done. destruct Hok as [H1 H2 H3]. constructor; simpl; try done.
  intros x Hx. apply H2. rewrite Hq. set_solver.
Qed.

Lemma serial_step s s' : astep s s' -> serial_ok s -> serial_ok s'.
Proof.
  destruct 1 as [s j|s now|s jid res now|s jid err now|s jid now]; intros Hok.
  - by apply serial_add.
  - by apply serial_take.
  - unfold mark_done. case_match; [|done]. by apply serial_finish.
  - unfold mark_failed. case_match; [|done]. by apply serial_finish.
  - unfold cancel. repeat case_match; try done. by apply serial_finish.
Qed.

Lemma serial_reachable s s' : rtc astep s s' -> serial_ok s -> serial_ok s'.
Proof. induction 1; eauto using serial_step. Qed.

(** Parallelism only across keys.  If every job taken from the queue is
    marked running before the next one is taken, then in every reachable
    state two running jobs with the same serialization key are the same job. *)
Theorem serialization_when_atomic s jid1 jid2 r1 r2 j1 j2 k :
  rtc astep scheduler_init s ->
  dget (jobs s) jid1 = Some r1 -> objects s !! r1 = Some j1 -> job_status j1 = JRUNNING ->
  dget (jobs s) jid2 = Some r2 -> objects s !! r2 = Some j2 -> job_status j2 = JRUNNING ->
  opt_truthy (serialization_key j1) = Some k -> opt_truthy (serialization_key j2) = Some k ->
  jid1 = jid2.
Proof.
  intros Hr. assert (Hok : serial_ok s) by (eapply serial_reachable; [exact Hr|]; constructor; simpl; [done|set_solver|done]).
  intros ? ? ? ? ? ? Hk1 Hk2. pose proof (ser_holds _ Hok jid1 r1 j1 k) as E1.
  pose proof (ser_holds _ Hok jid2 r2 j2 k) as E2. rewrite E1 in E2 by done. by injection E2 as ->.
Qed.

(** ** Witnesses and counterexamples *)

Definition w_job (jid : string) (key : option string) (prio : Z) : Job :=
  mkJob BACKTEST jid None JPENDING key (Some "strat") prio 1 1 None None None None None None None 1 3.

(** Two workers that dequeue before either marks its job. *)
Definition w_race : list SOp :=
  [SNew (w_job "j1" None 0); SNew (w_job "j2" None 0); SEnqueue 0 "u"; SEnqueue 1 "u";
   SDequeue; SDequeue; SRunning "j1" 5; SRunning "j2" 6].

(** [dequeue] alone does not serialize: two dequeues before the first
    [mark_running] hand out two jobs of one key, and both are then running at
    once. *)
Theorem dequeue_alone_races :
  let s := fold_left sexec w_race scheduler_init in
  option_map job_status (get_job s "j1") = Some JRUNNING /\
  option_map job_status (get_job s "j2") = Some JRUNNING /\
  option_map serialization_key (get_job s "j1") = option_map serialization_key (get_job s "j2").
Proof. vm_compute. done. Qed.

(** A cancelled job does not stay cancelled: a worker that reports
    completion afterwards makes it DONE, or FAILED. *)
Theorem completion_overwrites_cancel s jid r j now res err now' :
  dget (jobs s) jid = Some r -> objects s !! r = Some j -> job_terminal (job_status j) = false ->
  let s' := cancel s jid now in
  option_map job_status (get_job s' jid) = Some JCANCELLED /\
  option_map job_status (get_job (mark_done s' jid res now') jid) = Some JDONE /\
  option_map job_status (get_job (mark_failed s' jid err now') jid) = Some JFAILED.
Proof.
  intros Hr Hj Ht.
  assert (Hfin : forall s f, dget (jobs s) jid = Some r -> forall j, objects s !! r = Some j ->
    dget (jobs (finish s jid r f)) jid = Some r /\ objects (finish s jid r f) !! r = Some (f j)).
  { clear. intros s f Hr j Hj. unfold finish, free_key. rewrite Hj.
    repeat case_match; simpl; by rewrite list_lookup_alter_eq, Hj. }
  unfold cancel, mark_done, mark_failed, get_job. rewrite Hr, Hj, Ht. simpl.
  destruct (Hfin s (fun j => set_finished JCANCELLED (job_error j) (job_result j) now j) Hr j Hj) as [Hr' Hj'].
  rewrite Hr'. simpl. rewrite Hj'. simpl. split; [done|].
  split; match goal with |- context [finish _ _ _ ?f] =>
    destruct (Hfin _ f Hr' _ Hj') as [-> E]; simpl; by rewrite E end.
Qed.

Lemma enqueue_deduplicates_witness :
  let s1' := (enqueue (new_job scheduler_init (w_job "j1" (Some "k") 0)).1 0 "u").1 in
  let s2 := (new_job (mark_done s1' "j1" None 9) (w_job "j2" (Some "k") 7)).1 in
  enqueue s2 1 "u2" = (s2, 0%nat).
Proof.
  cbv zeta.
  destruct (enqueue_deduplicates [SNew (w_job "j1" (Some "k") 0)] [SDone "j1" None 9; SNew (w_job "j2" (Some "k") 7)]
    0 "u" (w_job "j1" (Some "k") 0) 1 "u2" (w_job "j2" (Some "k") 7) "k") as (jid & ref & H1 & H2 & H3);
    [repeat constructor|reflexivity..|].
  transitivity ((fold_left sexec [SDone "j1" None 9; SNew (w_job "j2" (Some "k") 7)]
    (enqueue (new_job scheduler_init (w_job "j1" (Some "k") 0)).1 0 "u").1), ref); [exact H3|].
  vm_compute in H3. injection H3 as <-. reflexivity.
Defined.

Definition w_two : list SOp := [SNew (w_job "a" None 0); SNew (w_job "b" None 5); SEnqueue 0 "u"; SEnqueue 1 "u"].

Lemma dequeue_serves_best_witness :
  let s := fold_left sexec w_two scheduler_init in
  exists j, (dequeue s).2 = Some 1%nat /\ objects s !! 1%nat = Some j /\ ready s j /\
    forall x other, x ∈ queue s -> objects s !! x = Some other -> ready s other -> served_before j other.
Proof.
  pose proof (dequeue_serves_best w_two ltac:(repeat constructor)) as H. cbv zeta in H.
  assert (E : (dequeue (fold_left sexec w_two scheduler_init)).2 = Some 1%nat) by reflexivity.
  destruct (dequeue (fold_left sexec w_two scheduler_init)) as [s' o]. cbn [snd] in E. subst o.
  destruct H as (j & pre & post & H1 & H2 & _ & _ & H3). exists j. split; [reflexivity|]. split; [exact H1|]. split; [exact H2|exact H3].
Defined.

Lemma lock_excludes_witness :
  let s1 := (acquire_lock scheduler_init "r" "a" 60 0).1 in
  let s2 := (recover_stale_locks s1 59999).1 in
  acquire_lock s2 "r" "b" 60 59999 = (s2, false).
Proof.
  apply (lock_excludes [] [SRecover 59999] "r" "a" 60 0 _ "b" 60 59999 eq_refl);
    [repeat constructor|discriminate|lia].
Defined.

Lemma serialization_when_atomic_witness :
  let s := take (add_job (add_job scheduler_init (w_job "j1" None 0)) (w_job "j2" None 0)) 5 in
  option_map job_status (get_job s "j1") = Some JRUNNING /\ "j1" = "j1".
Proof.
  split; [reflexivity|].
  eapply (serialization_when_atomic (take (add_job (add_job scheduler_init (w_job "j1" None 0)) (w_job "j2" None 0)) 5)
    "j1" "j1" 0 0); [|reflexivity..].
  eapply rtc_l; [apply (a_add _ (w_job "j1" None 0)); reflexivity|].
  eapply rtc_l; [apply (a_add _ (w_job "j2" None 0)); reflexivity|]. eapply rtc_l; [apply (a_take _ 5)|]. apply rtc_refl.
Defined.

Lemma completion_overwrites_cancel_witness :
  let s := add_job scheduler_init (w_job "j1" None 0) in
  option_map job_status (get_job (mark_done (cancel s "j1" 5) "j1" None 6) "j1") = Some JDONE.
Proof.
  apply (completion_overwrites_cancel (add_job scheduler_init (w_job "j1" None 0)) "j1" 0 (w_job "j1" None 0) 5 None "" 6);
    reflexivity.
Defined.
