(* ===== verification/Workers.v ===== *)
(** Retry policy and worker pools: [openpine/jobs/retry.py] and
    [openpine/workers/pool.py].

    [float ** int] is the C library's [pow]: it is the parameter [fpow]
    ([None] is Python's [OverflowError]), with what is documented of powers of
    two as hypotheses. *)

From Stdlib Require Import Floats.SpecFloat.
From S2P Require Import Prelude PyFloat.

(** ** Retry *)

Record RetryPolicy := mkRetryPolicy {
  max_attempts : Z;
  base_delay_seconds : float;
  backoff_multiplier : float;
  max_delay_seconds : float
}.

Definition default_policy : RetryPolicy :=
  mkRetryPolicy 3 (float_of_Z 1) (float_of_Z 2) (float_of_Z 60).

Inductive retry_error := PowOverflow.

Section Retry.
Variable fpow : float -> Z -> option float.

Definition get_delay (p : RetryPolicy) (attempt : Z) : result retry_error float :=
  if attempt <=? 0 then Ok f_zero
  else
    match fpow (backoff_multiplier p) (attempt - 1) with
    | None => Err PowOverflow
    | Some x => Ok (py_min (fmul (base_delay_seconds p) x) (max_delay_seconds p))
    end.

Definition should_retry (p : RetryPolicy) (attempt : Z) : bool := attempt <? max_attempts p.

(** [pow] on 2.0: exact while the result is a finite float, an error beyond. *)
Hypothesis fpow_two : forall n, 0 <= n < 1024 -> fpow (float_of_Z 2) n = Some (float_of_Z (2 ^ n)).
Hypothesis fpow_two_overflow : forall n, 1024 <= n -> fpow (float_of_Z 2) n = None.

(** The capped delays, evaluated for all 1024 exponents. *)
Lemma delays_table :
  forallb (fun i => feqb (py_min (fmul (float_of_Z 1) (float_of_Z (2 ^ Z.of_nat i))) (float_of_Z 60))
                      (float_of_Z (Z.min (2 ^ Z.of_nat i) 60)))
    (seq 0 1024) = true.
Proof. vm_compute. reflexivity. Qed.

(** The default policy backs off 1, 2, 4, 8, 16, 32 seconds and then stays
    at the cap of 60 - up to attempt 1024; from attempt 1025 on the delay is
    not the cap but an [OverflowError]. *)
Theorem default_backoff attempt :
  0 < attempt ->
  (attempt <= 1024 -> exists d, get_delay default_policy attempt = Ok d /\
     feqb d (float_of_Z (Z.min (2 ^ (attempt - 1)) 60)) = true) /\
  (1024 < attempt -> get_delay default_policy attempt = Err PowOverflow).
Proof.
  intros Ha. unfold get_delay. rewrite (proj2 (Z.leb_gt _ _)) by done. split; intros Hb; simpl.
  - rewrite fpow_two by lia. eexists. split; [done|].
    pose proof delays_table as Ht. rewrite forallb_forall in Ht.
    specialize (Ht (Z.to_nat (attempt - 1))). rewrite in_seq in Ht. specialize (Ht ltac:(lia)).
    rewrite Z2Nat.id in Ht by lia. exact Ht.
  - by rewrite fpow_two_overflow by lia.
Qed.

(** A job is retried exactly while attempts remain. *)
Lemma should_retry_spec p n : should_retry p n = true <-> n < max_attempts p.
Proof. apply Z.ltb_lt. Qed.

End Retry.

(** ** Worker pools *)

Inductive WorkerStatus := IDLE | BUSY | STOPPING | STOPPED.

Definition WorkerStatus_value (s : WorkerStatus) : string :=
  match s with IDLE => "idle" | BUSY => "busy" | STOPPING => "stopping" | STOPPED => "stopped" end.

Record WorkerState := mkWorkerState {
  ws_worker_id : string;
  ws_job_id : option string;
  last_heartbeat : Z;
  ws_status : string
}.

Record WorkerPool := mkWorkerPool {
  max_workers : Z;
  workers : dict string WorkerState;
  heartbeats : dict string Z;
  pool_running : bool;
  stop_event : bool
}.

Definition WorkerPool_init (max : Z) : WorkerPool := mkWorkerPool max [] [] false false.

Definition pool_start (p : WorkerPool) : WorkerPool :=
  mkWorkerPool (max_workers p) (workers p) (heartbeats p) true false.

Definition pool_stop (p : WorkerPool) : WorkerPool :=
  mkWorkerPool (max_workers p) (workers p) (heartbeats p) false true.

Definition worker_heartbeat (p : WorkerPool) (w : string) (now : Z) : WorkerPool :=
  mkWorkerPool (max_workers p)
    (match dget (workers p) w with
     | Some s => dset (workers p) w (mkWorkerState (ws_worker_id s) (ws_job_id s) now (ws_status s))
     | None => workers p
     end) (dset (heartbeats p) w now) (pool_running p) (stop_event p).

Definition register_worker (p : WorkerPool) (w : string) (now : Z) : WorkerPool :=
  mkWorkerPool (max_workers p) (dset (workers p) w (mkWorkerState w None now (WorkerStatus_value IDLE)))
    (dset (heartbeats p) w now) (pool_running p) (stop_event p).

(** [get_status]: running, max_workers, active_workers, heartbeats. *)
Definition pool_get_status (p : WorkerPool) : bool * Z * Z * dict string Z :=
  (pool_running p, max_workers p, Z.of_nat (length (workers p)), heartbeats p).

Inductive PoolOp :=
| PStart | PStop
| PHeartbeat (w : string) (now : Z)
| PRegister (w : string) (now : Z).

Definition pool_exec (p : WorkerPool) (op : PoolOp) : WorkerPool :=
  match op with
  | PStart => pool_start p
  | PStop => pool_stop p
  | PHeartbeat w now => worker_heartbeat p w now
  | PRegister w now => register_worker p w now
  end.

Definition registers (op : PoolOp) : option string :=
  match op with PRegister w _ => Some w | _ => None end.

Definition heartbeat_known (p : WorkerPool) : Prop :=
  forall w s, dget (workers p) w = Some s -> ws_worker_id s = w /\ dget (heartbeats p) w = Some (last_heartbeat s).

Lemma pool_exec_known p op : heartbeat_known p -> heartbeat_known (pool_exec p op).
Proof.
  intros H. destruct op as [| |w now|w now]; simpl; try exact H; intros w' s; simpl.
  - destruct (decide (w = w')) as [<-|Hne].
    + destruct (dget (workers p) w) as [s0|] eqn:E; intros Hw; [|congruence].
      rewrite dget_dset_eq in Hw. simplify_eq/=. rewrite dget_dset_eq. split; [|done]. by apply H.
    + rewrite (dget_dset_ne (heartbeats p)) by done. intros Hw. apply H.
      destruct (dget (workers p) w); [|done]. by rewrite dget_dset_ne in Hw.
  - destruct (decide (w = w')) as [<-|Hne].
    + rewrite !dget_dset_eq. intros ?. by simplify_eq.
    + rewrite !dget_dset_ne by done. apply H.
Qed.

(** The pool's two records of a worker's heartbeat agree: after any calls,
    every registered worker's own [last_heartbeat] is its entry in the table
    [get_status] reports. *)
Theorem heartbeats_agree ops max w s :
  let p := fold_left pool_exec ops (WorkerPool_init max) in
  dget (workers p) w = Some s ->
  dget ((pool_get_status p).2) w = Some (last_heartbeat s).
Proof.
  intros p. assert (H : heartbeat_known p).
  { unfold p. assert (H0 : heartbeat_known (WorkerPool_init max)) by (intros ? ?; done).
    clear p. revert H0. generalize (WorkerPool_init max). induction ops as [|op ops IH]; intros p Hp; simpl; [done|].
    apply IH. by apply pool_exec_known. }
  intros Hw. simpl. by apply H.
Qed.

(** ** Witnesses *)

Definition w_pow (x : float) (n : Z) : option float := if n <? 1024 then Some (float_of_Z (2 ^ n)) else None.

Lemma default_backoff_witness :
  (exists d, get_delay w_pow default_policy 4 = Ok d /\ feqb d (float_of_Z 8) = true) /\
  get_delay w_pow default_policy 1025 = Err PowOverflow.
Proof.
  assert (H1 : forall n, 0 <= n < 1024 -> w_pow (float_of_Z 2) n = Some (float_of_Z (2 ^ n))).
  { intros n Hn. unfold w_pow. rewrite (proj2 (Z.ltb_lt _ _)); [reflexivity|lia]. }
  assert (H2 : forall n, 1024 <= n -> w_pow (float_of_Z 2) n = None).
  { intros n Hn. unfold w_pow. rewrite (proj2 (Z.ltb_ge _ _)); [reflexivity|lia]. }
  split; [apply (default_backoff w_pow H1 H2 4)|apply (default_backoff w_pow H1 H2 1025)]; lia.
Defined.

Lemma heartbeats_agree_witness :
  dget ((pool_get_status (fold_left pool_exec [PRegister "w" 1; PHeartbeat "w" 7] (WorkerPool_init 4))).2) "w" = Some 7.
Proof. apply (heartbeats_agree [PRegister "w" 1; PHeartbeat "w" 7] 4 "w" (mkWorkerState "w" None 7 "idle") eq_refl). Defined.
