(* ===== verification/Coverage.v ===== *)
(** Coverage of bar series: the pure part of [openpine/data/orchestrator.py]
    ([_coverage_for], [_missing_intervals], [_coalesce_intervals],
    [_merge_series], [BarSeriesValidator]) and [duplicate_timestamps] of
    [openpine/data/row_helpers.py].

    [Bar], [BarQuery], [BarSeries] and [CoverageReport] are the contract types
    of the marketdata package: plain records, with the fields this code uses.
    A timeframe's duration, where it has one, is a positive number of
    milliseconds. *)

From S2P Require Import Prelude PyFloat.

Record Timeframe := mkTimeframe { canonical : string; duration_ms : option positive }.

Record Bar := mkBar {
  bar_time : Z;
  bar_time_close : Z;
  bar_open : float;
  bar_high : float;
  bar_low : float;
  bar_close : float;
  bar_volume : float;
  bar_closed : bool
}.

Record BarQuery := mkQuery {
  bq_exchange : string;
  bq_market : string;
  bq_symbol : string;
  bq_timeframe : Timeframe;
  start_ms : Z;
  end_ms : Z;
  bq_source : string;
  gap_policy : string
}.

Definition interval : Type := Z * Z.

Record CoverageReport := mkReport {
  requested_start_ms : Z;
  requested_end_ms : Z;
  delivered_start_ms : option Z;
  delivered_end_ms : option Z;
  missing_intervals : list interval;
  duplicate_ts : list Z;
  source_mix : list string;
  cov_status : string
}.

Record BarSeries := mkSeries { series_query : BarQuery; bars : list Bar; coverage : CoverageReport }.

Definition times (bs : list Bar) : list Z := bar_time <$> bs.

(** [duplicate_timestamps]: the loop over the bars, then the sorted set. *)
Definition dup_step (acc : gset Z * gset Z) (b : Bar) : gset Z * gset Z :=
  let '(seen, dups) := acc in
  ({[bar_time b]} ∪ seen, if bool_decide (bar_time b ∈ seen) then {[bar_time b]} ∪ dups else dups).

Definition duplicate_timestamps (bs : list Bar) : list Z :=
  sort_by Z.leb (elements (fold_left dup_step bs (∅, ∅)).2).

(** [range(start, end, d)] for a positive step. *)
Definition grid (start_ end_ : Z) (d : positive) : list Z :=
  (fun i => start_ + Z.of_nat i * Z.pos d) <$> seq 0 (Z.to_nat ((end_ - start_ + Z.pos d - 1) / Z.pos d)).

Definition missing_of (q : BarQuery) (bs : list Bar) : list interval :=
  match duration_ms (bq_timeframe q) with
  | None => []
  | Some d =>
      (fun s => (s, Z.min (s + Z.pos d) (end_ms q))) <$>
        List.filter (fun s => negb (bool_decide (s ∈ times bs))) (grid (start_ms q) (end_ms q) d)
  end.

Fixpoint strictly_increasing (ts : list Z) : bool :=
  match ts with
  | a :: (b :: _) as rest => (a <? b) && strictly_increasing rest
  | _ => true
  end.

Definition zmax_list (x : Z) (xs : list Z) : Z := fold_left Z.max xs x.

Definition coverage_for (q : BarQuery) (bs : list Bar) (source : string) : CoverageReport :=
  match bs with
  | [] => mkReport (start_ms q) (end_ms q) None None [(start_ms q, end_ms q)] [] [source] "empty"
  | b0 :: rest =>
      let dups := duplicate_timestamps bs in
      let ordered := strictly_increasing (times bs) in
      let missing := if ordered && bool_decide (dups = []) then missing_of q bs else [] in
      let status := if negb (bool_decide (dups = [])) then "duplicate"
                    else if negb ordered then "unordered"
                    else if negb (bool_decide (missing = [])) then "gap" else "valid" in
      mkReport (start_ms q) (end_ms q) (Some (bar_time b0))
        (Some (zmax_list (bar_time_close b0) (bar_time_close <$> rest))) missing dups [source] status
  end.

(** [_coalesce_intervals]: Python sorts the pairs lexicographically. *)
Fixpoint coalesce_loop (cs ce : Z) (xs : list interval) : list interval :=
  match xs with
  | [] => [(cs, ce)]
  | (s, e) :: xs' => if s <=? ce then coalesce_loop cs (Z.max ce e) xs' else (cs, ce) :: coalesce_loop s e xs'
  end.

Definition coalesce_intervals (xs : list interval) : list interval :=
  match sort_by pair_leb xs with
  | [] => []
  | (s, e) :: rest => coalesce_loop s e rest
  end.

(** [_merge_series]: a later bar of the same time replaces an earlier one. *)
Definition by_time (acc : dict Z Bar) (bs : list Bar) : dict Z Bar :=
  fold_left (fun d b => dset d (bar_time b) b) bs acc.

Definition sort_bars (bs : list Bar) : list Bar := sort_by (fun a b => bar_time a <=? bar_time b) bs.

Definition merge_bars (storage provider : list Bar) : list Bar :=
  sort_bars (dvalues (by_time (by_time [] storage) provider)).

Definition merge_series (q : BarQuery) (storage provider : BarSeries) : BarSeries :=
  let bs := merge_bars (bars storage) (bars provider) in
  mkSeries q bs (coverage_for q bs "auto").

Definition source_name (c : CoverageReport) : string :=
  match source_mix c with s :: _ => s | [] => "unknown" end.

Inductive coverage_error := DuplicateBars | UnorderedBars | OpenCandle | MissingBars.

(** [BarSeriesValidator.validate]. *)
Definition validate (s : BarSeries) (allow_gaps : option bool) : result coverage_error CoverageReport :=
  let cov := coverage_for (series_query s) (bars s) (source_name (coverage s)) in
  if negb (bool_decide (duplicate_ts cov = [])) then Err DuplicateBars
  else if bool_decide (cov_status cov = "unordered") then Err UnorderedBars
  else if existsb (fun b => negb (bar_closed b)) (bars s) then Err OpenCandle
  else
    let gaps_allowed := default (bool_decide (gap_policy (series_query s) = "allow_with_metadata")) allow_gaps in
    if negb (bool_decide (missing_intervals cov = [])) && negb gaps_allowed then Err MissingBars else Ok cov.

(** ** The time grid *)

Lemma grid_spec a b d t :
  (t ∈ grid a b d) <-> a <= t < b /\ (t - a) mod Z.pos d = 0.
Proof.
  unfold grid. rewrite list_elem_of_fmap. set (n := (b - a + Z.pos d - 1) / Z.pos d).
  assert (Hn : Z.pos d * n <= b - a + Z.pos d - 1 < Z.pos d * n + Z.pos d).
  { pose proof (Z.div_mod (b - a + Z.pos d - 1) (Z.pos d) ltac:(lia)).
    pose proof (Z.mod_pos_bound (b - a + Z.pos d - 1) (Z.pos d) ltac:(lia)). unfold n. lia. }
  split.
  - intros (i & -> & Hi). apply elem_of_seq in Hi.
    replace (a + Z.of_nat i * Z.pos d - a) with (Z.of_nat i * Z.pos d) by lia.
    rewrite Z.mod_mul by lia. split; [|done]. assert (Z.of_nat i <= n - 1) by lia. nia.
  - intros [Ht Hm]. apply Z.div_exact in Hm; [|lia]. exists (Z.to_nat ((t - a) / Z.pos d)).
    assert (0 <= (t - a) / Z.pos d) by (apply Z.div_pos; lia).
    split; [rewrite Z2Nat.id by done; lia|]. apply elem_of_seq.
    assert ((t - a) / Z.pos d < n) by nia. lia.
Qed.

Lemma seq_affine_sorted a d n m :
  StronglySorted Z.lt ((fun i => a + Z.of_nat i * Z.pos d) <$> seq m n).
Proof.
  revert m. induction n as [|n IH]; intros m; simpl; [constructor|]. constructor; [apply IH|].
  apply Forall_fmap, Forall_forall. intros i Hi%elem_of_seq. simpl. nia.
Qed.

Lemma grid_sorted a b d : StronglySorted Z.lt (grid a b d).
Proof. apply seq_affine_sorted. Qed.

(** The slot of the grid a moment falls into. *)
Definition slot (a : Z) (d : positive) (t : Z) : Z := a + ((t - a) / Z.pos d) * Z.pos d.

Lemma slot_spec a b d t : a <= t < b -> (slot a d t ∈ grid a b d) /\ slot a d t <= t < slot a d t + Z.pos d.
Proof.
  intros Ht. unfold slot. pose proof (Z.div_mod (t - a) (Z.pos d) ltac:(lia)) as E.
  pose proof (Z.mod_pos_bound (t - a) (Z.pos d) ltac:(lia)).
  assert (0 <= (t - a) / Z.pos d) by (apply Z.div_pos; lia).
  split; [|lia]. apply grid_spec. split; [nia|].
  replace (a + (t - a) / Z.pos d * Z.pos d - a) with ((t - a) / Z.pos d * Z.pos d) by lia. apply Z.mod_mul. lia.
Qed.

Lemma slot_unique a d s t : (s - a) mod Z.pos d = 0 -> s <= t < s + Z.pos d -> slot a d t = s.
Proof.
  intros Hm Ht. unfold slot. apply Z.div_exact in Hm; [|lia].
  assert ((t - a) / Z.pos d = (s - a) / Z.pos d); [|nia].
  symmetry. apply (Z.div_unique _ _ _ (t - s)); lia.
Qed.

(** [t] lies in one of the half-open intervals. *)
Definition covers (xs : list interval) (t : Z) : Prop := exists s e, (s, e) ∈ xs /\ s <= t < e.

Lemma missing_elem q bs d s e :
  duration_ms (bq_timeframe q) = Some d ->
  ((s, e) ∈ missing_of q bs) <->
  (s ∈ grid (start_ms q) (end_ms q) d) /\ (s ∉ times bs) /\ e = Z.min (s + Z.pos d) (end_ms q).
Proof.
  intros Hd. unfold missing_of. rewrite Hd, list_elem_of_fmap. split.
  - intros (x & Heq & Hin). apply list_elem_of_In, filter_In in Hin as [Hin%list_elem_of_In Hb].
    simplify_eq. bool_to_prop. done.
  - intros (Hin & Hn & ->). exists s. split; [done|]. apply list_elem_of_In, filter_In.
    split; [by apply list_elem_of_In|]. by rewrite bool_decide_false.
Qed.

Lemma covers_missing q bs d t :
  duration_ms (bq_timeframe q) = Some d ->
  covers (missing_of q bs) t <-> start_ms q <= t < end_ms q /\ slot (start_ms q) d t ∉ times bs.
Proof.
  intros Hd. split.
  - intros (s & e & Hin & Ht). apply (missing_elem q bs d s e Hd) in Hin as (Hg & Hn & ->).
    apply grid_spec in Hg as [Hr Hm]. rewrite (slot_unique _ _ s) by (done || lia). split; [lia|done].
  - intros [Hr Hn]. destruct (slot_spec (start_ms q) (end_ms q) d t Hr) as [Hg Hs].
    exists (slot (start_ms q) d t), (Z.min (slot (start_ms q) d t + Z.pos d) (end_ms q)).
    split; [by apply (missing_elem q bs d)|lia].
Qed.

(** C6: the missing intervals are exact: a moment of the requested range lies
    in a missing interval exactly when the bar of its slot was not delivered,
    and no missing interval reaches outside the range. *)
Theorem missing_intervals_exact q bs d t :
  duration_ms (bq_timeframe q) = Some d ->
  covers (missing_of q bs) t <->
  start_ms q <= t < end_ms q /\ slot (start_ms q) d t ∉ times bs.
Proof. apply covers_missing. Qed.

(** ** Coalescing *)

Definition wf (x : interval) : Prop := x.1 <= x.2.

(** Intervals in order, each starting after the one before it ends. *)
Fixpoint separated (xs : list interval) : Prop :=
  match xs with
  | x :: (y :: _) as rest => x.2 < y.1 /\ separated rest
  | _ => True
  end.

Lemma covers_cons x xs t : covers (x :: xs) t <-> x.1 <= t < x.2 \/ covers xs t.
Proof.
  unfold covers. destruct x as [a b]. simpl. split.
  - intros (s & e & Hin & Ht). apply elem_of_cons in Hin as [?|Hin]; simplify_eq; eauto 10.
  - intros [?|(s & e & Hin & Ht)]; [exists a, b|exists s, e]; split; (done || set_solver).
Qed.

Lemma coalesce_loop_spec cs ce xs :
  cs <= ce -> Forall wf xs -> StronglySorted (fun a b => pair_leb a b = true) ((cs, ce) :: xs) ->
  (forall t, covers (coalesce_loop cs ce xs) t <-> covers ((cs, ce) :: xs) t) /\
  separated (coalesce_loop cs ce xs) /\ Forall wf (coalesce_loop cs ce xs) /\
  exists e rest, coalesce_loop cs ce xs = (cs, e) :: rest.
Proof.
  revert cs ce. induction xs as [|[s e] xs IH]; intros cs ce Hc Hwf Hs; simpl.
  { split_and!; [done|done| |eauto]. constructor; [done|constructor]. }
  inversion Hwf as [|? ? Hw Hwf']; subst. unfold wf in Hw. simpl in Hw.
  inversion Hs as [|? ? Hs' Hall]; subst. inversion Hall as [|? ? Hle Hall']; subst.
  inversion Hs' as [|? ? Hs'' Hall'']; subst.
  assert (Hcs : cs <= s) by (unfold pair_leb in Hle; simpl in Hle; lia).
  destruct (s <=? ce) eqn:E; bool_to_prop.
  - destruct (IH cs (Z.max ce e)) as (H1 & H2 & H3 & H4); [lia|done| |].
    { constructor; [done|]. rewrite Forall_forall in *. intros [x y] Hx. specialize (Hall' _ Hx). specialize (Hall'' _ Hx).
      unfold pair_leb in *. simpl in *. destruct (decide (cs = x)) as [<-|]; [|lia].
      assert (s = cs) by lia. subst. lia. }
    split_and!; [|done..]. intros t. rewrite H1, !covers_cons. simpl. split; [|naive_solver lia].
    intros [Ht|Ht]; [|tauto]. destruct (decide (t < ce)); [left; lia|right; left; lia].
  - destruct (IH s e) as (H1 & H2 & H3 & (e' & rest & H4)); [done|done|done|].
    split_and!.
    + intros t. rewrite !covers_cons, H1, covers_cons. done.
    + rewrite H4 in *. simpl. split; [lia|done].
    + constructor; [done|done].
    + eauto.
Qed.

Lemma coalesce_spec xs :
  Forall wf xs ->
  (forall t, covers (coalesce_intervals xs) t <-> covers xs t) /\ separated (coalesce_intervals xs).
Proof.
  intros Hwf. unfold coalesce_intervals.
  pose proof (sort_by_perm pair_leb xs) as Hp. pose proof (sort_by_sorted pair_leb pair_leb_total pair_leb_trans xs) as Hs.
  destruct (sort_by pair_leb xs) as [|[s e] rest].
  - apply Permutation_nil in Hp as ->. done.
  - rewrite <-Hp in Hwf. inversion Hwf as [|? ? Hw Hwf']; subst.
    destruct (coalesce_loop_spec s e rest Hw Hwf' Hs) as (H1 & H2 & _). split; [|done].
    intros t. rewrite H1. unfold covers. by setoid_rewrite Hp.
Qed.

(** Coalescing preserves coverage and leaves nothing to merge: the result
    covers exactly the moments the intervals covered, its intervals are in
    order and strictly apart. *)
Theorem coalesce_correct xs :
  Forall wf xs ->
  (forall t, covers (coalesce_intervals xs) t <-> covers xs t) /\ separated (coalesce_intervals xs).
Proof. apply coalesce_spec. Qed.

Lemma separated_lt x xs y : separated (x :: xs) -> Forall (fun x => x.1 < x.2) (x :: xs) -> y ∈ xs -> x.2 < y.1.
Proof.
  revert x. induction xs as [|z xs IH]; intros x Hs Hw Hy; [by apply not_elem_of_nil in Hy|].
  destruct Hs as [Hxz Hs]. inversion Hw as [|? ? _ Hw']; subst. inversion Hw' as [|? ? Hz _]; subst.
  apply elem_of_cons in Hy as [->|Hy]; [done|]. specialize (IH z Hs Hw' Hy). lia.
Qed.

Lemma coalesce_loop_forall (Q : Z -> Prop) E cs ce xs :
  Q cs /\ cs < ce /\ ce <= E -> Forall (fun x => Q x.1 /\ x.1 < x.2 /\ x.2 <= E) xs ->
  Forall (fun x => Q x.1 /\ x.1 < x.2 /\ x.2 <= E) (coalesce_loop cs ce xs).
Proof.
  intros Hc H. revert cs ce Hc. induction H as [|[s e] xs Hx Hxs IH]; intros cs ce Hc; simpl in *; [constructor; [exact Hc|constructor]|].
  destruct (s <=? ce); [apply IH; split_and!; [apply Hc|lia..]|]. constructor; [done|auto].
Qed.

Lemma coalesce_forall (Q : Z -> Prop) E xs :
  Forall (fun x => Q x.1 /\ x.1 < x.2 /\ x.2 <= E) xs ->
  Forall (fun x => Q x.1 /\ x.1 < x.2 /\ x.2 <= E) (coalesce_intervals xs).
Proof.
  intros H. unfold coalesce_intervals. rewrite <-(sort_by_perm pair_leb xs) in H.
  destruct (sort_by pair_leb xs) as [|[s e] rest]; [done|]. inversion H; subst. by apply coalesce_loop_forall.
Qed.

Lemma missing_none q bs d :
  duration_ms (bq_timeframe q) = Some d -> (forall t, t ∈ grid (start_ms q) (end_ms q) d -> t ∈ times bs) ->
  missing_of q bs = [].
Proof.
  intros Hd H. destruct (missing_of q bs) as [|[s e] rest] eqn:E; [done|]. exfalso.
  assert (Hin : (s, e) ∈ missing_of q bs) by (rewrite E; set_solver).
  apply (missing_elem q bs d) in Hin as (Hg & Hn & _); [|done]. by apply Hn, H.
Qed.

(** ** Lists of times *)

Lemma sorted_lt_ext xs ys :
  StronglySorted Z.lt xs -> StronglySorted Z.lt ys -> (forall t, t ∈ xs <-> t ∈ ys) -> xs = ys.
Proof.
  intros Hx. revert ys. induction Hx as [|x xs Hx IH Hall]; intros ys Hy Heq.
  - destruct ys as [|y ys]; [done|]. exfalso. apply (not_elem_of_nil y), Heq. set_solver.
  - destruct Hy as [|y ys Hy Hall'].
    { exfalso. apply (not_elem_of_nil x), Heq. set_solver. }
    rewrite Forall_forall in Hall, Hall'.
    assert (x = y) as <-.
    { pose proof (proj1 (Heq x) ltac:(set_solver)) as Hin1. pose proof (proj2 (Heq y) ltac:(set_solver)) as Hin2.
      apply elem_of_cons in Hin1 as [?|Hin1]; [done|]. apply elem_of_cons in Hin2 as [?|Hin2]; [done|].
      specialize (Hall _ Hin2). specialize (Hall' _ Hin1). lia. }
    f_equal. apply IH; [done|]. intros t. specialize (Heq t). rewrite !elem_of_cons in Heq.
    split; intros Ht.
    + destruct (proj1 Heq (or_intror Ht)) as [->|]; [|done]. specialize (Hall _ Ht). lia.
    + destruct (proj2 Heq (or_intror Ht)) as [->|]; [|done]. specialize (Hall' _ Ht). lia.
Qed.

Lemma StronglySorted_app {A} (R : A -> A -> Prop) xs ys :
  StronglySorted R xs -> StronglySorted R ys -> (forall x y, x ∈ xs -> y ∈ ys -> R x y) -> StronglySorted R (xs ++ ys).
Proof.
  intros Hx Hy H. induction Hx as [|x xs Hx IH Hall]; simpl; [done|]. constructor.
  - apply IH. intros a b Ha. apply H. set_solver.
  - apply Forall_app. split; [done|]. apply Forall_forall. intros y Hin. apply H; set_solver.
Qed.

(** ** Order and duplicates *)

Lemma strictly_increasing_spec ts : strictly_increasing ts = true <-> StronglySorted Z.lt ts.
Proof.
  split.
  - intros H. apply Sorted_StronglySorted; [intros ? ? ?; lia|].
    induction ts as [|a [|b ts] IH]; simpl in *; [constructor|by repeat constructor|].
    bool_to_prop. constructor; [by apply IH|by constructor].
  - intros H%StronglySorted_Sorted. induction ts as [|a [|b ts] IH]; simpl in *; try done.
    inversion H as [|? ? Hs Hh]; subst. inversion Hh; subst. apply andb_true_iff. split; [by apply Z.ltb_lt|auto].
Qed.

Lemma sorted_lt_NoDup ts : StronglySorted Z.lt ts -> NoDup ts.
Proof.
  induction 1 as [|a ts Hs IH Hall]; constructor; [|done].
  intros Hin. rewrite Forall_forall in Hall. specialize (Hall _ Hin). lia.
Qed.

Lemma dup_step_spec bs seen dups :
  let '(seen', dups') := fold_left dup_step bs (seen, dups) in
  (forall t, t ∈ seen' <-> t ∈ seen \/ t ∈ times bs) /\
  (dups' = ∅ <-> dups = ∅ /\ NoDup (times bs) /\ forall t, t ∈ times bs -> t ∉ seen).
Proof.
  revert seen dups. induction bs as [|b bs IH]; intros seen dups; simpl.
  { split; [set_solver|]. split; [|tauto]. intros ->. split_and!; [done|constructor|set_solver]. }
  specialize (IH ({[bar_time b]} ∪ seen) (if bool_decide (bar_time b ∈ seen) then {[bar_time b]} ∪ dups else dups)).
  destruct (fold_left dup_step bs _) as [seen' dups']. destruct IH as [H1 H2]. split; [set_solver|].
  rewrite H2, NoDup_cons. case_bool_decide as Hb; set_solver.
Qed.

Lemma no_duplicates bs : duplicate_timestamps bs = [] <-> NoDup (times bs).
Proof.
  unfold duplicate_timestamps. pose proof (dup_step_spec bs ∅ ∅) as H.
  destruct (fold_left dup_step bs (∅, ∅)) as [seen dups]. destruct H as [_ H]. simpl.
  trans (dups = ∅); [|set_solver]. split.
  - intros E. pose proof (sort_by_perm Z.leb (elements dups)) as Hp. rewrite E in Hp.
    apply Permutation_nil in Hp. by apply leibniz_equiv, elements_empty_inv.
  - intros ->. by rewrite elements_empty.
Qed.

Lemma coverage_for_shape q bs src :
  bs <> [] ->
  let c := coverage_for q bs src in
  duplicate_ts c = duplicate_timestamps bs /\
  (StronglySorted Z.lt (times bs) ->
     missing_intervals c = missing_of q bs /\
     cov_status c = if bool_decide (missing_of q bs = []) then "valid" else "gap") /\
  (NoDup (times bs) -> ~ StronglySorted Z.lt (times bs) -> cov_status c = "unordered").
Proof.
  intros Hne. destruct bs as [|b bs]; [done|]. cbn zeta beta iota delta [coverage_for duplicate_ts missing_intervals cov_status].
  split_and!; [done| |].
  - intros Ho. rewrite (bool_decide_true (duplicate_timestamps (b :: bs) = [])) by (by apply no_duplicates, sorted_lt_NoDup).
    apply strictly_increasing_spec in Ho. rewrite Ho. cbn [andb negb]. split; [done|]. by case_bool_decide.
  - intros Hnd Ho. rewrite (bool_decide_true (duplicate_timestamps (b :: bs) = [])) by (by apply no_duplicates).
    rewrite <-strictly_increasing_spec, not_true_iff_false in Ho. by rewrite Ho.
Qed.

Lemma all_closed_spec bs : existsb (fun b => negb (bar_closed b)) bs = false <-> Forall (fun b => bar_closed b = true) bs.
Proof.
  induction bs as [|b bs IH]; simpl; [split; [constructor|done]|].
  rewrite orb_false_iff, negb_false_iff, IH, Forall_cons. done.
Qed.

(** The validator accepts exactly the well-formed series: it returns
    normally if and only if the bar times are strictly increasing, every bar
    is closed and, unless gaps are allowed, the series is non-empty and
    nothing is missing. *)
Theorem validate_spec s allow :
  is_ok (validate s allow) = true <->
  StronglySorted Z.lt (times (bars s)) /\ Forall (fun b => bar_closed b = true) (bars s) /\
  (default (bool_decide (gap_policy (series_query s) = "allow_with_metadata")) allow = true \/
   (bars s <> [] /\ missing_of (series_query s) (bars s) = [])).
Proof.
  unfold validate. set (q := series_query s). set (src := source_name _). clearbody src.
  destruct (decide (bars s = [])) as [->|Hne]; simpl.
  { split.
    - intros H. split_and!; [constructor|constructor|]. left. by destruct (default _ _).
    - intros (_ & _ & [->|[]]); done. }
  destruct (coverage_for_shape q (bars s) src Hne) as (Hd & Hs & Hu). set (c := coverage_for _ _ _) in *. clearbody c.
  rewrite Hd, <-all_closed_spec.
  destruct (bool_decide (duplicate_timestamps (bars s) = [])) eqn:Hdup; bool_to_prop; simpl.
  2:{ split; [done|]. intros [H _]. destruct Hdup. by apply no_duplicates, sorted_lt_NoDup. }
  destruct (strictly_increasing (times (bars s))) eqn:Ho.
  2:{ rewrite bool_decide_true; [split; [done|]; intros [H _]; apply strictly_increasing_spec in H; congruence|].
      apply Hu; [by apply no_duplicates|]. rewrite <-strictly_increasing_spec. congruence. }
  apply strictly_increasing_spec in Ho. destruct (Hs Ho) as [-> ->].
  rewrite (bool_decide_false (_ = "unordered")) by (by case_bool_decide).
  destruct (existsb _ _); [split; [done|]; by intros (_ & ? & _)|].
  destruct (default _ _); simpl; rewrite ?andb_false_r, ?andb_true_r; simpl.
  - split; [|done]. intros _. split_and!; auto.
  - case_bool_decide; simpl; split; try done; [intros _; split_and!; auto|]. by intros (_ & _ & [|[_ ?]]).
Qed.

(** ** Merging *)

Definition last_at (bs : list Bar) (t : Z) : option Bar := last (List.filter (fun b => bar_time b =? t) bs).

Lemma by_time_get d bs t :
  dget (by_time d bs) t = match last_at bs t with Some b => Some b | None => dget d t end.
Proof.
  unfold by_time, last_at. induction bs as [|b bs IH] using rev_ind; [done|].
  rewrite fold_left_app, List.filter_app. simpl. destruct (bar_time b =? t) eqn:E; bool_to_prop.
  - subst. by rewrite dget_dset_eq, last_snoc.
  - by rewrite dget_dset_ne, app_nil_r by done.
Qed.

Lemma by_time_ok d bs :
  NoDup (dkeys d) -> Forall (fun e => bar_time e.2 = e.1) d ->
  NoDup (dkeys (by_time d bs)) /\ Forall (fun e => bar_time e.2 = e.1) (by_time d bs).
Proof.
  unfold by_time. revert d. induction bs as [|b bs IH]; intros d Hd Hf; simpl; [done|].
  apply IH; [auto with openpine|]. apply Forall_forall. intros [k v] Hk.
  apply dset_elem in Hk as [[-> ->]|[_ Hk]]; [done| |done]. rewrite Forall_forall in Hf. by apply (Hf _ Hk).
Qed.

Lemma by_time_app d xs ys : by_time (by_time d xs) ys = by_time d (xs ++ ys).
Proof. unfold by_time. by rewrite fold_left_app. Qed.

Lemma sort_bars_sorted bs : NoDup (times bs) -> StronglySorted Z.lt (times (sort_bars bs)).
Proof.
  intros Hnd. unfold sort_bars. pose proof (sort_by_perm (fun a b => bar_time a <=? bar_time b) bs) as Hp.
  assert (Hs : StronglySorted (fun a b => (bar_time a <=? bar_time b) = true) (sort_by (fun a b => bar_time a <=? bar_time b) bs)).
  { apply sort_by_sorted; intros; [|by bool_to_prop; apply Z.leb_le; lia].
    rewrite !Z.leb_le. lia. }
  unfold times in *. rewrite <-Hp in Hnd. revert Hs Hnd. generalize (sort_by (fun a b => bar_time a <=? bar_time b) bs).
  clear. induction 1 as [|x l Hs IH Hall]; simpl; [constructor|]. intros [Hx Hnd]%NoDup_cons. constructor; [auto|].
  apply Forall_fmap, Forall_forall. intros y Hy. simpl. rewrite Forall_forall in Hall. specialize (Hall _ Hy).
  bool_to_prop. assert (bar_time x <> bar_time y); [|lia]. intros E. apply Hx. rewrite E. by apply list_elem_of_fmap_2.
Qed.

Lemma merge_spec storage provider :
  StronglySorted Z.lt (times (merge_bars storage provider)) /\
  forall b, b ∈ merge_bars storage provider <-> last_at (storage ++ provider) (bar_time b) = Some b.
Proof.
  unfold merge_bars. rewrite by_time_app.
  destruct (by_time_ok [] (storage ++ provider)) as [Hnd Hf]; [constructor|constructor|].
  set (d := by_time [] (storage ++ provider)) in *.
  assert (Hkeys : times (dvalues d) = dkeys d).
  { clear -Hf. unfold times, dvalues, dkeys. induction Hf as [|[k v] d Hk Hd IH]; simpl in *; [done|]. f_equal; [exact Hk|exact IH]. }
  split; [apply sort_bars_sorted; by rewrite Hkeys|].
  intros b. unfold sort_bars. rewrite elem_of_sort_by.
  pose proof (by_time_get [] (storage ++ provider) (bar_time b)) as Hg. fold d in Hg. split.
  - intros (e & -> & He)%list_elem_of_fmap. rewrite Forall_forall in Hf. pose proof (Hf _ He) as Hk. destruct e as [k v].
    simpl in *. subst k. apply (elem_dget _ _ _ Hnd) in He. rewrite Hg in He. by destruct (last_at _ _).
  - intros Hl. rewrite Hl in Hg. apply dget_Some_elem in Hg. apply list_elem_of_fmap. by exists (bar_time b, b).
Qed.

(** Merging is right-biased union by time: the merged bars are strictly
    ordered in time, and a bar is among them exactly when it is the last one
    of its time in storage followed by provider - so the provider's bar wins
    and nothing is lost or invented. *)
Theorem merge_correct storage provider :
  StronglySorted Z.lt (times (merge_bars storage provider)) /\
  forall b, b ∈ merge_bars storage provider <-> last_at (storage ++ provider) (bar_time b) = Some b.
Proof. apply merge_spec. Qed.

Lemma merge_sorted storage provider : StronglySorted Z.lt (times (merge_bars storage provider)).
Proof. apply merge_spec. Qed.

Lemma last_at_Some bs t b : last_at bs t = Some b -> b ∈ bs /\ bar_time b = t.
Proof.
  unfold last_at. intros H. apply last_Some_elem_of, list_elem_of_In, filter_In in H as [H1 H2].
  bool_to_prop. split; [by apply list_elem_of_In|done].
Qed.

Lemma last_at_is_Some bs t : t ∈ times bs -> is_Some (last_at bs t).
Proof.
  intros (b & -> & Hb)%list_elem_of_fmap. unfold last_at. apply last_is_Some. intros E.
  assert (Hin : b ∈ List.filter (fun x => bar_time x =? bar_time b) bs).
  { apply list_elem_of_In, filter_In. split; [by apply list_elem_of_In|apply Z.eqb_refl]. }
  rewrite E in Hin. by apply not_elem_of_nil in Hin.
Qed.

(** The merged times are the union of the times. *)
Lemma merge_times storage provider t :
  t ∈ times (merge_bars storage provider) <-> t ∈ times storage \/ t ∈ times provider.
Proof.
  unfold times at 1. rewrite list_elem_of_fmap, <-elem_of_app. unfold times. rewrite <-fmap_app. fold (times (storage ++ provider)).
  destruct (merge_spec storage provider) as [_ Hm]. split.
  - intros (b & -> & Hb). apply Hm, last_at_Some in Hb as [Hb _]. by apply list_elem_of_fmap_2.
  - intros Ht. destruct (last_at_is_Some _ _ Ht) as [b Hb]. exists b. pose proof (last_at_Some _ _ _ Hb) as [_ E].
    split; [done|]. apply Hm. by rewrite E.
Qed.

Lemma sort_bars_id bs : StronglySorted Z.lt (times bs) -> sort_bars bs = bs.
Proof.
  intros H. apply sort_by_sorted_id. unfold times in H. induction bs as [|b bs IH]; [constructor|].
  simpl in H. inversion H as [|? ? Hs Hall]; subst. constructor; [auto|].
  rewrite Forall_fmap in Hall. eapply Forall_impl; [exact Hall|]. simpl. intros x Hx. apply Z.leb_le. lia.
Qed.

(** ** Witnesses *)

Definition w_query (policy source : string) : BarQuery :=
  mkQuery "binance" "usdm" "BTCUSDT" (mkTimeframe "1m" (Some 60%positive)) 0 300 source policy.

Definition w_bar (t : Z) : Bar := mkBar t (t + 60) f_zero f_zero f_zero f_zero f_zero true.

Lemma missing_intervals_exact_witness :
  missing_of (w_query "fail" "auto") [w_bar 0; w_bar 120] = [(60, 120); (180, 240); (240, 300)] /\
  covers (missing_of (w_query "fail" "auto") [w_bar 0; w_bar 120]) 299.
Proof.
  split; [vm_compute; reflexivity|].
  apply (missing_intervals_exact (w_query "fail" "auto") _ 60 299 eq_refl). split; [simpl; lia|].
  apply (bool_decide_unpack (_ ∉ _)). vm_compute. exact I.
Defined.

Lemma coalesce_correct_witness :
  coalesce_intervals [(180, 240); (60, 120); (240, 300)] = [(60, 120); (180, 300)] /\
  separated (coalesce_intervals [(180, 240); (60, 120); (240, 300)]).
Proof.
  split; [vm_compute; reflexivity|]. apply coalesce_correct. repeat constructor; unfold wf; simpl; lia.
Defined.
