(* ===== verification/DataOrchestrator.v ===== *)
(** Loading bars: [DataOrchestrator] of [openpine/data/orchestrator.py].

    The candle store and the provider belong to the marketdata package: they
    are parameters, functions over states [S] and [P] that may raise.  The
    persistent cache is used through its two operations over a state [C].
    [is_complete] is the property of the package's coverage report.  Series
    here are [BarSeries] values; the canonical snapshot envelopes the code also
    accepts are not modelled.  One call is a sequence of whole operations:
    concurrent provider requests are the subject of [Flights]. *)

From S2P Require Import Prelude PyFloat Coverage.

Inductive data_error :=
| IncompleteCoverageError (e : coverage_error)
| IncompleteSeriesError (source : string)
| ProviderUnavailableError
| StorageUnavailableError (text : string)
| ProviderRaised (text : string)
| UnsupportedSource (source : string).

(** [StoreResult]: success and error. *)
Record StoreResult := mkStoreResult { sr_success : bool; sr_error : option string }.

Section Orchestrator.
Context {S P C : Type}.
Variable is_complete : CoverageReport -> bool.

Record Store := mkStore {
  store_read : S -> BarQuery -> result string BarSeries;
  store_write : S -> BarSeries -> S * result string StoreResult
}.

Record Provider := mkProvider {
  persists_fetches : bool;
  fetch_bars : P -> BarQuery -> P * result string BarSeries
}.

Record Cache := mkCache {
  load_bar_series : C -> BarQuery -> option BarSeries;
  save_bar_series : C -> BarSeries -> C
}.

Record Orchestrator := mkOrch {
  orch_provider : option Provider;
  orch_store : Store;
  orch_cache : option Cache
}.

(** The states of the store, the provider and the cache. *)
Record World := mkWorld { w_store : S; w_prov : P; w_cache : C }.

Variable o : Orchestrator.

Definition lift_cov {A} (r : result coverage_error A) : result data_error A :=
  match r with Ok a => Ok a | Err e => Err (IncompleteCoverageError e) end.

Definition require_complete (s : BarSeries) (source : string) : result data_error BarSeries :=
  if is_complete (coverage s) then Ok s else Err (IncompleteSeriesError source).

Definition is_fail (q : BarQuery) : bool := bool_decide (gap_policy q = "fail").

Definition require_if_fail (q : BarQuery) (s : BarSeries) (source : string) : result data_error BarSeries :=
  if is_fail q then require_complete s source else Ok s.

Definition provider_persists_fetches : bool :=
  match orch_provider o with Some p => persists_fetches p | None => false end.

Definition load_storage (w : World) (q : BarQuery) (complete : bool) : result data_error BarSeries :=
  match store_read (orch_store o) (w_store w) q with
  | Err text => Err (StorageUnavailableError text)
  | Ok s =>
      let! _ := lift_cov (validate s (Some true)) in
      if complete then require_complete s "storage" else Ok s
  end.

Definition load_cache (w : World) (q : BarQuery) : result data_error (option BarSeries) :=
  match orch_cache o with
  | None => Ok None
  | Some c =>
      match load_bar_series c (w_cache w) q with
      | None => Ok None
      | Some s =>
          let! _ := lift_cov (validate s (Some (negb (is_fail q)))) in
          let! s' := require_if_fail q s "persistent_cache" in Ok (Some s')
      end
  end.

Definition save_cache (w : World) (s : BarSeries) : World :=
  match orch_cache o with
  | None => w
  | Some c => mkWorld (w_store w) (w_prov w) (save_bar_series c (w_cache w) s)
  end.

(** [_write_series]. *)
Definition write_series (w : World) (s : BarSeries) : World * result data_error unit :=
  let '(st, r) := store_write (orch_store o) (w_store w) s in
  (mkWorld st (w_prov w) (w_cache w),
   match r with
   | Err text => Err (StorageUnavailableError text)
   | Ok res => if sr_success res then Ok tt
               else Err (StorageUnavailableError (str_or (sr_error res) "failed to persist bars"))
   end).

(** [_write_provider_series] and [store_bars]: validate, then write. *)
Definition validated_write (w : World) (s : BarSeries) (allow : option bool) : World * result data_error unit :=
  match lift_cov (validate s allow) with
  | Err e => (w, Err e)
  | Ok _ => write_series w s
  end.

Definition write_provider_series (w : World) (s : BarSeries) : World * result data_error unit :=
  validated_write w s (Some true).

Definition store_bars (w : World) (s : BarSeries) : World * result data_error unit :=
  validated_write w s None.

(** [on_candle_closed]: a closed bar is written as a one-bar series. *)
Definition on_candle_closed (w : World) (exchange market symbol : string) (tf : Timeframe) (b : Bar) (source : string)
    : World * result data_error unit :=
  let q := mkQuery exchange market symbol tf (bar_time b) (bar_time_close b) "storage" "fail" in
  write_series w (mkSeries q [b] (coverage_for q [b] source)).

(** [_load_provider] of a request that owns its flight. *)
Definition load_provider (w : World) (q : BarQuery) : World * result data_error BarSeries :=
  match orch_provider o with
  | None => (w, Err ProviderUnavailableError)
  | Some p =>
      let '(ps, r) := fetch_bars p (w_prov w) q in
      (mkWorld (w_store w) ps (w_cache w),
       match r with
       | Err text => Err (ProviderRaised text)
       | Ok s => let! _ := lift_cov (validate s (Some (negb (is_fail q)))) in Ok s
       end)
  end.

(** [replace(query, start_ms=..., end_ms=..., source="provider")]. *)
Definition sub_query (q : BarQuery) (x : interval) : BarQuery :=
  mkQuery (bq_exchange q) (bq_market q) (bq_symbol q) (bq_timeframe q) x.1 x.2 "provider" (gap_policy q).

(** The loop of [_load_missing_from_provider]. *)
Fixpoint fetch_missing (w : World) (q : BarQuery) (xs : list interval) (fetched : list Bar)
    : World * result data_error (list Bar) :=
  match xs with
  | [] => (w, Ok fetched)
  | x :: xs' =>
      let '(w', r) := load_provider w (sub_query q x) in
      match (let! s := r in
             let! _ := lift_cov (validate s (Some (negb (is_fail q)))) in
             require_if_fail q s "provider") with
      | Err e => (w', Err e)
      | Ok s => fetch_missing w' q xs' (fetched ++ bars s)
      end
  end.

Definition load_missing_from_provider (w : World) (q : BarQuery) (xs : list interval)
    : World * result data_error BarSeries :=
  let '(w', r) := fetch_missing w q (coalesce_intervals xs) [] in
  (w', let! fetched := r in
       let bs := sort_bars fetched in Ok (mkSeries q bs (coverage_for q bs "provider"))).

(** [load_bars]. *)
Definition load_bars (w : World) (q : BarQuery) : World * result data_error BarSeries :=
  if bool_decide (bq_source q = "storage") then (w, load_storage w q (is_fail q))
  else
    match load_cache w q with
    | Err e => (w, Err e)
    | Ok (Some cached) => (w, Ok cached)
    | Ok None =>
        if bool_decide (bq_source q = "provider") then
          let '(w1, r) := load_provider w q in
          match (let! s := r in require_if_fail q s "provider") with
          | Err e => (w1, Err e)
          | Ok s => (save_cache w1 s, Ok s)
          end
        else if negb (bool_decide (bq_source q = "auto")) then (w, Err (UnsupportedSource (bq_source q)))
        else
          match load_storage w q false with
          | Err e => (w, Err e)
          | Ok st =>
              if is_complete (coverage st) then (save_cache w st, Ok st)
              else
                let '(w1, r) := load_missing_from_provider w q (missing_intervals (coverage st)) in
                match r with
                | Err e => (w1, Err e)
                | Ok pr =>
                    let '(w2, wr) := if negb (bool_decide (bars pr = [])) && negb provider_persists_fetches
                                     then write_provider_series w1 pr else (w1, Ok tt) in
                    match (let! _ := wr in require_if_fail q (merge_series q st pr) "auto") with
                    | Err e => (w2, Err e)
                    | Ok merged => (save_cache w2 merged, Ok merged)
                    end
                end
          end
    end.

Definition get_bars (w : World) (q : BarQuery) : World * result data_error (list Bar) :=
  let '(w', r) := load_bars w q in (w', let! s := r in Ok (bars s)).

(** ** The fail policy *)

Lemma require_complete_ok s source s' : require_complete s source = Ok s' -> s' = s /\ is_complete (coverage s) = true.
Proof. unfold require_complete. destruct (is_complete (coverage s)); intros; by simplify_eq. Qed.

(** [gap_policy = "fail"] is fail-closed: on every source - storage, the
    cache, the provider, or storage completed by the provider - a series is
    returned only if its coverage is complete; otherwise the call raises. *)
Theorem fail_policy_complete w q w' s :
  gap_policy q = "fail" -> load_bars w q = (w', Ok s) -> is_complete (coverage s) = true.
Proof.
  intros Hq. assert (Hf : is_fail q = true) by (unfold is_fail; by rewrite bool_decide_true).
  unfold load_bars, load_cache, load_storage, require_if_fail. rewrite Hf. intros H.
  case_bool_decide.
  { injection H as _ H. case_hyp H. apply result_bind_ok in H as (? & _ & H). by apply require_complete_ok in H as [-> ?]. }
  destruct (match orch_cache o with Some _ => _ | None => _ end) as [[cached|]|e] eqn:Hcache; simplify_eq.
  - destruct (orch_cache o) as [c|]; [|done]. destruct (load_bar_series c _ q) as [s0|]; [|done].
    apply result_bind_ok in Hcache as (? & _ & Hcache). apply result_bind_ok in Hcache as (s1 & Hr & Hcache). simplify_eq.
    by apply require_complete_ok in Hr as [-> ?].
  - case_bool_decide.
    + destruct (load_provider w q) as [w1 r]. destruct (let! s := r in _) as [s1|e] eqn:E; simplify_eq.
      apply result_bind_ok in E as (s2 & _ & E). by apply require_complete_ok in E as [-> ?].
    + case_bool_decide; simplify_eq/=.
      destruct (match store_read _ _ _ with Ok _ => _ | Err _ => _ end) as [st|e]; simplify_eq.
      destruct (is_complete (coverage st)) eqn:Hst; simplify_eq; [done|].
      destruct (load_missing_from_provider _ _ _) as [w1 [pr|e]]; simplify_eq.
      destruct (if negb _ && _ then _ else _) as [w2 wr]. destruct (let! _ := wr in _) as [merged|e] eqn:E; simplify_eq.
      apply result_bind_ok in E as (? & _ & E). by apply require_complete_ok in E as [<- ?].
Qed.

(** ** Filling gaps *)

Definition closed_bars (bs : list Bar) : Prop := Forall (fun b => bar_closed b = true) bs.

Section Fill.
Variables (p : Provider) (d : positive) (q : BarQuery).

(** What the marketdata package documents of its coverage report. *)
Hypothesis complete_valid : forall c, is_complete c = true <-> cov_status c = "valid".

(** A provider that has the whole history: asked for a non-empty range it
    delivers the closed bars of the range's grid, and reports them so. *)
Definition full_provider : Prop := forall ps q',
  duration_ms (bq_timeframe q') = Some d -> start_ms q' < end_ms q' ->
  exists ps' s src, fetch_bars p ps q' = (ps', Ok s) /\ series_query s = q' /\
    times (bars s) = grid (start_ms q') (end_ms q') d /\ closed_bars (bars s) /\
    coverage s = coverage_for q' (bars s) src.

Hypothesis Hp : orch_provider o = Some p.
Hypothesis Hfull : full_provider.
Hypothesis Hdur : duration_ms (bq_timeframe q) = Some d.

Lemma valid_coverage q' bs src :
  bs <> [] -> StronglySorted Z.lt (times bs) ->
  is_complete (coverage_for q' bs src) = true <-> missing_of q' bs = [].
Proof.
  intros Hne Hs. destruct (coverage_for_shape q' bs src Hne) as (_ & H & _). destruct (H Hs) as [_ Hst].
  rewrite complete_valid, Hst. by case_bool_decide.
Qed.

Lemma grid_nonempty a b : a < b -> a ∈ grid a b d.
Proof. intros H. apply grid_spec. rewrite Z.sub_diag. split; [lia|done]. Qed.

(** A request for one gap succeeds and brings its grid. *)
Lemma load_gap w x :
  x.1 < x.2 -> exists w' s,
  (let '(w1, r) := load_provider w (sub_query q x) in
   (w1, let! s := r in
        let! _ := lift_cov (validate s (Some (negb (is_fail q)))) in
        require_if_fail q s "provider")) = (w', Ok s) /\
  w_store w' = w_store w /\ w_cache w' = w_cache w /\ times (bars s) = grid x.1 x.2 d /\ closed_bars (bars s).
Proof.
  intros Hx. destruct (Hfull (w_prov w) (sub_query q x) Hdur Hx) as (ps' & s & src & Hfetch & Hq & Ht & Hc & Hcov).
  simpl in Ht. assert (Hsorted : StronglySorted Z.lt (times (bars s))) by (rewrite Ht; apply grid_sorted).
  assert (Hne : bars s <> []).
  { intros E. pose proof (grid_nonempty x.1 x.2 Hx) as Hin. rewrite <-Ht, E in Hin. by apply not_elem_of_nil in Hin. }
  assert (Hmiss : missing_of (sub_query q x) (bars s) = []) by (apply (missing_none _ _ d); [done|]; simpl; by rewrite Ht).
  assert (Hval : forall b, is_ok (validate s (Some b)) = true) by (intros b; apply validate_spec; rewrite Hq; by split_and!; auto).
  unfold load_provider. rewrite Hp, Hfetch. exists (mkWorld (w_store w) ps' (w_cache w)), s. split; [|by simpl].
  assert (Hl : forall b, exists c, lift_cov (validate s (Some b)) = Ok c).
  { intros b. specialize (Hval b). destruct (validate s (Some b)); [eauto|done]. }
  destruct (Hl (negb (is_fail (sub_query q x)))) as [c1 ->]. simpl. destruct (Hl (negb (is_fail q))) as [c2 ->]. simpl.
  unfold require_if_fail, require_complete. destruct (is_fail q); [|done].
  rewrite Hcov, (proj2 (valid_coverage (sub_query q x) (bars s) src Hne Hsorted) Hmiss). done.
Qed.

Lemma fetch_missing_ok w xs acc :
  Forall (fun x => x.1 < x.2) xs -> exists w' bs,
  fetch_missing w q xs acc = (w', Ok (acc ++ bs)) /\ w_store w' = w_store w /\ w_cache w' = w_cache w /\
  times bs = xs ≫= (fun x => grid x.1 x.2 d) /\ closed_bars bs.
Proof.
  intros H. revert w acc. induction H as [|x xs Hx Hxs IH]; intros w acc; simpl.
  - exists w, []. rewrite app_nil_r. split_and!; done || constructor.
  - destruct (load_gap w x Hx) as (w1 & s & Hl & Hs1 & Hc1 & Ht & Hc).
    destruct (load_provider w (sub_query q x)) as [w1' r]. injection Hl as -> Hl. rewrite Hl.
    destruct (IH w1 (acc ++ bars s)) as (w2 & bs & -> & Hs2 & Hc2 & Ht2 & Hcl2).
    exists w2, (bars s ++ bs). rewrite app_assoc. split_and!; [done|congruence..| |by apply Forall_app].
    unfold times in *. by rewrite fmap_app, Ht, Ht2.
Qed.

(** The gaps of a stored series lie on the query's grid. *)
Definition on_grid (x : interval) : Prop :=
  (x.1 - start_ms q) mod Z.pos d = 0 /\ start_ms q <= x.1 /\ x.1 < x.2 /\ x.2 <= end_ms q.

Lemma gaps_on_grid bs src :
  start_ms q < end_ms q -> StronglySorted Z.lt (times bs) ->
  let xs := missing_intervals (coverage_for q bs src) in
  Forall on_grid xs /\ forall t, covers xs t <-> start_ms q <= t < end_ms q /\ slot (start_ms q) d t ∉ times bs.
Proof.
  intros Hlt Hs xs. destruct (decide (bs = [])) as [->|Hne].
  - simpl in xs. subst xs. split.
    + repeat constructor; simpl; try lia. by rewrite Z.sub_diag.
    + intros t. rewrite covers_cons. simpl. split; [intros [?|(s & e & Hin & _)]|intros [? _]; by left].
      * split; [done|]. apply not_elem_of_nil.
      * by apply not_elem_of_nil in Hin.
  - destruct (coverage_for_shape q bs src Hne) as (_ & H & _). destruct (H Hs) as [Hm _]. subst xs. rewrite Hm.
    split; [|intros t; by apply covers_missing].
    apply Forall_forall. intros [a b] Hin. apply (missing_elem q bs d) in Hin as (Hg & _ & ->); [|done].
    apply grid_spec in Hg as [Hr Hmod]. unfold on_grid. simpl. lia.
Qed.

(** Bars fetched for ordered, separate gaps come in strictly increasing time. *)
Lemma gap_grids_sorted xs :
  separated xs -> Forall (fun x => x.1 < x.2) xs -> StronglySorted Z.lt (xs ≫= (fun x => grid x.1 x.2 d)) /\
  forall t, t ∈ xs ≫= (fun x => grid x.1 x.2 d) -> exists x, x ∈ xs /\ x.1 <= t < x.2.
Proof.
  intros Hsep Hlt. assert (Hin : forall t, t ∈ xs ≫= (fun x => grid x.1 x.2 d) -> exists x, x ∈ xs /\ x.1 <= t < x.2).
  { intros t (x & Ht & Hx)%list_elem_of_bind. apply grid_spec in Ht as [Ht _]. eauto. }
  split; [|done]. clear Hin. induction xs as [|x xs IH]; simpl; [constructor|].
  inversion Hlt as [|? ? Hx Hlt']; subst. assert (Hsep' : separated xs) by (destruct xs; [done|by destruct Hsep]).
  apply StronglySorted_app; [apply grid_sorted|by apply IH|].
  intros t u Ht (y & Hu & Hy)%list_elem_of_bind. apply grid_spec in Ht as [Ht _]. apply grid_spec in Hu as [Hu _].
  pose proof (separated_lt x xs y Hsep Hlt Hy). destruct x, y. simpl in *. lia.
Qed.

Lemma aligned_grid x t : on_grid x -> t ∈ grid x.1 x.2 d <-> (t ∈ grid (start_ms q) (end_ms q) d) /\ x.1 <= t < x.2.
Proof.
  intros (Hm & Hs & Hx & He). rewrite !grid_spec. split.
  - intros [Hr Hm']. split; [split; [lia|]|lia].
    replace (t - start_ms q) with ((t - x.1) + (x.1 - start_ms q)) by lia. by rewrite Z.add_mod, Hm, Hm' by lia.
  - intros [[Hr Hm'] Hx']. split; [lia|].
    replace (t - x.1) with ((t - start_ms q) - (x.1 - start_ms q)) by lia. by rewrite Zminus_mod, Hm, Hm'.
Qed.

(** The stored bars and the grids of the coalesced gaps make up the whole
    grid. *)
Lemma stored_and_gaps_full bs xs t :
  (forall t, t ∈ times bs -> t ∈ grid (start_ms q) (end_ms q) d) ->
  Forall on_grid xs ->
  (forall t, covers xs t <-> start_ms q <= t < end_ms q /\ slot (start_ms q) d t ∉ times bs) ->
  (t ∈ times bs \/ t ∈ xs ≫= (fun x => grid x.1 x.2 d)) <-> t ∈ grid (start_ms q) (end_ms q) d.
Proof.
  intros Hsub Hon Hcov. rewrite Forall_forall in Hon. split.
  - intros [Ht|(x & Ht & Hx)%list_elem_of_bind]; [auto|]. by apply (aligned_grid x t (Hon _ Hx)) in Ht as [? _].
  - intros Ht. destruct (decide (t ∈ times bs)) as [|Hn]; [by left|right].
    pose proof Ht as Hg. apply grid_spec in Hg as [Hr Hm].
    destruct (proj2 (Hcov t)) as (a & b & Hin & Hab).
    { split; [done|]. by rewrite (slot_unique (start_ms q) d t t) by (done || lia). }
    apply list_elem_of_bind. exists (a, b). split; [|done]. by apply (aligned_grid (a, b) t (Hon _ Hin)).
Qed.

Lemma coalesced_gaps xs :
  Forall on_grid xs ->
  separated (coalesce_intervals xs) /\ Forall on_grid (coalesce_intervals xs) /\
  forall t, covers (coalesce_intervals xs) t <-> covers xs t.
Proof.
  intros H. assert (Hwf : Forall wf xs) by (eapply Forall_impl; [exact H|]; intros x (_ & _ & ? & _); unfold wf; lia).
  destruct (coalesce_spec xs Hwf) as [H1 H2]. split_and!; [done| |done].
  assert (Hq : Forall (fun x => ((x.1 - start_ms q) mod Z.pos d = 0 /\ start_ms q <= x.1) /\ x.1 < x.2 /\ x.2 <= end_ms q) xs).
  { eapply Forall_impl; [exact H|]. intros x (? & ? & ? & ?). done. }
  apply (coalesce_forall (fun s => (s - start_ms q) mod Z.pos d = 0 /\ start_ms q <= s)) in Hq.
  eapply Forall_impl; [exact Hq|]. intros x ([? ?] & ? & ?). done.
Qed.

Lemma complete_covers st src t :
  coverage st = coverage_for q (bars st) src -> StronglySorted Z.lt (times (bars st)) ->
  is_complete (coverage st) = true -> t ∈ grid (start_ms q) (end_ms q) d -> t ∈ times (bars st).
Proof.
  intros Hcov Hs Hc Ht. rewrite Hcov in Hc. destruct (decide (bars st = [])) as [E|Hne].
  { rewrite E, complete_valid in Hc. done. }
  apply (valid_coverage q (bars st) src Hne Hs) in Hc.
  destruct (decide (t ∈ times (bars st))) as [|Hn]; [done|]. exfalso.
  assert (Hin : (t, Z.min (t + Z.pos d) (end_ms q)) ∈ missing_of q (bars st)) by (by apply (missing_elem q _ d)).
  rewrite Hc in Hin. by apply not_elem_of_nil in Hin.
Qed.

(** Stored and fetched bars that make up the grid merge into a complete series. *)
Lemma merged_full storage fetched :
  start_ms q < end_ms q ->
  (forall t, (t ∈ times storage \/ t ∈ times fetched) <-> t ∈ grid (start_ms q) (end_ms q) d) ->
  times (merge_bars storage fetched) = grid (start_ms q) (end_ms q) d /\
  is_complete (coverage_for q (merge_bars storage fetched) "auto") = true.
Proof.
  intros Hlt H. pose proof (merge_sorted storage fetched) as Hs.
  assert (Heq : times (merge_bars storage fetched) = grid (start_ms q) (end_ms q) d).
  { apply sorted_lt_ext; [done|apply grid_sorted|]. intros t. by rewrite merge_times, <-H. }
  split; [done|]. apply valid_coverage; [|done|apply (missing_none _ _ d); [done|]; intros t; by rewrite Heq].
  intros E. pose proof (grid_nonempty (start_ms q) (end_ms q) Hlt) as Hin. rewrite <-Heq, E in Hin.
  by apply not_elem_of_nil in Hin.
Qed.

(** A series that says truly what it holds: some closed bars of the query's
    grid, in order, with the coverage computed from them. *)
Record honest (s : BarSeries) : Prop := mk_honest {
  h_query : series_query s = q;
  h_coverage : exists src, coverage s = coverage_for q (bars s) src;
  h_sorted : StronglySorted Z.lt (times (bars s));
  h_closed : closed_bars (bars s);
  h_grid : forall t, t ∈ times (bars s) -> t ∈ grid (start_ms q) (end_ms q) d
}.

Lemma honest_valid s b : honest s -> (b = false -> is_complete (coverage s) = true) -> is_ok (validate s (Some b)) = true.
Proof.
  intros [Hq [src Hcov] Hs Hc Hg] Hb. apply validate_spec. rewrite Hq. split_and!; [done|done|].
  destruct b; [by left|right]. specialize (Hb eq_refl). rewrite Hcov in Hb. destruct (decide (bars s = [])) as [E|Hne].
  { rewrite E, complete_valid in Hb. done. }
  split; [done|]. by apply (valid_coverage q (bars s) src Hne Hs) in Hb.
Qed.

Lemma honest_complete s :
  honest s -> is_complete (coverage s) = true -> times (bars s) = grid (start_ms q) (end_ms q) d.
Proof.
  intros [_ [src Hcov] Hs _ Hg] Hc. apply sorted_lt_ext; [done|apply grid_sorted|]. intros t. split; [auto|].
  intros Ht. by eapply complete_covers.
Qed.

(** The cache holds nothing for the query, or the whole of it. *)
Definition cache_sound (w : World) : Prop :=
  forall c s, orch_cache o = Some c -> load_bar_series c (w_cache w) q = Some s ->
    honest s /\ is_complete (coverage s) = true.

(** Under the fail policy a sound cache answers with the whole grid or not at
    all. *)
Lemma sound_cache_answers w :
  gap_policy q = "fail" -> cache_sound w ->
  load_cache w q = Ok None \/
  exists s, load_cache w q = Ok (Some s) /\ times (bars s) = grid (start_ms q) (end_ms q) d.
Proof.
  intros Hgp Hcache. assert (Hf : is_fail q = true) by (unfold is_fail; by rewrite bool_decide_true).
  unfold load_cache, require_if_fail. rewrite Hf. destruct (orch_cache o) as [c|] eqn:Eo; [|by left].
  destruct (load_bar_series c (w_cache w) q) as [s|] eqn:Es; [|by left]. right.
  destruct (Hcache c s Eo Es) as [Hh Hc]. pose proof (honest_valid s false Hh (fun _ => Hc)) as Hv. simpl.
  destruct (validate s (Some false)); [|done]. simpl. unfold require_complete. rewrite Hc. simpl.
  exists s. split; [done|]. by apply honest_complete.
Qed.

(** C13: gaps are filled.  Take an [auto] query under the fail policy whose
    cache entry, if there is one, is the whole range, a store that can be read
    and holds some closed bars of the query's grid in order, and a provider
    that has the whole history.  Then the call returns, and what it returns is
    the whole grid, every bar time of the range exactly once and in order -
    unless the store refuses to persist the fetched bars, and then the call
    raises [StorageUnavailableError] and nothing else. *)
Theorem auto_fills_gaps w st :
  bq_source q = "auto" -> gap_policy q = "fail" -> start_ms q < end_ms q -> cache_sound w ->
  store_read (orch_store o) (w_store w) q = Ok st -> honest st ->
  exists w' r, load_bars w q = (w', r) /\
    ((exists s, r = Ok s /\ times (bars s) = grid (start_ms q) (end_ms q) d) \/
     (exists s text, r = Err (StorageUnavailableError text) /\ (write_series w s).2 = Err (StorageUnavailableError text))).
Proof.
  intros Hsrc Hgp Hlt Hcache Hread Hst. pose proof Hst as [Hsq [src Hcov] Hsorted Hclosed Hsub].
  assert (Hf : is_fail q = true) by (unfold is_fail; by rewrite bool_decide_true).
  destruct (gaps_on_grid (bars st) src Hlt Hsorted) as [Hon Hcovers]. rewrite <-Hcov in Hon, Hcovers.
  destruct (coalesced_gaps (missing_intervals (coverage st)) Hon) as (Hsep & Hon' & Hcov').
  set (xs := coalesce_intervals (missing_intervals (coverage st))) in *.
  assert (Hxs : Forall (fun x => x.1 < x.2) xs) by (eapply Forall_impl; [exact Hon'|]; intros x (_ & _ & ? & _); done).
  unfold load_bars. rewrite Hsrc. simpl. destruct (sound_cache_answers w Hgp Hcache) as [->|(s & -> & Hs)]; [|eauto 8].
  unfold load_storage. rewrite Hread. simpl. pose proof (honest_valid st true Hst ltac:(done)) as Hv.
  destruct (validate st (Some true)) as [cv|]; [|done]. simpl.
  destruct (is_complete (coverage st)) eqn:Hc; [eexists _, _; split; [done|]; left; exists st; split; [done|by apply honest_complete]|].
  unfold load_missing_from_provider. fold xs.
  destruct (fetch_missing_ok w xs [] Hxs) as (w1 & bs & -> & Hst1 & _ & Ht & Hcl). simpl.
  destruct (gap_grids_sorted xs Hsep Hxs) as [Hs _]. rewrite <-Ht in Hs.
  rewrite (sort_bars_id bs Hs).
  set (pr := mkSeries q bs (coverage_for q bs "provider")).
  assert (Hw : exists w2 wr, (if negb (bool_decide (bs = [])) && negb provider_persists_fetches
                              then write_provider_series w1 pr else (w1, Ok tt)) = (w2, wr) /\
    (wr = Ok tt \/ exists text, wr = Err (StorageUnavailableError text) /\ (write_series w pr).2 = Err (StorageUnavailableError text))).
  { destruct (negb _ && _); [|eauto]. unfold write_provider_series, validated_write.
    assert (Hvp : is_ok (validate pr (Some true)) = true) by (apply validate_spec; simpl; by split_and!; auto).
    destruct (validate pr (Some true)); [|done]. simpl. unfold write_series. rewrite Hst1.
    destruct (store_write _ _ pr) as [st' [res|text]]; [|eauto 10]. destruct (sr_success res); eauto 10. }
  destruct Hw as (w2 & wr & -> & [->|(text & -> & Hwr)]); simpl; [|eauto 10].
  destruct (merged_full (bars st) bs) as [Hm Hcomp]; [done..| |].
  { intros t. rewrite Ht. apply stored_and_gaps_full; [done|done|]. intros u. by rewrite Hcov', Hcovers. }
  unfold require_if_fail, require_complete, merge_series. rewrite Hf. cbn [coverage bars pr]. rewrite Hcomp. eauto 10.
Qed.

End Fill.

End Orchestrator.

(** ** Witnesses *)

Definition w_complete (c : CoverageReport) : bool := bool_decide (cov_status c = "valid").

(** A store with two bars, and a provider with all of them that logs the
    ranges it is asked for. *)
Definition w_st (q : BarQuery) : BarSeries :=
  mkSeries q [w_bar 0; w_bar 120] (coverage_for q [w_bar 0; w_bar 120] "storage").

Definition w_str : Store (S:=unit) :=
  mkStore (fun _ q => Ok (w_st q)) (fun st _ => (st, Ok (mkStoreResult true None))).

Definition w_provider : Provider (P:=list interval) :=
  mkProvider false (fun ps q =>
    let bs := w_bar <$> grid (start_ms q) (end_ms q) 60 in
    (ps ++ [(start_ms q, end_ms q)], Ok (mkSeries q bs (coverage_for q bs "provider")))).

Definition w_orch : Orchestrator (S:=unit) (P:=list interval) (C:=unit) := mkOrch (Some w_provider) w_str None.
Definition w_world : World (S:=unit) (P:=list interval) (C:=unit) := mkWorld tt [] tt.

Example w_asks : w_prov (load_bars w_complete w_orch w_world (w_query "fail" "auto")).1 = [(60, 120); (180, 300)].
Proof. vm_compute. reflexivity. Qed.

Lemma fail_policy_complete_witness :
  exists s, (load_bars w_complete w_orch w_world (w_query "fail" "auto")).2 = Ok s /\ w_complete (coverage s) = true.
Proof.
  destruct (load_bars w_complete w_orch w_world (w_query "fail" "auto")) as [w' [s|e]] eqn:H;
    [|vm_compute in H; discriminate H].
  exists s. split; [reflexivity|]. apply (fail_policy_complete w_complete w_orch w_world (w_query "fail" "auto") w' s eq_refl H).
Defined.

Lemma w_times_grid l : times (w_bar <$> l) = l.
Proof. induction l as [|x l IH]; simpl; [done|]. f_equal. exact IH. Qed.

Lemma auto_fills_gaps_witness :
  exists w' s, load_bars w_complete w_orch w_world (w_query "fail" "auto") = (w', Ok s) /\
    times (bars s) = [0; 60; 120; 180; 240].
Proof.
  destruct (auto_fills_gaps w_complete w_orch w_provider 60 (w_query "fail" "auto")) with (w := w_world) (st := w_st (w_query "fail" "auto"))
    as (w' & r & Hl & [(s & Hs & Ht)|(s & text & Hs & Hw)]); [| | |reflexivity|reflexivity|reflexivity|reflexivity| |reflexivity| | |].
  - intros c. unfold w_complete. apply bool_decide_eq_true.
  - reflexivity.
  - intros ps q' _ Hlt. eexists _, _, "provider". split; [reflexivity|]. simpl. split; [reflexivity|].
    split; [apply w_times_grid|]. split; [|reflexivity]. apply Forall_fmap, Forall_true. intros x. reflexivity.
  - intros c s Hc. discriminate Hc.
  - constructor; [reflexivity|exists "storage"; reflexivity|simpl; repeat constructor; lia|repeat constructor|].
    intros t Ht. apply grid_spec. simpl in *. apply elem_of_cons in Ht as [->|[->|[]%not_elem_of_nil]%elem_of_cons]; (split; [lia|reflexivity]).
  - exists w', s. rewrite Hl, Hs. split; [reflexivity|exact Ht].
  - discriminate Hw.
Defined.
