(* ===== verification/Flights.v ===== *)
(** Concurrent provider requests: the single-flight protocol of
    [DataOrchestrator._load_provider] in [openpine/data/orchestrator.py].

    Threads enter with a query; under the guard each finds the flight of its
    series or becomes its owner.  An owner fetches, removes the flight under
    the guard and then resolves the future; a waiter takes the result if the
    flight was for its own query and otherwise tries again.  Every step below
    is one guarded section or one operation on a future. *)

From S2P Require Import Prelude PyFloat Coverage.

#[export] Instance Timeframe_eq_dec : EqDecision Timeframe.
Proof. solve_decision. Defined.
#[export] Instance BarQuery_eq_dec : EqDecision BarQuery.
Proof. solve_decision. Defined.

Definition skey : Type := string * string * string * string.

Definition provider_series_key (q : BarQuery) : skey :=
  (bq_exchange q, bq_market q, bq_symbol q, canonical (bq_timeframe q)).

Section Flights.
(** What a provider request yields: a series or an exception. *)
Context {R : Type}.

Inductive pc :=
| Enter (q : BarQuery)
| Waiting (f : nat) (q : BarQuery)
| Fetching (f : nat) (q : BarQuery)
| Resolving (f : nat) (q : BarQuery) (r : R)
| Finished (q : BarQuery) (r : R).

(** [flights] is [_provider_flights]; [fl_query] and [futures] are the fields
    of the flight objects (a future without entry is unresolved); [fetched]
    records what the provider answered each flight. *)
Record State := mkState {
  flights : gmap skey nat;
  fl_query : gmap nat BarQuery;
  futures : gmap nat R;
  fetched : gmap nat R;
  pcs : gmap nat pc
}.

Definition set_pc (s : State) (i : nat) (c : pc) : State :=
  mkState (flights s) (fl_query s) (futures s) (fetched s) (<[i := c]> (pcs s)).

Inductive step : State -> State -> Prop :=
(** A new call of [_load_provider]. *)
| s_call s i q : pcs s !! i = None -> step s (set_pc s i (Enter q))
(** Guarded section: no flight, become its owner. *)
| s_own s i q f :
    pcs s !! i = Some (Enter q) -> flights s !! provider_series_key q = None -> fl_query s !! f = None ->
    step s (mkState (<[provider_series_key q := f]> (flights s)) (<[f := q]> (fl_query s)) (futures s) (fetched s)
              (<[i := Fetching f q]> (pcs s)))
(** Guarded section: a flight exists. *)
| s_join s i q f :
    pcs s !! i = Some (Enter q) -> flights s !! provider_series_key q = Some f ->
    step s (set_pc s i (Waiting f q))
(** [flight.future.result()] returns or raises, and the flight was for this query. *)
| s_share s i q f r :
    pcs s !! i = Some (Waiting f q) -> futures s !! f = Some r -> fl_query s !! f = Some q ->
    step s (set_pc s i (Finished q r))
(** ... and it was for another range of the series: try again. *)
| s_retry s i q q' f r :
    pcs s !! i = Some (Waiting f q) -> futures s !! f = Some r -> fl_query s !! f = Some q' -> q' <> q ->
    step s (set_pc s i (Enter q))
(** The provider answers; guarded section: remove the flight if it is still this one. *)
| s_fetch s i q f r :
    pcs s !! i = Some (Fetching f q) ->
    step s (mkState (if decide (flights s !! provider_series_key q = Some f)
                     then delete (provider_series_key q) (flights s) else flights s)
              (fl_query s) (futures s) (<[f := r]> (fetched s)) (<[i := Resolving f q r]> (pcs s)))
(** [flight.future.set_result] or [set_exception]. *)
| s_resolve s i q f r :
    pcs s !! i = Some (Resolving f q r) ->
    step s (mkState (flights s) (fl_query s) (<[f := r]> (futures s)) (fetched s) (<[i := Finished q r]> (pcs s))).

Definition init : State := mkState ∅ ∅ ∅ ∅ ∅.

(** The thread that will resolve a flight. *)
Definition owns (s : State) (i f : nat) (q : BarQuery) : Prop :=
  pcs s !! i = Some (Fetching f q) \/ exists r, pcs s !! i = Some (Resolving f q r).

Record inv (s : State) : Prop := mk_inv {
  inv_fetch : forall i f q, pcs s !! i = Some (Fetching f q) -> flights s !! provider_series_key q = Some f;
  inv_owner : forall i f q, owns s i f q -> fl_query s !! f = Some q /\ futures s !! f = None;
  inv_unique : forall i j f q q', owns s i f q -> owns s j f q' -> i = j;
  inv_flight : forall k f, flights s !! k = Some f ->
    exists i q, pcs s !! i = Some (Fetching f q) /\ provider_series_key q = k;
  inv_wait : forall i f q, pcs s !! i = Some (Waiting f q) ->
    is_Some (fl_query s !! f) /\ (is_Some (futures s !! f) \/ exists j q', owns s j f q');
  inv_resolving : forall i f q r, pcs s !! i = Some (Resolving f q r) -> fetched s !! f = Some r;
  inv_future : forall f r, futures s !! f = Some r -> fetched s !! f = Some r /\ is_Some (fl_query s !! f);
  inv_done : forall i q r, pcs s !! i = Some (Finished q r) ->
    exists f, fl_query s !! f = Some q /\ futures s !! f = Some r
}.

Lemma owns_set_pc s i j f q c :
  (forall f q, c <> Fetching f q) -> (forall f q r, c <> Resolving f q r) ->
  owns (set_pc s i c) j f q -> j <> i /\ owns s j f q.
Proof.
  intros H1 H2. unfold owns. simpl. destruct (decide (i = j)) as [<-|Hne].
  - rewrite lookup_insert_eq. intros [?|[r ?]]; simplify_eq; exfalso; [by eapply H1|by eapply H2].
  - rewrite lookup_insert_ne by done. done.
Qed.

Lemma owns_other s i j f q c : i <> j -> owns s j f q -> owns (set_pc s i c) j f q.
Proof. intros Hne. unfold owns. simpl. by rewrite lookup_insert_ne. Qed.

(** A thread that owns nothing moves to a state that owns nothing. *)
Lemma inv_set_pc s i c :
  inv s -> (forall f q, ~ owns s i f q) ->
  (forall f q, c <> Fetching f q) -> (forall f q r, c <> Resolving f q r) ->
  (forall f q, c = Waiting f q -> is_Some (fl_query s !! f) /\ (is_Some (futures s !! f) \/ exists j q', owns s j f q')) ->
  (forall q r, c = Finished q r -> exists f, fl_query s !! f = Some q /\ futures s !! f = Some r) ->
  inv (set_pc s i c).
Proof.
  intros Hinv Hno Hf Hr Hw Hd. destruct Hinv as [I1 I2 I3 I4 I5 I6 I7 I8].
  assert (Hkeep : forall j f q, owns s j f q -> owns (set_pc s i c) j f q).
  { intros j f q Ho. apply owns_other; [|done]. intros ->. by eapply Hno. }
  constructor; simpl.
  - intros j f q H. destruct (decide (i = j)) as [<-|Hne]; [rewrite lookup_insert_eq in H|rewrite lookup_insert_ne in H by done; by eapply I1].
    simplify_eq. by exfalso; eapply Hf.
  - intros j f q H. apply owns_set_pc in H as [_ H]; [by eapply I2|done..].
  - intros j k f q q' H1 H2. apply owns_set_pc in H1 as [_ H1]; [|done..]. apply owns_set_pc in H2 as [_ H2]; [by eapply I3|done..].
  - intros k f H. destruct (I4 k f H) as (j & q & Hj & Hk). exists j, q. rewrite lookup_insert_ne; [done|].
    intros ->. eapply Hno. by left.
  - intros j f q H. assert (Hx : is_Some (fl_query s !! f) /\ (is_Some (futures s !! f) \/ exists j q', owns s j f q')).
    { destruct (decide (i = j)) as [<-|Hne]; [rewrite lookup_insert_eq in H|rewrite lookup_insert_ne in H by done; by eapply I5].
      simplify_eq. by eapply Hw. }
    destruct Hx as [Hx1 [Hx2|(k & q' & Hx2)]]; split; eauto 10.
  - intros j f q r H. destruct (decide (i = j)) as [<-|Hne]; [rewrite lookup_insert_eq in H|rewrite lookup_insert_ne in H by done; by eapply I6].
    simplify_eq. by exfalso; eapply Hr.
  - done.
  - intros j q r H. destruct (decide (i = j)) as [<-|Hne]; [rewrite lookup_insert_eq in H|rewrite lookup_insert_ne in H by done; by eapply I8].
    simplify_eq. by eapply Hd.
Qed.

Lemma inv_init : inv init.
Proof. constructor; unfold owns; simpl; intros; try (by rewrite ?lookup_empty in *); naive_solver. Qed.

Lemma not_owner s i c : pcs s !! i = Some c -> (forall f q, c <> Fetching f q) -> (forall f q r, c <> Resolving f q r) ->
  forall f q, ~ owns s i f q.
Proof. intros H H1 H2 f q [E|[r E]]; rewrite H in E; simplify_eq; [by eapply H1|by eapply H2]. Qed.

Lemma inv_own s i q f :
  inv s -> pcs s !! i = Some (Enter q) -> flights s !! provider_series_key q = None -> fl_query s !! f = None ->
  inv (mkState (<[provider_series_key q := f]> (flights s)) (<[f := q]> (fl_query s)) (futures s) (fetched s)
         (<[i := Fetching f q]> (pcs s))).
Proof.
  intros Hinv Hi Hnone Hfresh. set (s' := mkState _ _ _ _ _).
  assert (Hno : forall f q, ~ owns s i f q) by (by eapply not_owner).
  destruct Hinv as [I1 I2 I3 I4 I5 I6 I7 I8].
  assert (Hnew : forall j f' q', owns s' j f' q' -> (j = i /\ f' = f /\ q' = q) \/ (j <> i /\ f' <> f /\ owns s j f' q')).
  { intros j f' q' H. unfold owns, s' in H. simpl in H. destruct (decide (i = j)) as [<-|Hne].
    - rewrite lookup_insert_eq in H. left. destruct H as [H|[r H]]; by simplify_eq.
    - rewrite lookup_insert_ne in H by done. right. split_and!; [done| |exact H]. intros ->.
      destruct (I2 j f q' H) as [E _]. congruence. }
  assert (Hkeep : forall j f' q', owns s j f' q' -> owns s' j f' q').
  { intros j f' q' H. unfold owns, s'. simpl. rewrite lookup_insert_ne; [done|]. intros ->. by eapply Hno. }
  assert (Hfut : futures s !! f = None).
  { destruct (futures s !! f) as [r|] eqn:E; [|done]. destruct (I7 _ _ E) as [_ [x Hx]]. congruence. }
  assert (Hq : forall f' q', fl_query s !! f' = Some q' -> <[f := q]> (fl_query s) !! f' = Some q').
  { intros f' q' H. rewrite lookup_insert_ne; [done|]. congruence. }
  constructor; simpl.
  - intros j f' q' H. destruct (decide (i = j)) as [<-|Hne].
    + rewrite lookup_insert_eq in H. simplify_eq. by rewrite lookup_insert_eq.
    + rewrite lookup_insert_ne in H by done. pose proof (I1 _ _ _ H). rewrite lookup_insert_ne; [done|]. congruence.
  - intros j f' q' H. apply Hnew in H as [(-> & -> & ->)|(_ & Hne & H)]; [by rewrite lookup_insert_eq|].
    destruct (I2 _ _ _ H) as [E1 E2]. split; [by apply Hq|done].
  - intros j k f' q1 q2 H1 H2.
    apply Hnew in H1 as [(E1 & E2 & _)|(_ & Hf1 & H1)]; apply Hnew in H2 as [(E3 & E4 & _)|(_ & Hf2 & H2)];
      [congruence..|by eapply I3].
  - intros k f' H. destruct (decide (provider_series_key q = k)) as [<-|Hne].
    + rewrite lookup_insert_eq in H. simplify_eq. exists i, q. by rewrite lookup_insert_eq.
    + rewrite lookup_insert_ne in H by done. destruct (I4 _ _ H) as (j & q' & Hj & Hk). exists j, q'.
      rewrite lookup_insert_ne; [done|]. intros ->. congruence.
  - intros j f' q' H. destruct (decide (i = j)) as [<-|Hne]; [by rewrite lookup_insert_eq in H|].
    rewrite lookup_insert_ne in H by done. destruct (I5 _ _ _ H) as [[x Hx] Hor]. split; [by rewrite (Hq _ _ Hx)|].
    destruct Hor as [|(k & q2 & Hk)]; eauto 10.
  - intros j f' q' r H. destruct (decide (i = j)) as [<-|Hne]; [by rewrite lookup_insert_eq in H|].
    rewrite lookup_insert_ne in H by done. by eapply I6.
  - intros f' r H. destruct (I7 _ _ H) as [E [x Hx]]. split; [done|by rewrite (Hq _ _ Hx)].
  - intros j q' r H. destruct (decide (i = j)) as [<-|Hne]; [by rewrite lookup_insert_eq in H|].
    rewrite lookup_insert_ne in H by done. destruct (I8 _ _ _ H) as (f' & E1 & E2). exists f'. split; [by apply Hq|done].
Qed.

Lemma inv_fetch_step s i q f r :
  inv s -> pcs s !! i = Some (Fetching f q) ->
  inv (mkState (if decide (flights s !! provider_series_key q = Some f)
                then delete (provider_series_key q) (flights s) else flights s)
         (fl_query s) (futures s) (<[f := r]> (fetched s)) (<[i := Resolving f q r]> (pcs s))).
Proof.
  intros Hinv Hi. destruct Hinv as [I1 I2 I3 I4 I5 I6 I7 I8]. pose proof (I1 _ _ _ Hi) as Hfl.
  rewrite decide_True by done. set (s' := mkState _ _ _ _ _).
  assert (Hown : owns s i f q) by (by left). destruct (I2 _ _ _ Hown) as [Hq Hf].
  assert (Hiff : forall j f' q', owns s' j f' q' <-> owns s j f' q').
  { intros j f' q'. unfold owns, s'. simpl. destruct (decide (i = j)) as [<-|Hne].
    - rewrite lookup_insert_eq, Hi. split; [intros [?|[? ?]]; simplify_eq; by left|intros [?|[? ?]]; simplify_eq; eauto].
    - by rewrite lookup_insert_ne. }
  assert (Hother : forall j f' q', i <> j -> owns s j f' q' -> f' <> f).
  { intros j f' q' Hne Ho ->. apply Hne. by eapply I3. }
  constructor; simpl.
  - intros j f' q' H. destruct (decide (i = j)) as [<-|Hne]; [by rewrite lookup_insert_eq in H|].
    rewrite lookup_insert_ne in H by done. pose proof (I1 _ _ _ H) as E. rewrite lookup_delete_ne; [done|].
    intros Ek. rewrite Ek in Hfl. simplify_eq. eapply (Hother j); [done|by left|done].
  - intros j f' q' H. apply Hiff in H. by apply (I2 j).
  - intros j k f' q1 q2 H1 H2. apply Hiff in H1, H2. by eapply I3.
  - intros k f' H. apply lookup_delete_Some in H as [Hne H]. destruct (I4 _ _ H) as (j & q' & Hj & Hk). exists j, q'.
    rewrite lookup_insert_ne; [done|]. intros ->. congruence.
  - intros j f' q' H. destruct (decide (i = j)) as [<-|Hne]; [by rewrite lookup_insert_eq in H|].
    rewrite lookup_insert_ne in H by done. destruct (I5 _ _ _ H) as [Hx Hor]. split; [done|].
    destruct Hor as [|(k & q2 & Hk)]; [by left|]. right. exists k, q2. by apply Hiff.
  - intros j f' q' r' H. destruct (decide (i = j)) as [<-|Hne].
    + rewrite lookup_insert_eq in H. simplify_eq. by rewrite lookup_insert_eq.
    + rewrite lookup_insert_ne in H by done. rewrite lookup_insert_ne; [by eapply I6|].
      intros <-. eapply (Hother j); [done|right; by exists r'|done].
  - intros f' r' H. destruct (I7 _ _ H) as [E Hx]. split; [|done]. rewrite lookup_insert_ne; [done|]. congruence.
  - intros j q' r' H. destruct (decide (i = j)) as [<-|Hne]; [by rewrite lookup_insert_eq in H|].
    rewrite lookup_insert_ne in H by done. by eapply I8.
Qed.

Lemma inv_resolve_step s i q f r :
  inv s -> pcs s !! i = Some (Resolving f q r) ->
  inv (mkState (flights s) (fl_query s) (<[f := r]> (futures s)) (fetched s) (<[i := Finished q r]> (pcs s))).
Proof.
  intros Hinv Hi. set (s' := mkState _ _ _ _ _). destruct Hinv as [I1 I2 I3 I4 I5 I6 I7 I8].
  assert (Hown : owns s i f q) by (right; by exists r). destruct (I2 _ _ _ Hown) as [Hq Hf].
  assert (Hiff : forall j f' q', owns s' j f' q' -> j <> i /\ owns s j f' q').
  { intros j f' q' H. unfold owns, s' in H. simpl in H. destruct (decide (i = j)) as [<-|Hne].
    - rewrite lookup_insert_eq in H. by destruct H as [?|[? ?]].
    - by rewrite lookup_insert_ne in H. }
  assert (Hback : forall j f' q', j <> i -> owns s j f' q' -> owns s' j f' q').
  { intros j f' q' Hne H. unfold owns, s'. simpl. by rewrite lookup_insert_ne. }
  assert (Hmono : forall f' r', futures s !! f' = Some r' -> <[f := r]> (futures s) !! f' = Some r').
  { intros f' r' H. rewrite lookup_insert_ne; [done|]. congruence. }
  constructor; simpl.
  - intros j f' q' H. destruct (decide (i = j)) as [<-|Hne]; [by rewrite lookup_insert_eq in H|].
    rewrite lookup_insert_ne in H by done. by eapply I1.
  - intros j f' q' H. apply Hiff in H as [Hne H]. destruct (I2 _ _ _ H) as [E1 E2]. split; [done|].
    rewrite lookup_insert_ne; [done|]. intros <-. apply Hne. by eapply I3.
  - intros j k f' q1 q2 H1 H2. apply Hiff in H1 as [_ H1]. apply Hiff in H2 as [_ H2]. by eapply I3.
  - intros k f' H. destruct (I4 _ _ H) as (j & q' & Hj & Hk). exists j, q'. rewrite lookup_insert_ne; [done|]. congruence.
  - intros j f' q' H. destruct (decide (i = j)) as [<-|Hne]; [by rewrite lookup_insert_eq in H|].
    rewrite lookup_insert_ne in H by done. destruct (I5 _ _ _ H) as [Hx Hor]. split; [done|].
    destruct Hor as [[x E]|(k & q2 & Hk)]; [left; by rewrite (Hmono _ _ E)|].
    destruct (decide (k = i)) as [->|Hki]; [|right; exists k, q2; by apply Hback].
    left. destruct Hk as [E|[r' E]]; rewrite Hi in E; simplify_eq. by rewrite lookup_insert_eq.
  - intros j f' q' r' H. destruct (decide (i = j)) as [<-|Hne]; [by rewrite lookup_insert_eq in H|].
    rewrite lookup_insert_ne in H by done. by eapply I6.
  - intros f' r' H. destruct (decide (f = f')) as [<-|Hne].
    + rewrite lookup_insert_eq in H. simplify_eq. split; [by eapply I6|eauto].
    + rewrite lookup_insert_ne in H by done. by apply I7.
  - intros j q' r' H. destruct (decide (i = j)) as [<-|Hne].
    + rewrite lookup_insert_eq in H. simplify_eq. exists f. by rewrite lookup_insert_eq.
    + rewrite lookup_insert_ne in H by done. destruct (I8 _ _ _ H) as (f' & E1 & E2). exists f'. split; [done|by apply Hmono].
Qed.

Lemma inv_step s s' : step s s' -> inv s -> inv s'.
Proof.
  intros Hst Hinv.
  destruct Hst as [s i q Hi|s i q f Hi Hk Hf|s i q f Hi Hk|s i q f r Hi Hr Hq|s i q q' f r Hi Hr Hq Hne|s i q f r Hi|s i q f r Hi].
  - apply inv_set_pc; try done. intros f q' [E|[r E]]; congruence.
  - by apply inv_own.
  - apply inv_set_pc; try done; [by eapply not_owner|]. intros f' q' E. simplify_eq.
    destruct (inv_flight _ Hinv _ _ Hk) as (j & q2 & Hj & _). assert (Ho : owns s j f' q2) by (by left).
    destruct (inv_owner _ Hinv _ _ _ Ho) as [E _]. split; eauto.
  - apply inv_set_pc; try done; [by eapply not_owner|]. intros q' r' E. simplify_eq. eauto.
  - apply inv_set_pc; try done. by eapply not_owner.
  - by apply inv_fetch_step.
  - by apply inv_resolve_step.
Qed.

Lemma inv_reachable s : rtc step init s -> inv s.
Proof.
  intros H. assert (Hg : forall s0, rtc step s0 s -> inv s0 -> inv s) by (induction 1; eauto using inv_step).
  by eapply Hg, inv_init.
Qed.

(** C14: one request per series.  However calls interleave, no two threads are
    ever fetching the same exchange, market, symbol and timeframe at once. *)
Theorem single_flight s i j f g q q' :
  rtc step init s -> pcs s !! i = Some (Fetching f q) -> pcs s !! j = Some (Fetching g q') ->
  provider_series_key q = provider_series_key q' -> i = j.
Proof.
  intros Hr%inv_reachable Hi Hj Hk. pose proof (inv_fetch _ Hr _ _ _ Hi) as E1. pose proof (inv_fetch _ Hr _ _ _ Hj) as E2.
  rewrite Hk, E2 in E1. simplify_eq. eapply (inv_unique _ Hr i j f q q'); by left.
Qed.

(** Every call answers its own query: what a call returns or raises is
    what the provider answered a request for exactly that query, its own or
    one it joined. *)
Theorem flight_result_own_query s i q r :
  rtc step init s -> pcs s !! i = Some (Finished q r) ->
  exists f, fl_query s !! f = Some q /\ fetched s !! f = Some r.
Proof.
  intros Hr%inv_reachable Hi. destruct (inv_done _ Hr _ _ _ Hi) as (f & Hq & Hf).
  exists f. split; [done|]. by apply (inv_future _ Hr).
Qed.

(** C15: no lost wake-ups: a call that has not returned can take a step, or
    waits for a thread that can. *)
Theorem flights_progress s i c (answer : R) :
  rtc step init s -> pcs s !! i = Some c -> (forall q r, c <> Finished q r) ->
  exists j cj s', step s s' /\ pcs s !! j = Some cj /\ pcs s' !! j <> Some cj /\
    (j = i \/ exists f q, c = Waiting f q /\ exists q', owns s j f q').
Proof.
  intros Hr%inv_reachable Hi Hc.
  assert (Hmove : forall j f q, owns s j f q -> exists cj s', step s s' /\ pcs s !! j = Some cj /\ pcs s' !! j <> Some cj).
  { intros j f q [Hj|[r Hj]]; eexists _, _; (split; [first [by apply (s_fetch s j q f answer)|by apply (s_resolve s j q f r)]|]);
      (split; [exact Hj|]); simpl; by rewrite lookup_insert_eq. }
  destruct c as [q|f q|f q|f q r|q r]; [| | | |by destruct (Hc q r)].
  - exists i, (Enter q). destruct (flights s !! provider_series_key q) as [f|] eqn:Hk.
    + eexists. split; [by eapply s_join|]. simpl. rewrite lookup_insert_eq. auto.
    + eexists. split; [apply (s_own s i q (fresh (dom (fl_query s)))); [done..|]; apply not_elem_of_dom, is_fresh|].
      simpl. rewrite lookup_insert_eq. auto.
  - destruct (inv_wait _ Hr _ _ _ Hi) as [[q' Hq'] [[r Hf]|(j & q2 & Hj)]].
    + exists i, (Waiting f q). destruct (decide (q' = q)) as [->|Hne].
      * eexists. split; [by eapply s_share|]. simpl. rewrite lookup_insert_eq. auto.
      * eexists. split; [by eapply s_retry|]. simpl. rewrite lookup_insert_eq. auto.
    + destruct (Hmove _ _ _ Hj) as (cj & s' & Hs & Hcj & Hn). exists j, cj, s'. eauto 12.
  - destruct (Hmove i f q) as (cj & s' & Hs & Hcj & Hn); [by left|]. exists i, cj, s'. auto.
  - destruct (Hmove i f q) as (cj & s' & Hs & Hcj & Hn); [right; by exists r|]. exists i, cj, s'. auto.
Qed.

End Flights.

(** ** Witnesses *)

Definition w_fetching : State (R:=Z) :=
  mkState {[provider_series_key (w_query "fail" "auto") := 0%nat]} {[0%nat := w_query "fail" "auto"]} ∅ ∅
    {[1%nat := Fetching 0 (w_query "fail" "auto")]}.

Definition w_done : State (R:=Z) :=
  mkState ∅ {[0%nat := w_query "fail" "auto"]} {[0%nat := 7]} {[0%nat := 7]} {[1%nat := Finished (w_query "fail" "auto") 7]}.

Lemma w_fetching_reachable : rtc step init w_fetching.
Proof.
  eapply rtc_l; [apply (s_call _ 1 (w_query "fail" "auto")); reflexivity|].
  eapply rtc_l; [eapply (s_own _ 1 (w_query "fail" "auto") 0); reflexivity|]. apply rtc_refl.
Qed.

Lemma w_done_reachable : rtc step init w_done.
Proof.
  etrans; [exact w_fetching_reachable|].
  eapply rtc_l; [eapply (s_fetch _ 1 (w_query "fail" "auto") 0 7); reflexivity|].
  eapply rtc_l; [eapply (s_resolve _ 1 (w_query "fail" "auto") 0 7); reflexivity|]. apply rtc_refl.
Qed.

Lemma single_flight_witness : (1 = 1)%nat.
Proof.
  apply (single_flight w_fetching 1 1 0 0 (w_query "fail" "auto") (w_query "fail" "auto") w_fetching_reachable); reflexivity.
Defined.

Lemma flight_result_own_query_witness :
  exists f, fl_query w_done !! f = Some (w_query "fail" "auto") /\ fetched w_done !! f = Some 7.
Proof. apply (flight_result_own_query w_done 1 (w_query "fail" "auto") 7 w_done_reachable). reflexivity. Defined.

Lemma flights_progress_witness :
  exists s', step w_fetching s'.
Proof.
  destruct (flights_progress w_fetching 1 (Fetching 0 (w_query "fail" "auto")) 7 w_fetching_reachable)
    as (j & cj & s' & H & _); [reflexivity|discriminate|]. exists s'. exact H.
Defined.
