(* ===== verification/ParallelFetch.v ===== *)
(** Parallel fetching: [openpine/data/parallel_fetcher.py].

    The executor finishes the submitted jobs in some order; a run is the list
    of the jobs with their outcomes in that order ([as_completed]). *)

From S2P Require Import Prelude PyFloat Coverage.

Record FetchJob := mkFetchJob {
  fj_symbol : string;
  fj_timeframe : string;
  fj_start_ms : option Z;
  fj_end_ms : option Z;
  fj_exchange : string;
  fj_market_type : string
}.

Definition job_key (j : FetchJob) : string := fj_symbol j +:+ ":" +:+ fj_timeframe j.

Definition default_workers (cpu_count : option Z) : Z :=
  let n := match cpu_count with Some n => if n =? 0 then 1 else n | None => 1 end in Z.max 1 (n / 2).

Inductive fetch_error :=
| ParallelFetchError (text : string)
| InvalidWindow (start_ms end_ms : Z).

(** The query of [fetch_single]; the timeframe parser and the query's default
    gap policy belong to the marketdata package. *)
Definition single_query (parse_timeframe : string -> Timeframe) (dflt_policy : string) (j : FetchJob) : BarQuery :=
  mkQuery (fj_exchange j) "usdm" (fj_symbol j) (parse_timeframe (fj_timeframe j))
    (default 0 (fj_start_ms j)) (default (10 ^ 18) (fj_end_ms j)) "provider" dflt_policy.

(** A job with what its future holds. *)
Abbreviation outcome := (FetchJob * result string (list Bar))%type.

(** The loop over the completed futures. *)
Definition collect (results : dict string (list Bar)) (x : outcome) : result fetch_error (dict string (list Bar)) :=
  match x.2 with
  | Ok bs => Ok (dset results (job_key x.1) bs)
  | Err e => Err (ParallelFetchError ("parallel fetch failed for " +:+ job_key x.1 +:+ ": " +:+ e))
  end.

Definition fetch_many (completed : list outcome) : result fetch_error (dict string (list Bar)) :=
  result_fold collect [] completed.

(** The loop that cuts the window; [None] when the fuel runs out. *)
Fixpoint chunks (fuel : nat) (chunk_start end_ size : Z) : option (list interval) :=
  if chunk_start <? end_ then
    match fuel with
    | O => None
    | S fuel' =>
        let chunk_end := Z.min (chunk_start + size) end_ in
        rest ← chunks fuel' chunk_end end_ size; Some ((chunk_start, chunk_end) :: rest)
    end
  else Some [].

Definition chunk_job (symbol timeframe exchange : string) (x : interval) : FetchJob :=
  mkFetchJob symbol timeframe (Some x.1) (Some x.2) exchange "usdm".

(** The final loop: first bar of each time, in the order of the results. *)
Fixpoint dedupe (seen : list Z) (bs : list Bar) : list Bar :=
  match bs with
  | [] => []
  | b :: bs' => if bool_decide (bar_time b ∈ seen) then dedupe seen bs' else b :: dedupe (bar_time b :: seen) bs'
  end.

Definition merge_results (results : dict string (list Bar)) : list Bar :=
  sort_bars (dedupe [] (concat (dvalues results))).

(** [fetch_chunked] where the jobs of the chunks finish as [run jobs]. *)
Definition fetch_chunked (run : list FetchJob -> list outcome) (fuel : nat) (symbol timeframe : string)
    (start_ end_ size : Z) (exchange : string) : option (result fetch_error (list Bar)) :=
  if end_ <=? start_ then Some (Err (InvalidWindow start_ end_))
  else
    xs ← chunks fuel start_ end_ size;
    Some (let! results := fetch_many (run (chunk_job symbol timeframe exchange <$> xs)) in
          Ok (merge_results results)).

(** ** Many jobs *)

Lemma collect_fold d xs d' :
  result_fold collect d xs = Ok d' ->
  forall k, dget d' k = match last (omap (fun x : outcome => match x.2 with
                                        | Ok bs => if bool_decide (job_key x.1 = k) then Some bs else None
                                        | Err _ => None end) xs) with
                        | Some bs => Some bs | None => dget d k end.
Proof.
  revert d. induction xs as [|[j r] xs IH]; intros d H k; simpl in *; [by simplify_eq|].
  apply result_bind_ok in H as (d1 & Hd1 & H). unfold collect in Hd1. simpl in Hd1. destruct r as [bs|e]; simplify_eq.
  rewrite (IH _ H k). case_bool_decide as E; simpl.
  - subst. rewrite dget_dset_eq. destruct (list_omap _ _ _ xs) as [|y ys] eqn:Ey; simpl.
    + replace (omap _ xs) with (@nil (list Bar)) by (symmetry; exact Ey). done.
    + replace (omap _ xs) with (y :: ys) by (symmetry; exact Ey). by destruct (last (y :: ys)) eqn:?; [|apply last_None in Heqo].
  - by rewrite dget_dset_ne.
Qed.

Lemma fetch_many_ok xs : Forall (fun x : outcome => is_ok x.2 = true) xs -> forall d, exists d', result_fold collect d xs = Ok d'.
Proof.
  induction 1 as [|[j r] xs Hx Hxs IH]; intros d; simpl; [eauto|]. destruct r; [|done]. unfold collect. simpl. apply IH.
Qed.

Lemma fetch_many_fails xs d d' : result_fold collect d xs = Ok d' -> Forall (fun x : outcome => is_ok x.2 = true) xs.
Proof.
  revert d. induction xs as [|[j r] xs IH]; intros d H; [constructor|]. simpl in H.
  apply result_bind_ok in H as (d1 & Hd1 & H). unfold collect in Hd1. simpl in Hd1.
  destruct r; simplify_eq. constructor; [done|eauto].
Qed.

Lemma last_unique {A} (l : list A) x : x ∈ l -> (forall y, y ∈ l -> y = x) -> last l = Some x.
Proof.
  intros Hin Hall. destruct (last l) as [y|] eqn:E.
  - apply last_Some_elem_of in E. by rewrite (Hall y E).
  - apply last_None in E as ->. by apply not_elem_of_nil in Hin.
Qed.

(** With distinct "SYMBOL:TIMEFRAME" keys the result does not depend on the
    order in which the threads finish: [fetch_many] returns exactly when every
    job succeeded, and then each key holds the bars of its job. *)
Theorem fetch_many_order_independent (jobs completed : list outcome) :
  NoDup ((fun x => job_key x.1) <$> jobs) -> Permutation completed jobs ->
  is_ok (fetch_many completed) = is_ok (fetch_many jobs) /\
  forall results, fetch_many completed = Ok results ->
    forall j bs, (j, Ok bs) ∈ jobs -> dget results (job_key j) = Some bs.
Proof.
  intros Hnd Hp. split.
  - unfold fetch_many.
    destruct (decide (Forall (fun x : outcome => is_ok x.2 = true) jobs)) as [H|H].
    + destruct (fetch_many_ok jobs H []) as [d1 ->]. rewrite <-Hp in H. by destruct (fetch_many_ok completed H []) as [d2 ->].
    + destruct (result_fold collect [] jobs) eqn:E1; [by apply fetch_many_fails in E1|].
      destruct (result_fold collect [] completed) eqn:E2; [|done].
      apply fetch_many_fails in E2. rewrite Hp in E2. done.
  - intros results H j bs Hin. rewrite (collect_fold _ _ _ H).
    rewrite (last_unique _ bs); [done| |].
    + apply list_elem_of_omap. exists (j, Ok bs). rewrite Hp. split; [done|]. simpl. by rewrite bool_decide_true.
    + intros y (x & Hx & Hy)%list_elem_of_omap. rewrite Hp in Hx. destruct x as [j' [bs'|e]]; [|done]. simpl in Hy.
      case_bool_decide as E; simplify_eq.
      assert (((j', Ok y) : outcome) = (j, Ok bs)) as Heq; [|by simplify_eq].
      apply list_elem_of_lookup in Hx as [i1 H1], Hin as [i2 H2].
      assert (i1 = i2) as ->; [|pose proof (eq_trans (eq_sym H1) H2) as H3; by injection H3 as -> ->]. eapply NoDup_lookup; [exact Hnd| |].
      * rewrite list_lookup_fmap. rewrite H1. done.
      * rewrite list_lookup_fmap. rewrite H2. simpl. by rewrite E.
Qed.

(** ** Chunks *)

(** The list starts at [a], each chunk ends where the next one starts, and the
    last one ends at [b]. *)
Fixpoint contiguous (a b : Z) (xs : list interval) : Prop :=
  match xs with
  | [] => a = b
  | (s, e) :: xs' => s = a /\ s < e /\ contiguous e b xs'
  end.

(** The chunks partition the window: for a positive chunk size the loop
    ends (within one step per millisecond), and the chunks follow each other
    from [start] to [end] without gap or overlap, none longer than the size. *)
Theorem chunks_partition start_ end_ size fuel :
  0 < size -> start_ < end_ -> (Z.to_nat (end_ - start_) <= fuel)%nat ->
  exists xs, chunks fuel start_ end_ size = Some xs /\ contiguous start_ end_ xs /\
    Forall (fun x => x.2 - x.1 <= size) xs.
Proof.
  intros Hs. assert (H : forall n a, (Z.to_nat (end_ - a) <= n)%nat -> a <= end_ ->
    exists xs, chunks n a end_ size = Some xs /\ contiguous a end_ xs /\ Forall (fun x => x.2 - x.1 <= size) xs).
  { induction n as [|n IH]; intros a Hn Ha; simpl.
    - rewrite (proj2 (Z.ltb_ge _ _)) by lia. exists []. split_and!; [done|simpl; lia|constructor].
    - destruct (a <? end_) eqn:E; bool_to_prop; [|exists []; split_and!; [done|simpl; lia|constructor]].
      destruct (IH (Z.min (a + size) end_)) as (xs & -> & Hc & Hf); [lia..|].
      eexists. simpl. split; [done|]. split; [split_and!; [done|lia|done]|]. constructor; [simpl; lia|done]. }
  intros Hlt Hf. apply H; [done|lia].
Qed.

(** A chunk size that is not positive never ends the loop on a non-empty
    window, whatever the fuel. *)
Theorem nonpositive_chunk_diverges start_ end_ size fuel :
  size <= 0 -> start_ < end_ -> chunks fuel start_ end_ size = None.
Proof.
  intros Hs. revert start_. induction fuel as [|n IH]; intros a Ha; simpl.
  - by rewrite (proj2 (Z.ltb_lt _ _)).
  - rewrite (proj2 (Z.ltb_lt _ _)) by done. rewrite IH by lia. done.
Qed.

(** ** Merging the chunks *)

Lemma collect_same_key k xs d d' :
  Forall (fun x : outcome => job_key x.1 = k) xs -> xs <> [] ->
  (d = [] \/ exists v, d = [(k, v)]) -> result_fold collect d xs = Ok d' ->
  exists x bs, last xs = Some x /\ x.2 = Ok bs /\ d' = [(k, bs)].
Proof.
  intros Hk. revert d. induction Hk as [|[j r] xs Hj Hxs IH]; intros d Hne Hd H; [done|]. simpl in *.
  apply result_bind_ok in H as (d1 & Hd1 & H). unfold collect in Hd1. simpl in Hd1. destruct r as [bs|e]; simplify_eq.
  assert (Hd1 : dset d (job_key j) bs = [(job_key j, bs)]) by (destruct Hd as [->|[v ->]]; simpl; [done|by rewrite decide_True]).
  destruct xs as [|x xs].
  - simpl in H. simplify_eq. rewrite Hd1. eexists _, bs. done.
  - apply (IH (dset d (job_key j) bs)); [done|right; eauto|done].
Qed.

(** [fetch_chunked] returns the bars of one chunk only: all chunks share
    the key "SYMBOL:TIMEFRAME", so each finished chunk overwrites the one
    before, and what comes back is (the deduplicated, sorted) result of the
    chunk that happened to finish last. *)
Theorem fetch_chunked_keeps_last_chunk run fuel symbol timeframe start_ end_ size exchange bs :
  (forall js, Permutation ((run js).*1) js) -> start_ < end_ ->
  fetch_chunked run fuel symbol timeframe start_ end_ size exchange = Some (Ok bs) ->
  exists xs j lastbs, chunks fuel start_ end_ size = Some xs /\
    last (run (chunk_job symbol timeframe exchange <$> xs)) = Some (j, Ok lastbs) /\
    bs = sort_bars (dedupe [] lastbs).
Proof.
  intros Hrun Hlt H. unfold fetch_chunked in H. rewrite (proj2 (Z.leb_gt _ _)) in H by done.
  destruct (chunks fuel start_ end_ size) as [xs|] eqn:Hx; [|done]. simpl in H. injection H as H.
  apply result_bind_ok in H as (results & Hm & H). simplify_eq.
  set (js := chunk_job symbol timeframe exchange <$> xs) in *.
  assert (Hne : run js <> []).
  { intros E. pose proof (Hrun js) as Hp. rewrite E in Hp. apply Permutation_nil in Hp. unfold js in Hp.
    destruct xs; [|done]. destruct fuel; simpl in Hx; rewrite (proj2 (Z.ltb_lt _ _)) in Hx by done; [done|].
    by destruct (chunks fuel _ _ _). }
  assert (Hk : Forall (fun x : outcome => job_key x.1 = symbol +:+ ":" +:+ timeframe) (run js)).
  { assert (Hall : Forall (fun j => job_key j = symbol +:+ ":" +:+ timeframe) ((run js).*1)).
    { rewrite (Hrun js). unfold js. apply Forall_fmap, Forall_true. done. }
    by rewrite Forall_fmap in Hall. }
  destruct (collect_same_key _ _ _ _ Hk Hne (or_introl eq_refl) Hm) as ([j r] & lastbs & Hl & Hr & ->).
  simpl in Hr. subst r. exists xs, j, lastbs. split_and!; [done|done|].
  unfold merge_results. simpl. by rewrite app_nil_r.
Qed.

(** ** Witnesses *)

Definition w_run (js : list FetchJob) : list outcome := (fun j => (j, Ok [w_bar (default 0 (fj_start_ms j))])) <$> js.

Lemma fetch_many_order_independent_witness :
  let jobs := [(mkFetchJob "A" "1m" None None "x" "usdm", Ok [w_bar 0]); (mkFetchJob "B" "1m" None None "x" "usdm", Ok [w_bar 60])] in
  exists results, fetch_many (rev jobs) = Ok results /\ dget results "A:1m" = Some [w_bar 0].
Proof.
  cbv zeta. eexists. split; [reflexivity|].
  apply (proj2 (fetch_many_order_independent
    [(mkFetchJob "A" "1m" None None "x" "usdm", Ok [w_bar 0]); (mkFetchJob "B" "1m" None None "x" "usdm", Ok [w_bar 60])]
    (rev [(mkFetchJob "A" "1m" None None "x" "usdm", Ok [w_bar 0]); (mkFetchJob "B" "1m" None None "x" "usdm", Ok [w_bar 60])])
    ltac:(apply (bool_decide_unpack (NoDup _)); vm_compute; exact I) ltac:(apply perm_swap)) _ eq_refl
    (mkFetchJob "A" "1m" None None "x" "usdm") [w_bar 0]).
  apply list_elem_of_here.
Defined.

Lemma chunks_partition_witness :
  exists xs, chunks 25 0 25 10 = Some xs /\ contiguous 0 25 xs /\ Forall (fun x => x.2 - x.1 <= 10) xs.
Proof. apply chunks_partition; lia. Defined.

Lemma nonpositive_chunk_diverges_witness : chunks 100 0 25 0 = None.
Proof. apply nonpositive_chunk_diverges; lia. Defined.

Lemma fetch_chunked_keeps_last_chunk_witness :
  exists lastbs, fetch_chunked w_run 30 "BTCUSDT" "1m" 0 300 60 "binance" = Some (Ok lastbs) /\ times lastbs = [240].
Proof.
  destruct (fetch_chunked w_run 30 "BTCUSDT" "1m" 0 300 60 "binance") as [[bs|]|] eqn:H; [|vm_compute in H; discriminate H..].
  exists bs. split; [reflexivity|].
  destruct (fetch_chunked_keeps_last_chunk w_run 30 "BTCUSDT" "1m" 0 300 60 "binance" bs) as (xs & j & lastbs & Hx & Hl & ->);
    [|lia|exact H|].
  - intros js. unfold w_run. rewrite <-list_fmap_compose. simpl. rewrite list_fmap_id. reflexivity.
  - vm_compute in Hx. injection Hx as <-. vm_compute in Hl. injection Hl as _ <-. reflexivity.
Defined.
