(* ===== verification/Fanout.v ===== *)
(** Fan-out of closed bars: [openpine/workers/strategy_fanout.py].

    A closed source bar is committed, turned into the target bars it closes,
    and each enabled strategy of the market gets one job per target bar.  The
    data layer is used through [BarSource], the registry is the list of its
    strategies, and jobs go to the scheduler of [Scheduler].  Third-party code
    is a parameter: the timeframe parser, the sum of floats (its rounding is
    the interpreter's) and the rendering of a job's input dictionary. *)

From S2P Require Import Prelude PyFloat Coverage DataOrchestrator Scheduler SchedulerFacts.

Record StrategyInstance := mkStrategy {
  si_strategy_id : string;
  si_artifact_id : string;
  si_params_hash : string;
  si_symbol : string;
  si_timeframe : string;
  si_exchange : string;
  si_market_type : string;
  si_price_type : string;
  si_mode : string;
  si_enabled : bool;
  si_mtf_series_json : string
}.

Record RawMarketKey := mkMarketKey {
  mk_exchange : string;
  mk_market_type : string;
  mk_symbol : string;
  mk_price_type : string
}.

Definition instrument_key (k : RawMarketKey) : string :=
  mk_exchange k +:+ ":" +:+ mk_market_type k +:+ ":" +:+ mk_symbol k +:+ ":" +:+ mk_price_type k.

(** A bar with the instrument and the timeframe it carries. *)
Record MarketBar := mkMarketBar {
  mb_exchange : string;
  mb_market : string;
  mb_symbol : string;
  mb_timeframe : Timeframe;
  mb_bar : Bar
}.

Inductive FanoutStatus := ENQUEUED | NO_STRATEGIES | TARGET_NOT_CLOSED.

Record TargetBarResult := mkTarget {
  tr_timeframe : string;
  tr_status : FanoutStatus;
  tr_bar : option MarketBar;
  tr_jobs : list nat
}.

Record FanoutConfig := mkFanoutConfig {
  source_timeframe : string;
  persist_source : bool;
  persist_aggregates : bool;
  fo_source : string;
  fo_priority : Z
}.

Inductive fanout_error := WrongTimeframe | BadTimeframe | VariableDuration | BelowSource | NotMultiple | EmptySeries
| DataFailed (e : data_error).

(** What the fan-out uses of the data layer: committing a closed bar, and
    reading stored bars ([IncompleteCoverageError] is reported apart). *)
Record BarSource (O : Type) := mkBarSource {
  commit_bar : O -> MarketBar -> string -> O * result data_error unit;
  stored_bars : O -> BarQuery -> O * result data_error (list Bar)
}.
Arguments commit_bar {O}.
Arguments stored_bars {O}.

(** The orchestrator as a [BarSource]. *)
Definition orchestrator_source {S P C} (is_complete : CoverageReport -> bool) (o : Orchestrator (S:=S) (P:=P) (C:=C))
    : BarSource World :=
  mkBarSource _
    (fun w b source => on_candle_closed o w (mb_exchange b) (mb_market b) (mb_symbol b) (mb_timeframe b) (mb_bar b) source)
    (fun w q => DataOrchestrator.get_bars is_complete o w q).

Definition is_incomplete (e : data_error) : bool :=
  match e with IncompleteCoverageError _ | IncompleteSeriesError _ => true | _ => false end.

(** [_enabled_strategies_for_market]. *)
Definition matches_market (k : RawMarketKey) (s : StrategyInstance) : bool :=
  si_enabled s && bool_decide (str_lower (si_exchange s) = mk_exchange k) &&
  bool_decide (str_lower (si_market_type s) = mk_market_type k) &&
  bool_decide (str_upper (si_symbol s) = mk_symbol k) &&
  bool_decide (str_lower (si_price_type s) = mk_price_type k).

Definition enabled_strategies_for_market (l : list StrategyInstance) (k : RawMarketKey) : list StrategyInstance :=
  List.filter (matches_market k) l.

Definition job_type_for_mode (mode : string) : JobType :=
  let m := str_lower mode in
  if bool_decide (m = "live") then LIVE_BAR_PROCESS
  else if bool_decide (m = "observe") then OBSERVE_BAR_PROCESS
  else PAPER_BAR_PROCESS.

Definition JobType_value (t : JobType) : string :=
  match t with
  | BACKTEST => "backtest" | OPTIMIZER => "optimizer" | BACKFILL => "backfill" | LIVE_BAR_PROCESS => "live_bar_process"
  | PAPER_BAR_PROCESS => "paper_bar_process" | OBSERVE_BAR_PROCESS => "observe_bar_process" | REPORT => "report"
  end.

Section Fanout.
Context {O : Type}.
Variable parse_timeframe : string -> option Timeframe.
Variable py_sum : list float -> float.
Variable render_input : StrategyInstance -> MarketBar -> RawMarketKey -> FanoutConfig -> string.
(** The uuid of the [n]-th job object. *)
Variable uuid : nat -> string.
Variable data : BarSource O.
Variable cfg : FanoutConfig.

(** [_group_by_target_timeframe]: sorted by canonical timeframe. *)
Definition group_by_timeframe (l : list StrategyInstance) : result fanout_error (list (string * list StrategyInstance)) :=
  let! d := result_fold (fun d s =>
    match parse_timeframe (si_timeframe s) with
    | None => Err BadTimeframe
    | Some tf => Ok (dset d (canonical tf) (default [] (dget d (canonical tf)) ++ [s]))
    end) [] l in
  Ok (sort_by (fun a b => str_leb a.1 b.1) d).

Fixpoint pick {A} (better : A -> A -> bool) (x : A) (l : list A) : A :=
  match l with [] => x | y :: l' => pick better (if better y x then y else x) l' end.

(** [_aggregate_bars]. *)
Definition aggregate_bars (bs : list Bar) (target : Timeframe) : result fanout_error Bar :=
  match sort_bars bs with
  | [] => Err EmptySeries
  | b0 :: rest =>
      let duration := match duration_ms target with Some d => Z.pos d | None => 0 end in
      Ok (mkBar (bar_time b0) (bar_time b0 + duration) (bar_open b0)
            (pick (fun y x => fltb x y) (bar_high b0) (bar_high <$> rest))
            (pick (fun y x => fltb y x) (bar_low b0) (bar_low <$> rest))
            (bar_close (List.last rest b0))
            (py_sum ((fun b => if feqb (bar_volume b) f_zero then f_zero else bar_volume b) <$> (b0 :: rest))) true)
  end.

(** [_target_bar_from_source]; [Ok None] when the target bar is not closed or
    its source bars are not all there. *)
Definition target_bar_from_source (o : O) (b : MarketBar) (target_text : string)
    : O * result fanout_error (option MarketBar) :=
  match parse_timeframe (source_timeframe cfg), parse_timeframe target_text with
  | Some src, Some target =>
      match duration_ms target, duration_ms src with
      | Some dt, Some ds =>
          if Z.pos dt <? Z.pos ds then (o, Err BelowSource)
          else if negb (Z.pos dt mod Z.pos ds =? 0) then (o, Err NotMultiple)
          else if bool_decide (canonical target = canonical src) then (o, Ok (Some b))
          else
            let close := bar_time (mb_bar b) + Z.pos ds in
            if negb (close mod Z.pos dt =? 0) then (o, Ok None)
            else
              let q := mkQuery (mb_exchange b) (mb_market b) (mb_symbol b) src (close - Z.pos dt) close "storage" "fail" in
              let '(o', r) := stored_bars data o q in
              (o', match r with
                   | Err e => if is_incomplete e then Ok None else Err (DataFailed e)
                   | Ok bs =>
                       if negb (Z.of_nat (length bs) =? Z.pos dt / Z.pos ds) then Ok None
                       else let! agg := aggregate_bars bs target in
                            Ok (Some (mkMarketBar (mb_exchange b) (mb_market b) (mb_symbol b) target agg))
                   end)
      | _, _ => (o, Err VariableDuration)
      end
  | _, _ => (o, Err BadTimeframe)
  end.

Definition idempotency_key_of (s : StrategyInstance) (b : MarketBar) (k : RawMarketKey) : string :=
  JobType_value (job_type_for_mode (si_mode s)) +:+ ":" +:+ si_strategy_id s +:+ ":" +:+ instrument_key k +:+ ":"
    +:+ canonical (mb_timeframe b) +:+ ":" +:+ pretty (bar_time (mb_bar b)).

Definition strategy_job (n : nat) (s : StrategyInstance) (b : MarketBar) (k : RawMarketKey) (now : Z) : Job :=
  mkJob (job_type_for_mode (si_mode s)) (uuid n) (Some (si_strategy_id s)) JPENDING
    (Some (idempotency_key_of s b k)) (Some (si_strategy_id s)) (fo_priority cfg) now now None None None None
    (Some (render_input s b k cfg)) None None 1 3.

(** [_enqueue_strategy_job]. *)
Definition enqueue_strategy_job (sc : Scheduler) (s : StrategyInstance) (b : MarketBar) (k : RawMarketKey) (now : Z)
    : Scheduler * nat :=
  let '(sc1, ref) := new_job sc (strategy_job (length (objects sc)) s b k now) in
  enqueue sc1 ref (uuid (length (objects sc))).

Fixpoint enqueue_group (sc : Scheduler) (l : list StrategyInstance) (b : MarketBar) (k : RawMarketKey) (now : Z)
    : Scheduler * list nat :=
  match l with
  | [] => (sc, [])
  | s :: l' =>
      let '(sc1, ref) := enqueue_strategy_job sc s b k now in
      let '(sc2, refs) := enqueue_group sc1 l' b k now in (sc2, ref :: refs)
  end.

(** The loop over the groups; [same] tells the aggregate from the source bar. *)
Fixpoint process_groups (o : O) (sc : Scheduler) (b : MarketBar) (k : RawMarketKey) (now : Z)
    (groups : list (string * list StrategyInstance)) (acc : list TargetBarResult)
    : O * Scheduler * result fanout_error (list TargetBarResult) :=
  match groups with
  | [] => (o, sc, Ok acc)
  | (tf, strategies) :: groups' =>
      let '(o1, r) := target_bar_from_source o b tf in
      match r with
      | Err e => (o1, sc, Err e)
      | Ok None => process_groups o1 sc b k now groups' (acc ++ [mkTarget tf TARGET_NOT_CLOSED None []])
      | Ok (Some t) =>
          let same := bool_decide (canonical (mb_timeframe t) = canonical (mb_timeframe b)) in
          let '(o2, c) := if negb same && persist_aggregates cfg then commit_bar data o1 t "aggregate" else (o1, Ok tt) in
          match c with
          | Err e => (o2, sc, Err (DataFailed e))
          | Ok _ =>
              let '(sc', refs) := enqueue_group sc strategies t k now in
              process_groups o2 sc' b k now groups' (acc ++ [mkTarget tf ENQUEUED (Some t) refs])
          end
      end
  end.

Definition market_key_of (b : MarketBar) : RawMarketKey :=
  mkMarketKey (str_lower (mb_exchange b)) (str_lower (mb_market b)) (str_upper (mb_symbol b)) "trade".

(** [process_source_bar]. *)
Definition process_source_bar (registry : list StrategyInstance) (o : O) (sc : Scheduler) (b : MarketBar) (now : Z)
    : O * Scheduler * result fanout_error (list TargetBarResult) :=
  match parse_timeframe (source_timeframe cfg) with
  | None => (o, sc, Err BadTimeframe)
  | Some src =>
      if negb (bool_decide (canonical (mb_timeframe b) = canonical src)) then (o, sc, Err WrongTimeframe)
      else
        let k := market_key_of b in
        let strategies := enabled_strategies_for_market registry k in
        let '(o1, c) := if persist_source cfg then commit_bar data o b (fo_source cfg) else (o, Ok tt) in
        match c with
        | Err e => (o1, sc, Err (DataFailed e))
        | Ok _ =>
            match strategies with
            | [] => (o1, sc, Ok [mkTarget (canonical src) NO_STRATEGIES None []])
            | _ =>
                match group_by_timeframe strategies with
                | Err e => (o1, sc, Err e)
                | Ok groups => process_groups o1 sc b k now groups []
                end
            end
        end
  end.

(** ** Idempotence *)

Hypothesis uuid_ok : forall n, str_truthy (uuid n) = true.

Lemma strategy_key_truthy s b k : opt_truthy (Some (idempotency_key_of s b k)) = Some (idempotency_key_of s b k).
Proof.
  apply opt_truthy_Some. split; [done|]. unfold idempotency_key_of. by destruct (job_type_for_mode (si_mode s)).
Qed.

Definition key_mapped (sc : Scheduler) (s : StrategyInstance) (b : MarketBar) (k : RawMarketKey) : Prop :=
  is_Some (dget (idempotency_map sc) (idempotency_key_of s b k)).

(** A first job under a key maps it, and the scheduler stays well formed. *)
Lemma enqueue_strategy_job_ok sc s b k now :
  sched_ok sc ->
  let '(sc', ref) := enqueue_strategy_job sc s b k now in
  sched_ok sc' /\ key_mapped sc' s b k /\
  forall key jid, dget (idempotency_map sc) key = Some jid -> dget (idempotency_map sc') key = Some jid.
Proof.
  intros Hok. unfold enqueue_strategy_job. set (j := strategy_job _ s b k now).
  assert (Hok1 : sched_ok (new_job sc j).1) by (by apply (sexec_ok sc (SNew j))).
  destruct (new_job sc j) as [sc1 ref] eqn:Hn. simpl in Hok1.
  assert (Hj : objects sc1 !! ref = Some j).
  { unfold new_job in Hn. simplify_eq/=. by rewrite lookup_app_r, Nat.sub_diag. }
  assert (Hi : idempotency_map sc1 = idempotency_map sc) by (unfold new_job in Hn; by simplify_eq).
  pose proof (enqueue_maps_key sc1 ref (uuid (length (objects sc))) j (idempotency_key_of s b k) Hok1 (uuid_ok _) Hj
    (strategy_key_truthy s b k)) as Hm.
  pose proof (enqueue_ok sc1 ref (uuid (length (objects sc))) (uuid_ok _) Hok1) as Hok2.
  pose proof (fun key jid Hk => idem_stable sc1 (SEnqueue ref (uuid (length (objects sc)))) key jid Hk Hok1) as Hst. simpl in Hst.
  destruct (enqueue sc1 ref _) as [sc2 r]. destruct Hm as (jid & Hk & _). simpl in *. split_and!; [done|by exists jid|].
  intros key x Hx. apply Hst. by rewrite Hi.
Qed.

Lemma enqueue_group_ok sc l b k now :
  sched_ok sc ->
  let '(sc', refs) := enqueue_group sc l b k now in
  sched_ok sc' /\ Forall (fun s => key_mapped sc' s b k) l /\
  forall key jid, dget (idempotency_map sc) key = Some jid -> dget (idempotency_map sc') key = Some jid.
Proof.
  revert sc. induction l as [|s l IH]; intros sc Hok; simpl; [done|].
  pose proof (enqueue_strategy_job_ok sc s b k now Hok) as H1. destruct (enqueue_strategy_job sc s b k now) as [sc1 ref].
  destruct H1 as (Hok1 & Hm1 & Hst1). specialize (IH sc1 Hok1). destruct (enqueue_group sc1 l b k now) as [sc2 refs].
  destruct IH as (Hok2 & Hm2 & Hst2). split_and!; [done| |eauto]. constructor; [|done].
  destruct Hm1 as [jid Hj]. exists jid. by apply Hst2.
Qed.

(** Same queue, job table, running keys and idempotency map. *)
Definition same_schedule (a b : Scheduler) : Prop :=
  queue a = queue b /\ jobs a = jobs b /\ running a = running b /\ idempotency_map a = idempotency_map b /\
  keeps_core (objects b) (objects a).

(** With every key mapped already, a group adds nothing and returns the jobs
    the keys stand for. *)
Lemma enqueue_group_mapped sc l b k now :
  sched_ok sc -> Forall (fun s => key_mapped sc s b k) l ->
  let '(sc', refs) := enqueue_group sc l b k now in
  same_schedule sc' sc /\
  Forall2 (fun s ref => exists jid, dget (idempotency_map sc) (idempotency_key_of s b k) = Some jid /\
                                    dget (jobs sc) jid = Some ref) l refs.
Proof.
  revert sc. induction l as [|s l IH]; intros sc Hok Hl; simpl; [split; [|constructor]; repeat split; apply keeps_core_refl|].
  inversion Hl as [|? ? [jid Hj] Hl']; subst. unfold enqueue_strategy_job. set (j := strategy_job _ s b k now).
  assert (Hok1 : sched_ok (new_job sc j).1) by (by apply (sexec_ok sc (SNew j))).
  destruct (existing_job_mapped _ (idempotency_key j) _ _ Hok1 (strategy_key_truthy s b k) Hj) as (ref & He & Hr).
  assert (Hobj : objects (new_job sc j).1 !! length (objects sc) = Some j) by (simpl; by rewrite lookup_app_r, Nat.sub_diag).
  assert (Hen : enqueue (new_job sc j).1 (length (objects sc)) (uuid (length (objects sc))) = ((new_job sc j).1, ref)).
  { unfold enqueue. by rewrite Hobj, He. }
  specialize (IH _ Hok1 Hl'). simpl in Hen, IH, Hr. simpl. rewrite Hen.
  destruct (enqueue_group _ l b k now) as [sc2 refs]. destruct IH as [(H1 & H2 & H3 & H4 & H5) Hf]. simpl in *.
  split; [split_and!; try done|constructor; [eauto|done]].
  intros r x Hx. apply H5. by apply lookup_app_l_Some.
Qed.

(** Delivering a bar again schedules nothing again.  After a target bar has
    been fanned out to a group of strategies, then whatever the scheduler has
    done since - run, completed, failed or cancelled those jobs - fanning out
    the same bar to them changes neither queue, job table nor running set, and
    hands back, strategy by strategy, the job already made for that bar. *)
Theorem fanout_idempotent ops1 ops2 l b k now now' :
  Forall sop_ok ops1 -> Forall sop_ok ops2 ->
  let '(s1, _) := enqueue_group (fold_left sexec ops1 scheduler_init) l b k now in
  let s2 := fold_left sexec ops2 s1 in
  let '(s3, refs) := enqueue_group s2 l b k now' in
  same_schedule s3 s2 /\
  Forall2 (fun s ref => exists jid, dget (idempotency_map s1) (idempotency_key_of s b k) = Some jid /\
                                    dget (jobs s2) jid = Some ref) l refs.
Proof.
  intros H1 H2. pose proof (enqueue_group_ok (fold_left sexec ops1 scheduler_init) l b k now (srun_ok _ _ H1 init_ok)) as Hg.
  destruct (enqueue_group (fold_left sexec ops1 scheduler_init) l b k now) as [s1 refs1]. destruct Hg as (Hok & Hm & _).
  cbv zeta. set (s2 := fold_left sexec ops2 s1). assert (Hok2 : sched_ok s2) by (by apply srun_ok).
  assert (Hst : forall key jid, dget (idempotency_map s1) key = Some jid -> dget (idempotency_map s2) key = Some jid).
  { intros. by apply srun_idem_stable. }
  assert (Hm2 : Forall (fun s => key_mapped s2 s b k) l).
  { eapply Forall_impl; [exact Hm|]. intros s [jid Hj]. exists jid. by apply Hst. }
  pose proof (enqueue_group_mapped s2 l b k now' Hok2 Hm2) as Hg. destruct (enqueue_group s2 l b k now') as [s3 refs].
  destruct Hg as [Hsame Hf]. split; [done|]. clear Hm2.
  induction Hf as [|s ref l refs (jid & Hj & Hr) Hf IH]; [constructor|]. inversion Hm as [|? ? [jid' Hj'] Hm']; subst.
  constructor; [|auto]. exists jid'. split; [done|]. apply Hst in Hj'. by simplify_eq.
Qed.

End Fanout.

(** ** Witnesses *)

Definition w_cfg : FanoutConfig := mkFanoutConfig "1m" true true "live" 50.
Definition w_strategy (sid mode : string) : StrategyInstance :=
  mkStrategy sid "a" "h" "BTCUSDT" "1m" "binance" "usdm" "trade" mode true "[]".
Definition w_mbar : MarketBar := mkMarketBar "binance" "usdm" "BTCUSDT" (mkTimeframe "1m" (Some 60%positive)) (w_bar 60).
Definition w_render (s : StrategyInstance) (b : MarketBar) (k : RawMarketKey) (c : FanoutConfig) : string := "{}".
Definition w_uuid (n : nat) : string := "job-" +:+ pretty (Z.of_nat n).

Lemma fanout_idempotent_witness :
  let l := [w_strategy "s1" "paper"; w_strategy "s2" "live"] in
  let '(s1, _) := enqueue_group w_render w_uuid w_cfg scheduler_init l w_mbar (market_key_of w_mbar) 5 in
  let s2 := fold_left sexec [SDequeue; SRunning "job-0" 6; SDone "job-0" None 7] s1 in
  queue (enqueue_group w_render w_uuid w_cfg s2 l w_mbar (market_key_of w_mbar) 8).1 = queue s2.
Proof.
  cbv zeta.
  pose proof (fanout_idempotent w_render w_uuid w_cfg ltac:(intros n; reflexivity) []
    [SDequeue; SRunning "job-0" 6; SDone "job-0" None 7] [w_strategy "s1" "paper"; w_strategy "s2" "live"] w_mbar
    (market_key_of w_mbar) 5 8 ltac:(constructor) ltac:(repeat constructor)) as H.
  simpl fold_left at 1 in H. cbv zeta in H.
  destruct (enqueue_group w_render w_uuid w_cfg scheduler_init _ w_mbar _ 5) as [s1 refs1].
  destruct (enqueue_group w_render w_uuid w_cfg (fold_left sexec _ s1) _ w_mbar _ 8) as [s3 refs].
  destruct H as [(Hq & _) _]. exact Hq.
Defined.
