(* ===== verification/PeriodicFetcher.v ===== *)
(** Periodic refresh of market data: [openpine/data/periodic_fetcher.py].

    Every tick groups the enabled strategies by the raw market they share,
    fetches for each market the source bars that closed since the last stored
    one, stores them, and derives and stores the target bars they complete.
    The data layer is used through the record [DataLayer]; what it promises is
    the class [SeriesStore], and [orchestrator_layer] builds it from the
    orchestrator of [DataOrchestrator].  The timeframe parser, the float sum
    and the default gap policy of a query belong to other packages and are
    parameters.  The thread that ticks is the small state machine at the end. *)

From S2P Require Import Prelude PyFloat Coverage DataOrchestrator Fanout.

(** ** Operations *)

Record RefreshConfig := mkRefreshConfig {
  interval_seconds : Z;
  lookback_bars : Z;
  rc_source_timeframe : string;
  rc_enabled : bool
}.

Inductive refresh_error :=
| BadTimeframeText
| VariableTimeframe
| MaxOfOneInt
| AggregateFailed (e : fanout_error)
| StoreFailed (e : data_error).

(** What the fetcher uses of the orchestrator. *)
Record DataLayer (O : Type) := mkDataLayer {
  dl_persists : bool;
  dl_latest : O -> BarQuery -> result string (option Z);
  dl_load : O -> BarQuery -> O * result data_error BarSeries;
  dl_store : O -> BarSeries -> O * result data_error unit
}.
Arguments dl_persists {O}.
Arguments dl_latest {O}.
Arguments dl_load {O}.
Arguments dl_store {O}.

(** [RawMarketKey.from_strategy]. *)
Definition from_strategy (s : StrategyInstance) : RawMarketKey :=
  mkMarketKey (str_lower (si_exchange s)) (str_lower (si_market_type s)) (str_upper (si_symbol s))
    (str_lower (si_price_type s)).

#[export] Instance RawMarketKey_eq_dec : EqDecision RawMarketKey.
Proof. solve_decision. Defined.

(** [_group_strategies_by_market]. *)
Definition group_strategies_by_market (l : list StrategyInstance) : dict RawMarketKey (list StrategyInstance) :=
  fold_left (fun d s => dset d (from_strategy s) (default [] (dget d (from_strategy s)) ++ [s])) l [].

(** [sub in text]. *)
Definition str_contains (sub text : string) : bool :=
  match String.index 0 sub text with Some _ => true | None => false end.

Definition is_conflict (e : data_error) : bool :=
  match e with StorageUnavailableError text => str_contains "conflicting closed candle" text | _ => false end.

(** [DataOrchestrator.latest_bar_time]: the store's own method, or the end of
    what the store covers. *)
Definition latest_bar_time {St} (latest : option (St -> BarQuery -> result string (option Z)))
    (coverage_of : St -> BarQuery -> result string CoverageReport) (st : St) (q : BarQuery) : result string (option Z) :=
  match latest with
  | Some f => f st q
  | None => let! c := coverage_of st q in Ok (delivered_end_ms c)
  end.

(** The orchestrator as the fetcher's data layer. *)
Definition orchestrator_layer {St P C} (is_complete : CoverageReport -> bool) (o : Orchestrator (S:=St) (P:=P) (C:=C))
    (latest : option (St -> BarQuery -> result string (option Z)))
    (coverage_of : St -> BarQuery -> result string CoverageReport) : DataLayer World :=
  mkDataLayer _ (provider_persists_fetches o)
    (fun w q => latest_bar_time latest coverage_of (w_store w) q)
    (load_bars is_complete o) (store_bars o).

Section Fetcher.

Context {O : Type}.
Variable parse_timeframe : string -> option Timeframe.
Variable py_sum : list float -> float.
(** [BarQuery]'s default for [gap_policy]. *)
Variable default_gap_policy : string.
Variable data : DataLayer O.
Variable cfg : RefreshConfig.

Definition parse (text : string) : result refresh_error Timeframe :=
  match parse_timeframe text with Some tf => Ok tf | None => Err BadTimeframeText end.

Definition key_query (k : RawMarketKey) (tf : Timeframe) (a b : Z) (source gaps : string) : BarQuery :=
  mkQuery (mk_exchange k) (mk_market_type k) (mk_symbol k) tf a b source gaps.

(** [_latest_stored_bar_time]: any exception reads as "nothing stored". *)
Definition latest_stored_bar_time (o : O) (k : RawMarketKey) (tf : Timeframe) (end_ : Z) : option Z :=
  match dl_latest data o (key_query k tf 0 end_ "storage" "allow_with_metadata") with
  | Ok latest => latest
  | Err _ => None
  end.

(** [_load_source_bars]: any exception reads as "no bars". *)
Definition load_source_bars (o : O) (k : RawMarketKey) (tf : Timeframe) (start_ end_ : Z) : O * list Bar :=
  let q := mkQuery (mk_exchange k) (mk_market_type k) (str_upper (mk_symbol k)) tf start_ end_ "provider"
             "allow_with_metadata" in
  let '(o', r) := dl_load data o q in
  (o', match r with Ok s => bars s | Err _ => [] end).

(** [_source_context_for_aggregates]: a dictionary by open time. *)
Definition source_context (o : O) (k : RawMarketKey) (tf : Timeframe) (start_ end_ : Z) : O * dict Z Bar :=
  let '(o', r) := dl_load data o (key_query k tf start_ end_ "storage" "allow_with_metadata") in
  (o', match r with Ok s => by_time [] (bars s) | Err _ => [] end).

(** [store_bars] of a series of bars; a conflicting candle is already stored. *)
Definition store_series (o : O) (q : BarQuery) (bs : list Bar) (source : string) : O * result refresh_error unit :=
  let '(o', r) := dl_store data o (mkSeries q bs (coverage_for q bs source)) in
  (o', match r with Ok _ => Ok tt | Err e => if is_conflict e then Ok tt else Err (StoreFailed e) end).

(** The bars of the window that ends at [close], as far as they are there. *)
Definition window (d : dict Z Bar) (close target_ms source_ms : Z) : list Bar :=
  omap (fun i => dget d (close - target_ms + Z.of_nat i * source_ms)) (seq 0 (Z.to_nat (target_ms / source_ms))).

(** The aggregates completed by the source bars, in order of time. *)
Definition aggregates (d : dict Z Bar) (target : Timeframe) (target_ms source_ms : Z) (source_bars : list Bar)
    : result refresh_error (list Bar) :=
  result_fold (fun acc b =>
    let close := bar_time b + source_ms in
    if negb (close mod target_ms =? 0) then Ok acc
    else
      let w := window d close target_ms source_ms in
      if negb (Z.of_nat (length w) =? target_ms / source_ms) then Ok acc
      else
        let! t := parse (canonical target) in
        match aggregate_bars py_sum w t with
        | Ok a => Ok (acc ++ [a])
        | Err e => Err (AggregateFailed e)
        end) [] (sort_bars source_bars).

Definition zmin_list (x : Z) (xs : list Z) : Z := fold_left Z.min xs x.

(** One target of [_store_target_aggregates]. *)
Definition store_target (o : O) (k : RawMarketKey) (source : Timeframe) (source_ms : positive) (source_bars : list Bar)
    (target : Timeframe) : O * result refresh_error unit :=
  match duration_ms target with
  | None => (o, Ok tt)
  | Some target_ms =>
      if (Z.pos target_ms =? Z.pos source_ms) || (Z.pos target_ms <? Z.pos source_ms) ||
         negb (Z.pos target_ms mod Z.pos source_ms =? 0) then (o, Ok tt)
      else
        match List.filter (fun c => c mod Z.pos target_ms =? 0)
                ((fun b => bar_time b + Z.pos source_ms) <$> source_bars) with
        | [] => (o, Ok tt)
        | c :: cs =>
            let '(o1, context) := source_context o k source (zmin_list c cs - Z.pos target_ms) (zmax_list c cs) in
            match aggregates (by_time context source_bars) target (Z.pos target_ms) (Z.pos source_ms) source_bars with
            | Err e => (o1, Err e)
            | Ok [] => (o1, Ok tt)
            | Ok ((a :: rest) as aggs) =>
                store_series o1
                  (key_query k target (zmin_list (bar_time a) (bar_time <$> rest))
                     (zmax_list (bar_time_close a) (bar_time_close <$> rest)) "storage" default_gap_policy)
                  aggs "aggregate"
            end
        end
  end.

(** [_store_target_aggregates]. *)
Fixpoint store_target_aggregates (o : O) (k : RawMarketKey) (source : Timeframe) (source_ms : positive)
    (source_bars : list Bar) (targets : list string) : O * result refresh_error unit :=
  match targets with
  | [] => (o, Ok tt)
  | t :: targets' =>
      match parse t with
      | Err e => (o, Err e)
      | Ok target =>
          let '(o1, r) := store_target o k source source_ms source_bars target in
          match r with
          | Err e => (o1, Err e)
          | Ok _ => store_target_aggregates o1 k source source_ms source_bars targets'
          end
      end
  end.

(** [sorted({parse_timeframe(strategy.timeframe).canonical ...})]. *)
Definition target_timeframes (strategies : list StrategyInstance) : result refresh_error (list string) :=
  let! tfs := result_map (fun s => parse (si_timeframe s)) strategies in
  Ok (sort_by str_leb (elements (list_to_set (canonical <$> tfs) : gset string))).

(** [max(1, *ratios)]: with no ratio left this is [max(1)], a [TypeError]. *)
Definition max_ratio (tf_ms : positive) (targets : list string) : result refresh_error Z :=
  let! tfs := result_map parse targets in
  match omap duration_ms tfs with
  | [] => Err MaxOfOneInt
  | ds => Ok (zmax_list 1 ((fun d => Z.pos d / Z.pos tf_ms) <$> ds))
  end.

(** What a market key is refreshed with: the source timeframe, its length, the
    targets, the end of the last closed bar and the start of the recent window. *)
Definition refresh_plan (strategies : list StrategyInstance) (now : Z)
    : result refresh_error (Timeframe * positive * list string * Z * Z) :=
  let! tf := parse (rc_source_timeframe cfg) in
  match duration_ms tf with
  | None => Err VariableTimeframe
  | Some tf_ms =>
      let! targets := target_timeframes strategies in
      let! ratio := max_ratio tf_ms targets in
      let lookback := Z.pos tf_ms * Z.max (lookback_bars cfg) (ratio + lookback_bars cfg) in
      let end_ := now - now mod Z.pos tf_ms in
      Ok (tf, tf_ms, targets, end_, end_ - lookback)
  end.

(** Fetch, store, derive. *)
Definition refresh_range (o : O) (k : RawMarketKey) (tf : Timeframe) (tf_ms : positive) (targets : list string)
    (start_ end_ : Z) : O * result refresh_error unit :=
  let '(o1, bs) := load_source_bars o k tf start_ end_ in
  match bs with
  | [] => (o1, Ok tt)
  | _ =>
      let '(o2, r) := if dl_persists data then (o1, Ok tt)
                      else store_series o1 (key_query k tf start_ end_ "storage" default_gap_policy) bs "live" in
      match r with
      | Err e => (o2, Err e)
      | Ok _ => store_target_aggregates o2 k tf tf_ms bs targets
      end
  end.

(** [_refresh_market_key]. *)
Definition refresh_market_key (o : O) (k : RawMarketKey) (strategies : list StrategyInstance) (now : Z)
    : O * result refresh_error unit :=
  match refresh_plan strategies now with
  | Err e => (o, Err e)
  | Ok (tf, tf_ms, targets, end_, recent) =>
      match latest_stored_bar_time o k tf end_ with
      | Some last =>
          let start_ := Z.max 0 (last + Z.pos tf_ms) in
          if end_ <=? start_ then (o, Ok tt) else refresh_range o k tf tf_ms targets start_ end_
      | None => refresh_range o k tf tf_ms targets recent end_
      end
  end.

(** [_refresh_all_active]: one refresh per market, whatever became of the
    others; the results are what the log would show. *)
Fixpoint refresh_groups (o : O) (groups : dict RawMarketKey (list StrategyInstance)) (now : Z)
    : O * list (RawMarketKey * result refresh_error unit) :=
  match groups with
  | [] => (o, [])
  | (k, l) :: groups' =>
      let '(o1, r) := refresh_market_key o k l now in
      let '(o2, rs) := refresh_groups o1 groups' now in (o2, (k, r) :: rs)
  end.

Definition refresh_all_active (o : O) (registry : list StrategyInstance) (now : Z)
    : O * list (RawMarketKey * result refresh_error unit) :=
  refresh_groups o (group_strategies_by_market (List.filter si_enabled registry)) now.

(** [_refresh_strategy]. *)
Definition refresh_strategy (o : O) (s : StrategyInstance) (now : Z) : O * result refresh_error unit :=
  refresh_market_key o (from_strategy s) [s] now.

End Fetcher.

(** ** Grouping *)

Lemma market_group_fold l d :
  NoDup (dkeys d) ->
  let d' := fold_left (fun d s => dset d (from_strategy s) (default [] (dget d (from_strategy s)) ++ [s])) l d in
  NoDup (dkeys d') /\
  forall k, default [] (dget d' k) = default [] (dget d k) ++ List.filter (fun s => bool_decide (from_strategy s = k)) l /\
            (is_Some (dget d' k) <-> is_Some (dget d k) \/ exists s, s ∈ l /\ from_strategy s = k).
Proof.
  revert d. induction l as [|s l IH]; intros d Hd; simpl.
  { split; [done|]. intros k. rewrite app_nil_r. split; [done|]. set_solver. }
  destruct (IH _ (dset_NoDup d (from_strategy s) (default [] (dget d (from_strategy s)) ++ [s]) Hd)) as [H1 H2].
  split; [exact H1|]. intros k. destruct (H2 k) as [Ha Hb]. clear H2 IH. split.
  - rewrite Ha. destruct (decide (from_strategy s = k)) as [<-|Hne].
    + rewrite dget_dset_eq. rewrite bool_decide_true by done. simpl. by rewrite <-app_assoc.
    + rewrite dget_dset_ne by done. by rewrite bool_decide_false.
  - rewrite Hb. destruct (decide (from_strategy s = k)) as [<-|Hne].
    + rewrite dget_dset_eq. split; [|by eauto]. intros _. right. exists s. split; [set_solver|done].
    + rewrite dget_dset_ne by done. set_solver.
Qed.

(** Every market with an enabled strategy is one group, of exactly its
    enabled strategies in registry order. *)
Lemma groups_exact registry :
  let groups := group_strategies_by_market (List.filter si_enabled registry) in
  NoDup (dkeys groups) /\
  forall k l, (k, l) ∈ groups <-> l <> [] /\ l = List.filter (fun s => si_enabled s && bool_decide (from_strategy s = k)) registry.
Proof.
  destruct (market_group_fold (List.filter si_enabled registry) [] (NoDup_nil_2 : NoDup (dkeys []))) as [H1 H2].
  split; [exact H1|]. intros k l. destruct (H2 k) as [Ha Hb]. simpl in *. fold (group_strategies_by_market (List.filter si_enabled registry)) in *.
  assert (Hf : List.filter (fun s => bool_decide (from_strategy s = k)) (List.filter si_enabled registry) =
               List.filter (fun s => si_enabled s && bool_decide (from_strategy s = k)) registry).
  { clear. induction registry as [|s r IH]; simpl; [done|]. destruct (si_enabled s); simpl; [|done]. by rewrite IH. }
  rewrite Hf in Ha. rewrite <-Ha. split.
  - intros Hin%elem_dget; [|done]. rewrite Hin in *. simpl in *. split; [|done]. intros ->. rewrite <-Hf in Ha.
    destruct Hb as [[[]|(s & Hs & Hk)] _]; [eauto|done|]. assert (Hs' : s ∈ @nil StrategyInstance); [|by apply not_elem_of_nil in Hs'].
    rewrite Ha. apply list_elem_of_In, filter_In. split; [by apply list_elem_of_In|by apply bool_decide_eq_true].
  - intros [Hne ->]. destruct (dget _ k) eqn:E; [|done]. simpl. by apply dget_Some_elem.
Qed.

(** ** What the data layer promises *)

Definition SeriesKey : Type := string * string * string * string.

Definition series_key (q : BarQuery) : SeriesKey := (bq_exchange q, bq_market q, bq_symbol q, canonical (bq_timeframe q)).

Definition in_range (q : BarQuery) (t : Z) : Prop := start_ms q <= t < end_ms q.

Definition written (bs : list Bar) (m : gmap Z Bar) : gmap Z Bar := fold_left (fun m b => <[bar_time b := b]> m) bs m.

(** [view o k] is the stored series [k] by open time.  Reads give the stored
    bars of the range; writes validate, then add or replace bars, or change
    nothing; a fetch gives ordered closed bars, each at a slot of the requested
    range, and leaves the stored series alone. *)
Class SeriesStore {O} (data : DataLayer O) (view : O -> SeriesKey -> gmap Z Bar) : Prop := {
  ss_time : forall o k t b, view o k !! t = Some b -> bar_time b = t;
  ss_read : forall o q o' r,
    bq_source q = "storage" -> gap_policy q = "allow_with_metadata" -> dl_load data o q = (o', r) ->
    view o' = view o /\
    forall s, r = Ok s -> forall b, b ∈ bars s <-> view o (series_key q) !! bar_time b = Some b /\ in_range q (bar_time b);
  ss_fetch : forall o q o' r,
    bq_source q = "provider" -> dl_load data o q = (o', r) ->
    view o' = view o /\
    forall s, r = Ok s -> StronglySorted Z.lt (times (bars s)) /\
      Forall (fun b => bar_closed b = true /\ 0 <= bar_time b /\ in_range q (bar_time b) /\
        forall d, duration_ms (bq_timeframe q) = Some d -> bar_time b mod Z.pos d = 0) (bars s);
  ss_write : forall o s o' r, dl_store data o s = (o', r) ->
    match r with
    | Ok _ => is_ok (validate s None) = true /\
              forall k, view o' k = if decide (k = series_key (series_query s)) then written (bars s) (view o k) else view o k
    | Err _ => view o' = view o
    end;
  ss_latest : forall o q r, bq_source q = "storage" -> dl_latest data o q = Ok r ->
    match r with
    | Some t => is_Some (view o (series_key q) !! t) /\ in_range q t /\
                forall u, is_Some (view o (series_key q) !! u) -> in_range q u -> u <= t
    | None => forall u, is_Some (view o (series_key q) !! u) -> ~ in_range q u
    end
}.

Lemma written_lookup bs m t :
  written bs m !! t = match last_at bs t with Some b => Some b | None => m !! t end.
Proof.
  unfold written, last_at. induction bs as [|b bs IH] using rev_ind; [done|].
  rewrite fold_left_app, List.filter_app. simpl. destruct (bar_time b =? t) eqn:E; bool_to_prop.
  - subst. by rewrite lookup_insert_eq, last_snoc.
  - by rewrite lookup_insert_ne, app_nil_r by done.
Qed.

Lemma written_is_Some bs m t : is_Some (written bs m !! t) <-> t ∈ times bs \/ is_Some (m !! t).
Proof.
  rewrite written_lookup. destruct (last_at bs t) as [b|] eqn:E.
  - apply last_at_Some in E as [Hb <-]. split; [|by eauto]. intros _. left. by apply list_elem_of_fmap_2.
  - split; [by right|]. intros [H%last_at_is_Some|H]; [|done]. destruct H. congruence.
Qed.

(** ** No gaps *)

(** A stored series of slot length [d] at time [now]: bars at slots, closed by
    [now], with no slot missing between two stored ones. *)
Definition gapfree (d : positive) (now : Z) (m : gmap Z Bar) : Prop :=
  (forall t, is_Some (m !! t) -> t mod Z.pos d = 0 /\ 0 <= t /\ t + Z.pos d <= now) /\
  forall t t' u, is_Some (m !! t) -> is_Some (m !! t') -> t <= u <= t' -> u mod Z.pos d = 0 -> is_Some (m !! u).

Lemma gapfree_later d now now' m : gapfree d now m -> now <= now' -> gapfree d now' m.
Proof. intros [H1 H2] Hle. split; [|done]. intros t Ht. destruct (H1 t Ht) as (? & ? & ?). split_and!; lia. Qed.

Lemma mod_diff d a b : a mod Z.pos d = 0 -> b mod Z.pos d = 0 -> (b - a) mod Z.pos d = 0.
Proof. intros Ha Hb. by rewrite Zminus_mod, Ha, Hb, Z.sub_0_r, Z.mod_0_l by lia. Qed.

(** Appending the full range that follows the last bar. *)
Lemma gapfree_append d now m bs start_ end_ :
  gapfree d now m -> start_ mod Z.pos d = 0 -> end_ mod Z.pos d = 0 -> end_ <= now ->
  (forall u, is_Some (m !! u) -> u + Z.pos d <= start_) ->
  ((exists u, is_Some (m !! u)) -> is_Some (m !! (start_ - Z.pos d))) ->
  (forall t, t ∈ times bs -> start_ <= t < end_ /\ t mod Z.pos d = 0 /\ 0 <= t) ->
  (forall t, t ∈ grid start_ end_ d -> t ∈ times bs) ->
  gapfree d now (written bs m).
Proof.
  intros [H1 H2] Hs He Hnow Hlt Hlast Hbs Hfull.
  assert (Hslot : forall u, start_ <= u < end_ -> u mod Z.pos d = 0 -> u ∈ times bs).
  { intros u Hu Hm. apply Hfull, grid_spec. split; [done|]. by apply mod_diff. }
  split.
  - intros t [Ht|Ht]%written_is_Some; [|by apply H1]. destruct (Hbs t Ht) as (Hr & Hm & H0). split_and!; [done..|].
    pose proof (mod_diff d t end_ Hm He) as Hd. apply Z.mod_divide in Hd as [z Hz]; [|lia]. assert (1 <= z) by nia. nia.
  - intros t t' u Ht Ht' Hu Hm. apply written_is_Some. destruct (decide (start_ <= u)) as [Hle|Hgt].
    + left. apply Hslot; [|done]. apply written_is_Some in Ht' as [Ht'|Ht']; [apply Hbs in Ht' as [? _]; lia|].
      apply Hlt in Ht'. lia.
    + right. apply written_is_Some in Ht as [Ht|Ht]; [apply Hbs in Ht as [? _]; lia|].
      apply (H2 t (start_ - Z.pos d) u Ht); [apply Hlast; eauto| |done].
      pose proof (mod_diff d u start_ Hm Hs) as Hd. apply Z.mod_divide in Hd as [z Hz]; [|lia]. assert (1 <= z) by nia. nia.
Qed.

Section NoGaps.

Context {O : Type} (parse_timeframe : string -> option Timeframe) (py_sum : list float -> float).
Context (default_gap_policy : string) (data : DataLayer O) (view : O -> SeriesKey -> gmap Z Bar).
Context `{Hstore : !SeriesStore data view} (cfg : RefreshConfig) (src : Timeframe) (d : positive).

(** The parser reads back a canonical name; the source timeframe has a length. *)
Hypothesis parse_canonical : forall s tf, parse_timeframe s = Some tf -> parse_timeframe (canonical tf) = Some tf.
Hypothesis src_parsed : parse_timeframe (rc_source_timeframe cfg) = Some src.
Hypothesis src_duration : duration_ms src = Some d.

(** The source series of every market are as they were. *)
Definition same_sources (o o' : O) : Prop := forall e m s, view o' (e, m, s, canonical src) = view o (e, m, s, canonical src).

#[local] Instance same_sources_preorder : PreOrder same_sources.
Proof. split; [done|]. intros x y z H1 H2 e m s. by rewrite H2, H1. Qed.

Lemma same_sources_view o o' : view o' = view o -> same_sources o o'.
Proof. intros E e m s. by rewrite E. Qed.

(** A stored series changed nothing, or was valid and was written. *)
Lemma store_series_view o q bs source o' r :
  store_series data o q bs source = (o', r) ->
  view o' = view o \/
  (is_ok (validate (mkSeries q bs (coverage_for q bs source)) None) = true /\
   forall k, view o' k = if decide (k = series_key q) then written bs (view o k) else view o k).
Proof.
  unfold store_series. destruct (dl_store data o _) as [o1 [[]|e]] eqn:E; apply ss_write in E; intros [= <- _]; [by right|by left].
Qed.

Lemma source_context_view o k tf a b o' c : source_context data o k tf a b = (o', c) -> view o' = view o.
Proof.
  unfold source_context. destruct (dl_load data o _) as [o1 r] eqn:E. intros [= <- _]. by apply ss_read in E as [E _].
Qed.

Lemma store_target_sources o k bs t target :
  parse_timeframe t = Some target ->
  same_sources o (store_target parse_timeframe py_sum default_gap_policy data o k src d bs target).1.
Proof.
  intros Ht. unfold store_target. destruct (duration_ms target) as [dt|] eqn:Hdt; [|done].
  destruct (_ || _ || _) eqn:Hskip; [done|]. apply orb_false_iff in Hskip as [[Hne _]%orb_false_iff _].
  destruct (List.filter _ _) as [|c cs]; [done|].
  destruct (source_context data o k src _ _) as [o1 ctx] eqn:Ec. apply source_context_view in Ec.
  destruct (aggregates _ _ _ _ _ _ _) as [[|a rest]|e]; [by apply same_sources_view| |by apply same_sources_view].
  destruct (store_series _ _ _ _ _) as [o2 r] eqn:Es. simpl.
  apply store_series_view in Es as [Es|[_ Es]]; [apply same_sources_view; congruence|].
  intros e m s. rewrite Es, decide_False, Ec; [done|]. unfold series_key. simpl. intros E. injection E as _ _ _ Hc.
  apply parse_canonical in Ht. pose proof (parse_canonical _ _ src_parsed). assert (target = src) as -> by congruence.
  rewrite src_duration in Hdt. injection Hdt as <-. by rewrite Z.eqb_refl in Hne.
Qed.

Lemma store_target_aggregates_sources o k bs targets :
  same_sources o (store_target_aggregates parse_timeframe py_sum default_gap_policy data o k src d bs targets).1.
Proof.
  revert o. induction targets as [|t targets IH]; intros o; simpl; [done|]. unfold parse.
  destruct (parse_timeframe t) as [target|] eqn:Ht; [|done].
  pose proof (store_target_sources o k bs t target Ht) as H1. destruct (store_target _ _ _ _ _ _ _ _ _ _) as [o1 [[]|e]]; [|done].
  etransitivity; [exact H1|apply IH].
Qed.

Lemma load_source_bars_ok o k a b o' bs :
  load_source_bars data o k src a b = (o', bs) ->
  view o' = view o /\ StronglySorted Z.lt (times bs) /\
  Forall (fun x => bar_closed x = true) bs /\ forall t, t ∈ times bs -> a <= t < b /\ t mod Z.pos d = 0 /\ 0 <= t.
Proof.
  unfold load_source_bars. destruct (dl_load data o _) as [o1 r] eqn:E. intros [= <- Hbs].
  apply ss_fetch in E as [Hv Hs]; [|done]. split; [done|]. destruct r as [s|e]; subst bs.
  2:{ split_and!; [constructor|constructor|]. intros t Ht. by apply not_elem_of_nil in Ht. }
  destruct (Hs s eq_refl) as [H1 H2]. split_and!; [done|by eapply Forall_impl; [exact H2|]; intros x (? & _)|].
  intros t (x & -> & Hx)%list_elem_of_fmap. rewrite Forall_forall in H2. destruct (H2 x Hx) as (_ & H0 & Hr & Hm).
  split_and!; [apply Hr..|by apply Hm|done].
Qed.

Hypothesis fetch_only : dl_persists data = false.

(** One range: either nothing of the source series changes, or the bars are
    a full range, and are added. *)
Lemma refresh_range_sources o k targets start_ end_ :
  default_gap_policy <> "allow_with_metadata" ->
  let o' := (refresh_range parse_timeframe py_sum default_gap_policy data o k src d targets start_ end_).1 in
  same_sources o o' \/
  exists bs, (forall e m s, view o' (e, m, s, canonical src) =
                if decide ((e, m, s) = (mk_exchange k, mk_market_type k, mk_symbol k))
                then written bs (view o (e, m, s, canonical src)) else view o (e, m, s, canonical src)) /\
    (forall t, t ∈ times bs -> start_ <= t < end_ /\ t mod Z.pos d = 0 /\ 0 <= t) /\
    (forall t, t ∈ grid start_ end_ d -> t ∈ times bs).
Proof.
  intros Hgap. unfold refresh_range. destruct (load_source_bars data o k src start_ end_) as [o1 bs] eqn:El.
  apply load_source_bars_ok in El as (Hv & Hsort & Hcl & Hbs).
  destruct bs as [|b0 bs']; [left; by apply same_sources_view|]. set (bs := b0 :: bs') in *. rewrite fetch_only.
  destruct (store_series data o1 _ bs "live") as [o2 r] eqn:Es. apply store_series_view in Es.
  assert (Ho' : same_sources o2 (match r with
     | Ok _ => store_target_aggregates parse_timeframe py_sum default_gap_policy data o2 k src d bs targets
     | Err e => (o2, Err e) end).1) by (destruct r; [apply store_target_aggregates_sources|done]).
  destruct Es as [Es|[Hval Es]]; [left; etransitivity; [|exact Ho']; apply same_sources_view; congruence|].
  right. exists bs. split_and!; [|done|].
  - intros e m s. rewrite Ho', Es, Hv. unfold series_key. simpl.
    repeat case_decide; try done; exfalso; congruence.
  - apply validate_spec in Hval as (_ & _ & [Hg|[_ Hm]]).
    { simpl in Hg. by apply bool_decide_eq_true in Hg. }
    simpl in Hm. intros t Ht. destruct (decide (t ∈ times bs)) as [|Hn]; [done|]. exfalso.
    assert (Hin : (t, Z.min (t + Z.pos d) end_) ∈ missing_of (key_query k src start_ end_ "storage" default_gap_policy) bs)
      by (by apply (missing_elem _ _ d)). rewrite Hm in Hin. by apply not_elem_of_nil in Hin.
Qed.

Hypothesis latest_works : forall o q, is_ok (dl_latest data o q) = true.

Definition sources_ok (now : Z) (o : O) : Prop := forall e m s, gapfree d now (view o (e, m, s, canonical src)).

Lemma sources_ok_same now o o' : same_sources o o' -> sources_ok now o -> sources_ok now o'.
Proof. intros H Ho e m s. rewrite H. apply Ho. Qed.

Lemma slot_end now : let end_ := now - now mod Z.pos d in end_ mod Z.pos d = 0 /\ end_ <= now < end_ + Z.pos d.
Proof.
  simpl. pose proof (Z.mod_pos_bound now (Z.pos d) ltac:(lia)). split; [|lia].
  rewrite Zminus_mod_idemp_r, Z.sub_diag. by apply Z.mod_0_l.
Qed.

(** A slot at or after [now] starts at the end of the last closed one. *)
Lemma slot_before_end now t : t mod Z.pos d = 0 -> t + Z.pos d <= now -> t + Z.pos d <= now - now mod Z.pos d.
Proof.
  intros Ht Hle. destruct (slot_end now) as [He Hn]. pose proof (mod_diff d t _ Ht He) as Hd.
  apply Z.mod_divide in Hd as [z Hz]; [|lia]. assert (1 <= z) by nia. nia.
Qed.

Lemma refresh_plan_ok strategies now tf tf_ms targets end_ recent :
  refresh_plan parse_timeframe cfg strategies now = Ok (tf, tf_ms, targets, end_, recent) ->
  tf = src /\ tf_ms = d /\ end_ = now - now mod Z.pos d /\ recent mod Z.pos d = 0.
Proof.
  unfold refresh_plan, parse. rewrite src_parsed. simpl. rewrite src_duration.
  destruct (target_timeframes _ _) as [ts|e]; [|done]. simpl. destruct (max_ratio _ _ _) as [x|e]; [|done]. simpl.
  intros [= <- <- <- <- <-]. split_and!; try done. apply mod_diff; [|apply slot_end].
  rewrite Z.mul_comm. apply Z.mod_mul. lia.
Qed.

(** One market: the source series stay free of gaps. *)
Lemma refresh_market_key_ok o k strategies now0 now :
  default_gap_policy <> "allow_with_metadata" -> now0 <= now -> sources_ok now0 o ->
  sources_ok now (refresh_market_key parse_timeframe py_sum default_gap_policy data cfg o k strategies now).1.
Proof.
  intros Hgap Hle Hok. assert (Hok' : sources_ok now o) by (intros e m s; by eapply gapfree_later).
  unfold refresh_market_key. destruct (refresh_plan _ _ _ _) as [[[[[tf tf_ms] targets] end_] recent]|e] eqn:Ep; [|done].
  apply refresh_plan_ok in Ep as (-> & -> & -> & Hrec). set (end_ := now - now mod Z.pos d) in *.
  destruct (slot_end now) as [Hem Hen]. fold end_ in Hem, Hen.
  set (m := view o (mk_exchange k, mk_market_type k, mk_symbol k, canonical src)).
  (* the range to fetch follows what is stored *)
  assert (Hrange : forall start_, start_ mod Z.pos d = 0 ->
    (forall u, is_Some (m !! u) -> u + Z.pos d <= start_) ->
    ((exists u, is_Some (m !! u)) -> is_Some (m !! (start_ - Z.pos d))) ->
    sources_ok now (refresh_range parse_timeframe py_sum default_gap_policy data o k src d targets start_ end_).1).
  { intros start_ Hsm Hlt Hlast. destruct (refresh_range_sources o k targets start_ end_ Hgap) as [Hsame|(bs & Hv & Hbs & Hfull)];
      [by eapply sources_ok_same|]. intros e mt s. rewrite Hv. case_decide as E; [|apply Hok']. simplify_eq.
    apply (gapfree_append d now m bs start_ end_); (done || apply Hok' || lia). }
  unfold latest_stored_bar_time. set (q := key_query k src 0 end_ "storage" "allow_with_metadata").
  specialize (latest_works o q). destruct (dl_latest data o q) as [[last|]|e] eqn:El; [| |done].
  - apply ss_latest in El as (Hin & [Hr0 Hr1] & Hmax); [|done]. simpl in Hr0, Hr1.
    change (is_Some (m !! last)) in Hin. destruct (proj1 (Hok' _ _ _) last Hin) as (Hlm & Hl0 & Hl1).
    rewrite Z.max_r by lia. destruct (end_ <=? last + Z.pos d); [done|]. apply Hrange.
    + rewrite Z.add_mod, Hlm, Z_mod_same_full by lia. done.
    + intros u Hu. destruct (proj1 (Hok' _ _ _) u Hu) as (Hum & Hu0 & Hu1). pose proof (slot_before_end now u Hum Hu1).
      enough (u <= last) by lia. apply Hmax; [exact Hu|]. split; simpl; [lia|]. fold end_ in H. lia.
    + intros _. by replace (last + Z.pos d - Z.pos d) with last by lia.
  - apply ss_latest in El; [|done].
    assert (Hnone : forall u, ~ is_Some (m !! u)).
    { intros u Hu. destruct (proj1 (Hok' _ _ _) u Hu) as (Hum & Hu0 & Hu1). pose proof (slot_before_end now u Hum Hu1).
      apply (El u); [exact Hu|]. split; simpl; [lia|]. fold end_ in H. lia. }
    apply Hrange; [done|intros u Hu; by apply Hnone in Hu|intros [u Hu]; by apply Hnone in Hu].
Qed.

Abbreviation refresh_all := (refresh_all_active parse_timeframe py_sum default_gap_policy data cfg).

(** What happens over time: ticks at times that do not go back, with any
    registry, and any other activity that leaves the source series alone. *)
Inductive run (now0 : Z) (o0 : O) : Z -> O -> Prop :=
| run_start : run now0 o0 now0 o0
| run_tick now o now' registry : run now0 o0 now o -> now <= now' -> run now0 o0 now' (refresh_all o registry now').1
| run_other now o o' : run now0 o0 now o -> same_sources o o' -> run now0 o0 now o'.

Lemma refresh_groups_ok o groups now0 now :
  default_gap_policy <> "allow_with_metadata" -> now0 <= now -> sources_ok now0 o ->
  sources_ok now (refresh_groups parse_timeframe py_sum default_gap_policy data cfg o groups now).1.
Proof.
  intros Hgap. revert now0 o. induction groups as [|[k l] groups IH]; intros now0 o Hle Ho; simpl.
  { intros e m s. by eapply gapfree_later. }
  pose proof (refresh_market_key_ok o k l now0 now Hgap Hle Ho) as H1.
  destruct (refresh_market_key _ _ _ _ _ _ _ _ _) as [o1 r]. specialize (IH now o1 ltac:(lia) H1).
  by destruct (refresh_groups _ _ _ _ _ _ _ _) as [o2 rs].
Qed.

(** C24: catch-up without gaps.  Take a store whose newest bar can always be
    read and whose source series have no gaps at the start, a provider path
    that only fetches, a default gap policy that refuses incomplete series,
    and nobody but the refresh writing the source series.  Then over any run of
    ticks at times that do not go back - whatever bars the provider answers
    within the range it is asked for or fails to answer, whichever writes the
    store refuses, whatever strategies are registered, and however long the
    process was down between ticks - the stored source series of every market
    has a bar at every slot between its first and its last one.  (With a store
    that cannot be read, or only by its coverage, this fails:
    [read_error_leaves_gap], [fallback_skips_a_slot].) *)
Theorem periodic_refresh_gapfree now0 o0 now o :
  default_gap_policy <> "allow_with_metadata" -> sources_ok now0 o0 -> run now0 o0 now o -> sources_ok now o.
Proof.
  intros Hgap H0. induction 1 as [|now o now' registry Hrun IH Hle|now o o' Hrun IH Hs]; [done| |].
  - by apply (refresh_groups_ok _ _ now).
  - by eapply sources_ok_same.
Qed.

(** ** Catching up *)

Lemma zmax_list_ge x xs : x <= zmax_list x xs.
Proof. unfold zmax_list. revert x. induction xs as [|y xs IH]; intros x; simpl; [done|]. specialize (IH (Z.max x y)). lia. Qed.

(** A provider that has the whole history, and a store that takes what is valid. *)
Hypothesis provider_full : forall o q, bq_source q = "provider" -> gap_policy q = "allow_with_metadata" ->
  0 <= start_ms q < end_ms q ->
  start_ms q mod Z.pos d = 0 -> duration_ms (bq_timeframe q) = Some d ->
  exists o' s, dl_load data o q = (o', Ok s) /\ times (bars s) = grid (start_ms q) (end_ms q) d.
Hypothesis store_accepts : forall o s, is_ok (validate s None) = true -> exists o', dl_store data o s = (o', Ok tt).

(** Bars of the source series are never lost. *)
Definition grows (o o' : O) : Prop :=
  forall e m s t, is_Some (view o (e, m, s, canonical src) !! t) -> is_Some (view o' (e, m, s, canonical src) !! t).

#[local] Instance grows_preorder : PreOrder grows.
Proof. split; [by intros o e m s t|]. intros x y z H1 H2 e m s t Ht. by apply H2, H1. Qed.

Lemma grows_same o o' : same_sources o o' -> grows o o'.
Proof. intros H e m s t. by rewrite H. Qed.

Lemma refresh_range_grows o k targets start_ end_ :
  default_gap_policy <> "allow_with_metadata" ->
  grows o (refresh_range parse_timeframe py_sum default_gap_policy data o k src d targets start_ end_).1.
Proof.
  intros Hgap. destruct (refresh_range_sources o k targets start_ end_ Hgap) as [H|(bs & Hv & _)]; [by apply grows_same|].
  intros e m s t Ht. rewrite Hv. case_decide; [|done]. apply written_is_Some. by right.
Qed.

Lemma refresh_market_key_grows o k strategies now :
  default_gap_policy <> "allow_with_metadata" ->
  grows o (refresh_market_key parse_timeframe py_sum default_gap_policy data cfg o k strategies now).1.
Proof.
  intros Hgap. unfold refresh_market_key. destruct (refresh_plan _ _ _ _) as [[[[[tf tf_ms] targets] end_] recent]|e] eqn:Ep; [|done].
  apply refresh_plan_ok in Ep as (-> & -> & -> & _). destruct (latest_stored_bar_time _ _ _ _ _) as [last|].
  - destruct (_ <=? _); [done|by apply refresh_range_grows].
  - by apply refresh_range_grows.
Qed.

Lemma refresh_groups_grows o groups now :
  default_gap_policy <> "allow_with_metadata" ->
  grows o (refresh_groups parse_timeframe py_sum default_gap_policy data cfg o groups now).1.
Proof.
  intros Hgap. revert o. induction groups as [|[k l] groups IH]; intros o; simpl; [done|].
  pose proof (refresh_market_key_grows o k l now Hgap) as H1. destruct (refresh_market_key _ _ _ _ _ _ _ _ _) as [o1 r].
  specialize (IH o1). destruct (refresh_groups _ _ _ _ _ _ _ _) as [o2 rs]. by etransitivity.
Qed.

Lemma refresh_range_reaches o k targets start_ end_ :
  default_gap_policy <> "allow_with_metadata" -> 0 <= start_ < end_ ->
  start_ mod Z.pos d = 0 -> end_ mod Z.pos d = 0 ->
  is_Some (view (refresh_range parse_timeframe py_sum default_gap_policy data o k src d targets start_ end_).1
             (mk_exchange k, mk_market_type k, mk_symbol k, canonical src) !! (end_ - Z.pos d)).
Proof.
  intros Hgap Hlt Hs He. unfold refresh_range.
  destruct (load_source_bars data o k src start_ end_) as [o1 bs] eqn:El.
  assert (Hbs : times bs = grid start_ end_ d).
  { unfold load_source_bars in El. match type of El with context [dl_load data o ?q] =>
      destruct (provider_full o q eq_refl eq_refl Hlt Hs src_duration) as (o2 & s & Eq & Hg); rewrite Eq in El end. by simplify_eq. }
  apply load_source_bars_ok in El as (Hv & Hsort & Hcl & Hin).
  assert (Hlast : end_ - Z.pos d ∈ times bs).
  { pose proof (mod_diff d _ _ Hs He) as Hd. rewrite Hbs. apply grid_spec. split.
    - apply Z.mod_divide in Hd as [z Hz]; [|lia]. assert (1 <= z) by nia. nia.
    - replace (end_ - Z.pos d - start_) with (end_ - start_ + (-1) * Z.pos d) by lia. rewrite Z.mod_add by lia. exact Hd. }
  destruct bs as [|b0 bs']; [by apply not_elem_of_nil in Hlast|]. set (bs := b0 :: bs') in *. rewrite fetch_only.
  set (q := key_query k src start_ end_ "storage" default_gap_policy).
  assert (Hval : is_ok (validate (mkSeries q bs (coverage_for q bs "live")) None) = true).
  { apply validate_spec. split_and!; [done|done|]. right. split; [done|].
    apply (missing_none _ _ d); [done|]. intros t Ht. change (t ∈ times bs). by rewrite Hbs. }
  unfold store_series. destruct (store_accepts o1 _ Hval) as [o2 E]. rewrite E. apply ss_write in E as [_ Hw].
  rewrite store_target_aggregates_sources, Hw. rewrite decide_True by reflexivity. apply written_is_Some. by left.
Qed.

Lemma refresh_market_key_reaches o k strategies now0 now :
  default_gap_policy <> "allow_with_metadata" -> 0 <= lookback_bars cfg -> now0 <= now -> sources_ok now0 o ->
  match refresh_plan parse_timeframe cfg strategies now with
  | Ok (_, _, _, end_, recent) =>
      0 <= recent ->
      is_Some (view (refresh_market_key parse_timeframe py_sum default_gap_policy data cfg o k strategies now).1
                 (mk_exchange k, mk_market_type k, mk_symbol k, canonical src) !! (end_ - Z.pos d))
  | Err _ => True
  end.
Proof.
  intros Hgap Hlb Hle Ho. unfold refresh_market_key.
  destruct (refresh_plan _ _ _ _) as [[[[[tf tf_ms] targets] end_] recent]|e] eqn:Ep; [|done]. intros Hrec0.
  assert (Hrec : recent < end_).
  { unfold refresh_plan, parse in Ep. rewrite src_parsed in Ep. simpl in Ep. rewrite src_duration in Ep.
    destruct (target_timeframes _ _) as [ts|e]; [|done]. simpl in Ep. destruct (max_ratio _ _ _) as [x|e] eqn:Ex; [|done].
    simpl in Ep. simplify_eq. enough (1 <= x) by nia. unfold max_ratio in Ex. destruct (result_map _ _); [|done].
    simpl in Ex. destruct (omap _ _) as [|d0 ds]; [done|]. injection Ex as <-. exact (zmax_list_ge 1 (_ :: _)). }
  apply refresh_plan_ok in Ep as (-> & -> & -> & Hrm). destruct (slot_end now) as [Hem Hen].
  set (end_ := now - now mod Z.pos d) in *. unfold latest_stored_bar_time.
  set (q := key_query k src 0 end_ "storage" "allow_with_metadata").
  specialize (latest_works o q). destruct (dl_latest data o q) as [[last|]|e] eqn:El; [| |done].
  - apply ss_latest in El as (Hin & [Hr0 Hr1] & _); [|done]. simpl in Hr0, Hr1.
    destruct (proj1 (Ho _ _ _) last Hin) as (Hlm & Hl0 & Hl1). rewrite Z.max_r by lia.
    assert (Hnext : (last + Z.pos d) mod Z.pos d = 0) by (rewrite Z.add_mod, Hlm, Z_mod_same_full by lia; done).
    destruct (Z.leb_spec end_ (last + Z.pos d)) as [Hge|Hlt]; [|by apply refresh_range_reaches; [|lia|..]].
    pose proof (slot_before_end now last Hlm ltac:(lia)) as Hb. fold end_ in Hb.
    replace (end_ - Z.pos d) with last by lia. exact Hin.
  - by apply refresh_range_reaches; [|lia|..].
Qed.

(** Catching up.  If the provider has the history and the store accepts valid
    series, then one tick brings every market with an enabled strategy (whose
    timeframes parse) up to the last closed slot: together with the absence of
    gaps, everything that closed while the process was down is filled in. *)
Theorem refresh_catches_up o registry now0 now s :
  default_gap_policy <> "allow_with_metadata" -> 0 <= lookback_bars cfg -> now0 <= now -> sources_ok now0 o ->
  s ∈ registry -> si_enabled s = true ->
  match refresh_plan parse_timeframe cfg
          (List.filter (fun s' => si_enabled s' && bool_decide (from_strategy s' = from_strategy s)) registry) now with
  | Ok (_, _, _, end_, recent) =>
      0 <= recent ->
      let k := from_strategy s in
      is_Some (view (refresh_all_active parse_timeframe py_sum default_gap_policy data cfg o registry now).1
                 (mk_exchange k, mk_market_type k, mk_symbol k, canonical src) !! (end_ - Z.pos d))
  | Err _ => True
  end.
Proof.
  intros Hgap Hlb Hle Ho Hs Hen. set (l := List.filter _ _).
  destruct (groups_exact registry) as [_ Hg]. unfold refresh_all_active.
  assert (Hin : (from_strategy s, l) ∈ group_strategies_by_market (List.filter si_enabled registry)).
  { apply Hg. split; [|done]. intros E. assert (Hsl : s ∈ l).
    { apply list_elem_of_In, filter_In. split; [by apply list_elem_of_In|]. by rewrite Hen, bool_decide_true. }
    rewrite E in Hsl. by apply not_elem_of_nil in Hsl. }
  revert Hin. generalize (group_strategies_by_market (List.filter si_enabled registry)). generalize l. clear Hg Hs l registry.
  intros l groups. revert now0 o Hle Ho. induction groups as [|[k l'] groups IH]; intros now0 o Hle Ho Hin;
    [by apply not_elem_of_nil in Hin|]. simpl.
  pose proof (refresh_market_key_ok o k l' now0 now Hgap Hle Ho) as Ho1.
  pose proof (refresh_market_key_reaches o k l' now0 now Hgap Hlb Hle Ho) as Hr.
  destruct (refresh_market_key _ _ _ _ _ _ k l' now) as [o1 r] eqn:E1. simpl in Ho1, Hr.
  pose proof (refresh_groups_grows o1 groups now Hgap) as Hgr. specialize (IH now o1 ltac:(lia) Ho1).
  destruct (refresh_groups _ _ _ _ _ o1 groups now) as [o2 rs] eqn:E2. simpl in *.
  apply elem_of_cons in Hin as [Heq|Hin]; [|by apply IH]. simplify_eq.
  destruct (refresh_plan _ _ _ _) as [[[[[tf tf_ms] targets] end_] recent]|e]; [|done]. intros H0. by apply Hgr, Hr.
Qed.

End NoGaps.

(** ** Derived target bars *)

Section Targets.

Context {O : Type} (parse_timeframe : string -> option Timeframe) (py_sum : list float -> float).
Context (default_gap_policy : string) (data : DataLayer O) (view : O -> SeriesKey -> gmap Z Bar).
Context `{Hstore : !SeriesStore data view} (src : Timeframe) (d dt : positive) (target : Timeframe).

Hypothesis target_parsed : parse_timeframe (canonical target) = Some target.
Hypothesis target_duration : duration_ms target = Some dt.
Hypothesis target_multiple : Z.pos dt mod Z.pos d = 0.
Hypothesis target_larger : Z.pos d < Z.pos dt.

(** The stored source bars of the target bar that closes at [c]. *)
Definition stored_window (m : gmap Z Bar) (c : Z) : list Bar := omap (fun t => m !! t) (grid (c - Z.pos dt) c d).

Lemma window_grid D c : window D c (Z.pos dt) (Z.pos d) = omap (dget D) (grid (c - Z.pos dt) c d).
Proof.
  unfold window, grid. replace (c - (c - Z.pos dt) + Z.pos d - 1) with (Z.pos dt + (Z.pos d - 1)) by lia.
  apply Z.div_exact in target_multiple; [|lia]. set (n := Z.pos dt / Z.pos d) in *.
  replace ((Z.pos dt + (Z.pos d - 1)) / Z.pos d) with n.
  - generalize (seq 0 (Z.to_nat n)). intros l. induction l as [|i l IH]; [done|]. cbn [omap list_omap fmap list_fmap]. by destruct (dget D _); [f_equal|].
  - rewrite target_multiple, Z.mul_comm, Z.div_add_l by lia. rewrite (Z.div_small (Z.pos d - 1)) by lia. lia.
Qed.

Lemma grid_window_length c : Z.of_nat (length (grid (c - Z.pos dt) c d)) = Z.pos dt / Z.pos d.
Proof.
  unfold grid. rewrite length_fmap, length_seq. replace (c - (c - Z.pos dt) + Z.pos d - 1) with (Z.pos dt + (Z.pos d - 1)) by lia.
  apply Z.div_exact in target_multiple; [|lia]. set (n := Z.pos dt / Z.pos d) in *.
  rewrite target_multiple, Z.mul_comm, Z.div_add_l by lia. rewrite (Z.div_small (Z.pos d - 1)) by lia. lia.
Qed.

Definition complete_at (m : gmap Z Bar) (c : Z) : Prop := forall t, t ∈ grid (c - Z.pos dt) c d -> is_Some (m !! t).

Lemma omap_length_full {A B} (f : A -> option B) l :
  (length (omap f l) <= length l)%nat /\ (length (omap f l) = length l <-> Forall (fun x => is_Some (f x)) l).
Proof.
  induction l as [|x l [Hle IH]]; [done|]. rewrite Forall_cons. cbn [omap list_omap] in *.
  destruct (f x) as [y|]; simpl; (split; [lia|]).
  - rewrite <-IH. split; [intros [=]; eauto|intros [_ ->]; done].
  - split; [lia|]. by intros [[] _].
Qed.

Definition keyed (m : gmap Z Bar) : Prop := forall t b, m !! t = Some b -> bar_time b = t.

Lemma stored_window_times m c : keyed m -> complete_at m c -> times (stored_window m c) = grid (c - Z.pos dt) c d.
Proof.
  intros Hk Hc. unfold complete_at in Hc. unfold stored_window. revert Hc. generalize (grid (c - Z.pos dt) c d). intros l Hc.
  induction l as [|t l IH]; [done|]. destruct (Hc t ltac:(set_solver)) as [b Hb]. cbn [omap list_omap]. rewrite Hb. simpl.
  f_equal; [by apply Hk|]. apply IH. set_solver.
Qed.

Lemma complete_length m c :
  Z.of_nat (length (stored_window m c)) = Z.pos dt / Z.pos d <-> complete_at m c.
Proof.
  rewrite <-(grid_window_length c). unfold stored_window, complete_at. rewrite <-Forall_forall.
  destruct (omap_length_full (fun t => m !! t) (grid (c - Z.pos dt) c d)) as [_ <-]. lia.
Qed.

Lemma grid_head c : exists l, grid (c - Z.pos dt) c d = (c - Z.pos dt) :: l.
Proof.
  pose proof (grid_window_length c) as Hl. unfold grid in *. rewrite length_fmap, length_seq in Hl.
  assert (1 <= Z.pos dt / Z.pos d) by (apply Z.div_le_lower_bound; lia).
  destruct (Z.to_nat ((c - (c - Z.pos dt) + Z.pos d - 1) / Z.pos d)) as [|n]; [lia|]. simpl. eexists. f_equal. lia.
Qed.

(** The aggregate of a complete window: the bar of the target slot. *)
Lemma aggregate_complete m c :
  keyed m -> complete_at m c -> exists a, aggregate_bars py_sum (stored_window m c) target = Ok a /\
    bar_time a = c - Z.pos dt /\ bar_time_close a = c /\ bar_closed a = true.
Proof.
  intros Hk Hc. pose proof (stored_window_times m c Hk Hc) as Ht. unfold aggregate_bars.
  rewrite sort_bars_id by (rewrite Ht; apply grid_sorted). destruct (grid_head c) as [l Hl]. rewrite Hl in Ht.
  destruct (stored_window m c) as [|b0 rest]; [done|]. simpl in Ht. injection Ht as Ht0 _.
  eexists. split; [reflexivity|]. simpl. rewrite target_duration, Ht0. split_and!; [done|lia|done].
Qed.

Definition agg_at (m : gmap Z Bar) (c : Z) : option Bar :=
  if Z.of_nat (length (stored_window m c)) =? Z.pos dt / Z.pos d then
    match aggregate_bars py_sum (stored_window m c) target with Ok a => Some a | Err _ => None end
  else None.

Definition agg_of (m : gmap Z Bar) (b : Bar) : option Bar :=
  let c := bar_time b + Z.pos d in if c mod Z.pos dt =? 0 then agg_at m c else None.

Lemma result_fold_omap {E A B} (f : list B -> A -> result E (list B)) (g : A -> option B) l acc :
  (forall a acc, a ∈ l -> f acc a = Ok (match g a with Some b => acc ++ [b] | None => acc end)) ->
  result_fold f acc l = Ok (acc ++ omap g l).
Proof.
  revert acc. induction l as [|a l IH]; intros acc H; simpl; [by rewrite app_nil_r|]. rewrite H by set_solver. simpl.
  cbn [omap list_omap]. rewrite IH by (intros; apply H; set_solver). destruct (g a); [by rewrite <-app_assoc|done].
Qed.

Lemma omap_dget_ext (D : dict Z Bar) (m : gmap Z Bar) (l : list Z) :
  (forall t, t ∈ l -> dget D t = m !! t) -> omap (dget D) l = omap (fun t => m !! t) l.
Proof.
  intros H. induction l as [|t l IH]; [done|]. cbn [omap list_omap]. rewrite H by set_solver.
  destruct (m !! t); rewrite IH by set_solver; done.
Qed.

Lemma aggregates_eq D m bs :
  keyed m ->
  (forall b t, b ∈ bs -> (bar_time b + Z.pos d) mod Z.pos dt = 0 ->
     t ∈ grid (bar_time b + Z.pos d - Z.pos dt) (bar_time b + Z.pos d) d -> dget D t = m !! t) ->
  aggregates parse_timeframe py_sum D target (Z.pos dt) (Z.pos d) bs = Ok (omap (agg_of m) (sort_bars bs)).
Proof.
  intros Hk HD. unfold aggregates. rewrite (result_fold_omap _ (agg_of m)); [done|].
  intros b acc Hb. unfold sort_bars in Hb. apply elem_of_sort_by in Hb. unfold agg_of.
  destruct (Z.eqb_spec ((bar_time b + Z.pos d) mod Z.pos dt) 0) as [Hm|]; [|done]. simpl.
  assert (Hw : window D (bar_time b + Z.pos d) (Z.pos dt) (Z.pos d) = stored_window m (bar_time b + Z.pos d)).
  { rewrite window_grid. apply omap_dget_ext. intros t Ht. by apply (HD b). }
  rewrite Hw. unfold agg_at. destruct (Z.eqb_spec (Z.of_nat (length (stored_window m (bar_time b + Z.pos d)))) (Z.pos dt / Z.pos d))
    as [Hl|]; [|done]. simpl. unfold parse. rewrite target_parsed. simpl.
  destruct (aggregate_complete m (bar_time b + Z.pos d) Hk) as (a & -> & _); [by apply complete_length|done].
Qed.

Lemma fold_pick (f : Z -> Z -> Z) x xs : (forall a b, f a b = a \/ f a b = b) -> fold_left f xs x ∈ x :: xs.
Proof.
  intros Hf. revert x. induction xs as [|y xs IH]; intros x; simpl; [set_solver|].
  specialize (IH (f x y)). destruct (Hf x y) as [E|E]; rewrite E in *; set_solver.
Qed.

Lemma zmin_list_elem x xs : zmin_list x xs ∈ x :: xs.
Proof. apply fold_pick. lia. Qed.

Lemma zmax_list_elem x xs : zmax_list x xs ∈ x :: xs.
Proof. apply fold_pick. lia. Qed.

(** The extreme value of a field is the field of an element. *)
Lemma fmap_pick {A} (f : A -> Z) a (rest : list A) z : z ∈ f a :: (f <$> rest) -> exists x, x ∈ a :: rest /\ z = f x.
Proof. intros [->|(x & -> & Hx)%list_elem_of_fmap]%elem_of_cons; [exists a|exists x]; set_solver. Qed.

Lemma zmin_list_le x xs y : y ∈ x :: xs -> zmin_list x xs <= y.
Proof.
  unfold zmin_list. assert (Hx : forall ys x, fold_left Z.min ys x <= x).
  { intros ys. induction ys as [|z ys IH]; intros w; simpl; [done|]. specialize (IH (Z.min w z)). lia. }
  revert x. induction xs as [|z xs IH]; intros x Hy; [set_solver|]. simpl.
  apply elem_of_cons in Hy as [->|Hy]; [specialize (Hx xs (Z.min x z)); lia|].
  apply elem_of_cons in Hy as [->|Hy]; [specialize (Hx xs (Z.min x z)); lia|]. apply IH. set_solver.
Qed.

Lemma zmax_list_max x xs y : y ∈ x :: xs -> y <= zmax_list x xs.
Proof.
  unfold zmax_list. assert (Hx : forall ys x, x <= fold_left Z.max ys x).
  { intros ys. induction ys as [|z ys IH]; intros w; simpl; [done|]. specialize (IH (Z.max w z)). lia. }
  revert x. induction xs as [|z xs IH]; intros x Hy; [set_solver|]. simpl.
  apply elem_of_cons in Hy as [->|Hy]; [specialize (Hx xs (Z.max x z)); lia|].
  apply elem_of_cons in Hy as [->|Hy]; [specialize (Hx xs (Z.max x z)); lia|]. apply IH. set_solver.
Qed.

Section Stored.

Context (m : gmap Z Bar) (now start_ end_ : Z) (bs : list Bar).
Hypothesis m_keyed : keyed m.
Hypothesis m_gapfree : gapfree d now m.
Hypothesis bs_grid : times bs = grid start_ end_ d.
Hypothesis start_slot : start_ mod Z.pos d = 0.
Hypothesis bs_stored : forall b, b ∈ bs -> m !! bar_time b = Some b.

(** The target closes among the incoming bars. *)
Definition closes_at (c : Z) : Prop := c mod Z.pos dt = 0 /\ c - Z.pos d ∈ times bs.

Lemma agg_of_spec b a :
  b ∈ bs -> agg_of m b = Some a <->
  let c := bar_time b + Z.pos d in closes_at c /\ complete_at m c /\ aggregate_bars py_sum (stored_window m c) target = Ok a.
Proof.
  intros Hb. unfold agg_of, agg_at, closes_at. set (c := bar_time b + Z.pos d). simpl. rewrite <-complete_length.
  assert (Hin : c - Z.pos d ∈ times bs) by (unfold c; rewrite Z.add_simpl_r; by apply list_elem_of_fmap_2).
  destruct (Z.eqb_spec (c mod Z.pos dt) 0); [|naive_solver]. destruct (Z.eqb_spec (Z.of_nat (length (stored_window m c))) (Z.pos dt / Z.pos d)); [|naive_solver].
  destruct (aggregate_bars _ _ _); naive_solver.
Qed.

Lemma aggs_elem a :
  a ∈ omap (agg_of m) bs <->
  exists c, closes_at c /\ complete_at m c /\ aggregate_bars py_sum (stored_window m c) target = Ok a.
Proof.
  rewrite list_elem_of_omap. split.
  - intros (b & Hb & Ha). apply agg_of_spec in Ha; [|done]. eauto.
  - intros (c & [Hm Hin] & Hc & Ha). apply list_elem_of_fmap in Hin as (b & Hbt & Hb). exists b. split; [done|].
    apply agg_of_spec; [done|]. simpl. replace (bar_time b + Z.pos d) with c by lia.
    split_and!; [|done|done]. split; [done|]. rewrite Hbt. by apply list_elem_of_fmap_2.
Qed.

Lemma agg_time c a :
  complete_at m c -> aggregate_bars py_sum (stored_window m c) target = Ok a ->
  bar_time a = c - Z.pos dt /\ bar_time_close a = c /\ bar_closed a = true.
Proof. intros Hc Ha. destruct (aggregate_complete m c m_keyed Hc) as (a' & Ha' & H). congruence. Qed.

Lemma aggs_sorted : StronglySorted Z.lt (times (omap (agg_of m) bs)).
Proof.
  assert (H : StronglySorted Z.lt (times bs)) by (rewrite bs_grid; apply grid_sorted).
  assert (Hall : forall b a, b ∈ bs -> agg_of m b = Some a -> bar_time a = bar_time b + Z.pos d - Z.pos dt).
  { intros b a Hb (_ & Hc & Ha)%agg_of_spec; [|done]. by apply agg_time in Ha as (-> & _). }
  clear bs_grid bs_stored. induction bs as [|b l IH]; [constructor|]. simpl in H. inversion H as [|? ? Hs Hf]; subst.
  cbn [omap list_omap]. specialize (IH Hs ltac:(intros; apply Hall; set_solver)).
  destruct (agg_of m b) as [a|] eqn:Ea; [|exact IH]. simpl. constructor; [exact IH|].
  apply Forall_forall. intros t (a' & -> & (b' & Hb' & Ha')%list_elem_of_omap)%list_elem_of_fmap.
  rewrite (Hall b a), (Hall b' a') by (done || set_solver). rewrite Forall_forall in Hf.
  pose proof (Hf (bar_time b') ltac:(by apply list_elem_of_fmap_2)). lia.
Qed.

(** Between two complete windows every window is complete. *)
Lemma complete_between c1 c2 c :
  complete_at m c1 -> complete_at m c2 -> c1 mod Z.pos dt = 0 -> c mod Z.pos dt = 0 -> c1 <= c <= c2 -> complete_at m c.
Proof.
  intros H1 H2 Hm1 Hm Hc t [Ht Htm]%grid_spec.
  assert (Hdm : forall x, x mod Z.pos dt = 0 -> x mod Z.pos d = 0).
  { intros x Hx. apply Z.mod_divide; [lia|]. transitivity (Z.pos dt); apply Z.mod_divide; (done || lia). }
  assert (Hs1 : is_Some (m !! (c1 - Z.pos dt))).
  { apply H1, grid_spec. rewrite Z.sub_diag. split; [lia|done]. }
  assert (Hlast : forall x, x mod Z.pos dt = 0 -> (x - Z.pos d) mod Z.pos d = 0).
  { intros x Hx%Hdm. replace (x - Z.pos d) with (x + (-1) * Z.pos d) by lia. by rewrite Z.mod_add by lia. }
  assert (Hs2 : is_Some (m !! (c2 - Z.pos d))).
  { apply H2, grid_spec. split; [lia|]. replace (c2 - Z.pos d - (c2 - Z.pos dt)) with (Z.pos dt + (-1) * Z.pos d) by lia.
    rewrite Z.mod_add by lia. exact target_multiple. }
  assert (Htd : t mod Z.pos d = 0).
  { replace t with (t - (c - Z.pos dt) + (c - Z.pos dt)) by lia.
    rewrite Z.add_mod, Htm by lia. rewrite (mod_diff d (Z.pos dt) c); [by rewrite Z.mod_0_l by lia|done|by apply Hdm]. }
  apply (proj2 m_gapfree (c1 - Z.pos dt) (c2 - Z.pos d)); [done|done| |done]. split; [lia|].
  pose proof (mod_diff d t c Htd (Hdm _ Hm)) as Hz. apply Z.mod_divide in Hz as [z Hz]; [|lia]. assert (1 <= z) by nia. nia.
Qed.

(** The derived series is valid: no target bar is missing inside it. *)
Lemma aggs_valid a rest source k :
  omap (agg_of m) bs = a :: rest ->
  let q := key_query k target (zmin_list (bar_time a) (bar_time <$> rest))
             (zmax_list (bar_time_close a) (bar_time_close <$> rest)) "storage" default_gap_policy in
  is_ok (validate (mkSeries q (a :: rest) (coverage_for q (a :: rest) source)) None) = true.
Proof.
  intros E q. assert (Hin : forall x, x ∈ a :: rest -> exists c, closes_at c /\ complete_at m c /\
      bar_time x = c - Z.pos dt /\ bar_time_close x = c /\ bar_closed x = true).
  { intros x. rewrite <-E, aggs_elem. intros (c & Hcl & Hc & Ha). exists c. apply agg_time in Ha; naive_solver. }
  apply validate_spec. split_and!.
  - rewrite <-E. apply aggs_sorted.
  - apply Forall_forall. intros x Hx. destruct (Hin x Hx) as (c & _ & _ & _ & _ & ?). done.
  - right. split; [done|]. apply (missing_none _ _ dt); [done|]. intros t [Hr Hm]%grid_spec. simpl in Hr, Hm.
    destruct (fmap_pick bar_time a rest _ (zmin_list_elem _ _)) as (x1 & Hx1 & E1).
    destruct (fmap_pick bar_time_close a rest _ (zmax_list_elem _ _)) as (x2 & Hx2 & E2).
    rewrite E1 in Hr, Hm. rewrite E2 in Hr. destruct (Hin x1 Hx1) as (c1 & [Hm1 Hi1] & Hc1 & Ht1 & _).
    destruct (Hin x2 Hx2) as (c2 & [Hm2 Hi2] & Hc2 & _ & Ht2 & _). rewrite Ht1 in Hr, Hm. rewrite Ht2 in Hr.
    set (c := t + Z.pos dt). assert (Hcm : c mod Z.pos dt = 0).
    { replace c with (t - (c1 - Z.pos dt) + c1) by (unfold c; lia). rewrite Z.add_mod, Hm, Hm1 by lia. done. }
    assert (Hcb : c1 <= c <= c2).
    { pose proof (mod_diff dt c c2 Hcm Hm2) as Hz. apply Z.mod_divide in Hz as [z Hz]; [|lia].
      assert (-1 < z) by (unfold c in Hz; nia). unfold c in *. nia. }
    pose proof (complete_between c1 c2 c Hc1 Hc2 Hm1 Hcm Hcb) as Hc.
    destruct (aggregate_complete m c m_keyed Hc) as (y & Hy & Hyt & _).
    change (t ∈ times (a :: rest)). rewrite <-E. apply list_elem_of_fmap. exists y. split; [unfold c in Hyt; lia|].
    apply aggs_elem. exists c. split_and!; [|done|done]. split; [done|].
    rewrite bs_grid in *. apply grid_spec in Hi1 as [Hi1 Hj1], Hi2 as [Hi2 _]. apply grid_spec. split; [lia|].
    replace (c - Z.pos d - start_) with ((c - c1) + (c1 - Z.pos d - start_)) by lia. rewrite Z.add_mod, Hj1 by lia.
    pose proof (mod_diff dt c1 c Hm1 Hcm) as Hz. apply Z.mod_divide in Hz; [|lia].
    assert (Hdd : (c - c1) mod Z.pos d = 0).
    { apply Z.mod_divide; [lia|]. transitivity (Z.pos dt); [apply Z.mod_divide; (done || lia)|done]. }
    by rewrite Hdd.
Qed.

End Stored.

(** Stored series can be read. *)
Definition readable (o : O) : Prop := forall q, bq_source q = "storage" -> gap_policy q = "allow_with_metadata" ->
  is_ok (dl_load data o q).2 = true.

Hypothesis store_takes : forall o s, is_ok (validate s None) = true -> exists o', dl_store data o s = (o', Ok tt).

Lemma source_context_get o k a b o' ctx t :
  readable o -> source_context data o k src a b = (o', ctx) -> a <= t < b ->
  view o' = view o /\
  dget ctx t = view o (mk_exchange k, mk_market_type k, mk_symbol k, canonical src) !! t.
Proof.
  intros Hrd. unfold source_context. set (q := key_query _ _ _ _ _ _). pose proof (Hrd q eq_refl eq_refl) as Hok.
  destruct (dl_load data o q) as [o1 [s|e]] eqn:E; [|done]. intros [= <- <-] Ht.
  apply ss_read in E as [Hv Hs]; [|done|done]. split; [done|]. specialize (Hs s eq_refl). rewrite by_time_get.
  change (series_key q) with (mk_exchange k, mk_market_type k, mk_symbol k, canonical src) in Hs. set (m := view o _) in *.
  destruct (last_at (bars s) t) as [x|] eqn:El.
  - apply last_at_Some in El as [Hx <-]. apply Hs in Hx as [-> _]. done.
  - simpl. symmetry. destruct (m !! t) as [x|] eqn:Em; [|done]. pose proof (ss_time _ _ _ _ Em) as Hxt. exfalso.
    destruct (last_at_is_Some (bars s) t) as [y Hy]; [|congruence]. rewrite <-Hxt. apply list_elem_of_fmap_2, Hs.
    rewrite Hxt. split; [done|]. exact Ht.
Qed.

Lemma last_at_elem (l : list Bar) a : StronglySorted Z.lt (times l) -> a ∈ l -> last_at l (bar_time a) = Some a.
Proof.
  intros Hs%sorted_lt_NoDup Ha. destruct (last_at_is_Some l (bar_time a)) as [b Hb]; [by apply list_elem_of_fmap_2|].
  rewrite Hb. apply last_at_Some in Hb as [Hb Ht]. f_equal. clear -Hs Ha Hb Ht. unfold times in Hs.
  induction l as [|x l IH]; [by apply not_elem_of_nil in Ha|]. apply NoDup_cons in Hs as [Hx Hs].
  apply elem_of_cons in Ha as [->|Ha], Hb as [->|Hb]; [done| | |by apply IH]; exfalso; apply Hx;
    [rewrite <-Ht|rewrite Ht]; by apply list_elem_of_fmap_2.
Qed.

(** The bars the aggregates are looked up in are the stored ones. *)
Lemma merged_context o k bs c0 cs o1 ctx b t :
  let m := view o (mk_exchange k, mk_market_type k, mk_symbol k, canonical src) in
  readable o -> (forall b, b ∈ bs -> m !! bar_time b = Some b) ->
  source_context data o k src (zmin_list c0 cs - Z.pos dt) (zmax_list c0 cs) = (o1, ctx) ->
  bar_time b + Z.pos d ∈ c0 :: cs -> t ∈ grid (bar_time b + Z.pos d - Z.pos dt) (bar_time b + Z.pos d) d ->
  dget (by_time ctx bs) t = m !! t.
Proof.
  intros m Hrd Hin Ec Hb [Ht _]%grid_spec. rewrite by_time_get. destruct (last_at bs t) as [x|] eqn:El.
  - apply last_at_Some in El as [Hx <-]. by rewrite Hin.
  - apply (source_context_get _ _ _ _ _ _ t) in Ec as [_ ->]; [done|done|].
    pose proof (zmin_list_le _ _ _ Hb). pose proof (zmax_list_max _ _ _ Hb). lia.
Qed.

(** Derived bars are complete and exact.  When bars of a contiguous range have
    been stored to a source series without gaps, the target series afterwards
    holds, for every target bar that closes on one of them and whose source
    bars are all stored, exactly the aggregate of those stored bars, and the
    step reports no error. *)
Theorem target_bars_stored o k bs now start_ end_ :
  let m := view o (mk_exchange k, mk_market_type k, mk_symbol k, canonical src) in
  let '(o', r) := store_target parse_timeframe py_sum default_gap_policy data o k src d bs target in
  readable o -> gapfree d now m -> times bs = grid start_ end_ d -> start_ mod Z.pos d = 0 ->
  (forall b, b ∈ bs -> m !! bar_time b = Some b) ->
  r = Ok tt /\
  forall c, c mod Z.pos dt = 0 -> c - Z.pos d ∈ times bs -> (forall t, t ∈ grid (c - Z.pos dt) c d -> is_Some (m !! t)) ->
  exists a, aggregate_bars py_sum (stored_window m c) target = Ok a /\
    view o' (mk_exchange k, mk_market_type k, mk_symbol k, canonical target) !! (c - Z.pos dt) = Some a.
Proof.
  intros m. destruct (store_target _ _ _ _ _ _ _ _ _ _) as [o' r] eqn:E. intros Hrd Hgap Hbs Hs Hin. revert E.
  assert (Hk : keyed m) by (intros t b; apply ss_time).
  unfold store_target. rewrite target_duration, target_multiple. simpl.
  assert (Hne : (Z.pos dt =? Z.pos d) = false) by (apply Z.eqb_neq; lia).
  assert (Hnl : (Z.pos dt <? Z.pos d) = false) by (apply Z.ltb_ge; lia).
  change (dt =? d)%positive with (Z.pos dt =? Z.pos d). change (dt <? d)%positive with (Z.pos dt <? Z.pos d).
  rewrite Hne, Hnl. cbn [orb negb].
  destruct (List.filter _ _) as [|c0 cs] eqn:Ef.
  { intros [= <- <-]. split; [done|]. intros c Hm (b & Hb & Hbb)%list_elem_of_fmap _. exfalso.
    assert (Hc : c ∈ @nil Z); [|by apply not_elem_of_nil in Hc]. rewrite <-Ef. apply list_elem_of_In, filter_In.
    split; [|by apply Z.eqb_eq]. apply list_elem_of_In, list_elem_of_fmap. exists b. split; [lia|done]. }
  destruct (source_context data o k src _ _) as [o1 ctx] eqn:Ec. pose proof (source_context_view _ _ _ _ _ _ _ _ _ Ec) as Hv.
  rewrite (aggregates_eq _ m); [|done|].
  2:{ intros b t Hb Hm Ht. eapply merged_context; [exact Hrd|exact Hin|exact Ec| |exact Ht]. rewrite <-Ef.
      apply list_elem_of_In, filter_In. split; [|by apply Z.eqb_eq]. apply list_elem_of_In, list_elem_of_fmap. eauto. }
  rewrite sort_bars_id by (rewrite Hbs; apply grid_sorted).
  assert (Hagg : forall c, c mod Z.pos dt = 0 -> c - Z.pos d ∈ times bs -> complete_at m c ->
            exists a, aggregate_bars py_sum (stored_window m c) target = Ok a /\ bar_time a = c - Z.pos dt /\
                      a ∈ omap (agg_of m) bs).
  { intros c Hm Hc Hcomp. destruct (aggregate_complete m c Hk Hcomp) as (a & Ha & Hat & _). exists a.
    split_and!; [done|done|]. apply aggs_elem. by exists c. }
  destruct (omap (agg_of m) bs) as [|a rest] eqn:Eo.
  { intros [= <- <-]. split; [done|]. intros c Hm Hc Hcomp. destruct (Hagg c Hm Hc Hcomp) as (a & _ & _ & Ha).
    by apply not_elem_of_nil in Ha. }
  pose proof (aggs_valid m now start_ end_ bs Hk Hgap Hbs Hs a rest "aggregate" k Eo) as Hval.
  unfold store_series. destruct (store_takes o1 _ Hval) as [o2 Est]. rewrite Est. intros [= <- <-]. split; [done|].
  apply ss_write in Est as [_ Hw]. intros c Hm Hc Hcomp. destruct (Hagg c Hm Hc Hcomp) as (x & Hx & Hxt & Hxin).
  exists x. split; [done|]. rewrite Hw, decide_True by reflexivity. cbn [bars]. rewrite written_lookup, <-Hxt.
  rewrite last_at_elem; [done|rewrite <-Eo; by eapply aggs_sorted|done].
Qed.

End Targets.

(** ** The orchestrator keeps the promise *)

(** A candle store: what it reads, writes and reports as its newest bar. *)
Class CandleStore {St} (store : Store (S:=St)) (latest : St -> BarQuery -> result string (option Z))
    (view : St -> SeriesKey -> gmap Z Bar) : Prop := {
  cs_time : forall st k t b, view st k !! t = Some b -> bar_time b = t;
  cs_read : forall st q s, store_read store st q = Ok s ->
    forall b, b ∈ bars s <-> view st (series_key q) !! bar_time b = Some b /\ in_range q (bar_time b);
  cs_write : forall st s st' r, store_write store st s = (st', r) ->
    match r with
    | Ok res => if sr_success res then
                  forall k, view st' k = if decide (k = series_key (series_query s)) then written (bars s) (view st k) else view st k
                else view st' = view st
    | Err _ => view st' = view st
    end;
  cs_latest : forall st q r, latest st q = Ok r ->
    match r with
    | Some t => is_Some (view st (series_key q) !! t) /\ in_range q t /\
                forall u, is_Some (view st (series_key q) !! u) -> in_range q u -> u <= t
    | None => forall u, is_Some (view st (series_key q) !! u) -> ~ in_range q u
    end
}.

(** A provider answers with bars at slots of the range it is asked for. *)
Definition answers_in_range {P} (p : Provider (P:=P)) : Prop := forall ps q ps' s, fetch_bars p ps q = (ps', Ok s) ->
  Forall (fun b => 0 <= bar_time b /\ in_range q (bar_time b) /\
    forall d, duration_ms (bq_timeframe q) = Some d -> bar_time b mod Z.pos d = 0) (bars s).

Section Discharge.

Context {St P C : Type} (is_complete : CoverageReport -> bool) (o : Orchestrator (S:=St) (P:=P) (C:=C)).
Context (latest : St -> BarQuery -> result string (option Z)) (coverage_of : St -> BarQuery -> result string CoverageReport).
Context (view : St -> SeriesKey -> gmap Z Bar) `{Hs : !CandleStore (orch_store o) latest view}.
Hypothesis no_cache : orch_cache o = None.
Hypothesis provider_in_range : forall p, orch_provider o = Some p -> answers_in_range p.

Abbreviation layer := (orchestrator_layer is_complete o (Some latest) coverage_of).

Lemma orchestrator_fetch w q w' r :
  bq_source q = "provider" -> load_bars is_complete o w q = (w', r) ->
  view (w_store w') = view (w_store w) /\
  forall s, r = Ok s -> StronglySorted Z.lt (times (bars s)) /\
    Forall (fun b => bar_closed b = true /\ 0 <= bar_time b /\ in_range q (bar_time b) /\
      forall d, duration_ms (bq_timeframe q) = Some d -> bar_time b mod Z.pos d = 0) (bars s).
Proof.
  intros Hq. unfold load_bars, load_cache, load_provider. rewrite Hq, no_cache. simpl.
  destruct (orch_provider o) as [p|] eqn:Ep; [|by intros [= <- <-]].
  destruct (fetch_bars p (w_prov w) q) as [ps [s|e]] eqn:Ef; [|by intros [= <- <-]].
  destruct (validate s _) as [c|e] eqn:Ev; [|by intros [= <- <-]]. simpl. unfold require_if_fail, require_complete, save_cache.
  rewrite no_cache. intros E. assert (w' = mkWorld (w_store w) ps (w_cache w) /\ forall s', r = Ok s' -> s' = s) as [-> Hr].
  { destruct (is_fail q), (is_complete (coverage s)); simpl in E; simplify_eq; (split; [done|]); intros ? [=]; done. }
  split; [done|]. intros s' ->. rewrite (Hr s' eq_refl). clear E Hr.
  assert (Hok : is_ok (validate s (Some (negb (is_fail q)))) = true) by (by rewrite Ev).
  apply validate_spec in Hok as (Hsort & Hcl & _). split; [done|].
  pose proof (provider_in_range p eq_refl _ _ _ _ Ef) as Hin. rewrite Forall_forall in Hin, Hcl. apply Forall_forall.
  intros b Hb. destruct (Hin b Hb) as (? & ? & ?). auto.
Qed.

(** Over a candle store, the orchestrator is a data layer as the fetcher needs it. *)
#[export] Instance orchestrator_series_store : SeriesStore layer (fun w => view (w_store w)).
Proof.
  split.
  - intros w k t b. apply cs_time.
  - intros w q w' r Hq Hg. simpl. unfold load_bars, load_storage, is_fail. rewrite Hq, Hg. simpl.
    destruct (store_read (orch_store o) (w_store w) q) as [s|e] eqn:Er; [|by intros [= <- <-]].
    intros [= <- <-]. split; [done|]. intros s'. destruct (validate s (Some true)); simpl; intros [= <-]. by eapply cs_read.
  - intros w q w' r Hq. simpl. by apply orchestrator_fetch.
  - intros w s w' r. simpl. unfold store_bars, validated_write. destruct (validate s None) as [c|e] eqn:Ev; simpl; [|by intros [= <- <-]].
    unfold write_series. destruct (store_write (orch_store o) (w_store w) s) as [st [res|e]] eqn:Ew; apply cs_write in Ew;
      intros [= <- <-]; [|done]. by destruct (sr_success res).
  - intros w q r _. simpl. apply cs_latest.
Qed.

End Discharge.

(** ** A store in memory *)

(** Per series, the bars in the order they were written. *)
Abbreviation memory := (gmap SeriesKey (list Bar)).

Definition memory_view (st : memory) (k : SeriesKey) : gmap Z Bar := written (default [] (st !! k)) ∅.

Definition in_range_b (q : BarQuery) (t : Z) : bool := (start_ms q <=? t) && (t <? end_ms q).

Definition memory_bars (st : memory) (q : BarQuery) : list Bar :=
  List.filter (fun b => in_range_b q (bar_time b)) (sort_bars (map_to_list (memory_view st (series_key q))).*2).

Definition memory_store : Store (S:=memory) :=
  mkStore (fun st q => Ok (mkSeries q (memory_bars st q) (coverage_for q (memory_bars st q) "storage")))
    (fun st s => (<[series_key (series_query s) := default [] (st !! series_key (series_query s)) ++ bars s]> st,
                  Ok (mkStoreResult true None))).

Definition memory_latest (st : memory) (q : BarQuery) : result string (option Z) :=
  Ok (max_by Z.leb (List.filter (in_range_b q) (map_to_list (memory_view st (series_key q))).*1)).

Definition memory_coverage (st : memory) (q : BarQuery) : result string CoverageReport :=
  Ok (coverage_for q (memory_bars st q) "storage").

Lemma memory_keyed st k t b : memory_view st k !! t = Some b -> bar_time b = t.
Proof.
  unfold memory_view. rewrite written_lookup, lookup_empty. destruct (last_at _ t) as [x|] eqn:E; intros [= <-].
  by apply last_at_Some in E as [_ E].
Qed.

Lemma in_range_b_spec q t : in_range_b q t = true <-> in_range q t.
Proof. unfold in_range_b, in_range. lia. Qed.

Lemma memory_bars_elem st q b :
  b ∈ memory_bars st q <-> memory_view st (series_key q) !! bar_time b = Some b /\ in_range q (bar_time b).
Proof.
  unfold memory_bars. rewrite list_elem_of_In, filter_In, in_range_b_spec, <-list_elem_of_In.
  unfold sort_bars. rewrite elem_of_sort_by, list_elem_of_fmap. split.
  - intros [([t x] & -> & Hx%elem_of_map_to_list) Hr]. simpl in *. split; [|done]. by rewrite (memory_keyed _ _ _ _ Hx).
  - intros [Hb Hr]. split; [|done]. exists (bar_time b, b). split; [done|]. by apply elem_of_map_to_list.
Qed.

#[export] Instance memory_candle_store : CandleStore memory_store memory_latest memory_view.
Proof.
  split.
  - intros st k t b. apply memory_keyed.
  - intros st q s [= <-] b. apply memory_bars_elem.
  - intros st s st' r [= <- <-] k. unfold memory_view. case_decide as E.
    + rewrite E, lookup_insert_eq. simpl. unfold written. by rewrite fold_left_app.
    + by rewrite lookup_insert_ne by done.
  - intros st q r [= <-]. set (l := List.filter _ _).
    assert (Hl : forall u, u ∈ l <-> is_Some (memory_view st (series_key q) !! u) /\ in_range q u).
    { intros u. unfold l. rewrite list_elem_of_In, filter_In, in_range_b_spec, <-list_elem_of_In, list_elem_of_fmap. split.
      - intros [([t x] & -> & Hx%elem_of_map_to_list) Hr]. split; [by exists x|done].
      - intros [[x Hx] Hr]. split; [|done]. exists (u, x). split; [done|by apply elem_of_map_to_list]. }
    clearbody l. destruct (max_by Z.leb l) as [t|] eqn:Em.
    + apply max_by_spec in Em as [Ht Hmax]; [|intros; lia..]. apply Hl in Ht as [? ?]. split_and!; [done|done|].
      intros u Hu Hr. apply Z.leb_le, Hmax, Hl. done.
    + intros u Hu Hr. assert (Hin : u ∈ l) by (by apply Hl). destruct l; [by apply not_elem_of_nil in Hin|done].
Qed.

(** ** The thread that ticks *)

(** [PeriodicBarFetcher]'s flags, the thread it remembers, and for every thread
    ever started whether it is still in [_run_loop]; the record of the last
    tick. *)
Record Threads := mkThreads {
  running : bool;
  stop_event : bool;
  current : option nat;
  loops : list bool;
  last_fetch : option (Z * Z)
}.

Definition threads_init : Threads := mkThreads false false None [] None.

Inductive thread_op :=
| OpStart
| OpStop
| OpCheck (i : nat)
| OpTicked (markets : Z) (now : Z).

(** [start], [stop] (its [join] returns when the thread ends or times out), a
    thread testing its loop condition, a tick that found active strategies. *)
Definition thread_step (s : Threads) (op : thread_op) : Threads :=
  match op with
  | OpStart =>
      if running s then s else mkThreads true false (Some (length (loops s))) (loops s ++ [true]) (last_fetch s)
  | OpStop => if negb (running s) then s else mkThreads false true (current s) (loops s) (last_fetch s)
  | OpCheck i =>
      if running s && negb (stop_event s) then s
      else mkThreads (running s) (stop_event s) (current s) (<[i := false]> (loops s)) (last_fetch s)
  | OpTicked markets now => mkThreads (running s) (stop_event s) (current s) (loops s) (Some (now, markets))
  end.

Definition live (s : Threads) : nat := length (List.filter id (loops s)).

(** [start] is called only when the loop of the last [stop] has ended. *)
Fixpoint starts_after_end (s : Threads) (ops : list thread_op) : Prop :=
  match ops with
  | [] => True
  | op :: ops' =>
      (match op with OpStart => running s = false -> live s = 0%nat | _ => True end) /\
      starts_after_end (thread_step s op) ops'
  end.

Lemma filter_insert_le (l : list bool) i : (length (List.filter id (<[i := false]> l)) <= length (List.filter id l))%nat.
Proof. revert i. induction l as [|b l IH]; intros [|i]; simpl; try done; destruct b; simpl; [lia|lia| |]; specialize (IH i); lia. Qed.

(** One loop.  As long as [start] waits for the loop that [stop] ended, there
    is never more than one refresh loop. *)
Theorem one_refresh_loop ops s :
  (live s <= 1)%nat -> starts_after_end s ops -> (live (fold_left thread_step ops s) <= 1)%nat.
Proof.
  revert s. induction ops as [|op ops IH]; intros s Hs Hops; simpl; [done|]. destruct Hops as [Hop Hops].
  apply IH; [|done]. destruct op as [| |i|mk now]; simpl.
  - destruct (running s); [done|]. specialize (Hop eq_refl). unfold live in *. simpl. rewrite List.filter_app, length_app. simpl. lia.
  - by destruct (running s).
  - destruct (running s && negb (stop_event s)); [done|]. unfold live in *. simpl. pose proof (filter_insert_le (loops s) i). lia.
  - done.
Qed.

(** Without it: [stop] gives up on a slow refresh after its timeout, [start]
    clears the stop flag, and both threads go on. *)
Example two_loops_after_timeout :
  let s := fold_left thread_step [OpStart; OpStop; OpStart; OpCheck 0; OpCheck 1] threads_init in
  live s = 2%nat /\ running s = true.
Proof. split; reflexivity. Qed.

Lemma one_refresh_loop_witness :
  (live (fold_left thread_step [OpStart; OpCheck 0; OpTicked 3 60; OpStop; OpCheck 0; OpStart; OpCheck 1] threads_init) <= 1)%nat.
Proof. apply one_refresh_loop; vm_compute; [lia|]. repeat split; try lia; congruence. Defined.

(** ** Runs on a concrete orchestrator *)

Definition tf_1m : Timeframe := mkTimeframe "1m" (Some 60%positive).
Definition tf_5m : Timeframe := mkTimeframe "5m" (Some 300%positive).
Definition tf_month : Timeframe := mkTimeframe "1M" None.

Definition demo_parse (s : string) : option Timeframe :=
  if bool_decide (s = "1m") then Some tf_1m
  else if bool_decide (s = "5m") then Some tf_5m
  else if bool_decide (s = "1M") then Some tf_month else None.

Definition demo_bars (q : BarQuery) : list Bar :=
  match duration_ms (bq_timeframe q) with
  | None => []
  | Some d => (fun t => mkBar t (t + Z.pos d) f_zero f_zero f_zero f_zero f_zero true) <$>
                List.filter (fun t => (0 <=? t) && (t mod Z.pos d =? 0)) (grid (start_ms q) (end_ms q) d)
  end.

Definition demo_provider : Provider (P:=unit) :=
  mkProvider false (fun ps q => (ps, Ok (mkSeries q (demo_bars q) (coverage_for q (demo_bars q) "provider")))).

Definition demo_orch : Orchestrator (S:=memory) (P:=unit) (C:=unit) := mkOrch (Some demo_provider) memory_store None.

Abbreviation demo_layer := (orchestrator_layer w_complete demo_orch (Some memory_latest) memory_coverage).

Definition demo_refresh_cfg : RefreshConfig := mkRefreshConfig 60 2 "1m" true.

Definition demo_strategy (tf : string) : StrategyInstance :=
  mkStrategy "s1" "a1" "h" "btcusdt" tf "Binance" "Spot" "trade" "paper" true "[]".

Definition demo_world : World (S:=memory) (P:=unit) (C:=unit) := mkWorld ∅ tt tt.

Definition no_sum (l : list float) : float := f_zero.

Lemma demo_provider_in_range p : orch_provider demo_orch = Some p -> answers_in_range p.
Proof.
  intros [= <-] ps q ps' s [= <- <-]. apply Forall_forall. intros b Hb. simpl in Hb. unfold demo_bars in Hb.
  destruct (duration_ms (bq_timeframe q)) as [d|]; [|by apply not_elem_of_nil in Hb].
  apply list_elem_of_fmap in Hb as (t & -> & Ht). apply list_elem_of_In, filter_In in Ht as [[Ht _]%list_elem_of_In%grid_spec Hc].
  simpl. bool_to_prop. split_and!; [lia|split; lia|]. intros d' [= <-]. lia.
Qed.

#[export] Instance demo_series_store : SeriesStore demo_layer (fun w => memory_view (w_store w)).
Proof. apply (orchestrator_series_store w_complete demo_orch memory_latest memory_coverage memory_view eq_refl demo_provider_in_range). Qed.

Lemma demo_parse_canonical s tf : demo_parse s = Some tf -> demo_parse (canonical tf) = Some tf.
Proof. unfold demo_parse. repeat case_bool_decide; intros; by simplify_eq. Qed.

Lemma demo_sources_ok now : sources_ok (fun w => memory_view (w_store w)) tf_1m 60 now demo_world.
Proof.
  assert (E : forall k, memory_view (w_store demo_world) k = ∅) by (intros k; unfold memory_view, demo_world; cbn [w_store]; by rewrite lookup_empty).
  intros e m s. rewrite E. split; [intros t [? H]|intros t t' u [? H]]; by rewrite lookup_empty in H.
Qed.

(** Two ticks with an outage of twenty minutes between them. *)
Definition demo_ticks : World :=
  (refresh_all_active demo_parse no_sum "fail" demo_layer demo_refresh_cfg
     (refresh_all_active demo_parse no_sum "fail" demo_layer demo_refresh_cfg demo_world [demo_strategy "5m"] 1000).1
     [demo_strategy "5m"] 2230).1.

Definition stored_times (w : World (S:=memory) (P:=unit) (C:=unit)) (tf : string) : list Z :=
  sort_by Z.leb (map_to_list (memory_view (w_store w) ("binance", "spot", "BTCUSDT", tf))).*1.

Example demo_ticks_times :
  stored_times demo_ticks "1m" = grid 540 2220 60 /\ stored_times demo_ticks "5m" = [600; 900; 1200; 1500; 1800].
Proof. vm_compute. split; reflexivity. Qed.

Lemma periodic_refresh_gapfree_witness :
  sources_ok (fun w => memory_view (w_store w)) tf_1m 60 2230 demo_ticks /\ stored_times demo_ticks "1m" = grid 540 2220 60.
Proof.
  split; [|vm_compute; reflexivity].
  apply (periodic_refresh_gapfree demo_parse no_sum "fail" demo_layer _ demo_refresh_cfg tf_1m 60 demo_parse_canonical
           eq_refl eq_refl eq_refl ltac:(done) 0 demo_world 2230 demo_ticks ltac:(done)).
  - apply demo_sources_ok.
  - apply run_tick with (now := 1000); [|lia]. apply run_tick with (now := 0); [apply run_start|lia].
Defined.

Lemma demo_provider_full (w : World (S:=memory) (P:=unit) (C:=unit)) q :
  bq_source q = "provider" -> gap_policy q = "allow_with_metadata" -> 0 <= start_ms q < end_ms q ->
  start_ms q mod Z.pos 60 = 0 -> duration_ms (bq_timeframe q) = Some 60%positive ->
  exists w' s, dl_load demo_layer w q = (w', Ok s) /\ times (bars s) = grid (start_ms q) (end_ms q) 60.
Proof.
  intros Hq Hg Hr Hs Hd. assert (Ht : times (demo_bars q) = grid (start_ms q) (end_ms q) 60).
  { unfold demo_bars. rewrite Hd, forallb_filter_id.
    2:{ apply forallb_forall. intros t [Ht Hm]%list_elem_of_In%grid_spec. apply andb_true_iff. split; [lia|].
        apply Z.eqb_eq. replace t with (t - start_ms q + start_ms q) by lia. rewrite Z.add_mod, Hm, Hs by lia. done. }
    unfold times. rewrite <-list_fmap_compose. apply list_fmap_id. }
  assert (Hok : is_ok (validate (mkSeries q (demo_bars q) (coverage_for q (demo_bars q) "provider")) (Some (negb (is_fail q)))) = true).
  { apply validate_spec. cbn [bars series_query]. rewrite Ht. split_and!; [apply grid_sorted| |].
    - unfold demo_bars. rewrite Hd. apply Forall_fmap. by apply Forall_forall.
    - right. split; [|apply (missing_none _ _ 60); [done|]; intros t; by rewrite Ht].
      intros E. rewrite E in Ht. assert (Hin : start_ms q ∈ grid (start_ms q) (end_ms q) 60) by (by apply grid_nonempty, Hr).
      rewrite <-Ht in Hin. by apply not_elem_of_nil in Hin. }
  cbn [dl_load orchestrator_layer]. unfold load_bars, load_cache, load_provider. rewrite Hq. simpl.
  destruct (validate _ _) as [c|e]; [|done]. simpl. unfold require_if_fail, is_fail. rewrite Hg. simpl. eauto.
Qed.

Lemma demo_store_accepts (w : World (S:=memory) (P:=unit) (C:=unit)) s :
  is_ok (validate s None) = true -> exists w', dl_store demo_layer w s = (w', Ok tt).
Proof.
  intros H. cbn [dl_store orchestrator_layer]. unfold store_bars, validated_write. destruct (validate s None) as [c|e]; [|done].
  simpl. eauto.
Qed.

Lemma refresh_catches_up_witness :
  is_Some (memory_view (w_store (refresh_all_active demo_parse no_sum "fail" demo_layer demo_refresh_cfg demo_world
                                   [demo_strategy "5m"] 1000).1) ("binance", "spot", "BTCUSDT", "1m") !! 900).
Proof.
  pose proof (refresh_catches_up demo_parse no_sum "fail" demo_layer (fun w => memory_view (w_store w)) demo_refresh_cfg tf_1m 60
           demo_parse_canonical eq_refl eq_refl eq_refl (fun _ _ => eq_refl) demo_provider_full demo_store_accepts demo_world
           [demo_strategy "5m"] 0 1000 (demo_strategy "5m") ltac:(discriminate) ltac:(discriminate) ltac:(discriminate)
           (demo_sources_ok 0) ltac:(apply list_elem_of_here) eq_refl) as H.
  match type of H with context [refresh_plan ?f ?c ?l ?n] =>
    assert (E : refresh_plan f c l n = Ok (tf_1m, 60%positive, ["5m"], 960, 540)) by (vm_compute; reflexivity); rewrite E in H end.
  exact (H ltac:(discriminate)).
Defined.

Lemma memory_bars_sorted (st : memory) q : StronglySorted Z.lt (times (memory_bars st q)).
Proof.
  unfold memory_bars. set (m := memory_view st (series_key q)).
  assert (H : StronglySorted Z.lt (times (sort_bars (map_to_list m).*2))).
  { apply sort_bars_sorted. replace (times (map_to_list m).*2) with (map_to_list m).*1; [apply NoDup_fst_map_to_list|].
    unfold times. rewrite <-list_fmap_compose. apply list_fmap_ext. intros i [t b] Hi. simpl. symmetry.
    apply (memory_keyed st (series_key q)), elem_of_map_to_list. by eapply list_elem_of_lookup_2. }
  revert H. generalize (sort_bars (map_to_list m).*2). intros l. induction l as [|b l IH]; intros H; [constructor|].
  simpl in H. inversion H as [|? ? Hs Hf]; subst. simpl. destruct (in_range_b q (bar_time b)); [|by apply IH].
  simpl. constructor; [by apply IH|]. apply Forall_forall. intros t (x & -> & Hx)%list_elem_of_fmap.
  apply list_elem_of_In, filter_In in Hx as [Hx%list_elem_of_In _]. rewrite Forall_forall in Hf. apply Hf. by apply list_elem_of_fmap_2.
Qed.

Lemma memory_readable (w : World (S:=memory) (P:=unit) (C:=unit)) :
  map_Forall (fun _ l => Forall (fun b => bar_closed b = true) l) (w_store w) -> readable demo_layer w.
Proof.
  intros Hcl q Hq Hg. cbn [dl_load orchestrator_layer]. unfold load_bars, load_storage, is_fail. rewrite Hq, Hg. simpl.
  enough (H : is_ok (validate (mkSeries q (memory_bars (w_store w) q) (coverage_for q (memory_bars (w_store w) q) "storage"))
                       (Some true)) = true) by (by destruct (validate _ _)).
  apply validate_spec. split_and!; [apply memory_bars_sorted| |by left]. apply Forall_forall. intros b [Hb _]%memory_bars_elem.
  unfold memory_view in Hb. rewrite written_lookup, lookup_empty in Hb. destruct (last_at _ _) as [x|] eqn:El; [|done].
  injection Hb as ->. apply last_at_Some in El as [Hx _]. destruct (w_store w !! series_key q) as [l|] eqn:E.
  - apply Hcl in E. rewrite Forall_forall in E. by apply E.
  - by apply not_elem_of_nil in Hx.
Qed.

Definition demo_query (a b : Z) : BarQuery := mkQuery "binance" "spot" "BTCUSDT" tf_1m a b "provider" "fail".

(** Ten minutes stored, the last five of them just now. *)
Definition demo_stored : World (S:=memory) (P:=unit) (C:=unit) :=
  mkWorld {[series_key (demo_query 600 1200) := demo_bars (demo_query 600 1200)]} tt tt.

Lemma demo_stored_gapfree :
  gapfree 60 1200 (memory_view (w_store demo_stored) ("binance", "spot", "BTCUSDT", "1m")).
Proof.
  change (memory_view (w_store demo_stored) _) with (written (demo_bars (demo_query 600 1200)) ∅).
  apply (gapfree_append 60 1200 ∅ _ 600 1200); try done.
  - split; [intros t [? H]|intros t t' u [? H]]; by rewrite lookup_empty in H.
  - intros u [? H]. by rewrite lookup_empty in H.
  - intros [u [? H]]. by rewrite lookup_empty in H.
  - assert (H : Forall (fun t => 600 <= t < 1200 /\ t mod 60 = 0 /\ 0 <= t) (times (demo_bars (demo_query 600 1200))))
      by (vm_compute; repeat constructor; discriminate). rewrite Forall_forall in H. exact H.
Qed.

Lemma target_bars_stored_witness :
  let k := mkMarketKey "binance" "spot" "BTCUSDT" "trade" in
  let '(w', r) := store_target demo_parse no_sum "fail" demo_layer demo_stored k tf_1m 60 (demo_bars (demo_query 900 1200)) tf_5m in
  r = Ok tt /\ exists a, memory_view (w_store w') ("binance", "spot", "BTCUSDT", "5m") !! 900 = Some a.
Proof.
  intros k. pose proof (target_bars_stored demo_parse no_sum "fail" demo_layer (fun w => memory_view (w_store w)) tf_1m 60 300 tf_5m
    eq_refl eq_refl eq_refl eq_refl demo_store_accepts demo_stored k (demo_bars (demo_query 900 1200)) 1200 900 1200) as H.
  cbv zeta in H. destruct (store_target _ _ _ _ _ _ _ _ _ _) as [w' r]. destruct H as [Hr H].
  - apply memory_readable. apply map_Forall_singleton. vm_compute. repeat constructor.
  - apply demo_stored_gapfree.
  - vm_compute. reflexivity.
  - reflexivity.
  - apply (Forall_forall (fun b => _ !! bar_time b = Some b)). vm_compute. repeat constructor.
  - split; [exact Hr|]. destruct (H 1200) as (a & _ & Ha); [reflexivity|vm_compute; repeat first [apply list_elem_of_here|apply list_elem_of_further]| |by exists a].
    apply (Forall_forall (fun t => is_Some (_ !! t))). vm_compute. repeat constructor; eauto.
Defined.

(** ** Limits *)

(** A market whose strategies all use timeframes without a fixed length (such
    as months) is not refreshed: [max(1)] is applied to a bare integer. *)
Theorem variable_timeframes_not_refreshed {O} parse_timeframe py_sum gaps (data : DataLayer O) cfg o k strategies now tf d :
  parse_timeframe (rc_source_timeframe cfg) = Some tf -> duration_ms tf = Some d ->
  (forall text t, parse_timeframe text = Some t -> parse_timeframe (canonical t) = Some t) ->
  Forall (fun s => exists t, parse_timeframe (si_timeframe s) = Some t /\ duration_ms t = None) strategies ->
  refresh_market_key parse_timeframe py_sum gaps data cfg o k strategies now = (o, Err MaxOfOneInt).
Proof.
  intros Htf Hd Hcan Hall. unfold refresh_market_key, refresh_plan, parse. rewrite Htf. simpl. rewrite Hd.
  assert (Hmap : exists ts, result_map (fun s => match parse_timeframe (si_timeframe s) with Some t => Ok t | None => Err BadTimeframeText end)
            strategies = Ok ts /\ Forall (fun t => parse_timeframe (canonical t) = Some t /\ duration_ms t = None) ts).
  { induction Hall as [|s l (t & Ht & Hdt) Hl (ts & IH & Hts)]; [by exists []|]. exists (t :: ts). simpl. rewrite Ht. simpl.
    rewrite IH. split; [done|]. constructor; [split; [by eapply Hcan|done]|done]. }
  destruct Hmap as (ts & Hts & Hf). unfold target_timeframes, parse. rewrite Hts. simpl.
  set (cs := sort_by _ _). assert (Hcs : Forall (fun c => exists t, parse_timeframe c = Some t /\ duration_ms t = None) cs).
  { apply Forall_forall. intros c Hc. unfold cs in Hc. rewrite elem_of_sort_by, elem_of_elements, elem_of_list_to_set in Hc.
    apply list_elem_of_fmap in Hc as (t & -> & Ht). rewrite Forall_forall in Hf. destruct (Hf t Ht). eauto. }
  assert (Hom : exists tfs, result_map (parse parse_timeframe) cs = Ok tfs /\ omap duration_ms tfs = []).
  { clearbody cs. induction Hcs as [|c l (t & Ht & Hdt) Hl (tfs & IH & Ho)]; [by exists []|]. exists (t :: tfs). simpl.
    unfold parse at 1. rewrite Ht. simpl. rewrite IH. split; [done|]. cbn [omap list_omap]. by rewrite Hdt. }
  destruct Hom as (tfs & E & Ho). unfold max_ratio. rewrite E. simpl. by rewrite Ho.
Qed.

(** The price type separates market keys, but neither the request nor the
    stored series carries it. *)
Theorem price_type_ignored {O} parse_timeframe py_sum gaps (data : DataLayer O) cfg o e m s p p' strategies now :
  refresh_market_key parse_timeframe py_sum gaps data cfg o (mkMarketKey e m s p) strategies now =
  refresh_market_key parse_timeframe py_sum gaps data cfg o (mkMarketKey e m s p') strategies now.
Proof.
  assert (Ht : forall o tf d bs targets,
    store_target_aggregates parse_timeframe py_sum gaps data o (mkMarketKey e m s p) tf d bs targets =
    store_target_aggregates parse_timeframe py_sum gaps data o (mkMarketKey e m s p') tf d bs targets).
  { intros o0 tf d bs targets. revert o0. induction targets as [|t ts IH]; intros o0; simpl; [done|].
    destruct (parse parse_timeframe t) as [target|]; [|done].
    change (store_target parse_timeframe py_sum gaps data o0 (mkMarketKey e m s p')) with
      (store_target parse_timeframe py_sum gaps data o0 (mkMarketKey e m s p)).
    destruct (store_target _ _ _ _ _ _ _ _ _ _) as [o1 [u|err]]; [apply IH|done]. }
  assert (Hr : forall o tf d targets a b,
    refresh_range parse_timeframe py_sum gaps data o (mkMarketKey e m s p) tf d targets a b =
    refresh_range parse_timeframe py_sum gaps data o (mkMarketKey e m s p') tf d targets a b).
  { intros o0 tf d targets a b. unfold refresh_range. change (load_source_bars data o0 (mkMarketKey e m s p')) with
      (load_source_bars data o0 (mkMarketKey e m s p)). destruct (load_source_bars _ _ _ _ _ _) as [o1 [|b0 bs]]; [done|].
    change (key_query (mkMarketKey e m s p')) with (key_query (mkMarketKey e m s p)).
    destruct (if dl_persists data then _ else _) as [o2 [u|err]]; [apply Ht|done]. }
  unfold refresh_market_key. destruct (refresh_plan _ _ _ _) as [[[[[tf d] targets] end_] recent]|err]; [|done].
  change (latest_stored_bar_time data o (mkMarketKey e m s p')) with (latest_stored_bar_time data o (mkMarketKey e m s p)).
  destruct (latest_stored_bar_time _ _ _ _ _); [|apply Hr]. destruct (_ <=? _); [done|apply Hr].
Qed.

(** A store without [latest_bar_time] reports the close of its last bar, which
    the fetcher takes for an open: the next slot is never fetched. *)
Example fallback_skips_a_slot :
  let layer := orchestrator_layer w_complete demo_orch None memory_coverage in
  stored_times (refresh_all_active demo_parse no_sum "fail" layer demo_refresh_cfg demo_stored [demo_strategy "1m"] 1500).1 "1m" =
  grid 600 1200 60 ++ grid 1260 1500 60.
Proof. vm_compute. reflexivity. Qed.

(** When the newest stored bar cannot be read, only the recent window is
    fetched, and what closed before it is left out for good. *)
Example read_error_leaves_gap :
  let layer fails := orchestrator_layer w_complete demo_orch
     (Some (fun st q => if fails : bool then Err "locked" else memory_latest st q)) memory_coverage in
  let tick fails w now := (refresh_all_active demo_parse no_sum "fail" (layer fails) demo_refresh_cfg w [demo_strategy "1m"] now).1 in
  stored_times (tick false (tick true demo_stored 3000) 3060) "1m" = grid 600 1200 60 ++ grid 2820 3060 60.
Proof. vm_compute. reflexivity. Qed.
