(* ===== verification/Json.v ===== *)
(** JSON text as the standard [json] module writes and reads it, with its
    default separators or the compact ones.

    A string is a sequence of characters below 256 here, as everywhere in the
    development: an escape for a larger character is reported as [Outside].
    Numbers are kept as the text of their literal.  The reader recurses on the
    text; [loads_total] shows that its fuel is always enough. *)

From Stdlib Require Import Ascii.
From S2P Require Import Prelude.

Inductive json :=
| JNull
| JBool (b : bool)
| JNum (literal : string)
| JStr (s : string)
| JArr (items : list json)
| JObj (fields : list (string * json)).

(** ** Writing *)

Abbreviation quote := ("034"%char).
Abbreviation backslash := ("092"%char).

Definition hex_digit (n : nat) : ascii :=
  ascii_of_nat (if (n <? 10)%nat then 48 + n else 87 + n).

(** [ESCAPE_ASCII]: everything but the printable characters, the quote and the
    backslash. *)
Definition escape (c : ascii) : string :=
  if Ascii.eqb c quote then String backslash (String quote EmptyString)
  else if Ascii.eqb c backslash then String backslash (String backslash EmptyString)
  else
    let n := nat_of_ascii c in
    if (n =? 8)%nat then String backslash "b" else if (n =? 12)%nat then String backslash "f"
    else if (n =? 10)%nat then String backslash "n" else if (n =? 13)%nat then String backslash "r"
    else if (n =? 9)%nat then String backslash "t"
    else if (32 <=? n)%nat && (n <=? 126)%nat then String c EmptyString
    else String backslash (String "u" (String "0" (String "0"
           (String (hex_digit (n / 16)) (String (hex_digit (n mod 16)) EmptyString))))).

Fixpoint escape_all (s : string) : string :=
  match s with EmptyString => EmptyString | String c s' => escape c +:+ escape_all s' end.

Definition dump_string (s : string) : string := String quote (escape_all s +:+ String quote EmptyString).

Fixpoint join_with (sep : string) (l : list string) : string :=
  match l with [] => "" | [x] => x | x :: l' => x +:+ sep +:+ join_with sep l' end.

(** [json.dumps]: [sp] is what follows a comma or a colon. *)
Fixpoint dumps_sep (sp : string) (v : json) : string :=
  match v with
  | JNull => "null"
  | JBool true => "true"
  | JBool false => "false"
  | JNum t => t
  | JStr s => dump_string s
  | JArr l => "[" +:+ join_with ("," +:+ sp) (map (dumps_sep sp) l) +:+ "]"
  | JObj l => "{" +:+ join_with ("," +:+ sp) (map (fun kv => dump_string kv.1 +:+ ":" +:+ sp +:+ dumps_sep sp kv.2) l) +:+ "}"
  end.

(** [json.dumps(v)] and [json.dumps(v, separators=(",", ":"))]. *)
Definition dumps : json -> string := dumps_sep " ".
Definition dumps_compact : json -> string := dumps_sep "".

(** The same with an indentation: at depth [d], what follows an opening bracket
    and a comma, what follows a colon, and what precedes a closing bracket. *)
Record Layout := mkLayout { after_open : nat -> string; after_comma : nat -> string; after_colon : string; before_close : nat -> string }.

Fixpoint dumps_at (y : Layout) (d : nat) (v : json) : string :=
  match v with
  | JNull => "null"
  | JBool true => "true"
  | JBool false => "false"
  | JNum t => t
  | JStr s => dump_string s
  | JArr [] => "[]"
  | JArr l => "[" +:+ after_open y d +:+ join_with ("," +:+ after_comma y d) (map (dumps_at y (S d)) l) +:+ before_close y d +:+ "]"
  | JObj [] => "{}"
  | JObj l => "{" +:+ after_open y d +:+
      join_with ("," +:+ after_comma y d) (map (fun kv => dump_string kv.1 +:+ ":" +:+ after_colon y +:+ dumps_at y (S d) kv.2) l) +:+
      before_close y d +:+ "}"
  end.

Definition line_break (n : nat) : string := String "010" (String.concat "" (replicate n " ")).
Definition indented (n : nat) : Layout :=
  mkLayout (fun d => line_break (n * S d)) (fun d => line_break (n * S d)) " " (fun d => line_break (n * d)).
Definition flat (sp : string) : Layout := mkLayout (fun _ => "") (fun _ => sp) sp (fun _ => "").

(** [json.dumps(v, indent=n)]. *)
Definition dumps_indent (n : nat) : json -> string := dumps_at (indented n) 0.

(** ** Reading *)

Inductive json_error := JSONDecodeError | Outside | OutOfFuel.

Definition is_ws (c : ascii) : bool :=
  let n := nat_of_ascii c in (n =? 32)%nat || (n =? 9)%nat || (n =? 10)%nat || (n =? 13)%nat.

Fixpoint skip_ws (s : string) : string :=
  match s with String c s' => if is_ws c then skip_ws s' else s | EmptyString => s end.

Definition hex_value (c : ascii) : option nat :=
  let n := nat_of_ascii c in
  if (48 <=? n)%nat && (n <=? 57)%nat then Some (n - 48)%nat
  else if (97 <=? n)%nat && (n <=? 102)%nat then Some (n - 87)%nat
  else if (65 <=? n)%nat && (n <=? 70)%nat then Some (n - 55)%nat
  else None.

Definition unescape (c : ascii) : option ascii :=
  if Ascii.eqb c quote || Ascii.eqb c backslash || Ascii.eqb c "/" then Some c
  else if Ascii.eqb c "b" then Some "008"%char else if Ascii.eqb c "f" then Some "012"%char
  else if Ascii.eqb c "n" then Some "010"%char else if Ascii.eqb c "r" then Some "013"%char
  else if Ascii.eqb c "t" then Some "009"%char else None.

Definition cons_char (c : ascii) (r : result json_error (string * string)) : result json_error (string * string) :=
  let! '(t, rest) := r in Ok (String c t, rest).

(** [scanstring], after the opening quote, in strict mode. *)
Fixpoint scan_string (s : string) : result json_error (string * string) :=
  match s with
  | EmptyString => Err JSONDecodeError
  | String c s1 =>
      if Ascii.eqb c quote then Ok (EmptyString, s1)
      else if Ascii.eqb c backslash then
        match s1 with
        | EmptyString => Err JSONDecodeError
        | String e s2 =>
            if Ascii.eqb e "u" then
              match s2 with
              | String a (String b (String x (String y s3))) =>
                  match hex_value a, hex_value b, hex_value x, hex_value y with
                  | Some a, Some b, Some x, Some y =>
                      if (a =? 0)%nat && (b =? 0)%nat then cons_char (ascii_of_nat (16 * x + y)) (scan_string s3)
                      else Err Outside
                  | _, _, _, _ => Err JSONDecodeError
                  end
              | _ => Err JSONDecodeError
              end
            else match unescape e with
                 | Some c' => cons_char c' (scan_string s2)
                 | None => Err JSONDecodeError
                 end
        end
      else if (nat_of_ascii c <? 32)%nat then Err JSONDecodeError
      else cons_char c (scan_string s1)
  end.

(** [strip_prefix p s]: what follows [p], if [s] starts with it. *)
Fixpoint strip_prefix (p s : string) : option string :=
  match p, s with
  | EmptyString, _ => Some s
  | String a p', String b s' => if Ascii.eqb a b then strip_prefix p' s' else None
  | _, _ => None
  end.

(** The longest prefix of digits, and the rest. *)
Fixpoint span_digits (s : string) : string * string :=
  match s with
  | String c s' => if ascii_digit c then let '(d, r) := span_digits s' in (String c d, r) else (EmptyString, s)
  | EmptyString => (EmptyString, EmptyString)
  end.

(** [NUMBER_RE]: sign, integer part, then the optional fraction and exponent,
    each taken only when it has a digit. *)
Definition fraction (s : string) : string * string :=
  match strip_prefix "." s with
  | Some s' => let '(d, r) := span_digits s' in if str_truthy d then ("." +:+ d, r) else ("", s)
  | None => ("", s)
  end.

Definition exponent (s : string) : string * string :=
  match s with
  | String c s1 =>
      if Ascii.eqb c "e" || Ascii.eqb c "E" then
        let '(sign, s2) := match s1 with
                           | String g s2 => if Ascii.eqb g "+" || Ascii.eqb g "-" then (String g EmptyString, s2) else (EmptyString, s1)
                           | EmptyString => (EmptyString, s1)
                           end in
        let '(d, r) := span_digits s2 in if str_truthy d then (String c (sign +:+ d), r) else ("", s)
      else ("", s)
  | EmptyString => ("", s)
  end.

Definition integer_part (s : string) : option (string * string) :=
  match s with
  | String c s' =>
      if Ascii.eqb c "0" then Some ("0", s')
      else if ascii_digit c then Some (span_digits s)
      else None
  | EmptyString => None
  end.

Definition scan_number (s : string) : option (string * string) :=
  let '(sign, s1) := match strip_prefix "-" s with Some s1 => ("-", s1) | None => ("", s) end in
  match integer_part s1 with
  | None => None
  | Some (i, s2) => let '(f, s3) := fraction s2 in let '(e, s4) := exponent s3 in Some (sign +:+ i +:+ f +:+ e, s4)
  end.

Definition literals : list (string * json) :=
  [("null", JNull); ("true", JBool true); ("false", JBool false); ("NaN", JNum "NaN"); ("Infinity", JNum "Infinity");
   ("-Infinity", JNum "-Infinity")].

Fixpoint scan_literal (l : list (string * json)) (s : string) : option (json * string) :=
  match l with
  | [] => None
  | (t, v) :: l' => match strip_prefix t s with Some r => Some (v, r) | None => scan_literal l' s end
  end.

(** [scan_once], [JSONArray] and [JSONObject] (after the bracket and the space
    that may follow it). *)
Fixpoint scan_once (fuel : nat) (s : string) : result json_error (json * string) :=
  match fuel with
  | O => Err OutOfFuel
  | S fuel' =>
      match s with
      | EmptyString => Err JSONDecodeError
      | String c s1 =>
          if Ascii.eqb c quote then let! '(t, r) := scan_string s1 in Ok (JStr t, r)
          else if Ascii.eqb c "{" then
            let! '(l, r) := scan_object fuel' true (skip_ws s1) in Ok (JObj l, r)
          else if Ascii.eqb c "[" then
            match strip_prefix "]" (skip_ws s1) with
            | Some r => Ok (JArr [], r)
            | None => let! '(l, r) := scan_array fuel' (skip_ws s1) in Ok (JArr l, r)
            end
          else match scan_literal literals s with
               | Some (v, r) => Ok (v, r)
               | None => match scan_number s with
                         | Some (t, r) => Ok (JNum t, r)
                         | None => Err JSONDecodeError
                         end
               end
      end
  end
with scan_array (fuel : nat) (s : string) : result json_error (list json * string) :=
  match fuel with
  | O => Err OutOfFuel
  | S fuel' =>
      let! '(v, r) := scan_once fuel' s in
      match skip_ws r with
      | String c r' =>
          if Ascii.eqb c "]" then Ok ([v], r')
          else if Ascii.eqb c "," then let! '(l, r'') := scan_array fuel' (skip_ws r') in Ok (v :: l, r'')
          else Err JSONDecodeError
      | EmptyString => Err JSONDecodeError
      end
  end
with scan_object (fuel : nat) (first : bool) (s : string) : result json_error (list (string * json) * string) :=
  match fuel with
  | O => Err OutOfFuel
  | S fuel' =>
      match s with
      | EmptyString => Err JSONDecodeError
      | String c s1 =>
          if Ascii.eqb c "}" && first then Ok ([], s1)
          else if negb (Ascii.eqb c quote) then Err JSONDecodeError
          else
            let! '(k, r) := scan_string s1 in
            match strip_prefix ":" (skip_ws r) with
            | None => Err JSONDecodeError
            | Some r1 =>
                let! '(v, r2) := scan_once fuel' (skip_ws r1) in
                match skip_ws r2 with
                | String c' r3 =>
                    if Ascii.eqb c' "}" then Ok ([(k, v)], r3)
                    else if Ascii.eqb c' "," then
                      let! '(l, r4) := scan_object fuel' false (skip_ws r3) in Ok ((k, v) :: l, r4)
                    else Err JSONDecodeError
                | EmptyString => Err JSONDecodeError
                end
            end
      end
  end.

(** [json.loads].  The pairs of an object are kept as read; [jget] below reads
    them as the dictionary they become. *)
Definition loads (s : string) : result json_error json :=
  let! '(v, r) := scan_once (S (2 * String.length s)) (skip_ws s) in
  match skip_ws r with EmptyString => Ok v | _ => Err JSONDecodeError end.

(** [d.get(key)] on the dictionary of the pairs: the last one counts. *)
Definition jget (l : list (string * json)) (k : string) : option json :=
  last (List.filter (fun kv => bool_decide (kv.1 = k)) l) ≫= fun kv => Some kv.2.

(** ** The fuel is enough *)

Abbreviation slen := String.length.

Lemma skip_ws_len s : (slen (skip_ws s) <= slen s)%nat.
Proof. induction s as [|c s IH]; simpl; [done|]. destruct (is_ws c); simpl; lia. Qed.

Lemma cons_char_ok c r t rest : cons_char c r = Ok (t, rest) -> exists t', r = Ok (t', rest) /\ t = String c t'.
Proof. unfold cons_char. destruct r as [[t' r']|e]; simpl; [|done]. intros [= <- <-]. eauto. Qed.

Lemma cons_char_fuel c r : r <> Err OutOfFuel -> cons_char c r <> Err OutOfFuel.
Proof. unfold cons_char. by destruct r as [[t' r']|[]]. Qed.

Lemma scan_string_len n s : (slen s <= n)%nat ->
  scan_string s <> Err OutOfFuel /\ forall t r, scan_string s = Ok (t, r) -> (slen r < slen s)%nat.
Proof.
  revert s. induction n as [|n IH]; intros [|c s1] Hn; simpl in Hn; [done|lia|done|].
  assert (Hs1 : (slen s1 <= n)%nat) by lia. simpl.
  destruct (Ascii.eqb c quote); [split; [done|]; intros t r [= <- <-]; lia|].
  assert (Hc : forall ch s', (slen s' <= slen s1)%nat -> cons_char ch (scan_string s') <> Err OutOfFuel /\
     forall t r, cons_char ch (scan_string s') = Ok (t, r) -> (slen r < S (slen s1))%nat).
  { intros ch s' Hs'. destruct (IH s' ltac:(lia)) as [H1 H2]. split; [by apply cons_char_fuel|].
    intros t r (t' & E & _)%cons_char_ok. apply H2 in E. lia. }
  destruct (Ascii.eqb c backslash).
  2:{ destruct (_ <? 32)%nat; [done|]. by apply Hc. }
  destruct s1 as [|e s2]; [done|]. destruct (Ascii.eqb e "u").
  2:{ destruct (unescape e); [|done]. apply Hc. simpl. lia. }
  destruct s2 as [|a [|b [|x [|y s3]]]]; try done.
  destruct (hex_value a), (hex_value b), (hex_value x), (hex_value y); try done. destruct (_ && _); [|done].
  apply Hc. simpl. lia.
Qed.

Lemma strip_prefix_len p s r : strip_prefix p s = Some r -> slen s = (slen p + slen r)%nat.
Proof.
  revert s. induction p as [|a p IH]; intros [|b s]; simpl; [by intros [= <-]|by intros [= <-]|done|].
  destruct (Ascii.eqb a b); [|done]. intros H%IH. lia.
Qed.

Lemma span_digits_len s : slen s = (slen (span_digits s).1 + slen (span_digits s).2)%nat.
Proof. induction s as [|c s IH]; simpl; [done|]. destruct (ascii_digit c); [|done]. destruct (span_digits s). simpl in *. lia. Qed.

Lemma fraction_len s : (slen (fraction s).2 <= slen s)%nat.
Proof.
  unfold fraction. destruct (strip_prefix "." s) as [s'|] eqn:E; [|done]. apply strip_prefix_len in E.
  pose proof (span_digits_len s'). destruct (span_digits s'). simpl in *. destruct (str_truthy _); simpl; lia.
Qed.

Lemma exponent_len s : (slen (exponent s).2 <= slen s)%nat.
Proof.
  unfold exponent. destruct s as [|c s1]; [done|]. destruct (_ || _); [|done].
  set (p := match s1 with EmptyString => _ | _ => _ end).
  assert (Hp : (slen p.2 <= slen s1)%nat).
  { unfold p. destruct s1 as [|g s2]; [done|]. destruct (_ || _); simpl; lia. }
  destruct p as [sign s2]. simpl in Hp. pose proof (span_digits_len s2). destruct (span_digits s2).
  destruct (str_truthy _); simpl in *; lia.
Qed.

Lemma scan_number_len s t r : scan_number s = Some (t, r) -> (slen r < slen s)%nat.
Proof.
  unfold scan_number. set (p := match strip_prefix "-" s with Some _ => _ | None => _ end).
  assert (Hp : (slen p.2 <= slen s)%nat).
  { unfold p. destruct (strip_prefix "-" s) eqn:E; [|done]. apply strip_prefix_len in E. simpl in *. lia. }
  destruct p as [sign s1]. simpl in Hp. destruct (integer_part s1) as [[i s2]|] eqn:Ei; [|done].
  assert (Hi : (slen s2 < slen s1)%nat).
  { unfold integer_part in Ei. destruct s1 as [|c s']; [done|]. destruct (Ascii.eqb c "0"); [by simplify_eq/=; lia|].
    destruct (ascii_digit c) eqn:Ed; [|done]. simpl in Ei. rewrite Ed in Ei. pose proof (span_digits_len s') as H.
    destruct (span_digits s'). simplify_eq/=. lia. }
  pose proof (fraction_len s2). destruct (fraction s2) as [f s3]. pose proof (exponent_len s3). destruct (exponent s3) as [e s4].
  intros [= <- <-]. simpl in *. lia.
Qed.

Lemma scan_literal_len l s v r :
  Forall (fun kv => kv.1 <> "") l -> scan_literal l s = Some (v, r) -> (slen r < slen s)%nat.
Proof.
  induction 1 as [|[t w] l Ht Hl IH]; [done|]. cbn [scan_literal]. destruct (strip_prefix t s) eqn:E; [|done].
  intros [= _ <-]. apply strip_prefix_len in E. simpl in Ht. destruct t; [done|]. simpl in E. lia.
Qed.

Definition scan_ok {A} (s : string) (r : result json_error (A * string)) : Prop :=
  r <> Err OutOfFuel /\ forall v rest, r = Ok (v, rest) -> (slen rest < slen s)%nat.

Lemma scan_total fuel :
  (forall s, (2 * slen s < fuel)%nat -> scan_ok s (scan_once fuel s)) /\
  (forall s, (2 * slen s + 1 < fuel)%nat -> scan_ok s (scan_array fuel s)) /\
  (forall s b, (2 * slen s + 1 < fuel)%nat -> scan_ok s (scan_object fuel b s)).
Proof.
  induction fuel as [|fuel (IHo & IHa & IHb)]; [split_and!; intros; lia|]. split_and!.
  - intros [|c s1] Hs; simpl in Hs; [by split|]. cbn [scan_once]. pose proof (skip_ws_len s1) as Hw.
    destruct (Ascii.eqb c quote).
    { destruct (scan_string_len (slen s1) s1 ltac:(lia)) as [H1 H2]. destruct (scan_string s1) as [[t r]|e]; simpl; [|split; congruence].
      split; [done|]. intros v rest [= <- <-]. specialize (H2 _ _ eq_refl). simpl. lia. }
    destruct (Ascii.eqb c "{").
    { destruct (IHb (skip_ws s1) true ltac:(lia)) as [H1 H2]. destruct (scan_object _ _ _) as [[t r]|e]; simpl; [|split; congruence].
      split; [done|]. intros v rest [= <- <-]. specialize (H2 _ _ eq_refl). simpl. lia. }
    destruct (Ascii.eqb c "[").
    { destruct (strip_prefix "]" (skip_ws s1)) as [r|] eqn:E.
      - apply strip_prefix_len in E. split; [done|]. intros v rest [= <- <-]. simpl in *. lia.
      - destruct (IHa (skip_ws s1) ltac:(lia)) as [H1 H2]. destruct (scan_array _ _) as [[t r]|e]; simpl; [|split; congruence].
        split; [done|]. intros v rest [= <- <-]. specialize (H2 _ _ eq_refl). simpl. lia. }
    destruct (scan_literal _ _) as [[v r]|] eqn:El.
    { split; [done|]. intros v' rest [= <- <-]. eapply scan_literal_len; [|exact El]. repeat constructor; done. }
    destruct (scan_number _) as [[t r]|] eqn:En; [|by split]. split; [done|]. intros v' rest [= <- <-]. by eapply scan_number_len.
  - intros s Hs. cbn [scan_array]. destruct (IHo s ltac:(lia)) as [H1 H2].
    destruct (scan_once fuel s) as [[v r]|e]; simpl; [|split; congruence]. specialize (H2 _ _ eq_refl).
    pose proof (skip_ws_len r) as Hw. destruct (skip_ws r) as [|c r']; [by split|]. simpl in Hw.
    destruct (Ascii.eqb c "]"); [split; [done|]; intros ? ? [= <- <-]; lia|]. destruct (Ascii.eqb c ","); [|by split].
    pose proof (skip_ws_len r'). destruct (IHa (skip_ws r') ltac:(lia)) as [H3 H4].
    destruct (scan_array fuel _) as [[l r'']|e]; simpl; [|split; congruence]. split; [done|]. intros ? ? [= <- <-].
    specialize (H4 _ _ eq_refl). lia.
  - intros [|c s1] b Hs; cbn [scan_object]; [by split|]. simpl in Hs.
    destruct (_ && _); [split; [done|]; intros ? ? [= <- <-]; simpl; lia|]. destruct (negb _); [by split|].
    destruct (scan_string_len (slen s1) s1 ltac:(lia)) as [H1 H2]. destruct (scan_string s1) as [[k r]|e]; cbn [result_bind]; [|split; congruence].
    specialize (H2 _ _ eq_refl). pose proof (skip_ws_len r). destruct (strip_prefix ":" (skip_ws r)) as [r1|] eqn:E; [|by split].
    apply strip_prefix_len in E. simpl in E. pose proof (skip_ws_len r1). destruct (IHo (skip_ws r1) ltac:(lia)) as [H3 H4].
    destruct (scan_once fuel _) as [[v r2]|e]; simpl; [|split; congruence]. specialize (H4 _ _ eq_refl).
    pose proof (skip_ws_len r2) as Hw. destruct (skip_ws r2) as [|c' r3]; [by split|]. simpl in Hw.
    destruct (Ascii.eqb c' "}"); [split; [done|]; intros ? ? [= <- <-]; simpl; lia|]. destruct (Ascii.eqb c' ","); [|by split].
    pose proof (skip_ws_len r3). destruct (IHb (skip_ws r3) false ltac:(lia)) as [Hf Hl].
    destruct (scan_object fuel _ _) as [[l r4]|e]; simpl; [|split; congruence]. split; [done|]. intros ? ? [= <- <-].
    specialize (Hl _ _ eq_refl). simpl. lia.
Qed.

(** The reader always ends. *)
Lemma loads_total s : loads s <> Err OutOfFuel.
Proof.
  unfold loads. pose proof (skip_ws_len s). destruct (scan_total (S (2 * slen s))) as [H1 _].
  destruct (H1 (skip_ws s) ltac:(lia)) as [H2 _]. destruct (scan_once _ _) as [[v r]|e]; simpl; [|congruence].
  by destruct (skip_ws r).
Qed.

(** ** Reading back what was written *)

(** Induction with the hypotheses for the members of arrays and objects. *)
Section JsonInd.

Variable P : json -> Prop.
Hypothesis HNull : P JNull.
Hypothesis HBool : forall b, P (JBool b).
Hypothesis HNum : forall t, P (JNum t).
Hypothesis HStr : forall s, P (JStr s).
Hypothesis HArr : forall l, Forall P l -> P (JArr l).
Hypothesis HObj : forall l, Forall (fun kv => P kv.2) l -> P (JObj l).

Fixpoint json_nested_ind (v : json) : P v :=
  match v with
  | JNull => HNull
  | JBool b => HBool b
  | JNum t => HNum t
  | JStr s => HStr s
  | JArr l => HArr l ((fix go l : Forall P l :=
                         match l with [] => Forall_nil_2 _ | x :: l' => Forall_cons_2 _ _ _ (json_nested_ind x) (go l') end) l)
  | JObj l => HObj l ((fix go l : Forall (fun kv => P kv.2) l :=
                         match l with [] => Forall_nil_2 _ | x :: l' => Forall_cons_2 _ _ _ (json_nested_ind x.2) (go l') end) l)
  end.

End JsonInd.

(** A literal that is a number, as [NUMBER_RE] has it. *)
Definition num_ok (t : string) : bool := bool_decide (scan_number t = Some (t, EmptyString)).

(** Values whose numbers are number literals (not NaN or an infinity). *)
Fixpoint plain (v : json) : bool :=
  match v with
  | JNum t => num_ok t
  | JArr l => forallb plain l
  | JObj l => forallb (fun kv => plain kv.2) l
  | _ => true
  end.

Fixpoint size (v : json) : nat :=
  match v with
  | JArr l => S (list_sum (map (fun v => S (size v)) l))
  | JObj l => S (S (list_sum (map (fun kv => S (size kv.2)) l)))
  | _ => 1
  end.

Lemma sapp_assoc (a b c : string) : (a +:+ b) +:+ c = a +:+ (b +:+ c).
Proof. induction a as [|x a IH]; [done|]. exact (f_equal (String x) IH). Qed.

Lemma sapp_len (a b : string) : slen (a +:+ b) = (slen a + slen b)%nat.
Proof. induction a as [|x a IH]; [done|]. exact (f_equal S IH). Qed.

Lemma sapp_nil (a : string) : a +:+ "" = a.
Proof. induction a as [|x a IH]; [done|]. exact (f_equal (String x) IH). Qed.

Lemma sapp_cons c (a b : string) : String c a +:+ b = String c (a +:+ b).
Proof. done. Qed.

(** *** Numbers *)

(** What may follow a number: nothing that could belong to it. *)
Definition after_number (s : string) : bool :=
  match s with
  | EmptyString => true
  | String c _ => negb (ascii_digit c || Ascii.eqb c "." || Ascii.eqb c "e" || Ascii.eqb c "E" || Ascii.eqb c "+" || Ascii.eqb c "-")
  end.

Section Numbers.

Context (rest : string) (Hrest : after_number rest = true).

Lemma after_number_head : match rest with EmptyString => True | String c _ => ascii_digit c = false /\ Ascii.eqb c "." = false /\
  Ascii.eqb c "e" = false /\ Ascii.eqb c "E" = false /\ Ascii.eqb c "+" = false /\ Ascii.eqb c "-" = false end.
Proof. clear -Hrest. destruct rest as [|c r]; [done|]. simpl in Hrest. by apply negb_true_iff in Hrest; repeat apply orb_false_iff in Hrest as [Hrest ?]. Qed.

Lemma span_digits_app s : span_digits (s +:+ rest) = ((span_digits s).1, (span_digits s).2 +:+ rest).
Proof.
  induction s as [|c s IH].
  - pose proof after_number_head as H. change ("" +:+ rest) with rest. simpl. destruct rest as [|c r]; [done|]. simpl. destruct H as [-> _]. done.
  - rewrite sapp_cons. cbn [span_digits]. destruct (ascii_digit c); [|done]. rewrite IH. by destruct (span_digits s).
Qed.

Lemma fraction_app s : fraction (s +:+ rest) = ((fraction s).1, (fraction s).2 +:+ rest).
Proof.
  unfold fraction. destruct s as [|c s].
  - pose proof after_number_head as H. change ("" +:+ rest) with rest. destruct rest as [|c r]; [done|].
    destruct H as (_ & H & _). rewrite Ascii.eqb_sym in H. cbn [strip_prefix]. by rewrite H.
  - rewrite sapp_cons. cbn [strip_prefix]. destruct (Ascii.eqb "." c); [|done]. rewrite span_digits_app.
    destruct (span_digits s) as [d r]. simpl. by destruct (str_truthy d).
Qed.

Lemma exponent_app s : exponent (s +:+ rest) = ((exponent s).1, (exponent s).2 +:+ rest).
Proof.
  pose proof after_number_head as H. unfold exponent. destruct s as [|c s].
  { change ("" +:+ rest) with rest. simpl. destruct rest as [|c r]; [done|]. destruct H as (_ & _ & -> & -> & _). done. }
  rewrite sapp_cons. destruct (_ || _); [|done]. destruct s as [|g s].
  - change ("" +:+ rest) with rest. simpl.
    assert (E : (let '(sign, s2) := match rest with
                 | "" => ("", rest)
                 | String g s2 => if Ascii.eqb g "+" || Ascii.eqb g "-" then (String g "", s2) else ("", rest) end in
      let '(d, r) := span_digits s2 in if str_truthy d then (String c (sign +:+ d), r) else ("", String c rest)) = ("", String c rest)).
    { pose proof (span_digits_app "") as Hs. change ("" +:+ rest) with rest in Hs. simpl in Hs.
      destruct rest as [|g r]; [done|]. destruct H as (_ & _ & _ & _ & -> & ->). simpl. simpl in Hs. by rewrite Hs. }
    exact E.
  - rewrite sapp_cons. destruct (_ || _).
    + rewrite span_digits_app. destruct (span_digits s) as [d r]. simpl. by destruct (str_truthy d).
    + change (String g (s +:+ rest)) with (String g s +:+ rest). rewrite span_digits_app.
      destruct (span_digits (String g s)) as [d r]. simpl. by destruct (str_truthy d).
Qed.

Lemma integer_part_app s i r : integer_part s = Some (i, r) -> integer_part (s +:+ rest) = Some (i, r +:+ rest).
Proof.
  unfold integer_part. destruct s as [|c s]; [done|]. rewrite sapp_cons. destruct (Ascii.eqb c "0"); [by intros [= <- <-]|].
  destruct (ascii_digit c); [|done]. change (String c (s +:+ rest)) with (String c s +:+ rest). rewrite span_digits_app.
  destruct (span_digits (String c s)) as [d r']. by intros [= <- <-].
Qed.

Lemma scan_number_app t t' : scan_number t = Some (t', "") -> scan_number (t +:+ rest) = Some (t', rest).
Proof.
  unfold scan_number. destruct t as [|c t]; [done|]. rewrite sapp_cons. cbn [strip_prefix].
  destruct (Ascii.eqb "-" c).
  - destruct (integer_part t) as [[i s2]|] eqn:Ei; [|done]. rewrite (integer_part_app _ _ _ Ei), fraction_app.
    destruct (fraction s2) as [f s3]. cbn [fst snd]. rewrite exponent_app. destruct (exponent s3) as [e s4]. simpl. by intros [= <- ->].
  - destruct (integer_part (String c t)) as [[i s2]|] eqn:Ei; [|done].
    change (String c (t +:+ rest)) with (String c t +:+ rest). rewrite (integer_part_app _ _ _ Ei), fraction_app.
    destruct (fraction s2) as [f s3]. cbn [fst snd]. rewrite exponent_app. destruct (exponent s3) as [e s4]. simpl. by intros [= <- ->].
Qed.

End Numbers.

(** A number starts with a digit, or with a minus and a digit. *)
Lemma num_ok_start t : num_ok t = true -> exists c t', t = String c t' /\
  (ascii_digit c = true \/ (c = "-"%char /\ exists c' t'', t' = String c' t'' /\ ascii_digit c' = true)).
Proof.
  unfold num_ok. rewrite bool_decide_eq_true. unfold scan_number. destruct t as [|c t]; [done|]. cbn [strip_prefix].
  destruct (Ascii.eqb_spec "-" c) as [<-|Hne]; intros H; eexists _, _; (split; [reflexivity|]).
  - right. split; [done|]. destruct t as [|c' t]; [done|]. exists c', t. split; [done|].
    unfold integer_part in H. destruct (Ascii.eqb_spec c' "0") as [->|]; [done|]. by destruct (ascii_digit c').
  - left. unfold integer_part in H. destruct (Ascii.eqb_spec c "0") as [->|]; [done|]. by destruct (ascii_digit c).
Qed.

Lemma scan_literal_number t rest : num_ok t = true -> scan_literal literals (t +:+ rest) = None.
Proof.
  intros (c & t' & -> & [Hc|(-> & c' & t'' & -> & Hc)])%num_ok_start; rewrite ?sapp_cons;
    [destruct c as [[] [] [] [] [] [] [] []]|destruct c' as [[] [] [] [] [] [] [] []]]; try done; reflexivity.
Qed.

(** *** Values *)

Lemma scan_escape c rest : scan_string (escape c +:+ rest) = cons_char c (scan_string rest).
Proof. destruct c as [[] [] [] [] [] [] [] []]; reflexivity. Qed.

Lemma scan_dumped s rest : scan_string (escape_all s +:+ String quote rest) = Ok (s, rest).
Proof.
  induction s as [|c s IH]; [reflexivity|]. cbn [escape_all]. rewrite sapp_assoc, scan_escape, IH. reflexivity.
Qed.

Lemma dump_string_app s rest : dump_string s +:+ rest = String quote (escape_all s +:+ String quote rest).
Proof. exact (f_equal (String quote) (sapp_assoc (escape_all s) (String quote EmptyString) rest)). Qed.

(** A list with separators starts as its first element does. *)
Lemma join_start sep x (l : list string) rest : exists rest', join_with sep (x :: l) +:+ rest = x +:+ rest'.
Proof. destruct l as [|y l]; [by exists rest|]. eexists. cbn [join_with]. by rewrite sapp_assoc. Qed.

(** Text a reader skips. *)
Definition blank (sp : string) : Prop := forall x, skip_ws (sp +:+ x) = skip_ws x.

Lemma blank_after_number sp x : blank sp -> after_number x = true -> after_number (sp +:+ x) = true.
Proof.
  intros Hb Hx. destruct sp as [|c sp]; [done|]. specialize (Hb ""). cbn [skip_ws] in Hb. rewrite sapp_cons in *. cbn [skip_ws] in Hb.
  destruct (is_ws c) eqn:E; [|done]. unfold after_number. by destruct c as [[] [] [] [] [] [] [] []].
Qed.

Section ReadBack.

Variable y : Layout.
(** The separators hold no text. *)
Hypothesis open_blank : forall d, blank (after_open y d).
Hypothesis comma_blank : forall d, blank (after_comma y d).
Hypothesis colon_blank : blank (after_colon y).
Hypothesis close_blank : forall d, blank (before_close y d).

Abbreviation dump := (dumps_at y).

(** A written value starts with none of the characters that end a list. *)
Lemma dumps_start v d rest :
  plain v = true -> exists c s, dump d v +:+ rest = String c s /\ is_ws c = false /\ Ascii.eqb "]" c = false.
Proof.
  destruct v as [|[]|t|s|[|v l]|[|kv l]]; intros Hp; [..|rewrite (dump_string_app s)| | | |];
    try (eexists _, _; (split; [reflexivity|done])).
  destruct (num_ok_start t Hp) as (c & t' & -> & Hc). exists c, (t' +:+ rest). split; [done|].
  destruct Hc as [Hc|[-> _]]; [|done]. by destruct c as [[] [] [] [] [] [] [] []].
Qed.

Lemma skip_ws_dumps v d rest : plain v = true -> skip_ws (dump d v +:+ rest) = dump d v +:+ rest.
Proof. intros Hp. destruct (dumps_start v d rest Hp) as (c & s & -> & Hw & _). cbn [skip_ws]. by rewrite Hw. Qed.

Definition reads_back (v : json) : Prop :=
  forall d fuel rest, (size v <= fuel)%nat -> after_number rest = true -> scan_once fuel (dump d v +:+ rest) = Ok (v, rest).

Lemma scan_array_dumps l d e fuel rest :
  l <> [] -> Forall (fun v => plain v = true /\ reads_back v) l -> (list_sum (map (fun v => S (size v)) l) <= fuel)%nat ->
  scan_array fuel (join_with ("," +:+ after_comma y e) (map (dump d) l) +:+ before_close y e +:+ "]" +:+ rest) = Ok (l, rest).
Proof using comma_blank close_blank.
  intros Hne Hl. revert fuel. induction Hl as [|v l [Hp Hv] Hl IH]; [done|]. intros [|fuel] Hf; [simpl in Hf; lia|].
  cbn [map list_sum fold_right] in Hf. destruct l as [|v' l].
  - cbn [map join_with scan_array]. rewrite (Hv d fuel) by (by apply blank_after_number || (simpl in Hf; lia)).
    cbn [result_bind]. by rewrite close_blank.
  - assert (Hp' : plain v' = true) by (by inversion Hl as [|? ? [? ?] ?]). specialize (IH ltac:(done) fuel).
    set (T := join_with ("," +:+ after_comma y e) (map (dump d) (v' :: l)) +:+ before_close y e +:+ "]" +:+ rest) in *.
    change (scan_array (S fuel) ((dump d v +:+ ("," +:+ after_comma y e) +:+ join_with ("," +:+ after_comma y e) (map (dump d) (v' :: l))) +:+
              before_close y e +:+ "]" +:+ rest) = Ok (v :: v' :: l, rest)).
    rewrite !sapp_assoc. fold T. cbn [scan_array]. rewrite (Hv d fuel) by (done || lia).
    change ((let! '(l0, r) := scan_array fuel (skip_ws (after_comma y e +:+ T)) in Ok (v :: l0, r)) = Ok (v :: v' :: l, rest)).
    rewrite comma_blank. assert (skip_ws T = T) as ->.
    { unfold T. cbn [map]. match goal with |- context [join_with ?sep (?x :: ?l') +:+ ?r] => destruct (join_start sep x l' r) as [r' ->] end.
      by apply skip_ws_dumps. }
    rewrite IH; [done|]. unfold list_sum. lia.
Qed.

Lemma scan_object_dumps l d e b fuel rest :
  l <> [] -> Forall (fun kv => plain kv.2 = true /\ reads_back kv.2) l ->
  (list_sum (map (fun kv => S (size kv.2)) l) <= fuel)%nat ->
  scan_object fuel b
    (join_with ("," +:+ after_comma y e) (map (fun kv => dump_string kv.1 +:+ ":" +:+ after_colon y +:+ dump d kv.2) l) +:+
     before_close y e +:+ "}" +:+ rest) = Ok (l, rest).
Proof using comma_blank close_blank colon_blank.
  set (f := fun kv : string * json => dump_string kv.1 +:+ ":" +:+ after_colon y +:+ dump d kv.2).
  intros Hne Hl. revert b fuel. induction Hl as [|[k v] l [Hp Hv] Hl IH]; [done|]. intros b [|fuel] Hf; [simpl in Hf; lia|].
  cbn [map list_sum fold_right] in Hf. simpl in Hp, Hv.
  assert (Hone : forall tail, after_number tail = true -> scan_object (S fuel) b (f (k, v) +:+ tail) =
    match skip_ws tail with
    | String c' r3 =>
        if Ascii.eqb c' "}" then Ok ([(k, v)], r3)
        else if Ascii.eqb c' "," then let! '(l, r4) := scan_object fuel false (skip_ws r3) in Ok ((k, v) :: l, r4)
        else Err JSONDecodeError
    | EmptyString => Err JSONDecodeError
    end).
  { intros tail Htail. unfold f. cbn [fst snd]. rewrite !sapp_assoc, dump_string_app. cbn [scan_object].
    change (Ascii.eqb quote "}" && b) with false. change (negb (Ascii.eqb quote quote)) with false. cbv iota.
    rewrite scan_dumped. cbn [result_bind]. change (strip_prefix ":" (skip_ws (":" +:+ ?x))) with (Some x). cbv iota.
    rewrite colon_blank, skip_ws_dumps by done. rewrite (Hv d fuel) by (done || (simpl in Hf; lia)). reflexivity. }
  destruct l as [|kv' l].
  - cbn [map join_with]. rewrite Hone by (by apply blank_after_number). by rewrite close_blank.
  - specialize (IH ltac:(done) false fuel).
    set (T := join_with ("," +:+ after_comma y e) (map f (kv' :: l)) +:+ before_close y e +:+ "}" +:+ rest) in *.
    change (scan_object (S fuel) b ((f (k, v) +:+ ("," +:+ after_comma y e) +:+ join_with ("," +:+ after_comma y e) (map f (kv' :: l))) +:+
              before_close y e +:+ "}" +:+ rest) = Ok ((k, v) :: kv' :: l, rest)).
    rewrite !sapp_assoc. fold T. rewrite Hone by done.
    change ((let! '(l0, r) := scan_object fuel false (skip_ws (after_comma y e +:+ T)) in Ok ((k, v) :: l0, r))
            = Ok ((k, v) :: kv' :: l, rest)).
    rewrite comma_blank. assert (skip_ws T = T) as ->.
    { unfold T. cbn [map]. match goal with |- context [join_with ?sep (?x :: ?l') +:+ ?r] => destruct (join_start sep x l' r) as [r' ->] end.
      unfold f. rewrite sapp_assoc, dump_string_app. reflexivity. }
    rewrite IH; [done|]. unfold list_sum. lia.
Qed.

Lemma scan_once_array fuel x :
  scan_once (S fuel) ("[" +:+ x) =
  match strip_prefix "]" (skip_ws x) with
  | Some r => Ok (JArr [], r)
  | None => let! '(l, r) := scan_array fuel (skip_ws x) in Ok (JArr l, r)
  end.
Proof. reflexivity. Qed.

Lemma scan_once_object fuel x :
  scan_once (S fuel) ("{" +:+ x) = let! '(l, r) := scan_object fuel true (skip_ws x) in Ok (JObj l, r).
Proof. reflexivity. Qed.

Lemma scan_once_number fuel t rest :
  num_ok t = true -> after_number rest = true -> scan_once (S fuel) (t +:+ rest) = Ok (JNum t, rest).
Proof.
  intros Ht Hr. pose proof (scan_literal_number t rest Ht) as Hl.
  assert (Hn : scan_number (t +:+ rest) = Some (t, rest)) by (apply scan_number_app; [done|]; by apply bool_decide_eq_true in Ht).
  destruct (num_ok_start t Ht) as (c & t' & -> & Hc). rewrite sapp_cons in *.
  assert (Hf : Ascii.eqb c quote = false /\ Ascii.eqb c "{" = false /\ Ascii.eqb c "[" = false).
  { destruct Hc as [Hc|[-> _]]; [|done]. by destruct c as [[] [] [] [] [] [] [] []]. }
  destruct Hf as (H1 & H2 & H3). cbn [scan_once]. by rewrite H1, H2, H3, Hl, Hn.
Qed.

(** The reader gives back every written value. *)
Lemma dumps_reads_back v : plain v = true -> reads_back v.
Proof using open_blank comma_blank colon_blank close_blank.
  induction v as [|[]|t|s|l IH|l IH] using json_nested_ind; intros Hp d [|fuel] rest Hf Hr; try (cbn [size] in Hf; lia); try done.
  - by apply scan_once_number.
  - cbn [dumps_at]. rewrite dump_string_app. cbn [scan_once]. change (Ascii.eqb quote quote) with true. cbv iota. by rewrite scan_dumped.
  - destruct l as [|v l]; [by destruct fuel|]. cbn [dumps_at]. rewrite !sapp_assoc, scan_once_array, !open_blank. cbn [size plain] in Hf, Hp.
    assert (Hall : Forall (fun v => plain v = true /\ reads_back v) (v :: l)).
    { rewrite forallb_forall in Hp. rewrite Forall_forall in *. intros x Hx. specialize (Hp x (proj1 (list_elem_of_In _ _) Hx)). auto. }
    assert (Hpv : plain v = true) by (by inversion Hall as [|? ? [? ?] ?]).
    pose proof (scan_array_dumps (v :: l) (S d) d fuel rest ltac:(done) Hall ltac:(lia)) as E. revert E. cbn [map].
    match goal with |- context [join_with ?sep (?x :: ?l') +:+ ?r] => destruct (join_start sep x l' r) as [r' ->] end. intros E.
    rewrite skip_ws_dumps by done. rewrite E. destruct (dumps_start v (S d) r' Hpv) as (c & s & -> & _ & Hc).
    cbn [strip_prefix]. by rewrite Hc.
  - destruct l as [|[k v] l]; [by destruct fuel as [|[|]]; [cbn in Hf; lia|..]|].
    cbn [dumps_at]. rewrite !sapp_assoc, scan_once_object, open_blank. cbn [size plain] in Hf, Hp.
    assert (Hall : Forall (fun kv => plain kv.2 = true /\ reads_back kv.2) ((k, v) :: l)).
    { rewrite forallb_forall in Hp. rewrite Forall_forall in *. intros x Hx. specialize (Hp x (proj1 (list_elem_of_In _ _) Hx)). auto. }
    pose proof (scan_object_dumps ((k, v) :: l) (S d) d true fuel rest ltac:(done) Hall ltac:(lia)) as E. revert E. cbn [map fst snd].
    match goal with |- context [join_with ?sep (?x :: ?l') +:+ ?r] => destruct (join_start sep x l' r) as [r' ->] end.
    rewrite sapp_assoc, dump_string_app. intros E.
    change (skip_ws (String quote ?x)) with (String quote x). by rewrite E.
Qed.

Lemma join_len sep l : (1 <= slen sep)%nat -> (list_sum (map (fun s => S (slen s)) l) <= S (slen (join_with sep l)))%nat.
Proof.
  intros Hs. induction l as [|x l IH]; [simpl; lia|]. destruct l as [|z l]; [simpl; lia|].
  change (join_with sep (x :: z :: l)) with (x +:+ sep +:+ join_with sep (z :: l)). rewrite !sapp_len.
  unfold list_sum in *. simpl in *. lia.
Qed.

Lemma list_sum_le {A} (f g : A -> nat) l : Forall (fun x => (f x <= g x)%nat) l -> (list_sum (map f l) <= list_sum (map g l))%nat.
Proof. induction 1 as [|x l Hx Hl IH]; simpl in *; [done|]. unfold list_sum in *. lia. Qed.

Lemma size_len v d : plain v = true -> (size v <= slen (dump d v))%nat.
Proof.
  revert d. induction v as [|[]|t|s|l IH|l IH] using json_nested_ind; intros d Hp; try (simpl; lia).
  - destruct (num_ok_start t Hp) as (c & t' & -> & _). simpl. lia.
  - destruct l as [|v l]; [simpl; lia|]. cbn [size dumps_at]. rewrite !sapp_len.
    pose proof (join_len ("," +:+ after_comma y d) (map (dump (S d)) (v :: l)) ltac:(rewrite sapp_len; simpl; lia)) as Hj. rewrite map_map in Hj.
    assert (H : (list_sum (map (fun v => S (size v)) (v :: l)) <= list_sum (map (fun v => S (slen (dump (S d) v))) (v :: l)))%nat).
    { apply list_sum_le. cbn [plain] in Hp. rewrite forallb_forall in Hp. rewrite Forall_forall in *. intros x Hx.
      specialize (IH x Hx (S d) (Hp x (proj1 (list_elem_of_In _ _) Hx))). lia. }
    unfold list_sum in *. change (slen "[") with 1%nat. change (slen "]") with 1%nat. lia.
  - destruct l as [|kv l]; [simpl; lia|]. cbn [size dumps_at]. rewrite !sapp_len.
    set (f := fun kv : string * json => dump_string kv.1 +:+ ":" +:+ after_colon y +:+ dump (S d) kv.2).
    pose proof (join_len ("," +:+ after_comma y d) (map f (kv :: l)) ltac:(rewrite sapp_len; simpl; lia)) as Hj. rewrite map_map in Hj.
    assert (H : (list_sum (map (fun kv => S (size kv.2)) (kv :: l)) <= list_sum (map (fun kv => slen (f kv)) (kv :: l)))%nat).
    { apply list_sum_le. cbn [plain] in Hp. rewrite forallb_forall in Hp. rewrite Forall_forall in *. intros x Hx.
      specialize (IH x Hx (S d) (Hp x (proj1 (list_elem_of_In _ _) Hx))). unfold f, dump_string. rewrite !sapp_len. simpl. lia. }
    assert (H' : forall l, list_sum (map (fun kv => S (slen (f kv))) l) = (list_sum (map (fun kv => slen (f kv)) l) + length l)%nat).
    { clear. intros l. unfold list_sum. induction l as [|x l IH]; simpl in *; [done|]. rewrite IH. lia. }
    rewrite H' in Hj. change (length (kv :: l)) with (S (length l)) in Hj.
    change (slen "{") with 1%nat. change (slen "}") with 1%nat. lia.
Qed.

Lemma loads_dumps_at v d rest : plain v = true -> skip_ws rest = "" -> after_number rest = true -> loads (dump d v +:+ rest) = Ok v.
Proof using open_blank comma_blank colon_blank close_blank.
  intros Hp Hr Ha. unfold loads. rewrite skip_ws_dumps by done. rewrite (dumps_reads_back v Hp); [simpl; by rewrite Hr| |done].
  pose proof (size_len v d Hp). rewrite sapp_len. lia.
Qed.

End ReadBack.

Lemma dumps_flat sp d v : dumps_sep sp v = dumps_at (flat sp) d v.
Proof.
  revert d. induction v as [|[]|t|s|l IH|l IH] using json_nested_ind; intros d; try done.
  - destruct l as [|v l]; [done|]. assert (E : map (dumps_sep sp) (v :: l) = map (dumps_at (flat sp) (S d)) (v :: l)).
    { apply map_ext_Forall. eapply Forall_impl; [exact IH|]. auto. }
    cbn [dumps_sep dumps_at]. rewrite E. reflexivity.
  - destruct l as [|kv l]; [done|].
    assert (E : map (fun kv => dump_string kv.1 +:+ ":" +:+ sp +:+ dumps_sep sp kv.2) (kv :: l)
                = map (fun kv => dump_string kv.1 +:+ ":" +:+ sp +:+ dumps_at (flat sp) (S d) kv.2) (kv :: l)).
    { apply map_ext_Forall. eapply Forall_impl; [exact IH|]. intros x Hx. simpl. by rewrite <-Hx. }
    cbn [dumps_sep dumps_at]. rewrite E. reflexivity.
Qed.

Lemma loads_dumps_sep sp v : blank sp -> plain v = true -> loads (dumps_sep sp v) = Ok v.
Proof.
  intros Hb Hp. rewrite (dumps_flat sp 0), <-(sapp_nil (dumps_at _ 0 v)). by apply loads_dumps_at.
Qed.

(** [json.loads(json.dumps(v)) == v], with either separators. *)
Lemma loads_dumps v : plain v = true -> loads (dumps v) = Ok v.
Proof. by apply loads_dumps_sep. Qed.

Lemma loads_dumps_compact v : plain v = true -> loads (dumps_compact v) = Ok v.
Proof. by apply loads_dumps_sep. Qed.

Lemma blank_line_break n : blank (line_break n).
Proof.
  intros x. unfold line_break. rewrite sapp_cons. cbn [skip_ws is_ws]. induction n as [|n IH]; [done|].
  destruct n as [|n]; [done|exact IH].
Qed.

(** [json.loads(json.dumps(v, indent=n) + "\n") == v], the last line break being optional. *)
Lemma loads_dumps_indent n v rest : plain v = true -> rest = "" \/ rest = String "010" "" -> loads (dumps_indent n v +:+ rest) = Ok v.
Proof. intros Hp Hr. apply loads_dumps_at; try done; try (intros d; apply blank_line_break); by destruct Hr as [-> | ->]. Qed.

(** ** Integers *)

Fixpoint digits_value (acc : Z) (s : string) : option Z :=
  match s with
  | EmptyString => Some acc
  | String c s' => if ascii_digit c then digits_value (10 * acc + (Z.of_nat (nat_of_ascii c) - 48)) s' else None
  end.

(** The value of an integer literal. *)
Definition literal_int (s : string) : option Z :=
  match s with
  | EmptyString => None
  | String c s' => if Ascii.eqb c "-"%char then (if str_truthy s' then Z.opp <$> digits_value 0 s' else None) else digits_value 0 s
  end.

Lemma pretty_char_value n : (n < 10)%N ->
  ascii_digit (pretty_N_char n) = true /\ Z.of_nat (nat_of_ascii (pretty_N_char n)) - 48 = Z.of_N n /\
  Ascii.eqb (pretty_N_char n) "0" = (n =? 0)%N /\ Ascii.eqb (pretty_N_char n) "-" = false.
Proof.
  intros H. rewrite <-(N2Nat.id n). assert (Hk : (N.to_nat n < 10)%nat) by lia.
  revert Hk. generalize (N.to_nat n) as k. intros k Hk. do 10 (destruct k as [|k]; [done|]). lia.
Qed.

(** A positive number is written as a digit that is not zero, then digits. *)
Lemma pretty_pos x s : (0 < x)%N -> str_forall ascii_digit s = true ->
  exists c t, pretty_N_go x s = String c t /\ ascii_digit c = true /\ Ascii.eqb c "0" = false /\ Ascii.eqb c "-" = false /\
    str_forall ascii_digit t = true.
Proof.
  revert s. induction (N.lt_wf_0 x) as [x _ IH]. intros s Hx Hs. rewrite pretty_N_go_step by done.
  destruct (pretty_char_value (x `mod` 10)%N (N.mod_lt x 10 ltac:(done))) as (Hd & _ & H0 & Hm). destruct (decide (x < 10)%N) as [Hlt|Hge].
  - rewrite N.div_small, pretty_N_go_0 by lia. rewrite N.mod_small in * by lia. eexists _, s. split_and!; try done.
    rewrite H0. by apply N.eqb_neq; lia.
  - apply IH; [apply N.div_lt; lia|apply N.div_str_pos; lia|]. simpl. by rewrite Hd, Hs.
Qed.

Lemma digits_value_pretty x s : digits_value 0 (pretty_N_go x s) = digits_value (Z.of_N x) s.
Proof.
  revert s. induction (N.lt_wf_0 x) as [x _ IH]. intros s. destruct (decide (x = 0)%N) as [->|Hx]; [by rewrite pretty_N_go_0|].
  rewrite pretty_N_go_step by lia. rewrite IH by (apply N.div_lt; lia). simpl.
  destruct (pretty_char_value (x `mod` 10)%N (N.mod_lt x 10 ltac:(done))) as (-> & -> & _). f_equal. pose proof (N.div_mod x 10 ltac:(done)). lia.
Qed.

Lemma span_all_digits t : str_forall ascii_digit t = true -> span_digits t = (t, "").
Proof. induction t as [|c t IH]; simpl; [done|]. intros [-> Ht]%andb_true_iff. by rewrite IH. Qed.

Lemma scan_digits c t : ascii_digit c = true -> Ascii.eqb c "0" = false -> Ascii.eqb c "-" = false -> str_forall ascii_digit t = true ->
  scan_number (String c t) = Some (String c t, "") /\ scan_number (String "-" (String c t)) = Some (String "-" (String c t), "").
Proof.
  intros Hc H0 Hm Ht. assert (Hi : integer_part (String c t) = Some (String c t, "")).
  { unfold integer_part. rewrite H0, Hc. f_equal. apply span_all_digits. simpl. by rewrite Hc. }
  unfold scan_number. cbn [strip_prefix]. rewrite Ascii.eqb_sym, Hm, Ascii.eqb_refl. rewrite Hi. simpl.
  by rewrite !sapp_nil.
Qed.

(** [str] of an integer is a number literal, and [int] reads it back. *)
Lemma literal_pretty z : num_ok (pretty z) = true /\ literal_int (pretty z) = Some z.
Proof.
  unfold num_ok. rewrite bool_decide_eq_true. destruct z as [|p|p].
  - done.
  - change (pretty (Z.pos p)) with (pretty_N_go (N.pos p) "").
    destruct (pretty_pos (N.pos p) "" ltac:(lia) eq_refl) as (c & t & E & Hc & H0 & Hm & Ht).
    pose proof (digits_value_pretty (N.pos p) "") as Hv. rewrite E in *. split; [by apply scan_digits|].
    unfold literal_int. rewrite Hm. exact Hv.
  - change (pretty (Z.neg p)) with (String "-" (pretty_N_go (N.pos p) "")).
    destruct (pretty_pos (N.pos p) "" ltac:(lia) eq_refl) as (c & t & E & Hc & H0 & Hm & Ht).
    pose proof (digits_value_pretty (N.pos p) "") as Hv. rewrite E in *. split; [by apply scan_digits|].
    unfold literal_int. cbn [Ascii.eqb Bool.eqb str_truthy]. rewrite Hv. done.
Qed.

Example loads_example :
  loads "[ {} , true, [null ,-1.5e3],NaN ]" = Ok (JArr [JObj []; JBool true; JArr [JNull; JNum "-1.5e3"]; JNum "NaN"]).
Proof. reflexivity. Qed.

Example dumps_example :
  dumps (JObj [("t", JNum "60"); ("l", JArr [JNull; JBool false])]) =
  String "{" (String quote ("t" +:+ String quote (": 60, " +:+ String quote ("l" +:+ String quote ": [null, false]}")))).
Proof. reflexivity. Qed.
