(* ===== verification/Mtf.v ===== *)
(** Multi-timeframe requests: [openpine/runtime/mtf.py], with
    [_confirmed_htf_bars_from_provider_bars] of [openpine/runtime/isolated_run.py].

    Requests come from the command line, from an API payload or from the JSON
    column of a strategy; they are normalized to unique keys, and each key's
    bars are loaded once and stamped for the worker.  The timeframe parser and
    the caller's bar loader are parameters. *)

From Stdlib Require Import Ascii.
From S2P Require Import Prelude PyFloat Coverage Json.

Record MtfSeriesKey := mkMtfKey { mtf_symbol : string; mtf_timeframe : string }.

#[export] Instance MtfSeriesKey_eq_dec : EqDecision MtfSeriesKey.
Proof. solve_decision. Defined.

(** A request, by the texts [str(field or "")] of its two fields. *)
Record Request := mkRequest { req_symbol : string; req_timeframe : string }.

Definition to_dict (k : MtfSeriesKey) : Request := mkRequest (mtf_symbol k) (mtf_timeframe k).

Inductive mtf_error :=
| SymbolRequired
| TimeframeRequired
| TimeframeInvalid (text : string)
| DuplicateSeries (k : MtfSeriesKey)
| TooManySeries
| BadArgument
| Combined
| StoredInvalid
| NotArray
| ChartTimeframe
| NotLoaded (k : MtfSeriesKey)
| NoConfirmedBars (k : MtfSeriesKey).

(** A bar as the provider gives it, and one stamped for the worker. *)
Record RawBar := mkRawBar {
  rb_time : Z;
  rb_time_close : option Z;
  rb_open : float;
  rb_high : float;
  rb_low : float;
  rb_close : float;
  rb_volume : float;
  rb_closed : bool
}.

Record StampedBar := mkStamped {
  sb_symbol : string;
  sb_timeframe : string;
  sb_time : Z;
  sb_time_close : Z;
  sb_open : float;
  sb_high : float;
  sb_low : float;
  sb_close : float;
  sb_volume : float
}.

(** [_confirmed_htf_bars_from_provider_bars]. *)
Definition stamp (symbol timeframe : string) (b : RawBar) : option StampedBar :=
  match rb_time_close b with
  | None => None
  | Some tc => Some (mkStamped symbol timeframe (rb_time b) tc (rb_open b) (rb_high b) (rb_low b) (rb_close b) (rb_volume b))
  end.

Definition confirmed_bars (bs : list RawBar) (symbol timeframe : string) : option (list StampedBar) :=
  match bs with [] => None | _ => mapM (stamp symbol timeframe) bs end.

(** [text.rsplit(":", 1)] when [text] has a colon. *)
Fixpoint rsplit_colon (s : string) : option (string * string) :=
  match s with
  | EmptyString => None
  | String c s' =>
      match rsplit_colon s' with
      | Some (a, b) => Some (String c a, b)
      | None => if Ascii.eqb c ":"%char then Some (EmptyString, s') else None
      end
  end.

Section Mtf.

Variable parse_timeframe : string -> option Timeframe.
(** [str(v or "")] of a JSON value that is neither text nor null. *)
Variable other_text : json -> string.

(** The loop of [normalize_mtf_requests]; [seen] are the keys so far. *)
Definition normalize_one (seen : list MtfSeriesKey) (r : Request) : result mtf_error (list MtfSeriesKey) :=
  let symbol := str_upper (str_strip (req_symbol r)) in
  let text := str_strip (req_timeframe r) in
  if negb (str_truthy symbol) then Err SymbolRequired
  else if negb (str_truthy text) then Err TimeframeRequired
  else match parse_timeframe text with
       | None => Err (TimeframeInvalid text)
       | Some tf =>
           let key := mkMtfKey symbol (canonical tf) in
           if bool_decide (key ∈ seen) then Err (DuplicateSeries key) else Ok (seen ++ [key])
       end.

Definition normalize_mtf_requests (requests : option (list Request)) : result mtf_error (list MtfSeriesKey) :=
  match requests with
  | None => Ok []
  | Some l =>
      let! keys := result_fold normalize_one [] l in
      if (16 <? length keys)%nat then Err TooManySeries else Ok keys
  end.

(** [parse_mtf_series_args]. *)
Definition parse_mtf_series_args (values : list string) : result mtf_error (list MtfSeriesKey) :=
  let! requests := result_map (fun raw =>
    match rsplit_colon (str_strip raw) with
    | None => Err BadArgument
    | Some (symbol, timeframe) => Ok (mkRequest symbol timeframe)
    end) values in
  normalize_mtf_requests (Some requests).

(** [admitted_mtf_requests]. *)
Definition admitted_mtf_requests (chart_symbol : string) (htf_timeframe : option string) (mtf_series : option (list Request))
    : result mtf_error (list MtfSeriesKey) :=
  let! explicit := normalize_mtf_requests mtf_series in
  let legacy := str_strip (str_or htf_timeframe "") in
  if str_truthy legacy && negb (bool_decide (explicit = [])) then Err Combined
  else if str_truthy legacy then normalize_mtf_requests (Some [mkRequest chart_symbol legacy])
  else Ok explicit.

(** [confirmed_mtf_bars_for_requests]; [asked] is the list of the loader's calls. *)
Fixpoint stamp_keys (chart : MtfSeriesKey) (chart_bars : list RawBar) (load_bars : string -> string -> option (list RawBar))
    (keys : list MtfSeriesKey) (asked : list MtfSeriesKey) (stamped : list StampedBar)
    : list MtfSeriesKey * result mtf_error (list StampedBar) :=
  match keys with
  | [] => (asked, Ok stamped)
  | key :: keys' =>
      let '(asked', raw) := if bool_decide (key = chart) then (asked, Some chart_bars)
                            else (asked ++ [key], load_bars (mtf_symbol key) (mtf_timeframe key)) in
      match raw with
      | None => (asked', Err (NotLoaded key))
      | Some bs =>
          match confirmed_bars bs (mtf_symbol key) (mtf_timeframe key) with
          | None => (asked', Err (NoConfirmedBars key))
          | Some [] => (asked', Err (NoConfirmedBars key))
          | Some c => stamp_keys chart chart_bars load_bars keys' asked' (stamped ++ c)
          end
      end
  end.

Definition confirmed_mtf_bars_for_requests (chart_bars : list RawBar) (chart_symbol chart_timeframe : string)
    (requests : option (list Request)) (load_bars : string -> string -> option (list RawBar))
    : list MtfSeriesKey * result mtf_error (list StampedBar) :=
  match normalize_mtf_requests requests with
  | Err e => ([], Err e)
  | Ok keys =>
      match parse_timeframe chart_timeframe with
      | None => ([], Err ChartTimeframe)
      | Some tf => stamp_keys (mkMtfKey (str_upper (str_strip chart_symbol)) (canonical tf)) chart_bars load_bars keys [] []
      end
  end.

(** [mtf_requests_json] and [mtf_requests_from_json]. *)
Definition key_json (k : MtfSeriesKey) : json :=
  JObj [("symbol", JStr (mtf_symbol k)); ("timeframe", JStr (mtf_timeframe k))].

Definition mtf_requests_json (requests : option (list Request)) : result mtf_error string :=
  let! keys := normalize_mtf_requests requests in Ok (dumps_compact (JArr (map key_json keys))).

Definition field_text (v : option json) : string :=
  match v with
  | None | Some JNull => ""
  | Some (JStr s) => s
  | Some v => other_text v
  end.

(** [_field]: a mapping's item, or an attribute, which plain values do not have. *)
Definition request_of_json (v : json) : Request :=
  match v with
  | JObj l => mkRequest (field_text (jget l "symbol")) (field_text (jget l "timeframe"))
  | _ => mkRequest "" ""
  end.

Definition mtf_requests_from_json (raw : option string) : result mtf_error (list MtfSeriesKey) :=
  match loads (str_or raw "[]") with
  | Err _ => Err StoredInvalid
  | Ok (JArr l) => normalize_mtf_requests (Some (map request_of_json l))
  | Ok _ => Err NotArray
  end.

(** ** Normalized keys *)

(** What a normalized key promises the registry and the worker. *)
Definition key_ok (k : MtfSeriesKey) : Prop :=
  mtf_symbol k <> "" /\ str_strip (mtf_symbol k) = mtf_symbol k /\ str_upper (mtf_symbol k) = mtf_symbol k /\
  exists text tf, parse_timeframe text = Some tf /\ mtf_timeframe k = canonical tf.

Definition keys_ok (ks : list MtfSeriesKey) : Prop := Forall key_ok ks /\ NoDup ks /\ (length ks <= 16)%nat.

Lemma space_upper c : ascii_space (ascii_upper c) = ascii_space c.
Proof. destruct c as [[] [] [] [] [] [] [] []]; reflexivity. Qed.

Lemma lstrip_upper s : str_lstrip (str_upper s) = str_upper (str_lstrip s).
Proof. unfold str_upper. induction s as [|c s IH]; simpl; [done|]. rewrite space_upper. by destruct (ascii_space c). Qed.

Lemma rstrip_upper s : str_rstrip (str_upper s) = str_upper (str_rstrip s).
Proof.
  induction s as [|c s IH]; [done|]. cbn [str_upper str_map str_rstrip]. fold (str_upper s). rewrite IH, space_upper.
  destruct (str_rstrip s); simpl; [|done]. by destruct (ascii_space c).
Qed.

Lemma rstrip_idem s : str_rstrip (str_rstrip s) = str_rstrip s.
Proof.
  induction s as [|c s IH]; [done|]. cbn [str_rstrip]. destruct (str_rstrip s) as [|c' s'] eqn:E.
  - destruct (ascii_space c) eqn:Ec; [done|]. cbn [str_rstrip]. by rewrite Ec.
  - cbn [str_rstrip] in *. by rewrite IH.
Qed.

Lemma lstrip_rstrip s : str_lstrip s = s -> str_lstrip (str_rstrip s) = str_rstrip s.
Proof.
  destruct s as [|c s]; [done|]. cbn [str_lstrip]. destruct (ascii_space c) eqn:E.
  - intros H. exfalso. assert (Hl : forall t, (String.length (str_lstrip t) <= String.length t)%nat).
    { intros t. induction t as [|x t IH]; simpl; [done|]. destruct (ascii_space x); simpl; lia. }
    specialize (Hl s). rewrite H in Hl. simpl in Hl. lia.
  - intros _. cbn [str_rstrip]. destruct (str_rstrip s); [rewrite E|]; cbn [str_lstrip]; by rewrite E.
Qed.

Lemma lstrip_idem s : str_lstrip (str_lstrip s) = str_lstrip s.
Proof. induction s as [|c s IH]; simpl; [done|]. destruct (ascii_space c) eqn:E; [done|]. simpl. by rewrite E. Qed.

Lemma strip_idem s : str_strip (str_strip s) = str_strip s.
Proof. unfold str_strip. rewrite (lstrip_rstrip (str_lstrip s)) by apply lstrip_idem. apply rstrip_idem. Qed.

Lemma strip_upper s : str_strip (str_upper s) = str_upper (str_strip s).
Proof. unfold str_strip. by rewrite lstrip_upper, rstrip_upper. Qed.

Lemma str_truthy_spec s : str_truthy s = true <-> s <> "".
Proof. unfold str_truthy. rewrite negb_true_iff, bool_decide_eq_false. done. Qed.

Lemma normalize_one_ok seen r seen' :
  normalize_one seen r = Ok seen' -> exists k, seen' = seen ++ [k] /\ key_ok k /\ k ∉ seen.
Proof.
  unfold normalize_one. destruct (str_truthy (str_upper _)) eqn:Es; [|done]. destruct (str_truthy (str_strip (req_timeframe r))) eqn:Et; [|done].
  simpl. destruct (parse_timeframe _) as [tf|] eqn:Ep; [|done]. case_bool_decide as Hin; [done|]. intros [= <-].
  eexists. split; [done|]. split; [|done]. unfold key_ok. simpl. split_and!; [by apply str_truthy_spec| | |eauto].
  - by rewrite strip_upper, strip_idem.
  - apply str_upper_idem.
Qed.

Lemma normalize_fold_ok l seen ks :
  Forall key_ok seen -> NoDup seen -> result_fold normalize_one seen l = Ok ks ->
  Forall key_ok ks /\ NoDup ks /\ length ks = (length seen + length l)%nat.
Proof.
  revert seen. induction l as [|r l IH]; intros seen Hs Hd; simpl; [intros [= <-]; rewrite Nat.add_0_r; done|].
  destruct (normalize_one seen r) as [seen'|e] eqn:E; [|done]. simpl. apply normalize_one_ok in E as (k & -> & Hk & Hin).
  intros H. apply IH in H as (H1 & H2 & H3).
  - split_and!; [done|done|]. rewrite H3, length_app. simpl. lia.
  - apply Forall_app. split; [done|by constructor].
  - apply NoDup_app. split_and!; [done| |apply NoDup_singleton]. set_solver.
Qed.

Lemma normalize_ok requests ks :
  normalize_mtf_requests requests = Ok ks -> keys_ok ks /\ length ks = length (default [] requests).
Proof.
  unfold normalize_mtf_requests. destruct requests as [l|]; [|intros [= <-]; repeat split; [constructor|constructor|simpl; lia]].
  destruct (result_fold normalize_one [] l) as [keys|e] eqn:E; [|done]. simpl.
  destruct (16 <? length keys)%nat eqn:Hl; [done|]. intros [= <-]. apply normalize_fold_ok in E as (H1 & H2 & H3); [|constructor|constructor].
  apply Nat.ltb_ge in Hl. split; [|exact H3]. done.
Qed.

(** C25: well-formed admission.  Whatever the requests look like, what
    [normalize_mtf_requests] returns are at most sixteen distinct keys, one
    for each request in order, each with a non-empty stripped upper-case symbol
    and a canonical timeframe. *)
Theorem normalized_keys_ok requests ks :
  normalize_mtf_requests requests = Ok ks -> keys_ok ks /\ length ks = length (default [] requests).
Proof. apply normalize_ok. Qed.

(** ** Storing and reading back *)

Section Canonical.

(** A canonical name parses to itself, and is stripped and not empty. *)
Hypothesis parse_canonical : forall s tf, parse_timeframe s = Some tf -> parse_timeframe (canonical tf) = Some tf.
Hypothesis canonical_clean : forall s tf, parse_timeframe s = Some tf -> str_strip (canonical tf) = canonical tf /\ canonical tf <> "".

Lemma normalize_one_key seen k : key_ok k -> k ∉ seen -> normalize_one seen (to_dict k) = Ok (seen ++ [k]).
Proof.
  destruct k as [symbol tf]. intros (Hs & Hst & Hup & text & t & Hp & Ht) Hin. simpl in *. subst tf. unfold normalize_one. simpl.
  destruct (canonical_clean _ _ Hp) as [Hc Hne]. rewrite Hst, Hup, Hc, (parse_canonical _ _ Hp).
  apply str_truthy_spec in Hs, Hne. rewrite Hs, Hne. simpl. by rewrite bool_decide_false.
Qed.

(** Normalized keys are a fixed point. *)
Lemma normalize_keys ks : keys_ok ks -> normalize_mtf_requests (Some (map to_dict ks)) = Ok ks.
Proof.
  intros (Hk & Hd & Hl). unfold normalize_mtf_requests.
  assert (H : forall seen, NoDup (seen ++ ks) -> result_fold normalize_one seen (map to_dict ks) = Ok (seen ++ ks)).
  { clear Hl Hd. induction Hk as [|k ks Hk Hks IH]; intros seen Hd; simpl; [by rewrite app_nil_r|].
    rewrite normalize_one_key; [|done|apply NoDup_app in Hd as (_ & Hd & _); intros Hin; apply (Hd k Hin); set_solver].
    simpl. rewrite IH; by rewrite <-app_assoc. }
  rewrite (H [] Hd). simpl. apply Nat.ltb_ge in Hl. by rewrite Hl.
Qed.

(** The stored column.  What [mtf_requests_json] writes for a strategy,
    [mtf_requests_from_json] reads back as the very keys the requests were
    normalized to. *)
Theorem mtf_json_roundtrip requests text :
  mtf_requests_json requests = Ok text -> mtf_requests_from_json (Some text) = normalize_mtf_requests requests.
Proof.
  unfold mtf_requests_json. destruct (normalize_mtf_requests requests) as [ks|e] eqn:E; [|done]. simpl. intros [= <-].
  destruct (normalize_ok _ _ E) as [Hks _].
  change (match loads (dumps_compact (JArr (map key_json ks))) with
          | Err _ => Err StoredInvalid
          | Ok (JArr l) => normalize_mtf_requests (Some (map request_of_json l))
          | Ok _ => Err NotArray
          end = Ok ks).
  rewrite loads_dumps_compact.
  - rewrite map_map. rewrite (map_ext (fun k => request_of_json (key_json k)) to_dict); [by apply normalize_keys|]. by intros [].
  - cbn [plain]. apply forallb_forall. intros v (k & <- & _)%in_map_iff. reflexivity.
Qed.

End Canonical.

(** ** Stamped bars *)

Section Stamping.

Context (chart : MtfSeriesKey) (chart_bars : list RawBar) (load_bars : string -> string -> option (list RawBar)).

(** Where the bars of a key come from. *)
Definition source_of (k : MtfSeriesKey) : option (list RawBar) :=
  if bool_decide (k = chart) then Some chart_bars else load_bars (mtf_symbol k) (mtf_timeframe k).

(** A key's part of the output: every bar of its source, stamped with it. *)
Definition part_of (k : MtfSeriesKey) (part : list StampedBar) : Prop :=
  part <> [] /\ exists bs, source_of k = Some bs /\
    Forall2 (fun b s => stamp (mtf_symbol k) (mtf_timeframe k) b = Some s) bs part.

Lemma stamp_keys_ok keys asked stamped asked' out :
  stamp_keys chart chart_bars load_bars keys asked stamped = (asked', Ok out) ->
  asked' = asked ++ List.filter (fun k => negb (bool_decide (k = chart))) keys /\
  exists parts, Forall2 part_of keys parts /\ out = stamped ++ concat parts.
Proof.
  revert asked stamped. induction keys as [|k keys IH]; intros asked stamped; cbn [stamp_keys].
  { intros [= <- <-]. split; [by rewrite app_nil_r|]. exists []. split; [constructor|by rewrite app_nil_r]. }
  set (p := if bool_decide (k = chart) then _ else _).
  assert (Hp : p.1 = asked ++ (if negb (bool_decide (k = chart)) then [k] else []) /\ p.2 = source_of k).
  { unfold p, source_of. case_bool_decide; simpl; [by rewrite app_nil_r|done]. }
  destruct p as [a raw]. simpl in Hp. destruct Hp as [-> ->]. destruct (source_of k) as [bs|] eqn:Es; [|done].
  unfold confirmed_bars. destruct bs as [|b0 bs]; [done|]. destruct (mapM _ (b0 :: bs)) as [c|] eqn:Em; [|done].
  apply mapM_Some in Em. destruct c as [|c0 c]; [done|]. intros H. apply IH in H as (-> & parts & Hparts & ->).
  split; [simpl; rewrite <-app_assoc; by destruct (negb _)|]. exists ((c0 :: c) :: parts). split; [|by rewrite <-app_assoc].
  constructor; [|done]. split; [done|]. eauto.
Qed.

End Stamping.

(** Stamped series.  When the stamping succeeds, its output is, key by key in
    request order, every bar of that key's source stamped with the key's symbol
    and timeframe - none dropped, added or reordered, and no key without bars;
    the loader was asked for every key other than the chart's, once each, and
    never for the chart's own series. *)
Theorem confirmed_bars_exact chart_bars symbol timeframe requests load_bars asked out :
  confirmed_mtf_bars_for_requests chart_bars symbol timeframe requests load_bars = (asked, Ok out) ->
  exists keys tf parts,
    normalize_mtf_requests requests = Ok keys /\ parse_timeframe timeframe = Some tf /\
    let chart := mkMtfKey (str_upper (str_strip symbol)) (canonical tf) in
    asked = List.filter (fun k => negb (bool_decide (k = chart))) keys /\ NoDup asked /\
    Forall2 (part_of chart chart_bars load_bars) keys parts /\ out = concat parts.
Proof.
  unfold confirmed_mtf_bars_for_requests. destruct (normalize_mtf_requests requests) as [keys|e] eqn:E; [|done].
  destruct (parse_timeframe timeframe) as [tf|] eqn:Et; [|done]. intros H.
  apply stamp_keys_ok in H as (-> & parts & Hparts & ->). exists keys, tf, parts. split_and!; try done.
  simpl. apply NoDup_ListNoDup, List.NoDup_filter, NoDup_ListNoDup.
  by destruct (normalize_ok _ _ E) as [(_ & H & _) _].
Qed.

(** ** Limits *)

(** Whether a bar has closed is not looked at: an open bar that carries its
    planned close time is stamped as confirmed. *)
Theorem open_bar_is_stamped b symbol timeframe tc :
  rb_time_close b = Some tc ->
  exists s, confirmed_bars [b] symbol timeframe = Some [s] /\ sb_time s = rb_time b /\ sb_time_close s = tc.
Proof. intros H. unfold confirmed_bars. simpl. unfold stamp. rewrite H. simpl. eauto. Qed.

End Mtf.

(** ** Witnesses *)

Definition mtf_parse (s : string) : option Timeframe :=
  if bool_decide (s = "1h") || bool_decide (s = "60") then Some (mkTimeframe "1h" (Some 3600000%positive))
  else if bool_decide (s = "1d") || bool_decide (s = "D") then Some (mkTimeframe "1d" (Some 86400000%positive)) else None.

Definition mtf_demo : list Request := [mkRequest " btcusdt " "60"; mkRequest "ETHUSDT" " D"].

Definition mtf_bar (t : Z) : RawBar := mkRawBar t (Some (t + 3600000)) f_zero f_zero f_zero f_zero f_zero true.

Lemma normalized_keys_ok_witness :
  normalize_mtf_requests mtf_parse (Some mtf_demo) = Ok [mkMtfKey "BTCUSDT" "1h"; mkMtfKey "ETHUSDT" "1d"] /\
  keys_ok mtf_parse [mkMtfKey "BTCUSDT" "1h"; mkMtfKey "ETHUSDT" "1d"].
Proof.
  assert (E : normalize_mtf_requests mtf_parse (Some mtf_demo) = Ok [mkMtfKey "BTCUSDT" "1h"; mkMtfKey "ETHUSDT" "1d"]) by reflexivity.
  split; [exact E|]. exact (proj1 (normalized_keys_ok mtf_parse (Some mtf_demo) _ E)).
Defined.

Lemma mtf_parse_canonical s tf : mtf_parse s = Some tf -> mtf_parse (canonical tf) = Some tf.
Proof. unfold mtf_parse. repeat case_bool_decide; simpl; intros; by simplify_eq. Qed.

Lemma mtf_parse_clean s tf : mtf_parse s = Some tf -> str_strip (canonical tf) = canonical tf /\ canonical tf <> "".
Proof. unfold mtf_parse. repeat case_bool_decide; simpl; intros; by simplify_eq. Qed.

Lemma mtf_json_roundtrip_witness :
  exists text, mtf_requests_json mtf_parse (Some mtf_demo) = Ok text /\
    mtf_requests_from_json mtf_parse (fun _ => "") (Some text) = Ok [mkMtfKey "BTCUSDT" "1h"; mkMtfKey "ETHUSDT" "1d"].
Proof.
  destruct (mtf_requests_json mtf_parse (Some mtf_demo)) as [text|e] eqn:E; [|vm_compute in E; discriminate].
  exists text. split; [reflexivity|].
  rewrite (mtf_json_roundtrip mtf_parse (fun _ => "") mtf_parse_canonical mtf_parse_clean (Some mtf_demo) text E). reflexivity.
Defined.

Lemma confirmed_bars_exact_witness :
  exists asked out keys tf parts,
    confirmed_mtf_bars_for_requests mtf_parse [mtf_bar 0] "ethusdt" "1d" (Some mtf_demo) (fun _ _ => Some [mtf_bar 0; mtf_bar 3600000])
      = (asked, Ok out) /\ asked = [mkMtfKey "BTCUSDT" "1h"] /\
    normalize_mtf_requests mtf_parse (Some mtf_demo) = Ok keys /\ mtf_parse "1d" = Some tf /\ out = concat parts.
Proof.
  destruct (confirmed_mtf_bars_for_requests mtf_parse [mtf_bar 0] "ethusdt" "1d" (Some mtf_demo)
              (fun _ _ => Some [mtf_bar 0; mtf_bar 3600000])) as [asked [out|e]] eqn:E; [|vm_compute in E; discriminate].
  destruct (confirmed_bars_exact mtf_parse _ _ _ _ _ _ _ E) as (keys & tf & parts & H1 & H2 & Ha & _ & _ & H3).
  exists asked, out, keys, tf, parts. split_and!; [reflexivity| |exact H1|exact H2|exact H3].
  vm_compute in E. injection E as <- _. reflexivity.
Defined.
