(* ===== verification/Registry.v ===== *)
(** The strategy registry: [openpine/registry/strategies.py].

    Every process has its own connection to one SQLite file.  An operation is
    one locked method call of one process; the methods that begin their
    transaction with BEGIN IMMEDIATE roll it back on any exception.  A statement
    that fails outside of such a method leaves the transaction that [sqlite3]
    opened for it open: the connection then keeps the write lock, which is the
    field [open_tx].  Reads reload the table first, so the in-memory copy is not
    modelled apart from it.  The hash of a strategy identifier is a parameter. *)

From S2P Require Import Prelude PyFloat Scheduler Coverage Json Mtf DataOrchestrator Fanout PeriodicFetcher.

(** ** Data *)

(** A row of [strategy_instances] (the columns the class reads). *)
Record Strategy := mkStrat {
  strategy_id : string;
  st_name : string;
  pine_id : string;
  artifact_id : string;
  params_json : string;
  params_hash : string;
  st_symbol : string;
  st_timeframe : string;
  st_exchange : string;
  st_market_type : string;
  st_price_type : string;
  st_mode : string;
  enabled : bool;
  archived : bool;
  st_status : string;
  created_at : Z;
  updated_at : Z;
  semantic_profile : option string;
  mtf_series_json : string
}.

(** The row of the worker's circuit. *)
Record Circuit := mkCircuit { is_open : bool; circuit_reason : option string; circuit_updated : Z }.

(** [related]: the rows of other tables that belong to a strategy, by table. *)
Record DB := mkDB { strategies : list Strategy; circuit : option Circuit; related : list (string * string) }.

Record RegWorld := mkRegWorld { reg_db : DB; open_tx : option nat }.

Inductive reg_error :=
| NotFound
| UniqueViolation
| ArchivedActivation
| CircuitOpen
| UnknownFields
| DatabaseLocked
| NestedTransaction
| RemoveFailed
| BadSeries (e : mtf_error).

(** The optional fields of a PATCH. *)
Record Patch := mkPatch {
  p_enabled : option bool;
  p_archived : option bool;
  p_mode : option string;
  p_status : option string;
  p_name : option string;
  p_symbol : option string;
  p_timeframe : option string;
  p_exchange : option string;
  p_market_type : option string;
  p_params_json : option string;
  p_params_hash : option string;
  p_profile : option string;
  p_unknown : bool
}.

Definition with_exec (e a : bool) (status mode : string) (now : Z) (s : Strategy) : Strategy :=
  mkStrat (strategy_id s) (st_name s) (pine_id s) (artifact_id s) (params_json s) (params_hash s) (st_symbol s) (st_timeframe s)
    (st_exchange s) (st_market_type s) (st_price_type s) mode e a status (created_at s) now (semantic_profile s) (mtf_series_json s).

Definition with_profile (p : option string) (now : Z) (s : Strategy) : Strategy :=
  mkStrat (strategy_id s) (st_name s) (pine_id s) (artifact_id s) (params_json s) (params_hash s) (st_symbol s) (st_timeframe s)
    (st_exchange s) (st_market_type s) (st_price_type s) (st_mode s) (enabled s) (archived s) (st_status s) (created_at s) now p
    (mtf_series_json s).

Definition with_mtf (text : string) (now : Z) (s : Strategy) : Strategy :=
  mkStrat (strategy_id s) (st_name s) (pine_id s) (artifact_id s) (params_json s) (params_hash s) (st_symbol s) (st_timeframe s)
    (st_exchange s) (st_market_type s) (st_price_type s) (st_mode s) (enabled s) (archived s) (st_status s) (created_at s) now
    (semantic_profile s) text.

(** ** Statements *)

Definition find_strategy (d : DB) (id : string) : option Strategy :=
  List.find (fun s => bool_decide (strategy_id s = id)) (strategies d).

(** UPDATE ... WHERE strategy_id = ?. *)
Definition update_where (p : Strategy -> bool) (f : Strategy -> Strategy) (d : DB) : DB :=
  mkDB (map (fun s => if p s then f s else s) (strategies d)) (circuit d) (related d).

Definition has_id (id : string) (s : Strategy) : bool := bool_decide (strategy_id s = id).

(** INSERT under the UNIQUE columns. *)
Definition insert_row (d : DB) (s : Strategy) : option DB :=
  if bool_decide (strategy_id s ∈ strategy_id <$> strategies d) || bool_decide (st_name s ∈ st_name <$> strategies d) then None
  else Some (mkDB (strategies d ++ [s]) (circuit d) (related d)).

Definition circuit_open (d : DB) : bool := match circuit d with Some c => is_open c | None => false end.

Definition set_circuit (v : Circuit) (d : DB) : DB :=
  mkDB (strategies d) (match circuit d with Some _ => Some v | None => None end) (related d).

(** ** Transactions *)

(** A method that begins with BEGIN IMMEDIATE and rolls back on an exception. *)
Definition immediate {A} (pid : nat) (body : DB -> result reg_error (DB * A)) (w : RegWorld) : RegWorld * result reg_error A :=
  match open_tx w with
  | Some p => if bool_decide (p = pid) then (mkRegWorld (reg_db w) None, Err NestedTransaction) else (w, Err DatabaseLocked)
  | None =>
      match body (reg_db w) with
      | Ok (d, a) => (mkRegWorld d None, Ok a)
      | Err e => (w, Err e)
      end
  end.

(** A method that reads, then executes one statement and commits: an exception
    of the statement leaves the transaction open. *)
Definition autobegin {A} (pid : nat) (read : DB -> result reg_error unit) (body : DB -> result reg_error (DB * A)) (w : RegWorld)
    : RegWorld * result reg_error A :=
  match read (reg_db w) with
  | Err e => (w, Err e)
  | Ok _ =>
      match open_tx w with
      | Some p => if bool_decide (p = pid) then
                    match body (reg_db w) with
                    | Ok (d, a) => (mkRegWorld d None, Ok a)
                    | Err e => (w, Err e)
                    end
                  else (w, Err DatabaseLocked)
      | None =>
          match body (reg_db w) with
          | Ok (d, a) => (mkRegWorld d None, Ok a)
          | Err e => (mkRegWorld (reg_db w) (Some pid), Err e)
          end
      end
  end.

Definition exists_strategy (id : string) (d : DB) : result reg_error unit :=
  match find_strategy d id with Some _ => Ok tt | None => Err NotFound end.

Section Registry.

Variable make_id : string -> string -> Z -> string.
Variable parse_timeframe : string -> option Timeframe.

(** ** Methods *)

(** The INSERT that [create_strategy] and [register_strategy] share, and the two. *)
Definition insert_instance (pid : nat) (name pine artifact symbol tf exchange market price params hash mode : string)
    (profile : option string) (now : Z) : RegWorld -> RegWorld * result reg_error string :=
  let id := make_id artifact hash now in
  autobegin pid (fun _ => Ok tt) (fun d =>
    match insert_row d (mkStrat id name pine artifact params hash symbol tf exchange market price mode false false "pending" now now
                          profile "[]") with
    | Some d' => Ok (d', id)
    | None => Err UniqueViolation
    end).

Definition create_strategy (pid : nat) (name pine artifact symbol tf exchange market params hash mode : string)
    (profile : option string) (now : Z) : RegWorld -> RegWorld * result reg_error string :=
  insert_instance pid name pine artifact symbol tf exchange market "trade" params hash mode profile now.

Definition register_strategy (pid : nat) (name : option string) (pine artifact symbol tf exchange market price params hash mode : string)
    (now : Z) : RegWorld -> RegWorld * result reg_error string :=
  insert_instance pid (str_or name (symbol +:+ "_" +:+ tf +:+ "_" +:+ String.substring 0 6 hash)) pine artifact symbol tf exchange market
    price params hash mode None now.

(** [update_status], [update_mode], [set_semantic_profile], [set_mtf_series]. *)
Definition update_status (pid : nat) (id status : string) (now : Z) : RegWorld -> RegWorld * result reg_error unit :=
  autobegin pid (exists_strategy id) (fun d =>
    Ok (update_where (has_id id) (fun s => with_exec (enabled s) (archived s) status (st_mode s) now s) d, tt)).

Definition update_mode (pid : nat) (id mode : string) (now : Z) : RegWorld -> RegWorld * result reg_error unit :=
  autobegin pid (exists_strategy id) (fun d =>
    Ok (update_where (has_id id) (fun s => with_exec (enabled s) (archived s) (st_status s) mode now s) d, tt)).

Definition set_semantic_profile (pid : nat) (id profile : string) (now : Z) : RegWorld -> RegWorld * result reg_error unit :=
  autobegin pid (exists_strategy id) (fun d => Ok (update_where (has_id id) (with_profile (Some profile) now) d, tt)).

Definition set_mtf_series (pid : nat) (id : string) (series : list Request) (now : Z) : RegWorld -> RegWorld * result reg_error unit :=
  fun w =>
  match exists_strategy id (reg_db w), mtf_requests_json parse_timeframe (Some series) with
  | Err e, _ => (w, Err e)
  | _, Err e => (w, Err (BadSeries e))
  | Ok _, Ok text => autobegin pid (fun _ => Ok tt) (fun d => Ok (update_where (has_id id) (with_mtf text now) d, tt)) w
  end.

(** [_strategy_execution_state_locked], then the guards of an activation. *)
Definition guarded {A} (d : DB) (id : string) (k : Strategy -> result reg_error A) : result reg_error A :=
  match find_strategy d id with None => Err NotFound | Some s => k s end.

Definition check_activation (d : DB) (wanted arch : bool) : result reg_error unit :=
  if wanted && arch then Err ArchivedActivation else if wanted && circuit_open d then Err CircuitOpen else Ok tt.

Definition set_enabled (pid : nat) (id : string) (on : bool) (now : Z) : RegWorld -> RegWorld * result reg_error unit :=
  immediate pid (fun d => guarded d id (fun s =>
    let! _ := check_activation d on (archived s) in
    Ok (update_where (has_id id) (fun s => with_exec on (archived s) (st_status s) (st_mode s) now s) d, tt))).

Definition activate_strategy (pid : nat) (id : string) (status mode : option string) (now : Z)
    : RegWorld -> RegWorld * result reg_error unit :=
  immediate pid (fun d => guarded d id (fun s =>
    let! _ := check_activation d true (archived s) in
    Ok (update_where (has_id id) (fun s' => with_exec true (archived s') (str_or status (st_status s)) (str_or mode (st_mode s)) now s') d,
        tt))).

Definition transition_strategy (pid : nat) (id : string) (on : option bool) (status mode : option string) (now : Z)
    : RegWorld -> RegWorld * result reg_error unit :=
  immediate pid (fun d => guarded d id (fun s =>
    let next := default (enabled s) on in
    let! _ := check_activation d next (archived s) in
    Ok (update_where (has_id id)
          (fun s' => with_exec next (archived s') (default (st_status s) status) (default (st_mode s) mode) now s') d, tt))).

(** [patch_strategy_atomic]: the guards, then one UPDATE of the given columns. *)
Definition apply_patch (p : Patch) (archive : bool) (cur_status : string) (now : Z) (s : Strategy) : Strategy :=
  let status := if archive && existsb (String.eqb (default cur_status (p_status p))) ["running"; "pending"]
                then Some "paused" else p_status p in
  let on := if archive then Some false else p_enabled p in
  mkStrat (strategy_id s) (default (st_name s) (p_name p)) (pine_id s) (artifact_id s) (default (params_json s) (p_params_json p))
    (default (params_hash s) (p_params_hash p)) (default (st_symbol s) (p_symbol p)) (default (st_timeframe s) (p_timeframe p))
    (default (st_exchange s) (p_exchange p)) (default (st_market_type s) (p_market_type p)) (st_price_type s)
    (default (st_mode s) (p_mode p)) (default (enabled s) on) (default (archived s) (p_archived p)) (default (st_status s) status)
    (created_at s) now (match p_profile p with Some v => Some v | None => semantic_profile s end) (mtf_series_json s).

Definition empty_patch (p : Patch) : bool :=
  match p with
  | mkPatch None None None None None None None None None None None None _ => true
  | _ => false
  end.

(** The name column is UNIQUE: another strategy's name is refused. *)
Definition name_taken (d : DB) (id : string) (name : option string) : bool :=
  match name with
  | None => false
  | Some n => existsb (fun s => negb (has_id id s) && bool_decide (st_name s = n)) (strategies d)
  end.

Definition patch_strategy_atomic (pid : nat) (id : string) (p : Patch) (now : Z) : RegWorld -> RegWorld * result reg_error unit :=
  fun w =>
  if p_unknown p then (w, Err UnknownFields)
  else if empty_patch p then (w, Ok tt)
  else
    immediate pid (fun d => guarded d id (fun s =>
      let archive := default false (p_archived p) in
      let next_archived := default (archived s) (p_archived p) in
      if default false (p_enabled p) && next_archived then Err ArchivedActivation
      else
        let next := if archive then false else default (enabled s) (p_enabled p) in
        if next && circuit_open d then Err CircuitOpen
        else if name_taken d id (p_name p) then Err UniqueViolation
        else Ok (update_where (has_id id) (apply_patch p archive (st_status s) now) d, tt))) w.

(** [set_archived]. *)
Definition set_archived (pid : nat) (id : string) (on : bool) (now : Z) : RegWorld -> RegWorld * result reg_error unit :=
  immediate pid (fun d => guarded d id (fun s =>
    let e := if on then false else enabled s in
    let status := if on && existsb (String.eqb (st_status s)) ["running"; "pending"] then "paused" else st_status s in
    Ok (update_where (has_id id) (fun s' => with_exec e on status (st_mode s') now s') d, tt))).

(** [trip_worker_circuit], [pause_all_enabled], [reset_worker_circuit]. *)
Definition pause_enabled (now : Z) : DB -> DB :=
  update_where enabled (fun s => with_exec false (archived s) "paused" (st_mode s) now s).

Definition count_enabled (d : DB) : Z := Z.of_nat (length (List.filter enabled (strategies d))).

Definition trip_worker_circuit (pid : nat) (reason : string) (now : Z) : RegWorld -> RegWorld * result reg_error Z :=
  immediate pid (fun d => Ok (pause_enabled now (set_circuit (mkCircuit true (Some reason) now) d), count_enabled d)).

Definition pause_all_enabled (pid : nat) (now : Z) : RegWorld -> RegWorld * result reg_error Z :=
  autobegin pid (fun _ => Ok tt) (fun d => Ok (pause_enabled now d, count_enabled d)).

Definition reset_worker_circuit (pid : nat) (now : Z) : RegWorld -> RegWorld * result reg_error unit :=
  autobegin pid (fun _ => Ok tt) (fun d => Ok (set_circuit (mkCircuit false None now) d, tt)).

(** [delete_strategy]: the rows of the strategy everywhere, then its directory,
    then its own row; [dir_fails]: the directory cannot be removed. *)
Definition deleted (id : string) (d : DB) : DB :=
  mkDB (List.filter (fun s => negb (has_id id s)) (strategies d)) (circuit d) (List.filter (fun r => negb (bool_decide (r.2 = id))) (related d)).

Definition delete_strategy (pid : nat) (id : string) (dir_fails : bool) : RegWorld -> RegWorld * result reg_error unit :=
  fun w =>
  match exists_strategy id (reg_db w) with
  | Err e => (w, Err e)
  | Ok _ =>
      if match open_tx w with Some p => negb (bool_decide (p = pid)) | None => false end then (w, Err DatabaseLocked)
      else if dir_fails then (mkRegWorld (reg_db w) None, Err RemoveFailed)
      else (mkRegWorld (deleted id (reg_db w)) None, Ok tt)
  end.

(** [get_strategy], [list_strategies], [worker_circuit_state]. *)
Definition get_strategy (w : RegWorld) (id : string) : result reg_error Strategy :=
  match find_strategy (reg_db w) id with Some s => Ok s | None => Err NotFound end.

Definition list_strategies (w : RegWorld) (status : option string) : list Strategy :=
  match status with
  | None => strategies (reg_db w)
  | Some st => List.filter (fun s => bool_decide (st_status s = st)) (strategies (reg_db w))
  end.

Definition worker_circuit_state (w : RegWorld) : bool * option string * option Z :=
  match circuit (reg_db w) with
  | None => (false, None, None)
  | Some c => (is_open c, circuit_reason c, Some (circuit_updated c))
  end.

(** [_init_db] of an empty file. *)
Definition registry_init (now : Z) : RegWorld := mkRegWorld (mkDB [] (Some (mkCircuit false None now)) []) None.

(** ** Every operation keeps the table's invariant *)

Inductive rop :=
| RCreate (name pine artifact symbol tf exchange market params hash mode : string) (profile : option string)
| RRegister (name : option string) (pine artifact symbol tf exchange market price params hash mode : string)
| RStatus (id status : string)
| RMode (id mode : string)
| RProfile (id profile : string)
| RMtf (id : string) (series : list Request)
| REnable (id : string) (on : bool)
| RActivate (id : string) (status mode : option string)
| RTransition (id : string) (on : option bool) (status mode : option string)
| RPatch (id : string) (p : Patch)
| RArchive (id : string) (on : bool)
| RTrip (reason : string)
| RPauseAll
| RReset
| RDelete (id : string) (dir_fails : bool).

(** A call by a process at a time. *)
Definition call : Type := nat * Z * rop.

Definition rexec (w : RegWorld) (c : call) : RegWorld :=
  let '(pid, now, op) := c in
  match op with
  | RCreate name pine artifact symbol tf exchange market params hash mode profile =>
      (create_strategy pid name pine artifact symbol tf exchange market params hash mode profile now w).1
  | RRegister name pine artifact symbol tf exchange market price params hash mode =>
      (register_strategy pid name pine artifact symbol tf exchange market price params hash mode now w).1
  | RStatus id status => (update_status pid id status now w).1
  | RMode id mode => (update_mode pid id mode now w).1
  | RProfile id profile => (set_semantic_profile pid id profile now w).1
  | RMtf id series => (set_mtf_series pid id series now w).1
  | REnable id on => (set_enabled pid id on now w).1
  | RActivate id status mode => (activate_strategy pid id status mode now w).1
  | RTransition id on status mode => (transition_strategy pid id on status mode now w).1
  | RPatch id p => (patch_strategy_atomic pid id p now w).1
  | RArchive id on => (set_archived pid id on now w).1
  | RTrip reason => (trip_worker_circuit pid reason now w).1
  | RPauseAll => (pause_all_enabled pid now w).1
  | RReset => (reset_worker_circuit pid now w).1
  | RDelete id dir_fails => (delete_strategy pid id dir_fails w).1
  end.

(** Unique identifiers and names, nothing archived is enabled, and nothing at
    all is enabled while the circuit is open. *)
Definition reg_ok (d : DB) : Prop :=
  NoDup (strategy_id <$> strategies d) /\ NoDup (st_name <$> strategies d) /\
  (forall s, s ∈ strategies d -> archived s = true -> enabled s = false) /\
  (circuit_open d = true -> forall s, s ∈ strategies d -> enabled s = false).

(** How a write changes the database: its body is a step that keeps [R]. *)
Lemma immediate_keeps {A} (R : DB -> DB -> Prop) pid (body : DB -> result reg_error (DB * A)) w :
  (forall d, R d d) -> (forall d' a, body (reg_db w) = Ok (d', a) -> R (reg_db w) d') -> R (reg_db w) (reg_db (immediate pid body w).1).
Proof.
  intros Hr Hb. unfold immediate. destruct (open_tx w) as [p|]; [by case_bool_decide; simpl|].
  destruct (body (reg_db w)) as [[d a]|e] eqn:E; [|done]. simpl. by eapply Hb.
Qed.

Lemma autobegin_keeps {A} (R : DB -> DB -> Prop) pid read (body : DB -> result reg_error (DB * A)) w :
  (forall d, R d d) -> (forall d' a, body (reg_db w) = Ok (d', a) -> R (reg_db w) d') -> R (reg_db w) (reg_db (autobegin pid read body w).1).
Proof.
  intros Hr Hb. unfold autobegin. destruct (read (reg_db w)); [|done]. destruct (open_tx w) as [p|]; [case_bool_decide|];
    destruct (body (reg_db w)) as [[d a']|e] eqn:E; simpl; try done; by eapply Hb.
Qed.

Lemma find_strategy_Some d id s : find_strategy d id = Some s -> s ∈ strategies d /\ strategy_id s = id.
Proof.
  unfold find_strategy. intros [H1 H2]%List.find_some. split; [by apply list_elem_of_In|]. by apply bool_decide_eq_true in H2.
Qed.

(** The rows after an UPDATE of one strategy. *)
Lemma update_id_elem d id s f x :
  NoDup (strategy_id <$> strategies d) -> find_strategy d id = Some s ->
  x ∈ strategies (update_where (has_id id) f d) -> x = f s \/ (x ∈ strategies d /\ strategy_id x <> id).
Proof.
  intros Hd [Hs Hid]%find_strategy_Some. unfold update_where. simpl. rewrite list_elem_of_In, in_map_iff.
  intros (y & <- & Hy%list_elem_of_In). unfold has_id. case_bool_decide as E; [|by right]. left. f_equal.
  apply list_elem_of_lookup in Hs as [i Hi], Hy as [j Hj].
  assert (i = j) as ->; [|congruence]. eapply (NoDup_lookup _ i j (strategy_id s) Hd); rewrite list_lookup_fmap; [by rewrite Hi|].
  rewrite Hj. simpl. congruence.
Qed.

Lemma update_where_fmap {B} (g : Strategy -> B) p f d :
  (forall s, g (f s) = g s) -> g <$> strategies (update_where p f d) = g <$> strategies d.
Proof. intros H. simpl. induction (strategies d) as [|s l IH]; simpl; [done|]. f_equal; [by destruct (p s)|exact IH]. Qed.

(** An UPDATE of one strategy that keeps its names. *)
Lemma update_id_ok d id s f :
  reg_ok d -> find_strategy d id = Some s -> (forall x, strategy_id (f x) = strategy_id x) -> (forall x, st_name (f x) = st_name x) ->
  (archived (f s) = true -> enabled (f s) = false) -> (circuit_open d = true -> enabled (f s) = false) ->
  reg_ok (update_where (has_id id) f d).
Proof.
  intros (H1 & H2 & H3 & H4) Hf Hid Hname Ha Hc. split_and!.
  - by rewrite update_where_fmap.
  - by rewrite update_where_fmap.
  - intros x [->|[Hx _]]%(update_id_elem _ _ s _ _ H1 Hf); auto.
  - intros Ho x [->|[Hx _]]%(update_id_elem _ _ s _ _ H1 Hf); [by apply Hc|by apply H4].
Qed.

(** An UPDATE that leaves names and flags alone. *)
Lemma update_any_ok d p f :
  reg_ok d -> (forall x, strategy_id (f x) = strategy_id x /\ st_name (f x) = st_name x /\ enabled (f x) = enabled x /\ archived (f x) = archived x) ->
  reg_ok (update_where p f d).
Proof.
  intros (H1 & H2 & H3 & H4) Hf. split_and!; [rewrite update_where_fmap; [done|apply Hf]..| |].
  - intros x Hx. unfold update_where in Hx. simpl in Hx. apply list_elem_of_In, in_map_iff in Hx as (y & <- & Hy%list_elem_of_In).
    destruct (p y); [|by apply H3]. destruct (Hf y) as (_ & _ & -> & ->). by apply H3.
  - intros Ho x Hx. unfold update_where in Hx. simpl in Hx. apply list_elem_of_In, in_map_iff in Hx as (y & <- & Hy%list_elem_of_In).
    destruct (p y); [|by apply H4]. destruct (Hf y) as (_ & _ & -> & _). by apply H4.
Qed.

Lemma insert_ok d s d' : reg_ok d -> enabled s = false -> insert_row d s = Some d' -> reg_ok d'.
Proof.
  intros (H1 & H2 & H3 & H4) He. unfold insert_row. destruct (_ || _) eqn:E; [done|]. intros [= <-].
  apply orb_false_iff in E as [E1%bool_decide_eq_false E2%bool_decide_eq_false]. split_and!; simpl.
  - rewrite fmap_app. apply NoDup_app. split_and!; [done| |apply NoDup_singleton]. intros x Hx Hs. set_solver.
  - rewrite fmap_app. apply NoDup_app. split_and!; [done| |apply NoDup_singleton]. intros x Hx Hs. set_solver.
  - intros x [Hx| ->%list_elem_of_singleton]%elem_of_app; auto.
  - intros Ho x [Hx| ->%list_elem_of_singleton]%elem_of_app; [by apply H4|done].
Qed.

(** After [pause_enabled] nothing is enabled. *)
Lemma pause_none now d s : s ∈ strategies (pause_enabled now d) -> enabled s = false.
Proof.
  unfold pause_enabled, update_where. simpl. intros (y & <- & Hy)%list_elem_of_In%in_map_iff. by destruct (enabled y) eqn:E.
Qed.

Lemma pause_ok now d : reg_ok d -> forall c, reg_ok (mkDB (strategies (pause_enabled now d)) c (related d)).
Proof.
  intros (H1 & H2 & _) c. unfold reg_ok. cbn [strategies]. split_and!.
  - unfold pause_enabled. by rewrite update_where_fmap.
  - unfold pause_enabled. by rewrite update_where_fmap.
  - intros x Hx _. by apply (pause_none now d).
  - intros _ x Hx. by apply (pause_none now d).
Qed.

Lemma filter_sublist {A} (p : A -> bool) (l : list A) : List.filter p l `sublist_of` l.
Proof. induction l as [|x l IH]; simpl; [constructor|]. destruct (p x); [by apply sublist_skip|by apply sublist_cons]. Qed.

Lemma deleted_ok id d : reg_ok d -> reg_ok (deleted id d).
Proof.
  intros (H1 & H2 & H3 & H4). unfold deleted.
  pose proof (filter_sublist (fun s => negb (has_id id s)) (strategies d)) as Hsub.
  assert (Hin : forall s, s ∈ List.filter (fun s => negb (has_id id s)) (strategies d) -> s ∈ strategies d).
  { intros s Hs. apply list_elem_of_In, filter_In in Hs as [Hs _]. by apply list_elem_of_In. }
  split_and!; simpl.
  - eapply sublist_NoDup; [exact H1|]. by apply fmap_sublist.
  - eapply sublist_NoDup; [exact H2|]. by apply fmap_sublist.
  - intros s Hs. apply H3. auto.
  - intros Ho s Hs. apply H4; auto.
Qed.

Lemma check_activation_ok d wanted arch : check_activation d wanted arch = Ok tt ->
  (arch = true -> wanted = false) /\ (circuit_open d = true -> wanted = false).
Proof. unfold check_activation. destruct wanted, arch, (circuit_open d); done. Qed.

(** A PATCH of one strategy: its name may change, to one that is free. *)
Lemma patch_ok d id s p archive now :
  reg_ok d -> find_strategy d id = Some s -> archive = default false (p_archived p) -> name_taken d id (p_name p) = false ->
  (default false (p_enabled p) && default (archived s) (p_archived p)) = false ->
  ((if archive then false else default (enabled s) (p_enabled p)) && circuit_open d) = false ->
  reg_ok (update_where (has_id id) (apply_patch p archive (st_status s) now) d).
Proof.
  intros (H1 & H2 & H3 & H4) Hf -> Hn Ha Hc. set (f := apply_patch _ _ _ _).
  assert (Hfe : enabled (f s) = if default false (p_archived p) then false else default (enabled s) (p_enabled p)).
  { unfold f, apply_patch. simpl. by destruct (default false (p_archived p)). }
  split_and!.
  - by rewrite update_where_fmap.
  - destruct (find_strategy_Some _ _ _ Hf) as [Hs Hid].
    assert (Hother : forall x, x ∈ strategies d -> strategy_id x <> id -> st_name (f s) <> st_name x \/ p_name p = None).
    { intros x Hx Hxid. destruct (p_name p) as [n|] eqn:En; [left|by right]. unfold f, apply_patch. simpl. rewrite En. simpl. intros ->.
      unfold name_taken in Hn. assert (Hex : existsb (fun s0 => negb (has_id id s0) && bool_decide (st_name s0 = st_name x)) (strategies d) = true).
      { apply existsb_exists. exists x. split; [by apply list_elem_of_In|]. unfold has_id. by rewrite bool_decide_false, bool_decide_true. }
      congruence. }
    destruct (p_name p) as [n|] eqn:En.
    2:{ rewrite (update_where_fmap st_name (has_id id) f d); [done|]. intros x. unfold f, apply_patch. simpl. by rewrite En. }
    assert (Hname : forall x y, st_name (f x) = st_name (f y)) by (intros x y; unfold f, apply_patch; simpl; by rewrite En).
    apply NoDup_alt. intros i j nm Hi Hj. rewrite list_lookup_fmap in Hi, Hj. unfold update_where in Hi, Hj. simpl in Hi, Hj.
    change (map ?g ?l) with (g <$> l) in Hi, Hj. rewrite list_lookup_fmap in Hi, Hj.
    destruct (strategies d !! i) as [y|] eqn:Ey, (strategies d !! j) as [z|] eqn:Ez; try done. simpl in Hi, Hj.
    injection Hi as Hi. injection Hj as Hj. unfold has_id in Hi, Hj.
    destruct (decide (strategy_id y = id)) as [Dy|Dy]; [rewrite bool_decide_true in Hi by done|rewrite bool_decide_false in Hi by done];
      (destruct (decide (strategy_id z = id)) as [Dz|Dz]; [rewrite bool_decide_true in Hj by done|rewrite bool_decide_false in Hj by done]).
    + rewrite NoDup_alt in H1. apply (H1 i j id); rewrite list_lookup_fmap, ?Ey, ?Ez; simpl; congruence.
    + destruct (Hother z ltac:(by eapply list_elem_of_lookup_2) ltac:(congruence)) as [Hne|]; [|congruence]. destruct Hne. rewrite (Hname s y). congruence.
    + destruct (Hother y ltac:(by eapply list_elem_of_lookup_2) ltac:(congruence)) as [Hne|]; [|congruence]. destruct Hne. rewrite (Hname s z). congruence.
    + rewrite NoDup_alt in H2. apply (H2 i j nm); rewrite list_lookup_fmap, ?Ey, ?Ez; simpl; congruence.
  - intros x [->|[Hx _]]%(update_id_elem _ _ s _ _ H1 Hf); [|by apply H3]. rewrite Hfe. intros Harch.
    unfold f, apply_patch in Harch. simpl in Harch. destruct (p_archived p) as [[]|]; simpl in *; try done.
    destruct (find_strategy_Some _ _ _ Hf) as [Hs _]. rewrite Harch, andb_true_r in Ha.
    destruct (p_enabled p) as [[]|]; simpl in *; try done. by apply H3.
  - intros Ho x [->|[Hx _]]%(update_id_elem _ _ s _ _ H1 Hf); [|by apply H4]. rewrite Hfe. 
    change (circuit_open (update_where _ _ d)) with (circuit_open d) in Ho. by rewrite Ho, andb_true_r in Hc.
Qed.

Definition keeps_ok (d d' : DB) : Prop := reg_ok d -> reg_ok d'.

Lemma keeps_ok_refl d : keeps_ok d d.
Proof. by intros H. Qed.

(** The step of an activation: the guards, then the flags of one row. *)
Lemma activation_ok d id (next : Strategy -> bool) (st md : Strategy -> Strategy -> string) now d' a :
  guarded d id (fun s => let! _ := check_activation d (next s) (archived s) in
    Ok (update_where (has_id id) (fun s' => with_exec (next s) (archived s') (st s s') (md s s') now s') d, tt)) = Ok (d', a) ->
  keeps_ok d d'.
Proof.
  unfold guarded. destruct (find_strategy d id) as [s|] eqn:Hf; [|done].
  destruct (check_activation d (next s) (archived s)) as [[]|e] eqn:Hc; [|done]. simpl. intros [= <- _] Hok.
  apply check_activation_ok in Hc as [Ha Hc]. eapply update_id_ok; done.
Qed.

Lemma rexec_keeps w c : keeps_ok (reg_db w) (reg_db (rexec w c)).
Proof.
  destruct c as [[pid now] op]. destruct op; simpl; unfold create_strategy, register_strategy;
    try (unfold insert_instance, update_status, update_mode, set_semantic_profile, pause_all_enabled, reset_worker_circuit;
         apply autobegin_keeps; [apply keeps_ok_refl|]; intros d' a).
  - destruct (insert_row _ _) as [d1|] eqn:E; [|done]. intros [= <- _] Hok. by eapply insert_ok; [exact Hok| |exact E].
  - destruct (insert_row _ _) as [d1|] eqn:E; [|done]. intros [= <- _] Hok. by eapply insert_ok; [exact Hok| |exact E].
  - intros [= <- _] Hok. by apply update_any_ok.
  - intros [= <- _] Hok. by apply update_any_ok.
  - intros [= <- _] Hok. by apply update_any_ok.
  - unfold set_mtf_series. destruct (exists_strategy _ _) as [u|]; [|apply keeps_ok_refl].
    destruct (mtf_requests_json _ _) as [text|]; [|apply keeps_ok_refl].
    apply autobegin_keeps; [apply keeps_ok_refl|]. intros d' a [= <- _] Hok. by apply update_any_ok.
  - unfold set_enabled, activate_strategy, transition_strategy, set_archived, trip_worker_circuit. apply immediate_keeps; [apply keeps_ok_refl|]. intros d' a E. exact (activation_ok _ _ (fun _ => on) _ _ _ _ _ E).
  - unfold set_enabled, activate_strategy, transition_strategy, set_archived, trip_worker_circuit. apply immediate_keeps; [apply keeps_ok_refl|]. intros d' a E. exact (activation_ok _ _ (fun _ => true) _ _ _ _ _ E).
  - unfold set_enabled, activate_strategy, transition_strategy, set_archived, trip_worker_circuit. apply immediate_keeps; [apply keeps_ok_refl|]. intros d' a E. exact (activation_ok _ _ (fun s => default (enabled s) on) _ _ _ _ _ E).
  - unfold patch_strategy_atomic. destruct (p_unknown p); [apply keeps_ok_refl|]. destruct (empty_patch p); [apply keeps_ok_refl|].
    apply immediate_keeps; [apply keeps_ok_refl|]. intros d' a. unfold guarded. destruct (find_strategy _ _) as [s|] eqn:Hf; [|done].
    destruct (default false (p_enabled p) && _) eqn:Ha; [done|]. destruct (_ && circuit_open _) eqn:Hc; [done|].
    destruct (name_taken _ _ _) eqn:Hn; [done|]. intros [= <- _] Hok. by eapply patch_ok.
  - unfold set_enabled, activate_strategy, transition_strategy, set_archived, trip_worker_circuit. apply immediate_keeps; [apply keeps_ok_refl|]. intros d' a. unfold guarded. destruct (find_strategy _ _) as [s|] eqn:Hf; [|done].
    intros [= <- _] Hok. eapply update_id_ok; [done|done|done|done|..]; simpl; [by intros ->|]. intros Ho. destruct on; [done|].
    destruct Hok as (_ & _ & _ & H4). apply (H4 Ho). by apply find_strategy_Some in Hf as [? _].
  - unfold set_enabled, activate_strategy, transition_strategy, set_archived, trip_worker_circuit. apply immediate_keeps; [apply keeps_ok_refl|]. intros d' a [= <- _] Hok.
    exact (pause_ok now (reg_db w) Hok (circuit (set_circuit _ (reg_db w)))).
  - intros [= <- _] Hok. exact (pause_ok now _ Hok _).
  - intros [= <- _] (H1 & H2 & H3 & _). unfold reg_ok, set_circuit, circuit_open. simpl. split_and!; [done..|]. by destruct (circuit _).
  - unfold delete_strategy. destruct (exists_strategy _ _) as [u|]; [|apply keeps_ok_refl].
    set (locked := match open_tx w with Some p => _ | None => _ end). destruct locked; [apply keeps_ok_refl|].
    destruct dir_fails; simpl; [apply keeps_ok_refl|]. intros Hok. by apply deleted_ok.
Qed.

(** ** The circuit *)

Definition is_reset (c : call) : bool := match c.2 with RReset => true | _ => false end.

(** What a call does to the circuit's row: nothing, or it writes it. *)
Definition circuit_step (reset : bool) (d d' : DB) : Prop :=
  circuit d' = circuit d \/ (is_Some (circuit d) /\ exists v, circuit d' = Some v /\ is_open v = negb reset).

Lemma circuit_step_refl b d : circuit_step b d d.
Proof. by left. Qed.

Lemma rexec_circuit w c : circuit_step (is_reset c) (reg_db w) (reg_db (rexec w c)).
Proof.
  destruct c as [[pid now] op]. unfold is_reset. destruct op; simpl; unfold create_strategy, register_strategy;
    try (unfold insert_instance, update_status, update_mode, set_semantic_profile, pause_all_enabled, reset_worker_circuit;
         apply autobegin_keeps; [apply circuit_step_refl|]; intros d' a);
    try (unfold set_enabled, activate_strategy, transition_strategy, set_archived, trip_worker_circuit;
         apply immediate_keeps; [apply circuit_step_refl|]; intros d' a; unfold guarded; try (destruct (find_strategy _ _); [|done]);
         try (destruct (check_activation _ _ _); [|done]); simpl);
    try (intros [= <- _]; by left).
  - unfold insert_row. destruct (_ || _); [done|]. intros [= <- _]. by left.
  - unfold insert_row. destruct (_ || _); [done|]. intros [= <- _]. by left.
  - unfold set_mtf_series. destruct (exists_strategy _ _) as [u|]; [|by left]. destruct (mtf_requests_json _ _) as [text|]; [|by left].
    apply autobegin_keeps; [apply circuit_step_refl|]. intros d' a [= <- _]. by left.
  - unfold patch_strategy_atomic. destruct (p_unknown p); [by left|]. destruct (empty_patch p); [by left|].
    apply immediate_keeps; [apply circuit_step_refl|]. intros d' a. unfold guarded. destruct (find_strategy _ _); [|done].
    destruct (_ && _); [done|]. destruct (_ && circuit_open _); [done|]. destruct (name_taken _ _ _); [done|]. intros [= <- _]. by left.
  - intros [= <- _]. unfold circuit_step. simpl. destruct (circuit (reg_db w)); [right; eauto|by left].
  - intros [= <- _]. unfold circuit_step. simpl. destruct (circuit (reg_db w)); [right; eauto|by left].
  - unfold delete_strategy. destruct (exists_strategy _ _) as [u|]; [|by left].
    set (locked := match open_tx w with Some p => _ | None => _ end). destruct locked; [by left|]. destruct dir_fails; by left.
Qed.

(** Only a reset closes the circuit, and its row is never removed. *)
Lemma rexec_open w c : is_reset c = false -> circuit_open (reg_db w) = true -> circuit_open (reg_db (rexec w c)) = true.
Proof.
  intros Hr Ho. unfold circuit_open in *. destruct (rexec_circuit w c) as [->|(_ & v & -> & Hv)]; [done|]. by rewrite Hv, Hr.
Qed.

Lemma run_has_circuit calls w : is_Some (circuit (reg_db w)) -> is_Some (circuit (reg_db (fold_left rexec calls w))).
Proof.
  revert w. induction calls as [|c calls IH]; intros w Hw; simpl; [done|]. apply IH.
  destruct (rexec_circuit w c) as [->|(_ & v & -> & _)]; [done|eauto].
Qed.

Lemma run_ok calls w : reg_ok (reg_db w) -> reg_ok (reg_db (fold_left rexec calls w)).
Proof. revert w. induction calls as [|c calls IH]; intros w Hw; simpl; [done|]. apply IH. by apply rexec_keeps. Qed.

Lemma registry_init_ok t0 : reg_ok (reg_db (registry_init t0)).
Proof. split_and!; simpl; [constructor|constructor|intros s Hs|intros _ s Hs]; by apply not_elem_of_nil in Hs. Qed.

(** C20: the registry's invariant.  Whatever calls any processes make, in whatever
    order, strategy identifiers and names stay unique, no archived strategy is
    ever enabled, and no strategy at all is enabled while the worker circuit is
    open. *)
Theorem registry_invariant t0 calls : reg_ok (reg_db (fold_left rexec calls (registry_init t0))).
Proof.
  apply run_ok, registry_init_ok.
Qed.

Lemma run_open w calls :
  Forall (fun c => is_reset c = false) calls -> circuit_open (reg_db w) = true -> reg_ok (reg_db w) ->
  circuit_open (reg_db (fold_left rexec calls w)) = true /\ reg_ok (reg_db (fold_left rexec calls w)).
Proof.
  intros H. revert w. induction H as [|c calls Hc _ IH]; intros w Ho Hok; simpl; [done|].
  apply IH; [by apply rexec_open|by apply rexec_keeps].
Qed.

(** Nothing is enabled between a trip and the next reset. *)
Lemma tripped_none t0 before pid reason now w1 n calls :
  trip_worker_circuit pid reason now (fold_left rexec before (registry_init t0)) = (w1, Ok n) ->
  Forall (fun c => is_reset c = false) calls ->
  forall s, s ∈ strategies (reg_db (fold_left rexec calls w1)) -> enabled s = false.
Proof.
  set (w := fold_left rexec before (registry_init t0)). intros E Hcalls.
  assert (Hok : reg_ok (reg_db w)) by (apply run_ok, registry_init_ok).
  assert (Hc : is_Some (circuit (reg_db w))) by (apply run_has_circuit; simpl; eauto).
  pose proof (rexec_keeps w (pid, now, RTrip reason) Hok) as Hok1. simpl in Hok1. rewrite E in Hok1. simpl in Hok1.
  unfold trip_worker_circuit, immediate in E. destruct (open_tx w) as [p|]; [by case_bool_decide|]. injection E as <- <-.
  match goal with |- context [fold_left rexec calls ?w1] =>
    destruct (run_open w1 calls Hcalls) as [Ho (_ & _ & _ & H4)]; [|exact Hok1|by apply H4] end.
  unfold circuit_open. simpl. by destruct Hc as [c ->].
Qed.

(** The circuit latches.  Tripping it disables every strategy and pauses the
    ones that were enabled, in one step, and reports how many; from then on,
    whatever any process calls short of a reset, no strategy is enabled again. *)
Theorem trip_latches t0 before pid reason now w1 n calls :
  let w := fold_left rexec before (registry_init t0) in
  trip_worker_circuit pid reason now w = (w1, Ok n) ->
  n = count_enabled (reg_db w) /\
  strategies (reg_db w1) = map (fun s => if enabled s then with_exec false (archived s) "paused" (st_mode s) now s else s)
                             (strategies (reg_db w)) /\
  (Forall (fun c => is_reset c = false) calls ->
   forall s, s ∈ strategies (reg_db (fold_left rexec calls w1)) -> enabled s = false).
Proof.
  intros w E. split; [|split].
  1, 2: revert E; unfold trip_worker_circuit, immediate; destruct (open_tx w); [by case_bool_decide|]; by intros [= <- <-].
  by apply (tripped_none t0 before pid reason now w1 n calls E).
Qed.

(** ** Activation *)

(** The calls that ask for a strategy to be enabled. *)
Definition asks_to_enable (op : rop) (id : string) : bool :=
  match op with
  | REnable i true => bool_decide (i = id)
  | RActivate i _ _ => bool_decide (i = id)
  | RTransition i (Some true) _ _ => bool_decide (i = id)
  | RPatch i p => bool_decide (i = id) && default false (p_enabled p)
  | _ => false
  end.

(** What became of a row under an UPDATE that keeps identifiers. *)
Lemma update_where_row p f d s s' :
  NoDup (strategy_id <$> strategies d) -> (forall x, strategy_id (f x) = strategy_id x) ->
  s ∈ strategies d -> s' ∈ strategies (update_where p f d) -> strategy_id s' = strategy_id s -> s' = if p s then f s else s.
Proof.
  intros Hd Hid Hs Hs' E. unfold update_where in Hs'. simpl in Hs'. apply list_elem_of_In, in_map_iff in Hs' as (y & <- & Hy%list_elem_of_In).
  assert (Hyid : strategy_id y = strategy_id s) by (destruct (p y); [by rewrite Hid in E|done]).
  assert (y = s) as ->; [|done]. apply list_elem_of_lookup in Hs as [i Hi], Hy as [j Hj]. rewrite NoDup_alt in Hd.
  assert (j = i) as ->; [|congruence]. apply (Hd j i (strategy_id s)); rewrite list_lookup_fmap, ?Hi, ?Hj; simpl; congruence.
Qed.

(** A row of the same identifier that goes from disabled to enabled. *)
Definition only_if (ok : string -> bool) (d d' : DB) : Prop :=
  NoDup (strategy_id <$> strategies d) -> forall s s', s ∈ strategies d -> s' ∈ strategies d' -> strategy_id s' = strategy_id s ->
  enabled s = false -> enabled s' = true -> ok (strategy_id s) = true.

Lemma same_row d s s' :
  NoDup (strategy_id <$> strategies d) -> s ∈ strategies d -> s' ∈ strategies d -> strategy_id s' = strategy_id s -> s' = s.
Proof.
  intros Hd [i Hi]%list_elem_of_lookup [j Hj]%list_elem_of_lookup E. rewrite NoDup_alt in Hd.
  assert (j = i) as ->; [|congruence]. apply (Hd j i (strategy_id s)); rewrite list_lookup_fmap, ?Hi, ?Hj; simpl; congruence.
Qed.

Lemma only_if_refl ok d : only_if ok d d.
Proof. intros Hd s s' Hs Hs' E He He'. rewrite (same_row d s s' Hd Hs Hs' E) in He'. congruence. Qed.

Lemma only_if_update ok p f d :
  (forall x, strategy_id (f x) = strategy_id x) ->
  (forall x, x ∈ strategies d -> p x = true -> enabled x = false -> enabled (f x) = true -> ok (strategy_id x) = true) ->
  only_if ok d (update_where p f d).
Proof.
  intros Hid Hf Hd s s' Hs Hs' E He He'. rewrite (update_where_row p f d s s' Hd Hid Hs Hs' E) in He'.
  destruct (p s) eqn:Ep; [by apply Hf|congruence].
Qed.

Lemma only_if_subset ok d d' : (forall s, s ∈ strategies d' -> s ∈ strategies d \/ enabled s = false) -> only_if ok d d'.
Proof.
  intros H Hd s s' Hs Hs' E He He'. destruct (H s' Hs') as [Hin|]; [|congruence]. rewrite (same_row d s s' Hd Hs Hin E) in He'. congruence.
Qed.

(** An activation enables a row only when its [next] is what was asked for. *)
Lemma activation_only_if ok d id (next : Strategy -> bool) (st md : Strategy -> Strategy -> string) now d' a :
  NoDup (strategy_id <$> strategies d) ->
  (forall s, enabled s = false -> next s = true -> ok id = true) ->
  guarded d id (fun s => let! _ := check_activation d (next s) (archived s) in
    Ok (update_where (has_id id) (fun s' => with_exec (next s) (archived s') (st s s') (md s s') now s') d, tt)) = Ok (d', a) ->
  only_if ok d d'.
Proof.
  unfold guarded. intros Hd Hn. destruct (find_strategy d id) as [s|] eqn:Hf; [|done].
  destruct (check_activation d (next s) (archived s)) as [[]|e] eqn:Hc; [|done]. simpl. intros [= <- _].
  apply find_strategy_Some in Hf as [Hs Hid]. apply only_if_update; [done|]. simpl. intros x Hx Hxid%bool_decide_eq_true He Hne.
  assert (x = s) as -> by (apply (same_row d); congruence). rewrite Hid. by apply (Hn s).
Qed.

Lemma rexec_only_if w c : only_if (asks_to_enable c.2) (reg_db w) (reg_db (rexec w c)).
Proof.
  intros Hd. generalize Hd. change (only_if (asks_to_enable c.2) (reg_db w) (reg_db (rexec w c))).
  destruct c as [[pid now] op]. destruct op; simpl; unfold create_strategy, register_strategy;
    try (unfold insert_instance, update_status, update_mode, set_semantic_profile, pause_all_enabled, reset_worker_circuit;
         apply autobegin_keeps; [apply only_if_refl|]; intros d' a);
    try (unfold set_enabled, activate_strategy, transition_strategy, set_archived, trip_worker_circuit;
         apply immediate_keeps; [apply only_if_refl|]; intros d' a).
  - unfold insert_row. destruct (_ || _); [done|]. intros [= <- _]. apply only_if_subset. intros x Hx. simpl in Hx. set_solver.
  - unfold insert_row. destruct (_ || _); [done|]. intros [= <- _]. apply only_if_subset. intros x Hx. simpl in Hx. set_solver.
  - intros [= <- _]. apply only_if_update; [done|]. simpl. intros; congruence.
  - intros [= <- _]. apply only_if_update; [done|]. simpl. intros; congruence.
  - intros [= <- _]. apply only_if_update; [done|]. simpl. intros; congruence.
  - unfold set_mtf_series. destruct (exists_strategy _ _) as [u|]; [|apply only_if_refl].
    destruct (mtf_requests_json _ _) as [text|]; [|apply only_if_refl]. apply autobegin_keeps; [apply only_if_refl|].
    intros d' a [= <- _]. apply only_if_update; [done|]. simpl. intros; congruence.
  - apply (activation_only_if _ _ _ (fun _ => on) _ _ _ _ _ Hd). intros s _ ->. simpl. by apply bool_decide_eq_true.
  - apply (activation_only_if _ _ _ (fun _ => true) _ _ _ _ _ Hd). intros s _ _. by apply bool_decide_eq_true.
  - apply (activation_only_if _ _ _ (fun s => default (enabled s) on) _ _ _ _ _ Hd). intros s He. destruct on as [b|]; simpl; [|congruence].
    intros ->. by apply bool_decide_eq_true.
  - unfold patch_strategy_atomic. destruct (p_unknown p); [apply only_if_refl|]. destruct (empty_patch p); [apply only_if_refl|].
    apply immediate_keeps; [apply only_if_refl|]. intros d' a. unfold guarded. destruct (find_strategy _ _) as [s|] eqn:Hf; [|done].
    destruct (_ && _); [done|]. destruct (_ && circuit_open _); [done|]. destruct (name_taken _ _ _); [done|]. intros [= <- _].
    apply only_if_update; [done|]. intros x Hx Hid He. unfold has_id in Hid. apply bool_decide_eq_true in Hid as <-.
    unfold asks_to_enable, apply_patch. simpl. rewrite bool_decide_eq_true_2 by done.
    destruct (default false (p_archived p)); simpl; [done|]. destruct (p_enabled p) as [[]|]; simpl; congruence.
  - unfold guarded. destruct (find_strategy _ _) as [s|] eqn:Hf; [|done]. intros [= <- _]. apply find_strategy_Some in Hf as [Hs Hid].
    apply only_if_update; [done|]. intros x Hx Hxid%bool_decide_eq_true He. simpl.
    assert (x = s) as -> by (apply (same_row (reg_db w)); congruence). destruct on; simpl; congruence.
  - intros [= <- _]. refine (only_if_update _ enabled (fun s => with_exec false (archived s) "paused" (st_mode s) now s) _ _ _); [done|].
    simpl. intros; congruence.
  - intros [= <- _]. apply (only_if_update _ enabled); [done|]. simpl. intros; congruence.
  - intros [= <- _]. apply only_if_subset. simpl. by left.
  - unfold delete_strategy. destruct (exists_strategy _ _) as [u|]; [|apply only_if_refl].
    set (locked := match open_tx w with Some p => _ | None => _ end). destruct locked; [apply only_if_refl|].
    destruct dir_fails; [apply only_if_refl|]. apply only_if_subset. simpl. intros s Hs.
    apply list_elem_of_In, filter_In in Hs as [Hs _]. left. by apply list_elem_of_In.
Qed.

(** Activation is explicit.  A strategy that some call turns from disabled to
    enabled is one that this call names and asks to enable; it is then not
    archived, and the circuit is closed. *)
Theorem activation_explicit t0 before c s s' :
  let w := fold_left rexec before (registry_init t0) in
  s ∈ strategies (reg_db w) -> s' ∈ strategies (reg_db (rexec w c)) -> strategy_id s' = strategy_id s ->
  enabled s = false -> enabled s' = true ->
  asks_to_enable c.2 (strategy_id s) = true /\ archived s' = false /\ circuit_open (reg_db (rexec w c)) = false.
Proof.
  intros w Hs Hs' Hid He He'. assert (Hok : reg_ok (reg_db w)) by (apply run_ok, registry_init_ok).
  pose proof (rexec_keeps w c Hok) as (_ & _ & H3 & H4). split; [|split].
  - eapply (rexec_only_if w c); [apply Hok|exact Hs|exact Hs'|done..].
  - destruct (archived s') eqn:Ea; [|done]. rewrite (H3 s' Hs' Ea) in He'. done.
  - destruct (circuit_open (reg_db (rexec w c))) eqn:Eo; [|done]. rewrite (H4 eq_refl s' Hs') in He'. done.
Qed.

(** ** The registry and its clients *)

(** The columns the fan-out and the refresher read of a row. *)
Definition to_instance (s : Strategy) : StrategyInstance :=
  mkStrategy (strategy_id s) (artifact_id s) (params_hash s) (st_symbol s) (st_timeframe s) (st_exchange s) (st_market_type s)
    (st_price_type s) (st_mode s) (enabled s) (mtf_series_json s).

Definition registry_view (w : RegWorld) : list StrategyInstance := map to_instance (list_strategies w None).

Lemma none_enabled_filter (p : StrategyInstance -> bool) (l : list Strategy) :
  (forall x, p x = true -> si_enabled x = true) -> (forall s, s ∈ l -> enabled s = false) -> List.filter p (map to_instance l) = [].
Proof.
  intros Hp. induction l as [|s l IH]; intros H; simpl; [done|].
  rewrite IH by (intros; apply H; by right). destruct (p (to_instance s)) eqn:E; [|done].
  apply Hp in E. simpl in E. rewrite H in E by left. done.
Qed.

(** C22: A tripped circuit stops the system's work on bars.  From the trip on, until
    somebody resets it, a source bar that arrives is fanned out to nobody - the
    scheduler stays as it is, whatever the data layer does - and the periodic
    refresh asks the data layer for nothing. *)
Theorem tripped_circuit_stops_work {O} py_sum render_input uuid (data : BarSource O) cfg default_gap_policy (layer : DataLayer O) rcfg
    t0 before pid reason now w1 n calls :
  trip_worker_circuit pid reason now (fold_left rexec before (registry_init t0)) = (w1, Ok n) ->
  Forall (fun c => is_reset c = false) calls ->
  let view := registry_view (fold_left rexec calls w1) in
  (forall o sc b t, (process_source_bar parse_timeframe py_sum render_input uuid data cfg view o sc b t).1.2 = sc) /\
  (forall o t, refresh_all_active parse_timeframe py_sum default_gap_policy layer rcfg o view t = (o, [])).
Proof.
  intros Htrip Hcalls view. pose proof (tripped_none _ _ _ _ _ _ _ _ Htrip Hcalls) as Hnone.
  split.
  - intros o sc b t. unfold process_source_bar. destruct (parse_timeframe (source_timeframe cfg)) as [src|]; [|done].
    destruct (negb _); [done|].
    replace (enabled_strategies_for_market view (market_key_of b)) with (@nil StrategyInstance).
    2: { symmetry. apply none_enabled_filter; [|exact Hnone]. intros x Hx. unfold matches_market in Hx.
         rewrite !andb_true_iff in Hx. tauto. }
    destruct (if persist_source cfg then _ else _) as [o1 [u|e]]; done.
  - intros o t. unfold refresh_all_active. unfold view, registry_view, list_strategies.
    by rewrite (none_enabled_filter si_enabled) by done.
Qed.

(** A failed INSERT keeps the write lock.  When [create_strategy] fails on a
    name or identifier that is taken, nobody commits or rolls back, so the very
    next trip of the worker circuit is refused: by SQLite's lock for another
    process, and by the open transaction for the process itself.  Whatever was
    enabled stays enabled. *)
Theorem failed_create_blocks_trip pid name pine artifact symbol tf exchange market params hash mode profile now w w1 e :
  open_tx w = None ->
  create_strategy pid name pine artifact symbol tf exchange market params hash mode profile now w = (w1, Err e) ->
  reg_db w1 = reg_db w /\ e = UniqueViolation /\
  forall pid' reason now', exists e', (trip_worker_circuit pid' reason now' w1).2 = Err e' /\
    e' = (if bool_decide (pid = pid') then NestedTransaction else DatabaseLocked) /\
    reg_db (trip_worker_circuit pid' reason now' w1).1 = reg_db w.
Proof.
  intros Ho. unfold create_strategy, insert_instance, autobegin. rewrite Ho. destruct (insert_row _ _); [done|]. intros [= <- <-].
  split; [done|]. split; [done|]. intros pid' reason now'. unfold trip_worker_circuit, immediate. simpl.
  case_bool_decide; eauto.
Qed.

Lemma find_update d id f s :
  (forall x, strategy_id (f x) = strategy_id x) -> find_strategy d id = Some s ->
  find_strategy (update_where (has_id id) f d) id = Some (f s).
Proof.
  intros Hf. unfold find_strategy, update_where, has_id. simpl. induction (strategies d) as [|x l IH]; simpl; [done|].
  destruct (bool_decide (strategy_id x = id)) eqn:E; simpl.
  - intros [= <-]. rewrite Hf, E. done.
  - rewrite E. done.
Qed.

(** The series a strategy asks for survive storage: after [set_mtf_series] the
    row holds the text of exactly the requests that were set. *)
Lemma mtf_series_stored pid id series now w w1 :
  set_mtf_series pid id series now w = (w1, Ok tt) ->
  exists s text, get_strategy w1 id = Ok s /\ mtf_series_json s = text /\ updated_at s = now /\
    mtf_requests_json parse_timeframe (Some series) = Ok text.
Proof.
  unfold set_mtf_series, exists_strategy. destruct (find_strategy (reg_db w) id) as [s|] eqn:Hf; [|done].
  destruct (mtf_requests_json parse_timeframe (Some series)) as [text|] eqn:Et; [|done].
  assert (Hget : forall tx, get_strategy (mkRegWorld (update_where (has_id id) (with_mtf text now) (reg_db w)) tx) id
                            = Ok (with_mtf text now s)) by (intros; unfold get_strategy; simpl; by rewrite (find_update _ _ _ s)).
  unfold autobegin. destruct (open_tx w); [case_bool_decide; [|done]|]; intros [= <-]; rewrite Hget; eauto 10.
Qed.

End Registry.

(** ** Witnesses *)

Definition w_make_id (artifact hash : string) (now : Z) : string := artifact +:+ hash +:+ pretty now.

Definition w_create (name hash : string) : rop :=
  RCreate name "p" "a" "BTCUSDT" "1m" "binance" "usdm" "{}" hash "paper" None.

Definition w_before : list call := [(0%nat, 1, w_create "one" "h"); (0%nat, 2, w_create "two" "h"); (1%nat, 3, REnable "ah1" true)].

Abbreviation w_run := (fold_left (rexec w_make_id mtf_parse)).

Lemma trip_latches_witness :
  exists w1, trip_worker_circuit 1 "worker lost" 9 (w_run w_before (registry_init 0)) = (w1, Ok 1) /\
    map (fun s => (enabled s, st_status s)) (strategies (reg_db w1)) = [(false, "paused"); (false, "pending")] /\
    forall s, s ∈ strategies (reg_db (w_run [(0%nat, 10, REnable "ah1" true); (0%nat, 11, RActivate "ah2" None None)] w1)) -> enabled s = false.
Proof.
  destruct (trip_worker_circuit 1 "worker lost" 9 (w_run w_before (registry_init 0))) as [w1 r] eqn:E.
  exists w1. assert (r = Ok 1) as -> by (vm_compute in E; by injection E).
  destruct (trip_latches w_make_id mtf_parse 0 w_before 1 "worker lost" 9 w1 1
    [(0%nat, 10, REnable "ah1" true); (0%nat, 11, RActivate "ah2" None None)] E) as (_ & Hs & Hn).
  split; [done|]. split; [rewrite Hs; reflexivity|]. apply Hn. repeat constructor.
Defined.

Lemma activation_explicit_witness :
  exists s s', enabled s = false /\ enabled s' = true /\ asks_to_enable (REnable "ah2" true) (strategy_id s) = true /\ archived s' = false.
Proof.
  set (w := w_run w_before (registry_init 0)). set (c := (0%nat, 5, REnable "ah2" true) : call).
  destruct (strategies (reg_db w)) as [|x [|s l]] eqn:Es; [discriminate Es..|].
  destruct (strategies (reg_db (rexec w_make_id mtf_parse w c))) as [|x' [|s' l']] eqn:Es'; [discriminate Es'..|].
  exists s, s'. injection Es as <- <- <-. injection Es' as <- <- <-.
  match goal with |- enabled ?s = _ /\ enabled ?s' = _ /\ _ =>
    destruct (activation_explicit w_make_id mtf_parse 0 w_before c s s') as (H1 & H2 & _) end;
    [vm_compute; by repeat constructor|vm_compute; by repeat constructor|done..|]. done.
Defined.

Lemma failed_create_blocks_trip_witness :
  let w := w_run w_before (registry_init 0) in
  exists w1, create_strategy w_make_id 2 "one" "p" "b" "ETHUSDT" "1m" "binance" "usdm" "{}" "h" "paper" None 7 w
      = (w1, Err UniqueViolation) /\ count_enabled (reg_db w1) = 1 /\ (trip_worker_circuit 1 "worker lost" 9 w1).2 = Err DatabaseLocked.
Proof.
  intros w. destruct (create_strategy w_make_id 2 "one" "p" "b" "ETHUSDT" "1m" "binance" "usdm" "{}" "h" "paper" None 7 w)
    as [w1 r] eqn:E. exists w1. assert (r = Err UniqueViolation) as -> by (vm_compute in E; by injection E). split; [done|].
  destruct (failed_create_blocks_trip w_make_id 2 "one" "p" "b" "ETHUSDT" "1m" "binance" "usdm" "{}" "h" "paper" None 7 w w1
    UniqueViolation eq_refl E) as (Hd & _ & Ht). split; [rewrite Hd; reflexivity|].
  destruct (Ht 1%nat "worker lost" 9) as (e' & -> & -> & _). reflexivity.
Defined.

Lemma tripped_circuit_stops_work_witness :
  exists w1, trip_worker_circuit 1 "worker lost" 9 (w_run w_before (registry_init 0)) = (w1, Ok 1) /\
    let view := registry_view (w_run [(0%nat, 10, REnable "ah1" true)] w1) in
    (process_source_bar mtf_parse no_sum w_render w_uuid (orchestrator_source w_complete demo_orch) w_cfg view demo_world scheduler_init w_mbar 20).1.2
      = scheduler_init /\
    refresh_all_active mtf_parse no_sum "fail" demo_layer demo_refresh_cfg demo_world view 1000 = (demo_world, []).
Proof.
  destruct (trip_worker_circuit 1 "worker lost" 9 (w_run w_before (registry_init 0))) as [w1 r] eqn:E.
  exists w1. assert (r = Ok 1) as -> by (vm_compute in E; by injection E). split; [done|].
  destruct (tripped_circuit_stops_work w_make_id mtf_parse no_sum w_render w_uuid (orchestrator_source w_complete demo_orch) w_cfg "fail"
    demo_layer demo_refresh_cfg 0 w_before 1 "worker lost" 9 w1 1 [(0%nat, 10, REnable "ah1" true)] E ltac:(repeat constructor)) as [H1 H2].
  split; [apply H1|apply H2].
Defined.
