(* ===== verification/RegistrySpec.v ===== *)
(** What the strategy registry promises, and that it keeps the promise: an
    abstract registry, which knows of each strategy only whether it is enabled
    and archived, and of the circuit only whether it is open, and a forward
    simulation of [openpine/registry/strategies.py] (Registry.v) by it. *)

From stdpp Require Import gmap fin_maps.
From S2P Require Import Prelude PyFloat Coverage Json Mtf DataOrchestrator Registry.

(** ** The abstract registry *)

Record Spec := mkSpec { rows : gmap string (bool * bool); sp_open : bool }.

(** A strategy may be enabled only when it is not archived and the circuit is
    closed. *)
Definition may_enable (A : Spec) (on arch : bool) : Prop := on = true -> arch = false /\ sp_open A = false.

Definition put_row (id : string) (on arch : bool) (A : Spec) : Spec := mkSpec (<[id := (on, arch)]> (rows A)) (sp_open A).

Definition all_off (A : Spec) : gmap string (bool * bool) := (fun r => (false, r.2)) <$> rows A.

Definition creates (op : rop) : bool :=
  match op with RCreate _ _ _ _ _ _ _ _ _ _ _ | RRegister _ _ _ _ _ _ _ _ _ _ _ => true | _ => false end.

(** The calls that write columns other than the two flags. *)
Definition writes_text (op : rop) : option string :=
  match op with RStatus id _ | RMode id _ | RProfile id _ | RMtf id _ => Some id | _ => None end.

(** One call, with whether it returned: a call that raises changes nothing. *)
Inductive spec_step : Spec -> rop -> bool -> Spec -> Prop :=
| spec_refused A op : spec_step A op false A
| spec_new A op id : rows A !! id = None ->
    creates op = true -> spec_step A op true (put_row id false false A)
| spec_text A op id : is_Some (rows A !! id) -> writes_text op = Some id -> spec_step A op true A
| spec_enable A id on e a : rows A !! id = Some (e, a) -> may_enable A on a -> spec_step A (REnable id on) true (put_row id on a A)
| spec_activate A id st md e a : rows A !! id = Some (e, a) -> may_enable A true a ->
    spec_step A (RActivate id st md) true (put_row id true a A)
| spec_transition A id on st md e a : rows A !! id = Some (e, a) -> may_enable A (default e on) a ->
    spec_step A (RTransition id on st md) true (put_row id (default e on) a A)
| spec_patch A id p e a : rows A !! id = Some (e, a) ->
    let a' := default a (p_archived p) in
    let e' := if default false (p_archived p) then false else default e (p_enabled p) in
    may_enable A e' a' -> spec_step A (RPatch id p) true (put_row id e' a' A)
| spec_empty_patch A id p : empty_patch p = true -> spec_step A (RPatch id p) true A
| spec_archive A id on e a : rows A !! id = Some (e, a) ->
    spec_step A (RArchive id on) true (put_row id (if on then false else e) on A)
| spec_trip A reason : spec_step A (RTrip reason) true (mkSpec (all_off A) true)
| spec_pause_all A : spec_step A RPauseAll true (mkSpec (all_off A) (sp_open A))
| spec_reset A : spec_step A RReset true (mkSpec (rows A) false)
| spec_delete A id fails : is_Some (rows A !! id) -> spec_step A (RDelete id fails) true (mkSpec (delete id (rows A)) (sp_open A)).

(** A run of calls, each with whether it returned. *)
Inductive spec_run : Spec -> list (rop * bool) -> Spec -> Prop :=
| spec_done A : spec_run A [] A
| spec_next A B C op ok l : spec_step A op ok B -> spec_run B l C -> spec_run A ((op, ok) :: l) C.

(** ** The abstraction *)

Definition row_of (s : Strategy) : string * (bool * bool) := (strategy_id s, (enabled s, archived s)).

Definition abs_rows (l : list Strategy) : gmap string (bool * bool) := list_to_map (map row_of l).

Definition abs (d : DB) : Spec := mkSpec (abs_rows (strategies d)) (circuit_open d).

Section Simulation.

Context (make_id : string -> string -> Z -> string) (parse_timeframe : string -> option Timeframe).

(** Whether a call returns. *)
Definition returned (w : RegWorld) (c : call) : bool :=
  let '(pid, now, op) := c in
  match op with
  | RCreate name pine artifact symbol tf exchange market params hash mode profile =>
      is_ok (create_strategy make_id pid name pine artifact symbol tf exchange market params hash mode profile now w).2
  | RRegister name pine artifact symbol tf exchange market price params hash mode =>
      is_ok (register_strategy make_id pid name pine artifact symbol tf exchange market price params hash mode now w).2
  | RStatus id status => is_ok (update_status pid id status now w).2
  | RMode id mode => is_ok (update_mode pid id mode now w).2
  | RProfile id profile => is_ok (set_semantic_profile pid id profile now w).2
  | RMtf id series => is_ok (set_mtf_series parse_timeframe pid id series now w).2
  | REnable id on => is_ok (set_enabled pid id on now w).2
  | RActivate id status mode => is_ok (activate_strategy pid id status mode now w).2
  | RTransition id on status mode => is_ok (transition_strategy pid id on status mode now w).2
  | RPatch id p => is_ok (patch_strategy_atomic pid id p now w).2
  | RArchive id on => is_ok (set_archived pid id on now w).2
  | RTrip reason => is_ok (trip_worker_circuit pid reason now w).2
  | RPauseAll => is_ok (pause_all_enabled pid now w).2
  | RReset => is_ok (reset_worker_circuit pid now w).2
  | RDelete id dir_fails => is_ok (delete_strategy pid id dir_fails w).2
  end.

(** ** Lookups in the abstraction *)

Definition flags (s : Strategy) : bool * bool := (enabled s, archived s).

Lemma abs_lookup l i : abs_rows l !! i = flags <$> List.find (has_id i) l.
Proof.
  unfold abs_rows. induction l as [|s l IH]; simpl; [apply lookup_empty|]. unfold has_id at 1. case_bool_decide as E; simpl.
  - subst. by rewrite lookup_insert_eq.
  - by rewrite lookup_insert_ne, IH.
Qed.

Lemma find_map g l i : (forall s, strategy_id (g s) = strategy_id s) ->
  List.find (has_id i) (map g l) = g <$> List.find (has_id i) l.
Proof.
  intros Hg. induction l as [|s l IH]; simpl; [done|]. unfold has_id at 1 3. rewrite Hg. by case_bool_decide.
Qed.

Lemma abs_map g l i : (forall s, strategy_id (g s) = strategy_id s) ->
  abs_rows (map g l) !! i = (fun s => flags (g s)) <$> List.find (has_id i) l.
Proof. intros Hg. rewrite abs_lookup, find_map by done. by destruct (List.find _ _). Qed.

Lemma find_has_id l i s : List.find (has_id i) l = Some s -> strategy_id s = i.
Proof. intros [_ H]%List.find_some. by apply bool_decide_eq_true in H. Qed.

Lemma abs_update d id f s : (forall x, strategy_id (f x) = strategy_id x) -> find_strategy d id = Some s ->
  abs (update_where (has_id id) f d) = put_row id (enabled (f s)) (archived (f s)) (abs d).
Proof.
  intros Hf Hs. unfold abs, put_row. simpl. f_equal. apply map_eq. intros i.
  rewrite abs_map by (intros x; by destruct (has_id id x)). destruct (decide (i = id)) as [->|Hne].
  - rewrite lookup_insert_eq. unfold find_strategy in Hs. change (fun s => _) with (has_id id) in Hs. rewrite Hs. simpl.
    unfold has_id. by rewrite bool_decide_eq_true_2 by (by apply find_has_id in Hs).
  - rewrite lookup_insert_ne, abs_lookup by done. destruct (List.find (has_id i) _) as [x|] eqn:E; [|done]. simpl.
    apply find_has_id in E as Ei. unfold has_id. by rewrite bool_decide_eq_false_2 by congruence.
Qed.

Lemma abs_same d id f s : (forall x, strategy_id (f x) = strategy_id x /\ flags (f x) = flags x) -> find_strategy d id = Some s ->
  abs (update_where (has_id id) f d) = abs d.
Proof.
  intros Hf Hs. rewrite (abs_update d id f s) by (done || apply Hf). pose proof (proj2 (Hf s)) as [= -> ->].
  unfold put_row, abs. simpl. f_equal. apply insert_id. rewrite abs_lookup. unfold find_strategy in Hs.
  change (fun s => _) with (has_id id) in Hs. by rewrite Hs.
Qed.

Lemma abs_row d id s : find_strategy d id = Some s -> rows (abs d) !! id = Some (enabled s, archived s).
Proof. intros H. simpl. rewrite abs_lookup. unfold find_strategy in H. change (fun s => _) with (has_id id) in H. by rewrite H. Qed.

Lemma abs_insert d s d' : insert_row d s = Some d' ->
  rows (abs d) !! strategy_id s = None /\ abs d' = put_row (strategy_id s) (enabled s) (archived s) (abs d).
Proof.
  unfold insert_row. destruct (_ || _) eqn:E; [done|]. intros [= <-]. apply orb_false_iff in E as [E _]. apply bool_decide_eq_false in E.
  assert (Hn : abs_rows (strategies d) !! strategy_id s = None).
  { apply not_elem_of_list_to_map. intros H. apply E. apply list_elem_of_fmap in H as (p & -> & Hp).
    apply list_elem_of_In, in_map_iff in Hp as (x & <- & Hx%list_elem_of_In). simpl. apply list_elem_of_fmap. eauto. }
  split; [done|]. unfold abs, put_row. simpl. f_equal. unfold abs_rows. rewrite map_app. simpl.
  change [row_of s] with [(strategy_id s, flags s)]. rewrite list_to_map_snoc; [done|]. by apply not_elem_of_list_to_map.
Qed.

Lemma abs_pause now d : abs_rows (strategies (pause_enabled now d)) = all_off (abs d).
Proof.
  apply map_eq. intros i. unfold all_off. rewrite lookup_fmap. simpl. rewrite abs_map by (intros s; by destruct (enabled s)).
  rewrite abs_lookup. destruct (List.find _ _) as [s|]; [|done]. simpl. unfold flags. by destruct (enabled s) eqn:E; simpl; rewrite ?E.
Qed.

Lemma abs_delete d id : abs (deleted id d) = mkSpec (delete id (rows (abs d))) (sp_open (abs d)).
Proof.
  unfold abs. simpl. f_equal. apply map_eq. intros i. rewrite lookup_delete. rewrite !abs_lookup.
  induction (strategies d) as [|s l IH]; [by case_decide|]. cbn [List.filter List.find].
  destruct (has_id id s) eqn:E1; cbn [negb List.find]; apply bool_decide_eq_true in E1 || apply bool_decide_eq_false in E1.
  - rewrite IH. case_decide; [done|]. unfold has_id at 2. by rewrite bool_decide_eq_false_2 by congruence.
  - destruct (has_id i s) eqn:E2; [|exact IH]. apply bool_decide_eq_true in E2. by rewrite decide_False by congruence.
Qed.

(** ** Each method *)

(** A method simulates [op]: if it returns it takes [op]'s step, and if it
    raises it changes nothing. *)
Definition simulates {A} (op : rop) (w : RegWorld) (r : RegWorld * result reg_error A) : Prop :=
  spec_step (abs (reg_db w)) op (is_ok r.2) (abs (reg_db r.1)).

Lemma immediate_sim {A} op pid (body : DB -> result reg_error (DB * A)) w :
  (forall d a, body (reg_db w) = Ok (d, a) -> spec_step (abs (reg_db w)) op true (abs d)) -> simulates op w (immediate pid body w).
Proof.
  intros H. unfold simulates, immediate. destruct (open_tx w); [case_bool_decide; constructor|].
  destruct (body (reg_db w)) as [[d a]|e]; [by eapply H|constructor].
Qed.

Lemma autobegin_sim {A} op pid read (body : DB -> result reg_error (DB * A)) w :
  (forall u d a, read (reg_db w) = Ok u -> body (reg_db w) = Ok (d, a) -> spec_step (abs (reg_db w)) op true (abs d)) ->
  simulates op w (autobegin pid read body w).
Proof.
  intros H. unfold simulates, autobegin. destruct (read (reg_db w)) as [u|]; [|constructor].
  destruct (open_tx w); [case_bool_decide; [|constructor]|];
    (destruct (body (reg_db w)) as [[d a]|e]; [by eapply H|constructor]).
Qed.

Lemma insert_sim op pid name pine artifact symbol tf exchange market price params hash mode profile now w :
  creates op = true ->
  simulates op w (insert_instance make_id pid name pine artifact symbol tf exchange market price params hash mode profile now w).
Proof.
  intros Hc. apply autobegin_sim. intros u d a _. destruct (insert_row _ _) as [d1|] eqn:E; [|done]. intros [= <- _].
  apply abs_insert in E as [Hn ->]. by apply spec_new.
Qed.

(** A method that finds its strategy and then writes some other columns. *)
Lemma text_sim {A} op id pid f (a : A) w :
  (forall x, strategy_id (f x) = strategy_id x /\ flags (f x) = flags x) -> writes_text op = Some id ->
  simulates op w (autobegin pid (exists_strategy id) (fun d => Ok (update_where (has_id id) f d, a)) w).
Proof.
  intros Hf Hop. apply autobegin_sim. unfold exists_strategy. intros u d a' Hr [= <- _].
  destruct (find_strategy (reg_db w) id) as [s|] eqn:Hs; [|done]. rewrite (abs_same _ _ _ s) by done.
  apply (spec_text _ _ id); [|done]. rewrite (abs_row _ _ s) by done. done.
Qed.

Lemma check_spec d wanted arch : check_activation d wanted arch = Ok tt -> may_enable (abs d) wanted arch.
Proof.
  unfold check_activation, may_enable. intros H ->. simpl in *. destruct arch; [done|]. by destruct (circuit_open d).
Qed.

Lemma patch_sim pid id p now w : reg_ok (reg_db w) -> simulates (RPatch id p) w (patch_strategy_atomic pid id p now w).
Proof.
  intros (_ & _ & H3 & _). unfold patch_strategy_atomic. destruct (p_unknown p); [constructor|].
  destruct (empty_patch p) eqn:Ee; [by constructor|].
  apply immediate_sim. intros d a. unfold guarded. destruct (find_strategy _ _) as [s|] eqn:Hs; [|done].
  destruct (default false (p_enabled p) && _) eqn:Ha; [done|]. destruct (_ && circuit_open _) eqn:Hc; [done|].
  destruct (name_taken _ _ _); [done|]. intros [= <- _]. rewrite (abs_update _ _ _ s) by done.
  set (f := apply_patch p (default false (p_archived p)) (st_status s) now).
  assert (He : enabled (f s) = if default false (p_archived p) then false else default (enabled s) (p_enabled p))
    by (unfold f, apply_patch; simpl; by destruct (default false (p_archived p))).
  rewrite He. apply spec_patch; [by apply abs_row|]. intros E. rewrite E in Hc. simpl in *. split; [|done].
  apply find_strategy_Some in Hs as [Hs _]. destruct (p_archived p) as [[]|]; simpl in *; [done|done|].
  destruct (p_enabled p) as [[]|]; simpl in *; [done|done|]. destruct (archived s) eqn:Ea; [|done]. by rewrite (H3 s Hs Ea) in E.
Qed.

(** ** The simulation *)

Lemma rexec_simulates w c :
  reg_ok (reg_db w) -> is_Some (circuit (reg_db w)) -> spec_step (abs (reg_db w)) c.2 (returned w c) (abs (reg_db (rexec make_id parse_timeframe w c))).
Proof.
  intros Hok Hcirc. destruct c as [[pid now] op]. destruct op; simpl.
  - by apply insert_sim.
  - by apply insert_sim.
  - by apply text_sim.
  - by apply text_sim.
  - by apply text_sim.
  - unfold set_mtf_series, exists_strategy. destruct (find_strategy _ _) as [s|] eqn:Hs; [|constructor].
    destruct (mtf_requests_json _ _) as [text|]; [|constructor]. apply autobegin_sim. intros u d a _ [= <- _].
    rewrite (abs_same _ _ _ s) by done. apply (spec_text _ _ id); [|done]. by rewrite (abs_row _ _ s).
  - apply immediate_sim. intros d a. unfold guarded. destruct (find_strategy _ _) as [s|] eqn:Hs; [|done].
    destruct (check_activation _ _ _) as [[]|] eqn:Hc; [|done]. intros [= <- _]. rewrite (abs_update _ _ _ s) by done. simpl.
    apply (spec_enable _ _ _ (enabled s)); [by apply abs_row|by apply check_spec].
  - apply immediate_sim. intros d a. unfold guarded. destruct (find_strategy _ _) as [s|] eqn:Hs; [|done].
    destruct (check_activation _ _ _) as [[]|] eqn:Hc; [|done]. intros [= <- _]. rewrite (abs_update _ _ _ s) by done. simpl.
    apply (spec_activate _ _ _ _ (enabled s)); [by apply abs_row|by apply check_spec].
  - apply immediate_sim. intros d a. unfold guarded. destruct (find_strategy _ _) as [s|] eqn:Hs; [|done].
    destruct (check_activation _ _ _) as [[]|] eqn:Hc; [|done]. intros [= <- _]. rewrite (abs_update _ _ _ s) by done. simpl.
    apply spec_transition; [by apply abs_row|by apply check_spec].
  - by apply patch_sim.
  - apply immediate_sim. intros d a. unfold guarded. destruct (find_strategy _ _) as [s|] eqn:Hs; [|done]. intros [= <- _].
    rewrite (abs_update _ _ _ s) by done. simpl. apply (spec_archive _ _ _ _ (archived s)). by apply abs_row.
  - apply immediate_sim. intros d a [= <- _]. unfold abs at 2. rewrite abs_pause. destruct Hcirc as [c Hc].
    unfold circuit_open. simpl. rewrite Hc. exact (spec_trip (abs (reg_db w)) reason).
  - apply autobegin_sim. intros u d a _ [= <- _]. unfold abs at 2. rewrite abs_pause. exact (spec_pause_all (abs (reg_db w))).
  - apply autobegin_sim. intros u d a _ [= <- _]. destruct Hcirc as [c Hc]. unfold abs at 2, circuit_open. simpl. rewrite Hc. exact (spec_reset (abs (reg_db w))).
  - unfold delete_strategy, exists_strategy. destruct (find_strategy _ _) as [s|] eqn:Hs; [|constructor].
    destruct (match open_tx w with Some p => _ | None => _ end); [constructor|]. destruct dir_fails; [constructor|]. simpl.
    rewrite abs_delete. apply spec_delete. by rewrite (abs_row _ _ s).
Qed.

(** The calls of a run with whether each returned. *)
Fixpoint labels (w : RegWorld) (calls : list call) : list (rop * bool) :=
  match calls with
  | [] => []
  | c :: calls' => (c.2, returned w c) :: labels (rexec make_id parse_timeframe w c) calls'
  end.

Lemma run_refines w calls :
  reg_ok (reg_db w) -> is_Some (circuit (reg_db w)) ->
  spec_run (abs (reg_db w)) (labels w calls) (abs (reg_db (fold_left (rexec make_id parse_timeframe) calls w))).
Proof.
  revert w. induction calls as [|c calls IH]; intros w Hok Hc; simpl; [constructor|].
  econstructor; [by apply rexec_simulates|]. apply IH; [by apply rexec_keeps|].
  apply (run_has_circuit make_id parse_timeframe [c] w Hc).
Qed.

(** C21: the registry refines the abstract one.  From an empty database, whatever
    any processes call, the flags and the circuit the database holds are those
    the abstract registry reaches by the same calls with the same outcomes:
    each call that returns does exactly what the specification says of it, and
    one that raises has no effect on them. *)
Theorem registry_refines_spec t0 calls :
  spec_run (mkSpec ∅ false) (labels (registry_init t0) calls)
    (abs (reg_db (fold_left (rexec make_id parse_timeframe) calls (registry_init t0)))).
Proof. apply (run_refines (registry_init t0)); [apply registry_init_ok|simpl; eauto]. Qed.

(** With no transaction left open, enabling a strategy is refused only for the
    specification's own reasons: it is unknown, or archived, or the circuit is
    open. *)
Theorem enable_returns_iff w pid now id on :
  open_tx w = None ->
  returned w (pid, now, REnable id on) = true <->
  exists e a, rows (abs (reg_db w)) !! id = Some (e, a) /\ may_enable (abs (reg_db w)) on a.
Proof.
  intros Ho. simpl. unfold set_enabled, immediate, guarded. rewrite Ho. destruct (find_strategy (reg_db w) id) as [s|] eqn:Hs.
  - rewrite abs_lookup. change (List.find _ (strategies (reg_db w))) with (find_strategy (reg_db w) id). rewrite Hs. simpl.
    unfold check_activation, may_enable. simpl. destruct on; simpl.
    + destruct (archived s) eqn:Ea, (circuit_open (reg_db w)) eqn:Ec; simpl; unfold flags; rewrite ?Ea; split; try done.
      1-3: intros (e & a & [= <- <-] & H); by destruct (H eq_refl). intros _. eauto.
    + split; [|done]. intros _. eexists _, _. split; [done|]. done.
  - rewrite abs_lookup. change (List.find _ (strategies (reg_db w))) with (find_strategy (reg_db w) id). rewrite Hs. simpl.
    split; [done|]. intros (e & a & [=] & _).
Qed.

End Simulation.

(** ** Witness *)

Lemma enable_returns_iff_witness :
  let w := w_run w_before (registry_init 0) in
  open_tx w = None /\ exists e a, rows (abs (reg_db w)) !! "ah2" = Some (e, a) /\ may_enable (abs (reg_db w)) true a.
Proof.
  intros w. split; [reflexivity|]. apply (enable_returns_iff w_make_id mtf_parse w 0 5 "ah2" true eq_refl). reflexivity.
Defined.

(** A run and what the abstract registry makes of it: the second activation is
    refused because the circuit is open. *)
Example refused_after_trip :
  labels w_make_id mtf_parse (registry_init 0) (w_before ++ [(1%nat, 9, RTrip "lost"); (0%nat, 10, REnable "ah2" true)])
    = [(w_create "one" "h", true); (w_create "two" "h", true); (REnable "ah1" true, true); (RTrip "lost", true); (REnable "ah2" true, false)].
Proof. reflexivity. Qed.
