(* ===== verification/StateCodec.v ===== *)
(** The typed codec of strategy state: [openpine/state/codec.py] and the
    payload functions of [openpine/state/store.py] that use it.

    A Python value is a [value]; what the codec hands to msgpack is an [mval].
    A [Decimal] and a [Path] are represented by their texts; the constructors
    that read such a text back, [==], [hash] and [repr] of the interpreter, the
    classes of the backtest engine and msgpack itself are parameters. *)

From Stdlib Require Import Ascii.
From S2P Require Import Prelude PyFloat PyValue.

(** ** Values *)

(** A class: [__module__] and [__qualname__]. *)
Record ClassId := mkClassId { cls_module : string; cls_qualname : string }.

(** [VEnum cls mixin v]: a member with value [v]; [mixin] when the class also
    derives from [str], [int] or the like.  [VObject]: any other object: what
    [item()] and [tolist()] give where they exist, give something else than
    the object and do not raise; whether it is callable; its [__dict__]. *)
Inductive value :=
| VNone
| VBool (b : bool)
| VInt (z : Z)
| VFloat (x : float)
| VStr (s : string)
| VBytes (s : string)
| VEnum (cls : ClassId) (mixin : bool) (v : value)
| VDecimal (text : string)
| VPath (text : string)
| VData (cls : ClassId) (fields : list (string * value))
| VDict (items : list (value * value))
| VList (xs : list value)
| VTuple (xs : list value)
| VSet (frozen : bool) (xs : list value)
| VDeque (maxlen : option Z) (xs : list value)
| VNamespace (attrs : list (string * value))
| VObject (type_name : string) (item tolist : option value) (is_callable : bool)
    (attrs : option (list (string * value))).

(** The values msgpack packs; its maps have [str] or [bytes] keys. *)
Inductive mkey := KStr (s : string) | KBin (s : string).

Inductive mval :=
| MNil
| MBool (b : bool)
| MInt (z : Z)
| MFloat (x : float)
| MStr (s : string)
| MBin (s : string)
| MList (xs : list mval)
| MMap (items : list (mkey * mval)).

#[export] Instance mkey_eq_dec : EqDecision mkey.
Proof. solve_decision. Defined.

Inductive codec_error :=
| TypeError (text : string)
| ValueError
| KeyError (key : string)
| AttributeError
| ImportError
| ConstructorError (text : string).

(** A name of the backtest engine's package: a class, or something else. *)
Inductive pyobj :=
| PEnum (call : value -> option value)
| PDataclass (cls : ClassId) (fields : list string)
| PClass
| PNotClass.

Definition MARKER : string := "__openpine_state_codec_v1__".

(** [module.startswith(_ALLOWED_DATACLASS_PREFIXES)]. *)
Definition allowed_module (m : string) : bool := String.prefix "backtest_engine." m.

Definition type_path (c : ClassId) : string := cls_module c +:+ ":" +:+ cls_qualname c.

Definition tagged (kind : string) (fields : list (string * mval)) : mval :=
  MMap ((KStr MARKER, MStr kind) :: (prod_map KStr id <$> fields)).

(** A key msgpack can pack as such. *)
Definition key_of (k : value) : option mkey :=
  match k with
  | VStr s | VEnum _ true (VStr s) => Some (KStr s)
  | VBytes s | VEnum _ true (VBytes s) => Some (KBin s)
  | _ => None
  end.

Definition key_value (k : mkey) : value :=
  match k with KStr s => VStr s | KBin s => VBytes s end.

Definition callable (v : value) : bool :=
  match v with VObject _ _ _ b _ => b | _ => false end.

Definition hidden (name : string) (v : value) : bool := String.prefix "_" name || callable v.

(** [text.partition(sep)]: before, found, after. *)
Fixpoint str_partition (sep : ascii) (s : string) : string * bool * string :=
  match s with
  | EmptyString => ("", false, "")
  | String c s' =>
      if ascii_dec c sep then ("", true, s')
      else let '(a, b, r) := str_partition sep s' in (String c a, b, r)
  end.

(** [text.split(sep)]. *)
Fixpoint str_split (sep : ascii) (s : string) : list string :=
  match s with
  | EmptyString => [""]
  | String c s' =>
      if ascii_dec c sep then "" :: str_split sep s'
      else match str_split sep s' with
           | [] => [String c ""]
           | p :: ps => String c p :: ps
           end
  end.

Definition unsupported (name : string) : codec_error := TypeError ("unsupported msgpack value type: " +:+ name).

Section Codec.

(** The interpreter: [==], [hash] raising or not, and the text by which the
    encoded form of a set's element is sorted. *)
Variable py_eq : value -> value -> bool.
Variable hashable : value -> bool.
Variable repr_encoded : value -> string.
(** [Decimal(x)] and [Path(x)]: the text of the object, or what they raise. *)
Variable decimal_of : mval -> result codec_error string.
Variable path_of : mval -> result codec_error string.
(** [importlib.import_module] followed by [getattr] along a path of names. *)
Variable load : string -> list string -> option pyobj.

(** ** Encoding *)

(** A member of a mixin enumeration is itself a [str] or [int]: it is returned
    as it is, and what is packed is that value. *)
Fixpoint to_msgpack_safe (v : value) : result codec_error mval :=
  match v with
  | VNone => Ok MNil
  | VBool b => Ok (MBool b)
  | VInt z => Ok (MInt z)
  | VFloat x => Ok (MFloat x)
  | VStr s => Ok (MStr s)
  | VBytes s => Ok (MBin s)
  | VEnum _ true x => to_msgpack_safe x
  | VEnum c false x =>
      let! m := to_msgpack_safe x in Ok (tagged "enum" [("type", MStr (type_path c)); ("value", m)])
  | VDecimal t => Ok (tagged "decimal" [("value", MStr t)])
  | VPath t => Ok (tagged "path" [("value", MStr t)])
  | VData c fields =>
      if allowed_module (cls_module c) then
        let! ms := result_map (fun '(n, x) => let! m := to_msgpack_safe x in Ok (KStr n, m)) fields in
        Ok (tagged "dataclass" [("type", MStr (type_path c)); ("fields", MMap ms)])
      else Err (TypeError ("unsupported msgpack dataclass type: " +:+ cls_module c +:+ "." +:+ cls_qualname c))
  | VDict items =>
      if forallb (fun '(k, _) => bool_decide (is_Some (key_of k))) items then
        let! ms := result_map (fun '(k, x) => let! m := to_msgpack_safe x in
                                              Ok (default (KStr "") (key_of k), m)) items in
        Ok (MMap ms)
      else
        let! ms := result_map (fun '(k, x) => let! mk := to_msgpack_safe k in let! m := to_msgpack_safe x in
                                              Ok (MList [mk; m])) items in
        Ok (tagged "mapping" [("items", MList ms)])
  | VList xs => let! ms := result_map to_msgpack_safe xs in Ok (MList ms)
  | VTuple xs => let! ms := result_map to_msgpack_safe xs in Ok (tagged "tuple" [("items", MList ms)])
  | VSet frozen xs =>
      let! ms := result_map (fun x => let! m := to_msgpack_safe x in Ok (repr_encoded x, m)) xs in
      Ok (tagged (if frozen then "frozenset" else "set")
            [("items", MList ((sort_by (fun a b => str_leb a.1 b.1) ms).*2))])
  | VDeque maxlen xs =>
      let! ms := result_map to_msgpack_safe xs in
      Ok (tagged "deque" [("items", MList ms); ("maxlen", from_option MInt MNil maxlen)])
  | VNamespace attrs =>
      let! ms := result_map (fun '(n, x) => let! m := to_msgpack_safe x in Ok (KStr n, m)) attrs in Ok (MMap ms)
  | VObject name item tolist is_callable attrs =>
      let rest :=
        if is_callable then Err (unsupported name)
        else match attrs with
             | Some l =>
                 let! ms := result_map (fun '(n, x) => if hidden n x then Ok None
                                                       else let! m := to_msgpack_safe x in Ok (Some (KStr n, m))) l in
                 Ok (MMap (omap id ms))
             | None => Err (unsupported name)
             end in
      match item with
      | Some x => to_msgpack_safe x
      | None =>
          match tolist with
          | Some x =>
              match to_msgpack_safe x with
              | Err (TypeError _) | Err ValueError => rest
              | r => r
              end
          | None => rest
          end
      end
  end.

(** ** Decoding *)

Definition unsafe_type (path : string) : codec_error := TypeError ("unsafe snapshot type: " +:+ path).

(** The walk along the parts of a qualified name, [at_] being the parts done. *)
Fixpoint resolve_parts (path m : string) (at_ parts : list string) : result codec_error pyobj :=
  match parts with
  | [] => match load m at_ with Some o => Ok o | None => Err AttributeError end
  | p :: parts' =>
      if String.prefix "_" p then Err (unsafe_type path)
      else match load m (at_ ++ [p]) with
           | Some _ => resolve_parts path m (at_ ++ [p]) parts'
           | None => Err AttributeError
           end
  end.

Definition resolve_type (path : string) : result codec_error pyobj :=
  let '(m, separator, qualname) := str_partition ":" path in
  if negb separator || negb (allowed_module m) then Err (unsafe_type path)
  else match load m [] with
       | None => Err ImportError
       | Some _ =>
           let! o := resolve_parts path m [] (str_split "." qualname) in
           match o with
           | PNotClass => Err (TypeError ("snapshot type is not a class: " +:+ path))
           | _ => Ok o
           end
       end.

(** A field of a tagged map with the restored forms its decoder may ask for:
    of the field, of its elements, of their elements, and of its entries. *)
Record Elem := mkElem { e_raw : mval; e_dec : result codec_error value; e_elems : list (result codec_error value) }.

Record Field := mkField {
  f_raw : mval;
  f_dec : result codec_error value;
  f_elems : list Elem;
  f_entries : list (mkey * result codec_error value)
}.

Definition chars (s : string) : list string := (fun c => String c "") <$> String.list_ascii_of_string s.

(** What [for x in raw] yields when [raw] is not a list: none of these has
    anything to restore.  [None]: not iterable. *)
Definition iter_plain (raw : mval) : option (list value) :=
  match raw with
  | MMap l => Some (key_value <$> l.*1)
  | MStr s => Some (VStr <$> chars s)
  | MBin s => Some ((fun c => VInt (Z.of_nat (nat_of_ascii c))) <$> String.list_ascii_of_string s)
  | _ => None
  end.

Definition not_iterable : codec_error := TypeError "object is not iterable".

(** [(from_msgpack_safe(item) for item in value["items"])]. *)
Definition items_of (f : Field) : result codec_error (list (result codec_error value)) :=
  match f_raw f with
  | MList _ => Ok (e_dec <$> f_elems f)
  | raw => match iter_plain raw with Some vs => Ok (Ok <$> vs) | None => Err not_iterable end
  end.

(** [key, item = element], each then restored. *)
Definition pair_of (e : Elem) : result codec_error (result codec_error value * result codec_error value) :=
  let unpack (l : list (result codec_error value)) :=
    match l with [k; x] => Ok (k, x) | _ => Err ValueError end in
  match e_raw e with
  | MList _ => unpack (e_elems e)
  | raw => match iter_plain raw with Some vs => unpack (Ok <$> vs) | None => Err not_iterable end
  end.

(** [{... for ...}]: insertion into a set and into a dictionary. *)
Definition set_add (acc : list value) (r : result codec_error value) : result codec_error (list value) :=
  let! x := r in
  if hashable x then Ok (if existsb (py_eq x) acc then acc else acc ++ [x]) else Err (TypeError "unhashable type").

Fixpoint dict_put (k x : value) (d : list (value * value)) : list (value * value) :=
  match d with
  | [] => [(k, x)]
  | (k', x') :: d' => if py_eq k k' then (k', x) :: d' else (k', x') :: dict_put k x d'
  end.

Definition dict_add (acc : list (value * value)) (e : Elem) : result codec_error (list (value * value)) :=
  let! '(rk, rx) := pair_of e in
  let! k := rk in
  let! x := rx in
  if hashable k then Ok (dict_put k x acc) else Err (TypeError "unhashable type").

(** [deque(items, maxlen=...)]: the last [maxlen] items stay. *)
Definition last_n {A} (n : Z) (xs : list A) : list A := drop (length xs - Z.to_nat n) xs.

Definition make_deque (maxlen : mval) (items : list (result codec_error value)) : result codec_error value :=
  let bounded n := if n <? 0 then Err ValueError
                   else let! xs := result_map id items in Ok (VDeque (Some n) (last_n n xs)) in
  match maxlen with
  | MNil => let! xs := result_map id items in Ok (VDeque None xs)
  | MInt n => bounded n
  | MBool b => bounded (if b then 1 else 0)
  | _ => Err (TypeError "an integer is required")
  end.

Definition subscript (l : list (mkey * Field)) (k : string) : result codec_error Field :=
  match dget l (KStr k) with Some f => Ok f | None => Err (KeyError k) end.

Definition raw_of (l : list (mkey * Field)) (k : string) (dflt : mval) : mval := from_option f_raw dflt (dget l (KStr k)).

(** [_resolve_type(value["type"])]. *)
Definition resolve_field (l : list (mkey * Field)) : result codec_error (string * pyobj) :=
  let! f := subscript l "type" in
  match f_raw f with
  | MStr path => let! o := resolve_type path in Ok (path, o)
  | MBin _ => Err (TypeError "a bytes-like object is required, not 'str'")
  | _ => Err AttributeError
  end.

Definition same_names (names fields : list string) : bool :=
  forallb (fun n => bool_decide (n ∈ fields)) names && forallb (fun n => bool_decide (n ∈ names)) fields.

Definition names_of (ks : list value) : option (list string) :=
  mapM (fun k => match k with VStr s => Some s | _ => None end) ks.

(** The fields of a dataclass instance: [set(raw_fields) != fields] is checked
    on whatever [raw_fields] is, then its [items()] are restored. *)
Definition data_fields (path : string) (names : list string) (f : option Field)
    : result codec_error (list (string * value)) :=
  let mismatch := Err (TypeError ("snapshot dataclass fields do not match: " +:+ path)) in
  let agrees ks := match names_of ks with Some ns => same_names ns names | None => false end in
  match f with
  | None => if same_names [] names then Ok [] else mismatch
  | Some f =>
      match f_raw f with
      | MMap l =>
          if agrees (key_value <$> l.*1) then
            result_map (fun '(k, r) => let! x := r in
                          Ok (match k with KStr s | KBin s => s end, x)) (f_entries f)
          else mismatch
      | MList _ =>
          match mapM (fun e => match e_raw e with MStr s => Some s | _ => None end) (f_elems f) with
          | Some ns => if same_names ns names then Err AttributeError else mismatch
          | None => mismatch
          end
      | raw =>
          match iter_plain raw with
          | Some ks => if agrees ks then Err AttributeError else mismatch
          | None => Err not_iterable
          end
      end
  end.

Definition from_tagged (kind : string) (l : list (mkey * Field)) : result codec_error value :=
  if bool_decide (kind = "tuple") then
    let! f := subscript l "items" in let! rs := items_of f in
    let! xs := result_map id rs in Ok (VTuple xs)
  else if bool_decide (kind = "set") || bool_decide (kind = "frozenset") then
    let! f := subscript l "items" in let! rs := items_of f in
    let! xs := result_fold set_add [] rs in Ok (VSet (bool_decide (kind = "frozenset")) xs)
  else if bool_decide (kind = "deque") then
    let! f := subscript l "items" in let! rs := items_of f in make_deque (raw_of l "maxlen" MNil) rs
  else if bool_decide (kind = "mapping") then
    let! f := subscript l "items" in
    let! es := match f_raw f with
               | MList _ => Ok (f_elems f)
               | raw => match iter_plain raw with
                        | Some vs => Ok ((fun v => mkElem (match v with VStr s => MStr s | VBytes s => MBin s | _ => MNil end)
                                                     (Ok v) []) <$> vs)
                        | None => Err not_iterable
                        end
               end in
    let! d := result_fold dict_add [] es in Ok (VDict d)
  else if bool_decide (kind = "decimal") then
    let! f := subscript l "value" in let! t := decimal_of (f_raw f) in Ok (VDecimal t)
  else if bool_decide (kind = "path") then
    let! f := subscript l "value" in let! t := path_of (f_raw f) in Ok (VPath t)
  else if bool_decide (kind = "enum") then
    let! '(path, o) := resolve_field l in
    match o with
    | PEnum call =>
        let! f := subscript l "value" in
        let! x := f_dec f in
        match call x with Some v => Ok v | None => Err ValueError end
    | _ => Err (TypeError ("snapshot enum type is not an Enum: " +:+ path))
    end
  else if bool_decide (kind = "dataclass") then
    let! '(path, o) := resolve_field l in
    match o with
    | PDataclass c names =>
        let! fs := data_fields path names (dget l (KStr "fields")) in Ok (VData c fs)
    | _ => Err (TypeError ("snapshot type is not a dataclass: " +:+ path))
    end
  else Err (TypeError ("unknown snapshot codec tag: " +:+ kind)).

Fixpoint from_msgpack_safe (m : mval) : result codec_error value :=
  match m with
  | MNil => Ok VNone
  | MBool b => Ok (VBool b)
  | MInt z => Ok (VInt z)
  | MFloat x => Ok (VFloat x)
  | MStr s => Ok (VStr s)
  | MBin s => Ok (VBytes s)
  | MList xs => let! vs := result_map from_msgpack_safe xs in Ok (VList vs)
  | MMap l =>
      match dget l (KStr MARKER) with
      | None | Some MNil =>
          let! kvs := result_map (fun '(k, x) => let! v := from_msgpack_safe x in Ok (key_value k, v)) l in
          Ok (VDict kvs)
      | Some (MStr kind) =>
          from_tagged kind
            (List.map (fun '(k, x) =>
               (k, mkField x (from_msgpack_safe x)
                     (match x with
                      | MList ys => List.map (fun y => mkElem y (from_msgpack_safe y)
                                      (match y with MList zs => List.map from_msgpack_safe zs | _ => [] end)) ys
                      | _ => []
                      end)
                     (match x with
                      | MMap l' => List.map (fun '(k', y) => (k', from_msgpack_safe y)) l'
                      | _ => []
                      end))) l)
      | Some (MList _) | Some (MMap _) => Err (TypeError "unhashable type")
      | Some _ => Err (TypeError "unknown snapshot codec tag")
      end
  end.

(** ** Payloads *)

Inductive payload_error :=
| PickleDisabled
| RootNotMapping
| CodecError (e : codec_error).

Context {Bytes : Type}.
Variable packb : mval -> result codec_error Bytes.
Variable unpackb : Bytes -> result codec_error mval.
Variable sha256 : Bytes -> string.
Variable pickle_dumps : value -> Bytes.
Variable pickle_loads : Bytes -> result codec_error value.
(** [OPENPINE_ALLOW_PICKLE_STATE=1]. *)
Variable pickle_state_enabled : bool.

Definition lift {A} (r : result codec_error A) : result payload_error A :=
  match r with Ok a => Ok a | Err e => Err (CodecError e) end.

(** [_encode_payload]: the bytes, the encoding and the hash. *)
Definition encode_payload (payload : value) : result payload_error (Bytes * string * string) :=
  match (let! safe_payload := to_msgpack_safe payload in packb safe_payload) with
  | Ok packed => Ok (packed, "msgpack", sha256 packed)
  | Err (TypeError _) | Err ValueError =>
      if pickle_state_enabled then
        let packed := pickle_dumps payload in Ok (packed, "pickle", sha256 packed)
      else Err PickleDisabled
  | Err e => Err (CodecError e)
  end.

Definition decode_payload (packed : Bytes) (encoding : string) : result payload_error value :=
  if bool_decide (encoding = "pickle") then
    if pickle_state_enabled then lift (pickle_loads packed) else Err PickleDisabled
  else
    let! decoded := lift (unpackb packed) in
    let! restored := lift (from_msgpack_safe decoded) in
    match restored with
    | VDict _ => Ok restored
    | _ => Err RootNotMapping
    end.

(** ** What survives a round trip *)

(** Sets come back with their elements in another order. *)
Inductive same : value -> value -> Prop :=
| same_refl v : same v v
| same_data c fs gs : fs.*1 = gs.*1 -> Forall2 same fs.*2 gs.*2 -> same (VData c fs) (VData c gs)
| same_dict ds es : ds.*1 = es.*1 -> Forall2 same ds.*2 es.*2 -> same (VDict ds) (VDict es)
| same_list xs ys : Forall2 same xs ys -> same (VList xs) (VList ys)
| same_tuple xs ys : Forall2 same xs ys -> same (VTuple xs) (VTuple ys)
| same_deque n xs ys : Forall2 same xs ys -> same (VDeque n xs) (VDeque n ys)
| same_set b xs ys : Permutation xs ys -> same (VSet b xs) (VSet b ys).

Fixpoint set_free (v : value) : bool :=
  match v with
  | VSet _ _ => false
  | VEnum _ _ x => set_free x
  | VData _ fs => forallb (fun '(_, x) => set_free x) fs
  | VDict ds => forallb (fun '(k, x) => set_free k && set_free x) ds
  | VList xs | VTuple xs | VDeque _ xs => forallb set_free xs
  | _ => true
  end.

(** Python's own invariant of dictionary keys and set elements. *)
Definition distinct (xs : list value) : Prop :=
  NoDup xs /\ Forall (fun x => hashable x = true) xs /\
  forall x y, x ∈ xs -> y ∈ xs -> py_eq x y = true -> x = y.

Definition plain_key (k : value) : Prop :=
  match k with VStr s => s <> MARKER | VBytes _ => True | _ => False end.

Definition packable_keys (ds : list (value * value)) : bool :=
  forallb (fun '(k, _) => bool_decide (is_Some (key_of k))) ds.

(** The values that are stored faithfully: enumerations and dataclasses of
    the backtest engine that [_resolve_type] finds, no mixin enumerations, no
    text key equal to the codec's marker, elements of sets and keys of
    dictionaries without sets inside, and none of the generic objects that are
    stored as mappings by design. *)
Fixpoint storable (v : value) : Prop :=
  match v with
  | VEnum c mixin x =>
      mixin = false /\ storable x /\ set_free x = true /\
      exists call, resolve_type (type_path c) = Ok (PEnum call) /\ call x = Some v
  | VDecimal t => decimal_of (MStr t) = Ok t
  | VPath t => path_of (MStr t) = Ok t
  | VData c fs =>
      allowed_module (cls_module c) = true /\ resolve_type (type_path c) = Ok (PDataclass c fs.*1) /\
      foldr (fun '(_, x) P => storable x /\ P) True fs
  | VDict ds =>
      distinct ds.*1 /\
      (if packable_keys ds then Forall plain_key ds.*1 else forallb set_free ds.*1 = true) /\
      foldr (fun '(k, x) P => (storable k /\ storable x) /\ P) True ds
  | VList xs | VTuple xs => foldr (fun x P => storable x /\ P) True xs
  | VSet _ xs =>
      distinct xs /\ forallb set_free xs = true /\ foldr (fun x P => storable x /\ P) True xs
  | VDeque n xs =>
      (forall k, n = Some k -> Z.of_nat (length xs) <= k) /\ foldr (fun x P => storable x /\ P) True xs
  | VNamespace _ | VObject _ _ _ _ _ => False
  | _ => True
  end.

Definition is_leaf (v : value) : bool :=
  match v with
  | VNone | VBool _ | VInt _ | VFloat _ | VStr _ | VBytes _ | VDecimal _ | VPath _ => true
  | _ => false
  end.

(** Induction through the containers. *)
Lemma value_nested_ind (P : value -> Prop) :
  (forall v, is_leaf v = true -> P v) ->
  (forall c b x, P x -> P (VEnum c b x)) ->
  (forall c fs, Forall P fs.*2 -> P (VData c fs)) ->
  (forall ds, Forall P ds.*1 -> Forall P ds.*2 -> P (VDict ds)) ->
  (forall xs, Forall P xs -> P (VList xs)) ->
  (forall xs, Forall P xs -> P (VTuple xs)) ->
  (forall b xs, Forall P xs -> P (VSet b xs)) ->
  (forall n xs, Forall P xs -> P (VDeque n xs)) ->
  (forall attrs, P (VNamespace attrs)) ->
  (forall t i l b a, P (VObject t i l b a)) ->
  forall v, P v.
Proof.
  intros Hleaf Henum Hdata Hdict Hlist Htuple Hset Hdeque Hns Hobj. fix IH 1. intros v.
  destruct v; try (by apply Hleaf); [apply Henum, IH|apply Hdata|apply Hdict|apply Hlist|apply Htuple|apply Hset|
    apply Hdeque|apply Hns|apply Hobj].
  - induction fields as [|[n x] fs IHfs]; constructor; [apply IH|apply IHfs].
  - induction items as [|[k x] ds IHds]; constructor; [apply IH|apply IHds].
  - induction items as [|[k x] ds IHds]; constructor; [apply IH|apply IHds].
  - induction xs as [|x xs IHxs]; constructor; [apply IH|apply IHxs].
  - induction xs as [|x xs IHxs]; constructor; [apply IH|apply IHxs].
  - induction xs as [|x xs IHxs]; constructor; [apply IH|apply IHxs].
  - induction xs as [|x xs IHxs]; constructor; [apply IH|apply IHxs].
Qed.

Lemma foldr_and {A} (Q : A -> Prop) xs : foldr (fun x P => Q x /\ P) True xs <-> Forall Q xs.
Proof. induction xs; simpl; [by split; constructor|]. by rewrite Forall_cons, IHxs. Qed.

Lemma foldr_and_snd {A} (Q : value -> Prop) (l : list (A * value)) :
  foldr (fun '(_, x) P => Q x /\ P) True l <-> Forall Q l.*2.
Proof. induction l as [|[]]; simpl; [by split; constructor|]. by rewrite Forall_cons, IHl. Qed.

Lemma foldr_and_both (Q : value -> Prop) (l : list (value * value)) :
  foldr (fun '(k, x) P => (Q k /\ Q x) /\ P) True l <-> Forall Q l.*1 /\ Forall Q l.*2.
Proof.
  induction l as [|[]]; simpl; [by repeat split; constructor|]. rewrite !Forall_cons, IHl. tauto.
Qed.

Lemma forallb_Forall {A} (p : A -> bool) xs : forallb p xs = true <-> Forall (fun x => p x = true) xs.
Proof. rewrite forallb_forall, Forall_forall. setoid_rewrite list_elem_of_In. done. Qed.

Lemma pairs_eq {A B} (l l' : list (A * B)) : l.*1 = l'.*1 -> l.*2 = l'.*2 -> l = l'.
Proof.
  revert l'. induction l as [|[a b] l IH]; intros [|[a' b'] l'] H1 H2; simplify_eq/=; [done|]. f_equal. auto.
Qed.

Lemma forallb_snd {A} (p : value -> bool) (l : list (A * value)) : forallb (fun '(_, x) => p x) l = forallb p l.*2.
Proof. induction l as [|[a x] l IH]; simpl; [done|]. by rewrite IH. Qed.

Lemma forallb_both (p : value -> bool) (l : list (value * value)) :
  forallb (fun '(k, x) => p k && p x) l = forallb p l.*1 && forallb p l.*2.
Proof. induction l as [|[k x] l IH]; simpl; [done|]. rewrite IH. destruct (p k), (p x); simpl; by rewrite ?andb_false_r. Qed.

Lemma same_set_free v v' : set_free v = true -> same v v' -> v' = v.
Proof.
  assert (Hl : forall xs ys, Forall (fun v => forall v', set_free v = true -> same v v' -> v' = v) xs ->
                             forallb set_free xs = true -> Forall2 same xs ys -> ys = xs).
  { intros xs ys Hx Hf H. induction H; [done|]. apply Forall_cons in Hx as [? ?]. simpl in Hf.
    apply andb_true_iff in Hf as [? ?]. f_equal; auto. }
  revert v'. induction v using value_nested_ind; intros v' Hf Hs; inversion Hs; subst; try done; simpl in *;
    try (f_equal; by apply Hl).
  - rewrite forallb_snd in Hf. f_equal. apply pairs_eq; auto.
  - rewrite forallb_both in Hf. apply andb_true_iff in Hf as [_ Hf]. f_equal. apply pairs_eq; auto.
Qed.

(** ** The round trip *)

Definition field_of (x : mval) : Field :=
  mkField x (from_msgpack_safe x)
    (match x with
     | MList ys => List.map (fun y => mkElem y (from_msgpack_safe y)
                     (match y with MList zs => List.map from_msgpack_safe zs | _ => [] end)) ys
     | _ => []
     end)
    (match x with MMap l => List.map (fun '(k, y) => (k, from_msgpack_safe y)) l | _ => [] end).

Lemma from_tagged_eq kind fields :
  from_msgpack_safe (tagged kind fields) =
  from_tagged kind (prod_map id field_of <$> (KStr MARKER, MStr kind) :: (prod_map KStr id <$> fields)).
Proof.
  unfold tagged. simpl. f_equal. f_equal. induction fields as [|[n x] fields IH]; simpl; [done|]. f_equal. exact IH.
Qed.

Lemma from_map_eq l :
  from_msgpack_safe (MMap l) =
  match dget l (KStr MARKER) with
  | None | Some MNil =>
      let! kvs := result_map (fun '(k, x) => let! v := from_msgpack_safe x in Ok (key_value k, v)) l in Ok (VDict kvs)
  | Some (MStr kind) => from_tagged kind (List.map (prod_map id field_of) l)
  | Some (MList _) | Some (MMap _) => Err (TypeError "unhashable type")
  | Some _ => Err (TypeError "unknown snapshot codec tag")
  end.
Proof.
  simpl. destruct (dget l (KStr MARKER)) as [[]|]; try reflexivity. f_equal.
  induction l as [|[k x] l IH]; simpl; [done|]. f_equal. exact IH.
Qed.

Definition back (x : value) (m : mval) (y : value) : Prop :=
  to_msgpack_safe x = Ok m /\ from_msgpack_safe m = Ok y /\ same x y.

(** A list of values, their encodings and what those restore to. *)
Definition back_list (xs : list value) (ms : list mval) (ys : list value) : Prop :=
  Forall2 (fun x m => to_msgpack_safe x = Ok m) xs ms /\ Forall2 (fun m y => from_msgpack_safe m = Ok y) ms ys /\
  Forall2 same xs ys.

Lemma back_list_intro xs :
  Forall (fun x => storable x -> exists m y, back x m y) xs -> Forall storable xs -> exists ms ys, back_list xs ms ys.
Proof.
  intros H Hs. induction xs as [|x xs IH]; [exists [], []; split_and!; constructor|].
  apply Forall_cons in H as [Hx H]. apply Forall_cons in Hs as [Hsx Hs].
  destruct (Hx Hsx) as (m & y & ? & ? & ?). destruct (IH H Hs) as (ms & ys & ? & ? & ?).
  exists (m :: ms), (y :: ys). split_and!; by constructor.
Qed.

Lemma back_list_exact xs ms ys : forallb set_free xs = true -> back_list xs ms ys -> ys = xs.
Proof.
  intros Hf (_ & _ & Hs). apply (same_set_free (VList xs) (VList ys)) in Hf; [congruence|by constructor].
Qed.

Lemma encode_list xs ms ys : back_list xs ms ys -> result_map to_msgpack_safe xs = Ok ms.
Proof. intros (H & _). by apply result_map_ok. Qed.

Lemma encode_pairs {K} (h : K -> mkey) (l : list (K * value)) ms :
  Forall2 (fun x m => to_msgpack_safe x = Ok m) l.*2 ms ->
  result_map (fun '(n, x) => let! m := to_msgpack_safe x in Ok (h n, m)) l = Ok (zip (h <$> l.*1) ms).
Proof.
  revert ms. induction l as [|[n x] l IH]; intros ms H; inversion H; subst; simpl; [done|].
  match goal with H : to_msgpack_safe x = _ |- _ => rewrite H end. simpl. by erewrite IH.
Qed.

Lemma decode_list ms ys :
  Forall2 (fun m y => from_msgpack_safe m = Ok y) ms ys -> result_map from_msgpack_safe ms = Ok ys.
Proof. by rewrite result_map_ok. Qed.

Lemma decoded_items ms ys :
  Forall2 (fun m y => from_msgpack_safe m = Ok y) ms ys -> items_of (field_of (MList ms)) = Ok (Ok <$> ys).
Proof.
  intros H. unfold items_of. simpl. f_equal. induction H; simpl; [done|]. f_equal; auto.
Qed.

Lemma result_map_id_ok {A} (xs : list A) : result_map (E:=codec_error) id (Ok <$> xs) = Ok xs.
Proof. induction xs as [|x xs IH]; [done|]. rewrite fmap_cons. cbn [result_map id result_bind]. by rewrite IH. Qed.

Lemma set_fold_distinct acc xs : distinct (acc ++ xs) -> result_fold set_add acc (Ok <$> xs) = Ok (acc ++ xs).
Proof.
  revert acc. induction xs as [|x xs IH]; intros acc Hd; [simpl; by rewrite app_nil_r|].
  rewrite fmap_cons. cbn [result_fold]. pose proof Hd as (Hnd & Hh & Heq). rewrite Forall_app, Forall_cons in Hh. destruct Hh as (_ & Hx & _).
  unfold set_add at 1. cbn [result_bind]. rewrite Hx. cbn [result_bind]. destruct (existsb (py_eq x) acc) eqn:E.
  - apply existsb_exists in E as (y & Hy%list_elem_of_In & E). apply Heq in E; [|set_solver..]. subst.
    apply NoDup_app in Hnd as (_ & Hno & _). exfalso. apply (Hno y); set_solver.
  - rewrite IH; by rewrite <-app_assoc.
Qed.

Lemma dict_put_fresh k x d : (forall k', k' ∈ d.*1 -> py_eq k k' = false) -> dict_put k x d = d ++ [(k, x)].
Proof.
  induction d as [|[k' x'] d IH]; intros H; simpl; [done|]. rewrite H by set_solver. f_equal. apply IH. set_solver.
Qed.

Lemma list_back xs ms ys : back_list xs ms ys -> back (VList xs) (MList ms) (VList ys).
Proof.
  intros H. pose proof H as (_ & Hd & Hs). split_and!; simpl.
  - by rewrite (encode_list _ _ _ H).
  - by rewrite (decode_list _ _ Hd).
  - by constructor.
Qed.

Lemma tuple_back xs ms ys :
  back_list xs ms ys -> back (VTuple xs) (tagged "tuple" [("items", MList ms)]) (VTuple ys).
Proof.
  intros H. pose proof H as (_ & Hd & Hs). split_and!.
  - simpl. by rewrite (encode_list _ _ _ H).
  - rewrite from_tagged_eq.
    transitivity (let! rs := items_of (field_of (MList ms)) in let! xs' := result_map id rs in
                  Ok (E:=codec_error) (VTuple xs')); [reflexivity|].
    rewrite (decoded_items _ _ Hd). simpl. by rewrite result_map_id_ok.
  - by constructor.
Qed.

Lemma deque_back n xs ms ys :
  (forall k, n = Some k -> Z.of_nat (length xs) <= k) -> back_list xs ms ys ->
  back (VDeque n xs) (tagged "deque" [("items", MList ms); ("maxlen", from_option MInt MNil n)]) (VDeque n ys).
Proof.
  intros Hn H. pose proof H as (_ & Hd & Hs). split_and!.
  - simpl. by rewrite (encode_list _ _ _ H).
  - rewrite from_tagged_eq.
    transitivity (let! rs := items_of (field_of (MList ms)) in make_deque (from_option MInt MNil n) rs);
      [reflexivity|].
    rewrite (decoded_items _ _ Hd). simpl. destruct n as [k|]; simpl; [|by rewrite result_map_id_ok].
    specialize (Hn _ eq_refl). replace (k <? 0) with false by lia. rewrite result_map_id_ok. simpl.
    unfold last_n. apply Forall2_length in Hs. replace (length ys - Z.to_nat k)%nat with 0%nat by lia. done.
  - by constructor.
Qed.

Lemma distinct_perm xs ys : Permutation xs ys -> distinct xs -> distinct ys.
Proof.
  intros Hp (Hnd & Hh & Heq). split_and!; [by rewrite <-Hp|by rewrite <-Hp|].
  intros x y Hx Hy. rewrite <-Hp in Hx, Hy. auto.
Qed.

(** Sorting the encodings sorts the elements behind them. *)
Lemma sorted_back xs ms ys :
  forallb set_free xs = true -> back_list xs ms ys ->
  exists xs' ms', Permutation xs xs' /\ Forall2 (fun m x => from_msgpack_safe m = Ok x) ms' xs' /\
    (sort_by (fun a b => str_leb a.1 b.1) (zip (repr_encoded <$> xs) ms)).*2 = ms'.
Proof.
  intros Hf H. pose proof (back_list_exact _ _ _ Hf H) as ->. destruct H as (_ & Hd & _).
  set (l := zip (repr_encoded <$> xs) ms).
  assert (Hl : Forall2 (fun p x => from_msgpack_safe p.2 = Ok x) l xs).
  { subst l. clear Hf. induction Hd; simpl; [constructor|]. by constructor. }
  destruct (Permutation_Forall2 (symmetry (sort_by_perm (fun a b => str_leb a.1 b.1) l)) Hl) as (xs' & Hp & Hl').
  exists xs', (sort_by (fun a b => str_leb a.1 b.1) l).*2. split_and!; [done| |done]. by apply Forall2_fmap_l.
Qed.

Lemma set_back b xs ms ys :
  distinct xs -> forallb set_free xs = true -> back_list xs ms ys ->
  exists m y, back (VSet b xs) m y.
Proof.
  intros Hdist Hf H. destruct (sorted_back _ _ _ Hf H) as (xs' & ms' & Hp & Hd & Hms).
  exists (tagged (if b then "frozenset" else "set") [("items", MList ms')]), (VSet b xs'). split_and!.
  - simpl. assert (Hm : result_map (fun x => let! m := to_msgpack_safe x in Ok (repr_encoded x, m)) xs
                        = Ok (zip (repr_encoded <$> xs) ms)).
    { destruct H as (He & _). clear -He. induction He as [|x m xs ms Hx]; [done|]. simpl.
      rewrite Hx. simpl. by rewrite IHHe. }
    rewrite Hm. simpl. by rewrite <-Hms.
  - rewrite from_tagged_eq.
    transitivity (let! rs := items_of (field_of (MList ms')) in let! xs := result_fold set_add [] rs in
                  Ok (E:=codec_error) (VSet b xs)); [by destruct b|].
    rewrite (decoded_items _ _ Hd). cbn [result_bind].
    rewrite (set_fold_distinct [] xs'); [done|]. by eapply distinct_perm.
  - by constructor.
Qed.

Lemma enum_back c x m y :
  storable (VEnum c false x) -> back x m y ->
  back (VEnum c false x) (tagged "enum" [("type", MStr (type_path c)); ("value", m)]) (VEnum c false x).
Proof.
  intros (_ & _ & Hf & call & Hr & Hc) (He & Hd & Hs). apply same_set_free in Hs as ->; [|done]. split_and!.
  - simpl. by rewrite He.
  - rewrite from_tagged_eq.
    transitivity (let! o := resolve_type (type_path c) in
                  match o with
                  | PEnum call => let! x := from_msgpack_safe m in
                                  match call x with Some v => Ok v | None => Err ValueError end
                  | _ => Err (TypeError ("snapshot enum type is not an Enum: " +:+ type_path c))
                  end).
    { change (from_tagged "enum" _) with
        (let! '(path, o) := (let! o := resolve_type (type_path c) in Ok (type_path c, o)) in
         match o with
         | PEnum call => let! x := from_msgpack_safe m in
                         match call x with Some v => Ok v | None => Err ValueError end
         | _ => Err (TypeError ("snapshot enum type is not an Enum: " +:+ path))
         end). by destruct (resolve_type _). }
    rewrite Hr. cbn [result_bind]. rewrite Hd. cbn [result_bind]. by rewrite Hc.
  - constructor.
Qed.

Lemma names_of_keys names : names_of (key_value <$> (KStr <$> names)) = Some names.
Proof. unfold names_of. induction names as [|n names IH]; [done|]. rewrite !fmap_cons. simpl. by rewrite IH. Qed.

Lemma same_names_refl names : same_names names names = true.
Proof.
  unfold same_names. rewrite andb_true_iff, !forallb_Forall, Forall_forall.
  split; intros; by apply bool_decide_eq_true.
Qed.

Lemma decode_entries {K} (h : mkey -> K) ks ms ys :
  length ks = length ms -> Forall2 (fun m y => from_msgpack_safe m = Ok y) ms ys ->
  result_map (fun '(k, r) => let! x := r in Ok (h k, x))
    (List.map (fun '(k, y) => (k, from_msgpack_safe y)) (zip ks ms)) = Ok (zip (h <$> ks) ys).
Proof.
  intros Hlen H. revert ks Hlen. induction H as [|m y ms ys Hm H IH]; intros [|k ks] Hlen; simplify_eq/=; [done|].
  rewrite Hm. simpl. by rewrite IH.
Qed.

Lemma data_back c fs ms ys :
  allowed_module (cls_module c) = true -> resolve_type (type_path c) = Ok (PDataclass c fs.*1) ->
  back_list fs.*2 ms ys -> exists m, back (VData c fs) m (VData c (zip fs.*1 ys)).
Proof.
  intros Hall Hr (He & Hd & Hs).
  exists (tagged "dataclass" [("type", MStr (type_path c)); ("fields", MMap (zip (KStr <$> fs.*1) ms))]).
  pose proof (Forall2_length _ _ _ He) as Hlen. pose proof (Forall2_length _ _ _ Hs) as Hlen'.
  rewrite !length_fmap in *. split_and!.
  - simpl. rewrite Hall. by rewrite (encode_pairs KStr _ _ He).
  - rewrite from_tagged_eq. change (from_tagged "dataclass" _) with
      (let! '(path, o) := (let! o := resolve_type (type_path c) in Ok (type_path c, o)) in
       match o with
       | PDataclass c names =>
           let! fs := data_fields path names (Some (field_of (MMap (zip (KStr <$> fs.*1) ms)))) in Ok (VData c fs)
       | _ => Err (TypeError ("snapshot type is not a dataclass: " +:+ path))
       end).
    rewrite Hr. cbn [result_bind]. unfold data_fields. cbn [field_of f_raw f_entries].
    rewrite fst_zip by (rewrite !length_fmap; lia). rewrite names_of_keys, same_names_refl.
    rewrite (decode_entries _ _ _ ys); [|rewrite !length_fmap; lia|done]. cbn [result_bind].
    by rewrite <-list_fmap_compose, list_fmap_id.
  - constructor; [rewrite fst_zip; [done|rewrite length_fmap; lia]|].
    rewrite snd_zip; [done|rewrite length_fmap; lia].
Qed.

Lemma decode_untagged ks ms ys :
  length ks = length ms -> KStr MARKER ∉ ks -> Forall2 (fun m y => from_msgpack_safe m = Ok y) ms ys ->
  from_msgpack_safe (MMap (zip ks ms)) = Ok (VDict (zip (key_value <$> ks) ys)).
Proof.
  intros Hlen Hk Hd. assert (Hg : dget (zip ks ms) (KStr MARKER) = None).
  { destruct (dget _ _) eqn:E; [|done]. apply dget_Some_elem in E. apply elem_of_zip_l in E. done. }
  simpl. rewrite Hg. assert (Hm : result_map (fun '(k, x) => let! v := from_msgpack_safe x in Ok (key_value k, v)) (zip ks ms)
    = Ok (zip (key_value <$> ks) ys)); [|by rewrite Hm].
  clear -Hlen Hd. revert ks Hlen. induction Hd as [|m y ms ys Hm Hd IH]; intros [|k ks] Hlen; simplify_eq/=; [done|].
  rewrite Hm. simpl. by rewrite IH.
Qed.

Lemma plain_keys (ds : list (value * value)) :
  Forall plain_key ds.*1 ->
  KStr MARKER ∉ ((fun k => default (KStr "") (key_of k)) <$> ds.*1) /\
  key_value <$> ((fun k => default (KStr "") (key_of k)) <$> ds.*1) = ds.*1.
Proof.
  induction ds as [|[k x] ds IH]; intros H; [split; [set_solver|done]|]. rewrite !fmap_cons in *.
  apply Forall_cons in H as [Hk H]. destruct (IH H) as [Hn He]. simpl in Hk. split.
  - rewrite not_elem_of_cons. split; [|done]. destruct k; simpl in *; congruence.
  - rewrite He. f_equal. by destruct k.
Qed.

Lemma plain_dict_back ds ms ys :
  packable_keys ds = true -> Forall plain_key ds.*1 -> back_list ds.*2 ms ys ->
  exists m, back (VDict ds) m (VDict (zip ds.*1 ys)).
Proof.
  intros Hp Hk (He & Hd & Hs). destruct (plain_keys _ Hk) as [Hn Hv].
  pose proof (Forall2_length _ _ _ He) as Hlen. pose proof (Forall2_length _ _ _ Hs) as Hlen'.
  rewrite !length_fmap in *. eexists. split_and!.
  - simpl. unfold packable_keys in Hp. rewrite Hp.
    by rewrite (encode_pairs (fun k => default (KStr "") (key_of k)) _ _ He).
  - rewrite (decode_untagged _ _ ys); [by rewrite Hv|by rewrite !length_fmap|done|done].
  - constructor; [rewrite fst_zip|rewrite snd_zip]; rewrite ?length_fmap; done || lia.
Qed.

Lemma encode_mapping ds mks ms :
  Forall2 (fun x m => to_msgpack_safe x = Ok m) ds.*1 mks ->
  Forall2 (fun x m => to_msgpack_safe x = Ok m) ds.*2 ms ->
  result_map (fun '(k, x) => let! mk := to_msgpack_safe k in let! m := to_msgpack_safe x in Ok (MList [mk; m])) ds
  = Ok (zip_with (fun mk m => MList [mk; m]) mks ms).
Proof.
  revert mks ms. induction ds as [|[k x] ds IH]; intros mks ms H1 H2; inversion H1; inversion H2; subst; [done|].
  simpl. repeat match goal with H : to_msgpack_safe _ = _ |- _ => rewrite H; clear H end. simpl. by erewrite IH.
Qed.

(** [for key, item in value["items"]] on what the encoder wrote. *)
Lemma decode_mapping acc ks ys mks ms :
  distinct (acc.*1 ++ ks) ->
  Forall2 (fun m y => from_msgpack_safe m = Ok y) mks ks -> Forall2 (fun m y => from_msgpack_safe m = Ok y) ms ys ->
  length ks = length ys ->
  result_fold dict_add acc (f_elems (field_of (MList (zip_with (fun mk m => MList [mk; m]) mks ms))))
  = Ok (acc ++ zip ks ys).
Proof.
  simpl. intros Hdist H1 H2 Hlen. revert acc ys ms Hdist H2 Hlen.
  induction H1 as [|mk k mks ks Hk H1 IH]; intros acc ys ms Hdist H2 Hlen.
  { simpl. by rewrite app_nil_r. }
  destruct H2 as [|m y ms ys Hm H2]; [done|]. cbn -[MARKER]. unfold dict_add at 1. simpl. rewrite Hk, Hm. simpl.
  pose proof Hdist as (Hnd & Hh & Heq). rewrite Forall_app, Forall_cons in Hh. destruct Hh as (_ & Hx & _).
  rewrite Hx. simpl. rewrite dict_put_fresh.
  - rewrite (IH _ ys); [by rewrite <-app_assoc|by rewrite fmap_app, <-app_assoc|done|simpl in Hlen; lia].
  - intros k' Hk'. destruct (py_eq k k') eqn:E; [|done]. apply Heq in E; [|set_solver..]. subst.
    apply NoDup_app in Hnd as (_ & Hno & _). exfalso. apply (Hno k'); set_solver.
Qed.

Lemma mapping_back ds mks ms ks ys :
  distinct ds.*1 -> packable_keys ds = false -> forallb set_free ds.*1 = true ->
  back_list ds.*1 mks ks -> back_list ds.*2 ms ys ->
  exists m, back (VDict ds) m (VDict (zip ds.*1 ys)).
Proof.
  intros Hdist Hp Hf Hk (He & Hd & Hs). pose proof (back_list_exact _ _ _ Hf Hk) as ->. destruct Hk as (Hke & Hkd & _).
  pose proof (Forall2_length _ _ _ He) as Hlen. pose proof (Forall2_length _ _ _ Hs) as Hlen'.
  rewrite !length_fmap in *.
  exists (tagged "mapping" [("items", MList (zip_with (fun mk m => MList [mk; m]) mks ms))]). split_and!.
  - simpl. unfold packable_keys in Hp. rewrite Hp. by rewrite (encode_mapping _ _ _ Hke He).
  - rewrite from_tagged_eq. change (from_tagged "mapping" _) with
      (let! d := result_fold dict_add []
                   (f_elems (field_of (MList (zip_with (fun mk m => MList [mk; m]) mks ms)))) in
       Ok (E:=codec_error) (VDict d)).
    rewrite (decode_mapping [] ds.*1 ys); [done|done|done|done|by rewrite length_fmap].
  - constructor; [rewrite fst_zip|rewrite snd_zip]; rewrite ?length_fmap; done || lia.
Qed.

Lemma storable_back v : storable v -> exists m y, back v m y.
Proof.
  induction v using value_nested_ind; intros Hs.
  - destruct v; try done; simpl in Hs; do 2 eexists; split_and!; try reflexivity; try apply same_refl;
      rewrite from_tagged_eq.
    + change (from_tagged "decimal" _) with (let! t := decimal_of (MStr text) in Ok (VDecimal t)). by rewrite Hs.
    + change (from_tagged "path" _) with (let! t := path_of (MStr text) in Ok (VPath t)). by rewrite Hs.
  - destruct b; [by destruct Hs|]. pose proof Hs as (_ & Hx & _). destruct (IHv Hx) as (m & y & Hb).
    eauto using enum_back.
  - simpl in Hs. rewrite foldr_and_snd in Hs. destruct Hs as (Ha & Hr & Hs).
    destruct (back_list_intro _ H Hs) as (ms & ys & Hb). destruct (data_back c fs ms ys Ha Hr Hb) as (m & Hm). eauto.
  - simpl in Hs. rewrite foldr_and_both in Hs. destruct Hs as (Hd & Hk & Hs1 & Hs2).
    destruct (back_list_intro _ H Hs1) as (mks & ks & Hbk). destruct (back_list_intro _ H0 Hs2) as (ms & ys & Hb).
    destruct (packable_keys ds) eqn:E.
    + destruct (plain_dict_back ds ms ys E Hk Hb) as (m & Hm). eauto.
    + destruct (mapping_back ds mks ms ks ys Hd E Hk Hbk Hb) as (m & Hm). eauto.
  - simpl in Hs. rewrite foldr_and in Hs. destruct (back_list_intro _ H Hs) as (ms & ys & Hb). eauto using list_back.
  - simpl in Hs. rewrite foldr_and in Hs. destruct (back_list_intro _ H Hs) as (ms & ys & Hb). eauto using tuple_back.
  - simpl in Hs. rewrite foldr_and in Hs. destruct Hs as (Hd & Hf & Hs).
    destruct (back_list_intro _ H Hs) as (ms & ys & Hb). eauto using set_back.
  - simpl in Hs. rewrite foldr_and in Hs. destruct Hs as (Hn & Hs).
    destruct (back_list_intro _ H Hs) as (ms & ys & Hb). eauto using deque_back.
  - done.
  - done.
Qed.

(** C17: resume state survives.  If msgpack reads back what it packed of the
    encoded payload, then a storable payload is encoded, without pickle, and
    decoding the bytes restores the same payload: the same types, keys and
    order everywhere, sets up to the order of their elements; a payload
    without sets is restored exactly. *)
Theorem payload_roundtrip ds :
  storable (VDict ds) ->
  (forall m, to_msgpack_safe (VDict ds) = Ok m -> exists b, packb m = Ok b /\ unpackb b = Ok m) ->
  exists b payload, encode_payload (VDict ds) = Ok (b, "msgpack", sha256 b) /\
    decode_payload b "msgpack" = Ok payload /\ same (VDict ds) payload /\
    (set_free (VDict ds) = true -> payload = VDict ds).
Proof.
  intros Hs Hpack. destruct (storable_back _ Hs) as (m & y & He & Hd & Hsame).
  destruct (Hpack _ He) as (b & Hb & Hu). exists b, y. split_and!.
  - unfold encode_payload. rewrite He. cbn [result_bind]. by rewrite Hb.
  - unfold decode_payload. simpl. rewrite Hu. simpl. rewrite Hd. simpl. by inversion Hsame.
  - done.
  - intros Hf. by apply same_set_free.
Qed.

(** An enumeration outside the backtest engine is written without complaint
    and refused when it is read: the snapshot cannot be restored. *)
Theorem foreign_enum_not_loadable c x m :
  to_msgpack_safe x = Ok m -> allowed_module (cls_module c) = false ->
  str_partition ":" (type_path c) = (cls_module c, true, cls_qualname c) ->
  exists m', to_msgpack_safe (VEnum c false x) = Ok m' /\
    from_msgpack_safe m' = Err (unsafe_type (type_path c)).
Proof.
  intros Hx Hm Hp. eexists. split; [simpl; by rewrite Hx|]. rewrite from_tagged_eq.
  change (from_tagged "enum" _) with
    (let! '(path, o) := (let! o := resolve_type (type_path c) in Ok (type_path c, o)) in
     match o with
     | PEnum call => let! x := from_msgpack_safe m in
                     match call x with Some v => Ok v | None => Err ValueError end
     | _ => Err (TypeError ("snapshot enum type is not an Enum: " +:+ path))
     end).
  unfold resolve_type. by rewrite Hp, Hm.
Qed.

(** A dictionary that itself has the marker as a key is read back as what the
    marker names. *)
Theorem marker_key_misread xs ms ys :
  back_list xs ms ys ->
  exists m, to_msgpack_safe (VDict [(VStr MARKER, VStr "tuple"); (VStr "items", VList xs)]) = Ok m /\
    from_msgpack_safe m = Ok (VTuple ys).
Proof.
  intros H. destruct (tuple_back _ _ _ H) as (_ & Hd & _). eexists. split; [|exact Hd].
  simpl. by rewrite (encode_list _ _ _ H).
Qed.

(** A member of a [StrEnum] or [IntEnum] comes back as its plain value. *)
Theorem mixin_enum_loses_type c x :
  storable x -> exists m y, to_msgpack_safe (VEnum c true x) = Ok m /\ from_msgpack_safe m = Ok y /\ same x y.
Proof. intros Hs. destruct (storable_back _ Hs) as (m & y & ?). by exists m, y. Qed.

End Codec.

(** ** Confinement *)

Section Confinement.

Context (py_eq : value -> value -> bool) (hashable : value -> bool).
Context (decimal_of path_of : mval -> result codec_error string).
Context (load1 load2 : string -> list string -> option pyobj).

(** The names a snapshot may select: of the backtest engine, not private. *)
Definition safe_name (m : string) (parts : list string) : Prop :=
  allowed_module m = true /\ Forall (fun p => String.prefix "_" p = false) parts.

Hypothesis agree : forall m parts, safe_name m parts -> load1 m parts = load2 m parts.

Lemma resolve_parts_agree path m at_ parts :
  safe_name m at_ -> resolve_parts load1 path m at_ parts = resolve_parts load2 path m at_ parts.
Proof.
  revert at_. induction parts as [|p parts IH]; intros at_ Hs; simpl; [by rewrite agree|].
  destruct (String.prefix "_" p) eqn:Hp; [done|].
  assert (Hs' : safe_name m (at_ ++ [p])) by (destruct Hs; split; [done|by apply Forall_app; repeat constructor]).
  rewrite (agree _ _ Hs'). destruct (load2 _ _); auto.
Qed.

Lemma resolve_type_agree path : resolve_type load1 path = resolve_type load2 path.
Proof.
  unfold resolve_type. destruct (str_partition ":" path) as [[m sep] q].
  destruct (negb sep || negb (allowed_module m)) eqn:E; [done|].
  apply orb_false_iff in E as [_ E%negb_false_iff]. assert (Hs : safe_name m []) by (by split).
  rewrite (agree _ _ Hs). destruct (load2 m []); [|done]. by rewrite resolve_parts_agree.
Qed.

Lemma from_tagged_agree kind l :
  from_tagged py_eq hashable decimal_of path_of load1 kind l =
  from_tagged py_eq hashable decimal_of path_of load2 kind l.
Proof.
  assert (Hf : resolve_field load1 l = resolve_field load2 l).
  { unfold resolve_field. destruct (subscript l "type") as [f|]; [|done]. simpl. destruct (f_raw f); try done.
    by rewrite resolve_type_agree. }
  unfold from_tagged. by rewrite Hf.
Qed.

Lemma mval_nested_ind (P : mval -> Prop) :
  (forall m, match m with MList _ | MMap _ => False | _ => True end -> P m) ->
  (forall xs, Forall P xs -> P (MList xs)) ->
  (forall l, Forall P l.*2 -> P (MMap l)) ->
  forall m, P m.
Proof.
  intros Hleaf Hlist Hmap. fix IH 1. intros m. destruct m; try (by apply Hleaf); [apply Hlist|apply Hmap].
  - induction xs as [|x xs IHxs]; constructor; [apply IH|apply IHxs].
  - induction items as [|[k x] l IHl]; constructor; [apply IH|apply IHl].
Qed.

Abbreviation from1 := (from_msgpack_safe py_eq hashable decimal_of path_of load1).
Abbreviation from2 := (from_msgpack_safe py_eq hashable decimal_of path_of load2).

(** The restored forms a decoder may ask for agree, at any depth it looks at. *)
Definition forms_agree (m : mval) : Prop :=
  from1 m = from2 m /\ (forall zs, m = MList zs -> List.map from1 zs = List.map from2 zs) /\
  field_of py_eq hashable decimal_of path_of load1 m = field_of py_eq hashable decimal_of path_of load2 m.

Lemma leaf_agree m : match m with MList _ | MMap _ => False | _ => True end -> forms_agree m.
Proof. intros H. destruct m; try contradiction; (split; [|split; [discriminate|]]); reflexivity. Qed.

Lemma elems_agree xs : Forall forms_agree xs -> List.map from1 xs = List.map from2 xs.
Proof. induction 1 as [|x xs (Hx & _) _ IH]; simpl; congruence. Qed.

Lemma list_agree xs : Forall forms_agree xs -> forms_agree (MList xs).
Proof.
  intros H. assert (Hl : from1 (MList xs) = from2 (MList xs)).
  { simpl. f_equal. induction H as [|x xs (Hx & _) _ IH]; simpl; [done|]. by rewrite Hx, IH. }
  split_and!; [done|intros zs [= <-]; by apply elems_agree|]. unfold field_of. rewrite Hl. f_equal.
  clear Hl. induction H as [|x xs (Hx & Hz & _) _ IH]; simpl; [done|]. rewrite Hx, IH. do 2 f_equal.
  destruct x; auto.
Qed.

Lemma untagged_agree l :
  Forall forms_agree l.*2 ->
  result_map (fun '(k, x) => let! v := from1 x in Ok (key_value k, v)) l =
  result_map (fun '(k, x) => let! v := from2 x in Ok (key_value k, v)) l.
Proof.
  induction l as [|[k x] l IH]; intros H; [done|]. apply Forall_cons in H as [(Hx & _) H].
  cbn [result_map]. simpl in Hx. by rewrite Hx, IH.
Qed.

Lemma fields_agree l :
  Forall forms_agree l.*2 ->
  List.map (prod_map (@id mkey) (field_of py_eq hashable decimal_of path_of load1)) l =
  List.map (prod_map (@id mkey) (field_of py_eq hashable decimal_of path_of load2)) l.
Proof.
  induction l as [|[k x] l IH]; intros H; [done|]. apply Forall_cons in H as [(_ & _ & Hx) H].
  cbn [List.map]. rewrite IH by done. f_equal. unfold prod_map. cbn [fst snd]. f_equal. exact Hx.
Qed.

Lemma map_agree l : Forall forms_agree l.*2 -> forms_agree (MMap l).
Proof.
  intros H. assert (Hl : from1 (MMap l) = from2 (MMap l)).
  { rewrite !from_map_eq, untagged_agree, fields_agree by done.
    destruct (dget l (KStr MARKER)) as [[| | | |kind| | |]|]; try reflexivity. apply from_tagged_agree. }
  split; [exact Hl|split; [discriminate|]]. unfold field_of. rewrite Hl. f_equal. clear Hl.
  induction l as [|[k x] l IH]; [done|]. apply Forall_cons in H as [(Hx & _) H].
  cbn [List.map]. simpl in Hx. by rewrite Hx, IH.
Qed.

(** A snapshot selects only inert, public classes of the backtest engine.
    Decoding looks at no other name: two environments that agree on the public
    names of that package, and differ in anything else that could be imported,
    restore every packed value alike. *)
Theorem decode_confined m :
  from_msgpack_safe py_eq hashable decimal_of path_of load1 m =
  from_msgpack_safe py_eq hashable decimal_of path_of load2 m.
Proof.
  assert (H : forms_agree m); [|by destruct H].
  induction m using mval_nested_ind; [by apply leaf_agree|by apply list_agree|by apply map_agree].
Qed.

End Confinement.

(** ** A concrete environment *)

Definition w_eq (x y : value) : bool :=
  match x, y with
  | VStr a, VStr b => bool_decide (a = b)
  | VInt a, VInt b => a =? b
  | _, _ => false
  end.

Definition w_hashable (x : value) : bool :=
  match x with VList _ | VDict _ | VSet false _ | VDeque _ _ => false | _ => true end.

Definition w_repr (x : value) : string := match x with VInt z => pretty z | _ => "" end.
Definition w_text (m : mval) : result codec_error string := match m with MStr t => Ok t | _ => Err (TypeError "") end.

Definition w_side : ClassId := mkClassId "backtest_engine.models" "Side".
Definition w_position : ClassId := mkClassId "backtest_engine.models" "Position".

Definition w_load (m : string) (parts : list string) : option pyobj :=
  match parts with
  | [] => Some PNotClass
  | ["Side"] => Some (PEnum (fun v => match v with VStr "long" => Some (VEnum w_side false v) | _ => None end))
  | ["Position"] => Some (PDataclass w_position ["qty"; "side"])
  | _ => None
  end.

(** The same package, and everything else importable too. *)
Definition w_load_all (m : string) (parts : list string) : option pyobj :=
  if allowed_module m && forallb (fun p => negb (String.prefix "_" p)) parts then w_load m parts else Some PClass.

Definition w_payload : list (value * value) :=
  [(VStr "position", VData w_position [("qty", VInt 3); ("side", VEnum w_side false (VStr "long"))]);
   (VStr "bars", VSet false [VInt 2; VInt 1]);
   (VStr "by_bar", VDict [(VInt 7, VTuple [VDecimal "1.50"; VNone])])].

Lemma w_payload_storable : storable w_eq w_hashable w_text w_text w_load (VDict w_payload).
Proof.
  assert (Hd : forall xs, xs = w_payload.*1 \/ xs = [VInt 2; VInt 1] \/ xs = [VInt 7] -> distinct w_eq w_hashable xs).
  { intros xs [->|[->| ->]]; (split; [by repeat constructor; set_solver|split; [by repeat constructor|]]);
      intros x y Hx Hy; simpl in Hx, Hy;
      repeat match goal with
             | H : _ ∈ _ :: _ |- _ => apply elem_of_cons in H as [->|H]
             | H : _ ∈ [] |- _ => by apply not_elem_of_nil in H
             end; vm_compute; done. }
  split; [apply Hd; auto|]. split; [vm_compute; repeat constructor; done|].
  cbn -[distinct resolve_type allowed_module]. split_and!; auto; try reflexivity; try (apply Hd; auto).
  eexists. split; [vm_compute; reflexivity|reflexivity].
Qed.

Lemma payload_roundtrip_witness :
  storable w_eq w_hashable w_text w_text w_load (VDict w_payload) /\
  exists b payload,
    encode_payload w_repr Ok (fun _ => "") (fun _ => MNil) false (VDict w_payload) = Ok (b, "msgpack", "") /\
    decode_payload w_eq w_hashable w_text w_text w_load Ok (fun _ => Err ValueError) false b "msgpack" = Ok payload /\
    same (VDict w_payload) payload /\ (set_free (VDict w_payload) = true -> payload = VDict w_payload).
Proof.
  split; [exact w_payload_storable|].
  apply (payload_roundtrip w_eq w_hashable w_repr w_text w_text w_load Ok Ok (fun _ => "") (fun _ => MNil)
           (fun _ => Err ValueError) false w_payload w_payload_storable).
  intros m _. exists m. done.
Defined.

Lemma decode_confined_witness :
  w_load "os" ["system"] <> w_load_all "os" ["system"] /\
  from_msgpack_safe w_eq w_hashable w_text w_text w_load (tagged "dataclass" [("type", MStr "os:system")]) =
  from_msgpack_safe w_eq w_hashable w_text w_text w_load_all (tagged "dataclass" [("type", MStr "os:system")]).
Proof.
  split; [vm_compute; discriminate|]. apply decode_confined. intros m' parts [Hm Hp].
  unfold w_load_all. rewrite Hm. replace (forallb _ parts) with true; [done|]. symmetry.
  apply forallb_Forall. eapply Forall_impl; [exact Hp|]. intros p H. simpl in *. by rewrite H.
Defined.

Lemma foreign_enum_not_loadable_witness :
  exists m', to_msgpack_safe w_repr (VEnum (mkClassId "user.strategy" "Mode") false (VInt 1)) = Ok m' /\
    from_msgpack_safe w_eq w_hashable w_text w_text w_load m' = Err (unsafe_type "user.strategy:Mode").
Proof.
  apply (foreign_enum_not_loadable w_eq w_hashable w_repr w_text w_text w_load (mkClassId "user.strategy" "Mode") (VInt 1) (MInt 1));
    reflexivity.
Defined.
