(* ===== verification/StateStore.v ===== *)
(** Strategy state snapshots: [openpine/state/store.py] and
    [openpine/state/policy.py].

    The directory of snapshot files and the index file are the shared disk;
    every process keeps its own copy of the index.  A mutation of the index
    holds the file lock and reloads the index first.  The byte encoding
    (msgpack and [openpine/state/codec.py]) and SHA-256 are the parameters
    [encode], [decode] and [sha256]; the dictionaries of the metadata are JSON
    texts.  [stat] gives the signature of the index file after a write. *)

From S2P Require Import Prelude.

Inductive SavePolicy := EVERY_BAR | ON_REQUEST | INTERVAL.

#[export] Instance SavePolicy_eq_dec : EqDecision SavePolicy.
Proof. solve_decision. Defined.

Record SnapshotMetadata := mkMeta {
  snapshot_id : string;
  sm_strategy_id : string;
  artifact_id : string;
  params_hash : string;
  instrument_key : string;
  sm_timeframe : string;
  bar_time : Z;
  saved_at : Z;
  size_bytes : Z;
  sm_status : string;
  reason : string;
  data_fingerprint : option string;
  state_encoding : string;
  checksum : option string
}.

Record StrategyState := mkStrategyState {
  st_strategy_id : string;
  st_artifact_id : string;
  st_params_hash : string;
  st_instrument_key : string;
  st_timeframe : string;
  state_data : string;
  st_bar_time : Z;
  st_saved_at : Z
}.

(** The dictionary a snapshot file holds: the state without [saved_at], and
    [data_fingerprint] when the caller gave one. *)
Record StatePayload := mkPayload {
  key_strategy_id : string;
  key_artifact_id : string;
  key_params_hash : string;
  key_instrument_key : string;
  key_timeframe : string;
  last_processed_bar_time : Z;
  payload_state : string;
  payload_fingerprint : option string
}.

Definition to_payload (s : StrategyState) : StatePayload :=
  mkPayload (st_strategy_id s) (st_artifact_id s) (st_params_hash s) (st_instrument_key s) (st_timeframe s)
    (st_bar_time s) (state_data s) None.

(** [_snapshot_payload]. *)
Definition snapshot_payload (s : StrategyState) (fingerprint : option string) : StatePayload :=
  let p := to_payload s in
  match fingerprint with
  | Some _ => mkPayload (key_strategy_id p) (key_artifact_id p) (key_params_hash p) (key_instrument_key p)
                (key_timeframe p) (last_processed_bar_time p) (payload_state p) fingerprint
  | None => p
  end.

Definition from_payload (p : StatePayload) : StrategyState :=
  mkStrategyState (key_strategy_id p) (key_artifact_id p) (key_params_hash p) (key_instrument_key p)
    (key_timeframe p) (payload_state p) (last_processed_bar_time p) 0.

(** The index file: absent, unreadable, or a list of entries. *)
Inductive IndexFile := IndexMissing | IndexBad | IndexEntries (l : list SnapshotMetadata).

Section Store.
Context {Bytes : Type}.
Variable encode : StatePayload -> result string (Bytes * string).
Variable decode : Bytes -> string -> result string StatePayload.
Variable sha256 : Bytes -> string.
Variable byte_size : Bytes -> Z.

Record Disk := mkDisk {
  snap_files : gmap (string * string) Bytes;
  index : IndexFile;
  index_stat : option (Z * Z)
}.

(** The state of one process's store. *)
Record Mem := mkMem {
  save_policy : SavePolicy;
  save_interval_bars : Z;
  max_snapshots : Z;
  bars_since : gmap string Z;
  index_signature : option (Z * Z);
  snapshots : dict string (list SnapshotMetadata)
}.

Inductive state_error :=
| PathEscapes
| InvalidSnapshot (text : string)
| SnapshotNotFound (sid : string).

(** [_validate_path_component] on the file names the store builds: the last
    path component must be the whole name. *)
Definition valid_component (c : string) : bool :=
  str_truthy c && str_forall (fun a => negb (Nat.eqb (Ascii.nat_of_ascii a) 47)) c &&
  negb (bool_decide (c = ".")) && negb (bool_decide (c = "..")).

Definition path_ok (strategy sid : string) : bool :=
  valid_component ("strategy_id=" +:+ strategy) && valid_component ("snap_" +:+ sid +:+ ".state.msgpack.zst").

Definition group_append (d : dict string (list SnapshotMetadata)) (m : SnapshotMetadata)
    : dict string (list SnapshotMetadata) :=
  dset d (sm_strategy_id m) (default [] (dget d (sm_strategy_id m)) ++ [m]).

Definition has_file (d : Disk) (m : SnapshotMetadata) : bool :=
  match snap_files d !! (sm_strategy_id m, snapshot_id m) with Some _ => true | None => false end.

Definition with_snapshots (p : Mem) (sig : option (Z * Z)) (s : dict string (list SnapshotMetadata)) : Mem :=
  mkMem (save_policy p) (save_interval_bars p) (max_snapshots p) (bars_since p) sig s.

(** [_load_metadata_index]. *)
Definition load_metadata_index (d : Disk) (p : Mem) (force : bool) : Mem :=
  match index d with
  | IndexMissing => with_snapshots p None (if force then [] else snapshots p)
  | IndexBad => p
  | IndexEntries l =>
      with_snapshots p (index_stat d) (fold_left group_append (List.filter (has_file d) l) [])
  end.

Definition reload_if_changed (d : Disk) (p : Mem) : Mem :=
  if bool_decide (index_stat d = index_signature p) then p else load_metadata_index d p true.

(** [StateStore.__init__]. *)
Definition StateStore_init (d : Disk) (policy : SavePolicy) (interval max : Z) : Mem :=
  load_metadata_index d (mkMem policy interval (Z.max 1 max) ∅ None []) false.

(** [_persist_metadata_index]; [stat] is what the file system reports afterwards. *)
Definition persist (d : Disk) (p : Mem) (stat : Z * Z) : Disk * Mem :=
  (mkDisk (snap_files d) (IndexEntries (concat (dvalues (snapshots p)))) (Some stat),
   with_snapshots p (Some stat) (snapshots p)).

(** Newest first by bar time, then by time of saving ([sorted(..., reverse=True)]). *)
Definition meta_key (m : SnapshotMetadata) : Z * Z := (bar_time m, saved_at m).
Definition newest_first (l : list SnapshotMetadata) : list SnapshotMetadata :=
  sort_by (fun a b => pair_leb (meta_key b) (meta_key a)) l.

(** [_prune_strategy_snapshots]: the kept entries and the deleted ones. *)
Definition prune (max : Z) (l : list SnapshotMetadata) : list SnapshotMetadata * list SnapshotMetadata :=
  let sorted := newest_first l in (rev (take (Z.to_nat max) sorted), drop (Z.to_nat max) sorted).

Definition set_sm_status (st : string) (m : SnapshotMetadata) : SnapshotMetadata :=
  mkMeta (snapshot_id m) (sm_strategy_id m) (artifact_id m) (params_hash m) (instrument_key m) (sm_timeframe m)
    (bar_time m) (saved_at m) (size_bytes m) st (reason m) (data_fingerprint m) (state_encoding m) (checksum m).

Definition supersede (m : SnapshotMetadata) : SnapshotMetadata :=
  if bool_decide (sm_status m = "active") then set_sm_status "superseded" m else m.

Definition delete_files (strategy : string) (ms : list SnapshotMetadata) (f : gmap (string * string) Bytes)
    : gmap (string * string) Bytes :=
  fold_left (fun acc m => delete (strategy, snapshot_id m) acc) ms f.

(** The interval test of [save_snapshot]: skip, counting the bar, or go on. *)
Definition interval_skips (p : Mem) (strategy : string) : bool :=
  bool_decide (save_policy p = INTERVAL) && (default 0 (bars_since p !! strategy) <? save_interval_bars p).

Definition set_bars (p : Mem) (strategy : string) (n : Z) : Mem :=
  mkMem (save_policy p) (save_interval_bars p) (max_snapshots p) (<[strategy := n]> (bars_since p))
    (index_signature p) (snapshots p).

(** The locked part of [save_snapshot]. *)
Definition commit_snapshot (d : Disk) (p : Mem) (meta : SnapshotMetadata) (stat : Z * Z) : Disk * Mem :=
  let strategy := sm_strategy_id meta in
  let p1 := load_metadata_index d p true in
  let mine := (supersede <$> default [] (dget (snapshots p1) strategy)) ++ [meta] in
  let '(keep, stale) := prune (max_snapshots p1) mine in
  let p2 := set_bars (with_snapshots p1 (index_signature p1) (dset (snapshots p1) strategy keep)) strategy 0 in
  persist (mkDisk (delete_files strategy stale (snap_files d)) (index d) (index_stat d)) p2 stat.

(** [save_snapshot]; [sid] is the new uuid, [now] the clock. *)
Definition save_snapshot (d : Disk) (p : Mem) (state : StrategyState) (rsn : string) (failed_bar : bool)
    (fingerprint : option string) (sid : string) (now : Z) (stat : Z * Z)
    : Disk * Mem * result state_error (option SnapshotMetadata) :=
  if failed_bar then (d, p, Ok None)
  else
    let strategy := st_strategy_id state in
    let seen := default 0 (bars_since p !! strategy) in
    if interval_skips p strategy then (d, set_bars p strategy (seen + 1), Ok None)
    else
      match encode (snapshot_payload state fingerprint) with
      | Err e => (d, p, Err (InvalidSnapshot e))
      | Ok (packed, encoding) =>
          if negb (path_ok strategy sid) then (d, p, Err PathEscapes)
          else
            let d1 := mkDisk (<[(strategy, sid) := packed]> (snap_files d)) (index d) (index_stat d) in
            let meta := mkMeta sid strategy (st_artifact_id state) (st_params_hash state) (st_instrument_key state)
                          (st_timeframe state) (st_bar_time state) now (byte_size packed) "active" rsn fingerprint
                          encoding (Some (sha256 packed)) in
            let '(d2, p2) := commit_snapshot d1 p meta stat in
            (d2, p2, Ok (Some meta))
      end.

(** The filters of [latest_snapshot_metadata]. *)
Record Filters := mkFilters {
  f_artifact_id : option string;
  f_params_hash : option string;
  f_instrument_key : option string;
  f_timeframe : option string;
  f_data_fingerprint : option string;
  f_at_or_before : option Z
}.

Definition no_filters : Filters := mkFilters None None None None None None.

Definition opt_match (f : option string) (v : string) : bool :=
  match f with None => true | Some x => bool_decide (v = x) end.

Definition meta_matches (f : Filters) (m : SnapshotMetadata) : bool :=
  bool_decide (sm_status m = "active") && opt_match (f_artifact_id f) (artifact_id m) &&
  opt_match (f_params_hash f) (params_hash m) && opt_match (f_instrument_key f) (instrument_key m) &&
  opt_match (f_timeframe f) (sm_timeframe m) &&
  match f_data_fingerprint f with None => true | Some x => bool_decide (data_fingerprint m = Some x) end &&
  match f_at_or_before f with None => true | Some t => bar_time m <=? t end.

Definition latest_snapshot_metadata (d : Disk) (p : Mem) (strategy : string) (f : Filters)
    : Mem * option SnapshotMetadata :=
  let p' := reload_if_changed d p in
  (p', max_by (fun a b => pair_leb (meta_key a) (meta_key b))
         (List.filter (meta_matches f) (default [] (dget (snapshots p') strategy)))).

(** [_load_state]; the legacy checksum inside the payload is part of [decode]. *)
Definition load_state (d : Disk) (m : SnapshotMetadata) : result state_error (option StrategyState) :=
  if negb (path_ok (sm_strategy_id m) (snapshot_id m)) then Err PathEscapes
  else
    match snap_files d !! (sm_strategy_id m, snapshot_id m) with
    | None => Ok None
    | Some packed =>
        if match checksum m with Some c => negb (bool_decide (c = sha256 packed)) | None => false end
        then Err (InvalidSnapshot ("Checksum mismatch for snapshot " +:+ snapshot_id m))
        else match decode packed (state_encoding m) with
             | Ok s => Ok (Some (from_payload s))
             | Err e => Err (InvalidSnapshot e)
             end
    end.

(** [load_latest_compatible], and [load_snapshot] with no filters. *)
Definition load_latest_compatible (d : Disk) (p : Mem) (strategy : string) (f : Filters)
    : Mem * result state_error (option StrategyState) :=
  let '(p', meta) := latest_snapshot_metadata d p strategy f in
  (p', match meta with Some m => load_state d m | None => Ok None end).

Definition load_snapshot (d : Disk) (p : Mem) (strategy : string) : Mem * result state_error (option StrategyState) :=
  load_latest_compatible d p strategy no_filters.

Definition list_snapshots (d : Disk) (p : Mem) (strategy : string) : Mem * list SnapshotMetadata :=
  let p' := reload_if_changed d p in
  (p', sort_by (fun a b => saved_at b <=? saved_at a) (default [] (dget (snapshots p') strategy))).

(** [delete_snapshot]: the first entry with that id, in any strategy. *)
Fixpoint remove_id (sid : string) (l : list SnapshotMetadata) : option (list SnapshotMetadata) :=
  match l with
  | [] => None
  | m :: l' => if bool_decide (snapshot_id m = sid) then Some l' else r ← remove_id sid l'; Some (m :: r)
  end.

Fixpoint remove_from (sid : string) (d : dict string (list SnapshotMetadata))
    : option (string * dict string (list SnapshotMetadata)) :=
  match d with
  | [] => None
  | (k, l) :: d' =>
      match remove_id sid l with
      | Some l' => Some (k, (k, l') :: d')
      | None => '(k', r) ← remove_from sid d'; Some (k', (k, l) :: r)
      end
  end.

Definition delete_snapshot (d : Disk) (p : Mem) (sid : string) (stat : Z * Z) : Disk * Mem * result state_error unit :=
  let p1 := load_metadata_index d p true in
  match remove_from sid (snapshots p1) with
  | None => (d, p1, Err (SnapshotNotFound sid))
  | Some (strategy, s) =>
      if negb (path_ok strategy sid) then (d, p1, Err PathEscapes)
      else
        let '(d2, p2) := persist (mkDisk (delete (strategy, sid) (snap_files d)) (index d) (index_stat d))
                           (with_snapshots p1 (index_signature p1) s) stat in
        (d2, p2, Ok tt)
  end.

Definition set_save_policy (p : Mem) (policy : SavePolicy) (interval : Z) : Mem :=
  mkMem policy (Z.max 1 interval) (max_snapshots p) (bars_since p) (index_signature p) (snapshots p).

Definition invalidate (since : option Z) (m : SnapshotMetadata) : SnapshotMetadata :=
  if match since with None => true | Some t => t <=? bar_time m end then set_sm_status "invalid" m else m.

Definition mark_invalid (d : Disk) (p : Mem) (strategy : string) (since : option Z) (stat : Z * Z) : Disk * Mem :=
  let p1 := load_metadata_index d p true in
  persist d (with_snapshots p1 (index_signature p1)
    (match dget (snapshots p1) strategy with
     | Some l => dset (snapshots p1) strategy (invalidate since <$> l)
     | None => snapshots p1
     end)) stat.

(** *** Several processes *)

Inductive StateOp :=
| TSave (state : StrategyState) (rsn : string) (failed_bar : bool) (fingerprint : option string) (sid : string)
        (now : Z) (stat : Z * Z)
| TDelete (sid : string) (stat : Z * Z)
| TInvalid (strategy : string) (since : option Z) (stat : Z * Z)
| TPolicy (policy : SavePolicy) (interval : Z)
| TRead (strategy : string) (f : Filters)
| TRestart (policy : SavePolicy) (interval max : Z).

Definition sop_exec (d : Disk) (p : Mem) (op : StateOp) : Disk * Mem :=
  match op with
  | TSave s r b fp sid now stat => (save_snapshot d p s r b fp sid now stat).1
  | TDelete sid stat => (delete_snapshot d p sid stat).1
  | TInvalid strategy since stat => mark_invalid d p strategy since stat
  | TPolicy policy interval => (d, set_save_policy p policy interval)
  | TRead strategy f => (d, (latest_snapshot_metadata d p strategy f).1)
  | TRestart policy interval max => (d, StateStore_init d policy interval max)
  end.

(** Process [i] does [op].  A process has no store until it constructs one
    with [TRestart]; before that it does nothing. *)
Definition system : Type := Disk * gmap nat Mem.

Definition process_store (s : system) (x : nat * StateOp) : option Mem :=
  match x.2 with
  | TRestart policy interval max => Some (StateStore_init s.1 policy interval max)
  | _ => s.2 !! x.1
  end.

Definition system_exec (s : system) (x : nat * StateOp) : system :=
  match process_store s x with
  | Some p => let '(d', p') := sop_exec s.1 p x.2 in (d', <[x.1 := p']> s.2)
  | None => s
  end.

Definition empty_disk : Disk := mkDisk ∅ IndexMissing None.

#[local] Arguments prune : simpl never.
#[local] Arguments commit_snapshot : simpl never.

(** ** The grouped copy of the index *)

Definition of_strategy (s : string) (l : list SnapshotMetadata) : list SnapshotMetadata :=
  List.filter (fun m => bool_decide (sm_strategy_id m = s)) l.

Definition grouped (d : dict string (list SnapshotMetadata)) : Prop :=
  NoDup (dkeys d) /\ Forall (fun e => Forall (fun m => sm_strategy_id m = e.1) e.2) d.

Lemma of_strategy_all s l : Forall (fun m => sm_strategy_id m = s) l -> of_strategy s l = l.
Proof. induction 1 as [|m l Hm _ IH]; simpl; [done|]. rewrite bool_decide_true by done. f_equal. exact IH. Qed.

Lemma of_strategy_none s l : Forall (fun m => sm_strategy_id m <> s) l -> of_strategy s l = [].
Proof. induction 1 as [|m l Hm _ IH]; simpl; [done|]. by rewrite bool_decide_false. Qed.

Lemma grouped_entries d s : grouped d -> of_strategy s (concat (dvalues d)) = default [] (dget d s).
Proof.
  intros [Hnd Hall]. unfold of_strategy, dkeys in *. induction Hall as [|[k l] d Hk Hall IH]; simpl in *; [done|].
  apply NoDup_cons in Hnd as [Hk' Hnd]. rewrite List.filter_app, (IH Hnd). case_decide as E; subst.
  - fold (of_strategy k l). rewrite (of_strategy_all k l Hk).
    destruct (dget d k) as [l'|] eqn:Hg; simpl; [|by rewrite app_nil_r].
    exfalso. apply Hk'. apply dget_Some_elem in Hg. by apply (list_elem_of_fmap_2 fst) in Hg.
  - fold (of_strategy s l). rewrite of_strategy_none; [done|]. eapply Forall_impl; [exact Hk|]. simpl. congruence.
Qed.

Lemma grouped_dset d s l : grouped d -> Forall (fun m => sm_strategy_id m = s) l -> grouped (dset d s l).
Proof.
  intros [Hnd Hall] Hl. split; [auto with openpine|]. apply Forall_forall. intros [k v] Hk.
  apply dset_elem in Hk as [[-> ->]|[_ Hk]]; [done| |done]. rewrite Forall_forall in Hall. by apply (Hall _ Hk).
Qed.

Lemma grouped_get d s : grouped d -> Forall (fun m => sm_strategy_id m = s) (default [] (dget d s)).
Proof.
  intros [Hnd Hall]. destruct (dget d s) as [l|] eqn:E; simpl; [|constructor].
  apply dget_Some_elem in E. rewrite Forall_forall in Hall. by apply (Hall _ E).
Qed.

Lemma group_fold d l :
  grouped d -> grouped (fold_left group_append l d) /\
  forall s, default [] (dget (fold_left group_append l d) s) = default [] (dget d s) ++ of_strategy s l.
Proof.
  revert d. induction l as [|m l IH]; intros d Hd; simpl; [split; [done|]; intros; by rewrite app_nil_r|].
  destruct (IH (group_append d m)) as [H1 H2].
  { apply grouped_dset; [done|]. apply Forall_app. split; [by apply grouped_get|by repeat constructor]. }
  split; [done|]. intros s. rewrite H2. unfold group_append. case_bool_decide as E.
  - subst. rewrite dget_dset_eq. simpl. by rewrite <-app_assoc.
  - by rewrite dget_dset_ne.
Qed.

Definition index_entries (d : Disk) : list SnapshotMetadata :=
  match index d with IndexEntries l => l | _ => [] end.

(** The entries of a strategy whose files exist. *)
Definition stored (d : Disk) (s : string) : list SnapshotMetadata :=
  of_strategy s (List.filter (has_file d) (index_entries d)).

Lemma grouped_nil : grouped [].
Proof. split; constructor. Qed.

Lemma load_index_spec d p :
  index d <> IndexBad ->
  let p1 := load_metadata_index d p true in
  grouped (snapshots p1) /\ (forall s, default [] (dget (snapshots p1) s) = stored d s) /\
  max_snapshots p1 = max_snapshots p /\ bars_since p1 = bars_since p.
Proof.
  unfold load_metadata_index, stored, index_entries. destruct (index d) as [| |l]; [| |]; intros H; simpl.
  - split_and!; [apply grouped_nil|done..].
  - done.
  - destruct (group_fold [] (List.filter (has_file d) l) grouped_nil) as [H1 H2]. split_and!; [done|exact H2|done..].
Qed.

(** ** One active snapshot *)

Definition active_count (l : list SnapshotMetadata) : nat :=
  length (List.filter (fun m => bool_decide (sm_status m = "active")) l).

Definition disk_ok (M : nat) (d : Disk) : Prop :=
  index d <> IndexBad /\
  forall s, (active_count (of_strategy s (index_entries d)) <= 1)%nat /\ (length (of_strategy s (index_entries d)) <= M)%nat.

Lemma filter_filter_le {A} (p q : A -> bool) l : (length (List.filter p (List.filter q l)) <= length (List.filter p l))%nat.
Proof. induction l as [|x l IH]; simpl; [done|]. destruct (q x), (p x) eqn:E; simpl; rewrite ?E; simpl; lia. Qed.

Lemma filter_comm {A} (p q : A -> bool) l : List.filter p (List.filter q l) = List.filter q (List.filter p l).
Proof.
  induction l as [|x l IH]; simpl; [done|].
  destruct (q x) eqn:Eq, (p x) eqn:Ep; simpl; rewrite ?Eq, ?Ep, ?IH; done.
Qed.

Lemma stored_le M d s : disk_ok M d -> (active_count (stored d s) <= 1)%nat /\ (length (stored d s) <= M)%nat.
Proof.
  intros [_ H]. destruct (H s) as [H1 H2]. unfold stored, active_count, of_strategy in *.
  rewrite (filter_comm _ (has_file d)). split; [etrans; [apply filter_filter_le|exact H1]|].
  etrans; [apply List.filter_length_le|exact H2].
Qed.

Lemma active_count_app l1 l2 : active_count (l1 ++ l2) = (active_count l1 + active_count l2)%nat.
Proof. unfold active_count. by rewrite List.filter_app, length_app. Qed.

Lemma supersede_inactive m : bool_decide (sm_status (supersede m) = "active") = false.
Proof.
  apply bool_decide_eq_false. unfold supersede. destruct (bool_decide (sm_status m = "active")) eqn:E; [done|].
  by apply bool_decide_eq_false in E.
Qed.

Lemma supersede_none l : active_count (supersede <$> l) = 0%nat.
Proof. unfold active_count. induction l as [|m l IH]; simpl; [done|]. rewrite supersede_inactive. exact IH. Qed.

Lemma active_count_perm l l' : Permutation l l' -> active_count l = active_count l'.
Proof. unfold active_count. intros H. induction H; simpl; repeat case_bool_decide; simpl; lia. Qed.

Lemma newest_first_perm l : Permutation (newest_first l) l.
Proof. apply sort_by_perm. Qed.

Lemma prune_spec max l :
  let '(keep, stale) := prune max l in
  Permutation (keep ++ stale) l /\ (length keep <= Z.to_nat max)%nat.
Proof.
  unfold prune. split.
  - rewrite <-Permutation_rev, take_drop. apply newest_first_perm.
  - rewrite length_rev, length_take. lia.
Qed.

Lemma persisted_entries d p stat s :
  grouped (snapshots p) -> of_strategy s (index_entries (persist d p stat).1) = default [] (dget (snapshots p) s).
Proof. intros H. simpl. by apply grouped_entries. Qed.

Lemma supersede_strategy s l :
  Forall (fun m => sm_strategy_id m = s) l -> Forall (fun m => sm_strategy_id m = s) (supersede <$> l).
Proof. intros H. apply Forall_fmap. eapply Forall_impl; [exact H|]. intros m Hm. unfold supersede. simpl. by case_bool_decide. Qed.

(** What the locked part of a save leaves in the index. *)
Lemma commit_spec d p meta stat :
  index d <> IndexBad ->
  let strategy := sm_strategy_id meta in
  let '(d2, p2) := commit_snapshot d p meta stat in
  let '(keep, stale) := prune (max_snapshots p) ((supersede <$> stored d strategy) ++ [meta]) in
  grouped (snapshots p2) /\ index_entries d2 = concat (dvalues (snapshots p2)) /\ index d2 <> IndexBad /\
  dget (snapshots p2) strategy = Some keep /\
  (forall s, s <> strategy -> default [] (dget (snapshots p2) s) = stored d s) /\
  snap_files d2 = delete_files strategy stale (snap_files d) /\
  index_stat d2 = Some stat /\ index_signature p2 = Some stat.
Proof.
  intros Hbad strategy. unfold commit_snapshot. fold strategy.
  destruct (load_index_spec d p Hbad) as (Hg & Hst & Hmax & _). set (p1 := load_metadata_index d p true) in *.
  rewrite Hst, Hmax. pose proof (prune_spec (max_snapshots p) ((supersede <$> stored d strategy) ++ [meta])) as Hpr.
  destruct (prune (max_snapshots p) _) as [keep stale] eqn:Epr. destruct Hpr as [Hperm _].
  assert (Hkeep : Forall (fun m => sm_strategy_id m = strategy) keep).
  { assert (Hall : Forall (fun m => sm_strategy_id m = strategy) (keep ++ stale)).
    { rewrite Hperm. apply Forall_app. split; [|by repeat constructor]. rewrite <-Hst. by apply supersede_strategy, grouped_get. }
    by apply Forall_app in Hall as [? _]. }
  simpl. split_and!; try done.
  - by apply grouped_dset.
  - by rewrite dget_dset_eq.
  - intros s Hs. rewrite dget_dset_ne by done. apply Hst.
Qed.

Lemma commit_ok M d p meta stat :
  (Z.to_nat (max_snapshots p) <= M)%nat -> disk_ok M d -> disk_ok M (commit_snapshot d p meta stat).1.
Proof.
  intros HM Hok. pose proof (commit_spec d p meta stat (proj1 Hok)) as Hc.
  pose proof (prune_spec (max_snapshots p) ((supersede <$> stored d (sm_strategy_id meta)) ++ [meta])) as Hpr.
  cbv zeta in Hc. revert Hc Hpr. generalize (prune (max_snapshots p) ((supersede <$> stored d (sm_strategy_id meta)) ++ [meta])).
  generalize (commit_snapshot d p meta stat). intros [d2 p2] [keep stale] Hc Hpr.
  destruct Hc as (Hg & He & Hb & Hk & Ho & _), Hpr as [Hperm Hlen]. split; [done|]. intros s. simpl.
  rewrite He, grouped_entries by done. destruct (decide (s = sm_strategy_id meta)) as [->|Hne].
  - rewrite Hk. simpl. split; [|lia]. apply active_count_perm in Hperm. rewrite !active_count_app, supersede_none in Hperm.
    unfold active_count in *. simpl in Hperm. destruct (bool_decide (sm_status meta = "active")); simpl in Hperm; lia.
  - rewrite Ho by done. by apply stored_le.
Qed.

Lemma grouped_persist_ok M d p stat :
  grouped (snapshots p) ->
  (forall s, (active_count (default [] (dget (snapshots p) s)) <= 1)%nat /\ (length (default [] (dget (snapshots p) s)) <= M)%nat) ->
  disk_ok M (persist d p stat).1.
Proof. intros Hg H. split; [done|]. intros s. by rewrite persisted_entries. Qed.

Lemma remove_id_sub sid l l' : remove_id sid l = Some l' -> exists m, Permutation l (m :: l').
Proof.
  revert l'. induction l as [|m l IH]; intros l' H; simpl in H; [done|]. case_bool_decide; simplify_eq; [eauto|].
  destruct (remove_id sid l) as [r|]; simplify_eq/=. destruct (IH r eq_refl) as [x Hx]. exists x. rewrite Hx. apply perm_swap.
Qed.

Lemma remove_from_spec sid d k d' :
  remove_from sid d = Some (k, d') -> grouped d ->
  grouped d' /\ forall s, (active_count (default [] (dget d' s)) <= active_count (default [] (dget d s)))%nat /\
    (length (default [] (dget d' s)) <= length (default [] (dget d s)))%nat.
Proof.
  intros H [Hnd Hall]. assert (Hk : dkeys d' = dkeys d /\ Forall (fun e => Forall (fun m => sm_strategy_id m = e.1) e.2) d' /\
    forall s, (active_count (default [] (dget d' s)) <= active_count (default [] (dget d s)))%nat /\
      (length (default [] (dget d' s)) <= length (default [] (dget d s)))%nat).
  2:{ destruct Hk as (Hk & Hf & Hs). split; [split; [by rewrite Hk|done]|done]. }
  clear Hnd. revert k d' H. induction Hall as [|[k0 l] d Hl Hall IH]; intros k d' H; simpl in H; [done|].
  destruct (remove_id sid l) as [l'|] eqn:E; simplify_eq.
  - destruct (remove_id_sub _ _ _ E) as [m Hp]. split_and!; [done| |].
    + constructor; [|done]. rewrite Hp in Hl. by inversion Hl.
    + intros s. simpl. case_decide; [|done]. simpl. rewrite (active_count_perm _ _ Hp), Hp. unfold active_count. simpl.
      case_bool_decide; simpl; lia.
  - destruct (remove_from sid d) as [[k1 r]|]; simplify_eq/=. destruct (IH _ _ eq_refl) as (H1 & H2 & H3).
    split_and!; [unfold dkeys in *; simpl; by rewrite H1|by constructor|]. intros s. case_decide; [done|apply H3].
Qed.

Lemma invalidate_active since m : sm_status (invalidate since m) = "active" -> sm_status m = "active".
Proof. unfold invalidate. by destruct (match since with Some _ => _ | None => _ end). Qed.

Lemma invalidate_le since l :
  (active_count (invalidate since <$> l) <= active_count l)%nat /\ length (invalidate since <$> l) = length l.
Proof.
  split; [|apply length_fmap]. unfold active_count. induction l as [|m l IH]; simpl; [done|].
  destruct (bool_decide (sm_status (invalidate since m) = "active")) eqn:E; simpl.
  - apply bool_decide_eq_true, invalidate_active in E. rewrite (bool_decide_true (sm_status m = _)) by done. simpl. apply le_n_S, IH.
  - clear E. destruct (bool_decide (sm_status m = "active")); simpl; [apply le_S|]; apply IH.
Qed.

Definition bounded (M : nat) (op : StateOp) : Prop :=
  match op with TRestart _ _ max => (Z.to_nat (Z.max 1 max) <= M)%nat | _ => True end.

Lemma load_index_max d p b : max_snapshots (load_metadata_index d p b) = max_snapshots p.
Proof. unfold load_metadata_index. by destruct (index d). Qed.

Lemma sop_exec_ok M d p op :
  bounded M op -> disk_ok M d -> (Z.to_nat (max_snapshots p) <= M)%nat ->
  disk_ok M (sop_exec d p op).1 /\ (Z.to_nat (max_snapshots (sop_exec d p op).2) <= M)%nat.
Proof.
  intros Hb Hok HM. destruct op as [st r b fp sid now stat|sid stat|strategy since stat|policy i|strategy f|policy i max]; simpl.
  - unfold save_snapshot. destruct b; [done|]. destruct (interval_skips p _); [done|].
    destruct (encode (snapshot_payload st fp)) as [[packed enc]|e]; [|done]. destruct (negb (path_ok _ _)); [done|].
    set (d1 := mkDisk _ (index d) _). assert (Hok1 : disk_ok M d1) by exact Hok.
    set (meta := mkMeta _ _ _ _ _ _ _ _ _ _ _ _ _ _).
    pose proof (commit_ok M d1 p meta stat HM Hok1) as H1.
    assert (H2 : max_snapshots (commit_snapshot d1 p meta stat).2 = max_snapshots p).
    { unfold commit_snapshot. destruct (prune _ _). simpl. apply load_index_max. }
    destruct (commit_snapshot d1 p meta stat) as [d2 p2]. simpl in *. by rewrite H2.
  - unfold delete_snapshot. destruct (load_index_spec d p (proj1 Hok)) as (Hg & Hst & Hmax & _).
    set (p1 := load_metadata_index d p true) in *. destruct (remove_from sid (snapshots p1)) as [[k s]|] eqn:E; simpl; [|by rewrite Hmax].
    destruct (remove_from_spec _ _ _ _ E Hg) as [Hg' Hle]. destruct (negb (path_ok k sid)); simpl; [by rewrite Hmax|].
    split; [|by rewrite Hmax]. apply (grouped_persist_ok M d (with_snapshots p1 (index_signature p1) s) stat); [done|]. simpl.
    intros x. destruct (Hle x) as [H1 H2]. rewrite Hst in H1, H2. destruct (stored_le M d x Hok). lia.
  - unfold mark_invalid. destruct (load_index_spec d p (proj1 Hok)) as (Hg & Hst & Hmax & _).
    set (p1 := load_metadata_index d p true) in *. split; [|by simpl; rewrite Hmax].
    apply (grouped_persist_ok M d (with_snapshots p1 (index_signature p1)
      (match dget (snapshots p1) strategy with
       | Some l => dset (snapshots p1) strategy (invalidate since <$> l)
       | None => snapshots p1
       end)) stat); simpl.
    + destruct (dget (snapshots p1) strategy) as [l|] eqn:E; [|done]. apply grouped_dset; [done|].
      pose proof (grouped_get _ strategy Hg) as Hl. rewrite E in Hl. simpl in Hl. apply Forall_fmap.
      eapply Forall_impl; [exact Hl|]. intros m Hm. simpl. unfold invalidate. by destruct (match since with Some _ => _ | None => _ end).
    + intros x. pose proof (stored_le M d x Hok) as Hle. rewrite <-Hst in Hle.
      destruct (dget (snapshots p1) strategy) as [l|] eqn:E; [|done]. destruct (decide (strategy = x)) as [<-|Hne].
      * rewrite dget_dset_eq. rewrite E in Hle. simpl in *. destruct (invalidate_le since l) as [H1 H2]. lia.
      * by rewrite dget_dset_ne.
  - done.
  - split; [done|]. unfold reload_if_changed. case_bool_decide; [done|]. by rewrite load_index_max.
  - split; [done|]. unfold StateStore_init. rewrite load_index_max. done.
Qed.

(** Every disk the processes can reach is well formed, and every process keeps
    at most the largest configured maximum. *)
Lemma reachable_ok M (ops : list (nat * StateOp)) :
  Forall (fun x => bounded M x.2) ops ->
  let st := fold_left system_exec ops (empty_disk, ∅) in
  disk_ok M st.1 /\ map_Forall (fun _ p => (Z.to_nat (max_snapshots p) <= M)%nat) st.2.
Proof.
  intros Hops.
  assert (H : forall st : system, disk_ok M st.1 -> map_Forall (fun _ p => (Z.to_nat (max_snapshots p) <= M)%nat) st.2 ->
    disk_ok M (fold_left system_exec ops st).1 /\
    map_Forall (fun _ p => (Z.to_nat (max_snapshots p) <= M)%nat) (fold_left system_exec ops st).2).
  { induction Hops as [|[i op] ops Hop _ IH]; intros st Hd Hp; simpl in *; [done|].
    unfold system_exec at 2 4. destruct (process_store st (i, op)) as [p|] eqn:E; [|by apply IH].
    assert (Hpi : (Z.to_nat (max_snapshots p) <= M)%nat).
    { unfold process_store in E. simpl in E. destruct op; try by apply (Hp i). injection E as <-.
      unfold StateStore_init. by rewrite load_index_max. }
    pose proof (sop_exec_ok M st.1 p op Hop Hd Hpi) as [H1 H2]. cbn [snd]. destruct (sop_exec st.1 p op) as [d' p']. simpl in *.
    apply IH; simpl; [done|]. by apply map_Forall_insert_2. }
  apply H; [|apply map_Forall_empty]. split; [done|]. intros x. simpl. unfold active_count. simpl. lia.
Qed.

Lemma reachable_disk_ok M (ops : list (nat * StateOp)) :
  Forall (fun x => bounded M x.2) ops -> disk_ok M (fold_left system_exec ops (empty_disk, ∅)).1.
Proof. apply reachable_ok. Qed.

(** ** Saving and loading *)

Lemma newest_first_sorted l :
  StronglySorted (fun a b => pair_leb (meta_key b) (meta_key a) = true) (newest_first l).
Proof.
  apply sort_by_sorted; [intros; apply pair_leb_total|intros; by eapply pair_leb_trans].
Qed.

Lemma StronglySorted_split {A} (R : A -> A -> Prop) l1 x l2 :
  StronglySorted R (l1 ++ x :: l2) -> Forall (fun y => R y x) l1 /\ Forall (R x) l2.
Proof.
  induction l1 as [|y l1 IH]; simpl; intros H; inversion H as [|? ? Hs Hall]; subst; [by split|].
  apply IH in Hs as [H1 H2]. split; [|done]. constructor; [|done]. apply Forall_app in Hall as [_ Hall]. by inversion Hall.
Qed.

(** Where a new entry lands among the old ones. *)
Lemma newest_first_split old meta :
  exists l1 l2, newest_first (old ++ [meta]) = l1 ++ meta :: l2 /\ Permutation (l1 ++ l2) old /\
    Forall (fun y => pair_leb (meta_key meta) (meta_key y) = true) l1 /\
    Forall (fun y => pair_leb (meta_key y) (meta_key meta) = true) l2.
Proof.
  assert (Hin : meta ∈ newest_first (old ++ [meta])) by (rewrite newest_first_perm; set_solver).
  apply list_elem_of_split in Hin as (l1 & l2 & E). exists l1, l2.
  pose proof (newest_first_sorted (old ++ [meta])) as Hs. rewrite E in Hs. apply StronglySorted_split in Hs as [H1 H2].
  split_and!; try done. apply (Permutation_cons_inv (a := meta)).
  rewrite Permutation_middle, <-E, newest_first_perm. by rewrite Permutation_app_comm.
Qed.

Lemma delete_files_keep strategy ms f sid :
  Forall (fun m => snapshot_id m <> sid) ms -> delete_files strategy ms f !! (strategy, sid) = f !! (strategy, sid).
Proof.
  intros H. unfold delete_files. revert f. induction H as [|m ms Hm _ IH]; intros f; simpl; [done|].
  rewrite IH. apply lookup_delete_ne. congruence.
Qed.

Lemma delete_files_gone strategy ms f sid :
  sid ∈ snapshot_id <$> ms -> delete_files strategy ms f !! (strategy, sid) = None.
Proof.
  unfold delete_files. revert f. induction ms as [|m ms IH]; intros f Hin; simpl in *; [by apply not_elem_of_nil in Hin|].
  destruct (decide (sid ∈ snapshot_id <$> ms)) as [|Hn]; [auto|].
  apply elem_of_cons in Hin as [->|]; [|done]. fold (delete_files strategy ms (delete (strategy, snapshot_id m) f)).
  rewrite delete_files_keep; [apply lookup_delete_eq|]. apply Forall_forall. intros x Hx E. apply Hn. rewrite <-E.
  by apply list_elem_of_fmap_2.
Qed.

Lemma inactive_filtered f l : Forall (fun m => sm_status m <> "active") l -> List.filter (meta_matches f) l = [].
Proof.
  induction 1 as [|m l Hm _ IH]; simpl; [done|]. unfold meta_matches at 1. by rewrite bool_decide_false.
Qed.

Lemma supersede_fields m : meta_key (supersede m) = meta_key m /\ snapshot_id (supersede m) = snapshot_id m /\
  sm_status (supersede m) <> "active".
Proof.
  pose proof (supersede_inactive m) as H. apply bool_decide_eq_false in H. split_and!; [| |done];
  unfold supersede; by destruct (bool_decide _).
Qed.

Lemma stored_sub d s (P : SnapshotMetadata -> Prop) : Forall P (of_strategy s (index_entries d)) -> Forall P (stored d s).
Proof.
  unfold stored, of_strategy. rewrite filter_comm, !Forall_forall. intros H m Hm.
  apply H. apply list_elem_of_In, filter_In in Hm as [Hm _]. by apply list_elem_of_In.
Qed.

Lemma stored_grows d d' s :
  index d' = index d -> (forall k, is_Some (snap_files d !! k) -> is_Some (snap_files d' !! k)) ->
  (length (stored d s) <= length (stored d' s))%nat.
Proof.
  intros Hi Hf. unfold stored, of_strategy, index_entries. rewrite Hi. rewrite !(filter_comm _ (has_file _)).
  generalize (List.filter (fun m => bool_decide (sm_strategy_id m = s)) (match index d with IndexEntries l => l | _ => [] end)).
  intros l. induction l as [|m l IH]; simpl; [done|]. specialize (Hf (sm_strategy_id m, snapshot_id m)).
  destruct (has_file d m) eqn:E1, (has_file d' m) eqn:E2; simpl; try lia. exfalso. unfold has_file in E1, E2.
  destruct (snap_files d !! _) as [x|]; [|done]. destruct Hf as [y Hy]; [eauto|]. by rewrite Hy in E2.
Qed.

Lemma filter_true_id {A} (l : list A) : List.filter (fun _ => true) l = l.
Proof. induction l as [|x l IH]; simpl; [done|]. by f_equal. Qed.

(** The facts of a save that returned an entry. *)
Lemma save_snapshot_spec d p state rsn fp sid now stat d' p' meta :
  save_snapshot d p state rsn false fp sid now stat = (d', p', Ok (Some meta)) ->
  exists packed enc, encode (snapshot_payload state fp) = Ok (packed, enc) /\ path_ok (st_strategy_id state) sid = true /\
    commit_snapshot (mkDisk (<[(st_strategy_id state, sid) := packed]> (snap_files d)) (index d) (index_stat d)) p meta stat = (d', p') /\
    snapshot_id meta = sid /\ sm_strategy_id meta = st_strategy_id state /\ meta_key meta = (st_bar_time state, now) /\
    sm_status meta = "active" /\ checksum meta = Some (sha256 packed) /\ state_encoding meta = enc /\
    artifact_id meta = st_artifact_id state /\ params_hash meta = st_params_hash state /\ instrument_key meta = st_instrument_key state /\
    sm_timeframe meta = st_timeframe state /\ data_fingerprint meta = fp.
Proof.
  unfold save_snapshot. intros H. destruct (interval_skips p _); [by simplify_eq|].
  destruct (encode _) as [[packed enc]|e] eqn:He; [|by simplify_eq].
  destruct (path_ok _ _) eqn:Hp; [|by simplify_eq]. cbn [negb] in H.
  destruct (commit_snapshot _ _ _ _) as [d2 p2] eqn:Hc. simplify_eq. exists packed, enc. by split_and!.
Qed.

(** A save prunes the strategy to the saving process's own maximum. *)
Lemma commit_within_maximum d p meta stat d' p' :
  index d <> IndexBad -> commit_snapshot d p meta stat = (d', p') ->
  (length (of_strategy (sm_strategy_id meta) (index_entries d')) <= Z.to_nat (max_snapshots p))%nat.
Proof.
  intros Hbad Hc. pose proof (commit_spec d p meta stat Hbad) as Hs. rewrite Hc in Hs. cbv zeta in Hs.
  pose proof (prune_spec (max_snapshots p) ((supersede <$> stored d (sm_strategy_id meta)) ++ [meta])) as Hpr.
  destruct (prune _ _) as [keep stale]. destruct Hs as (Hg & He & _ & Hk & _), Hpr as [_ Hlen].
  by rewrite He, grouped_entries, Hk by done.
Qed.

(** C7: one active snapshot per strategy, and the configured maximum.  However
    many processes construct their stores, each with its own maximum, save,
    delete, invalidate, re-read and restart in whatever order, the index on
    disk never holds two active snapshots of a strategy, nor more entries of
    it than the largest maximum configured; and a save that stores a snapshot
    leaves at most the saving process's own maximum. *)
Theorem one_active_snapshot M (ops : list (nat * StateOp)) s :
  Forall (fun x => bounded M x.2) ops ->
  let '(d, ps) := fold_left system_exec ops (empty_disk, ∅) in
  (active_count (of_strategy s (index_entries d)) <= 1)%nat /\
  (length (of_strategy s (index_entries d)) <= M)%nat /\
  (forall i p state rsn b fp sid now stat d' p' m, ps !! i = Some p -> st_strategy_id state = s ->
     save_snapshot d p state rsn b fp sid now stat = (d', p', Ok (Some m)) ->
     (length (of_strategy s (index_entries d')) <= Z.to_nat (max_snapshots p))%nat).
Proof.
  intros Hops. pose proof (reachable_disk_ok M ops Hops) as Hd. destruct (fold_left _ _ _) as [d ps]. simpl in Hd.
  split_and!; [apply Hd..|]. intros i p state rsn b fp sid now stat d' p' m _ <- Hs.
  assert (b = false) as -> by (destruct b; [by unfold save_snapshot in Hs; simplify_eq|done]).
  apply save_snapshot_spec in Hs as (packed & enc & _ & _ & Hc & _ & <- & _).
  eapply commit_within_maximum; [|exact Hc]. apply Hd.
Qed.

(** *** What spares a snapshot *)

(** An operation that neither saves or invalidates states of the strategy nor
    deletes the snapshot of the given id. *)
Definition spares_snapshot (owner id : string) (op : StateOp) : Prop :=
  match op with
  | TSave st _ _ _ _ _ _ => st_strategy_id st <> owner
  | TDelete sid _ => sid <> id
  | TInvalid strategy _ _ => strategy <> owner
  | _ => True
  end.

(** The snapshot is in the index and its file is there. *)
Definition kept (m : SnapshotMetadata) (d : Disk) : Prop := index d <> IndexBad /\ m ∈ stored d (sm_strategy_id m).

Lemma kept_iff m d : kept m d <-> index d <> IndexBad /\ m ∈ index_entries d /\ has_file d m = true.
Proof.
  unfold kept, stored, of_strategy. rewrite list_elem_of_In, !filter_In, bool_decide_eq_true, <-list_elem_of_In. tauto.
Qed.

(** The index written from a view that has the snapshot. *)
Lemma persist_keeps m d p stat :
  m ∈ default [] (dget (snapshots p) (sm_strategy_id m)) -> has_file d m = true -> kept m (persist d p stat).1.
Proof.
  intros Hm Hf. apply kept_iff. split; [done|]. split; [|exact Hf]. simpl.
  destruct (dget (snapshots p) (sm_strategy_id m)) as [l|] eqn:E; [|by apply not_elem_of_nil in Hm].
  apply dget_Some_elem in E. apply list_elem_of_In, in_concat. exists l. split; [|by apply list_elem_of_In].
  apply list_elem_of_In. by apply (list_elem_of_fmap_2 snd) in E.
Qed.

Lemma remove_id_other sid l l' m : remove_id sid l = Some l' -> m ∈ l -> snapshot_id m <> sid -> m ∈ l'.
Proof.
  revert l'. induction l as [|x l IH]; intros l' H Hm Hne; simpl in H; [done|]. case_bool_decide as E; simplify_eq.
  - by apply elem_of_cons in Hm as [->|Hm].
  - destruct (remove_id sid l) as [r|]; simplify_eq/=. apply elem_of_cons in Hm as [->|Hm]; [left|right; by apply IH].
Qed.

Lemma remove_from_other sid g k g' m s :
  remove_from sid g = Some (k, g') -> m ∈ default [] (dget g s) -> snapshot_id m <> sid -> m ∈ default [] (dget g' s).
Proof.
  revert k g'. induction g as [|[k0 l] g IH]; intros k g' H Hm Hne; simpl in H; [done|].
  destruct (remove_id sid l) as [l'|] eqn:E; simplify_eq.
  - simpl in *. case_decide; [|done]. by eapply remove_id_other.
  - destruct (remove_from sid g) as [[k1 r]|]; simplify_eq/=. case_decide; [done|]. by eapply IH.
Qed.

Lemma delete_files_elsewhere strategy ms f k : k.1 <> strategy -> delete_files strategy ms f !! k = f !! k.
Proof.
  intros H. unfold delete_files. revert f. induction ms as [|m ms IH]; intros f; simpl; [done|].
  rewrite IH. apply lookup_delete_ne. intros <-. by apply H.
Qed.

Lemma sop_exec_keeps m d p op : spares_snapshot (sm_strategy_id m) (snapshot_id m) op -> kept m d -> kept m (sop_exec d p op).1.
Proof.
  intros Hs Hk. destruct Hk as [Hb Hk]. destruct (load_index_spec d p Hb) as (Hg & Hst & _).
  assert (Hf : has_file d m = true) by (apply (kept_iff m d); by split).
  destruct op as [st r b fp sid now stat|sid stat|strategy since stat|policy i|strategy f|policy i max]; simpl in *; try done.
  - unfold save_snapshot. destruct b; [done|]. destruct (interval_skips p _); [done|].
    destruct (encode (snapshot_payload st fp)) as [[packed enc]|e]; [|done]. destruct (negb (path_ok _ _)); [done|].
    set (d1 := mkDisk _ (index d) _). set (meta := mkMeta _ _ _ _ _ _ _ _ _ _ _ _ _ _).
    pose proof (commit_spec d1 p meta stat Hb) as Hc. cbv zeta in Hc.
    destruct (commit_snapshot d1 p meta stat) as [d2 p2]. revert Hc. destruct (prune _ _) as [keep stale]. intros Hc.
    destruct Hc as (Hg2 & He & Hb2 & _ & Ho & Hfiles & _).
    assert (F1 : has_file d1 m = true).
    { unfold has_file in *. unfold d1. simpl. rewrite lookup_insert_ne; [done|]. intros [= E _]. by apply Hs. }
    assert (F2 : has_file d2 m = true) by (unfold has_file; rewrite Hfiles, delete_files_elsewhere; [exact F1|by apply not_eq_sym]).
    apply kept_iff. split; [done|]. split; [|done].
    assert (M1 : m ∈ default [] (dget (snapshots p2) (sm_strategy_id m))).
    { rewrite Ho by (by apply not_eq_sym).
      assert (K : kept m d1) by (apply kept_iff; split; [done|]; split; [|done]; apply (kept_iff m d); by split). apply K. }
    rewrite <-grouped_entries, <-He in M1 by done. unfold of_strategy in M1.
    apply list_elem_of_In, filter_In in M1 as [M1 _]. by apply list_elem_of_In.
  - unfold delete_snapshot. set (p1 := load_metadata_index d p true) in *.
    destruct (remove_from sid (snapshots p1)) as [[k g]|] eqn:E; [|done]. destruct (negb (path_ok k sid)); [done|].
    match goal with |- kept m (let '(d2, p2) := persist ?d0 ?p0 stat in (d2, p2, Ok tt)).1.1 =>
      change (kept m (persist d0 p0 stat).1) end.
    apply persist_keeps; simpl.
    + eapply remove_from_other; [exact E| |by apply not_eq_sym]. by rewrite Hst.
    + unfold has_file in *. simpl. rewrite lookup_delete_ne; [done|]. intros [= _ Ei]. by apply Hs.
  - set (p1 := load_metadata_index d p true) in *.
    apply (persist_keeps m d (with_snapshots p1 (index_signature p1)
      (match dget (snapshots p1) strategy with Some l => dset (snapshots p1) strategy (invalidate since <$> l) | None => snapshots p1 end)));
      [|done]. simpl.
    destruct (dget (snapshots p1) strategy) as [l|]; [rewrite dget_dset_ne by done|]; by rewrite Hst.
Qed.

(** Whatever processes do that spares it, the snapshot is kept. *)
Lemma system_keeps m ops (st : system) :
  Forall (fun x => spares_snapshot (sm_strategy_id m) (snapshot_id m) x.2) ops -> kept m st.1 -> kept m (fold_left system_exec ops st).1.
Proof.
  intros H. revert st. induction H as [|x ops Hx _ IH]; intros st Hk; simpl; [done|]. apply IH.
  unfold system_exec. destruct (process_store st x) as [p|]; [|done].
  pose proof (sop_exec_keeps m st.1 p x.2 Hx Hk). by destruct (sop_exec st.1 p x.2).
Qed.

(** Who looks for the latest snapshot finds it, or a later one. *)
Lemma kept_found m d q f :
  kept m d -> index_signature q <> index_stat d \/ m ∈ default [] (dget (snapshots q) (sm_strategy_id m)) ->
  meta_matches f m = true ->
  exists m', (latest_snapshot_metadata d q (sm_strategy_id m) f).2 = Some m' /\ pair_leb (meta_key m) (meta_key m') = true.
Proof.
  intros [Hb Hk] Hq Hf. unfold latest_snapshot_metadata. cbn [snd].
  assert (Hin : m ∈ List.filter (meta_matches f) (default [] (dget (snapshots (reload_if_changed d q)) (sm_strategy_id m)))).
  { apply list_elem_of_In, filter_In. split; [|done]. apply list_elem_of_In. unfold reload_if_changed. case_bool_decide as E.
    - destruct Hq as [Hq|Hq]; [by rewrite E in Hq|done].
    - destruct (load_index_spec d q Hb) as (_ & Hst & _). by rewrite Hst. }
  destruct (max_by _ _) as [m'|] eqn:E.
  - exists m'. split; [done|]. apply max_by_spec in E as [_ E]; [by apply E|intros; apply pair_leb_total|intros; by eapply pair_leb_trans].
  - destruct (List.filter _ _) as [|x l]; [by apply not_elem_of_nil in Hin|done].
Qed.

(** The payload of this state comes back from the codec as it went in. *)
Definition survives (state : StrategyState) (fp : option string) : Prop :=
  forall packed enc, encode (snapshot_payload state fp) = Ok (packed, enc) ->
    decode packed enc = Ok (snapshot_payload state fp).

Section RoundTrip.
Variables (d : Disk) (p : Mem) (state : StrategyState) (rsn : string) (fp : option string) (sid : string) (now : Z)
  (stat : Z * Z) (d' : Disk) (p' : Mem) (meta : SnapshotMetadata).
Hypothesis Hbad : index d <> IndexBad.
Hypothesis Hmax : 1 <= max_snapshots p.
Hypothesis Hsave : save_snapshot d p state rsn false fp sid now stat = (d', p', Ok (Some meta)).

Abbreviation strategy := (st_strategy_id state).
Abbreviation entries := (of_strategy strategy (index_entries d)).

(** What a save of a newest bar leaves: the entry on top, its file written, and
    no other entry active. *)
Lemma saved_on_top :
  Forall (fun m => pair_leb (st_bar_time state, now) (meta_key m) = false /\ snapshot_id m <> sid) entries ->
  exists packed enc older, encode (snapshot_payload state fp) = Ok (packed, enc) /\ path_ok strategy sid = true /\
    snap_files d' !! (strategy, sid) = Some packed /\ dget (snapshots p') strategy = Some (older ++ [meta]) /\
    Forall (fun m => sm_status m <> "active") older /\
    grouped (snapshots p') /\ index_entries d' = concat (dvalues (snapshots p')) /\ index d' <> IndexBad /\
    index_stat d' = Some stat /\ index_signature p' = Some stat.
Proof.
  intros Hnew. destruct (save_snapshot_spec _ _ _ _ _ _ _ _ _ _ _ Hsave)
    as (packed & enc & Henc & Hpath & Hc & Hid & Hst & Hkey & _). exists packed, enc.
  set (d1 := mkDisk _ (index d) _) in Hc. pose proof (commit_spec d1 p meta stat Hbad) as Hs. rewrite Hc, Hst in Hs. cbv zeta in Hs.
  destruct (newest_first_split (supersede <$> stored d1 strategy) meta) as (l1 & l2 & Hsplit & Hperm & Hl1 & _).
  assert (Hold : Forall (fun m => sm_status m <> "active" /\ snapshot_id m <> sid /\ pair_leb (meta_key meta) (meta_key m) = false) (l1 ++ l2)).
  { rewrite Hperm. apply Forall_fmap. eapply Forall_impl; [exact (stored_sub d1 strategy _ Hnew)|]. intros m [H1 H2]. simpl.
    destruct (supersede_fields m) as (-> & -> & ?). by rewrite Hkey. }
  assert (l1 = []) as ->.
  { destruct l1 as [|y l1]; [done|]. inversion Hl1; subst. inversion Hold as [|? ? (_ & _ & E) _]; subst. congruence. }
  simpl in Hsplit, Hold. unfold prune in Hs. rewrite Hsplit in Hs. destruct (Z.to_nat (max_snapshots p)) as [|n] eqn:En; [lia|].
  simpl in Hs. destruct Hs as (Hg & He & Hb & Hk & _ & Hfiles & Hstat & Hsig). exists (rev (take n l2)). split_and!; try done.
  - rewrite Hfiles, delete_files_keep; [unfold d1; simpl; by rewrite lookup_insert_eq|].
    apply Forall_drop. eapply Forall_impl; [exact Hold|]. intros m (_ & ? & _). done.
  - rewrite <-Permutation_rev. apply Forall_take. eapply Forall_impl; [exact Hold|]. intros m (? & _). done.
Qed.

Lemma saved_kept :
  Forall (fun m => pair_leb (st_bar_time state, now) (meta_key m) = false /\ snapshot_id m <> sid) entries -> kept meta d'.
Proof.
  intros Hnew. destruct (saved_on_top Hnew) as (packed & enc & older & _ & _ & Hfile & Hk & _ & Hg & He & Hb & _).
  destruct (save_snapshot_spec _ _ _ _ _ _ _ _ _ _ _ Hsave) as (_ & _ & _ & _ & _ & Hid & Hst & _). apply kept_iff. split; [done|].
  split; [|unfold has_file; by rewrite Hst, Hid, Hfile].
  assert (M : meta ∈ of_strategy strategy (index_entries d')).
  { rewrite He, grouped_entries, Hk by done. simpl. apply list_elem_of_In, in_or_app. right. by left. }
  unfold of_strategy in M. apply list_elem_of_In, filter_In in M as [M _]. by apply list_elem_of_In.
Qed.

(** The saved entry is what a process finds, if its filters admit it: the saving
    process, and any other whose view of the index is out of date. *)
Lemma saved_is_latest q f :
  Forall (fun m => pair_leb (st_bar_time state, now) (meta_key m) = false /\ snapshot_id m <> sid) entries ->
  index_signature q <> Some stat \/ q = p' -> meta_matches f meta = true ->
  (latest_snapshot_metadata d' q strategy f).2 = Some meta.
Proof.
  intros Hnew Hq Hf. destruct (saved_on_top Hnew) as (packed & enc & older & _ & _ & Hfile & Hk & Hold & Hg & He & Hb & Hstat & Hsig).
  destruct (save_snapshot_spec _ _ _ _ _ _ _ _ _ _ _ Hsave) as (_ & _ & _ & _ & _ & Hid & Hst & _).
  assert (Hpick : forall g, (forall m, m = meta -> g m = true) ->
    max_by (fun a b => pair_leb (meta_key a) (meta_key b)) (List.filter (meta_matches f) (List.filter g (older ++ [meta]))) = Some meta).
  { intros g Hgm. rewrite (filter_comm _ g), List.filter_app, (inactive_filtered f older) by done. simpl. rewrite Hf. simpl. by rewrite Hgm. }
  unfold latest_snapshot_metadata, reload_if_changed. simpl. destruct Hq as [Hq | ->].
  - rewrite bool_decide_false by (rewrite Hstat; congruence).
    destruct (load_index_spec d' q Hb) as (_ & Hst' & _). rewrite Hst'. unfold stored, of_strategy.
    rewrite (filter_comm _ (has_file d')), He. fold (of_strategy strategy (concat (dvalues (snapshots p')))).
    rewrite grouped_entries, Hk by done. simpl. apply Hpick.
    intros m ->. unfold has_file. by rewrite Hst, Hid, Hfile.
  - rewrite bool_decide_true by congruence. rewrite Hk. simpl.
    specialize (Hpick (fun _ => true)). rewrite filter_true_id in Hpick. by apply Hpick.
Qed.

(** What a state is when it has been stored and read back: [saved_at] is not
    part of the payload. *)
Definition restored : StrategyState :=
  mkStrategyState (st_strategy_id state) (st_artifact_id state) (st_params_hash state) (st_instrument_key state)
    (st_timeframe state) (state_data state) (st_bar_time state) 0.

Lemma saved_loads :
  survives state fp ->
  Forall (fun m => pair_leb (st_bar_time state, now) (meta_key m) = false /\ snapshot_id m <> sid) entries ->
  load_state d' meta = Ok (Some restored).
Proof.
  intros Hdec Hnew. destruct (saved_on_top Hnew) as (packed & enc & older & Henc & Hpath & Hfile & _).
  destruct (save_snapshot_spec _ _ _ _ _ _ _ _ _ _ _ Hsave)
    as (packed' & enc' & Henc' & _ & _ & Hid & Hst & _ & _ & Hsum & Hencm & _).
  rewrite Henc in Henc'. injection Henc' as <- <-. unfold load_state. rewrite Hst, Hid, Hpath. simpl. rewrite Hfile, Hsum, bool_decide_true by done. simpl. rewrite Hencm, (Hdec _ _ Henc). by destruct fp.
Qed.

(** C16: A saved state is read back, by every process.  Take a save that
    stored a snapshot in a store whose index is readable.  If the codec
    restores this state's payload, and the saved bar is newer than the
    strategy's indexed snapshots, then any process whose view of the index is
    out of date (its signature is not the new index file's), and the saving
    process itself, loads the state as it was saved in every field but
    [saved_at], which the payload does not hold and comes back as 0. *)
Theorem save_load_visible q :
  survives state fp ->
  Forall (fun m => pair_leb (st_bar_time state, now) (meta_key m) = false /\ snapshot_id m <> sid) entries ->
  index_signature q <> Some stat ->
  (load_snapshot d' q strategy).2 = Ok (Some restored) /\
  (load_snapshot d' p' strategy).2 = Ok (Some restored).
Proof.
  intros Hdec Hnew Hq. assert (Hm : meta_matches no_filters meta = true).
  { destruct (save_snapshot_spec _ _ _ _ _ _ _ _ _ _ _ Hsave) as (_ & _ & _ & _ & _ & _ & _ & _ & Hact & _).
    unfold meta_matches. by rewrite bool_decide_true. }
  assert (Hl : forall r, index_signature r <> Some stat \/ r = p' -> (load_snapshot d' r strategy).2 = Ok (Some restored)).
  { intros r Hr. unfold load_snapshot, load_latest_compatible. pose proof (saved_is_latest r no_filters Hnew Hr Hm) as E.
    destruct (latest_snapshot_metadata d' r strategy no_filters) as [r' o]. simpl in *. rewrite E. by apply saved_loads. }
  split; apply Hl; [by left|by right].
Qed.

(** Saving an older bar loses the snapshot.  When the strategy already has
    the maximum number of snapshots, all of later bars (as after a replay from
    an earlier bar), the save reports success, but the new snapshot is the one
    that is pruned - its file is deleted - and since every other one was
    marked superseded, the strategy has no loadable state left. *)
Theorem older_save_lost :
  Forall (fun m => pair_leb (meta_key m) (st_bar_time state, now) = false /\ snapshot_id m <> sid) entries ->
  max_snapshots p <= Z.of_nat (length (stored d strategy)) ->
  snap_files d' !! (strategy, sid) = None /\ (load_snapshot d' p' strategy).2 = Ok None.
Proof.
  intros Hnew Hfull. destruct (save_snapshot_spec _ _ _ _ _ _ _ _ _ _ _ Hsave)
    as (packed & enc & Henc & Hpath & Hc & Hid & Hst & Hkey & Hact & _).
  set (d1 := mkDisk _ (index d) _) in Hc. pose proof (commit_spec d1 p meta stat Hbad) as Hs. rewrite Hc, Hst in Hs. cbv zeta in Hs.
  destruct (newest_first_split (supersede <$> stored d1 strategy) meta) as (l1 & l2 & Hsplit & Hperm & _ & Hl2).
  assert (Hold : Forall (fun m => sm_status m <> "active" /\ snapshot_id m <> sid /\ pair_leb (meta_key m) (meta_key meta) = false) (l1 ++ l2)).
  { rewrite Hperm. apply Forall_fmap. eapply Forall_impl; [exact (stored_sub d1 strategy _ Hnew)|]. intros m [H1 H2]. simpl.
    destruct (supersede_fields m) as (-> & -> & ?). by rewrite Hkey. }
  assert (l2 = []) as ->.
  { destruct l2 as [|y l2]; [done|]. inversion Hl2; subst. apply Forall_app in Hold as [_ Hold].
    inversion Hold as [|? ? (_ & _ & E) _]; subst. congruence. }
  rewrite app_nil_r in Hperm, Hold.
  assert (Hlen : (Z.to_nat (max_snapshots p) <= length l1)%nat).
  { rewrite Hperm, length_fmap. assert (length (stored d strategy) <= length (stored d1 strategy))%nat; [|lia].
    apply stored_grows; [done|]. intros k. unfold d1. simpl. intros Hk. by apply lookup_insert_is_Some'; right. }
  unfold prune in Hs. rewrite Hsplit, take_app_le, drop_app_le in Hs by done.
  destruct Hs as (_ & _ & _ & Hk & _ & Hfiles & Hstat & Hsig). split.
  - rewrite Hfiles. apply delete_files_gone. rewrite fmap_app. apply elem_of_app. right. rewrite <-Hid. apply list_elem_of_here.
  - unfold load_snapshot, load_latest_compatible, latest_snapshot_metadata, reload_if_changed.
    rewrite bool_decide_true by congruence. simpl. rewrite Hk. simpl. rewrite inactive_filtered; [done|].
    rewrite <-Permutation_rev. apply Forall_take. eapply Forall_impl; [exact Hold|]. intros m (? & _). done.
Qed.

End RoundTrip.

(** ** The interval policy *)

(** Consecutive good bars of one strategy: which calls save. *)
Fixpoint saves (d : Disk) (p : Mem) (calls : list (StrategyState * string * Z * (Z * Z))) : list bool :=
  match calls with
  | [] => []
  | (state, sid, now, stat) :: calls' =>
      let '(d', p', r) := save_snapshot d p state "scheduled" false None sid now stat in
      match r with Ok (Some _) => true | _ => false end :: saves d' p' calls'
  end.

Lemma commit_mem d p meta stat :
  let p2 := (commit_snapshot d p meta stat).2 in
  save_policy p2 = save_policy p /\ save_interval_bars p2 = save_interval_bars p /\
  bars_since p2 !! sm_strategy_id meta = Some 0.
Proof.
  unfold commit_snapshot. destruct (prune _ _) as [keep stale]. simpl. rewrite lookup_insert_eq.
  unfold load_metadata_index. by destruct (index d).
Qed.

(** One good bar under the interval policy: counted, or saved. *)
Lemma save_interval_step d p st sid now stat :
  save_policy p = INTERVAL -> is_ok (encode (snapshot_payload st None)) = true -> path_ok (st_strategy_id st) sid = true ->
  let seen := default 0 (bars_since p !! st_strategy_id st) in
  let '(d', p', r) := save_snapshot d p st "scheduled" false None sid now stat in
  save_policy p' = save_policy p /\ save_interval_bars p' = save_interval_bars p /\
  if seen <? save_interval_bars p
  then r = Ok None /\ bars_since p' !! st_strategy_id st = Some (seen + 1)
  else (exists m, r = Ok (Some m)) /\ bars_since p' !! st_strategy_id st = Some 0.
Proof.
  intros Hpol Henc Hpath. cbv zeta. unfold save_snapshot, interval_skips. rewrite Hpol, (bool_decide_true (INTERVAL = _)) by done.
  cbn [andb]. destruct (_ <? save_interval_bars p) eqn:E.
  - cbn [save_policy save_interval_bars bars_since set_bars]. rewrite lookup_insert_eq. split_and!; done.
  - destruct (encode _) as [[packed enc]|]; [|done]. rewrite Hpath. cbn [negb].
    set (d1 := mkDisk _ (index d) _). set (meta := mkMeta _ _ _ _ _ _ _ _ _ _ _ _ _ _).
    pose proof (commit_mem d1 p meta stat) as Hm. destruct (commit_snapshot d1 p meta stat) as [d2 p2].
    destruct Hm as (H1 & H2 & H3). cbn [snd] in H1, H2, H3. split_and!; [congruence|done|eauto|done].
Qed.

(** The interval policy saves every [N + 1]-th bar, not every [N]-th: from a
    fresh counter the first [N] bars are skipped, the next is saved, and so
    on. *)
Theorem interval_policy_period d p calls strategy :
  save_policy p = INTERVAL -> 0 <= save_interval_bars p -> default 0 (bars_since p !! strategy) = 0 ->
  Forall (fun c => st_strategy_id c.1.1.1 = strategy /\ is_ok (encode (snapshot_payload c.1.1.1 None)) = true /\
                   path_ok strategy c.1.1.2 = true) calls ->
  saves d p calls =
  (fun i => bool_decide (Z.of_nat i mod (save_interval_bars p + 1) = save_interval_bars p)) <$> seq 0 (length calls).
Proof.
  intros Hpol HN H0 Hcalls. remember (save_interval_bars p) as N eqn:EN.
  enough (H : forall k d p, save_policy p = INTERVAL -> save_interval_bars p = N ->
    default 0 (bars_since p !! strategy) = Z.of_nat k mod (N + 1) ->
    saves d p calls = (fun i => bool_decide (Z.of_nat i mod (N + 1) = N)) <$> seq k (length calls)).
  { apply (H 0%nat); [done|done|]. rewrite H0. by rewrite Z.mod_0_l by lia. }
  clear d p EN Hpol H0.
  induction Hcalls as [|[[[st sid] now] stat] calls (Hst & Henc & Hpath) _ IH]; intros k d p Hpol HNp Hk; [done|].
  cbn [fst snd] in *. subst strategy. pose proof (Z.mod_pos_bound (Z.of_nat k) (N + 1) ltac:(lia)) as Hb.
  pose proof (save_interval_step d p st sid now stat Hpol Henc Hpath) as Hstep. cbv zeta in Hstep. rewrite Hk, HNp in Hstep.
  cbn [saves length seq]. destruct (save_snapshot d p st _ _ _ _ _ _) as [[d' p'] r]. destruct Hstep as (Hp1 & Hp2 & Hstep).
  assert (Hsucc : Z.of_nat (S k) mod (N + 1) = (Z.of_nat k mod (N + 1) + 1) mod (N + 1)).
  { rewrite Nat2Z.inj_succ, <-Z.add_1_r. by rewrite Z.add_mod_idemp_l by lia. }
  destruct (Z.of_nat k mod (N + 1) <? N) eqn:Hlt; bool_to_prop.
  - destruct Hstep as [-> Hbars]. simpl. rewrite (bool_decide_false (_ = N)) by lia. f_equal.
    apply (IH (S k)); [congruence..|]. rewrite Hbars, Hsucc.
    change (Z.of_nat k mod (N + 1) + 1 = (Z.of_nat k mod (N + 1) + 1) mod (N + 1)). symmetry. apply Z.mod_small. lia.
  - destruct Hstep as [[m ->] Hbars]. simpl. rewrite (bool_decide_true (_ = N)) by lia. f_equal.
    apply (IH (S k)); [congruence..|]. rewrite Hbars, Hsucc.
    replace (Z.of_nat k mod (N + 1) + 1) with (N + 1) by lia. by rewrite Z.mod_same by lia.
Qed.

End Store.

(** [SnapshotPolicy.should_save] of [openpine/state/policy.py]. *)
Record SnapshotPolicy := mkSnapshotPolicy {
  sp_save_policy : SavePolicy;
  sp_save_interval_bars : Z;
  sp_max_snapshots : Z
}.

Definition should_save (sp : SnapshotPolicy) (bars_since_last : Z) (failed_bar : bool) : bool :=
  if failed_bar then false
  else match sp_save_policy sp with
       | EVERY_BAR => true
       | INTERVAL => sp_save_interval_bars sp <=? bars_since_last
       | ON_REQUEST => false
       end.

(** Under the interval and the every-bar policy the store's own test and
    [should_save] agree. *)
Lemma should_save_agrees (p : Mem) strategy :
  save_policy p <> ON_REQUEST ->
  should_save (mkSnapshotPolicy (save_policy p) (save_interval_bars p) (max_snapshots p))
    (default 0 (bars_since p !! strategy)) false = negb (interval_skips p strategy).
Proof.
  unfold should_save, interval_skips. destruct (save_policy p) eqn:E; intros H; simpl; [done|done|].
  destruct (default 0 (bars_since p !! strategy) <? save_interval_bars p) eqn:E2; bool_to_prop; simpl.
  - by apply Z.leb_gt.
  - by apply Z.leb_le.
Qed.

(** ** Witnesses *)

Definition w_encode (p : StatePayload) : result string (StatePayload * string) := Ok (p, "msgpack").
Definition w_decode (b : StatePayload) (enc : string) : result string StatePayload := Ok b.
Definition w_sha (b : StatePayload) : string := payload_state b.
Definition w_size (b : StatePayload) : Z := 1.

Definition w_state (data : string) (t : Z) : StrategyState := mkStrategyState "s" "a" "p" "i" "1m" data t 0.

Definition w_save (t : Z) (sid : string) : StateOp := TSave (w_state sid t) "scheduled" false None sid t (t, 1).

Definition w_run_ops (ops : list (nat * StateOp)) : system :=
  fold_left (system_exec w_encode w_sha w_size) ops (empty_disk, ∅).

(** Two processes, configured to keep two and one snapshots. *)
Definition w_history : list (nat * StateOp) :=
  [(0%nat, TRestart EVERY_BAR 1 2); (0%nat, w_save 1 "x"); (1%nat, TRestart INTERVAL 1 1); (0%nat, w_save 2 "y");
   (0%nat, w_save 3 "z")].

Lemma one_active_snapshot_witness :
  let '(d, _) := w_run_ops w_history in
  length (of_strategy "s" (index_entries d)) = 2%nat /\ (active_count (of_strategy "s" (index_entries d)) <= 1)%nat /\
  (length (of_strategy "s" (index_entries d)) <= 2)%nat.
Proof.
  assert (Hb : Forall (fun x => bounded 2 x.2) w_history) by (repeat constructor; simpl; lia).
  pose proof (one_active_snapshot w_encode w_sha w_size 2 w_history "s" Hb) as H.
  change (fold_left _ w_history _) with (w_run_ops w_history) in H.
  assert (E : length (of_strategy "s" (index_entries (w_run_ops w_history).1)) = 2%nat) by (vm_compute; reflexivity).
  destruct (w_run_ops w_history) as [d ps]. destruct H as (H1 & H2 & _). split; [exact E|]. split; [exact H1|exact H2].
Defined.

Definition w_mem (max : Z) : Mem := mkMem EVERY_BAR 1 max ∅ None [].

Definition w_saved (d : Disk) (p : Mem) (t : Z) (sid : string) :=
  save_snapshot w_encode w_sha w_size d p (w_state sid t) "scheduled" false None sid t (t, 1).

Lemma save_load_visible_witness :
  let '(d', p', _) := w_saved empty_disk (w_mem 2) 5 "x" in
  (load_snapshot w_decode w_sha d' (w_mem 2) "s").2 = Ok (Some (w_state "x" 5)) /\
  (load_snapshot w_decode w_sha d' p' "s").2 = Ok (Some (w_state "x" 5)).
Proof.
  destruct (w_saved empty_disk (w_mem 2) 5 "x") as [[d' p'] r] eqn:H.
  destruct r as [[meta|]|]; [|vm_compute in H; discriminate H..].
  apply (save_load_visible w_encode w_decode w_sha w_size empty_disk (w_mem 2) (w_state "x" 5) "scheduled" None "x" 5 (5, 1)
    d' p' meta); [discriminate|simpl; lia|exact H| |constructor|discriminate].
  intros packed enc E. injection E as <- <-. reflexivity.
Defined.

(** One snapshot kept; a bar older than it is saved. *)
Definition w_before : system := w_run_ops [(0%nat, TRestart EVERY_BAR 1 1); (0%nat, w_save 9 "new")].

Lemma older_save_lost_witness :
  let '(d', p', r) := w_saved w_before.1 (w_mem 1) 5 "old" in
  is_ok r = true /\ (load_snapshot w_decode w_sha d' p' "s").2 = Ok None.
Proof.
  destruct (w_saved w_before.1 (w_mem 1) 5 "old") as [[d' p'] r] eqn:H.
  destruct r as [[meta|]|]; [|vm_compute in H; discriminate H..]. split; [reflexivity|].
  apply (older_save_lost w_encode w_decode w_sha w_size w_before.1 (w_mem 1) (w_state "old" 5) "scheduled" None "old" 5 (5, 1)
    d' p' meta); [vm_compute; discriminate|simpl; lia|exact H| |vm_compute; discriminate].
  vm_compute. repeat constructor; discriminate.
Defined.

Lemma interval_policy_period_witness :
  saves w_encode w_sha w_size empty_disk (mkMem INTERVAL 2 64 ∅ None [])
    [(w_state "a" 1, "a", 1, (1, 1)); (w_state "b" 2, "b", 2, (2, 1)); (w_state "c" 3, "c", 3, (3, 1)); (w_state "d" 4, "d", 4, (4, 1))]
  = [false; false; true; false].
Proof.
  apply (interval_policy_period w_encode w_sha w_size empty_disk (mkMem INTERVAL 2 64 ∅ None [])
    [(w_state "a" 1, "a", 1, (1, 1)); (w_state "b" 2, "b", 2, (2, 1)); (w_state "c" 3, "c", 3, (3, 1)); (w_state "d" 4, "d", 4, (4, 1))] "s");
    [reflexivity|simpl; lia|reflexivity|repeat constructor].
Defined.
