(* ===== verification/Recovery.v ===== *)
(** Rebuilding strategy state: [openpine/recovery/rebuild.py] over the store of
    [StateStore], and the command [state rebuild] of [openpine/cli/main.py].

    The source of the bars to replay and the engine that processes a bar are
    objects the caller passes in, either of which may be missing: they are the
    optional parameters [get_bars] and [process_next_bar].  The state a rebuild
    works on is the one object it loaded, updated bar by bar. *)

From S2P Require Import Prelude PyFloat Coverage StateStore.

#[local] Arguments prune : simpl never.
#[local] Arguments commit_snapshot : simpl never.

Inductive rebuild_error :=
| StateInconsistency (text : string)
| StoreRaised (e : state_error)
| ReplayRaised (text : string).

Section Recovery.
Context {Bytes : Type}.
Variable encode : StatePayload -> result string (Bytes * string).
Variable decode : Bytes -> string -> result string StatePayload.
Variable sha256 : Bytes -> string.
Variable byte_size : Bytes -> Z.
(** [data_orchestrator.get_bars] and [backtest_engine.process_next_bar]; what
    the latter does to the state it is given is part of its answer. *)
Variable get_bars : option (string -> string -> Z -> result string (list Bar)).
Variable process_next_bar : option (StrategyState -> Bar -> result string StrategyState).

Definition set_bar_time (t : Z) (s : StrategyState) : StrategyState :=
  mkStrategyState (st_strategy_id s) (st_artifact_id s) (st_params_hash s) (st_instrument_key s) (st_timeframe s)
    (state_data s) t (st_saved_at s).

(** The body of the replay loop. *)
Definition replay_bar (s : StrategyState) (b : Bar) : result string StrategyState :=
  let! s' := match process_next_bar with Some step => step s b | None => Ok s end in
  Ok (set_bar_time (Coverage.bar_time b) s').

Definition replay (s : StrategyState) (from_bar_time : Z) : result string StrategyState :=
  match get_bars with
  | None => Ok s
  | Some get =>
      let! bs := get (st_instrument_key s) (st_timeframe s) from_bar_time in
      result_fold replay_bar s bs
  end.

Definition is_candidate (from_bar_time : Z) (m : SnapshotMetadata) : bool :=
  bool_decide (sm_status m = "active") && (StateStore.bar_time m <? from_bar_time).

(** [StateRebuilder.rebuild]. *)
Definition rebuild (d : Disk) (p : Mem) (strategy : string) (from_bar_time : Z) (rsn sid : string) (now : Z) (stat : Z * Z)
    : Disk * Mem * result rebuild_error StrategyState :=
  let '(p1, snaps) := list_snapshots d p strategy in
  if existsb (is_candidate from_bar_time) snaps then
    match load_snapshot decode sha256 d p1 strategy with
    | (p2, Err e) => (d, p2, Err (StoreRaised e))
    | (p2, Ok None) => (d, p2, Err (StateInconsistency ("No loadable snapshot found for " +:+ strategy)))
    | (p2, Ok (Some s)) =>
        match replay s from_bar_time with
        | Err e => (d, p2, Err (ReplayRaised e))
        | Ok s' =>
            match save_snapshot encode sha256 byte_size d p2 s' rsn false None sid now stat with
            | (d3, p3, Err e) => (d3, p3, Err (StoreRaised e))
            | (d3, p3, Ok None) =>
                (d3, p3, Err (StateInconsistency ("Rebuild failed: could not save snapshot for " +:+ strategy)))
            | (d3, p3, Ok (Some _)) => (d3, p3, Ok s')
            end
        end
    end
  else (d, p1, Err (StateInconsistency ("No compatible snapshot before " +:+ pretty from_bar_time +:+ " for " +:+ strategy))).

(** [StateRebuilder.verify_state]. *)
Definition verify_state (d : Disk) (p : Mem) (strategy : string) : Mem * bool :=
  let '(p', r) := load_snapshot decode sha256 d p strategy in
  (p', match r with
       | Ok (Some s) => negb (st_bar_time s <=? 0) && str_truthy (st_strategy_id s)
       | _ => false
       end).

(** [StateRebuilder.invalidate]: the entries it marks are the ones of this
    process's copy of the index, which nothing writes back. *)
Definition invalidate (d : @Disk Bytes) (p : Mem) (strategy : string) (since_bar_time : option Z) : Mem :=
  let '(p1, _) := list_snapshots d p strategy in
  with_snapshots p1 (index_signature p1)
    (match dget (snapshots p1) strategy with
     | Some l => dset (snapshots p1) strategy (StateStore.invalidate since_bar_time <$> l)
     | None => snapshots p1
     end).

(** ** What a process sees *)

(** After looking at the index again, the process knows the stored entries. *)
Definition viewing (d : @Disk Bytes) (p : Mem) : Prop :=
  forall s, default [] (dget (snapshots (reload_if_changed d p)) s) = stored d s.

Lemma viewing_reload d p : index d <> IndexBad -> viewing d p -> viewing d (reload_if_changed d p).
Proof.
  intros Hb Hv s. rewrite <-(Hv s). unfold reload_if_changed at 1. case_bool_decide; [done|].
  rewrite Hv. by destruct (load_index_spec d (reload_if_changed d p) Hb) as (_ & -> & _).
Qed.

Lemma viewing_stale (d : @Disk Bytes) p : index d <> IndexBad -> index_signature p <> index_stat d -> viewing d p.
Proof.
  intros Hb Hs s. unfold reload_if_changed. rewrite bool_decide_false by congruence.
  by destruct (load_index_spec d p Hb) as (_ & -> & _).
Qed.

(** A store that was just opened. *)
Lemma viewing_fresh (d : @Disk Bytes) pol i mx : index d <> IndexBad -> viewing d (StateStore_init d pol i mx).
Proof.
  intros Hb. destruct (decide (index_signature (StateStore_init d pol i mx) = index_stat d)) as [E|]; [|by apply viewing_stale].
  intros s. unfold reload_if_changed. rewrite bool_decide_true by done. unfold StateStore_init, load_metadata_index, stored, index_entries.
  destruct (index d) as [| |l]; [done|done|]. simpl.
  destruct (group_fold [] (List.filter (has_file d) l) grouped_nil) as [_ ->]. done.
Qed.

Lemma reload_policy (d : @Disk Bytes) p :
  let p' := reload_if_changed d p in
  save_policy p' = save_policy p /\ max_snapshots p' = max_snapshots p /\ bars_since p' = bars_since p /\
  save_interval_bars p' = save_interval_bars p.
Proof. unfold reload_if_changed, load_metadata_index. case_bool_decide; [done|]. by destruct (index d). Qed.

Lemma matches_active m : meta_matches no_filters m = bool_decide (sm_status m = "active").
Proof. unfold meta_matches, no_filters. simpl. by destruct (bool_decide _). Qed.

Lemma single_active l m :
  (active_count l <= 1)%nat -> m ∈ l -> sm_status m = "active" ->
  List.filter (fun m => bool_decide (sm_status m = "active")) l = [m].
Proof.
  unfold active_count. intros Hc Hin Ha.
  assert (Hm : m ∈ List.filter (fun m => bool_decide (sm_status m = "active")) l).
  { apply list_elem_of_In, filter_In. split; [by apply list_elem_of_In|by apply bool_decide_eq_true]. }
  destruct (List.filter _ l) as [|x [|y r]]; simpl in Hc; [by apply not_elem_of_nil in Hm| |lia].
  by apply list_elem_of_singleton in Hm as ->.
Qed.

(** Loading when one snapshot is active. *)
Lemma load_single d p s m :
  viewing d p -> (active_count (stored d s) <= 1)%nat -> m ∈ stored d s -> sm_status m = "active" ->
  load_snapshot decode sha256 d p s = (reload_if_changed d p, load_state decode sha256 d m).
Proof.
  intros Hv Hc Hin Ha. unfold load_snapshot, load_latest_compatible, latest_snapshot_metadata. rewrite (Hv s).
  rewrite (List.filter_ext _ _ matches_active), (single_active _ m) by done. done.
Qed.

Lemma load_none d p s :
  viewing d p -> Forall (fun m => sm_status m <> "active") (stored d s) ->
  load_snapshot decode sha256 d p s = (reload_if_changed d p, Ok None).
Proof.
  intros Hv Hc. unfold load_snapshot, load_latest_compatible, latest_snapshot_metadata. rewrite (Hv s).
  by rewrite inactive_filtered.
Qed.

Lemma listed_candidates d p s t :
  viewing d p -> existsb (is_candidate t) (list_snapshots d p s).2 = existsb (is_candidate t) (stored d s).
Proof.
  intros Hv. apply eq_true_iff_eq. unfold list_snapshots. simpl. rewrite (Hv s), !existsb_exists.
  by setoid_rewrite <-list_elem_of_In; setoid_rewrite elem_of_sort_by.
Qed.

(** A rebuild with a candidate: the candidate is the snapshot it starts from. *)
Lemma rebuild_from d p strategy t rsn sid now stat m :
  index d <> IndexBad -> viewing d p -> (active_count (stored d strategy) <= 1)%nat ->
  m ∈ stored d strategy -> is_candidate t m = true ->
  let p2 := reload_if_changed d (reload_if_changed d p) in
  rebuild d p strategy t rsn sid now stat =
  match load_state decode sha256 d m with
  | Err e => (d, p2, Err (StoreRaised e))
  | Ok None => (d, p2, Err (StateInconsistency ("No loadable snapshot found for " +:+ strategy)))
  | Ok (Some s) =>
      match replay s t with
      | Err e => (d, p2, Err (ReplayRaised e))
      | Ok s' =>
          match save_snapshot encode sha256 byte_size d p2 s' rsn false None sid now stat with
          | (d3, p3, Err e) => (d3, p3, Err (StoreRaised e))
          | (d3, p3, Ok None) =>
              (d3, p3, Err (StateInconsistency ("Rebuild failed: could not save snapshot for " +:+ strategy)))
          | (d3, p3, Ok (Some _)) => (d3, p3, Ok s')
          end
      end
  end.
Proof.
  intros Hb Hv Hc Hin Hcand. cbv zeta. unfold rebuild. pose proof (listed_candidates d p strategy t Hv) as Hl.
  destruct (list_snapshots d p strategy) as [p1 snaps] eqn:E. simpl in Hl. rewrite Hl.
  assert (existsb (is_candidate t) (stored d strategy) = true) as ->.
  { apply existsb_exists. exists m. split; [by apply list_elem_of_In|done]. }
  unfold list_snapshots in E. injection E as <- _. unfold is_candidate in Hcand. apply andb_true_iff in Hcand as [Ha _].
  rewrite (load_single d (reload_if_changed d p) strategy m); [|by apply viewing_reload|done|done|by apply bool_decide_eq_true in Ha].
  by destruct (load_state decode sha256 d m) as [[s|]|].
Qed.

Lemma rebuild_refused d p strategy t rsn sid now stat :
  viewing d p -> Forall (fun m => is_candidate t m = false) (stored d strategy) ->
  exists p' e, rebuild d p strategy t rsn sid now stat = (d, p', Err (StateInconsistency e)).
Proof.
  intros Hv Hf. unfold rebuild. pose proof (listed_candidates d p strategy t Hv) as Hl.
  destruct (list_snapshots d p strategy) as [p1 snaps]. simpl in Hl. rewrite Hl.
  assert (existsb (is_candidate t) (stored d strategy) = false) as ->; [|eauto].
  apply not_true_iff_false. intros (m & Hin & Hm)%existsb_exists. rewrite Forall_forall in Hf.
  rewrite (Hf m) in Hm; [done|by apply list_elem_of_In].
Qed.

(** ** Rebuilding *)

Section Rebuild.
Variables (M : nat) (ops : list (nat * StateOp)).
Hypothesis Hbounded : Forall (fun x => bounded M x.2) ops.

(** A disk that processes have written to, and a process that looks at it. *)
Abbreviation d := (fold_left (system_exec encode sha256 byte_size) ops (empty_disk, ∅)).1.
Variable p : Mem.
Hypothesis Hview : viewing d p.

Lemma reached_ok : disk_ok M d.
Proof. by apply reachable_disk_ok. Qed.

Lemma reached_single s : (active_count (stored d s) <= 1)%nat.
Proof. apply (stored_le M), reached_ok. Qed.

(** A rebuild that succeeds started from the strategy's one active snapshot,
    which is older than the repaired range, replayed the bars from there on and
    saved what came out: every process loads that state from then on, and
    [verify_state] confirms it if its bar time is positive. *)
Theorem rebuild_correct strategy t rsn sid now stat d' p' s' :
  rebuild d p strategy t rsn sid now stat = (d', p', Ok s') ->
  exists m s, m ∈ stored d strategy /\ sm_status m = "active" /\ StateStore.bar_time m < t /\
    load_state decode sha256 d m = Ok (Some s) /\ replay s t = Ok s' /\
    (survives encode decode s' None ->
     1 <= max_snapshots p -> st_strategy_id s' = strategy ->
     Forall (fun m => pair_leb (st_bar_time s', now) (meta_key m) = false /\ snapshot_id m <> sid)
       (of_strategy strategy (index_entries d)) ->
     (load_snapshot decode sha256 d' p' strategy).2 = Ok (Some (restored s')) /\
     (verify_state d' p' strategy).2 = (0 <? st_bar_time s') && str_truthy strategy /\
     forall q, index_signature q <> Some stat ->
       (load_snapshot decode sha256 d' q strategy).2 = Ok (Some (restored s'))).
Proof.
  intros H. destruct reached_ok as [Hb _].
  destruct (decide (Forall (fun m => is_candidate t m = false) (stored d strategy))) as [Hf|Hf].
  { destruct (rebuild_refused d p strategy t rsn sid now stat Hview Hf) as (q & e & E). congruence. }
  apply not_Forall_Exists in Hf; [|intros; apply _]. apply Exists_exists in Hf as (m & Hin & Hm).
  apply not_false_iff_true in Hm. rewrite (rebuild_from d p strategy t rsn sid now stat m Hb Hview (reached_single _) Hin Hm) in H.
  unfold is_candidate in Hm. apply andb_true_iff in Hm as [Ha Ht]. apply bool_decide_eq_true in Ha. bool_to_prop.
  destruct (load_state decode sha256 d m) as [[s|]|] eqn:El; [|by simplify_eq..].
  destruct (replay s t) as [s1|] eqn:Er; [|by simplify_eq].
  set (p2 := reload_if_changed d _) in H. destruct (save_snapshot _ _ _ d p2 s1 _ _ _ _ _ _) as [[d3 p3] [[meta|]|]] eqn:Es; simplify_eq.
  exists m, s. split_and!; [done..|]. intros Hdec Hmax Hid Hnew. subst strategy.
  assert (Hmax2 : 1 <= max_snapshots p2).
  { subst p2. destruct (reload_policy d (reload_if_changed d p)) as (_ & -> & _). by destruct (reload_policy d p) as (_ & -> & _). }
  assert (Hl : forall q, index_signature q <> Some stat \/ q = p' ->
    (load_snapshot decode sha256 d' q (st_strategy_id s')).2 = Ok (Some (restored s'))).
  { intros q Hq. unfold load_snapshot, load_latest_compatible.
    assert (Hact : sm_status meta = "active") by (by apply save_snapshot_spec in Es as (? & ? & ? & ? & ? & ? & ? & ? & ? & _)).
    pose proof (saved_is_latest _ _ _ _ _ _ _ _ _ _ _ _ _ _ Hb Hmax2 Es q no_filters Hnew Hq) as E.
    rewrite matches_active, bool_decide_true in E by done. specialize (E eq_refl).
    destruct (latest_snapshot_metadata d' q _ no_filters) as [q' o]. simpl in *. rewrite E.
    by apply (saved_loads _ decode _ _ _ _ _ _ _ _ _ _ _ _ _ Hb Hmax2 Es Hdec Hnew). }
  split_and!; [by apply Hl; right| |intros q Hq; apply Hl; by left].
  unfold verify_state. pose proof (Hl p' (or_intror eq_refl)) as E. destruct (load_snapshot _ _ d' p' _) as [p4 r]. simpl in *.
  rewrite E. simpl. by rewrite Z.leb_antisym, negb_involutive.
Qed.

(** A range the strategy has already processed is not rebuilt, although
    superseded snapshots from before it may exist: only the active snapshot is
    considered, and that is the last bar's. *)
Theorem processed_range_not_rebuilt strategy t rsn sid now stat m :
  m ∈ stored d strategy -> sm_status m = "active" -> t <= StateStore.bar_time m ->
  exists p' e, rebuild d p strategy t rsn sid now stat = (d, p', Err (StateInconsistency e)).
Proof.
  intros Hin Ha Ht. apply rebuild_refused; [done|]. apply Forall_forall. intros m' Hin'. unfold is_candidate.
  case_bool_decide as Ha'; [|done]. simpl. apply Z.ltb_ge.
  pose proof (single_active _ _ (reached_single strategy) Hin Ha) as E1.
  rewrite (single_active _ _ (reached_single strategy) Hin' Ha') in E1. by injection E1 as ->.
Qed.

End Rebuild.

(** A rebuild that fails, for whatever reason, leaves every snapshot as it was. *)
Theorem failed_rebuild_changes_nothing d p strategy t rsn sid now stat d' p' e :
  rebuild d p strategy t rsn sid now stat = (d', p', Err e) -> d' = d.
Proof.
  unfold rebuild, save_snapshot. intros H.
  repeat (first [by simplify_eq | case_match]; simplify_eq).
Qed.

(** Without an engine a rebuild does not run the strategy: it moves the state's
    bar time to the last bar and keeps the variables as they were. *)
Theorem rebuild_without_engine s t s' :
  process_next_bar = None -> replay s t = Ok s' ->
  state_data s' = state_data s /\
  (get_bars = None /\ s' = s \/
   exists get bs, get_bars = Some get /\ get (st_instrument_key s) (st_timeframe s) t = Ok bs /\
     st_bar_time s' = default (st_bar_time s) (Coverage.bar_time <$> last bs)).
Proof.
  intros Hp. unfold replay. destruct get_bars as [get|]; [|intros H; simplify_eq; by split; [|left]].
  intros (bs & Hg & H)%result_bind_ok.
  assert (Hb : state_data s' = state_data s /\ st_bar_time s' = default (st_bar_time s) (Coverage.bar_time <$> last bs)).
  { clear Hg. revert s' H. induction bs as [|b bs IH] using rev_ind; intros s' H; simpl in H; [by simplify_eq|].
    rewrite result_fold_app in H. apply result_bind_ok in H as (s1 & H1 & H2). unfold result_fold, replay_bar in H2.
    rewrite Hp in H2. simpl in H2. simplify_eq. rewrite last_snoc. split; [|done].
    exact (proj1 (IH s1 H1)). }
  destruct Hb. split; [done|]. right. eauto 10.
Qed.

(** ** Invalidating *)

Lemma commit_same_index (d : @Disk Bytes) p q meta stat :
  index d <> IndexBad -> max_snapshots q = max_snapshots p ->
  (commit_snapshot d q meta stat).1 = (commit_snapshot d p meta stat).1.
Proof.
  intros Hb Hm. unfold commit_snapshot.
  assert (snapshots (load_metadata_index d q true) = snapshots (load_metadata_index d p true)) as ->.
  { unfold load_metadata_index. by destruct (index d). }
  assert (max_snapshots (load_metadata_index d q true) = max_snapshots (load_metadata_index d p true)) as ->.
  { by rewrite !load_index_max. }
  by destruct (prune _ _).
Qed.

(** [invalidate] hides the snapshots from the process that calls it. *)
Lemma invalidate_hides d p strategy :
  index d <> IndexBad -> viewing d p -> index_signature (reload_if_changed d p) = index_stat d ->
  (load_snapshot decode sha256 d (invalidate d p strategy None) strategy).2 = Ok None.
Proof.
  intros Hb Hv Hs. unfold invalidate, list_snapshots. set (p1 := reload_if_changed d p) in *.
  unfold load_snapshot, load_latest_compatible, latest_snapshot_metadata, reload_if_changed. simpl.
  rewrite bool_decide_true by done. simpl. destruct (dget (snapshots p1) strategy) as [l|] eqn:E.
  - rewrite dget_dset_eq. simpl. rewrite inactive_filtered; [done|]. apply Forall_fmap, Forall_true. done.
  - by rewrite E.
Qed.

(** But the index is not written: the next save of that process, and every
    other process, still works with the entries as they were. *)
Theorem invalidate_forgotten d p strategy since s rsn fp sid now stat :
  index d <> IndexBad -> save_policy p <> INTERVAL ->
  (save_snapshot encode sha256 byte_size d (invalidate d p strategy since) s rsn false fp sid now stat).1.1 =
  (save_snapshot encode sha256 byte_size d p s rsn false fp sid now stat).1.1.
Proof.
  intros Hb Hp. assert (Hq : save_policy (invalidate d p strategy since) = save_policy p /\
    max_snapshots (invalidate d p strategy since) = max_snapshots p).
  { unfold invalidate, list_snapshots. simpl. by destruct (reload_policy d p) as (-> & -> & _). }
  destruct Hq as [Hq Hm]. unfold save_snapshot, interval_skips. rewrite Hq, bool_decide_false by done. cbn [andb].
  destruct (encode _) as [[packed enc]|]; [|done]. destruct (negb _); [done|].
  set (d1 := mkDisk _ _ _). set (meta := mkMeta _ _ _ _ _ _ _ _ _ _ _ _ _ _).
  pose proof (commit_same_index d1 p (invalidate d p strategy since) meta stat Hb Hm) as E.
  destruct (commit_snapshot d1 (invalidate d p strategy since) meta stat), (commit_snapshot d1 p meta stat). exact E.
Qed.

End Recovery.

(** ** The command *)

Section Command.
Context {Bytes : Type}.
Variable encode : StatePayload -> result string (Bytes * string).
Variable decode : Bytes -> string -> result string StatePayload.
Variable sha256 : Bytes -> string.
Variable byte_size : Bytes -> Z.

(** [DataOrchestrator.get_bars] takes one argument, a query. *)
Definition orchestrator_get_bars (instrument_key timeframe : string) (start_time : Z) : result string (list Bar) :=
  Err "DataOrchestrator.get_bars() got an unexpected keyword argument 'instrument_key'".

(** The command [state rebuild]: a store opened anew, the data orchestrator and
    no engine.  With no bar given it takes the newest active snapshot's own;
    [None] is the message that there is none. *)
Definition state_rebuild (d : Disk) (strategy : string) (from_bar_time : option Z) (sid : string) (now : Z) (stat : Z * Z)
    : Disk * option (result rebuild_error StrategyState) :=
  let run p from_ :=
    let '(d', _, r) := rebuild encode decode sha256 byte_size (Some orchestrator_get_bars) None d p strategy from_
                         "data_repaired" sid now stat in (d', Some r) in
  let p := StateStore_init d EVERY_BAR 1 64 in
  match from_bar_time with
  | Some t => run p t
  | None =>
      let '(p1, snaps) := list_snapshots d p strategy in
      match StateStore.bar_time <$> List.filter (fun m => bool_decide (sm_status m = "active")) snaps with
      | [] => (d, None)
      | t :: ts => run p1 (zmax_list t ts)
      end
  end.

Lemma replay_refused s t : is_ok (replay (Some orchestrator_get_bars) None s t) = false.
Proof. done. Qed.

(** The command never rebuilds anything: whatever is stored and whatever bar it
    is given, it ends with an error or the message, and the disk stays as it was. *)
Theorem state_rebuild_never_succeeds d strategy from_ sid now stat :
  let '(d', r) := state_rebuild d strategy from_ sid now stat in
  d' = d /\ match r with Some (Ok _) => False | _ => True end.
Proof.
  assert (H : forall p t, let '(d', _, r) := rebuild encode decode sha256 byte_size (Some orchestrator_get_bars) None d p strategy t
    "data_repaired" sid now stat in d' = d /\ is_ok r = false).
  { intros p t. destruct (rebuild _ _ _ _ _ _ d p strategy t _ sid now stat) as [[d' p'] [s|e]] eqn:E.
    - exfalso. revert E. unfold rebuild. destruct (list_snapshots d p strategy) as [p1 snaps]. destruct (existsb _ snaps); [|done].
      destruct (load_snapshot _ _ _ _ _) as [p2 [[s0|]|]]; done.
    - split; [by eapply failed_rebuild_changes_nothing|done]. }
  unfold state_rebuild. destruct from_ as [t|].
  - specialize (H (StateStore_init d EVERY_BAR 1 64) t). destruct (rebuild _ _ _ _ _ _ d _ strategy t _ sid now stat) as [[d' p'] [s|e]]; by destruct H.
  - destruct (list_snapshots d _ strategy) as [p1 snaps]. destruct (_ <$> _) as [|t ts]; [done|]. specialize (H p1 (zmax_list t ts)).
    destruct (rebuild _ _ _ _ _ _ d p1 strategy _ _ sid now stat) as [[d' p'] [s|e]]; by destruct H.
Qed.

(** Left to choose the bar itself, the command asks for a snapshot older than
    the newest active one, and is told that there is none. *)
Theorem default_rebuild_refused M (ops : list (nat * StateOp)) strategy sid now stat :
  Forall (fun x => bounded M x.2) ops ->
  let d := (fold_left (system_exec encode sha256 byte_size) ops (empty_disk, ∅)).1 in
  match state_rebuild d strategy None sid now stat with
  | (d', None) => d' = d
  | (d', Some (Err (StateInconsistency _))) => d' = d
  | _ => False
  end.
Proof.
  intros Hops d. assert (Hok : disk_ok M d) by (by apply reachable_disk_ok). unfold state_rebuild.
  set (p := StateStore_init d EVERY_BAR 1 64). assert (Hv : viewing d p) by (apply viewing_fresh, Hok).
  assert (Hv1 : viewing d (reload_if_changed d p)) by (apply viewing_reload; [apply Hok|done]).
  unfold list_snapshots. rewrite (Hv strategy). set (snaps := sort_by _ _).
  assert (Hin : forall m, m ∈ List.filter (fun m => bool_decide (sm_status m = "active")) snaps ->
    m ∈ stored d strategy /\ sm_status m = "active").
  { intros m Hm. apply list_elem_of_In, filter_In in Hm as [Hm Ha]. subst snaps. rewrite <-list_elem_of_In, elem_of_sort_by in Hm.
    by apply bool_decide_eq_true in Ha. }
  assert (Hcnt : (active_count snaps <= 1)%nat).
  { rewrite (active_count_perm _ (stored d strategy)) by apply sort_by_perm. by apply (stored_le M). }
  unfold active_count in Hcnt. destruct (List.filter _ snaps) as [|m [|m' r]]; [done| |simpl in Hcnt; lia].
  destruct (Hin m (list_elem_of_here m [])) as [Hm Ha]. simpl. change (zmax_list _ []) with (StateStore.bar_time m).
  assert (H : exists p' e, rebuild encode decode sha256 byte_size (Some orchestrator_get_bars) None d (reload_if_changed d p) strategy
    (StateStore.bar_time m) "data_repaired" sid now stat = (d, p', Err (StateInconsistency e))).
  { by eapply (processed_range_not_rebuilt _ _ _ _ _ _ M ops); [..|reflexivity]. }
  by destruct H as (p' & e & ->).
Qed.

End Command.

(** ** Witnesses *)

Definition w_bar (t : Z) : Bar := mkBar t (t + 1) f_zero f_zero f_zero f_zero f_zero true.

(** A history of one bar per unit of time up to 9, and an engine that writes
    down the bars it is given. *)
Definition w_get_bars (instrument timeframe : string) (start_time : Z) : result string (list Bar) :=
  Ok (w_bar <$> List.filter (fun t => start_time <=? t) [1; 2; 3; 4; 5; 6; 7; 8; 9]).

Definition w_engine (s : StrategyState) (b : Bar) : result string StrategyState :=
  Ok (mkStrategyState (st_strategy_id s) (st_artifact_id s) (st_params_hash s) (st_instrument_key s) (st_timeframe s)
        (state_data s +:+ pretty (Coverage.bar_time b)) (st_bar_time s) (st_saved_at s)).

Definition w_ops : list (nat * StateOp) :=
  [(0%nat, TRestart EVERY_BAR 1 64); (0%nat, w_save 2 "x"); (1%nat, TRestart EVERY_BAR 1 64); (1%nat, w_save 4 "y")].
Definition w_disk := (w_run_ops w_ops).1.
Definition w_new : Mem := StateStore_init w_disk EVERY_BAR 1 64.

Definition w_rebuild (t : Z) :=
  rebuild w_encode w_decode w_sha w_size (Some w_get_bars) (Some w_engine) w_disk w_new "s" t "rebuild" "z" 10 (10, 1).

Lemma rebuild_correct_witness :
  let '(d', p', r) := w_rebuild 5 in
  r = Ok (w_state "y56789" 9) /\ (load_snapshot w_decode w_sha d' (w_mem 2) "s").2 = Ok (Some (w_state "y56789" 9)).
Proof.
  destruct (w_rebuild 5) as [[d' p'] r] eqn:E. destruct r as [s'|]; [|vm_compute in E; discriminate E].
  assert (Es : s' = w_state "y56789" 9) by (vm_compute in E; by injection E as _ _ <-). split; [by f_equal|].
  assert (Hv : viewing w_disk w_new) by (apply viewing_fresh; vm_compute; discriminate).
  destruct (rebuild_correct w_encode w_decode w_sha w_size (Some w_get_bars) (Some w_engine) 64 w_ops
    ltac:(repeat constructor; simpl; lia) w_new Hv "s" 5 "rebuild" "z" 10 (10, 1) d' p' s' E) as (m & s & _ & _ & _ & _ & _ & H).
  subst s'. apply H; [intros ? ? X; by injection X as <- <-|vm_compute; discriminate|reflexivity| |discriminate].
  vm_compute. repeat constructor; discriminate.
Defined.

Lemma processed_range_not_rebuilt_witness : is_ok (w_rebuild 3).2 = false.
Proof.
  assert (Hv : viewing w_disk w_new) by (apply viewing_fresh; vm_compute; discriminate).
  destruct (stored w_disk "s") as [|m0 [|m1 l]] eqn:E; [vm_compute in E; discriminate E..|].
  assert (Hm : m1 ∈ stored w_disk "s") by (rewrite E; set_solver).
  assert (Ha : sm_status m1 = "active" /\ StateStore.bar_time m1 = 4) by (vm_compute in E; by injection E as _ <- _).
  destruct Ha as [Ha Ht].
  destruct (processed_range_not_rebuilt w_encode w_decode w_sha w_size (Some w_get_bars) (Some w_engine) 64 w_ops
    ltac:(repeat constructor; simpl; lia) w_new Hv "s" 3 "rebuild" "z" 10 (10, 1) m1 Hm Ha ltac:(lia)) as (p' & e & H).
  change (w_rebuild 3 = (w_disk, p', Err (StateInconsistency e))) in H. by rewrite H.
Defined.

(** The replay begins at the given bar, not after the snapshot's: here bars 5
    and 6 are processed by no one. *)
Example rebuild_skips_bars_before_from : (w_rebuild 7).2 = Ok (w_state "y789" 9).
Proof. vm_compute. reflexivity. Qed.

Lemma rebuild_without_engine_witness :
  state_data (w_state "y" 9) = "y" /\ replay (Some w_get_bars) None (w_state "y" 4) 5 = Ok (w_state "y" 9).
Proof.
  assert (H : replay (Some w_get_bars) None (w_state "y" 4) 5 = Ok (w_state "y" 9)) by (vm_compute; reflexivity).
  split; [|exact H]. apply (rebuild_without_engine (Some w_get_bars) None (w_state "y" 4) 5 (w_state "y" 9) eq_refl H).
Defined.

Lemma invalidate_forgotten_witness :
  let saved p := (save_snapshot w_encode w_sha w_size w_disk p (w_state "n" 20) "scheduled" false None "n" 20 (20, 1)).1.1 in
  (load_snapshot w_decode w_sha w_disk (invalidate w_disk w_new "s" None) "s").2 = Ok None /\
  saved (invalidate w_disk w_new "s" None) = saved w_new.
Proof.
  split.
  - apply invalidate_hides; [vm_compute; discriminate|apply viewing_fresh; vm_compute; discriminate|reflexivity].
  - apply (invalidate_forgotten w_encode w_sha w_size w_disk w_new "s" None (w_state "n" 20) "scheduled" None "n" 20 (20, 1));
      vm_compute; discriminate.
Defined.

Lemma default_rebuild_refused_witness :
  let r := state_rebuild w_encode w_decode w_sha w_size w_disk "s" None "z" 10 (10, 1) in
  is_Some r.2 /\
  match r with
  | (d', None) => d' = w_disk
  | (d', Some (Err (StateInconsistency _))) => d' = w_disk
  | _ => False
  end.
Proof.
  split; [vm_compute; by eexists|].
  exact (default_rebuild_refused w_encode w_decode w_sha w_size 64 w_ops "s" "z" 10 (10, 1) ltac:(repeat constructor; simpl; lia)).
Defined.
