(* ===== verification/Admission.v ===== *)
(** Stack admission: [openpine/admission.py].

    A deployment is described by a candidate manifest; the identity of a run is
    compared with it before anything executes.  The enumerations [RunMode] and
    [SemanticProfile] and the function [admit] belong to openpine_contracts and
    are parameters, as is SHA-256.  The manifest, the wheel files, the installed
    versions and the installed schemas are inputs, each absent when reading it
    fails.  An [AdmitError] is its code and its message. *)

From Stdlib Require Import Ascii.
From stdpp Require Import sorting.
From S2P Require Import Prelude Json.

Record AdmitError := mkAdmitError { ae_message : string; ae_code : string }.

(** A JSON object as the dictionary it becomes. *)
Definition jdict (l : list (string * json)) : dict string json := fold_left (fun d kv => dset d kv.1 kv.2) l [].

Definition WheelIdentity : Type := string * string * string.

Record DeploymentAdmissionIdentity := mkDeployment {
  stack_id : string;
  stack_manifest_hash : string;
  wheel_identities : list WheelIdentity;
  schema_hashes : gmap string string;
  capabilities : gset string;
  semantic_profiles : gset string;
  finality_policies : gset string;
  warmup_policies : gset string;
  score_policies : gset string
}.

Record RunAdmissionIdentity := mkRun {
  run_stack_manifest_hash : string;
  run_wheel_identities : list WheelIdentity;
  run_schema_hashes : gmap string string;
  generated_artifact_hash : string;
  data_snapshot_hash : string;
  semantic_profile : string;
  finality_policy : string;
  warmup_policy : string;
  score_policy : string;
  required_capabilities : list string
}.

(** ** Hashes and lists of strings *)

Definition hex_lower (c : ascii) : bool :=
  let n := nat_of_ascii c in ((48 <=? n)%nat && (n <=? 57)%nat) || ((97 <=? n)%nat && (n <=? 102)%nat).

(** The pattern [_HASH]: 64 lower-case hexadecimal digits, not all zero. *)
Definition is_hash (s : string) : bool :=
  match strip_prefix "sha256:" s with
  | Some d => (String.length d =? 64)%nat && str_forall hex_lower d && negb (str_forall (Ascii.eqb "0") d)
  | None => false
  end.

Definition require_hash (value label : string) : result AdmitError string :=
  if is_hash value then Ok value else Err (mkAdmitError (label +:+ " must be a nonzero SHA-256") "ADMISSION_IDENTITY_INVALID").

Definition require_json_hash (value : option json) (label : string) : result AdmitError string :=
  match value with
  | Some (JStr s) => require_hash s label
  | _ => Err (mkAdmitError (label +:+ " must be a nonzero SHA-256") "ADMISSION_IDENTITY_INVALID")
  end.

Fixpoint nonempty_strings (l : list json) : option (list string) :=
  match l with
  | [] => Some []
  | JStr s :: l' => if str_truthy s then r ← nonempty_strings l'; Some (s :: r) else None
  | _ => None
  end.

Definition require_strings (value : option json) (label : string) : result AdmitError (gset string) :=
  match (match value with Some (JArr (x :: l)) => nonempty_strings (x :: l) | _ => None end) with
  | Some l => Ok (list_to_set l)
  | None => Err (mkAdmitError (label +:+ " must be a non-empty string list") "ADMISSION_POLICY_INVALID")
  end.

Definition invalid {A} (message : string) : result AdmitError A := Err (mkAdmitError message "ADMISSION_IDENTITY_INVALID").

(** ** The candidate manifest *)

(** [json.dumps(v, ensure_ascii=False, separators=(",", ":"), sort_keys=True)]. *)
Fixpoint sort_keys (v : json) : json :=
  match v with
  | JArr l => JArr (map sort_keys l)
  | JObj l => JObj (sort_by (fun a b => str_leb a.1 b.1) (fold_left (fun d kv => dset d kv.1 kv.2)
                (map (fun kv => (kv.1, sort_keys kv.2)) l) []))
  | _ => v
  end.

Definition escape_raw (c : ascii) : string :=
  if Ascii.eqb c "127" || (127 <? nat_of_ascii c)%nat then String c EmptyString else escape c.

Fixpoint escape_raw_all (s : string) : string :=
  match s with EmptyString => EmptyString | String c s' => escape_raw c +:+ escape_raw_all s' end.

Definition raw_string (s : string) : string := String quote (escape_raw_all s +:+ String quote EmptyString).

Fixpoint dumps_raw (v : json) : string :=
  match v with
  | JNull => "null"
  | JBool true => "true"
  | JBool false => "false"
  | JNum t => t
  | JStr s => raw_string s
  | JArr l => "[" +:+ join_with "," (map dumps_raw l) +:+ "]"
  | JObj l => "{" +:+ join_with "," (map (fun kv => raw_string kv.1 +:+ ":" +:+ dumps_raw kv.2) l) +:+ "}"
  end.

Definition candidate_schema : string := "openpine.stack-candidate.v2".

#[local] Set Default Proof Using "Type".

Section Admission.
(** SHA-256 of a text's UTF-8 bytes, and of a file's content. *)
Variable sha256_text : string -> string.
Variable sha256_bytes : string -> string.

Definition candidate_manifest_hash (payload : dict string json) : string :=
  "sha256:" +:+ sha256_text (dumps_raw (sort_keys
    (JObj [("domain", JStr candidate_schema); ("payload", JObj (ddel payload "manifest_hash"))]))).

Definition wheel_of (components : dict string json) (name : string) : result AdmitError WheelIdentity :=
  match dget components name with
  | Some (JObj row) =>
      match dget (jdict row) "version", dget (jdict row) "wheel" with
      | Some (JStr version), Some (JObj wheel) =>
          if str_truthy version then
            let! h := require_json_hash (dget (jdict wheel) "sha256") (name +:+ " wheel hash") in Ok (name, version, h)
          else invalid ("candidate wheel identity is invalid: " +:+ name)
      | _, _ => invalid ("candidate wheel identity is invalid: " +:+ name)
      end
  | _ => invalid "candidate wheel identity is invalid"
  end.

Definition add_schema_hash (acc : gmap string string) (kv : string * json) : result AdmitError (gmap string string) :=
  if str_truthy kv.1 then
    let! h := require_json_hash (Some kv.2) ("schema hash " +:+ kv.1) in Ok (<[kv.1 := h]> acc)
  else invalid "candidate schema hashes are invalid".

(** [deployment_identity_from_candidate]. *)
Definition deployment_identity_from_candidate (candidate : dict string json) : result AdmitError DeploymentAdmissionIdentity :=
  if negb (match dget candidate "schema" with Some (JStr s) => bool_decide (s = candidate_schema) | _ => false end)
  then invalid "candidate schema is not supported"
  else if negb (match dget candidate "stage" with Some (JStr s) => bool_decide (s = "wheel-bound") | _ => false end)
  then invalid "wheel-bound candidate required for admission"
  else
    match dget candidate "id" with
    | Some (JStr id) =>
        if negb (str_truthy id) then invalid "candidate id is required"
        else
          let! manifest := require_json_hash (dget candidate "manifest_hash") "candidate manifest hash" in
          if negb (bool_decide (manifest = candidate_manifest_hash candidate))
          then Err (mkAdmitError "candidate manifest hash mismatch" "STACK_MANIFEST_HASH_MISMATCH")
          else
            match dget candidate "components" with
            | Some (JObj (c :: cs)) =>
                let components := jdict (c :: cs) in
                let! wheels := result_map (wheel_of components) (sort_by str_leb (dkeys components)) in
                match dget candidate "schema_hashes" with
                | Some (JObj (h :: hs)) =>
                    let! hashes := result_fold add_schema_hash ∅ (jdict (h :: hs)) in
                    match dget candidate "admission" with
                    | Some (JObj a) =>
                        let a := jdict a in
                        let! caps := require_strings (dget a "capabilities") "capabilities" in
                        let! sems := require_strings (dget a "semantic_profiles") "semantic profiles" in
                        let! fins := require_strings (dget a "finality_policies") "finality policies" in
                        let! warm := require_strings (dget a "warmup_policies") "warmup policies" in
                        let! score := require_strings (dget a "score_policies") "score policies" in
                        Ok (mkDeployment id manifest wheels hashes caps sems fins warm score)
                    | _ => Err (mkAdmitError "candidate admission policy is required" "ADMISSION_POLICY_INVALID")
                    end
                | _ => invalid "candidate schema hashes are required"
                end
            | _ => invalid "candidate wheels are required"
            end
    | _ => invalid "candidate id is required"
    end.

(** ** Installed schemas and the active deployment *)

Definition schema_invalid {A} (message : string) : result AdmitError A := Err (mkAdmitError message "INSTALLED_SCHEMA_INVALID").

Definition add_installed_schema (acc : gmap string string) (file : string * string) : result AdmitError (gmap string string) :=
  match loads file.2 with
  | Err _ => schema_invalid ("installed contract schema is invalid: " +:+ file.1)
  | Ok v =>
      match (match v with JObj l => dget (jdict l) "$id" | _ => None end) with
      | Some (JStr id) =>
          if str_truthy id && bool_decide (acc !! id = None)
          then Ok (<[id := "sha256:" +:+ sha256_bytes file.2]> acc)
          else schema_invalid ("installed contract schema identity is invalid: " +:+ file.1)
      | _ => schema_invalid ("installed contract schema identity is invalid: " +:+ file.1)
      end
  end.

(** [installed_contract_schema_hashes]: the names and contents of the schema
    files, [None] when the package has no path. *)
Definition installed_contract_schema_hashes (files : option (list (string * string))) : result AdmitError (gmap string string) :=
  match files with
  | None => schema_invalid "installed contracts package path is unavailable"
  | Some files =>
      let! output := result_fold add_installed_schema ∅ (sort_by (fun a b => str_leb a.1 b.1) files) in
      if bool_decide (output = ∅) then schema_invalid "installed contract schema hashes are unavailable" else Ok output
  end.

Definition add_hash (acc : gmap string string) (kv : string * string) : result AdmitError (gmap string string) :=
  if str_truthy kv.1 then let! h := require_hash kv.2 ("schema hash " +:+ kv.1) in Ok (<[kv.1 := h]> acc)
  else invalid "schema hashes are invalid".

(** [_normalize_schema_hashes]. *)
Definition normalize_schema_hashes (value : gmap string string) : result AdmitError (gmap string string) :=
  if bool_decide (value = ∅) then invalid "schema hashes are required"
  else result_fold add_hash ∅ (map_to_list value).

(** Python compares the tuples component by component. *)
Definition lex {A} (leb : A -> A -> bool) (p q : string * A) : bool :=
  str_ltb p.1 q.1 || bool_decide (p.1 = q.1) && leb p.2 q.2.

Definition wheel_leb (a b : WheelIdentity) : bool :=
  lex (lex str_leb) (a.1.1, (a.1.2, a.2)) (b.1.1, (b.1.2, b.2)).

Definition check_wheel (w : WheelIdentity) : result AdmitError WheelIdentity :=
  let '(n, v, h) := w in
  if str_truthy n && str_truthy v then let! h' := require_hash h (n +:+ " wheel hash") in Ok (n, v, h')
  else invalid "wheel identities are invalid".

(** [_normalize_wheels]. *)
Definition normalize_wheels (value : list WheelIdentity) : result AdmitError (list WheelIdentity) :=
  let! normalized := result_map check_wheel value in
  match normalized with [] => invalid "wheel identities are required" | _ => Ok (sort_by wheel_leb normalized) end.

(** [Path(filename).name == filename] for a name that is not empty. *)
Definition plain_filename (f : string) : bool :=
  str_truthy f && str_forall (fun c => negb (Ascii.eqb c "/")) f && negb (bool_decide (f = ".")).

(** What [load_active_deployment_identity] reads. *)
Record Installation := mkInstallation {
  manifest_text : option string;
  wheel_file : string -> option string;
  read_version : string -> option string;
  read_schemas : result AdmitError (gmap string string)
}.

Definition check_component (env : Installation) (kv : string * json) : result AdmitError unit :=
  let name := kv.1 in
  let row := match kv.2 with JObj r => jdict r | _ => [] end in
  let wheel := match dget row "wheel" with Some (JObj w) => jdict w | _ => [] end in
  match dget wheel "filename" with
  | Some (JStr filename) =>
      if negb (plain_filename filename) then invalid ("candidate wheel filename is invalid: " +:+ name)
      else
        let! expected := require_json_hash (dget wheel "sha256") (name +:+ " wheel hash") in
        match wheel_file env filename with
        | None => Err (mkAdmitError ("candidate wheel is unavailable: " +:+ filename) "WHEEL_IDENTITY_UNAVAILABLE")
        | Some content =>
            if negb (bool_decide ("sha256:" +:+ sha256_bytes content = expected))
            then Err (mkAdmitError ("wheel hash mismatch: " +:+ name) "WHEEL_IDENTITIES_MISMATCH")
            else
              let distribution := str_map (fun c => if Ascii.eqb c "_" then "-"%char else c) name in
              match read_version env distribution with
              | None => Err (mkAdmitError ("installed version unavailable: " +:+ distribution) "INSTALLED_VERSION_MISMATCH")
              | Some v =>
                  if match dget row "version" with Some (JStr w) => bool_decide (v = w) | _ => false end then Ok tt
                  else Err (mkAdmitError ("installed version mismatch: " +:+ distribution) "INSTALLED_VERSION_MISMATCH")
              end
        end
  | _ => invalid ("candidate wheel filename is invalid: " +:+ name)
  end.

(** [load_active_deployment_identity]. *)
Definition load_active_deployment_identity (env : Installation) : result AdmitError DeploymentAdmissionIdentity :=
  match (match manifest_text env with Some t => loads t | None => Err JSONDecodeError end) with
  | Err _ => Err (mkAdmitError "active candidate manifest is unavailable" "ADMISSION_IDENTITY_REQUIRED")
  | Ok (JObj l) =>
      let payload := jdict l in
      let! deployment := deployment_identity_from_candidate payload in
      let components := match dget payload "components" with Some (JObj c) => jdict c | _ => [] end in
      let! _ := result_map (check_component env) components in
      let! raw := read_schemas env in
      let! installed := normalize_schema_hashes raw in
      let! declared := normalize_schema_hashes (schema_hashes deployment) in
      if negb (bool_decide (installed = declared))
      then Err (mkAdmitError "installed schema hashes mismatch" "SCHEMA_HASHES_MISMATCH")
      else Ok deployment
  | Ok _ => invalid "active candidate manifest is invalid"
  end.

(** ** Admission of a run *)

Context {RunMode : Type} `{EqDecision RunMode}.
Variables LIVE PAPER : RunMode.
(** [RunMode(text)], [None] being its [ValueError], and [mode.value]. *)
Variable RunMode_of : string -> option RunMode.
Variable mode_value : RunMode -> string.

Record AdmitRequest := mkRequest {
  rq_schema_id : string; rq_schema_major : Z; rq_schema_minor : Z;
  rq_required_capabilities : list string; rq_stack_id : string; rq_artifact_hash : string
}.

Record AdmitPolicy := mkPolicy {
  po_supported_schema_id : string; po_min_major : Z; po_max_major : Z; po_min_minor : Z; po_max_minor : Z;
  po_capabilities : gset string; po_expected_stack_id : string; po_expected_artifact_hash : string;
  po_allow_stack_override : bool
}.

Record AdmitResult := mkAdmitResult { ar_ok : bool; ar_code : string; ar_message : string; ar_details : list (string * string) }.

Variable contracts_admit : AdmitRequest -> AdmitPolicy -> result AdmitError AdmitResult.

Definition is_broker (m : RunMode) : bool := bool_decide (m = LIVE) || bool_decide (m = PAPER).

(** [parse_run_mode]; [str(value)] is the argument. *)
Definition parse_run_mode (value : string) : result AdmitError RunMode :=
  let text := str_strip value in
  match RunMode_of text with
  | Some m => Ok m
  | None => match RunMode_of (str_upper text) with
            | Some m => Ok m
            | None => Err (mkAdmitError "unknown run mode" "UNKNOWN_RUN_MODE")
            end
  end.

(** [sorted(set(required_capabilities) - deployment.capabilities)]. *)
Definition missing_capabilities (required : list string) (caps : gset string) : list string :=
  sort_by str_leb (List.filter (fun c => negb (bool_decide (c ∈ caps))) (remove_dups required)).

(** [admit_deployment], for a mode that has been parsed. *)
Definition admit_deployment (m : RunMode) (deployment : DeploymentAdmissionIdentity) (required : list string)
    : result AdmitError AdmitResult :=
  let! _ := require_hash (stack_manifest_hash deployment) "candidate manifest hash" in
  let! _ := normalize_wheels (wheel_identities deployment) in
  let! _ := normalize_schema_hashes (schema_hashes deployment) in
  match missing_capabilities required (capabilities deployment) with
  | [] => Ok (mkAdmitResult true "ADMIT_OK" "admitted"
                [("mode", mode_value m); ("stack_id", stack_id deployment); ("stack_manifest_hash", stack_manifest_hash deployment)])
  | missing => Err (mkAdmitError ("missing capabilities: " +:+ join_with "," missing) "MISSING_CAPABILITIES")
  end.

(** [admit_configured_deployment]: the installation is absent when the
    configuration does not name a manifest and a wheelhouse. *)
Definition admit_configured_deployment (configured : option Installation) (m : RunMode) : result AdmitError AdmitResult :=
  match configured with
  | None => Err (mkAdmitError "active deployment identity is required" "ADMISSION_IDENTITY_REQUIRED")
  | Some env => let! deployment := load_active_deployment_identity env in admit_deployment m deployment []
  end.

(** [_require_policy]. *)
Definition require_policy (value : string) (allowed : gset string) (label : string) : result AdmitError unit :=
  if bool_decide (value ∈ allowed) then Ok tt
  else Err (mkAdmitError (label +:+ " is not admitted: " +:+ value) "ADMISSION_POLICY_MISMATCH").

Definition run_request (run : RunAdmissionIdentity) : AdmitRequest :=
  mkRequest "openpine.run.v2" 2 1 (required_capabilities run) (run_stack_manifest_hash run) (generated_artifact_hash run).

Definition run_policy (deployment : DeploymentAdmissionIdentity) (expected_artifact_hash : string) (override : bool) : AdmitPolicy :=
  mkPolicy "openpine.run.v2" 2 2 1 1 (capabilities deployment) (stack_manifest_hash deployment) expected_artifact_hash override.

Definition allow_stack_override (m : RunMode) (profile : string) (explicit_override : bool) : bool :=
  explicit_override && bool_decide (profile = "local-dev") && negb (is_broker m).

(** [admit_run], for a mode that has been parsed. *)
Definition admit_run (m : RunMode) (deployment : DeploymentAdmissionIdentity) (run : RunAdmissionIdentity)
    (expected_artifact_hash expected_data_snapshot_hash profile : string) (explicit_override : bool)
    : result AdmitError AdmitResult :=
  let! _ := admit_deployment m deployment (required_capabilities run) in
  let! _ := require_hash (run_stack_manifest_hash run) "run stack manifest hash" in
  let! _ := require_hash (generated_artifact_hash run) "generated artifact hash" in
  let! _ := require_hash expected_artifact_hash "expected generated artifact hash" in
  let! res := contracts_admit (run_request run) (run_policy deployment expected_artifact_hash (allow_stack_override m profile explicit_override)) in
  let! rw := normalize_wheels (run_wheel_identities run) in
  let! dw := normalize_wheels (wheel_identities deployment) in
  if negb (bool_decide (rw = dw)) then Err (mkAdmitError "wheel identities mismatch" "WHEEL_IDENTITIES_MISMATCH")
  else
    let! rs := normalize_schema_hashes (run_schema_hashes run) in
    let! ds := normalize_schema_hashes (schema_hashes deployment) in
    if negb (bool_decide (rs = ds)) then Err (mkAdmitError "schema hashes mismatch" "SCHEMA_HASHES_MISMATCH")
    else
      let! snap := require_hash (data_snapshot_hash run) "data snapshot hash" in
      let! expected := require_hash expected_data_snapshot_hash "expected data snapshot hash" in
      if negb (bool_decide (snap = expected)) then Err (mkAdmitError "data snapshot hash mismatch" "DATA_SNAPSHOT_HASH_MISMATCH")
      else
        let! _ := require_policy (semantic_profile run) (semantic_profiles deployment) "semantic profile" in
        let! _ := require_policy (finality_policy run) (finality_policies deployment) "finality policy" in
        let! _ := require_policy (warmup_policy run) (warmup_policies deployment) "warmup policy" in
        let! _ := require_policy (score_policy run) (score_policies deployment) "score policy" in
        Ok res.

(** ** Semantic profiles *)

Context {SemanticProfile : Type} `{EqDecision SemanticProfile}.
Variable LEGACY_4X : SemanticProfile.
Variable SemanticProfile_of : string -> option SemanticProfile.

(** [admit_semantic_profile]; a profile is its text. *)
Definition admit_semantic_profile (profile : option string) (source : string) (allow_legacy : bool)
    : result AdmitError SemanticProfile :=
  match profile with
  | None =>
      if existsb (String.eqb source) ["generated_artifact.v2"; "live"; "paper"]
      then Err (mkAdmitError "semantic profile required" "SEMANTIC_PROFILE_REQUIRED")
      else Ok LEGACY_4X
  | Some text =>
      match SemanticProfile_of text with
      | None => Err (mkAdmitError "unknown semantic profile" "UNKNOWN_SEMANTIC_PROFILE")
      | Some p =>
          if bool_decide (p = LEGACY_4X) && existsb (String.eqb source) ["live"; "paper"] && negb allow_legacy
          then Err (mkAdmitError "legacy semantic profile is not allowed without explicit policy" "LEGACY_PROFILE_NOT_ALLOWED")
          else Ok p
      end
  end.

(** [require_strategy_semantic_profile]: the strategy's mode, its profile, and
    [allow_legacy] where it has that attribute. *)
Definition require_strategy_semantic_profile (mode : string) (profile : option string) (allow_legacy : bool)
    : result AdmitError SemanticProfile :=
  admit_semantic_profile profile (if existsb (String.eqb mode) ["live"; "paper"] then mode else "backtest") allow_legacy.

(** ** What the checks accept *)

Lemma require_hash_ok v l h : require_hash v l = Ok h <-> is_hash v = true /\ h = v.
Proof. unfold require_hash. destruct (is_hash v); split; intros; by (simplify_eq || destruct_and?; simplify_eq). Qed.

Definition wheel_ok (w : WheelIdentity) : Prop := w.1.1 <> "" /\ w.1.2 <> "" /\ is_hash w.2 = true.

Lemma str_truthy_ok s : str_truthy s = true <-> s <> "".
Proof. unfold str_truthy. by rewrite negb_true_iff, bool_decide_eq_false. Qed.

Lemma check_wheel_ok w r : check_wheel w = Ok r <-> wheel_ok w /\ r = w.
Proof.
  destruct w as [[n v] h]. unfold check_wheel, wheel_ok. simpl. destruct (str_truthy n && str_truthy v) eqn:E.
  - apply andb_true_iff in E as [Hn%str_truthy_ok Hv%str_truthy_ok]. split.
    + intros (h' & Hh & Hr)%result_bind_ok. apply require_hash_ok in Hh as [Hh ->]. by simplify_eq.
    + intros [(_ & _ & Hh) ->]. unfold require_hash. by rewrite Hh.
  - split; [done|]. intros [(Hn%str_truthy_ok & Hv%str_truthy_ok & _) _]. by rewrite Hn, Hv in E.
Qed.

Definition wheels_ok (ws : list WheelIdentity) : Prop := ws <> [] /\ Forall wheel_ok ws.

Lemma result_map_id {E A} (f : A -> result E A) (P : A -> Prop) :
  (forall x y, f x = Ok y <-> P x /\ y = x) -> forall l r, result_map f l = Ok r <-> Forall P l /\ r = l.
Proof.
  intros Hf l r. rewrite result_map_ok. split.
  - induction 1 as [|x y l r Hx _ [IH ->]]; [done|]. apply Hf in Hx as [Hx ->]. split; [by constructor|done].
  - intros [Hl ->]. induction Hl as [|x l Hx Hl IH]; constructor; [by apply Hf|done].
Qed.

Lemma normalize_wheels_ok ws r : normalize_wheels ws = Ok r <-> wheels_ok ws /\ r = sort_by wheel_leb ws.
Proof.
  unfold normalize_wheels, wheels_ok. pose proof (result_map_id check_wheel wheel_ok check_wheel_ok ws) as Hm. split.
  - intros (l & Hl & Hr)%result_bind_ok. apply Hm in Hl as [Hl ->]. destruct ws; simplify_eq. by split.
  - intros [[Hne Hl] ->]. rewrite (proj2 (Hm ws) (conj Hl eq_refl)). by destruct ws.
Qed.

Definition hashes_ok (m : gmap string string) : Prop := m <> ∅ /\ forall k v, m !! k = Some v -> k <> "" /\ is_hash v = true.

Lemma add_hash_ok acc kv acc' :
  add_hash acc kv = Ok acc' <-> (kv.1 <> "" /\ is_hash kv.2 = true) /\ acc' = <[kv.1 := kv.2]> acc.
Proof.
  unfold add_hash. destruct (str_truthy kv.1) eqn:E.
  - apply str_truthy_ok in E. split.
    + intros (h & Hh & Hr)%result_bind_ok. apply require_hash_ok in Hh as [Hh ->]. by simplify_eq.
    + intros [[_ Hh] ->]. unfold require_hash. by rewrite Hh.
  - split; [done|]. intros [[H%str_truthy_ok _] _]. congruence.
Qed.

Lemma result_fold_insert acc l r :
  result_fold add_hash acc l = Ok r <->
  Forall (fun kv => kv.1 <> "" /\ is_hash kv.2 = true) l /\ r = fold_left (fun m kv => <[kv.1 := kv.2]> m) l acc.
Proof.
  revert acc. induction l as [|kv l IH]; intros acc; simpl.
  { split; [intros; by simplify_eq|intros [_ ->]; done]. }
  split.
  - intros (m & Hm & Hr)%result_bind_ok. apply add_hash_ok in Hm as [Hkv ->]. apply IH in Hr as [Hl ->]. split; [by constructor|done].
  - intros [Hl ->]. inversion Hl as [|? ? Hkv Hl']; subst. rewrite (proj2 (add_hash_ok acc kv _) (conj Hkv eq_refl)). simpl.
    by apply IH.
Qed.

Lemma fold_insert_lookup (l : list (string * string)) (acc : gmap string string) k :
  NoDup l.*1 -> fold_left (fun m kv => <[kv.1 := kv.2]> m) l acc !! k =
  match (list_to_map l : gmap string string) !! k with Some v => Some v | None => acc !! k end.
Proof.
  revert acc. induction l as [|[k' v'] l IH]; intros acc Hnd; simpl; [by rewrite lookup_empty|].
  inversion Hnd as [|? ? Hk Hnd']; subst. rewrite IH by done. destruct (decide (k' = k)) as [->|Hne].
  - rewrite lookup_insert_eq. by rewrite (not_elem_of_list_to_map_1 l k Hk), lookup_insert_eq.
  - by rewrite !lookup_insert_ne by done.
Qed.

Lemma normalize_schema_hashes_ok m r : normalize_schema_hashes m = Ok r <-> hashes_ok m /\ r = m.
Proof.
  unfold normalize_schema_hashes, hashes_ok. assert (Hf : fold_left (fun m kv => <[kv.1 := kv.2]> m) (map_to_list m) ∅ = m).
  { apply map_eq. intros k. rewrite fold_insert_lookup by apply NoDup_fst_map_to_list. rewrite list_to_map_to_list, lookup_empty.
    by destruct (m !! k). }
  assert (Hall : Forall (fun kv => kv.1 <> "" /\ is_hash kv.2 = true) (map_to_list m) <->
    forall k v, m !! k = Some v -> k <> "" /\ is_hash v = true).
  { rewrite Forall_forall. split.
    - intros H k v Hk. by apply (H (k, v)), elem_of_map_to_list.
    - intros H [k v] Hk%elem_of_map_to_list. by apply H. }
  case_bool_decide as E; [split; [done|intros [[? _] _]; done]|]. rewrite result_fold_insert, Hf, Hall.
  split; [intros [? ->]; done|intros [[_ ?] ->]; done].
Qed.

Lemma missing_capabilities_nil required caps : missing_capabilities required caps = [] <-> forall c, c ∈ required -> c ∈ caps.
Proof.
  unfold missing_capabilities. set (l := List.filter _ _).
  assert (Hl : sort_by str_leb l = [] <-> l = []).
  { split; [|by intros ->]. intros H. apply Permutation_nil. rewrite <-H. apply sort_by_perm. }
  rewrite Hl. subst l. split.
  - intros H c Hc. destruct (decide (c ∈ caps)) as [|Hn]; [done|]. exfalso.
    assert (Hin : c ∈ List.filter (fun c => negb (bool_decide (c ∈ caps))) (remove_dups required)).
    { apply list_elem_of_In, filter_In. split; [by apply list_elem_of_In, elem_of_remove_dups|by rewrite bool_decide_false]. }
    rewrite H in Hin. by apply not_elem_of_nil in Hin.
  - intros H. destruct (List.filter _ _) as [|c l] eqn:E; [done|]. exfalso.
    pose proof (list_elem_of_here c l) as Hin. rewrite <-E in Hin. apply list_elem_of_In, filter_In in Hin as [Hin Hb].
    apply list_elem_of_In, elem_of_remove_dups, H in Hin. by rewrite bool_decide_true in Hb.
Qed.

(** *** Lexicographic order *)

Section Lex.
Context {A : Type} (leb : A -> A -> bool).
Hypothesis total : forall x y, leb x y = true \/ leb y x = true.
Hypothesis trans : forall x y z, leb x y = true -> leb y z = true -> leb x z = true.
Hypothesis antisym : forall x y, leb x y = true -> leb y x = true -> x = y.

Lemma lex_spec a x b y : lex leb (a, x) (b, y) = true <-> str_ltb a b = true \/ (a = b /\ leb x y = true).
Proof. unfold lex. rewrite orb_true_iff, andb_true_iff, bool_decide_eq_true. done. Qed.

Lemma lex_total p q : lex leb p q = true \/ lex leb q p = true.
Proof using total.
  destruct p as [a x], q as [b y]. rewrite !lex_spec. destruct (str_ltb_total a b) as [?|[->|?]]; [auto| |auto].
  destruct (total x y); auto.
Qed.

Lemma lex_trans p q r : lex leb p q = true -> lex leb q r = true -> lex leb p r = true.
Proof using trans.
  destruct p as [a x], q as [b y], r as [c z]. rewrite !lex_spec.
  intros [H1|[-> H1]] [H2|[-> H2]]; [left; by eapply str_ltb_trans|by left|by left|right; split; [done|by eapply trans]].
Qed.

Lemma lex_antisym p q : lex leb p q = true -> lex leb q p = true -> p = q.
Proof using antisym.
  destruct p as [a x], q as [b y]. rewrite !lex_spec. intros [H1|[-> H1]] [H2|[E H2]].
  - pose proof (str_ltb_trans _ _ _ H1 H2) as H. by rewrite str_ltb_irrefl in H.
  - subst. by rewrite str_ltb_irrefl in H1.
  - by rewrite str_ltb_irrefl in H2.
  - f_equal. by apply antisym.
Qed.

End Lex.

(** Wheel identities in any order are the same once sorted. *)
Lemma sorted_wheels a b : sort_by wheel_leb a = sort_by wheel_leb b <-> Permutation a b.
Proof.
  split; intros H.
  - by rewrite <-(sort_by_perm wheel_leb a), H, sort_by_perm.
  - assert (Ht : forall x y, wheel_leb x y = true \/ wheel_leb y x = true).
    { intros [[an av] ah] [[bn bv] bh]. apply lex_total, lex_total, str_leb_total. }
    assert (Htr : forall x y z, wheel_leb x y = true -> wheel_leb y z = true -> wheel_leb x z = true).
    { intros [[an av] ah] [[bn bv] bh] [[cn cv] ch]. apply lex_trans, lex_trans, str_leb_trans. }
    assert (Ha : AntiSymm eq (fun x y => wheel_leb x y = true)).
    { intros [[an av] ah] [[bn bv] bh] H1 H2.
      pose proof (lex_antisym (lex str_leb) (lex_antisym str_leb str_leb_antisym) _ _ H1 H2) as E. by injection E as -> -> ->. }
    apply (StronglySorted_unique (fun x y => wheel_leb x y = true)); [by apply sort_by_sorted..|].
    by rewrite !sort_by_perm.
Qed.

(** ** Admission *)

(** Of a sequence of checks that succeeded, what the first one found out. *)
Ltac passed lem H :=
  let x := fresh "x" in let E := fresh "E" in
  apply result_bind_ok in H; destruct H as (x & E & H); apply lem in E; destruct_and? E; subst x.

Definition deployment_ok (d : DeploymentAdmissionIdentity) : Prop :=
  is_hash (stack_manifest_hash d) = true /\ wheels_ok (wheel_identities d) /\ hashes_ok (schema_hashes d).

Lemma admit_deployment_ok m d required r :
  admit_deployment m d required = Ok r <->
  deployment_ok d /\ (forall c, c ∈ required -> c ∈ capabilities d) /\
  r = mkAdmitResult true "ADMIT_OK" "admitted"
        [("mode", mode_value m); ("stack_id", stack_id d); ("stack_manifest_hash", stack_manifest_hash d)].
Proof.
  unfold admit_deployment, deployment_ok. rewrite <-missing_capabilities_nil. split.
  - intros H. passed require_hash_ok H.
    passed normalize_wheels_ok H.
    passed normalize_schema_hashes_ok H.
    destruct (missing_capabilities _ _); simplify_eq. by split_and!.
  - intros ((H1 & H2 & H3) & H4 & ->). rewrite (proj2 (require_hash_ok _ _ _) (conj H1 eq_refl)). simpl.
    rewrite (proj2 (normalize_wheels_ok _ _) (conj H2 eq_refl)). simpl.
    rewrite (proj2 (normalize_schema_hashes_ok _ _) (conj H3 eq_refl)). simpl. by rewrite H4.
Qed.

Lemma require_policy_ok v allowed l : require_policy v allowed l = Ok tt <-> v ∈ allowed.
Proof. unfold require_policy. by case_bool_decide. Qed.

Lemma require_policy_any v allowed l (u : unit) : require_policy v allowed l = Ok u -> v ∈ allowed /\ u = tt.
Proof. unfold require_policy. case_bool_decide; intros; by destruct u. Qed.

Lemma admit_run_spec m d run artifact snapshot profile override res :
  admit_run m d run artifact snapshot profile override = Ok res <->
  deployment_ok d /\ (forall c, c ∈ required_capabilities run -> c ∈ capabilities d) /\
  Forall (fun h => is_hash h = true)
    [run_stack_manifest_hash run; generated_artifact_hash run; artifact; data_snapshot_hash run] /\
  contracts_admit (run_request run) (run_policy d artifact (allow_stack_override m profile override)) = Ok res /\
  Permutation (run_wheel_identities run) (wheel_identities d) /\ run_schema_hashes run = schema_hashes d /\
  data_snapshot_hash run = snapshot /\
  semantic_profile run ∈ semantic_profiles d /\ finality_policy run ∈ finality_policies d /\
  warmup_policy run ∈ warmup_policies d /\ score_policy run ∈ score_policies d.
Proof.
  unfold admit_run. split.
  - intros H. passed admit_deployment_ok H.
    passed require_hash_ok H.
    passed require_hash_ok H.
    passed require_hash_ok H.
    apply result_bind_ok in H. destruct H as (r & Hadm & H).
    passed normalize_wheels_ok H.
    passed normalize_wheels_ok H.
    case_bool_decide as Ew; [|done]. simpl in H.
    passed normalize_schema_hashes_ok H.
    passed normalize_schema_hashes_ok H.
    case_bool_decide as Es; [|done]. simpl in H.
    passed require_hash_ok H.
    passed require_hash_ok H.
    case_bool_decide as Ex; [|done]. simpl in H.
    passed require_policy_any H. passed require_policy_any H.
    passed require_policy_any H. passed require_policy_any H.
    simplify_eq. split_and!; try done; [by repeat constructor|by apply sorted_wheels].
  - intros (Hd & Hc & Hh & Hadm & Hw & Hs & Hx & H1 & H2 & H3 & H4).
    rewrite (proj2 (admit_deployment_ok m d _ _) (conj Hd (conj Hc eq_refl))). simpl.
    inversion Hh as [|? ? Ha Hh1]; subst. inversion Hh1 as [|? ? Hb Hh2]; subst. inversion Hh2 as [|? ? Hc' Hh3]; subst.
    inversion Hh3 as [|? ? He _]; subst. unfold require_hash. rewrite Ha, Hb, Hc', He. simpl. rewrite Hadm. simpl.
    destruct Hd as (_ & Hdw & Hds). assert (Hrw : wheels_ok (run_wheel_identities run)).
    { destruct Hdw as [Hne Hall]. split; [|by rewrite Hw]. intros E. rewrite E in Hw. by apply Permutation_nil in Hw. }
    rewrite (proj2 (normalize_wheels_ok _ _) (conj Hrw eq_refl)), (proj2 (normalize_wheels_ok _ _) (conj Hdw eq_refl)). simpl.
    rewrite bool_decide_true by (by apply sorted_wheels). simpl. rewrite Hs, (proj2 (normalize_schema_hashes_ok _ _) (conj Hds eq_refl)). simpl.
    rewrite !bool_decide_true by done. simpl. unfold require_policy. by rewrite !bool_decide_true.
Qed.

(** C27: A run is admitted exactly when the deployment is well formed and has the
    capabilities the run needs, every hash is one, the contracts' [admit]
    accepts the stack and the artifact, and wheels, schemas, data and policies
    are those of the deployment.  A stack that differs can be waved through only
    by an explicit override in the local-dev profile, and never for a mode that
    reaches a broker. *)
Theorem admit_run_iff m d run artifact snapshot profile override res :
  admit_run m d run artifact snapshot profile override = Ok res <->
  deployment_ok d /\ (forall c, c ∈ required_capabilities run -> c ∈ capabilities d) /\
  Forall (fun h => is_hash h = true)
    [run_stack_manifest_hash run; generated_artifact_hash run; artifact; data_snapshot_hash run] /\
  contracts_admit (run_request run) (run_policy d artifact (allow_stack_override m profile override)) = Ok res /\
  Permutation (run_wheel_identities run) (wheel_identities d) /\ run_schema_hashes run = schema_hashes d /\
  data_snapshot_hash run = snapshot /\
  semantic_profile run ∈ semantic_profiles d /\ finality_policy run ∈ finality_policies d /\
  warmup_policy run ∈ warmup_policies d /\ score_policy run ∈ score_policies d.
Proof. apply admit_run_spec. Qed.

(** A live or paper run is never admitted on another stack: whatever override
    is asked for, the contracts' [admit] is told not to allow one. *)
Lemma broker_no_override m profile override : is_broker m = true -> allow_stack_override m profile override = false.
Proof. intros H. unfold allow_stack_override. by rewrite H, andb_false_r. Qed.

(** A live or paper strategy runs with a profile that was chosen: none is made
    up for it, and the legacy one is taken only where it is allowed. *)
Theorem admit_semantic_profile_iff profile source allow_legacy p :
  admit_semantic_profile profile source allow_legacy = Ok p <->
  match profile with
  | None => p = LEGACY_4X /\ source ∉ ["generated_artifact.v2"; "live"; "paper"]
  | Some text => SemanticProfile_of text = Some p /\ (p = LEGACY_4X -> source ∈ ["live"; "paper"] -> allow_legacy = true)
  end.
Proof.
  assert (He : forall l, existsb (String.eqb source) l = true <-> source ∈ l).
  { intros l. rewrite existsb_exists. setoid_rewrite <-list_elem_of_In. split.
    - by intros (x & Hx & ->%String.eqb_eq).
    - intros H. exists source. by rewrite String.eqb_refl. }
  unfold admit_semantic_profile. destruct profile as [text|].
  - destruct (SemanticProfile_of text) as [q|]; [|split; [done|intros [? _]; done]].
    destruct (existsb (String.eqb source) ["live"; "paper"]) eqn:E.
    + apply He in E. case_bool_decide; destruct allow_legacy; simpl; split; intros; destruct_and?; simplify_eq; try done.
      exfalso. by assert (false = true) by auto.
    + assert (source ∉ ["live"; "paper"]) by (rewrite <-He; congruence). rewrite andb_false_r. simpl.
      split; intros; destruct_and?; simplify_eq; by try split.
  - destruct (existsb (String.eqb source) ["generated_artifact.v2"; "live"; "paper"]) eqn:E.
    + apply He in E. split; [done|intros [_ ?]; done].
    + assert (source ∉ ["generated_artifact.v2"; "live"; "paper"]) by (rewrite <-He; congruence).
      split; intros; destruct_and?; simplify_eq; by try split.
Qed.

(** ** The active deployment *)

Lemma require_json_hash_ok v l h : require_json_hash v l = Ok h -> v = Some (JStr h) /\ is_hash h = true.
Proof. unfold require_json_hash. destruct v as [[]|]; intros H; try done. by apply require_hash_ok in H as [? ->]. Qed.

Lemma wheel_of_ok comps name n v h :
  wheel_of comps name = Ok (n, v, h) ->
  n = name /\ exists row wheel, dget comps name = Some (JObj row) /\ dget (jdict row) "version" = Some (JStr v) /\
    dget (jdict row) "wheel" = Some (JObj wheel) /\ dget (jdict wheel) "sha256" = Some (JStr h).
Proof.
  unfold wheel_of. intros H. repeat case_match; simplify_eq/=.
  apply result_bind_ok in H as (h' & [E _]%require_json_hash_ok & H). simplify_eq. eauto 10.
Qed.

Lemma candidate_ok c d :
  deployment_identity_from_candidate c = Ok d ->
  stack_manifest_hash d = candidate_manifest_hash c /\ is_hash (stack_manifest_hash d) = true /\
  exists comps, dget c "components" = Some (JObj comps) /\
    result_map (wheel_of (jdict comps)) (sort_by str_leb (dkeys (jdict comps))) = Ok (wheel_identities d).
Proof.
  unfold deployment_identity_from_candidate. intros H. destruct (negb _); [done|]. destruct (negb _); [done|].
  destruct (dget c "id") as [[| | |id| |]|]; try done. destruct (negb (str_truthy id)); [done|].
  apply result_bind_ok in H as (mh & Hm & H). apply require_json_hash_ok in Hm as [_ Hm]. case_bool_decide as E; [|done]. simpl in H.
  destruct (dget c "components") as [[| | | | |[|x cs]]|]; try done.
  apply result_bind_ok in H as (wheels & Hw & H).
  destruct (dget c "schema_hashes") as [[| | | | |[|y hs]]|]; try done. apply result_bind_ok in H as (? & _ & H).
  destruct (dget c "admission") as [[| | | | |a]|]; try done.
  repeat (apply result_bind_ok in H as (? & _ & H)). simplify_eq. simpl. eauto 10.
Qed.

Definition distribution (name : string) : string := str_map (fun c => if Ascii.eqb c "_" then "-"%char else c) name.

Lemma check_component_ok env name row wheel v h :
  check_component env (name, JObj row) = Ok tt ->
  dget (jdict row) "wheel" = Some (JObj wheel) -> dget (jdict wheel) "sha256" = Some (JStr h) ->
  dget (jdict row) "version" = Some (JStr v) ->
  exists filename content, plain_filename filename = true /\ wheel_file env filename = Some content /\
    h = "sha256:" +:+ sha256_bytes content /\ read_version env (distribution name) = Some v.
Proof.
  unfold check_component. simpl. intros H Hw Hh Hv. rewrite Hw, Hh, Hv in H.
  destruct (dget (jdict wheel) "filename") as [[| | |f| |]|]; try done. destruct (plain_filename f) eqn:Hf; [|done]. simpl in H.
  apply result_bind_ok in H as (h' & [_ ->]%require_hash_ok & H). destruct (wheel_file env f) as [content|] eqn:Ef; [|done].
  case_bool_decide as E; [|done]. simpl in H. destruct (read_version env _) as [v'|] eqn:Er; [|done].
  case_bool_decide; simplify_eq. eauto 10.
Qed.

(** A deployment that is loaded is the one installed: its manifest hash is the
    digest of the manifest, every wheel file next to it has the content and
    every distribution the version the manifest names, and the installed schemas
    are exactly the manifest's. *)
Theorem loaded_deployment_installed env d :
  load_active_deployment_identity env = Ok d ->
  (exists t l, manifest_text env = Some t /\ loads t = Ok (JObj l) /\
     stack_manifest_hash d = candidate_manifest_hash (jdict l)) /\
  is_hash (stack_manifest_hash d) = true /\ read_schemas env = Ok (schema_hashes d) /\ hashes_ok (schema_hashes d) /\
  forall n v h, (n, v, h) ∈ wheel_identities d ->
    exists filename content, plain_filename filename = true /\ wheel_file env filename = Some content /\
      h = "sha256:" +:+ sha256_bytes content /\ read_version env (distribution n) = Some v.
Proof.
  unfold load_active_deployment_identity. intros H. destruct (manifest_text env) as [t|] eqn:Et; [|done].
  destruct (loads t) as [[| | | | |l]|] eqn:El; try done.
  apply result_bind_ok in H as (d' & Hd & H). apply result_bind_ok in H as (us & Hc & H).
  apply result_bind_ok in H as (raw & Hr & H). passed normalize_schema_hashes_ok H. passed normalize_schema_hashes_ok H.
  case_bool_decide as E; [|done]. simpl in H. simplify_eq. destruct (candidate_ok _ _ Hd) as (Hh & His & comps & Hcomps & Hw).
  split_and!; try done; [by eauto 10|]. intros n v h Hin. rewrite Hcomps in Hc.
  apply result_map_ok in Hw. apply list_elem_of_lookup in Hin as [i Hi].
  destruct (Forall2_lookup_r _ _ _ _ _ Hw Hi) as (name & _ & Hname).
  apply wheel_of_ok in Hname as (-> & row & wheel & Hg & Hv & Hwh & Hs).
  apply dget_Some_elem in Hg. apply result_map_ok in Hc. apply list_elem_of_lookup in Hg as [j Hj].
  destruct (Forall2_lookup_l _ _ _ _ _ Hc Hj) as ([] & _ & Hck). by eapply check_component_ok.
Qed.

End Admission.

(** ** Witnesses *)

Definition demo_digest (s : string) : string := "abcdefabcdefabcdefabcdefabcdefabcdefabcdefabcdefabcdefabcdefabcd".
Definition demo_hash : string := "sha256:" +:+ demo_digest "".

Definition demo_strings (l : list string) : json := JArr (map JStr l).

Definition demo_manifest : json :=
  JObj [("schema", JStr candidate_schema); ("stage", JStr "wheel-bound"); ("id", JStr "stack");
        ("manifest_hash", JStr demo_hash);
        ("components", JObj [("backtest_engine", JObj [("version", JStr "5.0");
           ("wheel", JObj [("filename", JStr "backtest.whl"); ("sha256", JStr demo_hash)])])]);
        ("schema_hashes", JObj [("openpine.run.v2", JStr demo_hash)]);
        ("admission", JObj [("capabilities", demo_strings ["closed_bar"]); ("semantic_profiles", demo_strings ["strict_5x"]);
           ("finality_policies", demo_strings ["FINAL"]); ("warmup_policies", demo_strings ["CALC_ONLY"]);
           ("score_policies", demo_strings ["ALL_BARS"])])].

Definition demo_installation : Installation :=
  mkInstallation (Some (dumps demo_manifest)) (fun f => if String.eqb f "backtest.whl" then Some "bytes" else None)
    (fun n => if String.eqb n "backtest-engine" then Some "5.0" else None) (Ok {["openpine.run.v2" := demo_hash]}).

Definition demo_load := load_active_deployment_identity demo_digest demo_digest demo_installation.

Lemma loaded_deployment_installed_witness :
  exists d, demo_load = Ok d /\ wheel_identities d = [("backtest_engine", "5.0", demo_hash)] /\
    exists filename content, wheel_file demo_installation filename = Some content /\ demo_hash = "sha256:" +:+ demo_digest content.
Proof.
  destruct demo_load as [d|] eqn:E; [|vm_compute in E; discriminate]. exists d. split; [reflexivity|].
  assert (Hw : wheel_identities d = [("backtest_engine", "5.0", demo_hash)]) by (vm_compute in E; injection E as <-; reflexivity).
  split; [exact Hw|].
  destruct (loaded_deployment_installed demo_digest demo_digest demo_installation d E) as (_ & _ & _ & _ & H).
  destruct (H "backtest_engine" "5.0" demo_hash) as (f & c & _ & Hf & Hh & _); [rewrite Hw; apply list_elem_of_here|]. eauto.
Defined.

Definition demo_admit (rq : AdmitRequest) (po : AdmitPolicy) : result AdmitError AdmitResult :=
  if bool_decide (rq_stack_id rq = po_expected_stack_id po) || po_allow_stack_override po
  then Ok (mkAdmitResult true "ADMIT_OK" "admitted" []) else Err (mkAdmitError "stack_id drift" "STACK_DRIFT").

Definition demo_run (d : DeploymentAdmissionIdentity) (profile : string) : RunAdmissionIdentity :=
  mkRun (stack_manifest_hash d) (wheel_identities d) (schema_hashes d) demo_hash demo_hash profile "FINAL" "CALC_ONLY" "ALL_BARS" ["closed_bar"].

Example admission_demo :
  match demo_load with
  | Ok d =>
      let run profile := admit_run false true (fun b : bool => if b then "paper" else "live") demo_admit true d (demo_run d profile)
                           demo_hash demo_hash "prod" false in
      is_ok (run "strict_5x") = true /\
      run "legacy_4x" = Err (mkAdmitError "semantic profile is not admitted: legacy_4x" "ADMISSION_POLICY_MISMATCH")
  | Err _ => False
  end.
Proof. vm_compute. split; reflexivity. Qed.
