(* ===== verification/JsonFacts.v ===== *)
(** Facts on JSON texts and dictionaries that the stores of documents share:
    writing with sorted keys and reading back, and the characters of a text. *)

From Stdlib Require Import Ascii.
From S2P Require Import Prelude Json Admission.

(** ** Characters *)

Section Characters.
Variable p : ascii -> bool.

Lemma str_forall_app s t : str_forall p (s +:+ t) = str_forall p s && str_forall p t.
Proof. induction s as [|c s IH]; [done|]. rewrite sapp_cons. simpl. by rewrite IH, andb_assoc. Qed.

Lemma str_forall_imp (q : ascii -> bool) s : (forall c, p c = true -> q c = true) -> str_forall p s = true -> str_forall q s = true.
Proof.
  intros H. induction s as [|c s IH]; [done|]. simpl. rewrite !andb_true_iff. intros [H1 H2]. split; [by apply H|by apply IH].
Qed.

Hypothesis visible : forall c, (32 <=? nat_of_ascii c)%nat && (nat_of_ascii c <=? 126)%nat = true -> p c = true.

Lemma escape_chars c : str_forall p (escape c) = true.
Proof. destruct c as [[] [] [] [] [] [] [] []]; vm_compute escape; simpl; repeat rewrite visible by reflexivity; reflexivity. Qed.

Lemma dump_string_chars s : str_forall p (dump_string s) = true.
Proof.
  unfold dump_string. cbn [str_forall]. rewrite str_forall_app, visible by reflexivity. cbn [str_forall]. rewrite visible by reflexivity.
  rewrite andb_true_r. simpl. induction s as [|c s IH]; [done|]. simpl. by rewrite str_forall_app, escape_chars.
Qed.

Lemma digits_chars s : str_forall p (span_digits s).1 = true.
Proof.
  induction s as [|c s IH]; [done|]. simpl. destruct (ascii_digit c) eqn:E; [|done]. destruct (span_digits s) as [d r]. simpl in *.
  rewrite IH, visible; [done|]. by destruct c as [[] [] [] [] [] [] [] []].
Qed.

Lemma fraction_chars s : str_forall p (fraction s).1 = true.
Proof.
  unfold fraction. destruct (strip_prefix "." s) as [s'|]; [|done]. pose proof (digits_chars s') as H. destruct (span_digits s') as [d r].
  destruct (str_truthy d); [|done]. cbn [fst] in *. rewrite str_forall_app, H. simpl. by rewrite visible.
Qed.

Lemma exponent_chars s : str_forall p (exponent s).1 = true.
Proof.
  unfold exponent. destruct s as [|c s]; [done|]. destruct (Ascii.eqb c "e" || Ascii.eqb c "E") eqn:E; [|done].
  assert (Hc : p c = true).
  { apply visible. apply orb_true_iff in E as [E|E]; apply Ascii.eqb_eq in E as ->; reflexivity. }
  set (x := match s with EmptyString => ("", s) | String g s2 => _ end). assert (Hs : str_forall p x.1 = true).
  { unfold x. destruct s as [|g s2]; [done|]. destruct (Ascii.eqb g "+" || Ascii.eqb g "-") eqn:Eg; [|done]. simpl. rewrite andb_true_r.
    apply visible. apply orb_true_iff in Eg as [Eg|Eg]; apply Ascii.eqb_eq in Eg as ->; reflexivity. }
  destruct x as [sign s2]. pose proof (digits_chars s2) as H. destruct (span_digits s2) as [d r]. destruct (str_truthy d); [|done].
  cbn [fst str_forall] in *. by rewrite str_forall_app, Hc, Hs, H.
Qed.

Lemma scan_number_chars s t r : scan_number s = Some (t, r) -> str_forall p t = true.
Proof.
  unfold scan_number. set (x := match strip_prefix "-" s with Some s1 => ("-", s1) | None => ("", s) end).
  assert (Hx : str_forall p x.1 = true) by (unfold x; destruct (strip_prefix "-" s); simpl; [by rewrite visible|done]).
  destruct x as [sign s1]. destruct (integer_part s1) as [[i s2]|] eqn:Ei; [|done].
  assert (Hi : str_forall p i = true).
  { unfold integer_part in Ei. destruct s1 as [|c s']; [done|]. destruct (Ascii.eqb c "0"); [simplify_eq; simpl; by rewrite visible|].
    destruct (ascii_digit c); [|done]. pose proof (digits_chars (String c s')) as H.
    assert (E : span_digits (String c s') = (i, s2)) by congruence. by rewrite E in H. }
  pose proof (fraction_chars s2) as Hf. destruct (fraction s2) as [f s3]. pose proof (exponent_chars s3) as He.
  destruct (exponent s3) as [e s4]. intros [= <- <-]. cbn [fst] in *. by rewrite !str_forall_app, Hx, Hi, Hf, He.
Qed.

(** Everything that is written between the separators is visible ASCII. *)
Lemma dumps_at_chars y d v :
  (forall d, str_forall p (after_open y d) = true) -> (forall d, str_forall p (after_comma y d) = true) ->
  str_forall p (after_colon y) = true -> (forall d, str_forall p (before_close y d) = true) ->
  plain v = true -> str_forall p (dumps_at y d v) = true.
Proof.
  intros Ho Hm Hc Hl. revert d.
  assert (Hjoin : forall sep l, str_forall p sep = true -> Forall (fun s => str_forall p s = true) l -> str_forall p (join_with sep l) = true).
  { intros sep l Hs. induction 1 as [|s l H _ IH]; [done|]. destruct l as [|s' l]; [done|]. cbn [join_with] in *. by rewrite !str_forall_app, H, Hs. }
  assert (Hsep : forall d, str_forall p ("," +:+ after_comma y d) = true) by (intros e; rewrite str_forall_app, Hm; simpl; by rewrite visible).
  induction v as [|[]|t|s|l IH|l IH] using json_nested_ind; intros d Hp; try (simpl; by rewrite !visible).
  - simpl in *. apply bool_decide_eq_true in Hp. by eapply scan_number_chars.
  - apply dump_string_chars.
  - destruct l as [|v l]; [simpl; by rewrite !visible|]. cbn [dumps_at]. cbn [plain] in Hp. rewrite !str_forall_app, Ho, Hl, Hjoin;
      [simpl; by rewrite !visible|done|]. rewrite forallb_forall in Hp. rewrite Forall_forall in IH. apply Forall_forall. intros x Hx.
    apply list_elem_of_In, in_map_iff in Hx as (u & <- & Hu). apply (IH u); [by apply list_elem_of_In|by apply Hp].
  - destruct l as [|kv l]; [simpl; by rewrite !visible|]. cbn [dumps_at]. cbn [plain] in Hp. rewrite !str_forall_app, Ho, Hl, Hjoin;
      [simpl; by rewrite !visible|done|]. rewrite forallb_forall in Hp. rewrite Forall_forall in IH. apply Forall_forall. intros x Hx.
    apply list_elem_of_In, in_map_iff in Hx as (u & <- & Hu). rewrite !str_forall_app, dump_string_chars, Hc.
    rewrite (IH u); [simpl; by rewrite visible|by apply list_elem_of_In|by apply Hp].
Qed.

End Characters.

(** ** Dictionaries *)

Lemma fold_dset_app {A} (l d : list (string * A)) :
  NoDup (d ++ l).*1 -> fold_left (fun d kv => dset d kv.1 kv.2) l d = d ++ l.
Proof.
  revert d. induction l as [|[k v] l IH]; intros d Hd; simpl; [by rewrite app_nil_r|]. rewrite dset_new.
  - rewrite IH; rewrite <-app_assoc; done.
  - apply dget_None_keys. unfold dkeys. rewrite fmap_app, NoDup_app in Hd. destruct Hd as (_ & Hd & _). intros Hk.
    apply (Hd k Hk). simpl. apply list_elem_of_here.
Qed.

Lemma jdict_id l : NoDup l.*1 -> jdict l = l.
Proof. intros H. unfold jdict. by rewrite fold_dset_app. Qed.

Lemma fold_dset_NoDup {A} (l d : list (string * A)) :
  NoDup (dkeys d) -> NoDup (dkeys (fold_left (fun d kv => dset d kv.1 kv.2) l d)).
Proof. revert d. induction l as [|[k v] l IH]; intros d Hd; simpl; [done|]. apply IH. by apply dset_NoDup. Qed.

Lemma jdict_NoDup l : NoDup (jdict l).*1.
Proof. apply fold_dset_NoDup. constructor. Qed.

Lemma fold_dset_elem {A} (l d : list (string * A)) k v :
  (k, v) ∈ fold_left (fun d kv => dset d kv.1 kv.2) l d -> NoDup (dkeys d) -> (k, v) ∈ l \/ (k, v) ∈ d.
Proof.
  revert d. induction l as [|[k' v'] l IH]; intros d H Hd; simpl in *; [by right|]. apply IH in H as [H|H]; [| |by apply dset_NoDup].
  - left. by apply list_elem_of_further.
  - apply dset_elem in H as [[-> ->]|[_ H]]; [left; apply list_elem_of_here|by right|done].
Qed.

Lemma dget_perm {A} (d d' : list (string * A)) k : NoDup (dkeys d) -> Permutation d d' -> dget d k = dget d' k.
Proof.
  intros Hd Hp. assert (Hd' : NoDup (dkeys d')) by (unfold dkeys in *; by rewrite <-Hp).
  destruct (dget d k) as [v|] eqn:E.
  - symmetry. apply elem_dget; [done|]. rewrite <-Hp. by apply dget_Some_elem.
  - destruct (dget d' k) as [v|] eqn:E'; [|done]. apply dget_Some_elem in E'. rewrite <-Hp in E'. apply elem_dget in E'; [congruence|done].
Qed.

(** The pairs of [sort_keys] of an object. *)
Definition sorted_pairs (l : list (string * json)) : dict string json :=
  sort_by (fun a b => str_leb a.1 b.1) (fold_left (fun d kv => dset d kv.1 kv.2) (map (fun kv => (kv.1, sort_keys kv.2)) l) []).

Lemma sort_keys_object l : sort_keys (JObj l) = JObj (sorted_pairs l).
Proof. done. Qed.

Lemma sorted_pairs_NoDup l : NoDup (dkeys (sorted_pairs l)).
Proof. unfold sorted_pairs, dkeys. rewrite sort_by_perm. apply fold_dset_NoDup. constructor. Qed.

Lemma map_sorted_keys l : (map (fun kv : string * json => (kv.1, sort_keys kv.2)) l).*1 = l.*1.
Proof. induction l as [|kv l IH]; [done|]. exact (f_equal (cons kv.1) IH). Qed.

Lemma dget_map_sorted l k : dget (map (fun kv : string * json => (kv.1, sort_keys kv.2)) l) k = sort_keys <$> dget l k.
Proof. induction l as [|[k' v'] l IH]; simpl; [done|]. by case_decide. Qed.

Lemma dget_sorted_pairs l k : NoDup (dkeys l) -> dget (sorted_pairs l) k = sort_keys <$> dget l k.
Proof.
  intros Hl. rewrite <-dget_map_sorted. unfold sorted_pairs. rewrite fold_dset_app by (simpl; by rewrite map_sorted_keys). simpl.
  symmetry. apply dget_perm; [unfold dkeys; by rewrite map_sorted_keys|]. by rewrite sort_by_perm.
Qed.

Lemma plain_sort_keys v : plain v = true -> plain (sort_keys v) = true.
Proof.
  induction v as [| | | |l IH|l IH] using json_nested_ind; intros Hp; try done.
  - cbn [plain sort_keys] in *. rewrite forallb_forall in *. rewrite Forall_forall in IH. intros x Hx. apply in_map_iff in Hx as (u & <- & Hu).
    apply IH; [by apply list_elem_of_In|by apply Hp].
  - rewrite sort_keys_object. cbn [plain] in *. rewrite forallb_forall in *. rewrite Forall_forall in IH. intros [k x] Hx.
    apply list_elem_of_In in Hx. unfold sorted_pairs in Hx. rewrite elem_of_sort_by in Hx. apply fold_dset_elem in Hx as [Hx|Hx]; [| |constructor].
    + apply list_elem_of_In, in_map_iff in Hx as ([k' u] & [= -> <-] & Hu). simpl.
      by apply (IH (k, u)); [apply list_elem_of_In|apply (Hp (k, u))].
    + by apply elem_of_nil in Hx.
Qed.

Lemma sort_keys_idem v : sort_keys (sort_keys v) = sort_keys v.
Proof.
  induction v as [| | | |l IH|l IH] using json_nested_ind; try done.
  - cbn [sort_keys]. f_equal. rewrite map_map. apply map_ext_Forall. exact IH.
  - rewrite sort_keys_object, sort_keys_object. f_equal.
    assert (Hmap : map (fun kv => (kv.1, sort_keys kv.2)) (sorted_pairs l) = sorted_pairs l).
    { rewrite <-(map_id (sorted_pairs l)) at 2. apply map_ext_Forall, Forall_forall. intros [k x] Hx. simpl. f_equal.
      unfold sorted_pairs in Hx. rewrite elem_of_sort_by in Hx. apply fold_dset_elem in Hx as [Hx|Hx]; [| |constructor].
      - apply list_elem_of_In, in_map_iff in Hx as ([k' u] & [= -> <-] & Hu). rewrite Forall_forall in IH.
        apply (IH (k, u)). by apply list_elem_of_In.
      - by apply elem_of_nil in Hx. }
    unfold sorted_pairs at 1. rewrite Hmap, fold_dset_app by exact (sorted_pairs_NoDup l). simpl. apply sort_by_sorted_id.
    unfold sorted_pairs. apply sort_by_sorted; intros; [apply str_leb_total|by eapply str_leb_trans].
Qed.

Lemma sort_keys_str v s : sort_keys v = JStr s <-> v = JStr s.
Proof. destruct v; simpl; split; intros H; by simplify_eq. Qed.

Lemma dset_map {A B} (f : A -> B) (d : list (string * A)) k v :
  dset (map (fun kv => (kv.1, f kv.2)) d) k (f v) = map (fun kv => (kv.1, f kv.2)) (dset d k v).
Proof. induction d as [|[k' v'] d IH]; simpl; [done|]. case_decide; simpl; [done|]. by rewrite IH. Qed.

Lemma fold_dset_map {A B} (f : A -> B) (l d : list (string * A)) :
  fold_left (fun d kv => dset d kv.1 kv.2) (map (fun kv => (kv.1, f kv.2)) l) (map (fun kv => (kv.1, f kv.2)) d) =
  map (fun kv => (kv.1, f kv.2)) (fold_left (fun d kv => dset d kv.1 kv.2) l d).
Proof. revert d. induction l as [|[k v] l IH]; intros d; simpl; [done|]. by rewrite dset_map, IH. Qed.

Lemma sorted_pairs_jdict l : sorted_pairs (jdict l) = sorted_pairs l.
Proof.
  unfold sorted_pairs. f_equal. rewrite fold_dset_app by (simpl; rewrite map_sorted_keys; apply jdict_NoDup). simpl.
  symmetry. exact (fold_dset_map sort_keys l []).
Qed.
