(* ===== verification/BuildIdentity.v ===== *)
(** The identity of the build: [openpine/build_identity.py].

    The environment variables and the results of [git rev-parse HEAD] are
    inputs: a variable is its text, empty when it is not set; a command is its
    exit status and output, or nothing when it could not be run in time. *)

From Stdlib Require Import Ascii.
From S2P Require Import Prelude Json Admission.

(** [^[0-9a-f]{40}$], the whole text. *)
Definition is_sha40 (s : string) : bool := (String.length s =? 40)%nat && str_forall hex_lower s.

Record BuildIdentity := mkBuild { b_version : string; b_commit : string }.

(** [\d+\.\d+\.\d+] at the start of a text: what it matches, and the rest. *)
Definition version_core (s : string) : option (string * string) :=
  let '(a, r) := span_digits s in
  if negb (str_truthy a) then None else
  r1 ← strip_prefix "." r;
  let '(b, r) := span_digits r1 in
  if negb (str_truthy b) then None else
  r2 ← strip_prefix "." r;
  let '(c, r) := span_digits r2 in
  if negb (str_truthy c) then None else Some (a +:+ "." +:+ b +:+ "." +:+ c, r).

(** [(\d+\.\d+\.\d+)(tag)(\d+)], the whole text, for the given tags. *)
Fixpoint tagged (tags : list string) (r : string) : option (string * string) :=
  match tags with
  | [] => None
  | t :: ts => match strip_prefix t r with
               | Some n => if str_isdigit n then Some (t, n) else tagged ts r
               | None => tagged ts r
               end
  end.

Definition prerelease (tags : list string) (version : string) : string :=
  match version_core version with
  | Some (core, r) => match tagged tags r with
                      | Some (t, n) => core +:+ "-" +:+ t +:+ "." +:+ n
                      | None => version
                      end
  | None => version
  end.

(** [BuildIdentity.contract_version]. *)
Definition contract_version (b : BuildIdentity) : string := prerelease ["a"; "b"; "rc"] (b_version b).

(** A [git rev-parse HEAD] that ends in time: its status and its output. *)
Definition git_head : Type := option (Z * string).

Definition head_commit (h : git_head) : option string :=
  match h with
  | Some (status, out) => let commit := str_strip out in if (status =? 0)%Z && is_sha40 commit then Some commit else None
  | None => None
  end.

(** [current_build_identity]; the error is the message of [BuildIdentityError]. *)
Definition current_build_identity (version build_commit : string) (head : git_head) : result string BuildIdentity :=
  let configured := str_strip build_commit in
  if str_truthy configured then
    if is_sha40 configured then Ok (mkBuild version configured) else Err "OPENPINE_BUILD_COMMIT must be 40 lowercase hex"
  else
    match head_commit head with
    | Some commit => Ok (mkBuild version commit)
    | None => Err "exact OpenPine producer commit is unavailable"
    end.

Definition compiler_components : list string := ["pine2ast"; "ast2python"; "pinelib"; "openpine-contracts"].

Definition configured_commit (payload : dict string json) (component : string) : option (string * string) :=
  match dget payload component with
  | Some (JStr v) => if is_sha40 v then Some (component, v) else None
  | _ => None
  end.

Definition resolve_commit (heads : string -> git_head) (component : string) : result string (string * string) :=
  match head_commit (heads component) with
  | Some commit => Ok (component, commit)
  | None => Err ("exact compiler producer commit is unavailable: " +:+ component)
  end.

(** [compiler_producer_commits]: [heads] is the checkout of each component in
    the home directory. *)
Definition compiler_producer_commits (commits_json : string) (heads : string -> git_head) : result string (dict string string) :=
  let configured := str_strip commits_json in
  if str_truthy configured then
    match loads configured with
    | Err _ => Err "OPENPINE_PRODUCER_COMMITS_JSON is invalid JSON"
    | Ok (JObj l) =>
        let payload := jdict l in
        if bool_decide (list_to_set (dkeys payload) = (list_to_set compiler_components : gset string)) then
          match mapM (configured_commit payload) compiler_components with
          | Some commits => Ok commits
          | None => Err "OPENPINE_PRODUCER_COMMITS_JSON values must be exact Git SHAs"
          end
        else Err "OPENPINE_PRODUCER_COMMITS_JSON has an invalid component set"
    | Ok _ => Err "OPENPINE_PRODUCER_COMMITS_JSON has an invalid component set"
    end
  else result_map (resolve_commit heads) compiler_components.

(** ** Exact commits, or none *)

Lemma head_commit_ok h c : head_commit h = Some c -> is_sha40 c = true.
Proof. unfold head_commit. destruct h as [[st out]|]; [|done]. destruct (_ && _) eqn:E; [|done]. intros [= <-]. by apply andb_prop in E as [_ ?]. Qed.

Lemma current_build_sha version env head b :
  current_build_identity version env head = Ok b -> is_sha40 (b_commit b) = true /\ b_version b = version.
Proof.
  unfold current_build_identity. destruct (str_truthy _).
  - destruct (is_sha40 (str_strip env)) eqn:E; [|done]. by intros [= <-].
  - destruct (head_commit head) eqn:E; [|done]. intros [= <-]. by apply head_commit_ok in E.
Qed.

Lemma configured_commit_ok payload c kv : configured_commit payload c = Some kv -> kv.1 = c /\ is_sha40 kv.2 = true.
Proof. unfold configured_commit. intros H. repeat case_match; simplify_eq. done. Qed.

Lemma resolve_commit_ok heads c kv : resolve_commit heads c = Ok kv -> kv.1 = c /\ is_sha40 kv.2 = true.
Proof. unfold resolve_commit. destruct (head_commit _) eqn:E; [|done]. intros [= <-]. by apply head_commit_ok in E. Qed.

Lemma named_commits (comps : list string) (l : list (string * string)) :
  Forall2 (fun c kv => kv.1 = c /\ is_sha40 kv.2 = true) comps l -> dkeys l = comps /\ Forall (fun kv => is_sha40 kv.2 = true) l.
Proof. unfold dkeys. induction 1 as [|c kv cs l [<- Hs] _ [IH1 IH2]]; simpl; [done|]. split; [by f_equal|by constructor]. Qed.

(** The producers an artifact is sealed with are the four compiler components,
    in this order, each with an exact commit; otherwise there is an error. *)
Theorem compiler_commits_exact env heads d :
  compiler_producer_commits env heads = Ok d ->
  dkeys d = compiler_components /\ Forall (fun kv => is_sha40 kv.2 = true) d.
Proof.
  unfold compiler_producer_commits. intros H. apply named_commits. destruct (str_truthy _).
  - destruct (loads _) as [[| | | | |l]|]; try done. case_bool_decide; [|done].
    destruct (mapM _ _) eqn:E; [|done]. simplify_eq. apply mapM_Some in E.
    eapply Forall2_impl; [exact E|]. intros ? ? He. exact (configured_commit_ok _ _ _ He).
  - apply result_map_ok in H. eapply Forall2_impl; [exact H|]. intros ? ? He. exact (resolve_commit_ok _ _ _ He).
Qed.

Definition sha_a : string := "aaaaaaaaaabbbbbbbbbbccccccccccdddddddddd".

Lemma compiler_commits_exact_witness :
  exists d, compiler_producer_commits "" (fun _ => Some (0, sha_a +:+ String "010" EmptyString)) = Ok d /\ dkeys d = compiler_components.
Proof.
  eexists. split; [vm_compute; reflexivity|].
  apply (compiler_commits_exact "" (fun _ => Some (0, sha_a +:+ String "010" EmptyString))). vm_compute. reflexivity.
Defined.

(** Versions with a prerelease tag are rewritten for the contracts; others are
    kept as they are. *)
Example contract_versions :
  map (fun v => contract_version (mkBuild v sha_a)) ["5.0.0rc5"; "5.0.0b1"; "5.0.0"; "5.0.0rc"; "5.0rc1"] =
  ["5.0.0-rc.5"; "5.0.0-b.1"; "5.0.0"; "5.0.0rc"; "5.0rc1"].
Proof. reflexivity. Qed.
