(* ===== verification/RunIdentity.v ===== *)
(** The identity of an admitted run: [openpine/run_identity.py].

    Three parts: the hash of the data a run executes on, the durable file that
    publishes a run's identity once, and the admission that precedes it.  The
    contracts' hashing, sealing and validation are parameters.  The fields of a
    bar are a dictionary, whether the bar is a mapping or an object. *)

From Stdlib Require Import Ascii SpecFloat.
From S2P Require Import Prelude PyFloat Json Admission.

(** ** The hash of the execution data *)

(** A field's value: numbers as Python's types tell them apart, a [Decimal] by
    its text and whether it is finite. *)
Inductive num :=
| NumNone
| NumBool (b : bool)
| NumInt (z : Z)
| NumFloat (x : float)
| NumDecimal (finite : bool) (text : string)
| NumStr (s : string)
| NumOther.

#[export] Instance num_eq_dec : EqDecision num.
Proof. solve_decision. Defined.

Definition bar_row : Type := dict string num.

Definition data_invalid {A} (message : string) : result AdmitError A := Err (mkAdmitError message "DATA_SNAPSHOT_INVALID").

(** [_field]. *)
Definition field (b : bar_row) (name : string) : result AdmitError num :=
  match dget b name with Some v => Ok v | None => data_invalid ("data snapshot bar is missing " +:+ name) end.

(** [_integer]. *)
Definition integer (v : num) (name : string) : result AdmitError Z :=
  match v with NumInt z => Ok z | _ => data_invalid ("data snapshot " +:+ name +:+ " must be an integer") end.

(** [value.hex()] of a finite float: sign, leading bit, thirteen hexadecimal
    digits and the power of two. *)
Definition hex_char (n : Z) : ascii := hex_digit (Z.to_nat n).

Fixpoint hex_digits (k : nat) (n : Z) : string :=
  match k with O => EmptyString | S k' => hex_digits k' (n / 16) +:+ String (hex_char (n mod 16)) EmptyString end.

Definition hex_exponent (e : Z) : string := "p" +:+ (if e <? 0 then pretty e else "+" +:+ pretty e).

Definition float_hex (x : float) : string :=
  match x with
  | S754_zero s => (if s then "-" else "") +:+ "0x0.0p+0"
  | S754_finite s m e =>
      (if s then "-" else "") +:+
      (if 2 ^ 52 <=? Z.pos m then "0x1." +:+ hex_digits 13 (Z.pos m - 2 ^ 52) +:+ hex_exponent (e + 52)
       else "0x0." +:+ hex_digits 13 (Z.pos m) +:+ hex_exponent (-1022))
  | S754_infinity s => if s then "-inf" else "inf"
  | S754_nan => "nan"
  end.

Definition is_finite (x : float) : bool := match x with S754_zero _ | S754_finite _ _ _ => true | _ => false end.

Definition token (kind text : string) : json := JObj [("type", JStr kind); ("value", JStr text)].

(** [_number_token]. *)
Definition number_token (v : num) (name : string) (optional : bool) : result AdmitError json :=
  let numeric := data_invalid ("data snapshot " +:+ name +:+ " must be numeric") in
  let finite := data_invalid ("data snapshot " +:+ name +:+ " must be finite") in
  match v with
  | NumNone => if optional then Ok JNull else numeric
  | NumBool _ => numeric
  | NumInt z => Ok (token "integer" (pretty z))
  | NumFloat x => if is_finite x then Ok (token "float64" (float_hex x)) else finite
  | NumDecimal ok text => if ok then Ok (token "decimal" text) else finite
  | NumStr s => if str_truthy s then Ok (token "decimal-string" s) else numeric
  | NumOther => numeric
  end.

Definition num_field (b : bar_row) (label name : string) (optional : bool) : result AdmitError (string * json) :=
  let! v := field b name in let! t := number_token v (label +:+ "." +:+ name) optional in Ok (name, t).

Definition num_int (z : Z) : json := JNum (pretty z).

(** The series a supplemental bar belongs to. *)
Definition series_fields (b : bar_row) (label : string) : result AdmitError (list (string * json)) :=
  let! s := field b "symbol" in
  let! t := field b "timeframe" in
  match s, t with
  | NumStr s, NumStr t =>
      if str_truthy s && str_truthy t then Ok [("symbol", JStr s); ("timeframe", JStr t)]
      else data_invalid ("data snapshot " +:+ label +:+ " series identity is incomplete")
  | _, _ => data_invalid ("data snapshot " +:+ label +:+ " series identity is incomplete")
  end.

(** [normalize_bar]. *)
Definition normalize_bar (kind : string) (series : bool) (ib : nat * bar_row) : result AdmitError json :=
  let b := ib.2 in
  let label := kind +:+ "[" +:+ pretty (Z.of_nat ib.1) +:+ "]" in
  let! t := field b "time" in
  let! open_time := integer t (label +:+ ".time") in
  let! t := field b "time_close" in
  let! close_time := integer t (label +:+ ".time_close") in
  if close_time <? open_time then data_invalid ("data snapshot " +:+ label +:+ " closes before it opens")
  else
    let! o := num_field b label "open" false in
    let! h := num_field b label "high" false in
    let! l := num_field b label "low" false in
    let! c := num_field b label "close" false in
    let! v := num_field b label "volume" true in
    let! s := if series then series_fields b label else Ok [] in
    Ok (JObj ([("time", num_int open_time); ("time_close", num_int close_time); o; h; l; c; v] ++ s)).

Record SnapshotQuery := mkSnapshotQuery {
  sq_exchange : string; sq_market : string; sq_symbol : string; sq_timeframe : string;
  sq_start : Z; sq_end : Z; sq_finality : string
}.

#[export] Instance SnapshotQuery_eq_dec : EqDecision SnapshotQuery.
Proof. solve_decision. Defined.

Definition enumerate {A} (l : list A) : list (nat * A) := zip (seq 0 (length l)) l.

(** What [execution_data_snapshot_hash] hashes. *)
Definition snapshot_payload (q : SnapshotQuery) (bars supplemental : list bar_row) : result AdmitError json :=
  if negb (forallb str_truthy [sq_exchange q; sq_market q; sq_symbol q; sq_timeframe q; sq_finality q])
  then data_invalid "data snapshot query identity is incomplete"
  else if sq_end q <? sq_start q then data_invalid "data snapshot range is invalid"
  else
    let! normalized := result_map (normalize_bar "bars" false) (enumerate bars) in
    if bool_decide (length normalized = 0%nat) then data_invalid "data snapshot bars are required"
    else
      let! extra := result_map (normalize_bar "supplemental_bars" true) (enumerate supplemental) in
      Ok (JObj [("query", JObj [("exchange", JStr (sq_exchange q)); ("market", JStr (sq_market q));
                  ("symbol", JStr (sq_symbol q)); ("timeframe", JStr (sq_timeframe q));
                  ("finality_policy", JStr (sq_finality q)); ("start_ms", num_int (sq_start q)); ("end_ms", num_int (sq_end q))]);
                ("bars", JArr normalized); ("supplemental_bars", JArr extra)]).

Section DataHash.
Variable content_hash : json -> string -> string.

Definition execution_data_snapshot_hash (q : SnapshotQuery) (bars supplemental : list bar_row) : result AdmitError string :=
  let! p := snapshot_payload q bars supplemental in Ok (content_hash p "openpine.data.snapshot.v1").

(** *** Every bit counts *)

Lemma sapp_inj (a b x y : string) : String.length a = String.length b -> a +:+ x = b +:+ y -> a = b /\ x = y.
Proof.
  revert b. induction a as [|c a IH]; intros [|d b]; simpl; intros Hl H; try done.
  injection H as -> H. destruct (IH b) as [-> ->]; [lia|done|done].
Qed.

Lemma pretty_inj (a b : Z) : pretty a = pretty b -> a = b.
Proof. intros H. pose proof (proj2 (literal_pretty a)) as Ha. rewrite H, (proj2 (literal_pretty b)) in Ha. by injection Ha. Qed.

Lemma hex_char_inj a b : 0 <= a < 16 -> 0 <= b < 16 -> hex_char a = hex_char b -> a = b.
Proof.
  intros Ha Hb H. assert (Hv : forall n, 0 <= n < 16 -> hex_value (hex_char n) = Some (Z.to_nat n)).
  { intros n Hn. unfold hex_char. assert (Hk : (Z.to_nat n < 16)%nat) by lia. revert Hk. generalize (Z.to_nat n) as k. intros k Hk.
    do 16 (destruct k as [|k]; [done|]). lia. }
  pose proof (Hv a Ha) as E. rewrite H, Hv in E by done. injection E. lia.
Qed.

Lemma hex_digits_len k n : String.length (hex_digits k n) = k.
Proof. revert n. induction k as [|k IH]; intros n; simpl; [done|]. rewrite sapp_len, IH. simpl. lia. Qed.

Lemma hex_digits_inj k a b : 0 <= a < 16 ^ Z.of_nat k -> 0 <= b < 16 ^ Z.of_nat k -> hex_digits k a = hex_digits k b -> a = b.
Proof.
  revert a b. induction k as [|k IH]; intros a b Ha Hb H; [simpl in *; lia|]. cbn [hex_digits] in H.
  rewrite Nat2Z.inj_succ, Z.pow_succ_r in Ha, Hb by lia.
  apply sapp_inj in H as [H1 H2]; [|by rewrite !hex_digits_len]. injection H2 as H2.
  pose proof (Z.mod_pos_bound a 16 ltac:(lia)). pose proof (Z.mod_pos_bound b 16 ltac:(lia)).
  apply hex_char_inj in H2; [|lia..]. apply IH in H1; [|split; [apply Z.div_pos; lia|apply Z.div_lt_upper_bound; lia]..].
  rewrite (Z.div_mod a 16), (Z.div_mod b 16) by lia. by rewrite H1, H2.
Qed.

Lemma hex_exponent_inj a b : hex_exponent a = hex_exponent b -> a = b.
Proof.
  unfold hex_exponent. intros H. assert (Hn : forall z y, z < 0 -> pretty z <> "+" +:+ y) by (by intros [| |p] y Hz; [lia|lia|]).
  destruct (a <? 0) eqn:Ea, (b <? 0) eqn:Eb; bool_to_prop; injection H as H.
  - by apply pretty_inj.
  - by apply Hn in H.
  - symmetry in H. by apply Hn in H.
  - by apply pretty_inj.
Qed.

Lemma digits2_bound p : 2 ^ (Z.pos (digits2_pos p) - 1) <= Z.pos p < 2 ^ Z.pos (digits2_pos p).
Proof.
  induction p as [p IH|p IH|]; simpl digits2_pos; [| |simpl; lia];
    rewrite Pos2Z.inj_succ; replace (Z.succ (Z.pos (digits2_pos p)) - 1) with (Z.succ (Z.pos (digits2_pos p) - 1)) by lia;
    rewrite !Z.pow_succ_r by lia; lia.
Qed.

(** A binary64 number is normal, with a 53-bit mantissa, or has the least exponent. *)
Lemma valid_binary64 s m e :
  valid_binary 53 1024 (S754_finite s m e) = true -> Z.pos m < 2 ^ 53 /\ (Z.pos m < 2 ^ 52 -> e = -1074).
Proof.
  simpl. unfold bounded. rewrite andb_true_iff. intros [H _]. unfold canonical_mantissa, SpecFloat.fexp, emin in H.
  apply Z.eqb_eq in H. pose proof (digits2_bound m) as Hd. set (d := Z.pos (digits2_pos m)) in *.
  assert (Hd53 : d <= 53) by lia. split.
  - assert (2 ^ d <= 2 ^ 53) by (apply Z.pow_le_mono_r; lia). lia.
  - intros Hm. assert (Hlt : d - 1 < 52). { apply (Z.pow_lt_mono_r_iff 2); lia. } lia.
Qed.

Lemma signed_inj (s s' : bool) (p a b : string) c t :
  p = String c t -> Ascii.eqb c "-" = false ->
  (if s then "-" else "") +:+ p +:+ a = (if s' then "-" else "") +:+ p +:+ b -> s = s' /\ a = b.
Proof.
  intros -> Hc H. assert (Hne : c <> "-"%char) by (by apply Ascii.eqb_neq).
  destruct s, s'; [|injection H as E _; congruence|injection H as E _; congruence|];
    (split; [done|]); do 2 apply (inj (String.append _)) in H; exact H.
Qed.

#[local] Arguments hex_digits : simpl never.
#[local] Arguments hex_exponent : simpl never.

Lemma float_hex_inj x y :
  is_finite x = true -> is_finite y = true -> valid_binary 53 1024 x = true -> valid_binary 53 1024 y = true ->
  float_hex x = float_hex y -> x = y.
Proof.
  assert (Hz : forall k n t, "0p+0" <> hex_digits 13 n +:+ hex_exponent k +:+ t).
  { intros k n t H. apply (f_equal String.length) in H. rewrite !sapp_len, hex_digits_len in H. simpl in H. lia. }
  destruct x as [s| | |s m e], y as [s'| | |s' m' e']; intros Hx Hy Vx Vy; try done; unfold float_hex.
  - destruct s, s'; intros H; by (done || discriminate H).
  - intros H. exfalso. destruct s, s', (2 ^ 52 <=? Z.pos m'); simpl in H; injection H as H; try discriminate H;
      by apply (Hz (-1022) (Z.pos m') ""); rewrite H.
  - intros H. exfalso. destruct s, s', (2 ^ 52 <=? Z.pos m); simpl in H; injection H as H; try discriminate H;
      by apply (Hz (-1022) (Z.pos m) ""); rewrite <-H.
  - destruct (valid_binary64 _ _ _ Vx) as [Bx Ex], (valid_binary64 _ _ _ Vy) as [By Ey].
    destruct (2 ^ 52 <=? Z.pos m) eqn:Em, (2 ^ 52 <=? Z.pos m') eqn:Em'; bool_to_prop; intros H.
    + assert (H' : s = s' /\ hex_digits 13 (Z.pos m - 2 ^ 52) +:+ hex_exponent (e + 52) =
        hex_digits 13 (Z.pos m' - 2 ^ 52) +:+ hex_exponent (e' + 52)) by (by eapply signed_inj; [reflexivity| |exact H]).
      destruct H' as [-> H']. apply sapp_inj in H' as [H1 H2]; [|by rewrite !hex_digits_len].
      apply hex_digits_inj in H1; [|simpl; lia..]. apply hex_exponent_inj in H2. assert (m = m') by lia. assert (e = e') by lia. by subst.
    + exfalso. destruct s, s'; discriminate H.
    + exfalso. destruct s, s'; discriminate H.
    + rewrite (Ex Em), (Ey Em') in *.
      assert (H' : s = s' /\ hex_digits 13 (Z.pos m) +:+ hex_exponent (-1022) = hex_digits 13 (Z.pos m') +:+ hex_exponent (-1022))
        by (by eapply signed_inj; [reflexivity| |exact H]).
      destruct H' as [-> H']. apply sapp_inj in H' as [H1 _]; [|by rewrite !hex_digits_len].
      apply hex_digits_inj in H1; [|simpl; lia..]. by simplify_eq.
Qed.

(** A float of the interpreter is a binary64 number. *)
Definition python_value (v : num) : Prop :=
  match v with NumFloat x => valid_binary 53 1024 x = true | _ => True end.

Lemma number_token_inj v v' n n' opt opt' j :
  python_value v -> python_value v' -> number_token v n opt = Ok j -> number_token v' n' opt' = Ok j -> v = v'.
Proof.
  intros Hv Hv' H H'. unfold number_token in *.
  destruct v as [|b|z|x|[] t|s|], v' as [|b'|z'|x'|[] t'|s'|]; simplify_eq;
    repeat match goal with
    | H : (if ?b then _ else _) = Ok _ |- _ => destruct b eqn:?; [|discriminate H]
    end; unfold token in *; simplify_eq; try done.
  f_equal. by apply float_hex_inj.
Qed.

Definition bar_fields (series : bool) : list string :=
  ["time"; "time_close"; "open"; "high"; "low"; "close"; "volume"] ++ if series then ["symbol"; "timeframe"] else [].

(** The bars agree in every field a run can see. *)
Definition same_bar (series : bool) (b b' : bar_row) : Prop := Forall (fun name => dget b name = dget b' name) (bar_fields series).

#[export] Instance same_bar_dec series b b' : Decision (same_bar series b b').
Proof. unfold same_bar. apply _. Defined.

Definition python_bar (b : bar_row) : Prop := forall name v, dget b name = Some v -> python_value v.

Lemma field_ok b name v : field b name = Ok v -> dget b name = Some v.
Proof. unfold field. by destruct (dget b name); intros; simplify_eq. Qed.

Lemma num_field_inj b b' l l' name opt r :
  python_bar b -> python_bar b' -> num_field b l name opt = Ok r -> num_field b' l' name opt = Ok r ->
  dget b name = dget b' name.
Proof.
  unfold num_field. intros Hb Hb' H H'. apply result_bind_ok in H as (v & Hv%field_ok & H). apply result_bind_ok in H as (t & Ht & H).
  apply result_bind_ok in H' as (v' & Hv'%field_ok & H'). apply result_bind_ok in H' as (t' & Ht' & H'). simplify_eq.
  rewrite Hv, Hv'. f_equal. by eapply number_token_inj; eauto.
Qed.

Lemma integer_ok v name z : integer v name = Ok z -> v = NumInt z.
Proof. unfold integer. by destruct v; intros; simplify_eq. Qed.

Lemma series_fields_ok b l r :
  series_fields b l = Ok r -> exists s t, dget b "symbol" = Some (NumStr s) /\ dget b "timeframe" = Some (NumStr t) /\
    r = [("symbol", JStr s); ("timeframe", JStr t)].
Proof.
  unfold series_fields. intros H. apply result_bind_ok in H as (v & Hv%field_ok & H). apply result_bind_ok in H as (w & Hw%field_ok & H).
  destruct v, w; try done. destruct (_ && _); [|done]. simplify_eq. eauto.
Qed.

(** What a normalized bar says of the bar it came from. *)
Lemma normalize_bar_ok kind series i b j :
  normalize_bar kind series (i, b) = Ok j ->
  exists t tc o h l c v s, j = JObj ([("time", num_int t); ("time_close", num_int tc); o; h; l; c; v] ++ s) /\
    dget b "time" = Some (NumInt t) /\ dget b "time_close" = Some (NumInt tc) /\
    Forall2 (fun name r => exists lbl, num_field b lbl name (bool_decide (name = "volume")) = Ok r)
      ["open"; "high"; "low"; "close"; "volume"] [o; h; l; c; v] /\
    if series then exists lbl, series_fields b lbl = Ok s else s = [].
Proof.
  unfold normalize_bar. cbn [fst snd]. set (label := _ +:+ _). intros H.
  apply result_bind_ok in H as (x & Hx%field_ok & H). apply result_bind_ok in H as (t & ->%integer_ok & H).
  apply result_bind_ok in H as (x & Hx'%field_ok & H). apply result_bind_ok in H as (tc & ->%integer_ok & H).
  destruct (tc <? t); [done|].
  apply result_bind_ok in H as (o & Ho & H). apply result_bind_ok in H as (h & Hh & H). apply result_bind_ok in H as (l & Hl & H).
  apply result_bind_ok in H as (c & Hc & H). apply result_bind_ok in H as (v & Hv & H). apply result_bind_ok in H as (s & Hs & H).
  simplify_eq. exists t, tc, o, h, l, c, v, s. split_and!; [done..| |].
  - repeat constructor; simpl; eauto.
  - destruct series; [eauto|by simplify_eq].
Qed.

Lemma num_int_inj a b : num_int a = num_int b -> a = b.
Proof. intros [= H]. by apply pretty_inj. Qed.

Lemma normalize_bar_inj kind kind' series i i' b b' j :
  python_bar b -> python_bar b' -> normalize_bar kind series (i, b) = Ok j -> normalize_bar kind' series (i', b') = Ok j ->
  same_bar series b b'.
Proof.
  intros Hb Hb' H H'. apply normalize_bar_ok in H as (t & tc & o & h & l & c & v & s & -> & Ht & Htc & Hf & Hs).
  apply normalize_bar_ok in H' as (t' & tc' & o' & h' & l' & c' & v' & s' & E & Ht' & Htc' & Hf' & Hs').
  injection E as E1 E2 <- <- <- <- <- <-. apply pretty_inj in E1, E2. subst. unfold same_bar, bar_fields. apply Forall_app. split.
  - repeat (apply Forall_cons; split); [congruence..| | | | | |constructor];
      repeat match goal with H : Forall2 _ (_ :: _) _ |- _ => inversion H as [|? ? ? ? [? ?] ?]; clear H; subst end;
      by eapply num_field_inj.
  - destruct series; [|constructor]. destruct Hs as [lbl Hs], Hs' as [lbl' Hs'].
    apply series_fields_ok in Hs as (x & y & Hx & Hy & ->). apply series_fields_ok in Hs' as (x' & y' & Hx' & Hy' & E).
    simplify_eq. repeat constructor; congruence.
Qed.

Lemma numbered_inj kind kind' series n n' l l' js :
  Forall python_bar l -> Forall python_bar l' ->
  result_map (normalize_bar kind series) (zip (seq n (length l)) l) = Ok js ->
  result_map (normalize_bar kind' series) (zip (seq n' (length l')) l') = Ok js -> Forall2 (same_bar series) l l'.
Proof.
  intros Hl. revert n n' l' js.
  induction Hl as [|b l Hb Hl IH]; intros n n' l' js Hl' H H'.
  - simpl in H. simplify_eq. destruct l' as [|b' l']; [constructor|]. simpl in H'.
    apply result_bind_ok in H' as (? & _ & H'). by apply result_bind_ok in H' as (? & _ & H').
  - simpl in H. apply result_bind_ok in H as (j & Hj & H). apply result_bind_ok in H as (js' & Hjs & H). simplify_eq.
    destruct Hl' as [|b' l' Hb' Hl']; simpl in H'; [done|].
    apply result_bind_ok in H' as (j' & Hj' & H'). apply result_bind_ok in H' as (js'' & Hjs' & H'). simplify_eq.
    constructor; [by eapply normalize_bar_inj|by eapply IH].
Qed.

Lemma snapshot_payload_inj q q' bars bars' extra extra' p :
  Forall python_bar bars -> Forall python_bar bars' -> Forall python_bar extra -> Forall python_bar extra' ->
  snapshot_payload q bars extra = Ok p -> snapshot_payload q' bars' extra' = Ok p ->
  q = q' /\ Forall2 (same_bar false) bars bars' /\ Forall2 (same_bar true) extra extra'.
Proof.
  assert (Hshape : forall q bars extra p, snapshot_payload q bars extra = Ok p -> exists nb ne,
    result_map (normalize_bar "bars" false) (enumerate bars) = Ok nb /\
    result_map (normalize_bar "supplemental_bars" true) (enumerate extra) = Ok ne /\
    p = JObj [("query", JObj [("exchange", JStr (sq_exchange q)); ("market", JStr (sq_market q));
                  ("symbol", JStr (sq_symbol q)); ("timeframe", JStr (sq_timeframe q));
                  ("finality_policy", JStr (sq_finality q)); ("start_ms", num_int (sq_start q)); ("end_ms", num_int (sq_end q))]);
                ("bars", JArr nb); ("supplemental_bars", JArr ne)]).
  { clear. intros q bars extra p. unfold snapshot_payload. destruct (negb _); [done|]. destruct (_ <? _); [done|]. intros H.
    apply result_bind_ok in H as (nb & Hb & H). destruct (bool_decide _); [done|].
    apply result_bind_ok in H as (ne & He & H). simplify_eq. eauto 10. }
  intros Hb Hb' He He' H H'. apply Hshape in H as (nb & ne & Hnb & Hne & ->). apply Hshape in H' as (nb' & ne' & Hnb' & Hne' & E).
  injection E as E1 E2 E3 E4 E5 E6 E7 <- <-. apply pretty_inj in E6, E7. split; [destruct q, q'; simpl in *; congruence|].
  split; by eapply numbered_inj.
Qed.

(** The data hash binds every bit a run can see: two data sets with one hash
    have the same query, the same range and, bar by bar, the same times and the
    same numbers - as integers, decimals or floats, to the last bit - or else
    they are a collision of the contracts' hash. *)
Theorem snapshot_hash_binds q q' bars bars' extra extra' h :
  Forall python_bar bars -> Forall python_bar bars' -> Forall python_bar extra -> Forall python_bar extra' ->
  execution_data_snapshot_hash q bars extra = Ok h -> execution_data_snapshot_hash q' bars' extra' = Ok h ->
  (q = q' /\ Forall2 (same_bar false) bars bars' /\ Forall2 (same_bar true) extra extra') \/
  exists p p', p <> p' /\ content_hash p "openpine.data.snapshot.v1" = content_hash p' "openpine.data.snapshot.v1".
Proof.
  unfold execution_data_snapshot_hash. intros Hb Hb' He He' H H'.
  apply result_bind_ok in H as (p & Hp & H). apply result_bind_ok in H' as (p' & Hp' & H'). simplify_eq.
  destruct (decide (q = q' /\ Forall2 (same_bar false) bars bars' /\ Forall2 (same_bar true) extra extra')) as [Hs|Hn]; [by left|].
  right. exists p, p'. split; [|done]. intros ->. apply Hn. by eapply snapshot_payload_inj.
Qed.

End DataHash.

(** ** Equality of JSON values *)

Fixpoint json_eqb (a b : json) : bool :=
  match a, b with
  | JNull, JNull => true
  | JBool x, JBool y => Bool.eqb x y
  | JNum x, JNum y => String.eqb x y
  | JStr x, JStr y => String.eqb x y
  | JArr l, JArr l' => (fix go l l' := match l, l' with
                                      | [], [] => true
                                      | x :: l, y :: l' => json_eqb x y && go l l'
                                      | _, _ => false
                                      end) l l'
  | JObj l, JObj l' => (fix go l l' := match l, l' with
                                      | [], [] => true
                                      | x :: l, y :: l' => String.eqb x.1 y.1 && json_eqb x.2 y.2 && go l l'
                                      | _, _ => false
                                      end) l l'
  | _, _ => false
  end.

Lemma json_eqb_eq a b : json_eqb a b = true <-> a = b.
Proof.
  revert b. induction a as [|x|x|x|l IH|l IH] using json_nested_ind; intros b; destruct b as [|y|y|y|l'|l']; simpl;
    try (split; [done|by intros [=]]).
  - destruct x, y; simpl; split; by (done || intros [=]).
  - rewrite String.eqb_eq. split; [by intros ->|by intros [=]].
  - rewrite String.eqb_eq. split; [by intros ->|by intros [=]].
  - assert (E : forall l', (fix go l l' := match l, l' with
                                      | [], [] => true
                                      | x :: l, y :: l' => json_eqb x y && go l l'
                                      | _, _ => false
                                      end) l l' = true <-> l = l'); [|rewrite E; split; [by intros ->|by intros [=]]].
    clear l'. induction IH as [|x l Hx _ IHl]; intros [|y l']; try (split; [done|by intros [=]]).
    rewrite andb_true_iff, Hx, IHl. split; [by intros [-> ->]|by intros [=]].
  - assert (E : forall l', (fix go l l' := match l, l' with
                                      | [], [] => true
                                      | x :: l, y :: l' => String.eqb x.1 y.1 && json_eqb x.2 y.2 && go l l'
                                      | _, _ => false
                                      end) l l' = true <-> l = l'); [|rewrite E; split; [by intros ->|by intros [=]]].
    clear l'. induction IH as [|[k x] l Hx _ IHl]; intros [|[k' y] l']; try (split; [done|by intros [=]]).
    simpl in *. rewrite !andb_true_iff, String.eqb_eq, Hx, IHl. split; [by intros [[-> ->] ->]|by intros [=]].
Qed.

(** [a == b] on dictionaries: the order of the keys does not matter. *)
Definition same_dict (a b : json) : bool := json_eqb (sort_keys a) (sort_keys b).

Lemma same_dict_eq a b : same_dict a b = true <-> sort_keys a = sort_keys b.
Proof. apply json_eqb_eq. Qed.

(** ** Publishing the identity *)

(** The pattern [_RUN_ID]. *)
Definition alnum (c : ascii) : bool :=
  let n := nat_of_ascii c in
  ((48 <=? n)%nat && (n <=? 57)%nat) || ((65 <=? n)%nat && (n <=? 90)%nat) || ((97 <=? n)%nat && (n <=? 122)%nat).

Definition valid_run_id (s : string) : bool :=
  match s with
  | String c s' => alnum c && (String.length s' <=? 127)%nat &&
      str_forall (fun c => alnum c || Ascii.eqb c "." || Ascii.eqb c "_" || Ascii.eqb c "-") s'
  | EmptyString => false
  end.

(** A name of the directory: a regular file with the JSON value in it, or with
    text that is not JSON (one still being written, for instance), or something
    that is not a regular file. *)
Inductive dir_entry := FileJson (v : json) | FileText | NotRegular.

Inductive dir_state := DirMissing | DirReal | DirSymlink | DirOther.

Inductive outcome := Published | Failed (message code : string) | OsFailed (name : string).

Definition identity_invalid (message : string) : outcome := Failed message "RUN_IDENTITY_INVALID".
Definition identity_conflict (message : string) : outcome := Failed message "RUN_IDENTITY_CONFLICT".

(** Where a call of [persist_run_identity] stands: before the directory is
    opened, before the first [read_existing], before the temporary file is
    created, before it is written, before the link, before the second
    [read_existing], before the unlink, and after. *)
Inductive pc := AtOpen | AtRead | AtCreate | AtWrite | AtLink | AtRecheck | AtUnlink (o : outcome) | AtEnd (o : outcome).

Record Publisher := mkPublisher { p_run : string; p_payload : json; p_uuid : string; p_pc : pc }.

Record Store := mkStore { dir : dir_state; files : gmap string dir_entry }.

Definition final_name (run : string) : string := run +:+ ".json".
Definition temp_name (run uuid : string) : string := "." +:+ run +:+ "." +:+ uuid +:+ ".tmp".
Definition p_final (p : Publisher) : string := final_name (p_run p).
Definition p_temp (p : Publisher) : string := temp_name (p_run p) (p_uuid p).

Definition at_pc (c : pc) (p : Publisher) : Publisher := mkPublisher (p_run p) (p_payload p) (p_uuid p) c.

(** [read_existing], then [require_existing_match] if there is a file. *)
Definition read_existing (s : Store) (p : Publisher) : option outcome :=
  match files s !! p_final p with
  | None => None
  | Some NotRegular => Some (identity_invalid "run identity target must be a regular file")
  | Some FileText => Some (identity_conflict "persisted run identity is corrupt")
  | Some (FileJson v) =>
      Some (if same_dict v (p_payload p) then Published else identity_conflict "conflicting persisted run identity")
  end.

(** One step of a call, up to its next system call.  The text written is the
    payload's, with its keys sorted; it reads back as the same dictionary. *)
Definition pstep (s : Store) (p : Publisher) : Store * Publisher :=
  match p_pc p with
  | AtOpen =>
      if negb (valid_run_id (p_run p)) then (s, at_pc (AtEnd (identity_invalid "run_id is invalid")) p)
      else match dir s with
           | DirMissing => (mkStore DirReal (files s), at_pc AtRead p)
           | DirReal => (s, at_pc AtRead p)
           | DirSymlink => (s, at_pc (AtEnd (identity_invalid "run identity directory symlink is forbidden")) p)
           | DirOther => (s, at_pc (AtEnd (identity_invalid "run identity directory is invalid")) p)
           end
  | AtRead =>
      match read_existing s p with Some o => (s, at_pc (AtEnd o) p) | None => (s, at_pc AtCreate p) end
  | AtCreate =>
      match files s !! p_temp p with
      | Some _ => (s, at_pc (AtUnlink (OsFailed "FileExistsError")) p)
      | None => (mkStore (dir s) (<[p_temp p := FileText]> (files s)), at_pc AtWrite p)
      end
  | AtWrite => (mkStore (dir s) (<[p_temp p := FileJson (p_payload p)]> (files s)), at_pc AtLink p)
  | AtLink =>
      match files s !! p_final p, files s !! p_temp p with
      | Some _, _ => (s, at_pc AtRecheck p)
      | None, Some f => (mkStore (dir s) (<[p_final p := f]> (files s)), at_pc (AtUnlink Published) p)
      | None, None => (s, at_pc (AtUnlink (OsFailed "FileNotFoundError")) p)
      end
  | AtRecheck =>
      match read_existing s p with
      | Some o => (s, at_pc (AtUnlink o) p)
      | None => (s, at_pc (AtUnlink (identity_conflict "conflicting persisted run identity")) p)
      end
  | AtUnlink o => (mkStore (dir s) (delete (p_temp p) (files s)), at_pc (AtEnd o) p)
  | AtEnd _ => (s, p)
  end.

(** A history: calls begin, make their steps in any order, and die at any point. *)
Inductive event := EBegin (i : nat) (run : string) (payload : json) (uuid : string) | EStep (i : nat) | ECrash (i : nat).

Record System := mkSystem { store : Store; calls : gmap nat Publisher }.

Definition exec (w : System) (e : event) : System :=
  match e with
  | EBegin i run payload uuid => mkSystem (store w) (<[i := mkPublisher run payload uuid AtOpen]> (calls w))
  | EStep i =>
      match calls w !! i with
      | Some p => let '(s', p') := pstep (store w) p in mkSystem s' (<[i := p']> (calls w))
      | None => w
      end
  | ECrash i => mkSystem (store w) (delete i (calls w))
  end.

Definition run_history (s : Store) (evs : list event) : System := fold_left exec evs (mkSystem s ∅).

Definition begun (e : event) : option string := match e with EBegin _ _ _ u => Some u | _ => None end.

(** [uuid4().hex]: 32 characters, and never the same twice. *)
Definition fresh_uuids (evs : list event) : Prop :=
  NoDup (omap begun evs) /\ Forall (fun u => String.length u = 32%nat) (omap begun evs).

(** *** Names *)

Lemma temp_not_final run run' u : valid_run_id run' = true -> temp_name run u <> final_name run'.
Proof. destruct run' as [|c run']; [done|]. intros H E. injection E as <- _. done. Qed.

Lemma temp_inj r u r' u' :
  String.length u = 32%nat -> String.length u' = 32%nat -> temp_name r u = temp_name r' u' -> u = u'.
Proof.
  unfold temp_name. intros Hu Hu' E. apply (inj (String.append ".")) in E.
  assert (Hl : String.length r = String.length r').
  { apply (f_equal String.length) in E. rewrite !sapp_len, Hu, Hu' in E. simpl in E. lia. }
  apply sapp_inj in E as [_ E]; [|done]. apply (inj (String.append ".")) in E. apply sapp_inj in E as [E _]; [done|lia].
Qed.

(** *** What never changes, and what a call knows *)

(** What a step does to the directory: nothing, something to the call's own
    temporary file, or a link to a name that was free. *)
Lemma pstep_files s p :
  let s' := (pstep s p).1 in
  files s' = files s \/ (exists f, files s' = <[p_temp p := f]> (files s)) \/ files s' = delete (p_temp p) (files s) \/
  exists f, p_pc p = AtLink /\ files s !! p_final p = None /\ files s' = <[p_final p := f]> (files s).
Proof.
  unfold pstep. destruct (p_pc p); simpl; eauto 10.
  - destruct (negb _); [auto|]. destruct (dir s); auto.
  - destruct (read_existing s p); auto.
  - destruct (files s !! p_temp p); simpl; eauto.
  - destruct (files s !! p_final p) eqn:E; [auto|]. destruct (files s !! p_temp p); simpl; eauto 10.
  - destruct (read_existing s p); auto.
Qed.

(** The file of a run, once there, is never touched again. *)
Lemma final_stable s p run f :
  valid_run_id run = true -> files s !! final_name run = Some f -> files (pstep s p).1 !! final_name run = Some f.
Proof.
  intros Hv Hf. assert (Ht : p_temp p <> final_name run) by (by apply temp_not_final).
  destruct (pstep_files s p) as [->|[[g ->]|[->|(g & _ & Hn & ->)]]]; [done|by rewrite lookup_insert_ne|by rewrite lookup_delete_ne|].
  destruct (decide (p_final p = final_name run)) as [E|]; [congruence|by rewrite lookup_insert_ne].
Qed.

Definition holds_payload (s : Store) (p : Publisher) : Prop :=
  valid_run_id (p_run p) = true /\ exists v, files s !! p_final p = Some (FileJson v) /\ same_dict v (p_payload p) = true.

(** What is true of a call, by where it stands. *)
Definition call_ok (s : Store) (p : Publisher) : Prop :=
  match p_pc p with
  | AtOpen => True
  | AtWrite => valid_run_id (p_run p) = true /\ files s !! p_temp p = Some FileText
  | AtLink => valid_run_id (p_run p) = true /\ files s !! p_temp p = Some (FileJson (p_payload p))
  | AtUnlink Published | AtEnd Published => holds_payload s p
  | AtEnd _ => True
  | _ => valid_run_id (p_run p) = true
  end.

Definition world_ok (w : System) (used : list string) : Prop :=
  (forall i p, calls w !! i = Some p -> call_ok (store w) p /\ p_uuid p ∈ used /\ String.length (p_uuid p) = 32%nat) /\
  (forall i j p q, calls w !! i = Some p -> calls w !! j = Some q -> p_uuid p = p_uuid q -> i = j).

Lemma read_existing_published s p : valid_run_id (p_run p) = true -> read_existing s p = Some Published -> holds_payload s p.
Proof.
  unfold read_existing, holds_payload. intros Hv H. destruct (files s !! p_final p) as [[v| |]|]; try done.
  destruct (same_dict v _) eqn:E; [|done]. eauto.
Qed.

Lemma same_dict_refl a : same_dict a a = true.
Proof. by apply same_dict_eq. Qed.

(** A call's own step keeps what it knows. *)
Lemma pstep_ok s p : call_ok s p -> call_ok (pstep s p).1 (pstep s p).2.
Proof.
  unfold call_ok, pstep. destruct p as [run payload uuid c]. destruct c as [| | | | | |o|o]; simpl.
  - intros _. destruct (valid_run_id run) eqn:Hv; simpl; [|done]. by destruct (dir s).
  - intros Hv. destruct (read_existing s _) as [[]|] eqn:E; simpl; try done.
    exact (read_existing_published s (mkPublisher run payload uuid _) Hv E).
  - intros Hv. destruct (files s !! _) eqn:E; simpl; [done|]. split; [done|]. apply lookup_insert_eq.
  - intros [Hv _]. split; [done|]. apply lookup_insert_eq.
  - intros [Hv Hf]. unfold p_final, p_temp in *. simpl in *. destruct (files s !! final_name run) eqn:E; [done|]. rewrite Hf. simpl.
    split; [done|]. exists payload. split; [apply lookup_insert_eq|apply same_dict_refl].
  - intros Hv. destruct (read_existing s _) as [[]|] eqn:E; simpl; try done.
    exact (read_existing_published s (mkPublisher run payload uuid _) Hv E).
  - destruct o; simpl; try done. intros [Hv (v & Hf & Hd)]. split; [done|]. exists v. split; [|done]. unfold p_final in *. simpl in *.
    rewrite lookup_delete_ne; [done|]. by apply temp_not_final.
  - done.
Qed.

(** Another call's step does not touch its temporary file. *)
Lemma pstep_other s p q :
  call_ok s p -> call_ok s q -> p_temp p <> p_temp q -> call_ok (pstep s p).1 q.
Proof.
  intros Hp Hq Hne. pose proof (final_stable s p) as Hst.
  assert (Htmp : forall f, files s !! p_temp q = Some f -> files (pstep s p).1 !! p_temp q = Some f).
  { intros f Hf. destruct (pstep_files s p) as [->|[[g ->]|[->|(g & Epc & _ & ->)]]];
      [done|by rewrite lookup_insert_ne|by rewrite lookup_delete_ne|].
    rewrite lookup_insert_ne; [done|]. intros E. symmetry in E. revert E. apply temp_not_final.
    unfold call_ok in Hp. rewrite Epc in Hp. by destruct Hp. }
  unfold call_ok, holds_payload in *. destruct (p_pc q) as [| | | | | |[]|[]]; try done; try (destruct Hq; by auto);
    destruct Hq as [Hv (v & Hf & Hd)]; split; eauto.
Qed.

Lemma exec_ok w e used :
  world_ok w used -> (match begun e with Some u => (u ∉ used) /\ String.length u = 32%nat | None => True end) ->
  world_ok (exec w e) (match begun e with Some u => u :: used | None => used end).
Proof.
  intros [Hc Hu] He. destruct e as [i r pl u|i|i]; simpl in *.
  - split.
    + intros j p Hj. simpl in Hj. apply lookup_insert_Some in Hj as [[<- <-]|[_ Hj]]; [destruct He; split_and!; [done|set_solver|done]|].
      destruct (Hc j p Hj) as (? & ? & ?). split_and!; [done|set_solver|done].
    + intros j k p q Hj Hk E. simpl in Hj, Hk. destruct He as [Hn _]. apply lookup_insert_Some in Hj as [[<- <-]|[_ Hj]], Hk as [[<- <-]|[_ Hk]].
      * done.
      * simpl in E. exfalso. apply Hn. rewrite E. by apply (Hc k q).
      * simpl in E. exfalso. apply Hn. rewrite <-E. by apply (Hc j p).
      * by eapply Hu.
  - destruct (calls w !! i) as [p|] eqn:Ei; [|done]. destruct (Hc i p Ei) as (Hp & Hpu & Hpl).
    assert (Hstep : (pstep (store w) p).2 = at_pc (p_pc (pstep (store w) p).2) p).
    { unfold pstep. destruct p as [run pl u c]. destruct c; repeat (case_match; simpl; try done). }
    destruct (pstep (store w) p) as [s' p'] eqn:E. simpl in Hstep.
    assert (Hid : p_uuid p' = p_uuid p) by (by rewrite Hstep).
    split.
    + intros j q Hj. simpl in Hj. apply lookup_insert_Some in Hj as [[<- <-]|[Hne Hj]]; simpl.
      * split_and!; [pose proof (pstep_ok _ _ Hp) as H; by rewrite E in H|by rewrite Hid|by rewrite Hid].
      * destruct (Hc j q Hj) as (Hq & Hqu & Hql). split_and!; [|done|done].
        pose proof (pstep_other (store w) p q Hp Hq) as H. rewrite E in H. apply H.
        intros Et. apply Hne. eapply Hu; [exact Ei|exact Hj|]. by eapply temp_inj.
    + intros j k q q' Hj Hk Eu. simpl in *. apply lookup_insert_Some in Hj as [[<- <-]|[Hj0 Hj]], Hk as [[<- <-]|[Hk0 Hk]]; [done| | |by eapply Hu].
      * rewrite Hid in Eu. by eapply Hu.
      * rewrite Hid in Eu. by eapply Hu.
  - split.
    + intros j p Hj. simpl in Hj. apply lookup_delete_Some in Hj as [_ Hj]. by apply (Hc j p).
    + intros j k p q Hj Hk. simpl in Hj, Hk. apply lookup_delete_Some in Hj as [_ Hj], Hk as [_ Hk]. by apply Hu.
Qed.

Lemma history_ok evs w used :
  world_ok w used -> NoDup (omap begun evs) -> Forall (fun u => (u ∉ used) /\ String.length u = 32%nat) (omap begun evs) ->
  exists used', world_ok (fold_left exec evs w) used'.
Proof.
  revert w used. induction evs as [|e evs IH]; intros w used Hw Hnd Hf; simpl; [eauto|].
  pose proof (exec_ok w e used Hw) as He. simpl in Hnd, Hf. destruct (begun e) as [u|].
  - inversion Hnd as [|? ? Hu Hnd']; subst. inversion Hf as [|? ? Hfu Hf']; subst. apply (IH _ (u :: used)); [by apply He|done|].
    apply Forall_forall. intros u' Hu'. rewrite Forall_forall in Hf'. destruct (Hf' u' Hu') as [? ?]. split; [|done].
    rewrite not_elem_of_cons. split; [|done]. by intros ->.
  - by apply (IH _ used); [apply He|..].
Qed.

Lemma reached_world_ok s evs : fresh_uuids evs -> exists used, world_ok (run_history s evs) used.
Proof.
  intros [Hnd Hl]. eapply history_ok; [|exact Hnd|]; [|apply Forall_forall; intros u Hu; split; [apply not_elem_of_nil|]].
  - split; intros; simpl in *; by rewrite lookup_empty in *.
  - rewrite Forall_forall in Hl. auto.
Qed.

Lemma history_stable evs w run f :
  valid_run_id run = true -> files (store w) !! final_name run = Some f ->
  files (store (fold_left exec evs w)) !! final_name run = Some f.
Proof.
  intros Hv. revert w. induction evs as [|e evs IH]; intros w Hf; simpl; [done|]. apply IH.
  destruct e as [i r pl u|i|i]; simpl; [done| |done]. destruct (calls w !! i) as [p|]; [|done].
  pose proof (final_stable (store w) p run f Hv Hf) as H. by destruct (pstep (store w) p).
Qed.

(** C26: A run's identity is written once.  Whatever calls are made for whatever runs,
    however their steps interleave and whichever of them die, once a call has
    reported success the file of its run holds the call's payload, holds it
    forever, and every other call that reports success for that run was given
    the same payload. *)
Theorem identity_written_once s evs evs' i p :
  fresh_uuids (evs ++ evs') -> calls (run_history s evs) !! i = Some p -> p_pc p = AtEnd Published ->
  exists v, sort_keys v = sort_keys (p_payload p) /\
    files (store (run_history s evs)) !! p_final p = Some (FileJson v) /\
    files (store (run_history s (evs ++ evs'))) !! p_final p = Some (FileJson v) /\
    forall j q, calls (run_history s (evs ++ evs')) !! j = Some q -> p_pc q = AtEnd Published -> p_run q = p_run p ->
      sort_keys (p_payload q) = sort_keys (p_payload p).
Proof.
  intros Hfresh Hi Hpc. assert (Hfresh1 : fresh_uuids evs).
  { destruct Hfresh as [Hnd Hl]. rewrite omap_app in Hnd, Hl. apply NoDup_app in Hnd as (? & _). by apply Forall_app in Hl as [? _]. }
  destruct (reached_world_ok s evs Hfresh1) as (used & Hw & _). destruct (Hw i p Hi) as (Hp & _). unfold call_ok in Hp. rewrite Hpc in Hp.
  destruct Hp as (Hv & v & Hf & Hd). apply same_dict_eq in Hd.
  assert (Hf' : files (store (run_history s (evs ++ evs'))) !! p_final p = Some (FileJson v)).
  { unfold run_history. rewrite fold_left_app. by apply history_stable. }
  exists v. split_and!; [done..|]. intros j q Hj Hqc Hr. destruct (reached_world_ok s _ Hfresh) as (used' & Hw' & _).
  destruct (Hw' j q Hj) as (Hq & _). unfold call_ok in Hq. rewrite Hqc in Hq. destruct Hq as (_ & v' & Hfq & Hdq).
  apply same_dict_eq in Hdq. unfold p_final in Hfq, Hf'. rewrite Hr, Hf' in Hfq. simplify_eq. congruence.
Qed.

(** *** Every call ends *)

Definition steps_left (c : pc) : nat :=
  match c with
  | AtOpen => 7 | AtRead => 6 | AtCreate => 5 | AtWrite => 4 | AtLink => 3 | AtRecheck => 2 | AtUnlink _ => 1 | AtEnd _ => 0
  end.

Lemma pstep_progress s p : (steps_left (p_pc (pstep s p).2) <= pred (steps_left (p_pc p)))%nat.
Proof.
  unfold pstep. destruct (p_pc p) eqn:E.
  - destruct (negb _); [simpl; lia|]. destruct (dir s); simpl; lia.
  - destruct (read_existing s p); simpl; lia.
  - destruct (files s !! p_temp p); simpl; lia.
  - simpl. lia.
  - destruct (files s !! p_final p), (files s !! p_temp p); simpl; lia.
  - destruct (read_existing s p); simpl; lia.
  - simpl. lia.
  - simpl. by rewrite E.
Qed.

Definition is_step (i : nat) (e : event) : bool := match e with EStep j => Nat.eqb i j | _ => false end.
Definition spares (i : nat) (e : event) : Prop := match e with EBegin j _ _ _ | ECrash j => i <> j | EStep _ => True end.

(** A call ends after seven steps of its own, whatever other calls do or leave
    undone meanwhile: nobody waits for anybody. *)
Theorem publication_wait_free w evs i p :
  calls w !! i = Some p -> Forall (spares i) evs -> (7 <= length (List.filter (is_step i) evs))%nat ->
  exists q o, calls (fold_left exec evs w) !! i = Some q /\ p_pc q = AtEnd o.
Proof.
  intros Hi Hs Hn. assert (Hle : (steps_left (p_pc p) <= length (List.filter (is_step i) evs))%nat) by (destruct (p_pc p); simpl; lia).
  clear Hn. revert w p Hi Hle. induction Hs as [|e evs He Hs IH]; intros w p Hi Hle; simpl in *.
  - exists p. destruct (p_pc p) eqn:E; simpl in Hle; try lia. eauto.
  - destruct e as [j r pl u|j|j]; simpl in *.
    + apply (IH _ p); [|done]. simpl. by rewrite lookup_insert_ne.
    + destruct (Nat.eqb i j) eqn:Eij.
      * apply Nat.eqb_eq in Eij as <-. rewrite Hi. pose proof (pstep_progress (store w) p) as Hp.
        destruct (pstep (store w) p) as [s' p']. simpl in Hp, Hle. apply (IH _ p'); [simpl; apply lookup_insert_eq|lia].
      * apply Nat.eqb_neq in Eij. apply (IH _ p); [|done]. destruct (calls w !! j) as [q|]; [|done].
        destruct (pstep (store w) q). simpl. by rewrite lookup_insert_ne.
    + apply (IH _ p); [|done]. simpl. by rewrite lookup_delete_ne.
Qed.

(** ** Witnesses *)

Definition demo_bar : bar_row :=
  [("time", NumInt 60000); ("time_close", NumInt 120000); ("open", NumFloat (S754_finite false 6755399441055744 (-52)));
   ("high", NumInt 2); ("low", NumDecimal true "1.5"); ("close", NumStr "1.75"); ("volume", NumNone)].
Definition demo_query : SnapshotQuery := mkSnapshotQuery "okx" "spot" "BTCUSDT" "1m" 60000 120000 "CLOSED_BAR_ONLY".

Lemma demo_python_bar : python_bar demo_bar.
Proof. intros name v H. apply dget_Some_elem, list_elem_of_In in H. simpl in H. destruct_or! H; simplify_eq; done. Qed.

(** The same data with the keys in another order has the same hash. *)
Lemma snapshot_hash_binds_witness :
  exists h, execution_data_snapshot_hash (fun _ _ => "h") demo_query [demo_bar] [] = Ok h /\
    ((demo_query = demo_query /\ Forall2 (same_bar false) [demo_bar] [rev demo_bar] /\ Forall2 (same_bar true) [] []) \/
     exists p p' : json, p <> p' /\ "h" = "h").
Proof.
  eexists. split; [vm_compute; reflexivity|].
  apply (snapshot_hash_binds (fun _ _ => "h") demo_query demo_query [demo_bar] [rev demo_bar] [] [] "h");
    [repeat constructor; exact demo_python_bar| |constructor|constructor|vm_compute; reflexivity|vm_compute; reflexivity].
  repeat constructor. intros name v H. apply demo_python_bar with name. apply dget_Some_elem, list_elem_of_In in H. simpl in H.
  destruct_or! H; simplify_eq; reflexivity.
Defined.

Example demo_float_hex : map float_hex [S754_finite false 6755399441055744 (-52); S754_zero true; S754_finite true 1 (-1074)] =
  ["0x1.8000000000000p+0"; "-0x0.0p+0"; "-0x0.0000000000001p-1022"].
Proof. vm_compute. reflexivity. Qed.

(** Two calls for one run, with the same payload but for the order of its keys,
    step by step in turn: both report success. *)
Definition demo_uuid (c : string) : string := c +:+ "0123456789abcdef0123456789abcde".
Definition demo_events : list event :=
  [EBegin 0 "run" (JObj [("a", JNull); ("b", JNull)]) (demo_uuid "1"); EBegin 1 "run" (JObj [("b", JNull); ("a", JNull)]) (demo_uuid "2")] ++
  concat (replicate 6 [EStep 0; EStep 1]).

Lemma identity_written_once_witness :
  exists p v, calls (run_history (mkStore DirMissing ∅) demo_events) !! 0%nat = Some p /\ p_pc p = AtEnd Published /\
    files (store (run_history (mkStore DirMissing ∅) (demo_events ++ [EStep 1]))) !! p_final p = Some (FileJson v).
Proof.
  assert (Hf : fresh_uuids (demo_events ++ [EStep 1])).
  { split; [by apply (bool_decide_unpack _); vm_compute|repeat constructor]. }
  set (w := run_history (mkStore DirMissing ∅) demo_events).
  assert (Hi : calls w !! 0%nat = Some (mkPublisher "run" (JObj [("a", JNull); ("b", JNull)]) (demo_uuid "1") (AtEnd Published)))
    by (vm_compute; reflexivity).
  destruct (identity_written_once _ demo_events [EStep 1] 0 _ Hf Hi eq_refl) as (v & _ & _ & H & _). by eauto.
Defined.

Lemma publication_wait_free_witness :
  exists q o, calls (fold_left exec ([ECrash 1] ++ replicate 7 (EStep 0)) (run_history (mkStore DirMissing ∅) (firstn 5 demo_events))) !! 0%nat = Some q
    /\ p_pc q = AtEnd o.
Proof.
  eapply publication_wait_free; [vm_compute; reflexivity|repeat constructor; discriminate|vm_compute; lia].
Defined.
