(* ===== verification/Artifacts.v ===== *)
(** The artifact store: [openpine/artifacts/store.py].

    A directory for each source, in it a directory for each artifact.  Sealed
    artifacts are written to a temporary directory that is then renamed; a save
    without a seal writes its files one after the other over what is there.
    Either is a sequence of steps between which other processes may work and at
    which it may die.  Texts are as the text layer of Python gives them, with
    its translation of line ends.  The contracts' validation and hashing and [ast2python]'s digest are
    parameters, and so is what [Path.resolve] makes of symbolic links. *)

From Stdlib Require Import Ascii.
From S2P Require Import Prelude Json Admission JsonFacts RunIdentity.

#[local] Set Default Proof Using "Type".

Inductive ArtifactError :=
| ArtValue (message : string)
| ArtContract
| ArtKey (key : string)
| ArtIndex
| ArtJson (e : json_error)
| ArtNotFound (message : string)
| ArtExists (message : string)
| ArtOs (name : string).

(** ** Paths *)

(** The last part of [Path(component)]: empty parts and dots are dropped. *)
Definition path_name (component : string) : string :=
  default "" (last (List.filter (fun p => negb (bool_decide (p = "")) && negb (bool_decide (p = "."))) (split_on "/" component))).

(** [_validate_path_component]. *)
Definition valid_component (component : string) : bool :=
  str_truthy component && negb (String.prefix "/" component) && bool_decide (path_name component = component) &&
  negb (bool_decide (component = ".") || bool_decide (component = "..")).

Definition escapes {A} (component : string) : result ArtifactError A :=
  Err (ArtValue ("Artifact path escapes artifact storage root: " +:+ component)).

(** ** Texts *)

(** What [read_text] gives for the characters of a file: any line end is "\n". *)
Fixpoint universal (s : string) : string :=
  match s with
  | EmptyString => EmptyString
  | String c s' =>
      if Ascii.eqb c "013" then
        String "010" (match s' with
                      | String d s'' => if Ascii.eqb d "010" then universal s'' else universal s'
                      | EmptyString => EmptyString
                      end)
      else String c (universal s')
  end.

(** ** The disk *)

Abbreviation files_in := (gmap string string).
Inductive entry := EDir (f : files_in) | EPlain.

(** The directories of sources, and what is in them. *)
Record Disk := mkDisk { sources : gset string; entries : gmap (string * string) entry }.

(** What the parts of a result hold. *)
Record ArtifactView := mkView {
  v_python : string; v_ast : string; v_text : string; v_meta : json; v_map : option json; v_generated : option json;
  v_frontend : option json; v_support : option json; v_ast_artifact : option json
}.

Record SealedArgs := mkSealedArgs {
  a_id : string; a_source : string; a_params : string; a_python : string; a_meta : dict string json; a_text : string; a_ast : string;
  a_map : list json; a_generated : dict string json; a_frontend : option (dict string json); a_support : option (dict string json);
  a_ast_artifact : option (dict string json); a_requirements : option (dict string json); a_diagnostics : string
}.

Definition setdefault (d : dict string json) (k v : string) : dict string json := if dmem d k then d else dset d k (JStr v).

(** The metadata that is written. *)
Definition with_defaults (meta : dict string json) (id source params : string) : dict string json :=
  setdefault (setdefault (setdefault (setdefault meta "artifact_id" id) "source_id" source) "params_hash" params)
    "schema_version" "openpine.compile_meta.v1".

(** [json.dumps(v, indent=2, sort_keys=True) + "\n"]. *)
Definition json_text (v : json) : string := dumps_indent 2 (sort_keys v) +:+ String "010" "".

Definition optional_file (name : string) (v : option (dict string json)) : list (string * string) :=
  match v with Some d => [(name, json_text (JObj d))] | None => [] end.

(** The files of a sealed artifact, in the order they are written. *)
Definition sealed_files (a : SealedArgs) : list (string * string) :=
  [("generated_strategy.py", a_python a); ("source.pine", a_text a); ("ast.json", a_ast a);
   ("source_map.json", json_text (JArr (a_map a))); ("generated_artifact.json", json_text (JObj (a_generated a)))] ++
  optional_file "frontend_artifact.json" (a_frontend a) ++ optional_file "support_profile.json" (a_support a) ++
  optional_file "ast_artifact.json" (a_ast_artifact a) ++ optional_file "requirements.json" (a_requirements a) ++
  [("compile_meta.json", json_text (JObj (with_defaults (a_meta a) (a_id a) (a_source a) (a_params a))));
   ("diagnostics.log", a_diagnostics a)].

Definition dir_of (l : list (string * string)) : files_in := fold_left (fun f nt => <[nt.1 := nt.2]> f) l ∅.

Lemma dir_of_snoc l n t : dir_of (l ++ [(n, t)]) = <[n := t]> (dir_of l).
Proof. unfold dir_of. by rewrite fold_left_app. Qed.

Lemma dir_of_dom l x : is_Some (dir_of l !! x) <-> x ∈ l.*1.
Proof.
  induction l as [|[n t] l IH] using rev_ind; [unfold dir_of; simpl; rewrite lookup_empty; split; [by intros [? ?]|by intros ?%elem_of_nil]|].
  rewrite dir_of_snoc, lookup_insert_is_Some', IH, fmap_app, elem_of_app. simpl. rewrite list_elem_of_singleton. naive_solver.
Qed.

(** A prefix of the files has been created. *)
Definition begun_files (a : SealedArgs) (f : files_in) : Prop :=
  exists written rest, written ++ rest = sealed_files a /\ forall x, is_Some (f !! x) <-> x ∈ written.*1.

(** The metadata is written after the generated artifact. *)
Definition envelope_first (f : files_in) : Prop := is_Some (f !! "compile_meta.json") -> is_Some (f !! "generated_artifact.json").

Lemma begun_envelope_first a f : begun_files a f -> envelope_first f.
Proof.
  intros (written & rest & E & Hdom) Hm. apply Hdom in Hm. apply Hdom.
  set (first := [("generated_strategy.py", a_python a); ("source.pine", a_text a); ("ast.json", a_ast a);
    ("source_map.json", json_text (JArr (a_map a))); ("generated_artifact.json", json_text (JObj (a_generated a)))]).
  unfold sealed_files in E. fold first in E. apply app_eq_inv in E as [(k & -> & _)|(k & E & _)].
  - rewrite fmap_app, elem_of_app. left. apply list_elem_of_In. simpl. tauto.
  - exfalso. assert (Hf : "compile_meta.json" ∈ first.*1) by (rewrite E, fmap_app, elem_of_app; by left).
    apply list_elem_of_In in Hf. simpl in Hf. by repeat destruct Hf as [Hf|Hf].
Qed.

Lemma dir_of_lookup l x : NoDup l.*1 -> dir_of l !! x = dget l x.
Proof.
  induction l as [|[n t] l IH] using rev_ind; [done|]. rewrite fmap_app, NoDup_app. intros (Hd & Hn & _).
  rewrite dir_of_snoc. assert (Hnew : dget l n = None).
  { apply dget_None_keys. intros Hin. apply (Hn n Hin). simpl. apply list_elem_of_here. }
  rewrite <-(dset_new l n t Hnew). destruct (decide (x = n)) as [->|Hne]; [by rewrite lookup_insert_eq, dget_dset_eq|].
  by rewrite lookup_insert_ne, dget_dset_ne, IH.
Qed.

Lemma sealed_NoDup a : NoDup (sealed_files a).*1.
Proof.
  unfold sealed_files. destruct (a_frontend a), (a_support a), (a_ast_artifact a), (a_requirements a);
    cbn [optional_file app fmap list_fmap fst]; apply (bool_decide_unpack _); reflexivity.
Qed.

(** *** Texts that are read as they were written *)

Definition not_return (c : ascii) : bool := negb (Ascii.eqb c "013").

Lemma universal_id s : str_forall not_return s = true -> universal s = s.
Proof.
  induction s as [|c s IH]; [done|]. cbn [str_forall universal]. rewrite andb_true_iff. intros [Hc Hs]. unfold not_return in Hc.
  destruct (Ascii.eqb c "013"); [done|]. f_equal. by apply IH.
Qed.

Lemma json_text_chars v : plain v = true -> str_forall not_return (json_text v) = true.
Proof.
  intros Hp. unfold json_text, dumps_indent. rewrite str_forall_app. apply andb_true_iff. split; [|done].
  assert (Hb : forall n, str_forall not_return (line_break n) = true).
  { intros n. unfold line_break. cbn [str_forall]. induction n as [|n IH]; [done|]. destruct n; [done|exact IH]. }
  apply dumps_at_chars; try (intros; apply Hb); [|done|by apply plain_sort_keys].
  intros c Hc. by destruct c as [[] [] [] [] [] [] [] []].
Qed.

Lemma loads_json_text v : plain v = true -> loads (universal (json_text v)) = Ok (sort_keys v).
Proof.
  intros Hp. rewrite universal_id by by apply json_text_chars. unfold json_text. apply loads_dumps_indent; [by apply plain_sort_keys|by right].
Qed.

(** Names of temporary directories start with a dot. *)
Definition dotted (n : string) : bool := String.prefix "." n.

Definition temp_dir (id suffix : string) : string := "." +:+ id +:+ "." +:+ suffix.

Lemma dotted_temp id suffix : dotted (temp_dir id suffix) = true.
Proof. unfold dotted, temp_dir. simpl. by destruct (id +:+ "." +:+ suffix). Qed.

(** What follows the first colon. *)
Fixpoint colon_rest (s : string) : option string :=
  match s with
  | EmptyString => None
  | String c s' => if Ascii.eqb c ":" then Some s' else colon_rest s'
  end.

Definition generated_schema : string := "openpine.generated_artifact.v2".

Section Store.
Variable valid_payload : string -> dict string json -> bool.
Variable verify_content_hash : dict string json -> string -> bool.
Variable digest : json -> string -> string.
(** The parts of the root, and of a path after [resolve]. *)
Variable root : list string.
Variable resolve : list string -> list string.

(** [_path_under_root]. *)
Definition path_under_root (parts : list string) : result ArtifactError (list string) :=
  let! _ := result_map (fun p => if valid_component p then Ok tt else escapes p) parts in
  let path := root ++ parts in
  if bool_decide (resolve root `prefix_of` resolve path) then Ok path else escapes (join_with "/" path).

Definition art_key (d : dict string json) (key : string) : result ArtifactError json :=
  match dget d key with Some v => Ok v | None => Err (ArtKey key) end.

(** [artifact_id_for_envelope]. *)
Definition artifact_id_for_envelope (g : dict string json) : result ArtifactError string :=
  if negb (valid_payload generated_schema g) then Err ArtContract
  else if negb (verify_content_hash g generated_schema) then Err (ArtValue "generated artifact content hash is invalid")
  else
    let! h := art_key g "content_hash" in
    match h with
    | JStr s => match colon_rest s with Some r => Ok ("art_" +:+ String.substring 0 16 r) | None => Err ArtIndex end
    | _ => Err ArtIndex
    end.

Definition field_is (g : dict string json) (key : string) (h : json) (message : string) : result ArtifactError unit :=
  let! v := art_key g key in if json_eqb v h then Ok tt else Err (ArtValue message).

(** The check of the frontend artifact and of the support profile. *)
Definition check_linked (g : dict string json) (payload : option (dict string json)) (schema key label : string)
    : result ArtifactError unit :=
  match payload with
  | None => Ok tt
  | Some p =>
      if negb (valid_payload schema p) then Err ArtContract
      else if negb (verify_content_hash p schema) then Err (ArtValue (label +:+ " content hash is invalid"))
      else
        let! v := art_key g key in
        let! h := art_key p "content_hash" in
        if json_eqb v h then Ok tt else Err (ArtValue ("generated artifact " +:+ label +:+ " hash does not match"))
  end.

(** [_verify_sealed_payload]. *)
Definition verify_sealed_payload (id python text ast : string) (map_ : list json) (g : dict string json)
    (frontend support ast_artifact : option (dict string json)) : result ArtifactError unit :=
  let! expected := artifact_id_for_envelope g in
  if negb (bool_decide (id = expected)) then
    Err (ArtValue ("artifact_id does not match sealed content identity: " +:+ id +:+ " != " +:+ expected))
  else
    let! _ := field_is g "source_hash" (JStr (digest (JStr text) generated_schema))
      "generated artifact source hash does not match source bytes" in
    let! _ := field_is g "emitted_module_hash" (JStr (digest (JStr python) generated_schema))
      "generated artifact emitted module hash does not match Python bytes" in
    let! _ := field_is g "source_map_hash" (JStr (digest (JObj [("entries", JArr map_)]) generated_schema))
      "generated artifact source map hash does not match source map" in
    let! parsed := match loads ast with Ok v => Ok v | Err e => Err (ArtJson e) end in
    let! expected_ast :=
      match ast_artifact with
      | None => Ok (JStr (digest parsed generated_schema))
      | Some d =>
          if negb (valid_payload "pine.ast.v1" d) then Err ArtContract
          else if negb (verify_content_hash d "pine.ast.v1") then Err (ArtValue "AST artifact content hash is invalid")
          else art_key d "content_hash"
      end in
    let! _ := field_is g "ast_hash" expected_ast "generated artifact AST hash does not match AST artifact" in
    let! _ := check_linked g frontend "openpine.frontend.v2" "frontend_artifact_hash" "frontend artifact" in
    check_linked g support "openpine.support_profile.v2" "support_profile_hash" "support profile".

(** ** Reading *)

Definition read_optional_text (f : files_in) (name : string) : string := default "" (universal <$> f !! name).

Definition read_json (text : string) : result ArtifactError json :=
  match loads (universal text) with Ok v => Ok v | Err e => Err (ArtJson e) end.

Definition read_optional_json (f : files_in) (name : string) : result ArtifactError (option json) :=
  match f !! name with
  | None => Ok None
  | Some t =>
      let! v := read_json t in
      match v with JObj _ | JArr _ => Ok (Some v) | _ => Err (ArtValue ("Artifact JSON is malformed: " +:+ name)) end
  end.

Definition read_compile_meta (f : files_in) (id : string) : result ArtifactError json :=
  match f !! "compile_meta.json" with
  | None => Err (ArtNotFound ("Artifact metadata not found: " +:+ id))
  | Some t =>
      let! v := read_json t in
      match v with JObj _ => Ok v | _ => Err (ArtValue ("Artifact metadata is malformed: " +:+ id)) end
  end.

(** A part that must be a dictionary if it is there. *)
Definition as_mapping (v : option json) (label id : string) : result ArtifactError (option (dict string json)) :=
  match v with
  | None => Ok None
  | Some (JObj l) => Ok (Some (jdict l))
  | Some _ => Err (ArtValue ("sealed " +:+ label +:+ " is malformed: " +:+ id))
  end.

Definition is_object (v : json) : bool := match v with JObj _ => true | _ => false end.

Definition check_sealed (id : string) (f : files_in) (map_ generated frontend support ast_artifact : option json)
    : result ArtifactError unit :=
  match generated with
  | None => Ok tt
  | Some g =>
      match g, map_ with
      | JObj l, Some (JArr m) =>
          if negb (forallb is_object m) then Err (ArtValue ("sealed source map is malformed: " +:+ id))
          else
            let! fe := as_mapping frontend "frontend artifact" id in
            let! su := as_mapping support "support profile" id in
            let! aa := as_mapping ast_artifact "AST artifact" id in
            verify_sealed_payload id (read_optional_text f "generated_strategy.py") (read_optional_text f "source.pine")
              (read_optional_text f "ast.json") m (jdict l) fe su aa
      | _, _ => Err (ArtValue ("sealed artifact files are malformed: " +:+ id))
      end
  end.

(** What [get_artifact] does in an existing directory. *)
Definition read_dir (id : string) (f : files_in) : result ArtifactError ArtifactView :=
  let! map_ := read_optional_json f "source_map.json" in
  let! generated := read_optional_json f "generated_artifact.json" in
  let! frontend := read_optional_json f "frontend_artifact.json" in
  let! support := read_optional_json f "support_profile.json" in
  let! ast_artifact := read_optional_json f "ast_artifact.json" in
  let! _ := check_sealed id f map_ generated frontend support ast_artifact in
  let! meta := read_compile_meta f id in
  Ok (mkView (read_optional_text f "generated_strategy.py") (read_optional_text f "ast.json") (read_optional_text f "source.pine")
        meta map_ generated frontend support ast_artifact).

(** [get_artifact]; nothing is found inside a plain file. *)
Definition get_artifact (d : Disk) (id source : string) : result ArtifactError ArtifactView :=
  let! _ := path_under_root [source; id] in
  match entries d !! (source, id) with
  | None => Err (ArtNotFound ("Artifact not found: " +:+ id))
  | Some (EDir f) => read_dir id f
  | Some EPlain => read_dir id ∅
  end.

Definition artifact_exists (d : Disk) (id source : string) : result ArtifactError bool :=
  let! _ := path_under_root [source; id] in Ok (bool_decide (is_Some (entries d !! (source, id)))).

(** The directories of a source, by name. *)
Definition dirs_of (d : Disk) (source : string) : list string :=
  sort_by str_leb (omap (fun ke : string * string * entry =>
    match ke.2 with EDir _ => if bool_decide (ke.1.1 = source) then Some ke.1.2 else None | EPlain => None end) (map_to_list (entries d))).

(** [list_artifacts]. *)
Definition list_artifacts (d : Disk) (source : string) : result ArtifactError (list ArtifactView) :=
  let! _ := path_under_root [source] in
  if bool_decide (source ∈ sources d) then result_map (fun id => get_artifact d id source) (dirs_of d source) else Ok [].

(** ** Saving without a seal *)

(** The arguments of [save_artifact] without a generated artifact. *)
Record PlainArgs := mkPlainArgs {
  u_id : string; u_source : string; u_params : string; u_python : option string; u_meta : dict string json;
  u_text : option string; u_ast : option string; u_requirements : option (dict string json); u_diagnostics : string
}.

Definition u_key (u : PlainArgs) : string * string := (u_source u, u_id u).

(** What is done to the files of the directory: [write_text] empties the file
    and fills it; the program is removed if there is none to write. *)
Inductive file_op := FWrite (name text : string) | FUnlink (name : string).

Definition write_text (name text : string) : list file_op := [FWrite name ""; FWrite name text].

Definition plain_meta (u : PlainArgs) : dict string json := with_defaults (u_meta u) (u_id u) (u_source u) (u_params u).

Definition plain_ops (u : PlainArgs) : list file_op :=
  match opt_truthy (u_python u) with
  | Some p => write_text "generated_strategy.py" p
  | None => [FUnlink "generated_strategy.py"]
  end ++
  match u_text u with Some t => write_text "source.pine" t | None => [] end ++
  match u_ast u with Some t => write_text "ast.json" t | None => [] end ++
  write_text "compile_meta.json" (dumps_indent 2 (JObj (plain_meta u))) ++
  match u_requirements u with Some r => write_text "requirements.json" (dumps_indent 2 (JObj r)) | None => [] end ++
  write_text "diagnostics.log" (u_diagnostics u).

Definition apply_op (f : files_in) (o : file_op) : files_in :=
  match o with FWrite n t => <[n := t]> f | FUnlink n => delete n f end.

(** The beginning of such a save: the path is checked and the directory made.
    [None]: the call raises. *)
Definition plain_mkdir (d : Disk) (u : PlainArgs) : Disk * option ArtifactError :=
  match path_under_root [u_source u; u_id u] with
  | Err e => (d, Some e)
  | Ok _ =>
      let d' := mkDisk ({[u_source u]} ∪ sources d) in
      match entries d !! u_key u with
      | Some EPlain => (d' (entries d), Some (ArtOs "FileExistsError"))
      | Some (EDir _) => (d' (entries d), None)
      | None => (d' (<[u_key u := EDir ∅]> (entries d)), None)
      end
  end.

(** One operation in the directory of the key, [None] when it is not there. *)
Definition plain_op (d : Disk) (k : string * string) (o : file_op) : option Disk :=
  match entries d !! k with
  | Some (EDir f) => Some (mkDisk (sources d) (<[k := EDir (apply_op f o)]> (entries d)))
  | _ => None
  end.

(** A whole save without a seal that nothing interrupts. *)
Definition save_unsealed (d : Disk) (u : PlainArgs) : Disk * option ArtifactError :=
  match plain_mkdir d u with
  | (d', Some e) => (d', Some e)
  | (d', None) => (fold_left (fun d o => default d (plain_op d (u_key u) o)) (plain_ops u) d', None)
  end.

(** ** Saving sealed artifacts *)

Inductive save_outcome := Saved | SaveFailed (e : ArtifactError).

(** Where a call of [save_artifact] with a generated artifact stands: before the
    checks, before it looks for the directory, before it creates the source's
    directory and the temporary one, before a file is created, before the file
    is filled, before the rename, before the clean-up, and after. *)
Inductive save_pc :=
| AtVerify | AtLook | AtMkdir | AtTemp
| AtFile (rest : list (string * string)) | AtFill (name text : string) (rest : list (string * string))
| AtRename | AtCleanup (e : ArtifactError) | AtDone (o : save_outcome).

(** A call, with the random part of its temporary name. *)
Record Saver := mkSaver { s_args : SealedArgs; s_suffix : string; s_pc : save_pc }.

Definition at_save (c : save_pc) (p : Saver) : Saver := mkSaver (s_args p) (s_suffix p) c.

Definition s_key (p : Saver) : string * string := (a_source (s_args p), a_id (s_args p)).
Definition s_temp (p : Saver) : string * string := (a_source (s_args p), temp_dir (a_id (s_args p)) (s_suffix p)).

(** The checks before anything is looked up. *)
Definition verify_args (a : SealedArgs) : result ArtifactError unit :=
  if negb (str_truthy (a_python a)) then
    Err (ArtValue "sealed artifact save requires Python, source, AST, and source map bytes")
  else
    let! _ := verify_sealed_payload (a_id a) (a_python a) (a_text a) (a_ast a) (a_map a) (a_generated a) (a_frontend a) (a_support a)
                (a_ast_artifact a) in
    let! _ := path_under_root [a_source a; a_id a] in Ok tt.

Definition put (d : Disk) (k : string * string) (e : entry) : Disk := mkDisk (sources d) (<[k := e]> (entries d)).

(** [write_text] in the temporary directory. *)
Definition write_file (d : Disk) (p : Saver) (name text : string) (next : save_pc) : Disk * Saver :=
  match entries d !! s_temp p with
  | Some (EDir f) => (put d (s_temp p) (EDir (<[name := text]> f)), at_save next p)
  | _ => (d, at_save (AtCleanup (ArtOs "FileNotFoundError")) p)
  end.

(** One step of a call, up to its next system call. *)
Definition save_step (d : Disk) (p : Saver) : Disk * Saver :=
  let a := s_args p in
  match s_pc p with
  | AtVerify =>
      match verify_args a with
      | Ok _ => (d, at_save AtLook p)
      | Err e => (d, at_save (AtDone (SaveFailed e)) p)
      end
  | AtLook =>
      match entries d !! s_key p with
      | None => (d, at_save AtMkdir p)
      | Some _ =>
          (d, at_save (AtDone
            match get_artifact d (a_id a) (a_source a) with
            | Err e => SaveFailed e
            | Ok v =>
                if match v_generated v with Some g => same_dict g (JObj (a_generated a)) | None => false end then Saved
                else SaveFailed (ArtExists ("sealed artifact already exists with different bytes: " +:+ a_id a))
            end) p)
      end
  | AtMkdir => (mkDisk ({[a_source a]} ∪ sources d) (entries d), at_save AtTemp p)
  | AtTemp =>
      match entries d !! s_temp p with
      | Some _ => (d, p)
      | None => (put d (s_temp p) (EDir ∅), at_save (AtFile (sealed_files a)) p)
      end
  | AtFile [] => (d, at_save AtRename p)
  | AtFile ((name, text) :: rest) => write_file d p name "" (AtFill name text rest)
  | AtFill name text rest => write_file d p name text (AtFile rest)
  | AtRename =>
      match entries d !! s_temp p with
      | Some (EDir f) =>
          match entries d !! s_key p with
          | Some EPlain => (d, at_save (AtCleanup (ArtOs "NotADirectoryError")) p)
          | Some (EDir g) =>
              if bool_decide (g = ∅) then (mkDisk (sources d) (<[s_key p := EDir f]> (delete (s_temp p) (entries d))), at_save (AtDone Saved) p)
              else (d, at_save (AtCleanup (ArtOs "OSError")) p)
          | None => (mkDisk (sources d) (<[s_key p := EDir f]> (delete (s_temp p) (entries d))), at_save (AtDone Saved) p)
          end
      | _ => (d, at_save (AtCleanup (ArtOs "FileNotFoundError")) p)
      end
  | AtCleanup e => (mkDisk (sources d) (delete (s_temp p) (entries d)), at_save (AtDone (SaveFailed e)) p)
  | AtDone _ => (d, p)
  end.

(** A history: calls of either kind begin, make their steps in any order, and
    die at any point. *)
Inductive save_event :=
| SBegin (i : nat) (a : SealedArgs) (suffix : string)
| SStep (i : nat)
| SPlain (j : nat) (u : PlainArgs)
| SPlainStep (j : nat)
| SCrash (i : nat).

(** [plains]: the saves without a seal that are under way, with the operations
    they have still to do. *)
Record SaveSystem := mkSaveSystem {
  disk : Disk; savers : gmap nat Saver; plains : gmap nat (string * string * list file_op)
}.

Definition save_exec (w : SaveSystem) (e : save_event) : SaveSystem :=
  match e with
  | SBegin i a suffix => mkSaveSystem (disk w) (<[i := mkSaver a suffix AtVerify]> (savers w)) (plains w)
  | SStep i =>
      match savers w !! i with
      | Some p => mkSaveSystem (save_step (disk w) p).1 (<[i := (save_step (disk w) p).2]> (savers w)) (plains w)
      | None => w
      end
  | SPlain j u =>
      match plain_mkdir (disk w) u with
      | (d, Some _) => mkSaveSystem d (savers w) (plains w)
      | (d, None) => mkSaveSystem d (savers w) (<[j := (u_key u, plain_ops u)]> (plains w))
      end
  | SPlainStep j =>
      match plains w !! j with
      | Some (k, o :: ops) =>
          match plain_op (disk w) k o with
          | Some d => mkSaveSystem d (savers w) (<[j := (k, ops)]> (plains w))
          | None => mkSaveSystem (disk w) (savers w) (delete j (plains w))
          end
      | _ => w
      end
  | SCrash i => mkSaveSystem (disk w) (delete i (savers w)) (delete i (plains w))
  end.

Definition save_history (d : Disk) (evs : list save_event) : SaveSystem := fold_left save_exec evs (mkSaveSystem d ∅ ∅).

(** ** What the directories hold *)

Lemma verified_id id python text ast m g fe su aa :
  verify_sealed_payload id python text ast m g fe su aa = Ok tt -> artifact_id_for_envelope g = Ok id /\ dotted id = false.
Proof.
  unfold verify_sealed_payload. intros H. apply result_bind_ok in H as (expected & He & H). rewrite He.
  destruct (bool_decide (id = expected)) eqn:E; [|done]. apply bool_decide_eq_true in E as ->. split; [done|].
  unfold artifact_id_for_envelope in He. destruct (negb _); [done|]. destruct (negb _); [done|]. apply result_bind_ok in He as (h & _ & He).
  destruct h as [| | |s| |]; try done. destruct (colon_rest s); simplify_eq. done.
Qed.

Definition verified (p : Saver) : Prop := verify_args (s_args p) = Ok tt.

Lemma verify_args_ok a : verify_args a = Ok tt ->
  verify_sealed_payload (a_id a) (a_python a) (a_text a) (a_ast a) (a_map a) (a_generated a) (a_frontend a) (a_support a)
    (a_ast_artifact a) = Ok tt /\ exists path, path_under_root [a_source a; a_id a] = Ok path.
Proof.
  unfold verify_args. destruct (negb _); [done|]. intros H. apply result_bind_ok in H as ([] & H & H'). split; [done|].
  apply result_bind_ok in H' as (path & -> & _). eauto.
Qed.

Lemma verified_key p : verified p -> dotted (s_key p).2 = false.
Proof. unfold verified. intros H. apply verify_args_ok in H as [H _]. by apply verified_id in H as [_ H]. Qed.

Lemma temp_not_key p q : verified q -> s_temp p <> s_key q.
Proof. intros Hv E. pose proof (verified_key q Hv) as H. rewrite <-E in H. simpl in H. by rewrite dotted_temp in H. Qed.

(** What the temporary directory of a call holds, by where the call stands. *)
Definition progress (a : SealedArgs) (c : save_pc) (f : files_in) : Prop :=
  match c with
  | AtFile rest => exists written, written ++ rest = sealed_files a /\ f = dir_of written
  | AtFill n t rest => exists written, written ++ (n, t) :: rest = sealed_files a /\ f = <[n := ""]> (dir_of written)
  | AtRename => f = dir_of (sealed_files a)
  | _ => envelope_first f
  end.

Lemma progress_envelope a c f : progress a c f -> envelope_first f.
Proof.
  intros H. destruct c; simpl in H; try done.
  - destruct H as (written & E & ->). apply (begun_envelope_first a). exists written, rest. split; [done|]. intros x. apply dir_of_dom.
  - destruct H as (written & E & ->). apply (begun_envelope_first a). exists (written ++ [(name, text)]), rest.
    split; [by rewrite <-app_assoc|]. intros x. rewrite <-dir_of_dom, dir_of_snoc, !lookup_insert_is_Some'. done.
  - subst f. apply (begun_envelope_first a). exists (sealed_files a), []. split; [by rewrite app_nil_r|]. intros x. apply dir_of_dom.
Qed.

Definition owning (c : save_pc) : bool := match c with AtFile _ | AtFill _ _ _ | AtRename | AtCleanup _ => true | _ => false end.

(** The artifact of a call that has succeeded: the files of the call, or files
    that hold the same generated artifact. *)
Definition same_artifact (a : SealedArgs) (f : files_in) : Prop :=
  f = dir_of (sealed_files a) \/
  exists v g, read_dir (a_id a) f = Ok v /\ v_generated v = Some g /\ same_dict g (JObj (a_generated a)) = true.

Definition holds (d : Disk) (p : Saver) : Prop :=
  verified p /\ exists f, entries d !! s_key p = Some (EDir f) /\ f <> ∅ /\ same_artifact (s_args p) f.

Section Others.

(** The names under which artifacts are saved without a seal.  None of them
    begins with a dot, as the temporary directories do. *)
Variable unsealed : string * string -> bool.
Hypothesis unsealed_undotted : forall k, unsealed k = true -> dotted k.2 = false.

(** What is true of a call. *)
Definition saver_ok (d : Disk) (p : Saver) : Prop :=
  match s_pc p with
  | AtVerify | AtDone (SaveFailed _) => True
  | AtLook | AtMkdir | AtTemp => verified p
  | AtDone Saved => unsealed (s_key p) = true \/ holds d p
  | c => verified p /\ exists f, entries d !! s_temp p = Some (EDir f) /\ progress (s_args p) c f
  end.

Lemma saver_verified d p : saver_ok d p -> owning (s_pc p) = true -> verified p /\
  exists f, entries d !! s_temp p = Some (EDir f) /\ progress (s_args p) (s_pc p) f.
Proof. unfold saver_ok. by destruct (s_pc p). Qed.

(** ** Steps *)

(** A call's step changes only its temporary directory while it owns it, and at
    the rename a name that was free or an empty directory. *)
Lemma save_step_frame d p k :
  saver_ok d p ->
  (k <> s_temp p \/ (owning (s_pc p) = false /\ is_Some (entries d !! k))) ->
  (s_pc p = AtRename -> k <> s_key p \/ exists e, entries d !! k = Some e /\ e <> EDir ∅) ->
  entries (save_step d p).1 !! k = entries d !! k.
Proof.
  intros Hok Ht Hk. destruct p as [a suffix c]. unfold save_step, write_file, put, s_key, s_temp in *. cbn [s_args s_suffix s_pc] in *.
  destruct c as [| | | |[|[n t] rest]|n t rest| |e|o]; cbn [owning] in Ht.
  - by destruct (verify_args a).
  - by destruct (entries d !! (a_source a, a_id a)).
  - done.
  - destruct (entries d !! (a_source a, temp_dir (a_id a) suffix)) as [e|] eqn:E; [done|]. simpl. apply lookup_insert_ne.
    destruct Ht as [Ht|[_ [e He]]]; [congruence|]. intros <-. congruence.
  - done.
  - destruct Ht as [Ht|[? _]]; [|done]. destruct (entries d !! (a_source a, _)) as [[f|]|]; simpl; [|done|done]. by apply lookup_insert_ne.
  - destruct Ht as [Ht|[? _]]; [|done]. destruct (entries d !! (a_source a, _)) as [[f|]|]; simpl; [|done|done]. by apply lookup_insert_ne.
  - specialize (Hk eq_refl). destruct Ht as [Ht|[? _]]; [|done]. destruct (entries d !! (a_source a, temp_dir _ _)) as [[f|]|]; simpl; [|done|done].
    destruct (entries d !! (a_source a, a_id a)) as [[g|]|] eqn:E; simpl; [|done|].
    + destruct (bool_decide (g = ∅)) eqn:Eg; simpl; [|done]. apply bool_decide_eq_true in Eg as ->.
      rewrite lookup_insert_ne, lookup_delete_ne; [done|by intros <-|]. intros <-. destruct Hk as [Hk|(e & He & Hne)]; congruence.
    + rewrite lookup_insert_ne, lookup_delete_ne; [done|by intros <-|]. intros <-. destruct Hk as [Hk|(e & He & Hne)]; congruence.
  - destruct Ht as [Ht|[? _]]; [|done]. simpl. apply lookup_delete_ne. by intros <-.
  - done.
Qed.

Lemma save_step_call d p : s_args (save_step d p).2 = s_args p /\ s_suffix (save_step d p).2 = s_suffix p.
Proof. unfold save_step, write_file. by repeat case_match. Qed.

Lemma read_dir_empty id v : read_dir id ∅ <> Ok v.
Proof. unfold read_dir, read_optional_json, read_compile_meta. rewrite !lookup_empty. done. Qed.

Lemma get_artifact_dir d id source v :
  get_artifact d id source = Ok v -> exists f, entries d !! (source, id) = Some (EDir f) /\ read_dir id f = Ok v.
Proof.
  unfold get_artifact. intros H. apply result_bind_ok in H as (path & _ & H). destruct (entries d !! _) as [[f|]|]; [by eauto| |done].
  by apply read_dir_empty in H.
Qed.

(** A call's own step keeps what is true of it. *)
Lemma save_step_ok d p : saver_ok d p -> saver_ok (save_step d p).1 (save_step d p).2.
Proof.
  destruct p as [a suffix c]. intros H. unfold save_step, saver_ok, verified, write_file, put, s_temp in *. cbn [s_args s_suffix s_pc at_save] in *.
  destruct c as [| | | |[|[n t] rest]|n t rest| |e|o].
  - by destruct (verify_args a) as [[]|] eqn:E.
  - destruct (entries d !! _) as [e|] eqn:E; [|done]. simpl. destruct (get_artifact d (a_id a) (a_source a)) as [v|] eqn:Eg; [|done].
    destruct (v_generated v) as [g|] eqn:Ev; [|done]. destruct (same_dict g _) eqn:Es; [|done].
    apply get_artifact_dir in Eg as (f & Ef & Er). right. split; [done|]. exists f. split; [exact Ef|]. split; [|right; eauto].
    intros ->. by apply read_dir_empty in Er.
  - done.
  - destruct (entries d !! (a_source a, temp_dir (a_id a) suffix)) as [e|] eqn:E; [done|]. simpl. split; [done|]. exists ∅.
    split; [apply lookup_insert_eq|]. by exists [].
  - simpl in *. destruct H as [Hv (f & Hf & written & E & ->)]. split; [done|]. eexists. split; [exact Hf|]. by rewrite app_nil_r in E; subst.
  - simpl in *. destruct H as [Hv (f & Hf & written & E & ->)]. rewrite Hf. simpl. split; [done|]. eexists. split; [apply lookup_insert_eq|]. eauto.
  - simpl in *. destruct H as [Hv (f & Hf & written & E & ->)]. rewrite Hf. simpl. split; [done|]. eexists. split; [apply lookup_insert_eq|].
    exists (written ++ [(n, t)]). split; [by rewrite <-app_assoc|]. by rewrite dir_of_snoc, insert_insert_eq.
  - simpl in H. destruct H as [Hv (f & Hf & Hd)]. rewrite Hf.
    assert (Hdone : saver_ok (mkDisk (sources d) (<[(a_source a, a_id a) := EDir f]> (delete (a_source a, temp_dir (a_id a) suffix) (entries d))))
                      (mkSaver a suffix (AtDone Saved))).
    { right. split; [done|]. exists f. split; [apply lookup_insert_eq|]. split; [|left; exact Hd]. intros ->.
      assert (Hin : is_Some (dir_of (sealed_files a) !! "diagnostics.log")).
      { apply dir_of_dom. unfold sealed_files. rewrite !fmap_app, !elem_of_app. right. do 4 right. apply list_elem_of_In. simpl. tauto. }
      rewrite <-Hd, lookup_empty in Hin. by destruct Hin. }
    assert (Hfail : forall e, verify_args a = Ok tt /\ exists f0, entries d !! (a_source a, temp_dir (a_id a) suffix) = Some (EDir f0) /\
      progress a (AtCleanup e) f0).
    { intros e. split; [done|]. exists f. split; [done|]. simpl. rewrite Hd. by apply (progress_envelope a AtRename). }
    unfold s_key. cbn [s_args]. destruct (entries d !! (a_source a, a_id a)) as [[g|]|]; [destruct (bool_decide (g = ∅))| |];
      first [exact Hdone | exact (Hfail _)].
  - done.
  - by destruct o.
Qed.

Lemma save_step_owning d p :
  owning (s_pc (save_step d p).2) = true -> owning (s_pc p) = true \/ (s_pc p = AtTemp /\ entries d !! s_temp p = None).
Proof.
  destruct p as [a suffix c]. unfold save_step, write_file, s_temp. cbn [s_args s_suffix s_pc].
  destruct c as [| | | |[|[n t] rest]|n t rest| |e|o]; cbn [owning]; try (by left).
  - by destruct (verify_args a).
  - destruct (entries d !! _); [|done]. done.
  - destruct (entries d !! _) eqn:E; [done|]. auto.
Qed.

(** Another call's step does not disturb it. *)
Lemma save_step_other d p q :
  saver_ok d p -> saver_ok d q -> (owning (s_pc p) = true -> owning (s_pc q) = true -> s_temp p <> s_temp q) ->
  saver_ok (save_step d p).1 q.
Proof.
  intros Hp Hq Hne.
  assert (Hkey : forall f, verified q -> entries d !! s_key q = Some (EDir f) -> f <> ∅ ->
    entries (save_step d p).1 !! s_key q = Some (EDir f)).
  { intros f Hv Hf Hf0. rewrite save_step_frame; [done|done| |intros _; right; exists (EDir f); split; congruence].
    left. intros E. symmetry in E. by apply temp_not_key in E. }
  assert (Htemp : forall f, owning (s_pc q) = true -> entries d !! s_temp q = Some (EDir f) ->
    entries (save_step d p).1 !! s_temp q = Some (EDir f)).
  { intros f Ho Hf. destruct (owning (s_pc p)) eqn:Eo.
    - rewrite save_step_frame; [done|done|left; intros E; by apply (Hne eq_refl Ho)|]. intros _. left. apply temp_not_key.
      by apply (saver_verified d).
    - rewrite save_step_frame; [done|done|eauto|]. intros E. by rewrite E in Eo. }
  unfold saver_ok in *. destruct (s_pc q) as [| | | | | | | |[|]] eqn:Eq; try done;
    try (destruct Hq as [Hv (f & Hf & Hpr)]; split; [done|]; exists f; split; [by apply Htemp|done]).
  destruct Hq as [Hq|[Hv (f & Hf & Hf0 & Hs)]]; [by left|]. right. split; [done|]. exists f. split; [by apply Hkey|done].
Qed.

(** Neither does a save without a seal, which works in its own directory. *)
Lemma saver_ok_frame d d' q :
  (forall k, unsealed k = false -> entries d' !! k = entries d !! k) -> saver_ok d q -> saver_ok d' q.
Proof using unsealed_undotted.
  intros Hd. assert (Htemp : entries d' !! s_temp q = entries d !! s_temp q).
  { apply Hd. destruct (unsealed (s_temp q)) eqn:E; [|done]. apply unsealed_undotted in E. simpl in E. by rewrite dotted_temp in E. }
  unfold saver_ok, holds. rewrite Htemp. destruct (s_pc q) as [| | | | | | | |[|]]; try done.
  intros [H|H]; [by left|]. destruct (unsealed (s_key q)) eqn:E; [by left|]. right. by rewrite (Hd _ E).
Qed.

(** What it changes is in its directory. *)
Lemma plain_mkdir_frame d u k : k <> u_key u -> entries (plain_mkdir d u).1 !! k = entries d !! k.
Proof.
  intros Hk. unfold plain_mkdir. destruct (path_under_root _); [|done]. destruct (entries d !! u_key u) as [[]|]; [done|done|].
  simpl. by apply lookup_insert_ne.
Qed.

Lemma plain_op_frame d k o d' k' : plain_op d k o = Some d' -> k' <> k -> entries d' !! k' = entries d !! k'.
Proof. unfold plain_op. destruct (entries d !! k) as [[f|]|]; intros; simplify_eq. simpl. by apply lookup_insert_ne. Qed.

(** What a step can leave on the disk. *)
Lemma save_step_new d p k e :
  saver_ok d p -> entries (save_step d p).1 !! k = Some e ->
  entries d !! k = Some e \/ (k = s_temp p /\ exists f, e = EDir f /\ envelope_first f) \/
  (k = s_key p /\ verified p /\ e = EDir (dir_of (sealed_files (s_args p)))).
Proof.
  destruct p as [a suffix c]. intros Hok He. unfold save_step, saver_ok, verified, write_file, put, s_temp, s_key in *.
  cbn [s_args s_suffix s_pc at_save] in *. destruct c as [| | | |[|[n t] rest]|n t rest| |e0|o]; try (by left).
  - left. by destruct (verify_args a).
  - left. by destruct (entries d !! (a_source a, a_id a)).
  - destruct (entries d !! (a_source a, temp_dir _ _)); [by left|]. simpl in He. apply lookup_insert_Some in He as [[<- <-]|[_ He]]; [|by left].
    right. left. split; [done|]. exists ∅. split; [done|]. intros Hx. rewrite lookup_empty in Hx. by destruct Hx.
  - destruct Hok as [Hv (f & Hf & written & E & ->)]. rewrite Hf in He. simpl in He.
    apply lookup_insert_Some in He as [[<- <-]|[_ He]]; [|by left]. right. left. split; [done|]. eexists. split; [done|].
    apply (progress_envelope a (AtFill n t rest)). by exists written.
  - destruct Hok as [Hv (f & Hf & written & E & ->)]. rewrite Hf in He. simpl in He.
    apply lookup_insert_Some in He as [[<- <-]|[_ He]]; [|by left]. right. left. split; [done|]. eexists. split; [done|].
    apply (progress_envelope a (AtFile rest)). exists (written ++ [(n, t)]). split; [by rewrite <-app_assoc|].
    by rewrite dir_of_snoc, insert_insert_eq.
  - destruct Hok as [Hv (f & Hf & Hd)]. rewrite Hf in He. simpl in Hd. subst f.
    assert (Hren : <[(a_source a, a_id a) := EDir (dir_of (sealed_files a))]> (delete (a_source a, temp_dir (a_id a) suffix) (entries d)) !! k
              = Some e -> entries d !! k = Some e \/ (k = (a_source a, temp_dir (a_id a) suffix) /\ exists f, e = EDir f /\ envelope_first f) \/
              (k = (a_source a, a_id a) /\ verify_args a = Ok tt /\ e = EDir (dir_of (sealed_files a)))).
    { intros [[<- <-]|[_ H]]%lookup_insert_Some; [right; right; done|]. apply lookup_delete_Some in H as [_ H]. by left. }
    destruct (entries d !! (a_source a, a_id a)) as [[g|]|]; [destruct (bool_decide (g = ∅))| |]; first [by apply Hren | by left].
  - simpl in He. apply lookup_delete_Some in He as [_ He]. by left.
Qed.

(** ** Histories *)

Section History.
Variable d0 : Disk.
(** The calls that are made. *)
Variable called : SealedArgs -> Prop.

Definition disk_ok (d : Disk) : Prop :=
  forall k e, entries d !! k = Some e ->
    entries d0 !! k = Some e \/ unsealed k = true \/
    if dotted k.2 then exists f, e = EDir f /\ envelope_first f
    else exists a, called a /\ k = (a_source a, a_id a) /\ verify_args a = Ok tt /\ e = EDir (dir_of (sealed_files a)).

Definition saves_ok (w : SaveSystem) : Prop :=
  (forall i p, savers w !! i = Some p -> saver_ok (disk w) p /\ called (s_args p)) /\
  (forall i j p q, savers w !! i = Some p -> savers w !! j = Some q -> owning (s_pc p) = true -> owning (s_pc q) = true ->
    s_temp p = s_temp q -> i = j) /\
  disk_ok (disk w) /\
  map_Forall (fun _ kops => unsealed kops.1 = true) (plains w).

Definition event_called (e : save_event) : Prop :=
  match e with SBegin _ a _ => called a | SPlain _ u => unsealed (u_key u) = true | _ => True end.

Lemma step_or_not ev : (exists i, ev = SStep i) \/ forall i, ev <> SStep i.
Proof. destruct ev; [by right|left; eauto|by right..]. Qed.

(** A save without a seal leaves everything else as it is. *)
Lemma plain_frame_ok w d' pl :
  saves_ok w -> (forall k, unsealed k = false -> entries d' !! k = entries (disk w) !! k) ->
  map_Forall (fun _ (kops : string * string * list file_op) => unsealed kops.1 = true) pl ->
  saves_ok (mkSaveSystem d' (savers w) pl).
Proof using unsealed_undotted.
  intros (Hs & Hu & Hd & _) Hf Hpl. split_and!; simpl; [|exact Hu| |exact Hpl].
  - intros i p Hi. destruct (Hs i p Hi) as [Hp Hc]. split; [by apply (saver_ok_frame (disk w))|done].
  - intros k e He. destruct (unsealed k) eqn:E; [by right; left|]. rewrite Hf in He by done. rewrite <-E. by apply Hd.
Qed.

Lemma plain_event_frame w e k :
  saves_ok w -> event_called e -> (forall i, e <> SStep i) -> unsealed k = false ->
  entries (disk (save_exec w e)) !! k = entries (disk w) !! k.
Proof.
  intros (_ & _ & _ & Hpl) He Hne Hk. destruct e as [i a suffix|i|j u|j|i]; simpl in *; try done.
  - by destruct (Hne i).
  - pose proof (plain_mkdir_frame (disk w) u k) as Hf. destruct (plain_mkdir (disk w) u) as [d [x|]]; simpl in *; apply Hf; congruence.
  - destruct (plains w !! j) as [[k0 [|o ops]]|] eqn:Ej; [done| |done]. apply Hpl in Ej. simpl in Ej.
    destruct (plain_op (disk w) k0 o) as [d|] eqn:Eo; [|done]. simpl. eapply plain_op_frame; [exact Eo|congruence].
Qed.

Lemma save_exec_ok w e : saves_ok w -> event_called e -> saves_ok (save_exec w e).
Proof using unsealed_undotted.
  intros Hok He. pose proof Hok as (Hs & Hu & Hd & Hpl). destruct e as [i a suffix|i|j u|j|i].
  3, 4: pose proof (fun k => plain_event_frame w _ k Hok He ltac:(done)) as Hf; simpl in Hf |- *.
  3:{ destruct (plain_mkdir (disk w) u) as [d [x|]]; apply plain_frame_ok; try done. by apply map_Forall_insert_2. }
  3:{ destruct (plains w !! j) as [[k0 [|o ops]]|] eqn:Ej; [done| |done]. pose proof (Hpl _ _ Ej) as Hk.
      destruct (plain_op (disk w) k0 o) as [d|]; apply plain_frame_ok; try done.
      - by apply map_Forall_insert_2.
      - by apply map_Forall_delete. }
  all: simpl.
  - split_and!; [| |exact Hd|exact Hpl]; simpl.
    + intros j p [[<- <-]|[_ Hj]]%lookup_insert_Some; [done|by apply (Hs j)].
    + intros j k p q [[<- <-]|[_ Hj]]%lookup_insert_Some [[<- <-]|[_ Hk]]%lookup_insert_Some Hp Hq E; try done. by eapply Hu.
  - destruct (savers w !! i) as [p|] eqn:Ei; [|done]. destruct (Hs i p Ei) as [Hp Hc]. destruct (save_step_call (disk w) p) as [Ea Es].
    assert (Htemp : s_temp (save_step (disk w) p).2 = s_temp p) by (unfold s_temp; by rewrite Ea, Es).
    assert (Hown : forall j q, j <> i -> savers w !! j = Some q -> owning (s_pc q) = true -> owning (s_pc (save_step (disk w) p).2) = true ->
              s_temp p <> s_temp q).
    { intros j q Hji Hj Hq Ho E. apply save_step_owning in Ho as [Ho|[_ Ho]]; [by apply Hji; eapply Hu|].
      destruct (Hs j q Hj) as [Hqo _]. apply saver_verified in Hqo as [_ (f & Hf & _)]; [|done]. congruence. }
    split_and!; simpl.
    + intros j q [[<- <-]|[Hji Hj]]%lookup_insert_Some; [split; [by apply save_step_ok|by rewrite Ea]|].
      destruct (Hs j q Hj) as [Hq Hcq]. split; [|done]. apply save_step_other; [done|done|]. intros Ho Hoq E. apply Hji. by eapply Hu.
    + intros j k q r [[<- <-]|[Hji Hj]]%lookup_insert_Some [[<- <-]|[Hki Hk]]%lookup_insert_Some Hq Hr E; [done| | |by eapply Hu].
      * exfalso. rewrite Htemp in E. by eapply (Hown k r).
      * exfalso. rewrite Htemp in E. by eapply (Hown j q).
    + intros k e He'. apply save_step_new in He' as [He'|[(-> & f & -> & Hf)|(-> & Hv & ->)]]; [by apply Hd| | |done].
      * right. right. simpl. rewrite dotted_temp. eauto.
      * right. right. rewrite (verified_key p Hv). exists (s_args p). done.
    + exact Hpl.
  - split_and!; [| |exact Hd|by apply map_Forall_delete]; simpl.
    + intros j p [_ Hj]%lookup_delete_Some. by apply (Hs j).
    + intros j k p q [_ Hj]%lookup_delete_Some [_ Hk]%lookup_delete_Some. by apply Hu.
Qed.

Lemma save_history_ok evs w : saves_ok w -> Forall event_called evs -> saves_ok (fold_left save_exec evs w).
Proof using unsealed_undotted. revert w. induction evs as [|e evs IH]; intros w Hw Hf; inversion_clear Hf; simpl; [done|]. apply IH; [by apply save_exec_ok|done]. Qed.

Lemma save_start_ok : saves_ok (mkSaveSystem d0 ∅ ∅).
Proof.
  split_and!; simpl; [intros i p H; by rewrite lookup_empty in H|intros i j p q H; by rewrite lookup_empty in H|intros k e H; by left|].
  apply map_Forall_empty.
Qed.

(** A directory with files in it, under a name that is not temporary and that
    no save without a seal has, stays as it is. *)
Lemma save_exec_stable w e k f :
  saves_ok w -> event_called e -> dotted k.2 = false -> unsealed k = false -> f <> ∅ ->
  entries (disk w) !! k = Some (EDir f) -> entries (disk (save_exec w e)) !! k = Some (EDir f).
Proof using Type.
  intros Hok Hc Hk Hun Hf He. destruct (step_or_not e) as [[i ->]|Hne]; [|by rewrite plain_event_frame].
  destruct Hok as (Hs & _). simpl. destruct (savers w !! i) as [p|] eqn:Ei; [|done]. simpl. destruct (Hs i p Ei) as [Hp _]. rewrite save_step_frame; [done|done| |].
  - left. intros ->. simpl in Hk. by rewrite dotted_temp in Hk.
  - intros _. right. exists (EDir f). split; congruence.
Qed.

Lemma save_history_stable evs w k f :
  saves_ok w -> Forall event_called evs -> dotted k.2 = false -> unsealed k = false -> f <> ∅ ->
  entries (disk w) !! k = Some (EDir f) -> entries (disk (fold_left save_exec evs w)) !! k = Some (EDir f).
Proof using unsealed_undotted.
  intros Hw Hc Hk Hun Hf. revert w Hw. induction Hc as [|e evs He Hc IH]; intros w Hw H; simpl; [done|].
  apply IH; [by apply save_exec_ok|by apply save_exec_stable].
Qed.

End History.

End Others.

(** ** Reading back *)

(** The hash, the digest and the validation of a dictionary do not depend on
    the order of its keys: they are made of its canonical text. *)
Hypothesis valid_by_value : forall s d d', sort_keys (JObj d) = sort_keys (JObj d') -> valid_payload s d = valid_payload s d'.
Hypothesis hash_by_value : forall s d d', sort_keys (JObj d) = sort_keys (JObj d') -> verify_content_hash d s = verify_content_hash d' s.
Hypothesis digest_by_value : forall c v v', sort_keys v = sort_keys v' -> digest v c = digest v' c.

Lemma sorted_same d : sort_keys (JObj (sorted_pairs d)) = sort_keys (JObj d).
Proof. rewrite <-sort_keys_object. apply sort_keys_idem. Qed.

Lemma valid_sorted s d : valid_payload s (sorted_pairs d) = valid_payload s d.
Proof using valid_by_value. apply valid_by_value, sorted_same. Qed.

Lemma hash_sorted s d : verify_content_hash (sorted_pairs d) s = verify_content_hash d s.
Proof using hash_by_value. apply hash_by_value, sorted_same. Qed.

Lemma art_key_sorted d key : NoDup (dkeys d) -> art_key (sorted_pairs d) key = let! v := art_key d key in Ok (sort_keys v).
Proof. intros Hd. unfold art_key. rewrite dget_sorted_pairs by done. by destruct (dget d key). Qed.

Lemma json_eqb_sorted a b : json_eqb a b = true -> json_eqb (sort_keys a) (sort_keys b) = true.
Proof. rewrite !json_eqb_eq. by intros ->. Qed.

Lemma field_is_sorted g key h message :
  NoDup (dkeys g) -> field_is g key h message = Ok tt -> field_is (sorted_pairs g) key (sort_keys h) message = Ok tt.
Proof.
  intros Hg H. unfold field_is in *. rewrite art_key_sorted by done. apply result_bind_ok in H as (v & -> & H). simpl.
  destruct (json_eqb v h) eqn:E; [|done]. by rewrite json_eqb_sorted.
Qed.

Lemma check_linked_sorted g payload schema key label :
  NoDup (dkeys g) -> (forall d, payload = Some d -> NoDup (dkeys d)) ->
  check_linked g payload schema key label = Ok tt ->
  check_linked (sorted_pairs g) (sorted_pairs <$> payload) schema key label = Ok tt.
Proof using valid_by_value hash_by_value.
  intros Hg Hd H. destruct payload as [d|]; [|done]. specialize (Hd d eq_refl). cbn [check_linked fmap option_fmap option_map] in *.
  rewrite valid_sorted, hash_sorted. destruct (negb _); [done|]. destruct (negb _); [done|].
  rewrite !art_key_sorted by done. apply result_bind_ok in H as (v & -> & H). apply result_bind_ok in H as (h & -> & H). simpl.
  destruct (json_eqb v h) eqn:E; [|done]. by rewrite json_eqb_sorted.
Qed.

Lemma envelope_sorted g id : NoDup (dkeys g) -> artifact_id_for_envelope g = Ok id -> artifact_id_for_envelope (sorted_pairs g) = Ok id.
Proof using valid_by_value hash_by_value.
  intros Hg H. unfold artifact_id_for_envelope in *. rewrite valid_sorted, hash_sorted. destruct (negb _); [done|]. destruct (negb _); [done|].
  rewrite art_key_sorted by done. apply result_bind_ok in H as (h & -> & H). simpl. by destruct h.
Qed.

Definition unique_keys (d : option (dict string json)) : Prop := forall x, d = Some x -> NoDup (dkeys x).

Lemma verify_sorted id python text ast m g fe su aa :
  NoDup (dkeys g) -> unique_keys fe -> unique_keys su -> unique_keys aa ->
  verify_sealed_payload id python text ast m g fe su aa = Ok tt ->
  verify_sealed_payload id python text ast (map sort_keys m) (sorted_pairs g) (sorted_pairs <$> fe) (sorted_pairs <$> su)
    (sorted_pairs <$> aa) = Ok tt.
Proof using valid_by_value hash_by_value digest_by_value.
  intros Hg Hfe Hsu Haa H. unfold verify_sealed_payload in *. apply result_bind_ok in H as (expected & He & H).
  rewrite (envelope_sorted g expected Hg He). simpl. destruct (negb _); [done|].
  apply result_bind_ok in H as ([] & H1 & H). apply result_bind_ok in H as ([] & H2 & H). apply result_bind_ok in H as ([] & H3 & H).
  apply result_bind_ok in H as (parsed & Hp & H). apply result_bind_ok in H as (expected_ast & Hx & H).
  apply result_bind_ok in H as ([] & H4 & H). apply result_bind_ok in H as ([] & H5 & H).
  apply (field_is_sorted g _ _ _ Hg) in H1, H2, H3, H4. cbn [sort_keys] in H1, H2, H3.
  assert (Hm : digest (JObj [("entries", JArr (map sort_keys m))]) generated_schema = digest (JObj [("entries", JArr m)]) generated_schema).
  { apply digest_by_value. rewrite !sort_keys_object. unfold sorted_pairs. cbn [map fst snd].
    change (JArr (map sort_keys m)) with (sort_keys (JArr m)). by rewrite sort_keys_idem. }
  rewrite H1, H2. simpl. rewrite Hm, H3, Hp. simpl.
  assert (Hx' : match sorted_pairs <$> aa with
                | None => Ok (JStr (digest parsed generated_schema))
                | Some d => if negb (valid_payload "pine.ast.v1" d) then Err ArtContract
                            else if negb (verify_content_hash d "pine.ast.v1") then Err (ArtValue "AST artifact content hash is invalid")
                            else art_key d "content_hash"
                end = Ok (sort_keys expected_ast)).
  { destruct aa as [d|]; simpl in *; [|by simplify_eq]. specialize (Haa d eq_refl). rewrite valid_sorted, hash_sorted.
    destruct (negb _); [done|]. destruct (negb _); [done|]. rewrite art_key_sorted by done. by rewrite Hx. }
  rewrite Hx'. simpl. rewrite H4. simpl. rewrite (check_linked_sorted g fe) by done. simpl. by apply check_linked_sorted.
Qed.

Definition plain_opt (d : option (dict string json)) : bool := match d with Some x => plain (JObj x) | None => true end.

(** Arguments that are what the types say: texts with line ends as Python has
    them, dictionaries with each key once, and no NaN or infinity. *)
Record writable (a : SealedArgs) : Prop := {
  w_python : str_forall not_return (a_python a) = true;
  w_text : str_forall not_return (a_text a) = true;
  w_ast : str_forall not_return (a_ast a) = true;
  w_objects : forallb is_object (a_map a) = true;
  w_meta : NoDup (dkeys (a_meta a));
  w_generated : NoDup (dkeys (a_generated a));
  w_frontend : unique_keys (a_frontend a);
  w_support : unique_keys (a_support a);
  w_ast_artifact : unique_keys (a_ast_artifact a);
  w_plain : forallb plain (JArr (a_map a) :: JObj (a_generated a) :: JObj (a_meta a) :: []) = true;
  w_plain_opt : forallb plain_opt [a_frontend a; a_support a; a_ast_artifact a] = true
}.

(** The view of an artifact that was saved. *)
Definition sealed_view (a : SealedArgs) : ArtifactView :=
  mkView (a_python a) (a_ast a) (a_text a) (sort_keys (JObj (with_defaults (a_meta a) (a_id a) (a_source a) (a_params a))))
    (Some (JArr (map sort_keys (a_map a)))) (Some (sort_keys (JObj (a_generated a))))
    ((fun d => sort_keys (JObj d)) <$> a_frontend a) ((fun d => sort_keys (JObj d)) <$> a_support a)
    ((fun d => sort_keys (JObj d)) <$> a_ast_artifact a).

Lemma setdefault_plain d k v : plain (JObj d) = true -> NoDup (dkeys d) -> plain (JObj (setdefault d k v)) = true.
Proof.
  intros Hp Hd. unfold setdefault. destruct (dmem d k); [done|]. cbn [plain] in *. rewrite forallb_forall in *. intros [k' x] Hx.
  apply list_elem_of_In, dset_elem in Hx as [[-> ->]|[_ Hx]]; [done|by apply Hp, list_elem_of_In|done].
Qed.

Lemma setdefault_NoDup d k v : NoDup (dkeys d) -> NoDup (dkeys (setdefault d k v)).
Proof. intros Hd. unfold setdefault. destruct (dmem d k); [done|]. by apply dset_NoDup. Qed.

Lemma with_defaults_plain d id source params :
  plain (JObj d) = true -> NoDup (dkeys d) -> plain (JObj (with_defaults d id source params)) = true.
Proof. intros Hp Hd. unfold with_defaults. repeat first [apply setdefault_plain | apply setdefault_NoDup]; done. Qed.

Lemma read_optional_json_text f name v :
  plain v = true -> f !! name = Some (json_text v) -> is_object v || match v with JArr _ => true | _ => false end = true ->
  read_optional_json f name = Ok (Some (sort_keys v)).
Proof.
  intros Hp Hf Hv. unfold read_optional_json, read_json. rewrite Hf, loads_json_text by done. by destruct v.
Qed.

Lemma read_optional_file f name d :
  plain_opt d = true -> f !! name = (fun x => json_text (JObj x)) <$> d ->
  read_optional_json f name = Ok ((fun x => sort_keys (JObj x)) <$> d).
Proof.
  intros Hp Hf. destruct d as [d|]; simpl in *; [by apply (read_optional_json_text f name (JObj d))|].
  unfold read_optional_json. by rewrite Hf.
Qed.

Lemma result_bind_Ok {E A B} (x : A) (k : A -> result E B) : result_bind (Ok x) k = k x.
Proof. done. Qed.

(** The files of a sealed artifact, by name. *)
Lemma sealed_lookups a :
  let f := dir_of (sealed_files a) in
  f !! "generated_strategy.py" = Some (a_python a) /\ f !! "source.pine" = Some (a_text a) /\ f !! "ast.json" = Some (a_ast a) /\
  f !! "source_map.json" = Some (json_text (JArr (a_map a))) /\
  f !! "generated_artifact.json" = Some (json_text (JObj (a_generated a))) /\
  f !! "frontend_artifact.json" = (fun x => json_text (JObj x)) <$> a_frontend a /\
  f !! "support_profile.json" = (fun x => json_text (JObj x)) <$> a_support a /\
  f !! "ast_artifact.json" = (fun x => json_text (JObj x)) <$> a_ast_artifact a /\
  f !! "compile_meta.json" = Some (json_text (JObj (with_defaults (a_meta a) (a_id a) (a_source a) (a_params a)))).
Proof.
  simpl. rewrite !dir_of_lookup by apply sealed_NoDup. unfold sealed_files.
  destruct (a_frontend a), (a_support a), (a_ast_artifact a), (a_requirements a); split_and!; reflexivity.
Qed.

Lemma as_mapping_sorted (d : option (dict string json)) label id :
  as_mapping ((fun x => sort_keys (JObj x)) <$> d) label id = Ok (sorted_pairs <$> d).
Proof.
  destruct d as [d|]; [|done]. cbn [as_mapping fmap option_fmap option_map]. rewrite sort_keys_object.
  by rewrite jdict_id by exact (sorted_pairs_NoDup d).
Qed.

Lemma objects_sorted m : forallb is_object m = true -> forallb is_object (map sort_keys m) = true.
Proof. rewrite !forallb_forall. intros H x Hx. apply in_map_iff in Hx as (y & <- & Hy). specialize (H y Hy). by destruct y. Qed.

(** What was written is what is read. *)
Lemma sealed_reads_back a : verify_args a = Ok tt -> writable a -> read_dir (a_id a) (dir_of (sealed_files a)) = Ok (sealed_view a).
Proof using valid_by_value hash_by_value digest_by_value.
  intros Hv [Hpy Htx Has Hob Hme Hge Hfe Hsu Haa Hpl Hpo]. cbn [forallb] in Hpl, Hpo. rewrite !andb_true_iff in Hpl, Hpo.
  destruct Hpl as (Hpm & Hpg & Hpd & _). destruct Hpo as (Hpf & Hps & Hpa & _). apply verify_args_ok in Hv as [Hv _].
  destruct (sealed_lookups a) as (L1 & L2 & L3 & L4 & L5 & L6 & L7 & L8 & L9). set (f := dir_of (sealed_files a)) in *.
  unfold read_dir. rewrite (read_optional_json_text f _ (JArr (a_map a))), (read_optional_json_text f _ (JObj (a_generated a))) by done.
  rewrite (read_optional_file f _ _ Hpf L6), (read_optional_file f _ _ Hps L7), (read_optional_file f _ _ Hpa L8).
  rewrite !result_bind_Ok.
  assert (T : forall n t, f !! n = Some t -> str_forall not_return t = true -> read_optional_text f n = t).
  { intros n t Hn Ht. unfold read_optional_text. rewrite Hn. simpl. by apply universal_id. }
  rewrite (T _ _ L1 Hpy), (T _ _ L2 Htx), (T _ _ L3 Has).
  assert (Hc : check_sealed (a_id a) f (Some (sort_keys (JArr (a_map a)))) (Some (sort_keys (JObj (a_generated a))))
                 ((fun x => sort_keys (JObj x)) <$> a_frontend a) ((fun x => sort_keys (JObj x)) <$> a_support a)
                 ((fun x => sort_keys (JObj x)) <$> a_ast_artifact a) = Ok tt).
  { unfold check_sealed. rewrite sort_keys_object. cbn [sort_keys]. rewrite objects_sorted, !as_mapping_sorted by done. cbn [negb result_bind].
    rewrite (T _ _ L1 Hpy), (T _ _ L2 Htx), (T _ _ L3 Has), jdict_id by exact (sorted_pairs_NoDup (a_generated a)). by apply verify_sorted. }
  rewrite Hc, result_bind_Ok. unfold read_compile_meta, read_json. rewrite L9, loads_json_text by by apply with_defaults_plain.
  rewrite sort_keys_object. reflexivity.
Qed.

(** *** The theorems *)

Definition called_in (evs : list save_event) (a : SealedArgs) : Prop := exists i suffix, SBegin i a suffix ∈ evs.

(** Saves without a seal are made under this name. *)
Definition unsealed_in (evs : list save_event) (k : string * string) : bool :=
  existsb (fun e => match e with SPlain _ u => bool_decide (u_key u = k) | _ => false end) evs.

(** No save without a seal is made under a name that begins with a dot. *)
Definition undotted_in (evs : list save_event) : Prop := forall k, unsealed_in evs k = true -> dotted k.2 = false.

Lemma event_called_in evs ev : ev ∈ evs -> event_called (unsealed_in evs) (called_in evs) ev.
Proof.
  intros H. destruct ev as [i a u|i|j u|j|i]; simpl; try done; [by exists i, u|].
  unfold unsealed_in. apply existsb_exists. exists (SPlain j u). split; [by apply list_elem_of_In|by apply bool_decide_eq_true].
Qed.

Lemma called_all evs evs' : Forall (event_called (unsealed_in (evs ++ evs')) (called_in (evs ++ evs'))) evs.
Proof. apply Forall_forall. intros ev H. apply event_called_in, elem_of_app. by left. Qed.

Lemma called_rest evs evs' : Forall (event_called (unsealed_in (evs ++ evs')) (called_in (evs ++ evs'))) evs'.
Proof. apply Forall_forall. intros ev H. apply event_called_in, elem_of_app. by right. Qed.

Lemma reached_saves_ok d0 evs evs' :
  undotted_in (evs ++ evs') -> saves_ok (unsealed_in (evs ++ evs')) d0 (called_in (evs ++ evs')) (save_history d0 evs).
Proof. intros H. apply save_history_ok; [done|apply save_start_ok|apply called_all]. Qed.

Lemma unsealed_in_app evs evs' k : unsealed_in (evs ++ evs') k = unsealed_in evs k || unsealed_in evs' k.
Proof. apply existsb_app. Qed.

Lemma sealed_dir_nonempty a : dir_of (sealed_files a) <> ∅.
Proof.
  destruct (sealed_lookups a) as (L1 & _). intros E. rewrite E, lookup_empty in L1. done.
Qed.

(** C30: saving a sealed artifact is all or nothing, and final.  Whatever sealed
    saves are made, however the steps of all saves interleave and whichever of
    them die, a directory that appears under an artifact's name holds all the
    files of a call that passed every check for that very name, and keeps them
    for ever.  The condition: no save without a seal is made under this source
    and artifact id, or under a name that begins with a dot. *)
Theorem sealed_artifact_whole d0 evs evs' source id e :
  undotted_in (evs ++ evs') -> unsealed_in (evs ++ evs') (source, id) = false ->
  entries (disk (save_history d0 evs)) !! (source, id) = Some e -> entries d0 !! (source, id) = None -> dotted id = false ->
  exists a, called_in evs a /\ a_source a = source /\ a_id a = id /\ verify_args a = Ok tt /\ e = EDir (dir_of (sealed_files a)) /\
    entries (disk (save_history d0 (evs ++ evs'))) !! (source, id) = Some e.
Proof.
  intros Hdot Hun He H0 Hid. pose proof (reached_saves_ok d0 evs evs' Hdot) as Hok.
  assert (Hok' : saves_ok (unsealed_in evs) d0 (called_in evs) (save_history d0 evs)).
  { pose proof (reached_saves_ok d0 evs []) as H. rewrite app_nil_r in H. apply H. intros k Hk. apply Hdot. by rewrite unsealed_in_app, Hk. }
  destruct Hok' as (_ & _ & Hd & _). rewrite unsealed_in_app in Hun. apply orb_false_iff in Hun as [Hun Hun'].
  destruct (Hd _ _ He) as [H|[H|H]]; [congruence|congruence|]. simpl in H. rewrite Hid in H. destruct H as (a & Hc & Ek & Hv & ->).
  injection Ek as -> ->. exists a. split_and!; [done..|]. unfold save_history. rewrite fold_left_app.
  eapply save_history_stable; [exact Hdot|exact Hok|apply called_rest|done|by rewrite unsealed_in_app, Hun|apply sealed_dir_nonempty|done].
Qed.

(** Two checked payloads with the same generated artifact have the same texts,
    as far as the digest tells. *)
Lemma same_texts id python text ast m g fe su aa id' python' text' ast' m' g' fe' su' aa' :
  verify_sealed_payload id python text ast m g fe su aa = Ok tt ->
  verify_sealed_payload id' python' text' ast' m' g' fe' su' aa' = Ok tt ->
  NoDup (dkeys g) -> NoDup (dkeys g') -> sorted_pairs g = sorted_pairs g' ->
  digest (JStr python) generated_schema = digest (JStr python') generated_schema /\
  digest (JStr text) generated_schema = digest (JStr text') generated_schema.
Proof.
  intros H H' Hg Hg' E.
  assert (Hfield : forall k h h' s s', field_is g k (JStr h) s = Ok tt -> field_is g' k (JStr h') s' = Ok tt -> h = h').
  { intros k h h' s s' F F'. apply (field_is_sorted _ _ _ _ Hg) in F. apply (field_is_sorted _ _ _ _ Hg') in F'. rewrite E in F.
    unfold field_is in F, F'. apply result_bind_ok in F as (v & Ev & F). apply result_bind_ok in F' as (v' & Ev' & F').
    assert (v = v') as <- by congruence. cbn [sort_keys] in F, F'.
    destruct (json_eqb v (JStr h)) eqn:E1; [|done]. destruct (json_eqb v (JStr h')) eqn:E2; [|done].
    apply json_eqb_eq in E1, E2. congruence. }
  unfold verify_sealed_payload in H, H'. apply result_bind_ok in H as (x & _ & H). destruct (negb _); [done|].
  apply result_bind_ok in H' as (x' & _ & H'). destruct (negb _); [done|].
  apply result_bind_ok in H as ([] & H1 & H). apply result_bind_ok in H as ([] & H2 & _).
  apply result_bind_ok in H' as ([] & H1' & H'). apply result_bind_ok in H' as ([] & H2' & _).
  split; by eapply Hfield.
Qed.

Lemma read_dir_checked id f v : read_dir id f = Ok v ->
  check_sealed id f (v_map v) (v_generated v) (v_frontend v) (v_support v) (v_ast_artifact v) = Ok tt /\
  v_python v = read_optional_text f "generated_strategy.py" /\ v_text v = read_optional_text f "source.pine".
Proof.
  unfold read_dir. intros H. do 5 (apply result_bind_ok in H as (? & _ & H)). apply result_bind_ok in H as ([] & Hc & H).
  apply result_bind_ok in H as (meta & _ & H). by simplify_eq.
Qed.

(** C31: A saved artifact reads back.  After a sealed save has reported success,
    whatever saves begin, go on or die meanwhile, [get_artifact] gives an
    artifact whose envelope is that of the call, and whose program and source
    have the digests of the call's.  The conditions: the arguments are
    [writable] (texts without carriage returns, dictionaries with unique keys,
    no NaN or infinity), and no save without a seal is made under this source
    and artifact id, or under a name that begins with a dot. *)
Theorem sealed_artifact_reads_back d0 evs evs' i p :
  undotted_in (evs ++ evs') -> unsealed_in (evs ++ evs') (s_key p) = false ->
  savers (save_history d0 evs) !! i = Some p -> s_pc p = AtDone Saved -> writable (s_args p) ->
  let a := s_args p in
  exists v g, get_artifact (disk (save_history d0 (evs ++ evs'))) (a_id a) (a_source a) = Ok v /\
    v_generated v = Some g /\ sort_keys g = sort_keys (JObj (a_generated a)) /\
    digest (JStr (v_python v)) generated_schema = digest (JStr (a_python a)) generated_schema /\
    digest (JStr (v_text v)) generated_schema = digest (JStr (a_text a)) generated_schema.
Proof using valid_by_value hash_by_value digest_by_value.
  intros Hdot Hun Hi Hpc Hw a. pose proof (reached_saves_ok d0 evs evs' Hdot) as Hok. pose proof Hok as (Hs & _ & _). destruct (Hs i p Hi) as [Hp _].
  unfold saver_ok in Hp. rewrite Hpc, Hun in Hp. destruct Hp as [Hp|[Hv (f & Hf & Hf0 & Hsame)]]; [done|]. fold a in Hsame.
  assert (Hfin : entries (disk (save_history d0 (evs ++ evs'))) !! (a_source a, a_id a) = Some (EDir f)).
  { unfold save_history. rewrite fold_left_app. eapply save_history_stable; [exact Hdot|exact Hok|apply called_rest| |exact Hun|done|exact Hf].
    exact (verified_key p Hv). }
  destruct (verify_args_ok a Hv) as [Hva [path Hpath]].
  assert (Hget : get_artifact (disk (save_history d0 (evs ++ evs'))) (a_id a) (a_source a) = read_dir (a_id a) f).
  { unfold get_artifact. by rewrite Hpath, Hfin. }
  rewrite Hget. destruct Hsame as [->|(v & g & Hr & Hg & Hd)].
  - rewrite sealed_reads_back by done. exists (sealed_view a), (sort_keys (JObj (a_generated a))). split_and!; try done. apply sort_keys_idem.
  - exists v, g. apply same_dict_eq in Hd. destruct (read_dir_checked _ _ _ Hr) as (Hc & -> & ->). rewrite Hg in Hc.
    unfold check_sealed in Hc. destruct g as [| | | | |l]; try done. destruct (v_map v) as [[| | | |m|]|]; try done.
    destruct (negb _); [done|]. do 3 (apply result_bind_ok in Hc as (? & _ & Hc)).
    split; [done|]. split; [done|]. split; [exact Hd|]. eapply same_texts; [exact Hc|exact Hva|apply jdict_NoDup|apply Hw|].
    rewrite sorted_pairs_jdict. by injection Hd.
Qed.

(** ** What a dead save leaves behind *)

(** The directory of no call that is under way. *)
Definition abandoned (w : SaveSystem) (k : string * string) (e : entry) : Prop :=
  entries (disk w) !! k = Some e /\ dotted k.2 = true /\
  forall j q, savers w !! j = Some q -> owning (s_pc q) = true -> s_temp q <> k.

Lemma abandoned_stays d0 called unsealed w ev k e :
  (forall k, unsealed k = true -> dotted k.2 = false) -> saves_ok unsealed d0 called w -> event_called unsealed called ev ->
  abandoned w k e -> abandoned (save_exec w ev) k e.
Proof.
  intros Hdot Hok Hev (He & Hk & Hn). assert (Hun : unsealed k = false).
  { destruct (unsealed k) eqn:E; [|done]. apply Hdot in E. congruence. }
  destruct (step_or_not ev) as [[i ->]|Hne]; simpl.
  - destruct (savers w !! i) as [p|] eqn:Ei; [|done]. destruct Hok as (Hs & _). destruct (Hs i p Ei) as [Hp _].
    destruct (save_step_call (disk w) p) as [Ea Es]. split_and!; simpl; [|done|].
    + rewrite (save_step_frame unsealed); [done|done| |].
      * destruct (owning (s_pc p)) eqn:Eo; [left; intros E; by apply (Hn i p Ei Eo)|right; by eauto].
      * intros Erename. left. intros ->. rewrite (verified_key p) in Hk; [done|]. unfold saver_ok in Hp. rewrite Erename in Hp. by destruct Hp.
    + intros j q [[<- <-]|[_ Hj]]%lookup_insert_Some Ho; [|by eapply Hn].
      assert (Et : s_temp (save_step (disk w) p).2 = s_temp p) by (unfold s_temp; by rewrite Ea, Es). rewrite Et.
      apply save_step_owning in Ho as [Ho|[_ Ho]]; [exact (Hn i p Ei Ho)|]. intros E. rewrite E in Ho. congruence.
  - split_and!; [|done|].
    + by rewrite (plain_event_frame unsealed d0 called).
    + destruct ev as [i a suffix|i|j u|j|i]; simpl; [|by destruct (Hne i)| | |].
      * intros j q [[<- <-]|[_ Hj]]%lookup_insert_Some Ho; [done|by eapply Hn].
      * by destruct (plain_mkdir (disk w) u) as [d [x|]].
      * destruct (plains w !! j) as [[k0 [|o ops]]|]; [done| |done]. by destruct (plain_op (disk w) k0 o).
      * intros j q [_ Hj]%lookup_delete_Some. exact (Hn j q Hj).
Qed.

Lemma abandoned_forever d0 called unsealed evs w k e :
  (forall k, unsealed k = true -> dotted k.2 = false) ->
  saves_ok unsealed d0 called w -> Forall (event_called unsealed called) evs -> abandoned w k e -> abandoned (fold_left save_exec evs w) k e.
Proof.
  intros Hdot Hw Hc. revert w Hw. induction Hc as [|ev evs He Hc IH]; intros w Hw H; simpl; [done|].
  apply IH; [by apply save_exec_ok|by eapply abandoned_stays].
Qed.

Definition past_mkdir (c : save_pc) : bool := match c with AtTemp => true | c => owning c end.

Definition sources_ok (w : SaveSystem) : Prop :=
  forall i p, savers w !! i = Some p -> past_mkdir (s_pc p) = true -> a_source (s_args p) ∈ sources (disk w).

Lemma save_step_sources d p : sources (save_step d p).1 = sources d \/ sources (save_step d p).1 = {[a_source (s_args p)]} ∪ sources d.
Proof. unfold save_step, write_file, put. repeat case_match; simpl; auto. Qed.

Lemma save_step_past d p : past_mkdir (s_pc (save_step d p).2) = true ->
  past_mkdir (s_pc p) = true \/ a_source (s_args p) ∈ sources (save_step d p).1.
Proof.
  destruct p as [a suffix c]. unfold save_step, write_file. cbn [s_args s_pc s_suffix].
  destruct c as [| | | |[|[n t] rest]|n t rest| |e|o]; cbn [past_mkdir owning]; try (by left).
  - by destruct (verify_args a).
  - by destruct (entries d !! _).
  - intros _. right. simpl. apply elem_of_union. left. by apply elem_of_singleton.
Qed.

Lemma save_exec_sources w ev s : s ∈ sources (disk w) -> s ∈ sources (disk (save_exec w ev)).
Proof.
  intros Hs. destruct ev as [i a suffix|i|j u|j|i]; simpl; [done| | | |done].
  - destruct (savers w !! i) as [p|]; [|done]. simpl. destruct (save_step_sources (disk w) p) as [-> | ->]; [done|]. apply elem_of_union. by right.
  - unfold plain_mkdir. destruct (path_under_root _); [|done].
    destruct (entries (disk w) !! u_key u) as [[f|]|]; simpl; apply elem_of_union; by right.
  - destruct (plains w !! j) as [[k0 [|o ops]]|]; [done| |done]. unfold plain_op. by destruct (entries (disk w) !! k0) as [[f|]|].
Qed.

Lemma sources_exec w ev : sources_ok w -> sources_ok (save_exec w ev).
Proof.
  intros Hs j q Hj Hq. assert (Hold : savers w !! j = Some q -> a_source (s_args q) ∈ sources (disk (save_exec w ev))).
  { intros H. apply save_exec_sources. by eapply Hs. }
  destruct ev as [i a suffix|i|i u|i|i]; simpl in Hj.
  - apply lookup_insert_Some in Hj as [[<- <-]|[_ Hj]]; [done|by apply Hold].
  - simpl in Hold |- *. destruct (savers w !! i) as [p|] eqn:Ei; [|by apply Hold]. simpl in *.
    apply lookup_insert_Some in Hj as [[<- <-]|[_ Hj]]; [|by apply Hold].
    destruct (save_step_call (disk w) p) as [Ea _]. rewrite Ea. apply save_step_past in Hq as [Hq|Hq]; [|done].
    pose proof (save_exec_sources w (SStep i) (a_source (s_args p))) as Hg. simpl in Hg. rewrite Ei in Hg. apply Hg. by eapply Hs.
  - apply Hold. by destruct (plain_mkdir (disk w) u) as [d [x|]].
  - apply Hold. destruct (plains w !! i) as [[k0 [|o ops]]|]; [done| |done]. by destruct (plain_op (disk w) k0 o).
  - apply Hold. by apply lookup_delete_Some in Hj as [_ Hj].
Qed.

Lemma sources_grow evs w s : s ∈ sources (disk w) -> s ∈ sources (disk (fold_left save_exec evs w)).
Proof. revert w. induction evs as [|ev evs IH]; intros w Hs; simpl; [done|]. by apply IH, save_exec_sources. Qed.

(** A temporary directory cannot be read as an artifact. *)
Lemma temporary_unreadable d id source f v :
  entries d !! (source, id) = Some (EDir f) -> dotted id = true -> envelope_first f -> get_artifact d id source <> Ok v.
Proof.
  intros Hf Hid He H. apply get_artifact_dir in H as (f' & Hf' & Hr). rewrite Hf in Hf'. simplify_eq.
  unfold read_dir in Hr. apply result_bind_ok in Hr as (map_ & _ & Hr). apply result_bind_ok in Hr as (g & Hg & Hr).
  do 3 (apply result_bind_ok in Hr as (? & _ & Hr)). apply result_bind_ok in Hr as ([] & Hc & Hr).
  apply result_bind_ok in Hr as (meta & Hm & _). unfold read_compile_meta in Hm. destruct (f' !! "compile_meta.json") as [t|] eqn:Et; [|done].
  destruct (He ltac:(by rewrite Et)) as [tg Etg]. unfold read_optional_json in Hg. rewrite Etg in Hg.
  apply result_bind_ok in Hg as (v' & _ & Hg). assert (Hsome : exists j, g = Some j) by (destruct v'; simplify_eq; eauto).
  destruct Hsome as [j ->]. unfold check_sealed in Hc. destruct j as [| | | | |l]; try done. destruct map_ as [[| | | |m|]|]; try done.
  destruct (negb _); [done|]. do 3 (apply result_bind_ok in Hc as (? & _ & Hc)). apply verified_id in Hc as [_ Hc]. congruence.
Qed.

Lemma listed d source id f : entries d !! (source, id) = Some (EDir f) -> id ∈ dirs_of d source.
Proof.
  intros H. unfold dirs_of. rewrite elem_of_sort_by, list_elem_of_omap. exists (source, id, EDir f).
  split; [by apply elem_of_map_to_list|]. simpl. by rewrite bool_decide_true.
Qed.

(** A save that dies leaves its source unlistable.  Once a process has died
    between the creation of the temporary directory and the rename,
    [list_artifacts] of that source raises, for ever, whatever other saves do:
    nobody removes the directory, and it is no artifact. *)
Theorem dead_save_blocks_listing d0 evs evs' i p v :
  undotted_in (evs ++ SCrash i :: evs') -> savers (save_history d0 evs) !! i = Some p -> owning (s_pc p) = true ->
  list_artifacts (disk (save_history d0 (evs ++ SCrash i :: evs'))) (a_source (s_args p)) <> Ok v.
Proof.
  intros Hdot Hi Ho Hl. set (all := evs ++ SCrash i :: evs') in *.
  pose proof (reached_saves_ok d0 evs (SCrash i :: evs') Hdot) as Hok. fold all in Hok.
  pose proof Hok as (Hs & Hu & _). destruct (Hs i p Hi) as [Hp _]. apply saver_verified in Hp as [_ (f & Hf & Hpr)]; [|done].
  apply progress_envelope in Hpr.
  assert (Hab : abandoned (save_exec (save_history d0 evs) (SCrash i)) (s_temp p) (EDir f)).
  { split_and!; [done|apply dotted_temp|]. simpl. intros j q [Hij Hj]%lookup_delete_Some Hoq E. apply Hij. eapply Hu; try done. }
  assert (Hfin : abandoned (save_history d0 all) (s_temp p) (EDir f)).
  { pose proof (called_rest evs (SCrash i :: evs')) as Hc. fold all in Hc. apply Forall_cons in Hc as [_ Hc].
    unfold all, save_history. rewrite fold_left_app. cbn [fold_left].
    eapply abandoned_forever; [exact Hdot|apply save_exec_ok; [exact Hdot|exact Hok|done]|exact Hc|exact Hab]. }
  assert (Hsrc : a_source (s_args p) ∈ sources (disk (save_history d0 all))).
  { unfold all, save_history. rewrite fold_left_app. apply sources_grow.
    assert (Hso : sources_ok (save_history d0 evs)).
    { unfold save_history. assert (H0 : sources_ok (mkSaveSystem d0 ∅ ∅)) by (intros j q Hj; simpl in Hj; by rewrite lookup_empty in Hj).
      clear -H0. revert H0. generalize (mkSaveSystem d0 ∅ ∅). induction evs as [|ev evs IH]; intros w Hw; simpl; [done|]. by apply IH, sources_exec. }
    apply (Hso i p Hi). by destruct (s_pc p). }
  destruct Hfin as (He & Hdn & _). unfold list_artifacts in Hl. apply result_bind_ok in Hl as (path & _ & Hl).
  rewrite bool_decide_true in Hl by done. apply result_map_ok in Hl. pose proof (listed _ _ _ _ He) as Hin.
  apply list_elem_of_lookup in Hin as [n Hn]. destruct (Forall2_lookup_l _ _ _ _ _ Hl Hn) as (x & _ & Hx).
  by eapply temporary_unreadable.
Qed.

(** ** Paths that are accepted *)

Definition one_component (c : string) : Prop :=
  c <> "" /\ c <> "." /\ c <> ".." /\ str_forall (fun x => negb (Ascii.eqb x "/")) c = true.

Lemma split_parts s : Forall (fun p => str_forall (fun x => negb (Ascii.eqb x "/")) p = true) (split_on "/" s).
Proof.
  induction s as [|c s IH]; [by repeat constructor|]. simpl. destruct (Ascii.eqb c "/") eqn:E; [by constructor|].
  destruct (split_on "/" s) as [|p ps]; [constructor; [|done]; simpl; by rewrite E|].
  inversion_clear IH as [|? ? Hp Hps]. constructor; [|done]. simpl. by rewrite E.
Qed.

Lemma split_whole s : str_forall (fun x => negb (Ascii.eqb x "/")) s = true -> split_on "/" s = [s].
Proof.
  induction s as [|c s IH]; [done|]. simpl. rewrite andb_true_iff. intros [Hc Hs]. destruct (Ascii.eqb c "/"); [done|]. by rewrite IH.
Qed.

Lemma valid_component_iff c : valid_component c = true <-> one_component c.
Proof.
  unfold valid_component, one_component. rewrite !andb_true_iff, !negb_true_iff, orb_false_iff, !bool_decide_eq_true, !bool_decide_eq_false.
  unfold str_truthy. rewrite negb_true_iff, bool_decide_eq_false. split.
  - intros [[[H1 _] H2] [H3 H4]]. split_and!; try done. rewrite <-H2. unfold path_name.
    destruct (last (List.filter _ (split_on "/" c))) as [p|] eqn:El; [|done]. simpl.
    apply last_Some_elem_of, list_elem_of_In, filter_In in El as [El _]. pose proof (split_parts c) as Hp. rewrite Forall_forall in Hp.
    apply Hp. by apply list_elem_of_In.
  - intros (H1 & H2 & H3 & H4). split_and!; try done.
    + destruct c as [|x c]; [done|]. cbn [String.prefix str_forall] in *. apply andb_true_iff in H4 as [H4 _].
      destruct (ascii_dec "/" x) as [<-|]; done.
    + unfold path_name. rewrite split_whole by done. simpl. by rewrite !bool_decide_false.
Qed.

(** A path that is accepted is the root with the given names below it, none of
    which is a path of its own, and it leads nowhere else even through symbolic
    links. *)
Theorem accepted_path_confined parts path :
  path_under_root parts = Ok path -> path = root ++ parts /\ Forall one_component parts /\ resolve root `prefix_of` resolve path.
Proof.
  unfold path_under_root. intros H. apply result_bind_ok in H as (us & Hp & H). destruct (bool_decide _) eqn:E; [|done].
  apply bool_decide_eq_true in E. simplify_eq. split_and!; [done| |done]. apply result_map_ok in Hp.
  apply Forall_forall. intros c Hc. apply list_elem_of_lookup in Hc as [n Hn]. destruct (Forall2_lookup_l _ _ _ _ _ Hp Hn) as (u & _ & Hu).
  simpl in Hu. destruct (valid_component c) eqn:Ec; [|done]. by apply valid_component_iff.
Qed.

End Store.

(** ** Concrete histories *)

Module ArtifactDemo.

Definition digest (v : json) (c : string) : string := dumps_compact (sort_keys v).
Definition yes (s : string) (d : dict string json) : bool := true.
Definition yes_hash (d : dict string json) (s : string) : bool := true.

Definition generated (text : string) : dict string json :=
  [("content_hash", JStr "sha256:0123456789abcdef0123"); ("source_hash", JStr (digest (JStr text) ""));
   ("emitted_module_hash", JStr (digest (JStr "pass") "")); ("source_map_hash", JStr (digest (JObj [("entries", JArr [])]) ""));
   ("ast_hash", JStr (digest (JObj []) ""))].
Definition id : string := "art_0123456789abcdef".
Definition args (text : string) : SealedArgs :=
  mkSealedArgs id "src" "params" "pass" [("warnings", JArr [])] text "{}" [] (generated text) None None None None "".

Definition empty_disk : Disk := mkDisk ∅ ∅.
Definition history := save_history yes yes_hash digest ["data"] (fun p => p).
Definition get (w : SaveSystem) := get_artifact yes yes_hash digest ["data"] (fun p => p) (disk w) id "src".
Definition at_end (w : SaveSystem) (i : nat) : option save_pc := s_pc <$> savers w !! i.

Definition one_save (text : string) : list save_event := SBegin 0 (args text) "aaaaaaaa" :: replicate 20 (SStep 0).
(** Two saves of one artifact, step by step in turn. *)
Definition two_saves : list save_event :=
  [SBegin 0 (args "x") "aaaaaaaa"; SBegin 1 (args "x") "bbbbbbbb"] ++ concat (replicate 21 [SStep 0; SStep 1]).
Definition half_save : list save_event := SBegin 0 (args "x") "aaaaaaaa" :: replicate 9 (SStep 0).

Definition unsealed_args : PlainArgs := mkPlainArgs id "src" "params" (Some "other") [] None None None "".
Definition elsewhere : PlainArgs := mkPlainArgs "draft" "src" "params" (Some "other") [] None None None "".
(** A save without a seal of another artifact, between the steps of a sealed one. *)
Definition mixed_saves : list save_event :=
  [SBegin 0 (args "x") "aaaaaaaa"; SPlain 7 elsewhere] ++ concat (replicate 21 [SStep 0; SPlainStep 7]).

Lemma undotted_mixed evs : unsealed_in evs = unsealed_in [SPlain 7 elsewhere] -> undotted_in evs.
Proof. intros E k. rewrite E. simpl. rewrite orb_false_r, bool_decide_eq_true. by intros <-. Qed.

Lemma by_value : forall c v v', sort_keys v = sort_keys v' -> digest v c = digest v' c.
Proof. unfold digest. by intros c v v' ->. Qed.

Lemma writable_args : writable (args "x").
Proof. constructor; try (vm_compute; reflexivity); try (by intros ? [=]); apply (bool_decide_unpack _); vm_compute; exact I. Qed.

End ArtifactDemo.

Lemma sealed_artifact_whole_witness :
  exists a, called_in ArtifactDemo.mixed_saves a /\ verify_args ArtifactDemo.yes ArtifactDemo.yes_hash ArtifactDemo.digest ["data"] (fun p => p) a = Ok tt.
Proof.
  destruct (sealed_artifact_whole ArtifactDemo.yes ArtifactDemo.yes_hash ArtifactDemo.digest ["data"] (fun p => p) ArtifactDemo.empty_disk
    ArtifactDemo.mixed_saves ArtifactDemo.half_save "src" ArtifactDemo.id (EDir (dir_of (sealed_files (ArtifactDemo.args "x")))))
    as (a & H1 & _ & _ & H2 & _); [by apply ArtifactDemo.undotted_mixed|vm_compute; reflexivity|vm_compute; reflexivity|vm_compute; reflexivity|reflexivity|].
  exists a. exact (conj H1 H2).
Defined.

Lemma sealed_artifact_reads_back_witness :
  exists v g, ArtifactDemo.get (ArtifactDemo.history ArtifactDemo.empty_disk (ArtifactDemo.mixed_saves ++ ArtifactDemo.half_save)) = Ok v /\
    v_generated v = Some g.
Proof.
  destruct (sealed_artifact_reads_back ArtifactDemo.yes ArtifactDemo.yes_hash ArtifactDemo.digest ["data"] (fun p => p)
    (fun _ _ _ _ => eq_refl) (fun _ _ _ _ => eq_refl) ArtifactDemo.by_value ArtifactDemo.empty_disk ArtifactDemo.mixed_saves
    ArtifactDemo.half_save 0%nat (mkSaver (ArtifactDemo.args "x") "aaaaaaaa" (AtDone Saved))) as (v & g & H1 & H2 & _);
    [by apply ArtifactDemo.undotted_mixed|vm_compute; reflexivity|vm_compute; reflexivity|reflexivity|exact ArtifactDemo.writable_args|].
  exists v, g. exact (conj H1 H2).
Defined.

Lemma dead_save_blocks_listing_witness :
  list_artifacts ArtifactDemo.yes ArtifactDemo.yes_hash ArtifactDemo.digest ["data"] (fun p => p)
    (disk (ArtifactDemo.history ArtifactDemo.empty_disk (ArtifactDemo.half_save ++ SCrash 0 :: []))) "src" <> Ok [].
Proof.
  apply (dead_save_blocks_listing ArtifactDemo.yes ArtifactDemo.yes_hash ArtifactDemo.digest ["data"] (fun p => p) ArtifactDemo.empty_disk
    ArtifactDemo.half_save [] 0%nat (mkSaver (ArtifactDemo.args "x") "aaaaaaaa" (AtFill "ast.json" "{}" (drop 3 (sealed_files (ArtifactDemo.args "x"))))));
    [by intros k|vm_compute; reflexivity|reflexivity].
Defined.

(** Two processes that save the same artifact at the same time: one of them is
    told that it failed, although the artifact is the very one it saves. *)
Example second_save_fails :
  let w := ArtifactDemo.history ArtifactDemo.empty_disk ArtifactDemo.two_saves in
  ArtifactDemo.at_end w 0 = Some (AtDone Saved) /\ ArtifactDemo.at_end w 1 = Some (AtDone (SaveFailed (ArtOs "OSError"))) /\
  is_ok (ArtifactDemo.get w) = true.
Proof. vm_compute. auto. Qed.

(** A source with carriage returns is saved and cannot be read again: it is read
    with other line ends than it was hashed with. *)
Example carriage_return_unreadable :
  let text := "a" +:+ String "013" (String "010" "b") in
  let w := ArtifactDemo.history ArtifactDemo.empty_disk (ArtifactDemo.one_save text) in
  ArtifactDemo.at_end w 0 = Some (AtDone Saved) /\
  ArtifactDemo.get w = Err (ArtValue "generated artifact source hash does not match source bytes").
Proof. vm_compute. auto. Qed.

(** A save without a seal under the name of a sealed artifact replaces its
    program; the artifact can then be neither read nor saved again. *)
Example unsealed_save_breaks_sealed :
  let w := ArtifactDemo.history ArtifactDemo.empty_disk (ArtifactDemo.one_save "x") in
  let d := (save_unsealed ["data"] (fun p => p) (disk w) ArtifactDemo.unsealed_args).1 in
  get_artifact ArtifactDemo.yes ArtifactDemo.yes_hash ArtifactDemo.digest ["data"] (fun p => p) d ArtifactDemo.id "src"
    = Err (ArtValue "generated artifact emitted module hash does not match Python bytes") /\
  ArtifactDemo.at_end (ArtifactDemo.history d (ArtifactDemo.one_save "x")) 0
    = Some (AtDone (SaveFailed (ArtValue "generated artifact emitted module hash does not match Python bytes"))).
Proof. vm_compute. auto. Qed.
