(* ===== verification/RunBinding.v ===== *)
(** Admitting a run and binding what it executes: the rest of
    [openpine/run_identity.py].

    The contracts' validation, content hash, sealing and [admit] are
    parameters, as is the digest of [ast2python].  Mappings are dictionaries of
    JSON values.  What the functions read of the build, the random name of the
    temporary file and the directory of identities are inputs. *)

From Stdlib Require Import Ascii.
From S2P Require Import Prelude Json Admission RunIdentity BuildIdentity.

(** What can be raised: an [AdmitError], the contracts' schema error, a missing
    build identity, an operating-system error, a missing key.  [Outside]: a
    value of a sealed payload that is not the text the code put there. *)
Inductive RunError :=
| RAdmit (e : AdmitError)
| RSchema
| RBuild (message : string)
| ROs (name : string)
| RKey (key : string)
| ROutside.

Definition refuse {A} (message code : string) : result RunError A := Err (RAdmit (mkAdmitError message code)).

Definition admitted {A} (r : result AdmitError A) : result RunError A :=
  match r with Ok a => Ok a | Err e => Err (RAdmit e) end.

Definition text_of (v : option json) : option string := match v with Some (JStr s) => Some s | _ => None end.

(** [d.update(rows)]. *)
Definition dupdate (d rows : dict string json) : dict string json := fold_left (fun d kv => dset d kv.1 kv.2) rows d.

Definition require_key (d : dict string json) (key : string) : result RunError json :=
  match dget d key with Some v => Ok v | None => Err (RKey key) end.

Definition require_text (d : dict string json) (key : string) : result RunError string :=
  let! v := require_key d key in match v with JStr s => Ok s | _ => Err ROutside end.

Definition wheel_rows (ws : list WheelIdentity) : json :=
  JArr (map (fun w : WheelIdentity => JObj [("name", JStr w.1.1); ("version", JStr w.1.2); ("content_hash", JStr w.2)]) ws).

Definition hash_rows (l : list (string * string)) : json := JObj (map (fun kv => (kv.1, JStr kv.2)) l).

Definition artifact_schema : string := "openpine.generated_artifact.v2".
Definition run_schema : string := "openpine.run.v2".
Definition context_schema : string := "openpine.execution_context.v1".

#[local] Set Default Proof Using "Type".

Section Binding.
(** [validate_payload] without its error, [verify_content_hash], [content_hash] and
    [seal_content_hash]. *)
Variable valid_payload : string -> dict string json -> bool.
Variable verify_content_hash : dict string json -> string -> bool.
Variable content_hash : json -> string -> string.
Variable seal_content_hash : dict string json -> string -> dict string json.

Context {RunMode : Type} `{EqDecision RunMode}.
Variables LIVE PAPER : RunMode.
Variable RunMode_of : string -> option RunMode.
Variable mode_value : RunMode -> string.
Variable contracts_admit : AdmitRequest -> AdmitPolicy -> result AdmitError AdmitResult.

(** ** The sealed artifact *)

Definition artifact_envelope (artifact : dict string json) : option (dict string json) :=
  match dget artifact "generated_artifact" with Some (JObj l) => Some (jdict l) | _ => None end.

(** The function [generated_artifact_hash]. *)
Definition sealed_artifact_hash (artifact : dict string json) : result RunError string :=
  match artifact_envelope artifact with
  | None => refuse "sealed generated artifact is required" "GENERATED_ARTIFACT_IDENTITY_REQUIRED"
  | Some envelope =>
      if negb (valid_payload artifact_schema envelope)
      then refuse "generated artifact schema is invalid" "GENERATED_ARTIFACT_IDENTITY_INVALID"
      else if negb (verify_content_hash envelope artifact_schema)
      then refuse "generated artifact content hash is invalid" "GENERATED_ARTIFACT_HASH_MISMATCH"
      else match dget envelope "content_hash" with
           | Some (JStr h) => Ok h
           | _ => refuse "generated artifact content hash is missing" "GENERATED_ARTIFACT_HASH_MISMATCH"
           end
  end.

(** [verified_generated_source]: the text that is encoded; [source_digest] is
    [_digest] of [ast2python]. *)
Definition verified_generated_source (source_digest : string -> string -> string) (artifact : dict string json) : result RunError string :=
  let! _ := sealed_artifact_hash artifact in
  match dget artifact "python_code" with
  | Some (JStr source) =>
      if negb (str_truthy source)
      then refuse "sealed generated artifact Python source is required" "GENERATED_ARTIFACT_IDENTITY_REQUIRED"
      else
        let expected := artifact_envelope artifact ≫= fun e => dget e "emitted_module_hash" in
        let actual := source_digest source artifact_schema in
        if match expected with Some (JStr h) => bool_decide (h = actual) | _ => false end then Ok source
        else refuse "generated artifact emitted module hash mismatch" "GENERATED_ARTIFACT_HASH_MISMATCH"
  | _ => refuse "sealed generated artifact Python source is required" "GENERATED_ARTIFACT_IDENTITY_REQUIRED"
  end.

(** ** The identity of a run *)

(** [persist_run_identity], run alone: seven steps take it to its end. *)
Fixpoint publish (fuel : nat) (s : Store) (p : Publisher) : Store * option outcome :=
  match p_pc p, fuel with
  | AtEnd o, _ => (s, Some o)
  | _, O => (s, None)
  | _, S n => let '(s', p') := pstep s p in publish n s' p'
  end.

Definition persist_run_identity (s : Store) (run_id : string) (payload : dict string json) (uuid : string) : Store * result RunError unit :=
  match publish 7 s (mkPublisher run_id (JObj payload) uuid AtOpen) with
  | (s', Some Published) => (s', Ok tt)
  | (s', Some (Failed m c)) => (s', refuse m c)
  | (s', Some (OsFailed n)) => (s', Err (ROs n))
  | (s', None) => (s', Err ROutside)
  end.

(** What is read of the build: [current_build_identity]. *)
Definition built (b : result string BuildIdentity) : result RunError BuildIdentity :=
  match b with Ok b => Ok b | Err m => Err (RBuild m) end.

(** The payload of [_run_payload], before it is sealed. *)
Definition run_fields (serializer alg : string) (d : DeploymentAdmissionIdentity) (run : RunAdmissionIdentity) (m : RunMode)
    (b : BuildIdentity) (run_id : string) (created : Z) : dict string json :=
  [("schema_id", JStr run_schema); ("schema_version", JStr "2.1.0"); ("producer", JStr "openpine");
   ("producer_version", JStr (contract_version b)); ("producer_commit", JStr (b_commit b));
   ("stack_id", JStr (stack_id d)); ("created_at_utc_ms", num_int created);
   ("serializer_id", JStr serializer); ("content_hash_alg", JStr alg);
   ("run_id", JStr run_id); ("run_mode", JStr (mode_value m)); ("state", JStr "ADMITTED");
   ("stack_manifest_hash", JStr (run_stack_manifest_hash run));
   ("wheel_identities", wheel_rows (run_wheel_identities run));
   ("schema_hashes", hash_rows (map_to_list (run_schema_hashes run)));
   ("generated_artifact_hash", JStr (generated_artifact_hash run));
   ("data_snapshot_hash", JStr (data_snapshot_hash run));
   ("semantic_profile", JStr (semantic_profile run)); ("finality_policy", JStr (finality_policy run));
   ("warmup_policy", JStr (warmup_policy run)); ("score_policy", JStr (score_policy run));
   ("required_capabilities", JArr (map JStr (required_capabilities run)))].

(** [SERIALIZER_ID] and [CONTENT_HASH_ALG] of the contracts. *)
Variables SERIALIZER_ID CONTENT_HASH_ALG : string.

(** [_run_payload]. *)
Definition run_payload (build : result string BuildIdentity) (d : DeploymentAdmissionIdentity) (run : RunAdmissionIdentity)
    (mode run_id : string) (created : Z) : result RunError (dict string json) :=
  let! b := built build in
  let! m := admitted (parse_run_mode RunMode_of mode) in
  let sealed := seal_content_hash (run_fields SERIALIZER_ID CONTENT_HASH_ALG d run m b run_id created) run_schema in
  if valid_payload run_schema sealed then Ok sealed else Err RSchema.

(** What a run asks for: the policies of [admit_and_persist_run_identity]. *)
Record RunPolicies := mkPolicies {
  rp_semantic : string; rp_finality : string; rp_warmup : string; rp_score : string; rp_capabilities : list string
}.

Definition own_run (d : DeploymentAdmissionIdentity) (artifact_hash snapshot : string) (ps : RunPolicies) : RunAdmissionIdentity :=
  mkRun (stack_manifest_hash d) (wheel_identities d) (schema_hashes d) artifact_hash snapshot
        (rp_semantic ps) (rp_finality ps) (rp_warmup ps) (rp_score ps) (rp_capabilities ps).

(** The query that is hashed names the run's finality policy. *)
Definition run_query (q : SnapshotQuery) (ps : RunPolicies) : SnapshotQuery :=
  mkSnapshotQuery (sq_exchange q) (sq_market q) (sq_symbol q) (sq_timeframe q) (sq_start q) (sq_end q) (rp_finality ps).

Definition manifest_matches (manifest : dict string json) (d : DeploymentAdmissionIdentity) : bool :=
  match dget manifest "manifest_hash" with Some (JStr h) => bool_decide (h = stack_manifest_hash d) | _ => false end.

Definition manifest_component (manifest : dict string json) (name : string) : option (dict string json) :=
  match dget manifest "components" with
  | Some (JObj cs) => match dget (jdict cs) name with Some (JObj c) => Some (jdict c) | _ => None end
  | _ => None
  end.

Definition producer_commit_of (manifest : dict string json) : option string :=
  c ← manifest_component manifest "openpine"; text_of (dget c "sha").

(** Everything of [admit_and_persist_run_identity] before the file. *)
Definition admit_identity (build : result string BuildIdentity) (d : DeploymentAdmissionIdentity) (manifest : dict string json)
    (mode run_id : string) (artifact : dict string json) (q : SnapshotQuery) (bars supplemental : list bar_row)
    (ps : RunPolicies) (created : Z) : result RunError (dict string json) :=
  if negb (manifest_matches manifest d) then refuse "admitted manifest does not match deployment identity" "ADMISSION_IDENTITY_INVALID"
  else
    match producer_commit_of manifest with
    | Some commit =>
        if negb (is_sha40 commit) then refuse "admitted OpenPine producer commit is required" "ADMISSION_IDENTITY_INVALID"
        else
          let! artifact_hash := sealed_artifact_hash artifact in
          let! snapshot := admitted (execution_data_snapshot_hash content_hash (run_query q ps) bars supplemental) in
          let run := own_run d artifact_hash snapshot ps in
          let! m := admitted (parse_run_mode RunMode_of mode) in
          let! _ := admitted (admit_run LIVE PAPER mode_value contracts_admit m d run artifact_hash snapshot "prod" false) in
          let! payload := run_payload build d run mode run_id created in
          if match dget payload "producer_commit" with Some (JStr c) => bool_decide (c = commit) | _ => false end then Ok payload
          else refuse "run producer commit differs from admitted OpenPine commit" "ADMISSION_IDENTITY_INVALID"
    | None => refuse "admitted OpenPine producer commit is required" "ADMISSION_IDENTITY_INVALID"
    end.

(** [admit_and_persist_run_identity]. *)
Definition admit_and_persist_run_identity (s : Store) (uuid : string) (build : result string BuildIdentity)
    (d : DeploymentAdmissionIdentity) (manifest : dict string json) (mode run_id : string) (artifact : dict string json)
    (q : SnapshotQuery) (bars supplemental : list bar_row) (ps : RunPolicies) (created : Z)
    : Store * result RunError (dict string json) :=
  match admit_identity build d manifest mode run_id artifact q bars supplemental ps created with
  | Err e => (s, Err e)
  | Ok payload =>
      let '(s', r) := persist_run_identity s run_id payload uuid in
      (s', let! _ := r in Ok payload)
  end.

(** ** The execution context *)

Record ContextIds := mkIds {
  ci_run_id : string; ci_strategy_id : string; ci_series_id : string; ci_instrument_id : string;
  ci_exchange : string; ci_market : string; ci_symbol : string; ci_timeframe : string; ci_semantic : string
}.

(** The envelope, which must be valid and verify; a schema error is not caught. *)
Definition checked_envelope (artifact : dict string json) : result RunError (dict string json) :=
  match artifact_envelope artifact with
  | None => refuse "generated artifact envelope is required" "GENERATED_ARTIFACT_REQUIRED"
  | Some generated =>
      if negb (valid_payload artifact_schema generated) then Err RSchema
      else if negb (verify_content_hash generated artifact_schema)
      then refuse "generated artifact content hash is invalid" "GENERATED_ARTIFACT_INVALID"
      else Ok generated
  end.

(** [seal_content_hash], then [validate_payload]. *)
Definition sealed_context (payload : dict string json) : result RunError (dict string json) :=
  let sealed := seal_content_hash payload context_schema in
  if valid_payload context_schema sealed then Ok sealed else Err RSchema.

(** [derive_execution_context]. *)
Definition derive_execution_context (base : dict string json) (ids : ContextIds) (artifact : dict string json) (snapshot : string)
    : result RunError (dict string json) :=
  if negb (valid_payload context_schema base) then Err RSchema
  else if negb (verify_content_hash base context_schema)
  then refuse "base execution context content hash is invalid" "EXECUTION_CONTEXT_INVALID"
  else
    let! generated := checked_envelope artifact in
    let! content := require_key generated "content_hash" in
    let! source := require_key generated "source_hash" in
    let! emitted := require_key generated "emitted_module_hash" in
    sealed_context (dupdate (ddel base "content_hash")
      [("run_id", JStr (ci_run_id ids)); ("strategy_id", JStr (ci_strategy_id ids));
       ("session_id", JStr (ci_run_id ids +:+ ":worker")); ("generated_artifact_hash", content);
       ("source_hash", source); ("emitted_module_hash", emitted); ("data_snapshot_hash", JStr snapshot);
       ("series_id", JStr (ci_series_id ids)); ("instrument_id", JStr (ci_instrument_id ids));
       ("exchange", JStr (ci_exchange ids)); ("market", JStr (ci_market ids)); ("symbol", JStr (ci_symbol ids));
       ("timeframe", JStr (ci_timeframe ids)); ("semantic_profile", JStr (ci_semantic ids))]).

(** [_protocol_semver]. *)
Definition protocol_semver (version : string) : string := prerelease ["rc"] version.

Definition execution_schema_ids : list string :=
  [context_schema; "openpine.intent.v2"; "openpine.worker.protocol.v2"; "openpine.checkpoint.v1"; "openpine.checkpoint.proof.v1"].

Definition execution_capabilities : list string :=
  ["closed_bar"; "deterministic_clock"; "checkpoint_v1"; "sealed_artifact_refs"].

Definition artifact_producers : list string := ["openpine-contracts"; "pine2ast"; "ast2python"; "pinelib"].

Definition admission_error {A} (message : string) : result RunError A := refuse message "ADMISSION_IDENTITY_INVALID".
Definition artifact_error {A} (message : string) : result RunError A := refuse message "GENERATED_ARTIFACT_INVALID".

(** The commit of the component a wheel is of: ["sha"], or ["commit"] where
    there is no ["sha"]. *)
Definition wheel_commit (components : dict string json) (w : WheelIdentity) : result RunError (string * string) :=
  let name := w.1.1 in
  match dget components name with
  | Some (JObj c) =>
      let c := jdict c in
      match text_of (match dget c "sha" with Some v => Some v | None => dget c "commit" end) with
      | Some commit => if is_sha40 commit then Ok (name, commit) else admission_error ("admitted component commit is invalid: " +:+ name)
      | None => admission_error ("admitted component commit is invalid: " +:+ name)
      end
  | _ => admission_error ("admitted component identity is missing: " +:+ name)
  end.

Definition check_producer (generated_commits : dict string json) (commits : dict string string) (component : string)
    : result RunError unit :=
  match dget commits component with
  | None => Err (RKey component)
  | Some commit =>
      if match dget generated_commits component with Some (JStr c) => bool_decide (c = commit) | _ => false end then Ok tt
      else artifact_error ("generated artifact producer commit drift: " +:+ component)
  end.

Definition schema_hash_row (d : DeploymentAdmissionIdentity) (id : string) : result RunError (string * string) :=
  match schema_hashes d !! id with
  | Some digest => Ok (id, digest)
  | None => admission_error ("execution schema hash is missing: " +:+ id)
  end.

(** The values the command line may choose, with their defaults. *)
Record ContextOptions := mkOptions { co_timezone : string; co_currency : string; co_mintick : string; co_pointvalue : string; co_session : string }.
Definition default_options : ContextOptions := mkOptions "UTC" "USD" "0.01" "1" "24x7".

Definition str_key {A} (d : dict string A) (key : string) : result RunError A :=
  match dget d key with Some v => Ok v | None => Err (RKey key) end.

Definition context_capabilities (d : DeploymentAdmissionIdentity) : list string :=
  sort_by str_leb (List.filter (fun c => bool_decide (c ∈ capabilities d)) execution_capabilities).

(** The payload of [execution_context_from_admission], before it is sealed. *)
Definition context_fields (d : DeploymentAdmissionIdentity) (ids : ContextIds) (opts : ContextOptions) (snapshot : string) (created : Z)
    (version openpine_commit : string) (commits : dict string string) (hashes : list (string * string))
    (content source emitted : json) : dict string json :=
  [("schema_id", JStr context_schema); ("schema_version", JStr "1.0.0"); ("producer", JStr "openpine");
   ("producer_version", JStr (protocol_semver version)); ("producer_commit", JStr openpine_commit);
   ("stack_id", JStr (stack_manifest_hash d)); ("created_at_utc_ms", num_int created);
   ("serializer_id", JStr "openpine.canonical.json.v1"); ("content_hash_alg", JStr "sha256");
   ("run_id", JStr (ci_run_id ids)); ("strategy_id", JStr (ci_strategy_id ids));
   ("session_id", JStr (ci_run_id ids +:+ ":worker")); ("stack_manifest_hash", JStr (stack_manifest_hash d));
   ("wheel_identities", wheel_rows (wheel_identities d)); ("schema_hashes", hash_rows hashes);
   ("generated_artifact_hash", content); ("source_hash", source); ("emitted_module_hash", emitted);
   ("data_snapshot_hash", JStr snapshot); ("series_id", JStr (ci_series_id ids)); ("instrument_id", JStr (ci_instrument_id ids));
   ("exchange", JStr (ci_exchange ids)); ("market", JStr (ci_market ids)); ("symbol", JStr (ci_symbol ids));
   ("timeframe", JStr (ci_timeframe ids)); ("timezone", JStr (co_timezone opts)); ("currency", JStr (co_currency opts));
   ("mintick", JStr (co_mintick opts)); ("pointvalue", JStr (co_pointvalue opts)); ("session_policy", JStr (co_session opts));
   ("semantic_profile", JStr (ci_semantic ids)); ("finality_policy", JStr "CLOSED_BAR_ONLY"); ("warmup_policy", JStr "CALC_ONLY");
   ("score_policy", JStr "ALL_BARS"); ("end_policy", JStr "LIQUIDATE_ON_LAST_BAR");
   ("capabilities", JArr (map JStr (context_capabilities d))); ("producer_commits", hash_rows commits);
   ("policy_registry_version", JStr "openpine.policies.rc4.v1"); ("schema_registry_version", JStr "openpine.schemas.rc4.v1");
   ("capability_registry_version", JStr "openpine.capabilities.rc4.v1")].

(** The dictionary a comprehension or a loop builds from rows. *)
Definition sdict (rows : list (string * string)) : dict string string := fold_left (fun d kv => dset d kv.1 kv.2) rows [].

(** [execution_context_from_admission]. *)
Definition execution_context_from_admission (d : DeploymentAdmissionIdentity) (manifest : dict string json) (ids : ContextIds)
    (opts : ContextOptions) (artifact : dict string json) (snapshot : string) (created : Z) : result RunError (dict string json) :=
  if negb (manifest_matches manifest d) then refuse "admitted manifest does not match deployment identity" "STACK_MANIFEST_HASH_MISMATCH"
  else
    let! generated := checked_envelope artifact in
    match dget manifest "components" with
    | Some (JObj cs) =>
        if negb (length (wheel_identities d) =? 8)%nat then admission_error "exactly eight wheel identities are required"
        else
          let! rows := result_map (wheel_commit (jdict cs)) (wheel_identities d) in
          let commits := sdict rows in
          match dget generated "producer_commits" with
          | Some (JObj gc) =>
              let! _ := result_map (check_producer (jdict gc) commits) artifact_producers in
              let! a2p := str_key commits "ast2python" in
              if negb (match dget generated "producer_commit" with Some (JStr c) => bool_decide (c = a2p) | _ => false end)
              then artifact_error "generated artifact producer commit drift: ast2python"
              else if negb (match dget generated "stack_id" with Some (JStr c) => bool_decide (c = "openpine-5.0") | _ => false end)
              then artifact_error "generated artifact stack family is invalid"
              else
                let versions := sdict (map (fun w : WheelIdentity => (w.1.1, w.1.2)) (wheel_identities d)) in
                let! hashes := result_map (schema_hash_row d) execution_schema_ids in
                let! version := str_key versions "openpine" in
                let! openpine_commit := str_key commits "openpine" in
                let! content := require_key generated "content_hash" in
                let! source := require_key generated "source_hash" in
                let! emitted := require_key generated "emitted_module_hash" in
                sealed_context (context_fields d ids opts snapshot created version openpine_commit commits hashes content source emitted)
          | _ => artifact_error "generated artifact producer commits are required"
          end
    | _ => admission_error "admitted component commits are required"
    end.

(** ** Binding a run's configuration *)

(** A canonical bar envelope: the two keys that are read, absent where the
    mapping has none, and the rest. *)
Record BarEnvelope := mkEnvelope { be_series_id : option string; be_instrument_id : option string; be_rest : dict string json }.

(** What is read of the configuration. *)
Record ExecConfig := mkConfig {
  ec_exchange : string; ec_market_type : string; ec_symbol : string; ec_timeframe : string;
  ec_start : Z; ec_end : Z; ec_semantic : string
}.

(** The attributes that are set on it. *)
Record Bound := mkBound {
  bd_context : dict string json; bd_manifest : dict string json; bd_instrument_id : json;
  bd_artifact : dict string json; bd_envelopes : list BarEnvelope; bd_run_hash : string; bd_artifact_dir : string
}.

Definition isolated_policies (cfg : ExecConfig) : RunPolicies :=
  mkPolicies (ec_semantic cfg) "CLOSED_BAR_ONLY" "CALC_ONLY" "ALL_BARS"
    ["closed_bar"; "deterministic_clock"; "isolated_worker"; "broker_projection"; "intent_tape_v2"].

Definition config_query (cfg : ExecConfig) : SnapshotQuery :=
  mkSnapshotQuery (ec_exchange cfg) (ec_market_type cfg) (ec_symbol cfg) (ec_timeframe cfg) (ec_start cfg) (ec_end cfg) "CLOSED_BAR_ONLY".

Definition key_of (v : option string) (key : string) : result RunError string :=
  match v with Some t => Ok t | None => Err (RKey key) end.

(** What follows the identity: the context, and the attributes.  [data_dir] is
    its text. *)
Definition bind_context (data_dir : string) (cfg : ExecConfig) (d : DeploymentAdmissionIdentity) (manifest : dict string json)
    (run_id strategy_id : string) (artifact : dict string json) (envelopes : list BarEnvelope) (first : BarEnvelope) (created : Z)
    (identity : dict string json) : result RunError (dict string json * Bound) :=
  let! snapshot := require_text identity "data_snapshot_hash" in
  let! series := key_of (be_series_id first) "series_id" in
  let! instrument := key_of (be_instrument_id first) "instrument_id" in
  let! context := execution_context_from_admission d manifest
    (mkIds run_id strategy_id series instrument (ec_exchange cfg) (ec_market_type cfg) (ec_symbol cfg) (ec_timeframe cfg) (ec_semantic cfg))
    default_options artifact snapshot created in
  match artifact_envelope artifact with
  | None => Err ROutside
  | Some generated =>
      let! bound_instrument := require_key context "instrument_id" in
      let! run_hash := require_text identity "content_hash" in
      Ok (identity, mkBound context manifest bound_instrument generated envelopes run_hash
                      (data_dir +:+ "/protocol/" +:+ run_id))
  end.

(** [bind_isolated_execution]. *)
Definition bind_isolated_execution (s : Store) (uuid : string) (build : result string BuildIdentity) (data_dir : string)
    (cfg : ExecConfig) (d : DeploymentAdmissionIdentity) (manifest : dict string json) (mode run_id strategy_id : string)
    (artifact : dict string json) (bars : list bar_row) (envelopes : list BarEnvelope) (supplemental : list bar_row) (created : Z)
    : Store * result RunError (dict string json * Bound) :=
  match bars, envelopes with
  | _ :: _, first :: _ =>
      if negb (length envelopes =? length bars)%nat
      then (s, refuse "exact canonical bar envelopes are required" "CANONICAL_BAR_ENVELOPES_REQUIRED")
      else
        let '(s', r) := admit_and_persist_run_identity s uuid build d manifest mode run_id artifact (config_query cfg) bars
                          supplemental (isolated_policies cfg) created in
        (s', let! identity := r in
             bind_context data_dir cfg d manifest run_id strategy_id artifact envelopes first created identity)
  | _, _ => (s, refuse "exact canonical bar envelopes are required" "CANONICAL_BAR_ENVELOPES_REQUIRED")
  end.

(** ** What an admission compares *)

(** The run that is admitted is built from the deployment, and its artifact and
    snapshot are compared with themselves: what is left to refuse is a deployment
    that is not well formed, a capability it lacks, a hash that is none, the
    contracts' [admit] and the four policies.  Wheels, schemas and data never
    make a difference. *)
Theorem own_run_admission m d a snap ps res :
  admit_run LIVE PAPER mode_value contracts_admit m d (own_run d a snap ps) a snap "prod" false = Ok res <->
  deployment_ok d /\ (forall c, c ∈ rp_capabilities ps -> c ∈ capabilities d) /\ is_hash a = true /\ is_hash snap = true /\
  contracts_admit (run_request (own_run d a snap ps)) (run_policy d a false) = Ok res /\
  rp_semantic ps ∈ semantic_profiles d /\ rp_finality ps ∈ finality_policies d /\
  rp_warmup ps ∈ warmup_policies d /\ rp_score ps ∈ score_policies d.
Proof.
  rewrite admit_run_spec. unfold own_run. simpl. split.
  - intros (Hd & Hc & Hh & Hadm & _ & _ & _ & Hp). rewrite !Forall_cons in Hh. by destruct Hh as (? & ? & _ & ? & _).
  - intros (Hd & Hc & Ha & Hs & Hadm & ? & ? & ? & ?). split_and!; try done.
    destruct Hd as [Hm _]. by repeat constructor.
Qed.

(** ** The file of the identity *)

Lemma publish_ok fuel s p s' : call_ok s p -> publish fuel s p = (s', Some Published) ->
  exists v, files s' !! p_final p = Some (FileJson v) /\ sort_keys v = sort_keys (p_payload p).
Proof.
  revert s p. induction fuel as [|n IH]; intros s p Hc H.
  - simpl in H. destruct (p_pc p) as [| | | | | | |o] eqn:E; simplify_eq. unfold call_ok in Hc. rewrite E in Hc.
    destruct Hc as (_ & v & Hf & Hd). apply same_dict_eq in Hd. eauto.
  - pose proof (pstep_ok s p Hc) as Hs.
    assert (He : p_run (pstep s p).2 = p_run p /\ p_payload (pstep s p).2 = p_payload p) by
      (unfold pstep; destruct p as [r pl u []]; simpl; repeat case_match; done).
    destruct (p_pc p) as [| | | | | | |o] eqn:E; simpl in H; rewrite E in H;
      [destruct (pstep s p) as [s1 p1]; simpl in *; destruct He as [Hr Hp]; unfold p_final in *; rewrite <-Hr, <-Hp; by apply (IH s1)..|].
    simplify_eq. unfold call_ok in Hc. rewrite E in Hc. destruct Hc as (_ & v & Hf & Hd). apply same_dict_eq in Hd. eauto.
Qed.

Lemma persist_run_ok s run payload uuid s' :
  persist_run_identity s run payload uuid = (s', Ok tt) ->
  exists v, files s' !! final_name run = Some (FileJson v) /\ sort_keys v = sort_keys (JObj payload).
Proof.
  unfold persist_run_identity. destruct (publish _ _ _) as [s1 [[]|]] eqn:E; intros; simplify_eq.
  by apply (publish_ok 7 s (mkPublisher run (JObj payload) uuid AtOpen)).
Qed.

(** ** What is bound *)

Lemma dget_fold_dset {V} (rows : list (string * V)) d k v :
  dget (fold_left (fun d kv => dset d kv.1 kv.2) rows d) k = Some v -> (k, v) ∈ rows \/ dget d k = Some v.
Proof.
  revert d. induction rows as [|[k0 v0] rows IH]; intros d H; simpl in *; [by right|].
  destruct (IH _ H) as [Hin|Hd]; [left; by apply list_elem_of_further|].
  destruct (decide (k0 = k)) as [->|Hne].
  - rewrite dget_dset_eq in Hd. simplify_eq. left. apply list_elem_of_here.
  - rewrite dget_dset_ne in Hd by done. by right.
Qed.

Lemma sealed_artifact_ok artifact h :
  sealed_artifact_hash artifact = Ok h -> exists e, artifact_envelope artifact = Some e /\ dget e "content_hash" = Some (JStr h).
Proof. unfold sealed_artifact_hash. intros H. repeat case_match; simplify_eq. eauto. Qed.

Lemma wheel_commit_ok comps w kv :
  wheel_commit comps w = Ok kv -> kv.1 = w.1.1 /\ exists c, dget comps w.1.1 = Some (JObj c) /\
    text_of (match dget (jdict c) "sha" with Some v => Some v | None => dget (jdict c) "commit" end) = Some kv.2.
Proof.
  unfold wheel_commit. destruct (dget comps _) as [[| | | | |c]|]; try done. cbv zeta.
  destruct (text_of _) as [commit|] eqn:E; [|done]. destruct (is_sha40 commit); [|done]. intros [= <-]. split; [done|]. by exists c.
Qed.

(** The commit the context names for a component whose manifest entry has a
    ["sha"] is that one. *)
Lemma openpine_commit comps ws rows commit c :
  result_map (wheel_commit comps) ws = Ok rows -> str_key (A:=string) (sdict rows) "openpine" = Ok commit ->
  dget comps "openpine" = Some (JObj c) -> forall sha, dget (jdict c) "sha" = Some (JStr sha) -> commit = sha.
Proof.
  intros Hm Hk Hc sha Hs. unfold str_key in Hk. destruct (dget (sdict rows) "openpine") eqn:E; simplify_eq.
  apply dget_fold_dset in E as [Hin|?]; [|done]. apply result_map_ok in Hm. apply list_elem_of_lookup in Hin as [i Hi].
  destruct (Forall2_lookup_r _ _ _ _ _ Hm Hi) as (w & _ & Hw). apply wheel_commit_ok in Hw as (Hn & c' & Hg & Ht).
  simpl in Hn. rewrite <-Hn, Hc in Hg. simplify_eq. rewrite Hs in Ht. simpl in Ht. by simplify_eq.
Qed.

(** Sealing adds a content hash and leaves the rest as it is. *)
Hypothesis seal_keeps : forall p schema k, k <> "content_hash" -> dget (seal_content_hash p schema) k = dget p k.

Lemma admitted_ok {A} (r : result AdmitError A) a : admitted r = Ok a -> r = Ok a.
Proof. by destruct r; intros; simplify_eq/=. Qed.

Lemma admit_identity_ok build d manifest mode run_id artifact q bars extra ps created payload :
  admit_identity build d manifest mode run_id artifact q bars extra ps created = Ok payload ->
  exists commit artifact_hash snapshot m b,
    producer_commit_of manifest = Some commit /\ is_sha40 commit = true /\
    sealed_artifact_hash artifact = Ok artifact_hash /\
    execution_data_snapshot_hash content_hash (run_query q ps) bars extra = Ok snapshot /\
    payload = seal_content_hash (run_fields SERIALIZER_ID CONTENT_HASH_ALG d (own_run d artifact_hash snapshot ps) m b run_id created) run_schema /\
    dget payload "producer_commit" = Some (JStr commit).
Proof.
  unfold admit_identity. destruct (manifest_matches _ _); [|done]. simpl.
  destruct (producer_commit_of manifest) as [commit|]; [|done]. destruct (is_sha40 commit) eqn:Es; [|done]. simpl. intros H.
  apply result_bind_ok in H as (ah & Ha & H). apply result_bind_ok in H as (snap & Hx%admitted_ok & H).
  apply result_bind_ok in H as (m & _ & H). apply result_bind_ok in H as (? & _ & H). apply result_bind_ok in H as (p & Hp & H).
  unfold run_payload in Hp. apply result_bind_ok in Hp as (b & _ & Hp). apply result_bind_ok in Hp as (m' & _ & Hp).
  destruct (valid_payload _ _); [|done]. destruct (dget p "producer_commit") as [[]|] eqn:Ec; try done.
  case_bool_decide; simplify_eq. exists commit, ah, snap, m', b. done.
Qed.

Lemma context_ok d manifest ids opts artifact snapshot created ctx :
  execution_context_from_admission d manifest ids opts artifact snapshot created = Ok ctx ->
  exists cs rows version commit hashes generated content source emitted,
    artifact_envelope artifact = Some generated /\ dget manifest "components" = Some (JObj cs) /\
    length (wheel_identities d) = 8%nat /\ result_map (wheel_commit (jdict cs)) (wheel_identities d) = Ok rows /\
    str_key (A:=string) (sdict rows) "openpine" = Ok commit /\ dget generated "content_hash" = Some content /\
    ctx = seal_content_hash (context_fields d ids opts snapshot created version commit (sdict rows) hashes content source emitted) context_schema.
Proof.
  unfold execution_context_from_admission. destruct (manifest_matches _ _); [|done]. simpl. intros H.
  apply result_bind_ok in H as (g & Hg & H). destruct (dget manifest "components") as [[| | | | |cs]|]; try done.
  destruct (length _ =? 8)%nat eqn:El; [|done]. apply Nat.eqb_eq in El. simpl in H.
  apply result_bind_ok in H as (rows & Hr & H). destruct (dget g "producer_commits") as [[| | | | |gc]|]; try done.
  do 2 (apply result_bind_ok in H as (? & _ & H)). destruct (negb _); [done|]. destruct (negb _); [done|].
  apply result_bind_ok in H as (hashes & _ & H). apply result_bind_ok in H as (version & _ & H).
  apply result_bind_ok in H as (commit & Hc & H). apply result_bind_ok in H as (content & Hco & H).
  apply result_bind_ok in H as (source & _ & H). apply result_bind_ok in H as (emitted & _ & H).
  unfold sealed_context in H. destruct (valid_payload _ _); simplify_eq.
  unfold checked_envelope in Hg. destruct (artifact_envelope artifact) as [e|]; [|done].
  destruct (valid_payload _ _), (verify_content_hash _ _); simplify_eq/=.
  unfold require_key in Hco. destruct (dget g "content_hash") eqn:Eg; simplify_eq. by eauto 20.
Qed.

Lemma require_text_ok d k t : require_text d k = Ok t -> dget d k = Some (JStr t).
Proof. unfold require_text, require_key. destruct (dget d k) as [[]|]; intros; by simplify_eq/=. Qed.

(** What the identity and the context must agree on. *)
Definition shared_keys : list string :=
  ["producer_commit"; "run_id"; "stack_manifest_hash"; "wheel_identities"; "generated_artifact_hash"; "data_snapshot_hash";
   "semantic_profile"; "finality_policy"; "warmup_policy"; "score_policy"].

(** A run that is bound executes what was admitted.  The identity on disk is
    the one returned and its content hash the run hash of the configuration; the
    hashes in it are the sealed artifact's and that of these very bars; the
    execution context names the same producer commit, run, stack, wheels,
    artifact, data, profile and policies; there is an envelope per bar. *)
Theorem bound_execution s uuid build data_dir cfg d manifest mode run_id strategy_id artifact bars envelopes extra created s' identity bd :
  bind_isolated_execution s uuid build data_dir cfg d manifest mode run_id strategy_id artifact bars envelopes extra created =
    (s', Ok (identity, bd)) ->
  length envelopes = length bars /\ length (wheel_identities d) = 8%nat /\
  (exists v, files s' !! final_name run_id = Some (FileJson v) /\ sort_keys v = sort_keys (JObj identity)) /\
  dget identity "content_hash" = Some (JStr (bd_run_hash bd)) /\
  (forall k, k ∈ shared_keys -> dget (bd_context bd) k = dget identity k) /\
  exists commit artifact_hash snapshot,
    producer_commit_of manifest = Some commit /\ is_sha40 commit = true /\ sealed_artifact_hash artifact = Ok artifact_hash /\
    execution_data_snapshot_hash content_hash (config_query cfg) bars extra = Ok snapshot /\
    dget identity "producer_commit" = Some (JStr commit) /\
    dget identity "generated_artifact_hash" = Some (JStr artifact_hash) /\
    dget identity "data_snapshot_hash" = Some (JStr snapshot).
Proof using seal_keeps.
  unfold bind_isolated_execution. destruct bars as [|b0 bars]; [done|]. destruct envelopes as [|first envs]; [done|].
  destruct (length _ =? length _)%nat eqn:El; [|done]. apply Nat.eqb_eq in El. simpl negb. cbv match.
  unfold admit_and_persist_run_identity. intros H.
  destruct (admit_identity _ _ _ _ _ _ _ _ _ _ _) as [payload|] eqn:Ea; [|done].
  destruct (persist_run_identity _ _ _ _) as [s1 [[]|]] eqn:Ep; [|done]. simpl in H. injection H as <- H.
  apply persist_run_ok in Ep. apply admit_identity_ok in Ea as (commit & ah & snap & m & b & Hpc & Hsha & Hah & Hsn & -> & Hc).
  unfold bind_context in H. apply result_bind_ok in H as (snap' & Hs' & H).
  apply result_bind_ok in H as (series & _ & H). apply result_bind_ok in H as (instr & _ & H).
  apply result_bind_ok in H as (ctx & Hctx & H). destruct (artifact_envelope artifact) as [g|] eqn:Eg; [|done].
  apply result_bind_ok in H as (? & _ & H). apply result_bind_ok in H as (rh & Hrh & H). injection H as <- <-.
  apply context_ok in Hctx as (cs & rows & version & oc & hashes & g' & content & src & em & Hg & Hcs & Hl & Hrows & Hoc & Hco & ->).
  apply require_text_ok in Hs', Hrh. rewrite seal_keeps in Hs' by done. simpl in Hs'. simplify_eq.
  apply sealed_artifact_ok in Hah as Hah'. destruct Hah' as (g2 & Hg2 & Hco2). simplify_eq.
  assert (Hcommit : oc = commit).
  { unfold producer_commit_of, manifest_component in Hpc. rewrite Hcs in Hpc.
    destruct (dget (jdict cs) "openpine") as [[| | | | |c]|] eqn:Ecomp; try done. simpl in Hpc.
    destruct (dget (jdict c) "sha") as [[]|] eqn:Esha; try done. simpl in Hpc. simplify_eq.
    by eapply openpine_commit. }
  subst oc. split_and!; [simpl; congruence|done|done| | |].
  - exact Hrh.
  - intros k Hk. assert (Hne : k <> "content_hash") by (intros ->; by apply list_elem_of_In in Hk; simpl in Hk; intuition discriminate).
    cbn [bd_context]. rewrite seal_keeps by done. rewrite seal_keeps in Hc by done. rewrite seal_keeps by done.
    apply list_elem_of_In in Hk. simpl in Hk. simpl in Hc.
    destruct_or! Hk; subst k; try done; simpl; congruence.
  - exists commit, ah, snap'. rewrite seal_keeps in Hc by done. rewrite !seal_keeps by done. by split_and!.
Qed.
End Binding.

(** ** A bound run *)

Module Demo.

Definition digest : string := "sha256:" +:+ sha_a +:+ "aaaaaaaaaabbbbbbbbbbcccc".
Definition seal (p : dict string json) (schema : string) : dict string json := dset p "content_hash" (JStr digest).
Definition names : list string := ["openpine"; "openpine-contracts"; "pine2ast"; "ast2python"; "pinelib"; "backtest-engine"; "marketdata-provider"; "optimizer"].
Definition deployment : DeploymentAdmissionIdentity :=
  mkDeployment "stack" digest (map (fun n => (n, "5.0.0rc5", digest)) names)
    (list_to_map (map (fun id => (id, digest)) execution_schema_ids))
    {["closed_bar"; "deterministic_clock"; "isolated_worker"; "broker_projection"; "intent_tape_v2"]}
    {["strict_5x"]} {["CLOSED_BAR_ONLY"]} {["CALC_ONLY"]} {["ALL_BARS"]}.
Definition manifest : dict string json :=
  [("manifest_hash", JStr digest); ("components", JObj (map (fun n => (n, JObj [("sha", JStr sha_a)])) names))].
Definition artifact : dict string json :=
  [("generated_artifact", JObj [("content_hash", JStr digest); ("source_hash", JStr digest); ("emitted_module_hash", JStr digest);
     ("producer_commits", JObj (map (fun n => (n, JStr sha_a)) artifact_producers)); ("producer_commit", JStr sha_a);
     ("stack_id", JStr "openpine-5.0")]); ("python_code", JStr "pass")].
Definition bar : bar_row :=
  [("time", NumInt 60000); ("time_close", NumInt 120000); ("open", NumInt 1); ("high", NumInt 2); ("low", NumInt 1);
   ("close", NumInt 2); ("volume", NumNone)].
Definition config : ExecConfig := mkConfig "okx" "spot" "BTCUSDT" "1m" 60000 120000 "strict_5x".
Definition bind (manifest : dict string json) :=
  bind_isolated_execution (fun _ _ => true) (fun _ _ => true) (fun _ _ => digest) seal true false
    (fun t => if String.eqb t "BACKTEST" then Some false else None) (fun b : bool => "mode") (fun _ _ => Ok (mkAdmitResult true "ADMIT_OK" "admitted" []))
    "serializer" "sha256" (mkStore DirMissing ∅) "u" (Ok (mkBuild "5.0.0rc5" sha_a)) "/data" config deployment manifest "backtest" "run1" "strategy"
    artifact [bar] [mkEnvelope (Some "series") (Some "BTCUSDT") []] [] 120000.

Lemma seal_keeps p schema k : k <> "content_hash" -> dget (seal p schema) k = dget p k.
Proof. intros H. unfold seal. apply dget_dset_ne. congruence. Qed.
End Demo.

Example demo_bound : is_ok (Demo.bind Demo.manifest).2 = true.
Proof. vm_compute. reflexivity. Qed.

Lemma bound_execution_witness :
  exists identity bd v, (Demo.bind Demo.manifest).2 = Ok (identity, bd) /\
    files (Demo.bind Demo.manifest).1 !! "run1.json" = Some (FileJson v) /\ sort_keys v = sort_keys (JObj identity) /\
    dget (bd_context bd) "generated_artifact_hash" = Some (JStr Demo.digest).
Proof.
  destruct (Demo.bind Demo.manifest) as [s' [[identity bd]|]] eqn:E; [|vm_compute in E; discriminate].
  destruct (bound_execution (fun _ _ => true) (fun _ _ => true) (fun _ _ => Demo.digest) Demo.seal true false _ _ _ _ _ Demo.seal_keeps _ _ _ _ _ _ _ _ _ _ _ _ _ _ _ _ _ _ E)
    as (_ & _ & (v & Hf & Hv) & _ & Hk & _ & h & _ & _ & _ & Ha & _ & _ & Hi & _).
  exists identity, bd, v. simpl. split_and!; [done..|].
  rewrite Hk by (apply list_elem_of_In; simpl; tauto). vm_compute in Ha. injection Ha as <-. exact Hi.
Defined.

(** The identity is published before the context is built: when a component of
    the manifest has no commit the run is refused, and its identity stays. *)
Example refused_run_keeps_identity :
  let m := [("manifest_hash", JStr Demo.digest); ("components", JObj [("openpine", JObj [("sha", JStr sha_a)])])] in
  let '(s, r) := Demo.bind m in
  r = Err (RAdmit (mkAdmitError "admitted component identity is missing: openpine-contracts" "ADMISSION_IDENTITY_INVALID")) /\
  is_Some (files s !! "run1.json").
Proof. vm_compute. split; [reflexivity|by eexists]. Qed.

(** Two rewritings of the same version: the identity of a run and its execution
    context name a beta build differently. *)
Example producer_versions_differ :
  contract_version (mkBuild "5.0.0b1" sha_a) = "5.0.0-b.1" /\ protocol_semver "5.0.0b1" = "5.0.0b1".
Proof. split; reflexivity. Qed.
