(* ===== verification/WorkerProtocol.v ===== *)
(** Worker protocol transcripts: [openpine/runtime/worker_protocol.py].

    The contracts package validates and seals messages; it is the parameters
    [valid], [seal], [hash_ok] and [sequence_ok].  A message's body is a
    dictionary of JSON values. *)

From Stdlib Require Import Ascii.
From S2P Require Import Prelude Json.

Inductive Kind :=
| HELLO | LOAD_ARTIFACT | INIT_RUN | BAR_BEGIN | INTENT_BATCH | BROKER_EVENT_BATCH | RECALC_REQUEST | RECALC_RESULT
| BAR_COMMIT | CHECKPOINT | RESTORE | FINALIZE | ABORT.

#[export] Instance Kind_eq_dec : EqDecision Kind.
Proof. solve_decision. Defined.

Inductive Component := openpine | pinelib | backtest_engine.
Inductive Role := parent | worker | engine.

#[export] Instance Component_eq_dec : EqDecision Component.
Proof. solve_decision. Defined.
#[export] Instance Role_eq_dec : EqDecision Role.
Proof. solve_decision. Defined.

Definition Kind_text (k : Kind) : string :=
  match k with
  | HELLO => "HELLO" | LOAD_ARTIFACT => "LOAD_ARTIFACT" | INIT_RUN => "INIT_RUN" | BAR_BEGIN => "BAR_BEGIN"
  | INTENT_BATCH => "INTENT_BATCH" | BROKER_EVENT_BATCH => "BROKER_EVENT_BATCH" | RECALC_REQUEST => "RECALC_REQUEST"
  | RECALC_RESULT => "RECALC_RESULT" | BAR_COMMIT => "BAR_COMMIT" | CHECKPOINT => "CHECKPOINT" | RESTORE => "RESTORE"
  | FINALIZE => "FINALIZE" | ABORT => "ABORT"
  end.

Definition all_kinds : list Kind :=
  [HELLO; LOAD_ARTIFACT; INIT_RUN; BAR_BEGIN; INTENT_BATCH; BROKER_EVENT_BATCH; RECALC_REQUEST; RECALC_RESULT;
   BAR_COMMIT; CHECKPOINT; RESTORE; FINALIZE; ABORT].

Definition Kind_of (s : string) : option Kind := List.find (fun k => bool_decide (Kind_text k = s)) all_kinds.

Definition Component_text (c : Component) : string :=
  match c with openpine => "openpine" | pinelib => "pinelib" | backtest_engine => "backtest_engine" end.

Definition Role_text (r : Role) : string := match r with parent => "parent" | worker => "worker" | engine => "engine" end.
Definition Role_of (s : string) : option Role :=
  List.find (fun r => bool_decide (Role_text r = s)) [parent; worker; engine].

Definition COMPONENT_BY_KIND (k : Kind) : Component :=
  match k with
  | HELLO | LOAD_ARTIFACT | INIT_RUN | BAR_BEGIN => openpine
  | INTENT_BATCH => pinelib
  | BROKER_EVENT_BATCH | RECALC_REQUEST => backtest_engine
  | RECALC_RESULT => pinelib
  | BAR_COMMIT => backtest_engine
  | CHECKPOINT | RESTORE | FINALIZE | ABORT => openpine
  end.

Definition ROLE_BY_KIND (k : Kind) : Role :=
  match k with
  | HELLO => worker
  | LOAD_ARTIFACT | INIT_RUN | BAR_BEGIN => parent
  | INTENT_BATCH => worker
  | BROKER_EVENT_BATCH | RECALC_REQUEST => engine
  | RECALC_RESULT => worker
  | BAR_COMMIT => engine
  | CHECKPOINT | RESTORE | FINALIZE | ABORT => parent
  end.

Definition ROLES_BY_KIND (k : Kind) : list Role :=
  match k with ABORT => [parent; worker; engine] | _ => [ROLE_BY_KIND k] end.

Definition ALLOWED_AFTER (k : Kind) : list Kind :=
  match k with
  | HELLO => [LOAD_ARTIFACT; ABORT]
  | LOAD_ARTIFACT => [INIT_RUN; ABORT]
  | INIT_RUN => [BAR_BEGIN; RESTORE; FINALIZE; ABORT]
  | BAR_BEGIN => [INTENT_BATCH; ABORT]
  | INTENT_BATCH => [BROKER_EVENT_BATCH; BAR_COMMIT; ABORT]
  | BROKER_EVENT_BATCH => [RECALC_REQUEST; BAR_COMMIT; ABORT]
  | RECALC_REQUEST => [RECALC_RESULT; ABORT]
  | RECALC_RESULT => [INTENT_BATCH; ABORT]
  | BAR_COMMIT => [BAR_BEGIN; CHECKPOINT; FINALIZE; ABORT]
  | CHECKPOINT => [BAR_BEGIN; RESTORE; FINALIZE; ABORT]
  | RESTORE => [BAR_BEGIN; FINALIZE; ABORT]
  | FINALIZE | ABORT => []
  end.

(** [_component_for]. *)
Definition component_for (k : Kind) (r : Role) : Component :=
  if bool_decide (k = ABORT) && bool_decide (r = engine) then backtest_engine else COMPONENT_BY_KIND k.

(** A message: the fields of the payload that vary. *)
Record Message := mkMessage {
  producer : string;
  producer_version : string;
  producer_commit : string;
  stack_id : string;
  created_at_utc_ms : Z;
  message_id : string;
  sender_role : string;
  session_id : string;
  run_id : string;
  sequence : Z;
  correlation_id : string;
  causation_id : option string;
  kind : string;
  body : dict string json;
  content_hash : string
}.

Record ExecutionContext := mkContext {
  ctx_session_id : string;
  ctx_run_id : string;
  ctx_stack_manifest_hash : string
}.

Record Transcript := mkTranscript {
  execution_context : ExecutionContext;
  components : Component -> string * string;
  messages : list Message
}.

Inductive protocol_error :=
| ContractError
| BadHash
| UnsupportedKind (k : string)
| InvalidRole (k : string)
| MustStartWithHello
| InvalidTransition (from to_ : string)
| FieldMismatch (field : string)
| SequenceError
| ComponentVersionMissing
| IdentityMissing.

(** *** Component identities *)

(** [value.partition("rc")]. *)
Fixpoint partition_rc (s : string) : option (string * string) :=
  match s with
  | EmptyString => None
  | String c s' =>
      match c, s' with
      | "r"%char, String "c"%char rest => Some ("", rest)
      | _, _ => '(b, r) ← partition_rc s'; Some (String c b, r)
      end
  end.

Fixpoint str_contains (pat s : string) : bool :=
  String.prefix pat s || match s with EmptyString => false | String _ s' => str_contains pat s' end.

Definition semver (value : option string) : result protocol_error string :=
  match opt_truthy value with
  | None => Err ComponentVersionMissing
  | Some v =>
      if str_contains "rc" v && negb (str_contains "-rc." v) then
        match partition_rc v with
        | Some (base, rc) => if str_truthy base && str_isdigit rc then Ok (base +:+ "-rc." +:+ rc) else Ok v
        | None => Ok v
        end
      else Ok v
  end.

(** A row of [wheel_identities] that has a name, and its version. *)
Definition wheel_versions (rows : list (option string * option string)) : result protocol_error (dict string string) :=
  result_fold (fun d row =>
    match row.1 with
    | None => Ok d
    | Some n => let! v := semver row.2 in Ok (dset d n v)
    end) [] rows.

Definition identity_of (versions commits : dict string string) (c : Component) : option (string * string) :=
  v ← opt_truthy (dget versions (Component_text c));
  commit ← dget commits (Component_text c);
  if bool_decide (String.length commit = 40%nat) then Some (v, commit) else None.

Definition component_identities (commits : dict string string) (rows : list (option string * option string))
    : result protocol_error (Component -> string * string) :=
  let! versions := wheel_versions rows in
  match identity_of versions commits openpine, identity_of versions commits pinelib,
        identity_of versions commits backtest_engine with
  | Some a, Some b, Some c => Ok (fun x => match x with openpine => a | pinelib => b | backtest_engine => c end)
  | _, _, _ => Err IdentityMissing
  end.

Section Protocol.
Variable valid : Message -> bool.
Variable seal : Message -> Message.
Variable hash_ok : Message -> bool.
Variable sequence_ok : list Message -> bool.

Definition last_message_id (t : Transcript) : option string := message_id <$> last (messages t).

(** [_check_transition]. *)
Definition check_transition (t : Transcript) (k : Kind) : result protocol_error unit :=
  match last (messages t) with
  | None => if bool_decide (k = HELLO) then Ok tt else Err MustStartWithHello
  | Some m =>
      match Kind_of (kind m) with
      | Some prev => if bool_decide (k ∈ ALLOWED_AFTER prev) then Ok tt else Err (InvalidTransition (kind m) (Kind_text k))
      | None => Err (InvalidTransition (kind m) (Kind_text k))
      end
  end.

Definition terminal (k : Kind) : bool := match k with FINALIZE | ABORT => true | _ => false end.

Definition push (t : Transcript) (m : Message) : Transcript :=
  mkTranscript (execution_context t) (components t) (messages t ++ [m]).

(** The message [append] builds before sealing. *)
Definition draft (t : Transcript) (k : Kind) (r : Role) (b : dict string json) (now : Z) : Message :=
  let c := component_for k r in
  let '(version, commit) := components t c in
  let n := Z.of_nat (length (messages t)) in
  let ctx := execution_context t in
  mkMessage (Component_text c) version commit (ctx_stack_manifest_hash ctx) now
    (ctx_session_id ctx +:+ ":" +:+ pretty n +:+ ":" +:+ Kind_text k) (Role_text r) (ctx_session_id ctx) (ctx_run_id ctx)
    n (ctx_run_id ctx) (last_message_id t) (Kind_text k) b "".

Definition append (t : Transcript) (k_text : string) (b : dict string json) (now : Z) (role : option string)
    : Transcript * result protocol_error Message :=
  match Kind_of k_text with
  | None => (t, Err (UnsupportedKind k_text))
  | Some k =>
      let r := match opt_truthy role with Some s => Role_of s | None => Some (ROLE_BY_KIND k) end in
      match r with
      | Some r =>
          if negb (bool_decide (r ∈ ROLES_BY_KIND k)) then (t, Err (InvalidRole k_text))
          else
            match check_transition t k with
            | Err e => (t, Err e)
            | Ok _ =>
                let sealed := seal (draft t k r b now) in
                if negb (valid sealed) then (t, Err ContractError)
                else if terminal k && negb (sequence_ok (messages t ++ [sealed])) then (t, Err SequenceError)
                else (push t sealed, Ok sealed)
            end
      | None => (t, Err (InvalidRole k_text))
      end
  end.

(** The expected fields, in the order they are compared. *)
Definition mismatch (t : Transcript) (k : Kind) (r : Role) (m : Message) : option string :=
  let c := component_for k r in
  let '(version, commit) := components t c in
  let ctx := execution_context t in
  fst <$> List.find (fun x => negb (snd x))
    [("producer", bool_decide (producer m = Component_text c));
     ("producer_version", bool_decide (producer_version m = version));
     ("producer_commit", bool_decide (producer_commit m = commit));
     ("stack_id", bool_decide (stack_id m = ctx_stack_manifest_hash ctx));
     ("session_id", bool_decide (session_id m = ctx_session_id ctx));
     ("run_id", bool_decide (run_id m = ctx_run_id ctx));
     ("sequence", sequence m =? Z.of_nat (length (messages t)));
     ("correlation_id", bool_decide (correlation_id m = ctx_run_id ctx));
     ("causation_id", bool_decide (causation_id m = last_message_id t));
     ("sender_role", bool_decide (sender_role m = Role_text r))].

Definition accept (t : Transcript) (m : Message) : Transcript * result protocol_error Message :=
  if negb (valid m) then (t, Err ContractError)
  else if negb (hash_ok m) then (t, Err BadHash)
  else
    match Kind_of (kind m) with
    | None => (t, Err (UnsupportedKind (kind m)))
    | Some k =>
        match Role_of (sender_role m) with
        | Some r =>
            if negb (bool_decide (r ∈ ROLES_BY_KIND k)) then (t, Err (InvalidRole (kind m)))
            else
              match check_transition t k with
              | Err e => (t, Err e)
              | Ok _ =>
                  match mismatch t k r m with
                  | Some field => (t, Err (FieldMismatch field))
                  | None =>
                      if terminal k && negb (sequence_ok (messages t ++ [m])) then (t, Err SequenceError)
                      else (push t m, Ok m)
                  end
              end
        | None => (t, Err (InvalidRole (kind m)))
        end
    end.

(** *** Histories *)

Inductive ProtocolOp :=
| Append (k : string) (b : dict string json) (now : Z) (role : option string)
| Accept (m : Message).

Definition pexec (t : Transcript) (op : ProtocolOp) : Transcript :=
  match op with
  | Append k b now role => (append t k b now role).1
  | Accept m => (accept t m).1
  end.

(** ** Transcripts are well formed *)

(** What sealing is documented to do: it sets the content hash and nothing
    else, and a sealed message verifies. *)
Definition seals : Prop := forall m, hash_ok (seal m) = true /\
  exists h, seal m = mkMessage (producer m) (producer_version m) (producer_commit m) (stack_id m) (created_at_utc_ms m)
    (message_id m) (sender_role m) (session_id m) (run_id m) (sequence m) (correlation_id m) (causation_id m) (kind m)
    (body m) h.

(** The message extends the transcript's prefix [pre]. *)
Definition extends (t : Transcript) (pre : list Message) (m : Message) : Prop :=
  exists k, Kind_of (kind m) = Some k /\
    (match last pre with
     | None => k = HELLO
     | Some p => exists kp, Kind_of (kind p) = Some kp /\ k ∈ ALLOWED_AFTER kp
     end) /\
    sequence m = Z.of_nat (length pre) /\ causation_id m = message_id <$> last pre /\
    session_id m = ctx_session_id (execution_context t) /\ run_id m = ctx_run_id (execution_context t).

(** Every message extends the ones before it. *)
Definition chained (t : Transcript) : Prop :=
  forall pre m post, messages t = pre ++ m :: post -> extends t pre m.

Lemma chained_push t m : chained t -> extends t (messages t) m -> chained (push t m).
Proof.
  intros Ht Hm pre x post Heq. simpl in Heq. destruct post as [|y post] using rev_ind.
  - apply app_inj_tail in Heq as [<- <-]. exact Hm.
  - rewrite app_comm_cons, app_assoc in Heq. apply app_inj_tail in Heq as [Heq _]. exact (Ht _ _ _ Heq).
Qed.

Lemma Kind_roundtrip k : Kind_of (Kind_text k) = Some k.
Proof. by destruct k. Qed.
Lemma Role_roundtrip r : Role_of (Role_text r) = Some r.
Proof. by destruct r. Qed.

Lemma Kind_of_text s k : Kind_of s = Some k -> s = Kind_text k.
Proof. unfold Kind_of. intros H. apply find_some in H as [_ H]. by apply bool_decide_eq_true in H. Qed.

Lemma check_transition_ok t k :
  check_transition t k = Ok tt ->
  match last (messages t) with
  | None => k = HELLO
  | Some p => exists kp, Kind_of (kind p) = Some kp /\ k ∈ ALLOWED_AFTER kp
  end.
Proof.
  unfold check_transition. destruct (last (messages t)) as [m|].
  - destruct (Kind_of (kind m)) as [kp|] eqn:E; [|done]. case_bool_decide; [|done]. eauto.
  - by case_bool_decide.
Qed.

Lemma mismatch_none t k r m :
  mismatch t k r m = None ->
  sequence m = Z.of_nat (length (messages t)) /\ causation_id m = last_message_id t /\
  session_id m = ctx_session_id (execution_context t) /\ run_id m = ctx_run_id (execution_context t).
Proof.
  unfold mismatch. destruct (components t _) as [v c]. intros H. apply fmap_None in H.
  pose proof (find_none _ _ H) as Hn. clear H. simpl in Hn.
  pose proof (Hn ("sequence", _) ltac:(do 6 right; left; reflexivity)) as H1.
  pose proof (Hn ("causation_id", _) ltac:(do 8 right; left; reflexivity)) as H2.
  pose proof (Hn ("session_id", _) ltac:(do 4 right; left; reflexivity)) as H3.
  pose proof (Hn ("run_id", _) ltac:(do 5 right; left; reflexivity)) as H4.
  simpl in *. bool_to_prop. done.
Qed.

Lemma append_extends t k b now role t' m :
  seals -> append t k b now role = (t', Ok m) -> t' = push t m /\ extends t (messages t) m.
Proof.
  intros Hseal H. unfold append in H. destruct (Kind_of k) as [kk|] eqn:Hk; [|done].
  destruct (match opt_truthy role with Some _ => _ | None => _ end) as [r|]; [|done].
  destruct (negb (bool_decide (r ∈ ROLES_BY_KIND kk))); [done|].
  destruct (check_transition t kk) as [[]|] eqn:Hc; [|done].
  destruct (negb (valid _)); [done|]. destruct (terminal kk && _); [done|]. simplify_eq. split; [done|].
  destruct (Hseal (draft t kk r b now)) as [_ [h ->]]. unfold draft. destruct (components t _) as [v c].
  exists kk. simpl. rewrite Kind_roundtrip. split_and!; try done. by apply check_transition_ok.
Qed.

Lemma accept_extends t m t' m' : accept t m = (t', Ok m') -> m' = m /\ t' = push t m /\ extends t (messages t) m.
Proof.
  unfold accept. intros H. destruct (negb (valid m)); [done|]. destruct (negb (hash_ok m)); [done|].
  destruct (Kind_of (kind m)) as [k|] eqn:Hk; [|done]. destruct (Role_of (sender_role m)) as [r|]; [|done].
  destruct (negb (bool_decide _)); [done|]. destruct (check_transition t k) as [[]|] eqn:Hc; [|done].
  destruct (mismatch t k r m) eqn:Hm; [done|]. destruct (terminal k && _); [done|]. simplify_eq. split_and!; try done.
  apply mismatch_none in Hm as (? & ? & ? & ?). exists k. split_and!; try done. by apply check_transition_ok.
Qed.

Lemma append_err t k b now role t' e : append t k b now role = (t', Err e) -> t' = t.
Proof. unfold append. intros H. by repeat case_hyp H. Qed.

Lemma accept_err t m t' e : accept t m = (t', Err e) -> t' = t.
Proof. unfold accept. intros H. by repeat case_hyp H. Qed.

Lemma pexec_chained t op : seals -> chained t -> chained (pexec t op).
Proof.
  intros Hseal Ht. destruct op as [k b now role|m]; simpl.
  - destruct (append t k b now role) as [t' [m|e]] eqn:E; simpl.
    + apply append_extends in E as [-> E]; [|done]. by apply chained_push.
    + apply append_err in E as ->. done.
  - destruct (accept t m) as [t' [m'|e]] eqn:E; simpl.
    + apply accept_extends in E as (-> & -> & E). by apply chained_push.
    + apply accept_err in E as ->. done.
Qed.

Lemma chained_run ctx comps ops : seals -> chained (fold_left pexec ops (mkTranscript ctx comps [])).
Proof.
  intros Hseal. assert (H : forall t, chained t -> chained (fold_left pexec ops t)).
  { induction ops as [|op ops IH]; intros t Ht; simpl; [done|]. apply IH. by apply pexec_chained. }
  apply H. intros pre m post Heq. by destruct pre.
Qed.

(** C8: transcripts are well formed.  Whatever is appended and accepted, in any
    order and with any failures in between, the transcript starts with HELLO,
    follows the allowed transitions, numbers its messages from zero without
    gaps, chains each message to the one before by its id, and stays in one
    session and run. *)
Theorem transcript_chained ctx comps ops :
  seals -> chained (fold_left pexec ops (mkTranscript ctx comps [])).
Proof. apply chained_run. Qed.

(** Nothing follows the end: after FINALIZE or ABORT every further message,
    own or received, is refused and the transcript stays as it is. *)
Theorem nothing_after_end t m op :
  last (messages t) = Some m -> (kind m = "FINALIZE" \/ kind m = "ABORT") -> pexec t op = t.
Proof.
  intros Hl Hk. assert (Hc : forall k, exists e, check_transition t k = Err e).
  { intros k. unfold check_transition. rewrite Hl. destruct Hk as [-> | ->]; simpl; eauto. }
  destruct op as [k b now role|m']; simpl.
  - unfold append. destruct (Kind_of k) as [kk|]; [|done]. destruct (Hc kk) as [e He]. rewrite He.
    by repeat case_match.
  - unfold accept. destruct (negb (valid m')); [done|]. destruct (negb (hash_ok m')); [done|].
    destruct (Kind_of (kind m')) as [kk|]; [|done]. destruct (Hc kk) as [e He]. rewrite He. by repeat case_match.
Qed.

(** Peers agree: a message one side appends is accepted by a peer that
    holds the same transcript of the same context, and leaves both with the
    same transcript. *)
Theorem append_accept_agree t k b now role t' m :
  seals -> append t k b now role = (t', Ok m) -> accept t m = (t', Ok m).
Proof.
  intros Hseal H. unfold append in H. destruct (Kind_of k) as [kk|] eqn:Hk; [|done].
  destruct (match opt_truthy role with Some _ => _ | None => _ end) as [r|] eqn:Hr; [|done].
  destruct (bool_decide (r ∈ ROLES_BY_KIND kk)) eqn:Hrole; [|done]. simpl in H.
  destruct (check_transition t kk) as [[]|] eqn:Hc; [|done].
  destruct (valid (seal (draft t kk r b now))) eqn:Hv; [|done]. simpl in H.
  destruct (terminal kk && _) eqn:Hseq; [done|]. simplify_eq.
  unfold accept. rewrite Hv. destruct (Hseal (draft t kk r b now)) as [-> [h Hs]]. simpl.
  assert (Hkind : kind (seal (draft t kk r b now)) = Kind_text kk /\ sender_role (seal (draft t kk r b now)) = Role_text r).
  { rewrite Hs. unfold draft. by destruct (components t _). }
  destruct Hkind as [-> ->]. rewrite Kind_roundtrip, Role_roundtrip, Hrole, Hc. simpl.
  assert (Hmis : mismatch t kk r (seal (draft t kk r b now)) = None).
  { rewrite Hs. unfold mismatch, draft. destruct (components t _) as [v c]. simpl.
    repeat (rewrite bool_decide_true by done; simpl). rewrite Z.eqb_refl. simpl.
    repeat (rewrite bool_decide_true by done; simpl). done. }
  by rewrite Hmis, Hseq.
Qed.

(** Kinds inside an open bar, or the abort of one. *)
Definition in_bar (k : Kind) : bool :=
  match k with BAR_BEGIN | INTENT_BATCH | BROKER_EVENT_BATCH | RECALC_REQUEST | RECALC_RESULT | ABORT => true | _ => false end.

Lemma in_bar_next k k' : in_bar k = true -> k' ∈ ALLOWED_AFTER k -> k' = BAR_COMMIT \/ (in_bar k' = true /\ k' <> BAR_BEGIN).
Proof.
  intros Hk Hin. destruct k; try done; simpl in Hin;
    repeat (apply elem_of_cons in Hin as [->|Hin]; [by auto|]); by apply not_elem_of_nil in Hin.
Qed.

Lemma chained_step t pre a b post :
  chained t -> messages t = pre ++ a :: b :: post ->
  exists ka kb, Kind_of (kind a) = Some ka /\ Kind_of (kind b) = Some kb /\ kb ∈ ALLOWED_AFTER ka.
Proof.
  intros Ht Heq. destruct (Ht (pre ++ [a]) b post) as (kb & Hkb & Hl & _); [by rewrite <-app_assoc|].
  rewrite last_snoc in Hl. destruct Hl as (ka & Hka & Hin). eauto.
Qed.

(** From inside a bar, without a commit, the transcript stays inside it. *)
Lemma bar_stays_open t pre a mid e post ka :
  chained t -> messages t = pre ++ a :: mid ++ e :: post -> Kind_of (kind a) = Some ka -> in_bar ka = true ->
  (exists c, c ∈ mid /\ kind c = "BAR_COMMIT") \/
  exists ke, Kind_of (kind e) = Some ke /\ (ke = BAR_COMMIT \/ (in_bar ke = true /\ ke <> BAR_BEGIN)).
Proof.
  intros Ht. revert pre a ka. induction mid as [|x mid IH]; intros pre a ka Heq Hka Hin; simpl in Heq.
  - destruct (chained_step t pre a e post Ht Heq) as (ka' & ke & E1 & E2 & Hn). simplify_eq. right. exists ke.
    split; [done|]. by eapply in_bar_next.
  - destruct (chained_step t pre a x (mid ++ e :: post) Ht Heq) as (ka' & kx & E1 & E2 & Hn). simplify_eq.
    destruct (in_bar_next _ _ Hin Hn) as [->|[Hx _]].
    + left. exists x. split; [set_solver|]. by apply Kind_of_text in E2.
    + destruct (IH (pre ++ [a]) x kx) as [(c & Hc & Hcommit)|H]; [by rewrite <-app_assoc|done|done| |by right].
      left. exists c. split; [set_solver|done].
Qed.

(** Bars are committed: between the begin of a bar and the next bar, a
    checkpoint, a restore or the finalization, the transcript holds a
    BAR_COMMIT. *)
Theorem bar_committed_before_next ctx comps ops pre b mid e post :
  seals -> let t := fold_left pexec ops (mkTranscript ctx comps []) in
  messages t = pre ++ b :: mid ++ e :: post -> kind b = "BAR_BEGIN" ->
  kind e ∈ ["BAR_BEGIN"; "CHECKPOINT"; "RESTORE"; "FINALIZE"] ->
  exists c, c ∈ mid /\ kind c = "BAR_COMMIT".
Proof.
  intros Hseal t Heq Hb He. assert (Ht : chained t) by (by apply chained_run).
  destruct (bar_stays_open t pre b mid e post BAR_BEGIN Ht Heq) as [H|(ke & Hke & Hor)]; [by rewrite Hb|done|done|].
  exfalso. repeat (apply elem_of_cons in He as [E|He]; [rewrite E in Hke; vm_compute in Hke; simplify_eq; naive_solver|]).
  by apply not_elem_of_nil in He.
Qed.

End Protocol.

(** ** Witnesses *)

Definition w_seal (m : Message) : Message :=
  mkMessage (producer m) (producer_version m) (producer_commit m) (stack_id m) (created_at_utc_ms m)
    (message_id m) (sender_role m) (session_id m) (run_id m) (sequence m) (correlation_id m) (causation_id m) (kind m)
    (body m) "sealed".
Definition w_hash_ok (m : Message) : bool := bool_decide (content_hash m = "sealed").
Definition w_valid (m : Message) : bool := true.
Definition w_seq (l : list Message) : bool := true.

Definition w_ctx : ExecutionContext := mkContext "S" "R" "H".
Definition w_comps (c : Component) : string * string := ("1.0", "c").

Lemma w_seals : seals w_seal w_hash_ok.
Proof. intros m. split; [reflexivity|]. exists "sealed". reflexivity. Qed.

Definition w_pops : list ProtocolOp :=
  (fun k => Append k [] 1 None) <$>
    ["HELLO"; "LOAD_ARTIFACT"; "BAR_BEGIN"; "INIT_RUN"; "BAR_BEGIN"; "INTENT_BATCH"; "BAR_COMMIT"; "FINALIZE"; "BAR_BEGIN"].

Definition w_transcript : Transcript :=
  fold_left (pexec w_valid w_seal w_hash_ok w_seq) w_pops (mkTranscript w_ctx w_comps []).

Example w_transcript_kinds :
  kind <$> messages w_transcript = ["HELLO"; "LOAD_ARTIFACT"; "INIT_RUN"; "BAR_BEGIN"; "INTENT_BATCH"; "BAR_COMMIT"; "FINALIZE"].
Proof. vm_compute. reflexivity. Qed.

Lemma transcript_chained_witness : chained w_transcript.
Proof. apply (transcript_chained w_valid w_seal w_hash_ok w_seq w_ctx w_comps w_pops). exact w_seals. Defined.

Lemma nothing_after_end_witness :
  pexec w_valid w_seal w_hash_ok w_seq w_transcript (Append "BAR_BEGIN" [] 2 None) = w_transcript.
Proof.
  destruct (last (messages w_transcript)) as [m|] eqn:E; [|vm_compute in E; discriminate E].
  apply (nothing_after_end w_valid w_seal w_hash_ok w_seq w_transcript m); [exact E|]. left.
  vm_compute in E. injection E as <-. reflexivity.
Defined.

Lemma append_accept_agree_witness :
  let t := mkTranscript w_ctx w_comps [] in
  let '(t', r) := append w_valid w_seal w_seq t "HELLO" [] 1 None in
  exists m, r = Ok m /\ accept w_valid w_hash_ok w_seq t m = (t', Ok m).
Proof.
  cbv zeta. destruct (append w_valid w_seal w_seq (mkTranscript w_ctx w_comps []) "HELLO" [] 1 None) as [t' [m|e]] eqn:H;
    [|vm_compute in H; discriminate H].
  exists m. split; [reflexivity|].
  apply (append_accept_agree w_valid w_seal w_hash_ok w_seq (mkTranscript w_ctx w_comps []) "HELLO" [] 1 None t' m w_seals H).
Defined.

Definition w_at (n : nat) : Message :=
  nth n (messages w_transcript) (draft (mkTranscript w_ctx w_comps []) HELLO worker [] 0).

Lemma bar_committed_before_next_witness : exists c, c ∈ [w_at 4; w_at 5] /\ kind c = "BAR_COMMIT".
Proof.
  apply (bar_committed_before_next w_valid w_seal w_hash_ok w_seq w_ctx w_comps w_pops
    [w_at 0; w_at 1; w_at 2] (w_at 3) [w_at 4; w_at 5] (w_at 6) []);
    [exact w_seals|vm_compute; reflexivity|vm_compute; reflexivity|].
  apply (bool_decide_unpack (_ ∈ _)). vm_compute. exact I.
Defined.
