(* ===== verification/WorkerChild.v ===== *)
(** The worker's side of an isolated run: the bootstrap of
    [openpine/runtime/isolated_worker.py], with its own copy of the protocol and
    of its tables, and what makes that copy agree with [WorkerProtocol]'s.

    Hashing, sealing and validation belong to the contracts.  The loop over the
    strategy is [WorkerLoop]. *)

From Stdlib Require Import Ascii SpecFloat.
From S2P Require Import Prelude PyFloat PyValue Json WorkerProtocol RunIdentity.

#[local] Set Default Proof Using "Type".

(** ** The protocol of the bootstrap *)

Inductive ChildError :=
| CRuntime (message : string)
| CContract
| CKey (key : string)
| CType
| CStrategy (message : string).

(** The tables of the bootstrap know neither CHECKPOINT nor RESTORE. *)
Definition known (k : Kind) : bool := match k with CHECKPOINT | RESTORE => false | _ => true end.

Definition child_component (k : Kind) : Component :=
  match k with
  | INTENT_BATCH | RECALC_RESULT => pinelib
  | BROKER_EVENT_BATCH | RECALC_REQUEST | BAR_COMMIT => backtest_engine
  | _ => openpine
  end.

Definition child_role (k : Kind) : Role :=
  match k with
  | HELLO | INTENT_BATCH | RECALC_RESULT => worker
  | BROKER_EVENT_BATCH | RECALC_REQUEST | BAR_COMMIT => engine
  | _ => parent
  end.

Definition child_roles (k : Kind) : list Role := match k with ABORT => [parent; worker; engine] | _ => [child_role k] end.

Definition child_component_for (k : Kind) (r : Role) : Component :=
  if bool_decide (k = ABORT) && bool_decide (r = engine) then backtest_engine else child_component k.

Definition child_allowed_after (k : Kind) : list Kind :=
  match k with
  | HELLO => [LOAD_ARTIFACT; ABORT]
  | LOAD_ARTIFACT => [INIT_RUN; ABORT]
  | INIT_RUN => [BAR_BEGIN; FINALIZE; ABORT]
  | BAR_BEGIN => [INTENT_BATCH; ABORT]
  | INTENT_BATCH => [BROKER_EVENT_BATCH; BAR_COMMIT; ABORT]
  | BROKER_EVENT_BATCH => [RECALC_REQUEST; BAR_COMMIT; ABORT]
  | RECALC_REQUEST => [RECALC_RESULT; ABORT]
  | RECALC_RESULT => [INTENT_BATCH; ABORT]
  | BAR_COMMIT => [BAR_BEGIN; FINALIZE; ABORT]
  | CHECKPOINT | RESTORE | FINALIZE | ABORT => []
  end.

(** [_semver] of the bootstrap. *)
Definition child_semver (text : string) : string :=
  if str_contains "rc" text && negb (str_contains "-rc." text) then
    match partition_rc text with
    | Some (base, rc) => if str_truthy base && str_isdigit rc then base +:+ "-rc." +:+ rc else text
    | None => text
    end
  else text.

(** The identities of [_Protocol.__init__], for wheels with a name and a
    version. *)
Definition child_versions (rows : list (string * string)) : dict string string :=
  fold_left (fun d row => dset d row.1 (child_semver row.2)) rows [].

Definition child_identity (commits : dict string string) (rows : list (string * string)) (c : Component)
    : result ChildError (string * string) :=
  match dget (child_versions rows) (Component_text c) with
  | None => Err (CKey (Component_text c))
  | Some v => match dget commits (Component_text c) with Some k => Ok (v, k) | None => Err (CKey (Component_text c)) end
  end.

(** [_transition]. *)
Definition child_transition (t : Transcript) (k : option Kind) : result ChildError unit :=
  match last (messages t) with
  | None => if bool_decide (k = Some HELLO) then Ok tt else Err (CRuntime "worker protocol must start with HELLO")
  | Some m =>
      match Kind_of (kind m), k with
      | Some prev, Some k => if bool_decide (k ∈ child_allowed_after prev) then Ok tt
                             else Err (CRuntime "invalid worker protocol transition")
      | Some _, None => Err (CRuntime "invalid worker protocol transition")
      | None, _ => Err (CKey (kind m))
      end
  end.

Definition child_draft (t : Transcript) (k : Kind) (b : dict string json) (now : Z) : Message :=
  let c := child_component k in
  let '(version, commit) := components t c in
  let n := Z.of_nat (length (messages t)) in
  let ctx := execution_context t in
  mkMessage (Component_text c) version commit (ctx_stack_manifest_hash ctx) now
    (ctx_session_id ctx +:+ ":" +:+ pretty n +:+ ":" +:+ Kind_text k) (Role_text (child_role k)) (ctx_session_id ctx) (ctx_run_id ctx)
    n (ctx_run_id ctx) (last_message_id t) (Kind_text k) b "".

(** The comparison of the expected fields: [any(...)]. *)
Definition child_mismatch (t : Transcript) (k : Kind) (r : Role) (m : Message) : bool :=
  let c := child_component_for k r in
  let '(version, commit) := components t c in
  let ctx := execution_context t in
  existsb negb
    [bool_decide (producer m = Component_text c); bool_decide (producer_version m = version);
     bool_decide (producer_commit m = commit); bool_decide (stack_id m = ctx_stack_manifest_hash ctx);
     bool_decide (session_id m = ctx_session_id ctx); bool_decide (run_id m = ctx_run_id ctx);
     sequence m =? Z.of_nat (length (messages t)); bool_decide (correlation_id m = ctx_run_id ctx);
     bool_decide (causation_id m = last_message_id t); bool_decide (sender_role m = Role_text r)].

(** *** The two copies agree *)

(** A transcript both sides can hold: no checkpoint in it. *)
Definition plain_transcript (t : Transcript) : Prop :=
  forall m, last (messages t) = Some m -> exists k, Kind_of (kind m) = Some k /\ known k = true.

Lemma allowed_known p k : known p = true -> known k = true -> (k ∈ child_allowed_after p <-> k ∈ ALLOWED_AFTER p).
Proof. destruct p, k; intros Hp Hk; try discriminate; simpl; set_solver. Qed.

Lemma child_tables k r : known k = true ->
  child_component_for k r = component_for k r /\ child_roles k = ROLES_BY_KIND k /\ child_role k = ROLE_BY_KIND k.
Proof. by destruct k, r. Qed.

Lemma role_allowed k : ROLE_BY_KIND k ∈ ROLES_BY_KIND k.
Proof. destruct k; apply list_elem_of_here || (apply list_elem_of_In; simpl; tauto). Qed.

Lemma transition_agree t k : plain_transcript t -> known k = true ->
  child_transition t (Some k) = Ok tt <-> check_transition t k = Ok tt.
Proof.
  intros Ht Hk. unfold child_transition, check_transition. destruct (last (messages t)) as [m|] eqn:Hl.
  - destruct (Ht m Hl) as (p & -> & Hp). pose proof (allowed_known p k Hp Hk). repeat case_bool_decide; naive_solver.
  - repeat case_bool_decide; naive_solver.
Qed.

Lemma find_existsb {A} (l : list (A * bool)) : existsb negb (map snd l) = false <-> List.find (fun x => negb (snd x)) l = None.
Proof. induction l as [|[a []] l IH]; simpl; [done|exact IH|done]. Qed.

Lemma mismatch_agree t k r m : known k = true -> child_mismatch t k r m = false <-> mismatch t k r m = None.
Proof.
  intros Hk. unfold child_mismatch, mismatch. destruct (child_tables k r Hk) as (-> & _). destruct (components t _) as [v c].
  rewrite fmap_None. match goal with |- context [List.find ?f ?l] => exact (find_existsb l) end.
Qed.

Section Child.
Variable valid : Message -> bool.
Variable seal : Message -> Message.
Variable hash_ok : Message -> bool.
Variable sequence_ok : list Message -> bool.

(** [_Protocol.append]. *)
Definition child_append (t : Transcript) (k : Kind) (b : dict string json) (now : Z) : Transcript * result ChildError Message :=
  match child_transition t (Some k) with
  | Err e => (t, Err e)
  | Ok _ =>
      let payload := seal (child_draft t k b now) in
      if negb (valid payload) then (t, Err CContract)
      else if terminal k && negb (sequence_ok (messages t ++ [payload])) then (t, Err CContract)
      else (push t payload, Ok payload)
  end.

(** [_Protocol.accept]. *)
Definition child_accept (t : Transcript) (m : Message) : Transcript * result ChildError Message :=
  if negb (valid m) then (t, Err CContract)
  else if negb (hash_ok m) then (t, Err (CRuntime "worker protocol content hash is invalid"))
  else
    match child_transition t (Kind_of (kind m)), Kind_of (kind m) with
    | Err e, _ => (t, Err e)
    | Ok _, None => (t, Err (CKey (kind m)))
    | Ok _, Some k =>
        match Role_of (sender_role m) with
        | Some r =>
            if negb (bool_decide (r ∈ child_roles k)) then (t, Err (CRuntime "worker protocol sender role mismatch"))
            else if child_mismatch t k r m then (t, Err (CRuntime "worker protocol identity mismatch"))
            else if terminal k && negb (sequence_ok (messages t ++ [m])) then (t, Err CContract)
            else (push t m, Ok m)
        | None => (t, Err (CRuntime "worker protocol sender role mismatch"))
        end
    end.

Lemma accept_agree t m t' k :
  plain_transcript t -> Kind_of (kind m) = Some k -> known k = true ->
  child_accept t m = (t', Ok m) <-> accept valid hash_ok sequence_ok t m = (t', Ok m).
Proof.
  intros Ht Hk Hkn. unfold child_accept, accept. rewrite Hk. pose proof (transition_agree t k Ht Hkn) as Htr.
  destruct (valid m), (hash_ok m); simpl; try (by split; intros; simplify_eq).
  destruct (Role_of (sender_role m)) as [r|]; [|by destruct (child_transition t (Some k)); split; intros; simplify_eq].
  destruct (child_tables k r Hkn) as (_ & -> & _).
  destruct (bool_decide (r ∈ ROLES_BY_KIND k)); simpl; [|by destruct (child_transition t (Some k)); split; intros; simplify_eq].
  pose proof (mismatch_agree t k r m Hkn) as Hm.
  destruct (child_transition t (Some k)) as [[]|e], (check_transition t k) as [[]|e'].
  - destruct (child_mismatch t k r m), (mismatch t k r m).
    + by split; intros; simplify_eq.
    + by pose proof (proj2 Hm eq_refl).
    + by pose proof (proj1 Hm eq_refl).
    + destruct (terminal k && _); split; intros; simplify_eq; done.
  - by pose proof (proj1 Htr eq_refl).
  - by pose proof (proj2 Htr eq_refl).
  - by split; intros; simplify_eq.
Qed.

Lemma child_draft_eq t k b now : known k = true -> child_draft t k b now = draft t k (ROLE_BY_KIND k) b now.
Proof.
  intros Hk. unfold child_draft, draft. destruct (child_tables k (ROLE_BY_KIND k) Hk) as (_ & _ & ->).
  replace (component_for k (ROLE_BY_KIND k)) with (child_component k) by (by destruct k). done.
Qed.

Lemma append_agree t m t' k b now :
  plain_transcript t -> known k = true ->
  child_append t k b now = (t', Ok m) <-> append valid seal sequence_ok t (Kind_text k) b now None = (t', Ok m).
Proof.
  intros Ht Hkn. unfold child_append, append. rewrite Kind_roundtrip. cbn [opt_truthy].
  rewrite (bool_decide_true (ROLE_BY_KIND k ∈ ROLES_BY_KIND k)) by apply role_allowed. simpl.
  rewrite child_draft_eq by done. pose proof (transition_agree t k Ht Hkn) as Htr.
  destruct (child_transition t (Some k)) as [[]|e], (check_transition t k) as [[]|e'].
  - destruct (negb _); [by split; intros; simplify_eq|]. destruct (terminal k && _); by split; intros; simplify_eq.
  - by pose proof (proj1 Htr eq_refl).
  - by pose proof (proj2 Htr eq_refl).
  - by split; intros; simplify_eq.
Qed.

(** A transcript the bootstrap can hold: it is empty, or the bootstrap accepted
    or appended the last message. *)
Inductive bootstrap_transcript : Transcript -> Prop :=
| holds_empty t : messages t = [] -> bootstrap_transcript t
| holds_accepted t m t' : bootstrap_transcript t -> child_accept t m = (t', Ok m) -> bootstrap_transcript t'
| holds_appended t k b now t' m : bootstrap_transcript t -> child_append t k b now = (t', Ok m) -> bootstrap_transcript t'.

(** A transition of the bootstrap leads to a kind it knows. *)
Lemma transition_known t k : child_transition t (Some k) = Ok tt -> known k = true.
Proof.
  unfold child_transition. destruct (last (messages t)) as [m|].
  - destruct (Kind_of (kind m)) as [p|]; [|done]. case_bool_decide as H; [|done]. intros _.
    apply list_elem_of_In in H. destruct p, k; simpl in H; try done; by repeat destruct H as [H|H].
  - case_bool_decide; by simplify_eq.
Qed.

Lemma child_accept_known t m t' m' : child_accept t m = (t', Ok m') ->
  m' = m /\ t' = push t m /\ exists k, Kind_of (kind m) = Some k /\ known k = true.
Proof.
  unfold child_accept. intros H. destruct (negb (valid m)); [done|]. destruct (negb (hash_ok m)); [done|].
  destruct (child_transition t _) as [[]|] eqn:Ht; [|done]. destruct (Kind_of (kind m)) as [k|]; [|done].
  apply transition_known in Ht. destruct (Role_of _); [|done]. repeat (destruct (negb _); [done|]). destruct (child_mismatch _ _ _ _); [done|].
  destruct (_ && _); simplify_eq. eauto.
Qed.

Lemma child_append_known t k b now t' m : seals seal hash_ok -> child_append t k b now = (t', Ok m) ->
  known k = true /\ t' = push t m /\ kind m = Kind_text k.
Proof.
  intros Hseal. unfold child_append. destruct (child_transition t _) as [[]|] eqn:Ht; [|done].
  apply transition_known in Ht. destruct (negb _); [done|]. destruct (_ && _); [done|]. intros H. simplify_eq. split_and!; [done|done|].
  destruct (Hseal (child_draft t k b now)) as [_ [h ->]]. unfold child_draft. by destruct (components _ _).
Qed.

Lemma bootstrap_plain t : seals seal hash_ok -> bootstrap_transcript t -> plain_transcript t.
Proof.
  intros Hseal. induction 1 as [t Ht|t m t' _ _ H|t k b now t' m _ _ H]; intros x Hx.
  - by rewrite Ht in Hx.
  - apply child_accept_known in H as (_ & -> & k & Hk & Hkn). simpl in Hx. rewrite last_snoc in Hx. simplify_eq. eauto.
  - apply child_append_known in H as (Hkn & -> & Hk); [|done]. simpl in Hx. rewrite last_snoc in Hx. simplify_eq.
    exists k. by rewrite Hk, Kind_roundtrip.
Qed.

Lemma unknown_kind k : known k = true <-> k <> CHECKPOINT /\ k <> RESTORE.
Proof. by destruct k; split; intros H; try done; destruct H. Qed.

(** C29: the bootstrap carries a second copy of the protocol, with tables of its
    own.  On every transcript the bootstrap can come to hold, its copy accepts
    a message exactly when the parent's does and the kind is neither CHECKPOINT
    nor RESTORE, and builds a message exactly when the parent's builds the same
    one and the kind is neither of the two; the transcript is then the same on
    both sides, and a message it does not accept leaves it as it was. *)
Theorem protocols_agree t m t' k b now :
  seals seal hash_ok -> bootstrap_transcript t ->
  (child_accept t m = (t', Ok m) <->
   accept valid hash_ok sequence_ok t m = (t', Ok m) /\ Kind_of (kind m) <> Some CHECKPOINT /\ Kind_of (kind m) <> Some RESTORE) /\
  (child_append t k b now = (t', Ok m) <->
   append valid seal sequence_ok t (Kind_text k) b now None = (t', Ok m) /\ k <> CHECKPOINT /\ k <> RESTORE) /\
  (forall e, child_accept t m = (t', Err e) -> t' = t).
Proof.
  intros Hseal Hb. pose proof (bootstrap_plain t Hseal Hb) as Hp. split_and!.
  - split.
    + intros H. pose proof H as (_ & _ & k0 & Hk & Hkn)%child_accept_known. split; [by eapply accept_agree|].
      rewrite Hk. apply unknown_kind in Hkn as [? ?]. split; congruence.
    + intros (H & H1 & H2). assert (Hk : exists k0, Kind_of (kind m) = Some k0 /\ known k0 = true).
      { destruct (Kind_of (kind m)) as [k0|] eqn:E; [exists k0; split; [done|]; apply unknown_kind; split; congruence|].
        exfalso. unfold accept in H. rewrite E in H. repeat case_match; done. }
      destruct Hk as (k0 & Hk & Hkn). by eapply accept_agree.
  - split.
    + intros H. pose proof H as (Hkn & _)%child_append_known; [|done]. split; [by apply append_agree|by apply unknown_kind].
    + intros (H & Hkn%unknown_kind). by apply append_agree.
  - intros e. unfold child_accept. repeat case_match; congruence.
Qed.

End Child.

(** What the checks of the parent let through, the bootstrap reads the same
    identities from. *)
Lemma child_semver_agree v s : semver (Some v) = Ok s -> child_semver v = s.
Proof.
  unfold semver, child_semver. destruct (opt_truthy (Some v)) as [w|] eqn:E; [|done]. apply opt_truthy_Some in E as [E _].
  simplify_eq. destruct (_ && _); [|by intros [= <-]].
  destruct (partition_rc w) as [[base rc]|]; [destruct (_ && _)|]; by intros [= <-].
Qed.

Definition named_row (row : string * string) : option string * option string := (Some row.1, Some row.2).

Lemma wheel_versions_agree rows d versions :
  result_fold (fun d (row : option string * option string) =>
    match row.1 with None => Ok d | Some n => let! v := semver row.2 in Ok (dset d n v) end) d (named_row <$> rows) = Ok versions ->
  fold_left (fun d row => dset d row.1 (child_semver row.2)) rows d = versions.
Proof.
  revert d. induction rows as [|[n v] rows IH]; intros d H; simpl in *; [by simplify_eq|].
  destruct (semver (Some v)) as [s|] eqn:E; [|done]. simpl in H. rewrite (child_semver_agree v s E). by apply IH.
Qed.

Lemma identities_agree commits rows f c :
  component_identities commits (named_row <$> rows) = Ok f -> child_identity commits rows c = Ok (f c).
Proof.
  unfold component_identities, wheel_versions. intros H. apply result_bind_ok in H as (versions & Hv & H).
  unfold child_identity, child_versions. rewrite (wheel_versions_agree rows [] versions Hv).
  assert (Hi : forall x p, identity_of versions commits x = Some p -> exists v k, dget versions (Component_text x) = Some v /\
    dget commits (Component_text x) = Some k /\ p = (v, k)).
  { unfold identity_of. intros x p Hx. destruct (opt_truthy _) as [v|] eqn:E; [|done]. apply opt_truthy_Some in E as [E _].
    simpl in Hx. destruct (dget commits _) as [k|] eqn:Ek; [|done]. simpl in Hx. case_bool_decide; simplify_eq. eauto. }
  destruct (identity_of versions commits openpine) as [a|] eqn:Ea; [|done].
  destruct (identity_of versions commits pinelib) as [b|] eqn:Eb; [|done].
  destruct (identity_of versions commits backtest_engine) as [e|] eqn:Ee; [|done]. simplify_eq.
  apply Hi in Ea as (va & ka & Ha & Hka & ->). apply Hi in Eb as (vb & kb & Hb & Hkb & ->).
  apply Hi in Ee as (ve & ke & He & Hke & ->). destruct c; simpl in *; by rewrite ?Ha, ?Hka, ?Hb, ?Hkb, ?He, ?Hke.
Qed.
