(* ===== verification/WorkerLoop.v ===== *)
(** The interactive loop of the worker: [_legacy_projection],
    [_LedgerProjection] and [_interactive_loop] of the bootstrap of
    [openpine/runtime/isolated_worker.py].

    The strategy with its context and runtime is a state [S]; each call the loop
    makes on them may raise.  Methods that are only called when they exist are
    the identity otherwise.  JSON numbers are texts, an integer literal being an
    [int]. *)

From Stdlib Require Import Ascii SpecFloat.
From S2P Require Import Prelude PyFloat PyValue Json Admission WorkerProtocol RunIdentity WorkerChild.

#[local] Set Default Proof Using "Type".

(** ** Conversions *)

Definition json_scalar (v : json) : option pyval :=
  match v with
  | JNull => Some PNone
  | JBool b => Some (PBool b)
  | JNum t => match literal_int t with Some z => Some (PInt z) | None => PFloat <$> float_of_str t end
  | JStr s => Some (PStr s)
  | _ => None
  end.

(** [float(v)]. *)
Definition jfloat (v : json) : result ChildError float :=
  match json_scalar v with
  | Some p => match py_float p with Ok x => Ok x | Err _ => Err CType end
  | None => Err CType
  end.

(** [int(v)] of the integers the schemas let through. *)
Definition jint (v : json) : result ChildError Z :=
  match v with JNum t => match literal_int t with Some z => Ok z | None => Err CType end | _ => Err CType end.

Definition jlower (v : json) : result ChildError string := match v with JStr s => Ok (str_lower s) | _ => Err CType end.

(** [d[key]]. *)
Definition jkey (d : dict string json) (key : string) : result ChildError json :=
  match dget d key with Some v => Ok v | None => Err (CKey key) end.

Definition jrow (v : json) : result ChildError (dict string json) := match v with JObj l => Ok (jdict l) | _ => Err CType end.
Definition jrows (v : json) : result ChildError (list json) := match v with JArr l => Ok l | _ => Err CType end.

Definition kfloat (d : dict string json) (key : string) : result ChildError float := let! v := jkey d key in jfloat v.
Definition kint (d : dict string json) (key : string) : result ChildError Z := let! v := jkey d key in jint v.

(** [_safe]: no float leaves the worker. *)
Fixpoint safe (v : json) : json :=
  match v with
  | JNum t => match literal_int t with Some _ => v | None => JNull end
  | JArr l => JArr (map safe l)
  | JObj l => JObj (map (fun kv => (kv.1, safe kv.2)) l)
  | _ => v
  end.

(** ** The projection of the broker *)

(** A value of the projection: a float, a value taken over as it is, or rows. *)
Inductive pval := PF (x : float) | PJ (v : json) | PT (rows : list (list (string * pval))).

Definition one_if (b : bool) : float := float_of_Z (if b then 1 else -1).

Definition is_text (v : json) (s : string) : bool := match v with JStr t => bool_decide (t = s) | _ => false end.

(** [float(row["qty"]) * (1 if row["direction"] == "LONG" else -1)]. *)
Definition signed_size (row : dict string json) : result ChildError float :=
  let! q := kfloat row "qty" in let! d := jkey row "direction" in Ok (fmul q (one_if (is_text d "LONG"))).

Definition open_trade (v : json) : result ChildError (list (string * pval)) :=
  let! row := jrow v in
  let! price := kfloat row "entry_price" in
  let! time := jkey row "entry_time_utc_ms" in
  let! profit := kfloat row "unrealized_pnl" in
  let! qty := kfloat row "qty" in
  let! dir := jkey row "direction" in
  let! side := jlower dir in
  let! size := signed_size row in
  let! name := jkey row "entry_name" in
  let! index := jkey row "entry_bar_index" in
  Ok [("entry_price", PF price); ("entry_time", PJ time); ("profit", PF profit); ("commission", PF f_zero); ("qty", PF qty);
      ("side", PJ (JStr side)); ("size", PF size); ("entry_id", PJ name); ("entry_bar_index", PJ index)].

Definition closed_trade (v : json) : result ChildError (list (string * pval)) :=
  let! row := jrow v in
  let! entry := kfloat row "entry_price" in
  let! exit := kfloat row "exit_price" in
  let! entry_time := jkey row "entry_time_utc_ms" in
  let! exit_time := jkey row "exit_time_utc_ms" in
  let! profit := kfloat row "realized_pnl" in
  let! commission := kfloat row "commission" in
  let! qty := kfloat row "qty" in
  let! dir := jkey row "direction" in
  let! side := jlower dir in
  let! size := signed_size row in
  let! name := jkey row "entry_name" in
  let! entry_index := jkey row "entry_bar_index" in
  let! exit_index := jkey row "exit_bar_index" in
  Ok [("entry_price", PF entry); ("exit_price", PF exit); ("entry_time", PJ entry_time); ("exit_time", PJ exit_time);
      ("profit", PF profit); ("commission", PF commission); ("qty", PF qty); ("side", PJ (JStr side)); ("size", PF size);
      ("entry_id", PJ name); ("entry_bar_index", PJ entry_index); ("exit_bar_index", PJ exit_index)].

Definition closed_trade_fields : list string :=
  ["entry_price"; "exit_price"; "entry_time"; "exit_time"; "profit"; "profit_percent"; "commission"; "qty"; "side"; "size";
   "entry_id"; "exit_id"; "entry_comment"; "exit_comment"; "max_runup"; "max_drawdown"; "entry_bar_index"; "exit_bar_index"].
Definition open_trade_fields : list string :=
  ["entry_price"; "exit_price"; "entry_time"; "exit_time"; "profit"; "profit_percent"; "commission"; "qty"; "side"; "size";
   "entry_id"; "exit_id"; "max_runup"; "max_drawdown"; "entry_bar_index"].

(** What [_LedgerProjection.__getattr__] gives: a value, or the function of a
    trade metric, by the log and the field it reads; [None] is an
    [AttributeError]. *)
Inductive attribute := AValue (v : pval) | AMetric (log field : string).

Definition ledger_attribute (payload : list (string * pval)) (name : string) : option attribute :=
  match strip_prefix "closedtrades_" name with
  | Some f =>
      let field := if bool_decide (f = "net_profit") then "profit" else f in
      if bool_decide (field ∈ closed_trade_fields) then Some (AMetric "closed_trade_log" field) else None
  | None =>
      match strip_prefix "opentrades_" name with
      | Some field => if bool_decide (field ∈ open_trade_fields) then Some (AMetric "open_trade_log" field) else None
      | None => AValue <$> dget payload name
      end
  end.

(** The metric at an index: [None] stands for an argument that is not an [int].
    The answer [None] is [na]. *)
Definition trade_metric (payload : list (string * pval)) (log field : string) (index : option Z) : result ChildError (option pval) :=
  match dget payload log with
  | Some (PT rows) =>
      match index with
      | Some i =>
          if (i <? 0)%Z then Ok None
          else match rows !! Z.to_nat i with
               | None => Ok None
               | Some row => Ok (match dget row field with Some (PJ JNull) => None | v => v end)
               end
      | None => Ok None
      end
  | _ => Err (CRuntime ("broker projection " +:+ log +:+ " must be an array"))
  end.

(** The kinds a worker can receive after each state it can be in. *)
Lemma next_kinds p k : k ∈ child_allowed_after p ->
  match p with
  | HELLO => k = LOAD_ARTIFACT \/ k = ABORT
  | LOAD_ARTIFACT => k = INIT_RUN \/ k = ABORT
  | INIT_RUN | BAR_COMMIT => k = BAR_BEGIN \/ k = FINALIZE \/ k = ABORT
  | INTENT_BATCH => k = BROKER_EVENT_BATCH \/ k = BAR_COMMIT \/ k = ABORT
  | BROKER_EVENT_BATCH => k = RECALC_REQUEST \/ k = BAR_COMMIT \/ k = ABORT
  | _ => True
  end.
Proof. rewrite list_elem_of_In. destruct p; simpl; intuition congruence. Qed.

Section Loop.
Variable valid_payload : string -> dict string json -> bool.
Variable verify_content_hash : dict string json -> string -> bool.

Definition projection_schema : string := "openpine.broker_projection.v1".

(** [_legacy_projection]. *)
Definition legacy_projection (v : json) : result ChildError (list (string * pval)) :=
  let! sealed := jrow v in
  if negb (valid_payload projection_schema sealed) then Err CContract
  else if negb (verify_content_hash sealed projection_schema) then Err (CRuntime "broker projection content hash is invalid")
  else
    let! p := jkey sealed "position" in
    let! position := jrow p in
    let! o := jkey sealed "open_trades" in
    let! orows := jrows o in
    let! open_trades := result_map open_trade orows in
    let! c := jkey sealed "closed_trades" in
    let! crows := jrows c in
    let! closed_trades := result_map closed_trade crows in
    let! cash := kfloat sealed "cash" in
    let! equity := kfloat sealed "equity" in
    let! net := kfloat sealed "realized_pnl" in
    let! open_profit := kfloat sealed "unrealized_pnl" in
    let! gross_profit := kfloat sealed "gross_profit" in
    let! gross_loss := kfloat sealed "gross_loss" in
    let! qty := kfloat position "qty" in
    let! dir := jkey position "direction" in
    let! avg := jkey position "avg_price" in
    let! avg_price := match avg with JNull => Ok f_zero | _ => jfloat avg end in
    let! entry_name := jkey position "entry_name" in
    let! direction := jlower dir in
    let! wins := jkey sealed "winning_trades" in
    let! losses := jkey sealed "losing_trades" in
    let! evens := jkey sealed "even_trades" in
    let! drawdown := kfloat sealed "max_drawdown" in
    let! runup := kfloat sealed "max_runup" in
    let! orders := jkey sealed "orders" in
    let! fills := jkey sealed "fills" in
    Ok [("cash", PF cash); ("equity", PF equity); ("netprofit", PF net); ("openprofit", PF open_profit);
        ("grossprofit", PF gross_profit); ("grossloss", PF gross_loss);
        ("position_size", PF (fmul qty (one_if (negb (is_text dir "SHORT"))))); ("position_avg_price", PF avg_price);
        ("position_entry_name", PJ entry_name); ("position_direction", PJ (JStr direction));
        ("opentrades", PJ (num_int (Z.of_nat (length open_trades)))); ("closedtrades", PJ (num_int (Z.of_nat (length closed_trades))));
        ("wintrades", PJ wins); ("losstrades", PJ losses); ("eventrades", PJ evens); ("max_drawdown", PF drawdown);
        ("max_runup", PF runup); ("orders", PJ orders); ("fills", PJ fills);
        ("open_trade_log", PT open_trades); ("closed_trade_log", PT closed_trades)].

(** The metrics [_LedgerProjection] lets a strategy ask for and that
    [_legacy_projection] never fills in. *)
Definition unfilled_closed : list string :=
  ["profit_percent"; "exit_id"; "entry_comment"; "exit_comment"; "max_runup"; "max_drawdown"].
Definition unfilled_open : list string := ["exit_price"; "exit_time"; "profit_percent"; "exit_id"; "max_runup"; "max_drawdown"].

Lemma result_map_Forall {E A B} (f : A -> result E B) (Q : B -> Prop) l l' :
  (forall a b, f a = Ok b -> Q b) -> result_map f l = Ok l' -> Forall Q l'.
Proof.
  intros Hf. revert l'. induction l as [|a l IH]; intros l' H; simpl in H; [by simplify_eq|].
  apply result_bind_ok in H as (b & Hb & H). apply result_bind_ok in H as (bs & Hbs & H). simplify_eq. constructor; eauto.
Qed.

Definition lacks (fields : list string) (row : list (string * pval)) : Prop := forall f, f ∈ fields -> dget row f = None.

Lemma lacks_cons f fields row : dget row f = None -> lacks fields row -> lacks (f :: fields) row.
Proof. intros H1 H2 g [->|Hg]%elem_of_cons; [done|by apply H2]. Qed.

Lemma lacks_nil row : lacks [] row.
Proof. intros f H. by apply elem_of_nil in H. Qed.

Lemma open_trade_lacks v row : open_trade v = Ok row -> lacks unfilled_open row.
Proof.
  unfold open_trade. intros H. repeat (apply result_bind_ok in H as (? & _ & H)). simplify_eq.
  repeat (apply lacks_cons; [reflexivity|]). apply lacks_nil.
Qed.

Lemma closed_trade_lacks v row : closed_trade v = Ok row -> lacks unfilled_closed row.
Proof.
  unfold closed_trade. intros H. repeat (apply result_bind_ok in H as (? & _ & H)). simplify_eq.
  repeat (apply lacks_cons; [reflexivity|]). apply lacks_nil.
Qed.

Lemma metric_lacks payload log field i rows fields :
  dget payload log = Some (PT rows) -> Forall (lacks fields) rows -> field ∈ fields -> trade_metric payload log field i = Ok None.
Proof.
  intros E Hr Hf. unfold trade_metric. rewrite E. destruct i as [z|]; [|done]. destruct (z <? 0)%Z; [done|].
  destruct (rows !! Z.to_nat z) as [row|] eqn:El; [|done]. rewrite Forall_lookup in Hr. by rewrite (Hr _ _ El _ Hf).
Qed.

(** Whatever the projection of the broker holds, the strategy is given [na] for
    these metrics of every trade. *)
Lemma unfilled_metrics v payload field i :
  legacy_projection v = Ok payload ->
  (field ∈ unfilled_closed -> ledger_attribute payload ("closedtrades_" +:+ field) = Some (AMetric "closed_trade_log" field) /\
                             trade_metric payload "closed_trade_log" field i = Ok None) /\
  (field ∈ unfilled_open -> ledger_attribute payload ("opentrades_" +:+ field) = Some (AMetric "open_trade_log" field) /\
                            trade_metric payload "open_trade_log" field i = Ok None).
Proof.
  unfold legacy_projection. intros H. apply result_bind_ok in H as (sealed & _ & H).
  destruct (negb _); [done|]. destruct (negb _); [done|].
  do 4 (apply result_bind_ok in H as (? & _ & H)). apply result_bind_ok in H as (opens & Ho & H).
  do 2 (apply result_bind_ok in H as (? & _ & H)). apply result_bind_ok in H as (closeds & Hc & H).
  repeat (apply result_bind_ok in H as (? & _ & H)). simplify_eq.
  apply (result_map_Forall _ _ _ _ open_trade_lacks) in Ho. apply (result_map_Forall _ _ _ _ closed_trade_lacks) in Hc.
  split; intros Hf; (split; [|by eapply metric_lacks]).
  - rewrite list_elem_of_In in Hf. simpl in Hf. repeat destruct Hf as [<-|Hf]; [..|done]; reflexivity.
  - rewrite list_elem_of_In in Hf. simpl in Hf. repeat destruct Hf as [<-|Hf]; [..|done]; reflexivity.
Qed.

(** ** The loop *)

Record PineBar := mkPineBar {
  pb_time : Z; pb_open : float; pb_high : float; pb_low : float; pb_close : float; pb_volume : float; pb_time_close : Z
}.

Variable valid : Message -> bool.
Variable seal : Message -> Message.
Variable hash_ok : Message -> bool.
Variable sequence_ok : list Message -> bool.

(** [aggregate_batch_hash] of a batch of intents. *)
Variable batch_hash : list json -> string.

(** The execution context and the artifact the worker was started with. *)
Variable context : dict string json.
Variable generated_artifact : dict string json.

(** The strategy: [rt.begin_bar], the ledger view with [closedtrades],
    [begin_intent_callback], [_process_bar], the three calls of a commit, and
    the events on the tape. *)
Context {S : Type}.
Variable begin_bar : S -> PineBar -> result string S.
Variable attach_view : S -> list (string * pval) -> result string S.
Variable begin_callback : S -> json -> result string S.
Variable process_bar : S -> PineBar -> json -> result string S.
Variable commit_intents end_bar commit_history : S -> result string S.
Variable tape_events : S -> list json.

Definition call {A} (r : result string A) : result ChildError A := match r with Ok a => Ok a | Err e => Err (CStrategy e) end.

Definition bar_key : Type := json * Z.

(** What the loop keeps; [ch_out] is what it has written, and [ch_calls] is not
    in the code: the bars begun, processed and committed so far. *)
Inductive Call := Begun (k : bar_key) | Processed (k : bar_key) | Committed (k : bar_key).

Record Child := mkChild {
  ch_protocol : Transcript; ch_loaded : bool; ch_initialized : bool; ch_key : option bar_key; ch_bar : option PineBar;
  ch_sent : nat; ch_intent : option Message; ch_strategy : S; ch_out : list Message; ch_calls : list Call
}.

Definition with_protocol (c : Child) (t : Transcript) : Child :=
  mkChild t (ch_loaded c) (ch_initialized c) (ch_key c) (ch_bar c) (ch_sent c) (ch_intent c) (ch_strategy c) (ch_out c) (ch_calls c).
Definition with_strategy (c : Child) (s : S) (calls : list Call) : Child :=
  mkChild (ch_protocol c) (ch_loaded c) (ch_initialized c) (ch_key c) (ch_bar c) (ch_sent c) (ch_intent c) s (ch_out c) calls.

(** [commit_current]. *)
Definition commit_current (c : Child) : result ChildError Child :=
  match ch_key c with
  | None => Ok c
  | Some k =>
      let! s1 := call (commit_intents (ch_strategy c)) in
      let! s2 := call (end_bar s1) in
      let! s3 := call (commit_history s2) in
      Ok (mkChild (ch_protocol c) (ch_loaded c) (ch_initialized c) None None (ch_sent c) (ch_intent c) s3 (ch_out c)
            (ch_calls c ++ [Committed k]))
  end.

(** [protocol.append], and the line it is written on. *)
Definition respond (c : Child) (k : Kind) (b : dict string json) (now : Z) : result ChildError (Child * Message) :=
  match child_append valid seal sequence_ok (ch_protocol c) k b now with
  | (_, Err e) => Err e
  | (t, Ok m) =>
      Ok (mkChild t (ch_loaded c) (ch_initialized c) (ch_key c) (ch_bar c) (ch_sent c) (ch_intent c) (ch_strategy c)
            (ch_out c ++ [m]) (ch_calls c), m)
  end.

(** The strategy sees the projection of the message and processes the bar. *)
Definition evaluate (c : Child) (k : bar_key) (bar : PineBar) (b : dict string json) : result ChildError Child :=
  let! projection := jkey b "broker_projection" in
  let! view := legacy_projection projection in
  let! s1 := call (attach_view (ch_strategy c) view) in
  let! iteration := jkey b "recalc_iteration" in
  let! s2 := call (begin_callback s1 iteration) in
  let! index := jkey b "bar_index" in
  let! s3 := call (process_bar s2 bar index) in
  Ok (with_strategy c s3 (ch_calls c ++ [Processed k])).

(** The events that have not been sent, as the next INTENT_BATCH. *)
Definition send_intents (c : Child) (index iteration : json) (now : Z) : result ChildError Child :=
  let events := tape_events (ch_strategy c) in
  let batch := map safe (drop (ch_sent c) events) in
  let! run := jkey context "run_id" in
  let! cm := respond c INTENT_BATCH [("run_id", run); ("bar_index", index); ("recalc_iteration", iteration);
                                     ("intent_batch_hash", JStr (batch_hash batch)); ("intents", JArr batch)] now in
  let '(c, m) := cm in
  Ok (mkChild (ch_protocol c) (ch_loaded c) (ch_initialized c) (ch_key c) (ch_bar c) (length events) (Some m) (ch_strategy c)
        (ch_out c) (ch_calls c)).

Definition same_key (a b : bar_key) : bool := json_eqb a.1 b.1 && (a.2 =? b.2)%Z.

Definition bar_schema : string := "openpine.marketdata.bar.v2".

(** The numbers of a bar that are read before anything else. *)
Record Ohlc := mkOhlc { r_time : Z; r_open : float; r_high : float; r_low : float; r_close : float }.

Definition read_ohlc (raw : dict string json) : result ChildError Ohlc :=
  let! t := kint raw "open_time_utc_ms" in
  let! o := kfloat raw "open" in
  let! h := kfloat raw "high" in
  let! l := kfloat raw "low" in
  let! cl := kfloat raw "close" in
  Ok (mkOhlc t o h l cl).

Definition pine_bar (raw : dict string json) (r : Ohlc) : result ChildError PineBar :=
  let! v := kfloat raw "volume" in
  let! tc := kint raw "close_time_utc_ms" in
  Ok (mkPineBar (r_time r) (r_open r) (r_high r) (r_low r) (r_close r) v tc).

(** [BAR_BEGIN]: the bar is begun unless it is the current one. *)
Definition open_bar (c : Child) (k : bar_key) (raw : dict string json) (r : Ohlc) : result ChildError (Child * PineBar) :=
  match ch_key c, ch_bar c with
  | Some k0, Some b =>
      if same_key k0 k then Ok (c, b) else Err (CRuntime "previous bar must be committed before BAR_BEGIN")
  | Some _, None => Err CType
  | None, _ =>
      let! bar := pine_bar raw r in
      let! s := call (begin_bar (ch_strategy c) bar) in
      Ok (mkChild (ch_protocol c) (ch_loaded c) (ch_initialized c) (Some k) (Some bar) (ch_sent c) (ch_intent c) s (ch_out c)
            (ch_calls c ++ [Begun k]), bar)
  end.

Definition handle_bar_begin (c : Child) (b : dict string json) : result ChildError Child :=
  let! raw := (let! v := jkey b "bar" in jrow v) in
  let! _ := jkey b "broker_projection" in
  if negb (verify_content_hash raw bar_schema) then Err (CRuntime "bar content hash is invalid")
  else
    let! want := jkey b "bar_hash" in
    let! have := jkey raw "bar_content_hash" in
    if negb (json_eqb want have) then Err (CRuntime "bar identity mismatch")
    else
      let! r := read_ohlc raw in
      let! index := jkey b "bar_index" in
      let! iteration := jkey b "recalc_iteration" in
      let! cb := open_bar c (index, r_time r) raw r in
      let! c := evaluate cb.1 (index, r_time r) cb.2 b in
      send_intents c index iteration (r_time r).

(** [RECALC_REQUEST]: the current bar is processed again.  The key and the bar
    are set and cleared together. *)
Definition handle_recalc (c : Child) (b : dict string json) : result ChildError Child :=
  match ch_key c, ch_bar c, ch_intent c with
  | Some k, Some bar, Some intent =>
      let! c := evaluate c k bar b in
      let! run := jkey context "run_id" in
      let! index := jkey b "bar_index" in
      let! iteration := jkey b "recalc_iteration" in
      let! hash := jkey (body intent) "intent_batch_hash" in
      let! cm := respond c RECALC_RESULT [("run_id", run); ("bar_index", index); ("recalc_iteration", iteration);
        ("intent_batch_message_id", JStr (message_id intent)); ("intent_batch_hash", hash)] (pb_time bar) in
      send_intents cm.1 index iteration (pb_time bar)
  | _, _, _ => Err (CRuntime "recalculation has no active callback")
  end.

Definition same_value (b : dict string json) (key : string) (d : dict string json) (dkey : string) : result ChildError bool :=
  let! v := jkey b key in let! w := jkey d dkey in Ok (json_eqb v w).

Definition handle_load (c : Child) (b : dict string json) : result ChildError Child :=
  let! a := same_value b "artifact_hash" generated_artifact "content_hash" in
  if negb a then Err (CRuntime "loaded artifact identity mismatch") else
  let! m := same_value b "module_hash" generated_artifact "emitted_module_hash" in
  if negb m then Err (CRuntime "loaded artifact identity mismatch") else
  let! e := same_value b "entrypoint_module" generated_artifact "entrypoint_module" in
  if negb e then Err (CRuntime "loaded artifact identity mismatch") else
  let! l := same_value b "entrypoint_class" generated_artifact "entrypoint_class" in
  if negb l then Err (CRuntime "loaded artifact identity mismatch")
  else Ok (mkChild (ch_protocol c) true (ch_initialized c) (ch_key c) (ch_bar c) (ch_sent c) (ch_intent c) (ch_strategy c)
             (ch_out c) (ch_calls c)).

Definition handle_init (c : Child) (b : dict string json) : result ChildError Child :=
  if negb (ch_loaded c) then Err (CRuntime "artifact must be loaded before run initialization")
  else
    let! given := jkey b "execution_context" in
    if negb (same_dict given (JObj context)) then Err (CRuntime "run initialization identity mismatch") else
    let! h := same_value b "execution_context_hash" context "content_hash" in
    if negb h then Err (CRuntime "run initialization identity mismatch") else
    let! r := same_value b "run_id" context "run_id" in
    if negb r then Err (CRuntime "run initialization identity mismatch")
    else Ok (mkChild (ch_protocol c) (ch_loaded c) true (ch_key c) (ch_bar c) (ch_sent c) (ch_intent c) (ch_strategy c)
               (ch_out c) (ch_calls c)).

(** After a message: the loop goes on, or the worker ends with a status. *)
Inductive Next := Going (c : Child) | Exited (status : Z) (c : Child).

Definition go (r : result ChildError Child) : result ChildError Next := let! c := r in Ok (Going c).

(** The body of the loop after [protocol.accept]. *)
Definition handle (c : Child) (m : Message) : result ChildError Next :=
  match Kind_of (kind m) with
  | Some LOAD_ARTIFACT => go (handle_load c (body m))
  | Some INIT_RUN => go (handle_init c (body m))
  | Some FINALIZE => let! c := commit_current c in Ok (Exited 0 c)
  | Some ABORT => let! c := commit_current c in Ok (Exited 2 c)
  | k =>
      if negb (ch_initialized c) then Err (CRuntime "run must be initialized before bar execution")
      else match k with
           | Some BROKER_EVENT_BATCH => Ok (Going c)
           | Some RECALC_REQUEST => go (handle_recalc c (body m))
           | Some BAR_COMMIT => go (commit_current c)
           | Some BAR_BEGIN => go (handle_bar_begin c (body m))
           | _ => Err (CRuntime "unsupported interactive message kind")
           end
  end.

(** One line: its length, and its message. *)
Definition child_step (c : Child) (line : Z * Message) : result ChildError Next :=
  if (1000000 <? line.1)%Z then Err (CRuntime "interactive message exceeds size limit")
  else
    match child_accept valid hash_ok sequence_ok (ch_protocol c) line.2 with
    | (_, Err e) => Err e
    | (t, Ok m) => handle (with_protocol c t) m
    end.

(** The lines until the worker ends; at the end of the input it commits and
    ends with 0. *)
Fixpoint child_lines (c : Child) (lines : list (Z * Message)) : result ChildError Next :=
  match lines with
  | [] => let! c := commit_current c in Ok (Exited 0 c)
  | l :: ls => let! n := child_step c l in match n with Going c => child_lines c ls | Exited st c => Ok (Exited st c) end
  end.

(** The worker up to its HELLO; [s] is the strategy after it admitted the
    execution identity. *)
Definition child_start (t : Transcript) (s : S) : result ChildError Child :=
  let! session := jkey context "session_id" in
  let! cm := respond (mkChild t false false None None 0 None s [] []) HELLO
    [("worker_id", session); ("protocol_version", JStr "2.3.0"); ("capabilities", JArr [JStr "closed_bar"; JStr "checkpoint_v1"])] 0 in
  Ok cm.1.

(** ** The guards of the loop *)

(** The errors by which the loop would notice a message out of place. *)
Definition guard (e : ChildError) : bool :=
  match e with
  | CRuntime m => existsb (String.eqb m)
      ["artifact must be loaded before run initialization"; "run must be initialized before bar execution";
       "previous bar must be committed before BAR_BEGIN"; "recalculation has no active callback";
       "unsupported interactive message kind"]
  | _ => false
  end.

Definition clean {A} (r : result ChildError A) : Prop := match r with Err e => guard e = false | Ok _ => True end.

Lemma clean_bind {A B} (m : result ChildError A) (f : A -> result ChildError B) :
  clean m -> (forall a, m = Ok a -> clean (f a)) -> clean (result_bind m f).
Proof. destruct m; simpl; auto. Qed.

Lemma clean_jkey d k : clean (jkey d k).
Proof. unfold jkey. by destruct (dget d k). Qed.
Lemma clean_jfloat v : clean (jfloat v).
Proof. unfold jfloat. destruct (json_scalar v) as [p|]; [|done]. by destruct (py_float p). Qed.
Lemma clean_jint v : clean (jint v).
Proof. unfold jint. destruct v; try done. by destruct (literal_int _). Qed.
Lemma clean_jlower v : clean (jlower v).
Proof. by destruct v. Qed.
Lemma clean_jrow v : clean (jrow v).
Proof. by destruct v. Qed.
Lemma clean_jrows v : clean (jrows v).
Proof. by destruct v. Qed.
Lemma clean_call {A} (r : result string A) : clean (call r).
Proof. by destruct r. Qed.
Lemma clean_if {A} (b : bool) (x y : result ChildError A) : clean x -> clean y -> clean (if b then x else y).
Proof. by destruct b. Qed.
Lemma clean_map {A B} (f : A -> result ChildError B) l : (forall a, clean (f a)) -> clean (result_map f l).
Proof. intros H. induction l as [|a l IH]; simpl; [done|]. apply clean_bind; [done|]. intros; by apply clean_bind. Qed.

Ltac clean_step :=
  first [ done | apply clean_jkey | apply clean_jfloat | apply clean_jint | apply clean_jlower | apply clean_jrow | apply clean_jrows
        | apply clean_call | apply clean_bind; [|intros] | apply clean_if ].

Lemma clean_kfloat d k : clean (kfloat d k).
Proof. unfold kfloat. repeat clean_step. Qed.
Lemma clean_kint d k : clean (kint d k).
Proof. unfold kint. repeat clean_step. Qed.

Ltac clean := repeat first [apply clean_kfloat | apply clean_kint | clean_step].

Lemma clean_legacy v : clean (legacy_projection v).
Proof.
  unfold legacy_projection. clean.
  - apply clean_map. intros ?. unfold open_trade, signed_size. clean.
  - apply clean_map. intros ?. unfold closed_trade, signed_size. clean.
  - match goal with |- clean (match ?x with _ => _ end) => destruct x; clean end.
Qed.

Lemma clean_transition t k : clean (child_transition t k).
Proof. unfold child_transition. repeat case_match; done. Qed.

Lemma clean_append t k b now : clean (child_append valid seal sequence_ok t k b now).2.
Proof.
  unfold child_append. pose proof (clean_transition t (Some k)) as H. destruct (child_transition t (Some k)); [|exact H].
  by repeat case_match.
Qed.

Lemma clean_accept t m : clean (child_accept valid hash_ok sequence_ok t m).2.
Proof.
  unfold child_accept. destruct (negb (valid m)); [done|]. destruct (negb (hash_ok m)); [done|].
  pose proof (clean_transition t (Kind_of (kind m))) as H. destruct (child_transition t _); [|exact H].
  by repeat case_match.
Qed.

Lemma clean_respond c k b now : clean (respond c k b now).
Proof. unfold respond. pose proof (clean_append (ch_protocol c) k b now) as H. by destruct (child_append _ _ _ _ _ _ _) as [t []]. Qed.

Lemma clean_evaluate c k bar b : clean (evaluate c k bar b).
Proof. unfold evaluate. repeat first [apply clean_legacy | clean_step]. Qed.

Lemma clean_send c index iteration now : clean (send_intents c index iteration now).
Proof. unfold send_intents. cbv zeta. repeat first [apply clean_respond | clean_step]. by match goal with x : Child * Message |- _ => destruct x end. Qed.

Lemma clean_commit c : clean (commit_current c).
Proof. unfold commit_current. destruct (ch_key c); clean. Qed.

(** ** The order of the calls *)

(** Between bars ([None]), or in a bar, processed or not. *)
Definition call_step (st : option (option (bar_key * bool))) (x : Call) : option (option (bar_key * bool)) :=
  match st, x with
  | Some None, Begun k => Some (Some (k, false))
  | Some (Some (k, _)), Processed k' => if same_key k k' then Some (Some (k, true)) else None
  | Some (Some (k, true)), Committed k' => if same_key k k' then Some None else None
  | _, _ => None
  end.

(** [None]: out of order. *)
Definition call_order (calls : list Call) : option (option (bar_key * bool)) := fold_left call_step calls (Some None).

Lemma call_order_snoc calls x : call_order (calls ++ [x]) = call_step (call_order calls) x.
Proof. unfold call_order. by rewrite fold_left_app. Qed.

Lemma same_key_refl k : same_key k k = true.
Proof. unfold same_key. by rewrite (proj2 (json_eqb_eq k.1 k.1) eq_refl), Z.eqb_refl. Qed.

Definition last_kind (t : Transcript) : option Kind := m ← last (messages t); Kind_of (kind m).

Definition in_callback (c : Child) : Prop :=
  ch_initialized c = true /\ is_Some (ch_key c) /\ is_Some (ch_bar c) /\ is_Some (ch_intent c).

(** Between two messages the state is what the last message says. *)
Definition child_ok (c : Child) : Prop :=
  call_order (ch_calls c) = Some ((fun k => (k, true)) <$> ch_key c) /\
  match last_kind (ch_protocol c) with
  | Some HELLO => ch_key c = None
  | Some LOAD_ARTIFACT => ch_loaded c = true /\ ch_key c = None
  | Some INIT_RUN | Some BAR_COMMIT => ch_initialized c = true /\ ch_key c = None
  | Some INTENT_BATCH | Some BROKER_EVENT_BATCH => in_callback c
  | _ => False
  end.

Lemma transition_after t p k :
  last_kind t = Some p -> child_transition t (Some k) = Ok tt -> k ∈ child_allowed_after p.
Proof.
  unfold last_kind, child_transition. intros Hl H. destruct (last (messages t)) as [m|]; [|done]. simpl in Hl. rewrite Hl in H.
  by case_bool_decide.
Qed.

Lemma child_accept_ok t m t' m' :
  child_accept valid hash_ok sequence_ok t m = (t', Ok m') ->
  m' = m /\ t' = push t m /\ exists k, Kind_of (kind m) = Some k /\ child_transition t (Some k) = Ok tt.
Proof.
  unfold child_accept. intros H. destruct (negb (valid m)); [done|]. destruct (negb (hash_ok m)); [done|].
  destruct (child_transition t (Kind_of (kind m))) as [[]|e] eqn:E; [|done]. destruct (Kind_of (kind m)) as [k|]; [|done].
  destruct (Role_of _); [|done]. destruct (negb _); [done|]. destruct (child_mismatch _ _ _ _); [done|].
  destruct (terminal k && _); [done|]. simplify_eq. eauto.
Qed.

Lemma last_kind_push t m k : Kind_of (kind m) = Some k -> last_kind (push t m) = Some k.
Proof. intros H. unfold last_kind. simpl. by rewrite last_snoc. Qed.

Lemma commit_current_ok c c' :
  commit_current c = Ok c' -> call_order (ch_calls c) = Some ((fun k => (k, true)) <$> ch_key c) ->
  ch_key c' = None /\ ch_protocol c' = ch_protocol c /\ ch_initialized c' = ch_initialized c /\ call_order (ch_calls c') = Some None.
Proof.
  unfold commit_current. destruct (ch_key c) as [k|] eqn:Ek; [|by intros [= <-]]. intros H Ho.
  apply result_bind_ok in H as (s1 & _ & H). apply result_bind_ok in H as (s2 & _ & H). apply result_bind_ok in H as (s3 & _ & H).
  simplify_eq. simpl. rewrite call_order_snoc, Ho. simpl. by rewrite same_key_refl.
Qed.

Lemma evaluate_ok c k bar b c' flag :
  evaluate c k bar b = Ok c' -> call_order (ch_calls c) = Some (Some (k, flag)) ->
  ch_key c' = ch_key c /\ ch_bar c' = ch_bar c /\ ch_protocol c' = ch_protocol c /\ ch_initialized c' = ch_initialized c /\
  ch_out c' = ch_out c /\ ch_sent c' = ch_sent c /\
  call_order (ch_calls c') = Some (Some (k, true)).
Proof.
  unfold evaluate. intros H Ho. repeat (apply result_bind_ok in H as (? & _ & H)). simplify_eq. simpl.
  rewrite call_order_snoc, Ho. simpl. rewrite same_key_refl. by destruct flag.
Qed.

(** What sealing is documented to do. *)
Hypothesis sealing : seals seal hash_ok.

Lemma respond_ok c k b now c' m :
  respond c k b now = Ok (c', m) ->
  ch_key c' = ch_key c /\ ch_bar c' = ch_bar c /\ ch_initialized c' = ch_initialized c /\ ch_strategy c' = ch_strategy c /\
  ch_calls c' = ch_calls c /\ ch_sent c' = ch_sent c /\ ch_out c' = ch_out c ++ [m] /\ kind m = Kind_text k /\ body m = b /\
  last_kind (ch_protocol c') = Some k /\ ch_protocol c' = push (ch_protocol c) m.
Proof using sealing.
  unfold respond, child_append. destruct (child_transition _ _) as [[]|]; [|done]. destruct (negb _); [done|].
  destruct (terminal k && _); [done|]. intros H. simplify_eq. simpl.
  destruct (sealing (child_draft (ch_protocol c) k b now)) as [_ [h E]]. rewrite E. unfold child_draft.
  destruct (components _ _) as [v cm]. simpl. split_and!; try done. apply last_kind_push. simpl. apply Kind_roundtrip.
Qed.

Lemma send_ok c index iteration now c' :
  send_intents c index iteration now = Ok c' ->
  ch_key c' = ch_key c /\ ch_bar c' = ch_bar c /\ ch_initialized c' = ch_initialized c /\ ch_calls c' = ch_calls c /\
  ch_strategy c' = ch_strategy c /\ ch_sent c' = length (tape_events (ch_strategy c)) /\ is_Some (ch_intent c') /\
  last_kind (ch_protocol c') = Some INTENT_BATCH /\
  exists m, ch_out c' = ch_out c ++ [m] /\ kind m = "INTENT_BATCH" /\ ch_protocol c' = push (ch_protocol c) m /\
    dget (body m) "intents" = Some (JArr (map safe (drop (ch_sent c) (tape_events (ch_strategy c))))).
Proof using sealing.
  unfold send_intents. cbv zeta. intros H. apply result_bind_ok in H as (run & _ & H). apply result_bind_ok in H as ([c1 m] & Hr & H).
  simplify_eq. simpl. apply respond_ok in Hr as (-> & -> & -> & -> & -> & _ & -> & Hk & Hb & -> & ->).
  split_and!; try done. exists m. split_and!; try done. by rewrite Hb.
Qed.

(** What a step of the loop does: it keeps the state what the last message
    says, it never meets a guard, and it ends between bars. *)
Definition step_ok (r : result ChildError Next) : Prop :=
  match r with
  | Ok (Going c) => child_ok c
  | Ok (Exited _ c) => call_order (ch_calls c) = Some None
  | Err e => guard e = false
  end.

Lemma step_ok_bind {A} (m : result ChildError A) (f : A -> result ChildError Next) :
  clean m -> (forall a, m = Ok a -> step_ok (f a)) -> step_ok (result_bind m f).
Proof. destruct m; simpl; auto. Qed.

Lemma bar_begin_ok c b :
  call_order (ch_calls c) = Some None -> ch_key c = None -> ch_initialized c = true -> step_ok (go (handle_bar_begin c b)).
Proof using sealing.
  intros Ho Hk Hi. unfold go. apply step_ok_bind; cycle 1.
  - intros c' H. change (child_ok c'). unfold child_ok, handle_bar_begin in *. apply result_bind_ok in H as (raw & _ & H). apply result_bind_ok in H as (? & _ & H).
    destruct (negb _); [done|]. do 2 (apply result_bind_ok in H as (? & _ & H)). destruct (negb _); [done|].
    apply result_bind_ok in H as (r & _ & H). apply result_bind_ok in H as (index & _ & H). apply result_bind_ok in H as (iteration & _ & H).
    apply result_bind_ok in H as ([c1 bar] & Hb & H). unfold open_bar in Hb. rewrite Hk in Hb.
    apply result_bind_ok in Hb as (pb & _ & Hb). apply result_bind_ok in Hb as (s1 & _ & Hb). simplify_eq.
    apply result_bind_ok in H as (c2 & He & H). simpl in He.
    apply (evaluate_ok _ _ _ _ _ false) in He as (Ek & Eb & Ep & Ei & _ & _ & Ec); [|simpl; by rewrite call_order_snoc, Ho].
    apply send_ok in H as (Ek' & Eb' & Ei' & Ec' & _ & _ & Hin & Hl & _).
    split; [by rewrite Ek', Ec', Ek, Ec|]. rewrite Hl. unfold in_callback. rewrite Ek', Eb', Ei', Ei, Ek, Eb. simpl. split_and!; [done|by eexists|by eexists|done].
  - unfold handle_bar_begin, open_bar. rewrite Hk. unfold read_ohlc, pine_bar.
    repeat first [apply clean_evaluate | apply clean_send | apply clean_kfloat | apply clean_kint | clean_step].
Qed.

Lemma recalc_ok c b :
  call_order (ch_calls c) = Some ((fun k => (k, true)) <$> ch_key c) -> in_callback c -> step_ok (go (handle_recalc c b)).
Proof using sealing.
  intros Ho (Hi & [k Hk] & [bar Hb] & [intent Hm]). unfold go. apply step_ok_bind; cycle 1.
  - intros c' H. change (child_ok c'). unfold child_ok, handle_recalc in *. rewrite Hk, Hb, Hm in H. rewrite Hk in Ho.
    apply result_bind_ok in H as (c1 & He & H). apply (evaluate_ok _ _ _ _ _ true) in He as (Ek & Eb & _ & Ei & _ & _ & Ec); [|done].
    do 4 (apply result_bind_ok in H as (? & _ & H)). apply result_bind_ok in H as ([c2 m] & Hr & H).
    apply respond_ok in Hr as (Ek2 & Eb2 & Ei2 & _ & Ec2 & _).
    apply send_ok in H as (Ek3 & Eb3 & Ei3 & Ec3 & _ & _ & Hin & Hl & _). simpl in *.
    split; [by rewrite Ek3, Ec3, Ek2, Ec2, Ek, Ec, Hk|]. rewrite Hl. unfold in_callback.
    rewrite Ek3, Eb3, Ei3, Ek2, Eb2, Ei2, Ek, Eb, Ei, Hk, Hb. split_and!; [done|by eexists|by eexists|done].
  - unfold handle_recalc. rewrite Hk, Hb, Hm.
    repeat first [apply clean_evaluate | apply clean_send | apply clean_respond | clean_step].
Qed.

Lemma same_value_clean b k d dk : clean (same_value b k d dk).
Proof. unfold same_value. clean. Qed.

Lemma handle_load_ok c b c' : handle_load c b = Ok c' ->
  ch_loaded c' = true /\ ch_key c' = ch_key c /\ ch_calls c' = ch_calls c /\ ch_protocol c' = ch_protocol c.
Proof.
  unfold handle_load. intros H. do 4 (apply result_bind_ok in H as (? & _ & H); destruct (negb _); [done|]). by simplify_eq.
Qed.

Lemma handle_init_ok c b c' : handle_init c b = Ok c' ->
  ch_initialized c' = true /\ ch_key c' = ch_key c /\ ch_calls c' = ch_calls c /\ ch_protocol c' = ch_protocol c.
Proof.
  unfold handle_init. intros H. destruct (negb _); [done|]. apply result_bind_ok in H as (? & _ & H). destruct (negb _); [done|].
  do 2 (apply result_bind_ok in H as (? & _ & H); destruct (negb _); [done|]). by simplify_eq.
Qed.

Lemma commit_step_ok c (f : Child -> Next) :
  call_order (ch_calls c) = Some ((fun k => (k, true)) <$> ch_key c) ->
  (forall c', ch_key c' = None -> ch_protocol c' = ch_protocol c -> ch_initialized c' = ch_initialized c ->
     call_order (ch_calls c') = Some None -> step_ok (Ok (f c'))) ->
  step_ok (let! c' := commit_current c in Ok (f c')).
Proof.
  intros Ho Hf. apply step_ok_bind; [apply clean_commit|]. intros c' H. apply commit_current_ok in H as (? & ? & ? & ?); [|done]. by apply Hf.
Qed.

Lemma idle_of c : call_order (ch_calls c) = Some ((fun k => (k, true)) <$> ch_key c) -> ch_key c = None -> call_order (ch_calls c) = Some None.
Proof. by intros -> ->. Qed.

Lemma child_step_ok c line : child_ok c -> step_ok (child_step c line).
Proof using sealing.
  intros [Ho Hs]. unfold child_step. destruct (1000000 <? line.1)%Z; [done|].
  pose proof (clean_accept (ch_protocol c) line.2) as Hclean.
  destruct (child_accept _ _ _ _ _) as [t [m|e]] eqn:E; [|exact Hclean]. clear Hclean.
  apply child_accept_ok in E as (-> & -> & k & Hk & Ht). set (c1 := with_protocol c _).
  destruct (last_kind (ch_protocol c)) as [p|] eqn:Hp; [|done]. pose proof (next_kinds p k (transition_after _ _ _ Hp Ht)) as Hn.
  assert (Hl : last_kind (ch_protocol c1) = Some k) by (by apply last_kind_push).
  assert (Ho1 : call_order (ch_calls c1) = Some ((fun k => (k, true)) <$> ch_key c1)) by done.
  assert (Habort : step_ok (let! c' := commit_current c1 in Ok (Exited 2 c'))) by (by apply commit_step_ok).
  assert (Hfin : step_ok (let! c' := commit_current c1 in Ok (Exited 0 c'))) by (by apply commit_step_ok).
  assert (Hcommit : ch_initialized c1 = true -> k = BAR_COMMIT -> step_ok (go (commit_current c1))).
  { intros Hi ->. apply (commit_step_ok c1 Going); [done|]. intros c' Hk' Hp' Hi' Hc'. change (child_ok c'). unfold child_ok.
    by rewrite Hc', Hk', Hp', Hl, Hi', Hi. }
  unfold handle. rewrite Hk. destruct p; try done; simpl in Hn.
  - destruct Hn as [-> | ->]; [|done]. unfold go. apply step_ok_bind.
    + unfold handle_load. repeat first [apply same_value_clean | clean_step].
    + intros c' H. apply handle_load_ok in H as (H1 & H2 & H3 & H4). change (child_ok c'). unfold child_ok. by rewrite H3, H2, H4, Hl, H1.
  - destruct Hs as [Hloaded Hs]. destruct Hn as [-> | ->]; [|done]. unfold go. apply step_ok_bind.
    + unfold handle_init. change (ch_loaded c1) with (ch_loaded c). rewrite Hloaded. simpl.
      repeat first [apply same_value_clean | clean_step].
    + intros c' H. apply handle_init_ok in H as (H1 & H2 & H3 & H4). change (child_ok c'). unfold child_ok. by rewrite H3, H2, H4, Hl, H1.
  - destruct Hs as [Hi Hkey]. destruct Hn as [->|[-> | ->]]; [|done|done]. change (ch_initialized c1) with (ch_initialized c). rewrite Hi.
    simpl. apply bar_begin_ok; [by apply idle_of|done|done].
  - destruct Hn as [->|[-> | ->]]; [| |done]; change (ch_initialized c1) with (ch_initialized c); rewrite (proj1 Hs); simpl.
    + change (child_ok c1). unfold child_ok. by rewrite Hl.
    + apply Hcommit; [apply Hs|done].
  - destruct Hn as [->|[-> | ->]]; [| |done]; change (ch_initialized c1) with (ch_initialized c); rewrite (proj1 Hs); simpl.
    + by apply recalc_ok.
    + apply Hcommit; [apply Hs|done].
  - destruct Hs as [Hi Hkey]. destruct Hn as [->|[-> | ->]]; [|done|done]. change (ch_initialized c1) with (ch_initialized c). rewrite Hi.
    simpl. apply bar_begin_ok; [by apply idle_of|done|done].
Qed.

Lemma child_lines_ok c lines : child_ok c -> step_ok (child_lines c lines).
Proof using sealing.
  revert c. induction lines as [|l ls IH]; intros c Hc; simpl; [apply commit_step_ok; [apply Hc|done]|].
  pose proof (child_step_ok c l Hc) as H. destruct (child_step c l) as [[c'|st c']|e]; simpl in *; [by apply IH|done|done].
Qed.

Lemma child_start_ok t s c : messages t = [] -> child_start t s = Ok c -> child_ok c.
Proof using sealing.
  intros Ht H. unfold child_start in H. apply result_bind_ok in H as (session & _ & H). apply result_bind_ok in H as ([c1 m] & Hr & H).
  simplify_eq. apply respond_ok in Hr as (Ek & _ & _ & _ & Ec & _ & _ & _ & _ & Hl & _). simpl in *.
  unfold child_ok. by rewrite Ec, Ek, Hl.
Qed.

(** However the lines come and whatever the strategy does, the worker's bars
    come one at a time: each is begun, processed at least once and committed
    before the next begins, and when the worker ends normally none is left
    open.  The guards of the loop against messages out of place are never met:
    the protocol has refused such messages before. *)
Theorem worker_bars_in_order t s lines :
  messages t = [] ->
  match (let! c := child_start t s in child_lines c lines) with
  | Ok (Exited _ c) | Ok (Going c) => call_order (ch_calls c) = Some None
  | Err e => guard e = false
  end.
Proof using sealing.
  intros Ht. destruct (child_start t s) as [c|e] eqn:E; simpl.
  - pose proof (child_lines_ok c lines (child_start_ok t s c Ht E)) as H.
    assert (Hx : forall c', child_lines c lines <> Ok (Going c')).
    { clear. revert c. induction lines as [|l ls IH]; intros c c'; simpl.
      - destruct (commit_current c); simpl; congruence.
      - destruct (child_step c l) as [[c1|st c1]|e]; simpl; [apply IH|congruence|congruence]. }
    destruct (child_lines c lines) as [[c'|st c']|e]; [by destruct (Hx c')|exact H|exact H].
  - revert E. unfold child_start. destruct (jkey context "session_id") as [v|e'] eqn:Ej; simpl.
    + pose proof (clean_respond (mkChild t false false None None 0 None s [] []) HELLO
        [("worker_id", v); ("protocol_version", JStr "2.3.0"); ("capabilities", JArr [JStr "closed_bar"; JStr "checkpoint_v1"])] 0) as Hc.
      destruct (respond _ _ _ _) as [[c m]|e']; simpl; [done|]. intros [= <-]. exact Hc.
    + intros [= <-]. pose proof (clean_jkey context "session_id") as Hc. by rewrite Ej in Hc.
Qed.

(** *** What a step writes *)

Lemma evaluate_keeps c k bar b c' : evaluate c k bar b = Ok c' -> ch_protocol c' = ch_protocol c /\ ch_out c' = ch_out c.
Proof. unfold evaluate. intros H. repeat (apply result_bind_ok in H as (? & _ & H)). by simplify_eq. Qed.

Lemma open_keeps c k raw r c' bar : open_bar c k raw r = Ok (c', bar) -> ch_protocol c' = ch_protocol c /\ ch_out c' = ch_out c.
Proof.
  unfold open_bar. destruct (ch_key c) as [k0|]; [destruct (ch_bar c); [destruct (same_key k0 k)|]; intros; by simplify_eq|].
  intros H. do 2 (apply result_bind_ok in H as (? & _ & H)). by simplify_eq.
Qed.

(** A bar is answered by one message, a recalculation by two. *)
Lemma bar_begin_writes c b c' : handle_bar_begin c b = Ok c' ->
  exists m, ch_out c' = ch_out c ++ [m] /\ ch_protocol c' = push (ch_protocol c) m /\ kind m = "INTENT_BATCH".
Proof using sealing.
  unfold handle_bar_begin. intros H. do 2 (apply result_bind_ok in H as (? & _ & H)). destruct (negb _); [done|].
  do 2 (apply result_bind_ok in H as (? & _ & H)). destruct (negb _); [done|]. do 3 (apply result_bind_ok in H as (? & _ & H)).
  apply result_bind_ok in H as ([c1 bar] & Hb & H). apply result_bind_ok in H as (c2 & He & H). simpl in He.
  apply open_keeps in Hb as [<- <-]. apply evaluate_keeps in He as [<- <-].
  apply send_ok in H as (_ & _ & _ & _ & _ & _ & _ & _ & m & Eo & Ek & Ep & _). eauto.
Qed.

Lemma recalc_writes c b c' : handle_recalc c b = Ok c' ->
  exists m1 m2, ch_out c' = ch_out c ++ [m1; m2] /\ ch_protocol c' = push (push (ch_protocol c) m1) m2 /\
    kind m1 = "RECALC_RESULT" /\ kind m2 = "INTENT_BATCH".
Proof using sealing.
  unfold handle_recalc. intros H. destruct (ch_key c); [|done]. destruct (ch_bar c); [|done]. destruct (ch_intent c) as [intent|]; [|done].
  apply result_bind_ok in H as (c1 & He & H). do 4 (apply result_bind_ok in H as (? & _ & H)).
  apply result_bind_ok in H as ([c2 m1] & Hr & H). apply evaluate_keeps in He as [<- <-].
  apply respond_ok in Hr as (_ & _ & _ & _ & _ & _ & Eo & Ek & _ & _ & Ep).
  apply send_ok in H as (_ & _ & _ & _ & _ & _ & _ & _ & m2 & Eo2 & Ek2 & Ep2 & _). simpl in *.
  exists m1, m2. rewrite Eo2, Eo, Ep2, Ep, <-app_assoc. done.
Qed.

Lemma commit_keeps c c' : commit_current c = Ok c' -> ch_protocol c' = ch_protocol c /\ ch_out c' = ch_out c.
Proof.
  unfold commit_current. destruct (ch_key c); [|by intros [= <-]]. intros H.
  do 3 (apply result_bind_ok in H as (? & _ & H)). by simplify_eq.
Qed.

Lemma load_keeps c b c' : handle_load c b = Ok c' -> ch_protocol c' = ch_protocol c /\ ch_out c' = ch_out c.
Proof.
  unfold handle_load. intros H. do 4 (apply result_bind_ok in H as (? & _ & H); destruct (negb _); [done|]). by simplify_eq.
Qed.

Lemma init_keeps c b c' : handle_init c b = Ok c' -> ch_protocol c' = ch_protocol c /\ ch_out c' = ch_out c.
Proof.
  unfold handle_init. intros H. destruct (negb _); [done|]. apply result_bind_ok in H as (? & _ & H). destruct (negb _); [done|].
  do 2 (apply result_bind_ok in H as (? & _ & H); destruct (negb _); [done|]). by simplify_eq.
Qed.

(** Only FINALIZE and ABORT end the loop. *)
Lemma handle_exits c m st c' : handle c m = Ok (Exited st c') ->
  exists k, Kind_of (kind m) = Some k /\ terminal k = true.
Proof.
  unfold handle. intros H. assert (Hgo : forall r, go r <> Ok (Exited st c')) by (intros []; simpl; congruence).
  destruct (Kind_of (kind m)) as [[]|]; try (by eexists); try (by apply Hgo in H); try (destruct (negb _); [done|]);
    try done; by apply Hgo in H.
Qed.

(** ** Every intent once *)

Definition intents_of (m : Message) : list json :=
  if bool_decide (kind m = "INTENT_BATCH") then match dget (body m) "intents" with Some (JArr l) => l | _ => [] end else [].

(** The intents written so far. *)
Definition sent_intents (c : Child) : list json := concat (map intents_of (ch_out c)).

(** The messages hold an INTENT_BATCH. *)
Definition batched (l : list Message) : bool := existsb (fun m => bool_decide (kind m = "INTENT_BATCH")) l.

(** A step hands over the part of the strategy's tape beyond what had been sent
    before, as an INTENT_BATCH, or it hands over nothing. *)
Definition hands (c c' : Child) : Prop :=
  exists l, ch_out c' = ch_out c ++ l /\
    if batched l
    then ch_sent c' = length (tape_events (ch_strategy c')) /\
         concat (map intents_of l) = map safe (drop (ch_sent c) (tape_events (ch_strategy c')))
    else ch_sent c' = ch_sent c /\ concat (map intents_of l) = [].

Definition same_wire (c c' : Child) : Prop := ch_sent c' = ch_sent c /\ ch_out c' = ch_out c.

Lemma same_wire_hands c c' : same_wire c c' -> hands c c'.
Proof. intros [E1 E2]. exists []. by rewrite app_nil_r. Qed.

Lemma wire_hands a b c : same_wire a b -> hands b c -> hands a c.
Proof. intros [E1 E2] (l & Eo & H). exists l. by rewrite <-E1, <-E2. Qed.

Lemma commit_wire c c' : commit_current c = Ok c' -> same_wire c c'.
Proof.
  unfold commit_current. destruct (ch_key c); [|by intros [= <-]]. intros H.
  do 3 (apply result_bind_ok in H as (? & _ & H)). by simplify_eq.
Qed.

Lemma evaluate_wire c k bar b c' : evaluate c k bar b = Ok c' -> same_wire c c'.
Proof. unfold evaluate. intros H. do 7 (apply result_bind_ok in H as (? & _ & H)). by simplify_eq. Qed.

Lemma open_wire c k raw r c' bar : open_bar c k raw r = Ok (c', bar) -> same_wire c c'.
Proof.
  unfold open_bar. destruct (ch_key c) as [k0|]; [destruct (ch_bar c); [destruct (same_key k0 k)|]; intros; simplify_eq; done|].
  intros H. do 2 (apply result_bind_ok in H as (? & _ & H)). by simplify_eq.
Qed.

(** A response that is not a batch, then whatever hands over. *)
Lemma respond_hands c k b now c1 m c' : respond c k b now = Ok (c1, m) -> k <> INTENT_BATCH -> hands c1 c' -> hands c c'.
Proof using sealing.
  intros H Hk (l & Eo & Hl). apply respond_ok in H as (_ & _ & _ & _ & _ & Et & Eo1 & Em & _). exists (m :: l).
  assert (Hm : bool_decide (kind m = "INTENT_BATCH") = false).
  { rewrite Em. apply bool_decide_false. intros E. destruct k; simpl in E; congruence. }
  split; [by rewrite Eo, Eo1, <-app_assoc|]. unfold batched in *. simpl. unfold intents_of at 1 3. rewrite Hm, <-Et. exact Hl.
Qed.

Lemma send_hands c index iteration now c' : send_intents c index iteration now = Ok c' -> hands c c'.
Proof using sealing.
  intros H. apply send_ok in H as (_ & _ & _ & _ & Es & En & _ & _ & m & Eo & Ek & _ & Eb). exists [m]. split; [done|].
  unfold batched. simpl. unfold intents_of. rewrite Ek, Eb, En, Es, bool_decide_true by done. simpl. by rewrite app_nil_r.
Qed.

Lemma bar_begin_hands c b c' : handle_bar_begin c b = Ok c' -> hands c c'.
Proof using sealing.
  unfold handle_bar_begin. intros H. apply result_bind_ok in H as (raw & _ & H). apply result_bind_ok in H as (? & _ & H).
  destruct (negb _); [done|]. do 2 (apply result_bind_ok in H as (? & _ & H)). destruct (negb _); [done|].
  do 3 (apply result_bind_ok in H as (? & _ & H)). apply result_bind_ok in H as ([c1 bar] & Hb & H).
  apply result_bind_ok in H as (c2 & He & H). apply open_wire in Hb. apply evaluate_wire in He. simpl in He.
  eapply wire_hands; [exact Hb|]. eapply wire_hands; [exact He|]. by eapply send_hands.
Qed.

Lemma recalc_hands c b c' : handle_recalc c b = Ok c' -> hands c c'.
Proof using sealing.
  unfold handle_recalc. intros H. destruct (ch_key c); [|done]. destruct (ch_bar c); [|done]. destruct (ch_intent c) as [intent|]; [|done].
  apply result_bind_ok in H as (c1 & He & H). do 4 (apply result_bind_ok in H as (? & _ & H)).
  apply result_bind_ok in H as ([c2 m] & Hr & H). apply evaluate_wire in He. eapply wire_hands; [exact He|].
  eapply respond_hands; [exact Hr|done|]. by eapply send_hands.
Qed.

Definition next_child (n : Next) : Child := match n with Going c | Exited _ c => c end.

Lemma step_hands c line n : child_step c line = Ok n -> hands c (next_child n).
Proof using sealing.
  unfold child_step. destruct (1000000 <? line.1)%Z; [done|]. destruct (child_accept _ _ _ _ _) as [t [m|e]]; [|done].
  intros H. apply (wire_hands c (with_protocol c t)); [done|]. revert H. generalize (with_protocol c t). clear c. intros c H.
  assert (Hstop : forall st, (let! c' := commit_current c in Ok (Exited st c')) = Ok n -> hands c (next_child n)).
  { intros st Hx. apply result_bind_ok in Hx as (c' & Hc & Hx). simplify_eq. simpl. by apply same_wire_hands, commit_wire. }
  assert (Hgo : forall r, go r = Ok n -> (forall c', r = Ok c' -> hands c c') -> hands c (next_child n)).
  { intros r Hx Hr. unfold go in Hx. apply result_bind_ok in Hx as (c' & Hc & Hx). simplify_eq. by apply Hr. }
  unfold handle in H. destruct (Kind_of (kind m)) as [k|]; [|by destruct (negb _)].
  destruct k; try (by destruct (negb _)); try (by eapply Hstop); try (destruct (negb (ch_initialized c)); [done|]).
  - eapply Hgo; [exact H|]. intros c' Hl. apply same_wire_hands. unfold handle_load in Hl.
    do 4 (apply result_bind_ok in Hl as (? & _ & Hl); destruct (negb _); [done|]). by simplify_eq.
  - eapply Hgo; [exact H|]. intros c' Hl. apply same_wire_hands. unfold handle_init in Hl. destruct (negb _); [done|].
    apply result_bind_ok in Hl as (? & _ & Hl). destruct (negb _); [done|].
    do 2 (apply result_bind_ok in Hl as (? & _ & Hl); destruct (negb _); [done|]). by simplify_eq.
  - eapply Hgo; [exact H|]. intros c' Hl. by apply bar_begin_hands in Hl.
  - simplify_eq. by apply same_wire_hands.
  - eapply Hgo; [exact H|]. intros c' Hl. by apply recalc_hands in Hl.
  - eapply Hgo; [exact H|]. intros c' Hl. by apply same_wire_hands, commit_wire.
Qed.

(** *** The tapes at the hand-overs *)

(** Successive tapes, each without as many intents as the one before had. *)
Fixpoint new_parts (n : nat) (tapes : list (list json)) : list json :=
  match tapes with
  | [] => []
  | t :: ts => drop n t ++ new_parts (length t) ts
  end.

(** How many intents had been sent after them. *)
Fixpoint last_length (n : nat) (tapes : list (list json)) : nat :=
  match tapes with [] => n | t :: ts => last_length (length t) ts end.

Lemma new_parts_app n ts t : new_parts n (ts ++ [t]) = new_parts n ts ++ drop (last_length n ts) t.
Proof. revert n. induction ts as [|u ts IH]; intros n; simpl; [by rewrite app_nil_r|]. by rewrite IH, <-app_assoc. Qed.

Lemma last_length_app n ts t : last_length n (ts ++ [t]) = length t.
Proof. revert n. induction ts; simpl; auto. Qed.

(** If every tape only continues the one before it, the parts make up the last
    one. *)
Lemma new_parts_growing tapes : Sorted prefix tapes -> new_parts 0 tapes = default [] (last tapes).
Proof.
  assert (H : forall ts t, Sorted prefix (t :: ts) -> Some (t ++ new_parts (length t) ts) = last (t :: ts)).
  { induction ts as [|u ts IH]; intros t Hs; [simpl; by rewrite app_nil_r|]. inversion Hs as [|? ? Hs' Hr]; subst.
    inversion Hr as [|? ? [k ->]]; subst. specialize (IH _ Hs'). cbn [new_parts].
    rewrite drop_app_length, app_assoc. exact IH. }
  destruct tapes as [|t ts]; intros Hs; [done|]. rewrite <-(H ts t Hs). simpl. by rewrite drop_0.
Qed.

End Loop.
