(* ===== verification/WorkerSession.v ===== *)
(** The parent's side of an isolated run: [InteractiveWorkerSession] of
    [openpine/runtime/isolated_worker.py].

    The worker process is whatever answers the writes and the reads of the
    session; [Linked] below plugs in the worker of [WorkerLoop].  A line that is
    written has the length of its JSON text; a line that is read is classified
    by what the session makes of it.  The content store of the protocol
    artifacts is a map from file names to bytes. *)

From Stdlib Require Import Ascii.
From S2P Require Import Prelude Json Admission WorkerProtocol RunIdentity WorkerChild WorkerLoop.

#[local] Set Default Proof Using "Type".

Inductive SessionError :=
| SIsolated (message : string)
| SProtocol (e : protocol_error)
| SKey (key : string)
| SType.

(** What a line from the worker holds: a message of the protocol, another
    object with its [error_code] and [error], or no object. *)
Inductive LineContent :=
| Protocol (m : Message)
| OtherObject (error_code error : option string)
| NotObject
| NotJson.

(** What waiting for a line ends with. *)
Inductive ReadEvent :=
| Line (size : Z) (content : LineContent)
| Timeout
| ReadFailed
| Eof (stderr : string)
| Unterminated.

(** The worker process. *)
Class Peer (P : Type) := {
  peer_boot : P -> json -> P * bool;
  peer_write : P -> Z -> Message -> P * bool;
  peer_read : P -> P * ReadEvent;
  peer_alive : P -> bool;
  peer_kill : P -> P;
  peer_close_stdin : P -> P
}.

(** The text of a message: the constant fields, then those that vary. *)
Definition opt_json (v : option string) : json := match v with Some s => JStr s | None => JNull end.

Definition message_json (m : Message) : json :=
  JObj [("schema_id", JStr "openpine.worker.protocol.v2"); ("schema_version", JStr "2.3.0"); ("producer", JStr (producer m));
        ("producer_version", JStr (producer_version m)); ("producer_commit", JStr (producer_commit m));
        ("stack_id", JStr (stack_id m)); ("created_at_utc_ms", num_int (created_at_utc_ms m));
        ("serializer_id", JStr "openpine.canonical.json.v1"); ("content_hash_alg", JStr "sha256");
        ("message_id", JStr (message_id m)); ("sender_role", JStr (sender_role m)); ("session_id", JStr (session_id m));
        ("run_id", JStr (run_id m)); ("sequence", num_int (sequence m)); ("correlation_id", JStr (correlation_id m));
        ("causation_id", opt_json (causation_id m)); ("kind", JStr (kind m)); ("body", JObj (body m));
        ("content_hash", JStr (WorkerProtocol.content_hash m))].

Definition line_size (m : Message) : Z := Z.of_nat (String.length (dumps_compact (message_json m))) + 1.

Section Session.
Variable valid : Message -> bool.
Variable seal : Message -> Message.
Variable hash_ok : Message -> bool.
Variable sequence_ok : list Message -> bool.
(** [path.resolve().as_uri()] of a file of the artifact directory. *)
Variable artifact_uri : string -> string.
Context {P : Type} {peer : Peer P}.

Record Session := mkSession {
  s_protocol : Transcript; s_closed : bool; s_sent : Z; s_received : Z; s_last_commit : option Message;
  s_files : gmap string string; s_peer : P
}.

Definition Run (A : Type) : Type := Session -> Session * result SessionError A.

Definition ret {A} (a : A) : Run A := fun s => (s, Ok a).
Definition raise {A} (e : SessionError) : Run A := fun s => (s, Err e).
Definition bind {A B} (m : Run A) (f : A -> Run B) : Run B :=
  fun s => match m s with (s', Ok a) => f a s' | (s', Err e) => (s', Err e) end.

Local Notation "'do!' x ':=' m 'in' k" := (bind m (fun x => k)) (at level 10, x name, m at level 100, k at level 200).

Definition upd_protocol (s : Session) (t : Transcript) : Session :=
  mkSession t (s_closed s) (s_sent s) (s_received s) (s_last_commit s) (s_files s) (s_peer s).
Definition upd_peer (s : Session) (p : P) : Session :=
  mkSession (s_protocol s) (s_closed s) (s_sent s) (s_received s) (s_last_commit s) (s_files s) p.
Definition upd_sent (s : Session) (p : P) (n : Z) : Session :=
  mkSession (s_protocol s) (s_closed s) (s_sent s + n) (s_received s) (s_last_commit s) (s_files s) p.
Definition upd_received (s : Session) (n : Z) : Session :=
  mkSession (s_protocol s) (s_closed s) (s_sent s) (s_received s + n) (s_last_commit s) (s_files s) (s_peer s).
Definition upd_commit (s : Session) (m : Message) : Session :=
  mkSession (s_protocol s) (s_closed s) (s_sent s) (s_received s) (Some m) (s_files s) (s_peer s).
Definition upd_files (s : Session) (f : gmap string string) : Session :=
  mkSession (s_protocol s) (s_closed s) (s_sent s) (s_received s) (s_last_commit s) f (s_peer s).

(** [_kill]. *)
Definition kill (s : Session) : Session :=
  mkSession (s_protocol s) true (s_sent s) (s_received s) (s_last_commit s) (s_files s) (peer_kill (s_peer s)).

Definition isolated {A} (message : string) : Run A := raise (SIsolated message).
Definition lift {A} (r : result ChildError A) : Run A :=
  match r with Ok a => ret a | Err (CKey k) => raise (SKey k) | Err _ => raise SType end.

(** [self.protocol.append]. *)
Definition append_own (k : Kind) (b : dict string json) (created : Z) : Run Message := fun s =>
  match append valid seal sequence_ok (s_protocol s) (Kind_text k) b created None with
  | (t, Ok m) => (upd_protocol s t, Ok m)
  | (t, Err e) => (upd_protocol s t, Err (SProtocol e))
  end.

(** [_write_json_line] of a message. *)
Definition write_json_line (m : Message) : Run unit := fun s =>
  if s_closed s then (s, Err (SIsolated "interactive worker is closed"))
  else if (1000000 <? line_size m)%Z then (s, Err (SIsolated "interactive message exceeds size limit"))
  else match peer_write (s_peer s) (line_size m) m with
       | (p, true) => (upd_sent s p (line_size m), Ok tt)
       | (p, false) => (upd_peer s p, Err (SIsolated "interactive worker pipe closed"))
       end.

(** [_write_message]. *)
Definition write_message (m : Message) : Run unit :=
  if negb (valid m) then isolated "invalid worker protocol message"
  else if negb (hash_ok m) then isolated "worker protocol message content hash is invalid"
  else write_json_line m.

(** [_raise_response]. *)
Definition raise_response {A} (error_code error : option string) : Run A :=
  isolated (str_or error_code "WORKER_REJECTED" +:+ ": " +:+ str_or error "worker rejected message").

(** [self.protocol.accept], every failure of it being the same error. *)
Definition accept_response (m : Message) : Run Message := fun s =>
  if negb (valid m) || negb (hash_ok m) then (s, Err (SIsolated "invalid worker protocol response"))
  else match accept valid hash_ok sequence_ok (s_protocol s) m with
       | (t, Ok m) => (upd_protocol s t, Ok m)
       | (t, Err _) => (upd_protocol s t, Err (SIsolated "invalid worker protocol response"))
       end.

(** [_read_message]. *)
Definition read_message : Run Message := fun s =>
  let '(p, ev) := peer_read (s_peer s) in
  let s := upd_peer s p in
  match ev with
  | Timeout => (kill s, Err (SIsolated "timeout"))
  | ReadFailed => (s, Err (SIsolated "interactive worker stdout read failed"))
  | Eof stderr => (s, Err (SIsolated (str_or (Some (str_strip stderr)) "interactive worker exited")))
  | Unterminated => (kill s, Err (SIsolated "excessive worker output"))
  | Line size content =>
      if (1000000 <? size)%Z then (kill s, Err (SIsolated "excessive worker output"))
      else
        let s := upd_received s size in
        match content with
        | NotJson => (s, Err (SIsolated "malformed worker output"))
        | NotObject => (s, Err (SIsolated "worker response must be an object"))
        | OtherObject c e => raise_response c e s
        | Protocol m => accept_response m s
        end
  end.

(** [_request]. *)
Definition request (m : Message) : Run Message := do! _ := write_message m in read_message.

(** ** Bars *)

Definition bar_keys : list string :=
  ["run_id"; "bar_index"; "bar_open_time_utc_ms"; "recalc_iteration"; "bar_hash"; "bar"; "broker_projection"].

Definition pick (event : dict string json) (keys : list string) : result ChildError (dict string json) :=
  result_map (fun k => let! v := jkey event k in Ok (k, v)) keys.

(** [evaluate_bar]. *)
Definition evaluate_bar (event : dict string json) : Run (dict string json) :=
  match pick event bar_keys with
  | Err _ => isolated "engine BAR_BEGIN artifact is incomplete"
  | Ok b =>
      do! created := lift (kint event "bar_open_time_utc_ms") in
      do! m := append_own BAR_BEGIN b created in
      do! response := request m in
      if bool_decide (kind response = "INTENT_BATCH") then ret (body response)
      else isolated "worker did not return INTENT_BATCH"
  end.

(** [evaluate_recalc]. *)
Definition evaluate_recalc (event : dict string json) : Run (dict string json) :=
  do! iteration := lift (kint event "recalc_iteration") in
  do! run := lift (jkey event "run_id") in
  do! index := lift (jkey event "bar_index") in
  do! events_hash := lift (jkey event "broker_event_batch_hash") in
  do! events := lift (jkey event "broker_events") in
  do! created := lift (kint event "bar_open_time_utc_ms") in
  do! batch := append_own BROKER_EVENT_BATCH
    [("run_id", run); ("bar_index", index); ("recalc_iteration", num_int (iteration - 1));
     ("broker_event_batch_hash", events_hash); ("broker_events", events)] created in
  do! _ := write_message batch in
  do! projection_hash := lift (jkey event "broker_projection_hash") in
  do! projection := lift (jkey event "broker_projection") in
  do! req := append_own RECALC_REQUEST
    [("run_id", run); ("bar_index", index); ("recalc_iteration", num_int iteration);
     ("cause_sequence", num_int (sequence batch)); ("broker_projection_hash", projection_hash);
     ("broker_projection", projection)] created in
  do! _ := write_message req in
  do! res := read_message in
  if negb (bool_decide (kind res = "RECALC_RESULT")) then isolated "worker did not return RECALC_RESULT"
  else
    do! response := read_message in
    if bool_decide (kind response = "INTENT_BATCH") then ret (body response)
    else isolated "worker did not return recalculated INTENT_BATCH".

(** An artifact to keep: its bytes and hash where they are such. *)
Record Artifact := mkArtifact { a_bytes : option string; a_hash : option string; a_schema_id : json; a_codec : json; a_size_bytes : json }.

(** [_persist_artifact]. *)
Definition persist_artifact (a : Artifact) : Run json := fun s =>
  match a_bytes a with
  | None => (s, Err (SIsolated "protocol artifact bytes are required"))
  | Some bytes =>
      match a_hash a ≫= strip_prefix "sha256:" with
      | None => (s, Err (SIsolated "protocol artifact hash is invalid"))
      | Some digest =>
          let name := digest +:+ ".json" in
          let reference := JObj [("artifact_hash", JStr ("sha256:" +:+ digest)); ("schema_id", a_schema_id a); ("codec", a_codec a);
                                 ("size_bytes", a_size_bytes a); ("uri", JStr (artifact_uri name))] in
          match s_files s !! name with
          | Some old => if bool_decide (old = bytes) then (s, Ok reference) else (s, Err (SIsolated "protocol artifact hash collision"))
          | None => (upd_files s (<[name := bytes]> (s_files s)), Ok reference)
          end
      end
  end.

(** [commit_bar]: the event, and the two artifacts of it. *)
Definition commit_bar (event : dict string json) (state projection : Artifact) : Run Message :=
  do! state_ref := persist_artifact state in
  do! projection_ref := persist_artifact projection in
  do! b := lift (pick event ["run_id"; "bar_index"; "recalc_iteration"; "state_hash"; "broker_projection_hash"]) in
  do! created := lift (kint event "bar_open_time_utc_ms") in
  do! m := append_own BAR_COMMIT (b ++ [("state_ref", state_ref); ("broker_projection_ref", projection_ref)]) created in
  do! _ := write_message m in
  fun s => (upd_commit s m, Ok m).

(** [heartbeat]. *)
Definition heartbeat : Run unit := fun s =>
  if s_closed s || negb (peer_alive (s_peer s)) then (s, Err (SIsolated "interactive worker heartbeat failed")) else (s, Ok tt).

Definition closed_down (s : Session) : Session :=
  let p := peer_close_stdin (s_peer s) in
  let p := if peer_alive p then peer_kill p else p in
  mkSession (s_protocol s) true (s_sent s) (s_received s) (s_last_commit s) (s_files s) p.

(** [finalize]: the message, or [None] when the session was closed before. *)
Definition finalize : Run (option Message) := fun s =>
  if s_closed s then (s, Ok None)
  else match s_last_commit s with
       | None => (s, Err (SIsolated "cannot finalize without a committed bar"))
       | Some c =>
           let m :=
             (do! run := lift (jkey (body c) "run_id") in
              do! state := lift (jkey (body c) "state_hash") in
              do! projection := lift (jkey (body c) "broker_projection_hash") in
              do! m := append_own FINALIZE
                [("run_id", run); ("final_sequence", num_int (sequence c)); ("final_state_hash", state);
                 ("broker_projection_hash", projection); ("last_commit_message_id", JStr (message_id c));
                 ("last_committed_sequence", num_int (sequence c))] (created_at_utc_ms c) in
              do! _ := write_message m in ret (Some m)) in
           let '(s', r) := m s in (closed_down s', r)
       end.

(** [__exit__] with an exception: the abort is sent if it can be. *)
Definition abort (run : string) (reason : string) : Session -> Session := fun s =>
  let '(s', _) := (do! m := append_own ABORT [("run_id", JStr run); ("error_code", JStr "PARENT_ABORT"); ("reason", JStr reason)] 0 in
                   write_message m) s in
  kill s'.

(** ** Opening a session *)

Variable valid_payload : string -> dict string json -> bool.
Variable verify_content_hash : dict string json -> string -> bool.
Variable source_digest : string -> string -> string.

Definition str_values (l : list (string * json)) : dict string string :=
  omap (fun kv : string * json => match kv.2 with JStr s => Some (kv.1, s) | _ => None end) l.

(** A row of the wheels: its name and its version, where they are texts. *)
Definition wheel_row (v : json) : option string * option string :=
  match v with
  | JObj l =>
      let d := jdict l in
      (match dget d "name" with Some (JStr n) => Some n | _ => None end, match dget d "version" with Some (JStr n) => Some n | _ => None end)
  | _ => (None, None)
  end.

Definition context_text (ctx : dict string json) (key : string) : result protocol_error string :=
  match dget ctx key with
  | Some (JStr s) => if str_truthy s then Ok s else Err (FieldMismatch key)
  | _ => Err (FieldMismatch key)
  end.

(** [WorkerProtocolTranscript(execution_context)]. *)
Definition transcript_of (ctx : dict string json) : result protocol_error Transcript :=
  if negb (valid_payload "openpine.execution_context.v1" ctx) then Err ContractError
  else if negb (verify_content_hash ctx "openpine.execution_context.v1") then Err BadHash
  else
    match dget ctx "producer_commits", dget ctx "wheel_identities" with
    | Some (JObj commits), Some (JArr wheels) =>
        let! comps := component_identities (str_values (jdict commits)) (map wheel_row wheels) in
        let! session := context_text ctx "session_id" in
        let! run := context_text ctx "run_id" in
        let! stack := context_text ctx "stack_manifest_hash" in
        Ok (mkTranscript (mkContext session run stack) comps [])
    | _, _ => Err IdentityMissing
    end.

(** What a session is opened with. *)
Record OpenArgs := mkOpenArgs {
  o_source : string; o_context : dict string json; o_instrument : string; o_artifact : dict string json; o_run_hash : string;
  o_dir : string; o_semantic : string; o_timeframe : string; o_params : option json; o_htf : list json
}.

Definition same_json (a b : option json) : bool :=
  match a, b with Some v, Some w => json_eqb v w | None, None => true | _, _ => false end.

Definition fail {A} (message : string) : result SessionError A := Err (SIsolated message).

Definition zero_hash : string := "sha256:" +:+ String.concat "" (replicate 8 "00000000").

(** The producers of the artifact are those of the context. *)
Definition check_commits (generated context : dict string json) : result SessionError unit :=
  match dget generated "producer_commits", dget context "producer_commits" with
  | Some (JObj g), Some (JObj e) =>
      let! _ := result_map (fun c => if same_json (dget (jdict g) c) (dget (jdict e) c) then Ok tt
                                     else fail ("generated artifact producer identity mismatch: " +:+ c))
                  ["openpine-contracts"; "pine2ast"; "ast2python"; "pinelib"] in Ok tt
  | _, _ => fail "generated artifact producer identity is missing"
  end.

(** The checks before anything is started. *)
Definition check_open (a : OpenArgs) : result SessionError unit :=
  let ctx := o_context a in
  let art := o_artifact a in
  if (500000 <? Z.of_nat (String.length (o_source a)))%Z then fail "artifact source exceeds size limit"
  else if negb (valid_payload "openpine.execution_context.v1" ctx) then fail "execution_context is invalid"
  else if negb (verify_content_hash ctx "openpine.execution_context.v1") then fail "execution_context content hash is invalid"
  else if negb (valid_payload "openpine.generated_artifact.v2" art) then fail "generated artifact is invalid"
  else if negb (verify_content_hash art "openpine.generated_artifact.v2") then fail "generated artifact content hash is invalid"
  else if negb (same_json (dget art "emitted_module_hash") (Some (JStr (source_digest (o_source a) "openpine.generated_artifact.v2"))))
  then fail "generated artifact module hash mismatch"
  else if negb (same_json (dget ctx "generated_artifact_hash") (dget art "content_hash")
                && same_json (dget ctx "emitted_module_hash") (dget art "emitted_module_hash"))
  then fail "generated artifact admission identity mismatch"
  else if negb (same_json (dget art "stack_id") (Some (JStr "openpine-5.0"))) then fail "generated artifact stack family mismatch"
  else
    let! _ := check_commits art ctx in
    if negb (String.prefix "sha256:" (o_run_hash a)) || bool_decide (o_run_hash a = zero_hash) then fail "sealed run hash is required"
    else if negb (same_json (dget ctx "stack_manifest_hash") (dget ctx "stack_id"))
    then fail "execution_context stack manifest identity mismatch"
    else if negb (str_truthy (str_strip (o_instrument a))) then fail "instrument identity is required"
    else if negb (bool_decide (o_semantic a = "legacy_4x") || bool_decide (o_semantic a = "strict_5x")) then fail "semantic_profile required"
    else if negb (str_truthy (str_strip (o_timeframe a))) then fail "chart_timeframe required"
    else if negb (match o_params a with None | Some (JObj _) => true | _ => false end) then fail "params must be an object"
    else if negb (str_truthy (o_dir a)) then fail "protocol artifact directory is required"
    else Ok tt.

Definition bootstrap (a : OpenArgs) : json :=
  JObj [("interactive", JBool true); ("source", JStr (o_source a));
        ("stack_id", default JNull (dget (o_context a) "stack_manifest_hash")); ("execution_context", JObj (o_context a));
        ("generated_artifact", JObj (o_artifact a)); ("instrument_id", JStr (o_instrument a));
        ("semantic_profile", JStr (o_semantic a)); ("chart_timeframe", JStr (o_timeframe a)); ("htf_bars", JArr (o_htf a));
        ("params", default (JObj []) (o_params a))].

(** [_write_bootstrap]. *)
Definition write_bootstrap (a : OpenArgs) : Run unit := fun s =>
  let size := (Z.of_nat (String.length (dumps_compact (bootstrap a))) + 1)%Z in
  if s_closed s then (s, Err (SIsolated "interactive worker is closed"))
  else if (1000000 <? size)%Z then (s, Err (SIsolated "interactive message exceeds size limit"))
  else match peer_boot (s_peer s) (bootstrap a) with
       | (p, true) => (upd_sent s p size, Ok tt)
       | (p, false) => (upd_peer s p, Err (SIsolated "interactive worker pipe closed"))
       end.

(** The conversation of [__init__]: the worker says HELLO, and is given its
    artifact and its run. *)
Definition handshake (a : OpenArgs) : Run Message :=
  let ctx := o_context a in
  let art := o_artifact a in
  do! _ := write_bootstrap a in
  do! hello := read_message in
  if negb (bool_decide (kind hello = "HELLO")) then raise_response None None
  else
    do! h := lift (jkey art "content_hash") in
    do! mh := lift (jkey art "emitted_module_hash") in
    do! em := lift (jkey art "entrypoint_module") in
    do! ec := lift (jkey art "entrypoint_class") in
    do! load := append_own LOAD_ARTIFACT
      [("artifact_hash", h); ("module_hash", mh); ("entrypoint_module", em); ("entrypoint_class", ec)] 0 in
    do! _ := write_message load in
    do! run := lift (jkey ctx "run_id") in
    do! ch := lift (jkey ctx "content_hash") in
    do! init := append_own INIT_RUN
      [("run_id", run); ("run_hash", JStr (o_run_hash a)); ("execution_context_hash", ch); ("execution_context", JObj ctx);
       ("semantic_profile", JStr (o_semantic a)); ("capabilities", JArr [JStr "closed_bar"; JStr "checkpoint_v1"])] 0 in
    do! _ := write_message init in
    ret hello.

(** [InteractiveWorkerSession(...)], the process having been started; when the
    conversation fails it is killed. *)
Definition open_session (p : P) (a : OpenArgs) : Session * result SessionError Message :=
  let closed t := mkSession t true 0 0 None ∅ p in
  let none := mkTranscript (mkContext "" "" "") (fun _ => ("", "")) [] in
  match check_open a with
  | Err e => (closed none, Err e)
  | Ok _ =>
      match transcript_of (o_context a) with
      | Err e => (closed none, Err (SProtocol e))
      | Ok t =>
          match handshake a (mkSession t false 0 0 None ∅ p) with
          | (s, Ok m) => (s, Ok m)
          | (s, Err e) => (kill s, Err e)
          end
      end
  end.

End Session.
