(* ===== verification/WorkerLink.v ===== *)
(** A session and its worker: [InteractiveWorkerSession] of [WorkerSession] with
    the worker of [WorkerLoop] at the other end of the pipes.

    The worker answers a line as soon as it is written; it only reads what the
    session writes, and the session waits for what it reads, so nothing else can
    be seen.  A step of the worker that fails ends it with one error object;
    what the failing step itself had written is dropped. *)

From Stdlib Require Import Ascii.
From S2P Require Import Prelude Json Admission WorkerProtocol RunIdentity WorkerChild WorkerLoop WorkerSession.

#[local] Set Default Proof Using "Type".

Section Link.
Variable valid_payload : string -> dict string json -> bool.
Variable verify_content_hash : dict string json -> string -> bool.
Variable source_digest : string -> string -> string.
Variable valid : Message -> bool.
Variable seal : Message -> Message.
Variable hash_ok : Message -> bool.
Variable sequence_ok : list Message -> bool.
Variable batch_hash : list json -> string.
Variable artifact_uri : string -> string.
Context {S : Type}.
Variable begin_bar : S -> PineBar -> result string S.
Variable attach_view : S -> list (string * pval) -> result string S.
Variable begin_callback : S -> json -> result string S.
Variable process_bar : S -> PineBar -> json -> result string S.
Variable commit_intents end_bar commit_history : S -> result string S.
Variable tape_events : S -> list json.

(** [main] of the bootstrap up to the loop: the strategy, or the error object
    it prints. *)
Variable start_strategy : json -> result (option string * option string) S.
(** [f"{exc.__class__.__name__}: {exc}"]. *)
Variable error_text : ChildError -> string.

(** *** The worker as a process *)

Definition named_wheel (v : json) : option (string * string) := n ← (wheel_row v).1; w ← (wheel_row v).2; Some (n, w).

(** [_Protocol(execution_context)]. *)
Definition child_transcript (ctx : dict string json) : result ChildError Transcript :=
  if negb (valid_payload "openpine.execution_context.v1" ctx) then Err CContract
  else if negb (verify_content_hash ctx "openpine.execution_context.v1") then Err (CRuntime "execution context content hash is invalid")
  else
    match dget ctx "producer_commits", dget ctx "wheel_identities" with
    | Some (JObj commits), Some (JArr wheels) =>
        match mapM named_wheel wheels with
        | None => Err CType
        | Some rows =>
            let commits := str_values (jdict commits) in
            let! a := child_identity commits rows openpine in
            let! b := child_identity commits rows pinelib in
            let! e := child_identity commits rows backtest_engine in
            match context_text ctx "session_id", context_text ctx "run_id", context_text ctx "stack_manifest_hash" with
            | Ok session, Ok run, Ok stack =>
                Ok (mkTranscript (mkContext session run stack)
                      (fun x => match x with openpine => a | pinelib => b | backtest_engine => e end) [])
            | _, _, _ => Err CType
            end
        end
    | _, _ => Err CType
    end.

(** A worker that has not been started, that runs its loop for a context and an
    artifact, or that has ended; and the lines it has written. *)
Inductive Worker := NotStarted | Running (context artifact : dict string json) (c : Child (S:=S)) | Ended.
Record Linked := mkLinked { lk_worker : Worker; lk_out : list ReadEvent }.

Definition message_line (m : Message) : ReadEvent := Line (line_size m) (Protocol m).
Definition error_line (code error : option string) : ReadEvent := Line 0 (OtherObject code error).
Definition protocol_error_line (e : ChildError) : ReadEvent := error_line (Some "WORKER_PROTOCOL_ERROR") (Some (error_text e)).

Definition start_loop (context : dict string json) (s : S) : result ChildError (Child (S:=S)) :=
  let! t := child_transcript context in child_start valid seal sequence_ok context t s.

(** [main] with [interactive] requests: the context and the artifact of the
    request. *)
Definition link_boot (p : Linked) (request : json) : Linked * bool :=
  match lk_worker p, request with
  | NotStarted, JObj l =>
      match dget (jdict l) "execution_context", dget (jdict l) "generated_artifact" with
      | Some (JObj ctx), Some (JObj art) =>
          match start_strategy request with
          | Err (code, error) => (mkLinked Ended (lk_out p ++ [error_line code error]), true)
          | Ok s =>
              match start_loop ctx s with
              | Ok c => (mkLinked (Running ctx art c) (lk_out p ++ map message_line (ch_out c)), true)
              | Err e => (mkLinked Ended (lk_out p ++ [protocol_error_line e]), true)
              end
          end
      | _, _ => (mkLinked Ended (lk_out p ++ [error_line None (Some "execution_context invalid")]), true)
      end
  | _, _ => (p, false)
  end.

Definition worker_step (context artifact : dict string json) (c : Child (S:=S)) (line : Z * Message) :=
  child_step valid_payload verify_content_hash valid seal hash_ok sequence_ok batch_hash context artifact
    begin_bar attach_view begin_callback process_bar commit_intents end_bar commit_history tape_events c line.

Definition new_lines (c c' : Child (S:=S)) : list ReadEvent := map message_line (drop (length (ch_out c)) (ch_out c')).

Definition link_write (p : Linked) (size : Z) (m : Message) : Linked * bool :=
  match lk_worker p with
  | Running ctx art c =>
      (match worker_step ctx art c (size, m) with
       | Ok (Going c') => mkLinked (Running ctx art c') (lk_out p ++ new_lines c c')
       | Ok (Exited _ c') => mkLinked Ended (lk_out p ++ new_lines c c')
       | Err e => mkLinked Ended (lk_out p ++ [protocol_error_line e])
       end, true)
  | _ => (p, false)
  end.

Definition running (w : Worker) : bool := match w with Running _ _ _ => true | _ => false end.

Definition link_read (p : Linked) : Linked * ReadEvent :=
  match lk_out p with
  | e :: r => (mkLinked (lk_worker p) r, e)
  | [] => (p, if running (lk_worker p) then Timeout else Eof "")
  end.

#[local] Instance Linked_peer : Peer Linked := {
  peer_boot := link_boot;
  peer_write := link_write;
  peer_read := link_read;
  peer_alive p := running (lk_worker p);
  peer_kill p := mkLinked Ended [];
  peer_close_stdin p := mkLinked (match lk_worker p with Running _ _ _ => Ended | w => w end) (lk_out p)
}.

(** ** In step *)

Hypothesis sealing : seals seal hash_ok.

Abbreviation Sess := (Session (P:=Linked)).

(** Both sides hold the same transcript and nothing is on its way. *)
Definition in_step (s : Sess) (ctx art : dict string json) (c : Child (S:=S)) : Prop :=
  s_peer s = mkLinked (Running ctx art c) [] /\ ch_protocol c = s_protocol s /\ child_ok c.

Lemma child_ok_plain (c : Child (S:=S)) : child_ok c -> plain_transcript (ch_protocol c).
Proof.
  intros [_ H] m Hm. unfold last_kind in H. rewrite Hm in H. simpl in H. destruct (Kind_of (kind m)) as [k|]; [|done].
  exists k. split; [done|]. by destruct k.
Qed.

(** What is appended on one side is accepted on the other. *)
Lemma crosses t k b now t' m :
  plain_transcript t -> known k = true -> append valid seal sequence_ok t (Kind_text k) b now None = (t', Ok m) ->
  child_accept valid hash_ok sequence_ok t m = (t', Ok m) /\ t' = push t m /\ kind m = Kind_text k /\ body m = b.
Proof using sealing.
  intros Ht Hk H. assert (Hkind : kind m = Kind_text k /\ body m = b /\ t' = push t m).
  { apply (append_agree valid seal sequence_ok t m t' k b now Ht Hk) in H. unfold child_append in H.
    destruct (child_transition _ _); [|done]. destruct (negb _); [done|]. destruct (terminal k && _); [done|]. simplify_eq.
    destruct (sealing (child_draft t k b now)) as [_ [h ->]]. unfold child_draft. by destruct (components t _). }
  destruct Hkind as (Hkind & Hb & ->). split; [|done].
  apply (accept_agree valid hash_ok sequence_ok t m _ k Ht); [by rewrite Hkind, Kind_roundtrip|done|].
  by eapply append_accept_agree.
Qed.

(** What the worker responds is accepted by the session. *)
Lemma crosses_back t k b now t' m :
  plain_transcript t -> known k = true -> child_append valid seal sequence_ok t k b now = (t', Ok m) ->
  accept valid hash_ok sequence_ok t m = (t', Ok m).
Proof using sealing.
  intros Ht Hk H. apply (append_agree valid seal sequence_ok t m t' k b now Ht Hk) in H. by eapply append_accept_agree.
Qed.

(** *** The steps of the session *)

Lemma bind_run {A B} (m : Run (P:=Linked) A) (f : A -> Run (P:=Linked) B) (s s' : Sess) b :
  bind m f s = (s', Ok b) -> exists s1 a, m s = (s1, Ok a) /\ f a s1 = (s', Ok b).
Proof. unfold bind. destruct (m s) as [s1 [a|e]]; intros H; [by eauto|done]. Qed.

Lemma lift_run {A} (r : result ChildError A) (s s' : Sess) a : lift r s = (s', Ok a) -> s' = s /\ r = Ok a.
Proof. unfold lift, ret, raise. destruct r as [a'|[]]; intros H; by simplify_eq. Qed.

Abbreviation own := (append_own (P:=Linked) valid seal sequence_ok).
Abbreviation write := (write_message (P:=Linked) valid hash_ok).
Abbreviation read := (read_message (P:=Linked) valid hash_ok sequence_ok).
Abbreviation handle_ ctx art := (handle valid_payload verify_content_hash valid seal sequence_ok batch_hash ctx art
  begin_bar attach_view begin_callback process_bar commit_intents end_bar commit_history tape_events).

(** A message that is sent: the worker has taken it and handles it. *)
Lemma send_step s ctx art c k b created s1 m s2 :
  in_step s ctx art c -> known k = true -> terminal k = false ->
  own k b created s = (s1, Ok m) -> write m s1 = (s2, Ok tt) ->
  s_protocol s2 = push (ch_protocol c) m /\ kind m = Kind_text k /\ body m = b /\
  match worker_step ctx art c (line_size m, m) with
  | Ok (Going c') => s_peer s2 = mkLinked (Running ctx art c') (new_lines c c') /\ child_ok c' /\
      handle_ ctx art (with_protocol c (push (ch_protocol c) m)) m = Ok (Going c')
  | Ok (Exited _ _) => False
  | Err e => s_peer s2 = mkLinked Ended [protocol_error_line e]
  end.
Proof using sealing.
  intros (Hp & Ht & Hc) Hk Hterm Ha Hw. unfold append_own in Ha.
  destruct (append _ _ _ _ _ _ _ _) as [t1 [m1|e1]] eqn:E; [|done]. simplify_eq.
  rewrite <-Ht in E. apply crosses in E as (Hacc & -> & Hkind & Hb); [|by apply child_ok_plain|done].
  unfold write_message in Hw. destruct (negb (valid m)); [done|]. destruct (negb (hash_ok m)); [done|].
  unfold write_json_line in Hw. cbn [s_closed upd_protocol s_peer] in Hw. destruct (s_closed s); [done|].
  destruct (1000000 <? line_size m)%Z eqn:Hsize; [done|]. rewrite Hp in Hw. cbn [peer_write Linked_peer] in Hw.
  set (p2 := link_write _ _ _) in Hw. assert (Hp2 : p2.2 = true) by reflexivity.
  assert (Hp1 : p2.1 = match worker_step ctx art c (line_size m, m) with
                       | Ok (Going c') => mkLinked (Running ctx art c') (new_lines c c')
                       | Ok (Exited _ c') => mkLinked Ended (new_lines c c')
                       | Err e => mkLinked Ended [protocol_error_line e]
                       end) by reflexivity.
  clearbody p2. destruct p2 as [p2 ok]. cbn [fst snd] in Hp1, Hp2. subst ok. simplify_eq.
  cbn [s_protocol s_peer upd_sent upd_protocol]. split_and!; [done|done|done|].
  pose proof (child_step_ok valid_payload verify_content_hash valid seal hash_ok sequence_ok batch_hash ctx art begin_bar attach_view
    begin_callback process_bar commit_intents end_bar commit_history tape_events sealing c (line_size m, m) Hc) as Hok.
  fold (worker_step ctx art c (line_size m, m)) in Hok. unfold worker_step in *. unfold child_step in *. cbn [fst snd] in *.
  rewrite Hsize, Hacc in *. destruct (handle _ _ _ _ _ _ _ _ _ _ _ _ _ _ _ _ _ _) as [[c'|st c']|e] eqn:Eh; [done| |done].
  apply handle_exits in Eh as (k' & Hk' & Hterm'). rewrite Hkind, Kind_roundtrip in Hk'. simplify_eq. congruence.
Qed.

(** A message that is read is the next one the worker wrote. *)
Lemma read_step s s' m :
  read s = (s', Ok m) ->
  exists size rest, lk_out (s_peer s) = Line size (Protocol m) :: rest /\
    s_peer s' = mkLinked (lk_worker (s_peer s)) rest /\ s_protocol s' = push (s_protocol s) m.
Proof.
  unfold read_message. cbn [peer_read Linked_peer]. unfold link_read.
  destruct (lk_out (s_peer s)) as [|ev rest]; [by destruct (running _)|].
  destruct ev as [size content| | | |]; try done. destruct (1000000 <? size)%Z; [done|].
  destruct content as [m0|c0 e0| |]; try done. unfold accept_response. destruct (negb (valid m0) || negb (hash_ok m0)); [done|].
  destruct (accept _ _ _ _ m0) as [t [m1|e]] eqn:E; [|done]. intros H. simplify_eq. simpl.
  apply accept_extends in E as (-> & -> & _). eauto.
Qed.

(** The next line the worker has written is the one that is read. *)
Lemma read_line s s' m m0 w rest :
  read s = (s', Ok m) -> s_peer s = mkLinked w (message_line m0 :: rest) ->
  m = m0 /\ s_peer s' = mkLinked w rest /\ s_protocol s' = push (s_protocol s) m.
Proof. intros H Hp. apply read_step in H as (size & r & Hout & Hp' & Ht). rewrite Hp in *. simpl in *. unfold message_line in Hout. by simplify_eq. Qed.

Definition failed (s : Sess) : Prop := exists e, s_peer s = mkLinked Ended [protocol_error_line e].

Lemma read_failed s s' m : read s = (s', Ok m) -> ~ failed s.
Proof. intros H [e Hp]. apply read_step in H as (size & r & Hout & _). by rewrite Hp in Hout. Qed.

(** Nothing can be written to a worker that has ended. *)
Lemma write_failed m s s' u : failed s -> write m s <> (s', Ok u).
Proof.
  intros [e Hp]. unfold write_message, write_json_line. destruct (negb (valid m)); [done|]. destruct (negb (hash_ok m)); [done|].
  destruct (s_closed s); [done|]. destruct (1000000 <? _)%Z; [done|]. rewrite Hp. done.
Qed.

Lemma own_failed k b created s s' m : failed s -> own k b created s = (s', Ok m) -> failed s'.
Proof. intros [e Hp] H. exists e. unfold append_own in H. destruct (append _ _ _ _ _ _ _ _) as [t [x|x]]; by simplify_eq. Qed.

Lemma new_lines_app (c c' : Child (S:=S)) l : ch_out c' = ch_out c ++ l -> new_lines c c' = map message_line l.
Proof. intros H. unfold new_lines. by rewrite H, drop_app_length. Qed.

Abbreviation eval := (evaluate_bar (P:=Linked) valid seal hash_ok sequence_ok).
Abbreviation recalc := (evaluate_recalc (P:=Linked) valid seal hash_ok sequence_ok).
Abbreviation commit := (commit_bar (P:=Linked) valid seal hash_ok sequence_ok artifact_uri).

(** The worker has taken one step, and written [written]. *)
Definition stepped (ctx art : dict string json) (c c' : Child (S:=S)) (written : list Message) : Prop :=
  exists line, worker_step ctx art c line = Ok (Going c') /\ ch_out c' = ch_out c ++ written.

Lemma evaluate_in_step s ctx art c event s' b :
  in_step s ctx art c -> eval event s = (s', Ok b) ->
  exists c' m, in_step s' ctx art c' /\ stepped ctx art c c' [m] /\ kind m = "INTENT_BATCH" /\ body m = b.
Proof using sealing.
  intros Hin H. unfold evaluate_bar in H. destruct (pick event bar_keys) as [pb|]; [|done].
  apply bind_run in H as (s1 & created & H1 & H). apply lift_run in H1 as [-> _].
  apply bind_run in H as (s1 & m & Ha & H). apply bind_run in H as (s3 & r & Hr & H).
  unfold request in Hr. apply bind_run in Hr as (s2 & [] & Hw & Hr).
  destruct (send_step _ _ _ _ BAR_BEGIN _ _ _ _ _ Hin eq_refl eq_refl Ha Hw) as (Ht & Hkind & Hb & Hstep).
  destruct (worker_step ctx art c _) as [[c'|]|e] eqn:Es; [|done|by destruct (read_failed _ _ _ Hr); eexists].
  destruct Hstep as (Hp & Hc' & Hh). unfold handle in Hh. rewrite Hkind, Kind_roundtrip in Hh.
  destruct (negb _); [done|]. unfold go in Hh. apply result_bind_ok in Hh as (c1 & Hh & E). simplify_eq.
  eapply bar_begin_writes in Hh as (m1 & Eo & Ep & Hk); [|exact sealing]. simpl in Eo, Ep. rewrite (new_lines_app _ _ _ Eo) in Hp.
  destruct (read_line _ _ _ m1 _ [] Hr Hp) as (-> & Hp3 & Ht3). rewrite Ht in Ht3.
  rewrite Hk, bool_decide_true in H by done. unfold ret in H. simplify_eq.
  exists c', m1. split_and!; [unfold in_step; by rewrite Ep, Ht3|by eexists|done|done].
Qed.

Lemma commit_in_step s ctx art c event a1 a2 s' m :
  in_step s ctx art c -> commit event a1 a2 s = (s', Ok m) ->
  (exists c', in_step s' ctx art c' /\ stepped ctx art c c' []) \/ failed s'.
Proof using sealing.
  intros Hin H. unfold commit_bar in H.
  assert (Hpers : forall a s s' j, in_step s ctx art c -> persist_artifact (P:=Linked) artifact_uri a s = (s', Ok j) -> in_step s' ctx art c).
  { clear. intros a s s' j Hin H. unfold persist_artifact in H. destruct (a_bytes a) as [bytes|]; [|done].
    destruct (a_hash a ≫= _) as [digest|]; [|done].
    destruct (s_files s !! _) as [old|]; [destruct (bool_decide _)|]; simplify_eq; exact Hin. }
  apply bind_run in H as (s1 & r1 & H1 & H). apply Hpers in H1; [|done].
  apply bind_run in H as (s2 & r2 & H2 & H). apply Hpers in H2; [|done].
  apply bind_run in H as (s3 & b & H3 & H). apply lift_run in H3 as [-> _].
  apply bind_run in H as (s3 & created & H3 & H). apply lift_run in H3 as [-> _].
  apply bind_run in H as (s3 & m3 & Ha & H). apply bind_run in H as (s4 & [] & Hw & H). unfold upd_commit in H. simplify_eq.
  destruct (send_step _ _ _ _ BAR_COMMIT _ _ _ _ _ H2 eq_refl eq_refl Ha Hw) as (Ht & Hkind & Hb & Hstep).
  destruct (worker_step ctx art c _) as [[c'|]|e] eqn:Es; [|done|].
  - destruct Hstep as (Hp & Hc' & Hh). unfold handle in Hh. rewrite Hkind, Kind_roundtrip in Hh. destruct (negb _); [done|].
    unfold go in Hh. apply result_bind_ok in Hh as (c1 & Hh & E). simplify_eq. apply commit_keeps in Hh as [Ep Eo]. simpl in Ep, Eo.
    left. exists c'. split; [|exists (line_size m, m); by rewrite app_nil_r].
    unfold in_step. simpl. rewrite Hp, (new_lines_app _ _ []) by (by rewrite app_nil_r). by rewrite Ep, Ht.
  - right. by exists e.
Qed.

Lemma recalc_in_step s ctx art c event s' b :
  in_step s ctx art c -> recalc event s = (s', Ok b) ->
  exists c1 c2 m1 m2, in_step s' ctx art c2 /\ stepped ctx art c c1 [] /\ stepped ctx art c1 c2 [m1; m2] /\
    kind m1 = "RECALC_RESULT" /\ kind m2 = "INTENT_BATCH" /\ body m2 = b.
Proof using sealing.
  intros Hin H. unfold evaluate_recalc in H.
  do 6 (apply bind_run in H as (s1 & ? & H1 & H); apply lift_run in H1 as [-> _]).
  apply bind_run in H as (s1 & mb & Ha & H). apply bind_run in H as (s2 & [] & Hw & H).
  do 2 (apply bind_run in H as (s3 & ? & H1 & H); apply lift_run in H1 as [-> _]).
  apply bind_run in H as (s3 & mr & Ha2 & H). apply bind_run in H as (s4 & [] & Hw2 & H).
  apply bind_run in H as (s5 & r1 & Hr1 & H). destruct (negb _); [done|]. apply bind_run in H as (s6 & r2 & Hr2 & H).
  destruct (send_step _ _ _ _ BROKER_EVENT_BATCH _ _ _ _ _ Hin eq_refl eq_refl Ha Hw) as (Ht & Hkind & Hb & Hstep).
  destruct (worker_step ctx art c _) as [[c1|]|e] eqn:Es; [|done|].
  2:{ exfalso. assert (Hf : failed s2) by (by eexists). eapply write_failed; [|exact Hw2]. by eapply own_failed. }
  destruct Hstep as (Hp & Hc1 & Hh). unfold handle in Hh. rewrite Hkind, Kind_roundtrip in Hh. destruct (negb _); [done|]. simplify_eq.
  set (c1 := with_protocol c _) in *. rewrite (new_lines_app c c1 []) in Hp by (by rewrite app_nil_r).
  assert (Hin1 : in_step s2 ctx art c1) by done.
  destruct (send_step _ _ _ _ RECALC_REQUEST _ _ _ _ _ Hin1 eq_refl eq_refl Ha2 Hw2) as (Ht2 & Hkind2 & Hb2 & Hstep2).
  destruct (worker_step ctx art c1 _) as [[c2|]|e] eqn:Es2; [|done|by destruct (read_failed _ _ _ Hr1); eexists].
  destruct Hstep2 as (Hp2 & Hc2 & Hh). unfold handle in Hh. rewrite Hkind2, Kind_roundtrip in Hh. destruct (negb _); [done|].
  unfold go in Hh. apply result_bind_ok in Hh as (c' & Hh & E). simplify_eq.
  eapply recalc_writes in Hh as (m1 & m2 & Eo & Ep & Hk1 & Hk2); [|exact sealing]. simpl in Eo, Ep. rewrite (new_lines_app c1 _ _ Eo) in Hp2.
  destruct (read_line _ _ _ m1 _ [message_line m2] Hr1 Hp2) as (-> & Hp5 & Ht5).
  destruct (read_line _ _ _ m2 _ [] Hr2 Hp5) as (-> & Hp6 & Ht6). rewrite Hk2, bool_decide_true in H by done.
  unfold ret in H. simplify_eq. exists c1, c2, m1, m2.
  split_and!; [unfold in_step; by rewrite Ep, Ht6, Ht5, Ht2|exists (line_size mb, mb); by rewrite app_nil_r|by eexists|done|done|done].
Qed.

(** ** A whole session *)

Inductive BarOp :=
| OpEvaluate (event : dict string json)
| OpRecalc (event : dict string json)
| OpCommit (event : dict string json) (state projection : Artifact).

(** The intents of an INTENT_BATCH body. *)
Definition body_intents (b : dict string json) : list json := match dget b "intents" with Some (JArr l) => l | _ => [] end.

(** A call of the engine, and the intents it is given. *)
Definition run_op (o : BarOp) : Run (P:=Linked) (list json) :=
  match o with
  | OpEvaluate ev => bind (eval ev) (fun b => WorkerSession.ret (body_intents b))
  | OpRecalc ev => bind (recalc ev) (fun b => WorkerSession.ret (body_intents b))
  | OpCommit ev a1 a2 => bind (commit ev a1 a2) (fun _ => WorkerSession.ret [])
  end.

Fixpoint run_ops (ops : list BarOp) : Run (P:=Linked) (list json) :=
  match ops with
  | [] => WorkerSession.ret []
  | o :: r => bind (run_op o) (fun l => bind (run_ops r) (fun l' => WorkerSession.ret (l ++ l')))
  end.

(** The worker's states one after the other, with the tapes of the strategy at
    its hand-overs: a step that writes an INTENT_BATCH hands over the tape that
    the strategy then has. *)
Definition handed_over (c c' : Child (S:=S)) : list (list json) :=
  if batched (drop (length (ch_out c)) (ch_out c')) then [tape_events (ch_strategy c')] else [].

Inductive journey (ctx art : dict string json) (c : Child (S:=S)) : Child (S:=S) -> list (list json) -> Prop :=
| journey_start : journey ctx art c c []
| journey_step c1 c2 line tapes :
    journey ctx art c c1 tapes -> worker_step ctx art c1 line = Ok (Going c2) ->
    journey ctx art c c2 (tapes ++ handed_over c1 c2).

Lemma journey_trans ctx art a b c l l' : journey ctx art a b l -> journey ctx art b c l' -> journey ctx art a c (l ++ l').
Proof.
  intros H1 H2. induction H2 as [|c1 c2 line tapes _ IH Hs]; [by rewrite app_nil_r|]. rewrite app_assoc. by eapply journey_step.
Qed.

(** What has been written is the new part of each tape handed over. *)
Definition sent_of (c c' : Child (S:=S)) (tapes : list (list json)) : Prop :=
  sent_intents c' = sent_intents c ++ map safe (new_parts (ch_sent c) tapes) /\ ch_sent c' = last_length (ch_sent c) tapes.

Lemma journey_sent ctx art c c' tapes : journey ctx art c c' tapes -> sent_of c c' tapes.
Proof using sealing.
  induction 1 as [|c1 c2 line tapes _ [IH1 IH2] Hs]; [split; [by rewrite app_nil_r|done]|].
  apply (step_hands valid_payload verify_content_hash valid seal hash_ok sequence_ok batch_hash ctx art begin_bar attach_view
    begin_callback process_bar commit_intents end_bar commit_history tape_events sealing c1 line) in Hs as (l & Eo & Hl).
  simpl in Eo, Hl. unfold sent_of, handed_over, sent_intents in *. rewrite Eo, drop_app_length, map_app, concat_app, IH1.
  destruct (batched l); destruct Hl as [Es ->]; rewrite Es.
  - by rewrite new_parts_app, last_length_app, map_app, IH2, <-app_assoc.
  - by rewrite !app_nil_r.
Qed.

Lemma stepped_journey ctx art c c' l : stepped ctx art c c' l ->
  exists tapes, journey ctx art c c' tapes /\ sent_intents c' = sent_intents c ++ concat (map intents_of l).
Proof.
  intros (line & Hs & Ho). exists ([] ++ handed_over c c'). split; [eapply journey_step; [apply journey_start|exact Hs]|].
  unfold sent_intents. by rewrite Ho, map_app, concat_app.
Qed.

Lemma intents_of_batch m : kind m = "INTENT_BATCH" -> intents_of m = body_intents (body m).
Proof. intros H. unfold intents_of. by rewrite bool_decide_true. Qed.

Lemma run_op_step s ctx art c o s' got :
  in_step s ctx art c -> run_op o s = (s', Ok got) ->
  exists c' tapes, journey ctx art c c' tapes /\ sent_intents c' = sent_intents c ++ got /\ (in_step s' ctx art c' \/ failed s').
Proof using sealing.
  intros Hin H. destruct o as [ev|ev|ev a1 a2]; simpl in H; apply bind_run in H as (s1 & b & H1 & H);
    unfold WorkerSession.ret in H; simplify_eq.
  - apply (evaluate_in_step _ _ _ _ _ _ _ Hin) in H1 as (c' & m & Hin' & Hst & Hk & <-).
    apply stepped_journey in Hst as (l & Hj & E). exists c', l. rewrite E. simpl. rewrite intents_of_batch, app_nil_r by done. auto.
  - apply (recalc_in_step _ _ _ _ _ _ _ Hin) in H1 as (c1 & c2 & m1 & m2 & Hin' & Hst1 & Hst2 & Hk1 & Hk2 & <-).
    apply stepped_journey in Hst1 as (l1 & Hj1 & E1). apply stepped_journey in Hst2 as (l2 & Hj2 & E2).
    exists c2, (l1 ++ l2). rewrite E2, E1. simpl. rewrite (intents_of_batch m2), !app_nil_r by done.
    unfold intents_of. rewrite Hk1, bool_decide_false by done. simpl. split_and!; [by eapply journey_trans|done|auto].
  - apply (commit_in_step _ _ _ _ _ _ _ _ _ Hin) in H1 as [(c' & Hin' & Hst)|Hf].
    + apply stepped_journey in Hst as (l & Hj & E). exists c', l. rewrite E. simpl. auto.
    + exists c, []. rewrite app_nil_r. split_and!; [apply journey_start|done|auto].
Qed.

Lemma run_op_failed o s s' got : failed s -> run_op o s <> (s', Ok got).
Proof.
  intros Hf H. destruct o as [ev|ev|ev a1 a2]; simpl in H; apply bind_run in H as (s1 & b & H1 & _).
  - unfold evaluate_bar in H1. destruct (pick ev bar_keys) as [pb|]; [|done].
    apply bind_run in H1 as (s2 & created & H2 & H1). apply lift_run in H2 as [-> _].
    apply bind_run in H1 as (s2 & m & Ha & H1). apply bind_run in H1 as (s3 & r & Hr & _).
    unfold request in Hr. apply bind_run in Hr as (s4 & u & Hw & _). eapply write_failed; [|exact Hw]. by eapply own_failed.
  - unfold evaluate_recalc in H1. do 6 (apply bind_run in H1 as (s2 & ? & H2 & H1); apply lift_run in H2 as [-> _]).
    apply bind_run in H1 as (s2 & mb & Ha & H1). apply bind_run in H1 as (s3 & u & Hw & _).
    eapply write_failed; [|exact Hw]. by eapply own_failed.
  - unfold commit_bar in H1. assert (Hpers : forall a s s' j, failed s -> persist_artifact (P:=Linked) artifact_uri a s = (s', Ok j) -> failed s').
    { clear. intros a s s' j Hf H. unfold persist_artifact in H. destruct (a_bytes a) as [bytes|]; [|done].
      destruct (a_hash a ≫= _) as [digest|]; [|done].
      destruct (s_files s !! _) as [old|]; [destruct (bool_decide _)|]; simplify_eq; exact Hf. }
    apply bind_run in H1 as (s2 & r1 & H2 & H1). apply Hpers in H2; [|done].
    apply bind_run in H1 as (s3 & r2 & H3 & H1). apply Hpers in H3; [|done].
    apply bind_run in H1 as (s4 & b' & H4 & H1). apply lift_run in H4 as [-> _].
    apply bind_run in H1 as (s4 & created & H4 & H1). apply lift_run in H4 as [-> _].
    apply bind_run in H1 as (s4 & m3 & Ha & H1). apply bind_run in H1 as (s5 & u & Hw & _).
    eapply write_failed; [|exact Hw]. by eapply own_failed.
Qed.

Lemma run_ops_step s ctx art c ops s' got :
  in_step s ctx art c \/ failed s -> run_ops ops s = (s', Ok got) ->
  exists c' tapes, journey ctx art c c' tapes /\ sent_intents c' = sent_intents c ++ got /\ (in_step s' ctx art c' \/ failed s').
Proof using sealing.
  revert s c got. induction ops as [|o ops IH]; intros s c got Hin H; simpl in H; unfold WorkerSession.ret in H.
  - simplify_eq. exists c, []. rewrite app_nil_r. split; [apply journey_start|done].
  - apply bind_run in H as (s1 & l & H1 & H). apply bind_run in H as (s2 & l' & H2 & H). simplify_eq.
    destruct Hin as [Hin|Hf]; [|by destruct (run_op_failed _ _ _ _ Hf H1)].
    apply (run_op_step _ _ _ _ _ _ _ Hin) in H1 as (c1 & t1 & Hj1 & E1 & Hin1).
    apply (IH _ c1) in H2 as (c2 & t2 & Hj2 & E2 & Hin2); [|done]. exists c2, (t1 ++ t2). rewrite E2, E1, <-app_assoc.
    split; [by eapply journey_trans|done].
Qed.

(** *** Opening *)

(** What the schema of an execution context is documented to say: every wheel
    has a name and a version. *)
Hypothesis wheels_named : forall ctx ws,
  valid_payload "openpine.execution_context.v1" ctx = true -> dget ctx "wheel_identities" = Some (JArr ws) ->
  is_Some (mapM named_wheel ws).

Lemma named_rows ws rows : mapM named_wheel ws = Some rows -> map wheel_row ws = named_row <$> rows.
Proof.
  rewrite mapM_Some. induction 1 as [|w row ws rows Hw _ IH]; [done|]. simpl. f_equal; [|exact IH].
  unfold named_wheel in Hw. destruct (wheel_row w) as [[n|] [v|]]; simpl in Hw; by simplify_eq.
Qed.

(** Both sides start from the same identities. *)
Lemma transcripts_agree ctx t : transcript_of valid_payload verify_content_hash ctx = Ok t -> child_transcript ctx = Ok t.
Proof using wheels_named.
  unfold transcript_of, child_transcript. destruct (valid_payload _ ctx) eqn:Hv; [|done]. destruct (verify_content_hash ctx _); [|done].
  simpl. destruct (dget ctx "producer_commits") as [[| | | | |commits]|]; try done.
  destruct (dget ctx "wheel_identities") as [[| | | |ws|]|] eqn:Ew; try done.
  destruct (wheels_named ctx ws Hv Ew) as [rows Hr]. rewrite Hr, (named_rows ws rows Hr). intros H.
  apply result_bind_ok in H as (comps & Hc & H). pose proof (identities_agree _ _ _ openpine Hc) as H1.
  pose proof (identities_agree _ _ _ pinelib Hc) as H2. pose proof (identities_agree _ _ _ backtest_engine Hc) as H3.
  rewrite H1, H2, H3. simpl. apply result_bind_ok in H as (session & -> & H). apply result_bind_ok in H as (run & -> & H).
  apply result_bind_ok in H as (stack & -> & H). simplify_eq. do 2 f_equal.
  unfold component_identities in Hc. apply result_bind_ok in Hc as (versions & _ & Hc).
  repeat case_match; by simplify_eq.
Qed.

Lemma boot_request a :
  exists l, bootstrap a = JObj l /\ dget (jdict l) "execution_context" = Some (JObj (o_context a)) /\
    dget (jdict l) "generated_artifact" = Some (JObj (o_artifact a)).
Proof. eexists. split; [reflexivity|]. split; reflexivity. Qed.

Lemma start_loop_ok ctx t s c : messages t = [] -> child_transcript ctx = Ok t -> start_loop ctx s = Ok c ->
  exists m, ch_out c = [m] /\ ch_protocol c = push t m /\ child_ok c /\ ch_sent c = 0%nat /\ sent_intents c = [].
Proof using sealing.
  intros Ht E H. unfold start_loop in H. rewrite E in H. simpl in H.
  pose proof (child_start_ok valid seal hash_ok sequence_ok ctx sealing t s c Ht H) as Hok.
  unfold child_start in H. apply result_bind_ok in H as (v & _ & H). apply result_bind_ok in H as ([c1 m] & Hr & H). simplify_eq.
  eapply respond_ok in Hr as (_ & _ & _ & _ & _ & Es & Eo & Ek & _ & _ & Ep); [|exact sealing]. simpl in *.
  exists m. split_and!; [done|done|done|done|].
  unfold sent_intents. rewrite Eo. simpl. unfold intents_of. by rewrite Ek, bool_decide_false.
Qed.

Lemma transcript_empty ctx t : transcript_of valid_payload verify_content_hash ctx = Ok t -> messages t = [].
Proof.
  unfold transcript_of. intros H. repeat case_match; try done. repeat (apply result_bind_ok in H as (? & _ & H)). by simplify_eq.
Qed.

Abbreviation open := (open_session valid seal hash_ok sequence_ok valid_payload verify_content_hash source_digest).

Lemma open_in_step a s hello :
  open (mkLinked NotStarted []) a = (s, Ok hello) ->
  exists st c0 c, start_strategy (bootstrap a) = Ok st /\ start_loop (o_context a) st = Ok c0 /\
    ch_sent c0 = 0%nat /\ sent_intents c0 = [] /\
    (exists tapes, journey (o_context a) (o_artifact a) c0 c tapes) /\ sent_intents c = [] /\
    (in_step s (o_context a) (o_artifact a) c \/ failed s).
Proof using sealing wheels_named.
  unfold open_session. destruct (check_open _ _ _ a); [|done].
  destruct (transcript_of _ _ (o_context a)) as [t|] eqn:Et; [|done].
  destruct (handshake _ _ _ _ a _) as [s1 [m|e]] eqn:Eh; [|done]. intros H. simplify_eq.
  unfold handshake in Eh. apply bind_run in Eh as (s2 & u & Hb & Eh). apply bind_run in Eh as (s3 & h & Hr & Eh).
  destruct (negb _); [done|]. do 4 (apply bind_run in Eh as (s4 & ? & H4 & Eh); apply lift_run in H4 as [-> _]).
  apply bind_run in Eh as (s4 & load & Ha1 & Eh). apply bind_run in Eh as (s5 & [] & Hw1 & Eh).
  do 2 (apply bind_run in Eh as (s6 & ? & H6 & Eh); apply lift_run in H6 as [-> _]).
  apply bind_run in Eh as (s6 & init & Ha2 & Eh). apply bind_run in Eh as (s7 & [] & Hw2 & Eh). unfold WorkerSession.ret in Eh. simplify_eq.
  unfold write_bootstrap in Hb. cbn [s_closed s_peer] in Hb. destruct (1000000 <? _)%Z; [done|].
  cbn [peer_boot Linked_peer] in Hb. unfold link_boot in Hb. cbn [lk_worker lk_out app] in Hb.
  destruct (boot_request a) as (l & El & Hctx & Hart). rewrite El, Hctx, Hart in Hb.
  pose proof (transcripts_agree _ _ Et) as Ect. pose proof (transcript_empty _ _ Et) as Hempty.
  destruct (start_strategy (JObj l)) as [st|[code err]] eqn:Est;
    [|simplify_eq; by apply read_step in Hr as (? & ? & Hout & _)].
  destruct (start_loop (o_context a) st) as [c|e] eqn:Es; [|simplify_eq; by apply read_step in Hr as (? & ? & Hout & _)].
  destruct (start_loop_ok _ _ _ _ Hempty Ect Es) as (m & Eo & Ep & Hok & Hsent & Hnone). rewrite Eo in Hb. simplify_eq.
  destruct (read_line _ _ _ m (Running (o_context a) (o_artifact a) c) [] Hr eq_refl) as (-> & Hp3 & Ht3). simpl in Ht3.
  assert (Hin : in_step s3 (o_context a) (o_artifact a) c) by (unfold in_step; by rewrite Ep, Ht3).
  destruct (send_step _ _ _ _ LOAD_ARTIFACT _ _ _ _ _ Hin eq_refl eq_refl Ha1 Hw1) as (Ht & Hkind & Hb & Hstep).
  destruct (worker_step _ _ c _) as [[c1|]|e] eqn:Es1; [|done|].
  2:{ exfalso. assert (Hf : failed s5) by (by eexists). eapply write_failed; [|exact Hw2]. by eapply own_failed. }
  destruct Hstep as (Hp & Hc1 & Hh). unfold handle in Hh. rewrite Hkind, Kind_roundtrip in Hh. unfold go in Hh.
  apply result_bind_ok in Hh as (c1' & Hh & E). simplify_eq. apply load_keeps in Hh as [Ep1 Eo1]. simpl in Ep1, Eo1.
  rewrite (new_lines_app c c1 []) in Hp by (by rewrite app_nil_r).
  assert (Hin1 : in_step s5 (o_context a) (o_artifact a) c1) by (unfold in_step; by rewrite Hp, Ep1, Ht).
  assert (Hst1 : stepped (o_context a) (o_artifact a) c c1 []) by (eexists; split; [exact Es1|by rewrite app_nil_r]).
  destruct (stepped_journey _ _ _ _ _ Hst1) as (l1 & Hj1 & Hint1). rewrite Hnone in Hint1.
  destruct (send_step _ _ _ _ INIT_RUN _ _ _ _ _ Hin1 eq_refl eq_refl Ha2 Hw2) as (Ht2 & Hkind2 & Hb2 & Hstep2).
  destruct (worker_step _ _ c1 _) as [[c2|]|e] eqn:Es2; [|done|exists st, c, c1; split_and!; [by rewrite El|done|done|done|by exists l1|done|right; by exists e]].
  destruct Hstep2 as (Hp2 & Hc2 & Hh). unfold handle in Hh. rewrite Hkind2, Kind_roundtrip in Hh. unfold go in Hh.
  apply result_bind_ok in Hh as (c2' & Hh & E). simplify_eq. apply init_keeps in Hh as [Ep2 Eo2]. simpl in Ep2, Eo2.
  rewrite (new_lines_app c1 c2 []) in Hp2 by (by rewrite app_nil_r).
  assert (Hst2 : stepped (o_context a) (o_artifact a) c1 c2 []) by (eexists; split; [exact Es2|by rewrite app_nil_r]).
  destruct (stepped_journey _ _ _ _ _ Hst2) as (l2 & Hj2 & Hint2). rewrite Hint1 in Hint2.
  exists st, c, c2. split_and!; [by rewrite El|done|done|done|exists (l1 ++ l2); by eapply journey_trans|done|left]. unfold in_step. by rewrite Hp2, Ep2, Ht2.
Qed.

(** C28: what a session hands over.  Take a session that was opened and calls
    of the engine - bars, recalculations, commits - that all succeeded.  The
    worker then went through states of its loop, and the intents the calls
    returned, one after the other, are exactly the new part of the strategy's
    tape at each of its hand-overs: the intents beyond as many as had been
    handed over before, with every float replaced by null ([_safe]).  If the
    tape at each hand-over continued the one before it, these make up the whole
    tape at the last hand-over, each intent once and in order.  And unless the
    worker failed on the last message it was sent - a commit, which is not
    answered - both sides hold the same transcript, with nothing left on its
    way. *)
Theorem session_intents a s hello ops s' got :
  open (mkLinked NotStarted []) a = (s, Ok hello) -> run_ops ops s = (s', Ok got) ->
  exists st c0 c tapes, start_strategy (bootstrap a) = Ok st /\ start_loop (o_context a) st = Ok c0 /\
    journey (o_context a) (o_artifact a) c0 c tapes /\ got = map safe (new_parts 0 tapes) /\
    (Sorted prefix tapes -> got = map safe (default [] (last tapes))) /\
    (in_step s' (o_context a) (o_artifact a) c \/ failed s').
Proof using sealing wheels_named.
  intros Ho Hr. apply open_in_step in Ho as (st & c0 & c & Hst & H0 & Hz & Hn0 & (l & Hj) & Hnone & Hin).
  apply (run_ops_step _ _ _ _ _ _ _ Hin) in Hr as (c' & l' & Hj' & E & Hin'). exists st, c0, c', (l ++ l').
  pose proof (journey_trans _ _ _ _ _ _ _ Hj Hj') as Hall. destruct (journey_sent _ _ _ _ _ Hall) as [Hs _].
  rewrite Hz, Hn0, E, Hnone in Hs. simpl in Hs.
  split_and!; [done|done|done|done| |done]. intros Hg. by rewrite <-(new_parts_growing _ Hg).
Qed.

End Link.

(** ** A session of two bars *)

Module LinkDemo.

Definition texts (l : list (string * string)) : list (string * json) := map (fun kv => (kv.1, JStr kv.2)) l.
Definition commit_id : string := "0123456789012345678901234567890123456789".
Definition components : list string := ["openpine"; "openpine-contracts"; "pine2ast"; "ast2python"; "pinelib"; "backtest_engine"].

Definition commits : json := JObj (map (fun n => (n, JStr commit_id)) components).
Definition ctx : dict string json :=
  texts [("session_id", "s"); ("run_id", "r"); ("stack_manifest_hash", "sha256:st"); ("stack_id", "sha256:st"); ("content_hash", "sha256:c");
         ("generated_artifact_hash", "sha256:a"); ("emitted_module_hash", "sha256:m")] ++
  [("producer_commits", commits);
   ("wheel_identities", JArr (map (fun n => JObj (texts [("name", n); ("version", "5.0.0rc5")])) components))].
Definition art : dict string json :=
  texts [("content_hash", "sha256:a"); ("emitted_module_hash", "sha256:m"); ("stack_id", "openpine-5.0");
         ("entrypoint_module", "m"); ("entrypoint_class", "C")] ++ [("producer_commits", commits)].

Definition n (z : Z) : json := num_int z.
Definition projection : json :=
  JObj (texts [("cash", "100"); ("equity", "100"); ("realized_pnl", "0"); ("unrealized_pnl", "0"); ("gross_profit", "0");
               ("gross_loss", "0"); ("max_drawdown", "0"); ("max_runup", "0")] ++
        [("position", JObj [("qty", JStr "0"); ("direction", JStr "FLAT"); ("avg_price", JNull); ("entry_name", JNull)]);
         ("open_trades", JArr []); ("closed_trades", JArr []); ("winning_trades", n 0); ("losing_trades", n 0);
         ("even_trades", n 0); ("orders", JArr []); ("fills", JArr [])]).

Definition bar (t : Z) : json :=
  JObj (texts [("open", "1"); ("high", "2"); ("low", "1"); ("close", "2"); ("volume", "3"); ("bar_content_hash", "sha256:b")] ++
        [("open_time_utc_ms", n t); ("close_time_utc_ms", n (t + 59999))]).

Definition begin_event (i t : Z) : dict string json :=
  [("run_id", JStr "r"); ("bar_index", n i); ("bar_open_time_utc_ms", n t); ("recalc_iteration", n 0); ("bar_hash", JStr "sha256:b");
   ("bar", bar t); ("broker_projection", projection)].
Definition recalc_event (i t : Z) : dict string json :=
  [("run_id", JStr "r"); ("bar_index", n i); ("bar_open_time_utc_ms", n t); ("recalc_iteration", n 1);
   ("broker_event_batch_hash", JStr "h"); ("broker_events", JArr []); ("broker_projection_hash", JStr "p"); ("broker_projection", projection)].
Definition commit_event (i t : Z) : dict string json :=
  [("run_id", JStr "r"); ("bar_index", n i); ("bar_open_time_utc_ms", n t); ("recalc_iteration", n 0); ("state_hash", JStr "x");
   ("broker_projection_hash", JStr "p")].
Definition file (h : string) : Artifact := mkArtifact (Some h) (Some ("sha256:" +:+ h)) (JStr "s") (JStr "c") (n 1).

Definition valid_payload (schema : string) (d : dict string json) : bool :=
  match dget d "wheel_identities" with Some (JArr ws) => bool_decide (is_Some (mapM named_wheel ws)) | _ => true end.

(** The strategy's state is its tape: it adds an intent for each time it
    processes a bar, and one for each commit. *)
Definition keep (s : list json) : result string (list json) := Ok s.
Definition add (v : json) (s : list json) : result string (list json) := Ok (s ++ [v]).

Definition args : OpenArgs := mkOpenArgs "source" ctx "BTCUSDT" art "sha256:run" "/data" "strict_5x" "1" None [].
Definition ops : list BarOp :=
  [OpEvaluate (begin_event 0 60000); OpRecalc (recalc_event 0 60000); OpCommit (commit_event 0 60000) (file "a") (file "b");
   OpEvaluate (begin_event 1 120000); OpCommit (commit_event 1 120000) (file "a") (file "c")].

#[local] Instance demo_peer : Peer (Linked (S:=list json)) :=
  Linked_peer valid_payload (fun _ _ => true) w_valid w_seal w_hash_ok w_seq (fun _ => "h") (fun s _ => keep s) (fun s _ => keep s)
    (fun s _ => keep s) (fun s _ i => add i s) (add (JStr "commit")) keep keep (fun s => s) (fun _ => Ok []) (fun _ => "error").

Definition opened := open_session w_valid w_seal w_hash_ok w_seq valid_payload (fun _ _ => true) (fun _ _ => "sha256:m")
  (mkLinked NotStarted []) args.
Definition ran := run_ops valid_payload (fun _ _ => true) w_valid w_seal w_hash_ok w_seq (fun _ => "h") (fun s => s) (fun s _ => keep s)
  (fun s _ => keep s) (fun s _ => keep s) (fun s _ i => add i s) (add (JStr "commit")) keep keep (fun s => s) (fun _ => Ok [])
  (fun _ => "error") ops opened.1.

Lemma named c ws : valid_payload "openpine.execution_context.v1" c = true -> dget c "wheel_identities" = Some (JArr ws) ->
  is_Some (mapM named_wheel ws).
Proof. unfold valid_payload. intros H E. rewrite E in H. by apply bool_decide_eq_true in H. Qed.

End LinkDemo.

Example demo_session : LinkDemo.ran.2 = Ok [num_int 0; num_int 0; JStr "commit"; num_int 1].
Proof. vm_compute. reflexivity. Qed.

Module LinkWitness.
Import LinkDemo.

Definition default_message : Message := w_seal (mkMessage "" "" "" "" 0 "" "" "" "" 0 "" None "" [] "").
Definition hello : Message := match opened.2 with Ok m => m | Err _ => default_message end.
Definition got : list json := match ran.2 with Ok l => l | Err _ => [] end.

(** What the parent has written, as the worker reads it. *)
Definition from_parent : list (Z * Message) :=
  map (fun m => (line_size m, m)) (List.filter (fun m => negb (bool_decide (sender_role m = "worker"))) (messages (s_protocol ran.1))).
Definition t0 : Transcript :=
  match child_transcript valid_payload (fun _ _ => true) ctx with Ok t => t | Err _ => s_protocol opened.1 end.
Definition started := child_start (S:=list json) w_valid w_seal w_seq ctx t0 [].
Definition read_all (c : Child) := child_lines valid_payload (fun _ _ => true) w_valid w_seal w_hash_ok w_seq (fun _ => "h") ctx art
  (fun s _ => keep s) (fun s _ => keep s) (fun s _ => keep s) (fun s _ i => add i s) (add (JStr "commit")) keep keep (fun s => s) c from_parent.
Definition child0 : Child :=
  match started with Ok c => c | Err _ => mkChild t0 false false None None 0 None [] [] [] end.
Definition end_state : Next := match read_all child0 with Ok n => n | Err _ => Going child0 end.

(** The transcript up to INIT_RUN. *)
Definition restorable : Transcript :=
  fold_left (fun t k => (append w_valid w_seal w_seq t k [] 0 None).1) ["HELLO"; "LOAD_ARTIFACT"; "INIT_RUN"] t0.

End LinkWitness.

Lemma session_intents_witness : LinkWitness.got = [num_int 0; num_int 0; JStr "commit"; num_int 1] /\ exists st c0 tapes,
  Ok (E:=option string * option string) (@nil json) = Ok st /\
  start_loop LinkDemo.valid_payload (fun _ _ => true) w_valid w_seal w_seq LinkDemo.ctx st = Ok c0 /\
  LinkWitness.got = map safe (new_parts 0 tapes).
Proof.
  split; [vm_compute; reflexivity|].
  destruct (session_intents LinkDemo.valid_payload (fun _ _ => true) (fun _ _ => "sha256:m") w_valid w_seal w_hash_ok w_seq
    (fun _ => "h") (fun s => s) (fun s _ => LinkDemo.keep s) (fun s _ => LinkDemo.keep s) (fun s _ => LinkDemo.keep s)
    (fun s _ i => LinkDemo.add i s) (LinkDemo.add (JStr "commit")) LinkDemo.keep LinkDemo.keep (fun s => s) (fun _ => Ok [])
    (fun _ => "error") w_seals LinkDemo.named LinkDemo.args LinkDemo.opened.1 LinkWitness.hello LinkDemo.ops
    LinkDemo.ran.1 LinkWitness.got) as (st & c0 & c & tapes & H1 & H2 & _ & H4 & _); [vm_compute; reflexivity|vm_compute; reflexivity|].
  exists st, c0, tapes. exact (conj H1 (conj H2 H4)).
Defined.

Lemma worker_bars_in_order_witness :
  match (let! c := LinkWitness.started in LinkWitness.read_all c) with
  | Ok (Exited _ c) | Ok (Going c) => call_order (ch_calls c) = Some None /\ length (ch_calls c) = 7%nat
  | Err _ => False
  end.
Proof.
  pose proof (worker_bars_in_order LinkDemo.valid_payload (fun _ _ => true) w_valid w_seal w_hash_ok w_seq (fun _ => "h") LinkDemo.ctx
    LinkDemo.art (fun s _ => LinkDemo.keep s) (fun s _ => LinkDemo.keep s) (fun s _ => LinkDemo.keep s)
    (fun s _ i => LinkDemo.add i s) (LinkDemo.add (JStr "commit")) LinkDemo.keep LinkDemo.keep (fun s => s) w_seals LinkWitness.t0 []
    LinkWitness.from_parent) as H.
  specialize (H ltac:(vm_compute; reflexivity)). vm_compute in H |- *. split; [exact H|reflexivity].
Defined.

Lemma protocols_agree_witness :
  let m := LinkWitness.hello in
  child_accept w_valid w_hash_ok w_seq LinkWitness.t0 m = (push LinkWitness.t0 m, Ok m) /\ kind m = "HELLO".
Proof.
  split; [|vm_compute; reflexivity].
  apply (protocols_agree w_valid w_seal w_hash_ok w_seq LinkWitness.t0 LinkWitness.hello (push LinkWitness.t0 LinkWitness.hello) HELLO [] 0).
  - exact w_seals.
  - apply holds_empty. vm_compute. reflexivity.
  - split; [vm_compute; reflexivity|]. split; vm_compute; discriminate.
Defined.

(** The parent may follow INIT_RUN by a RESTORE, a step of its own tables; the
    bootstrap answers it with an error. *)
Example restore_rejected_by_bootstrap :
  let t := LinkWitness.restorable in
  let '(t1, r) := append w_valid w_seal w_seq t "RESTORE" [] 0 None in
  exists m, r = Ok m /\ accept w_valid w_hash_ok w_seq t m = (t1, Ok m) /\
    child_accept w_valid w_hash_ok w_seq t m = (t, Err (CRuntime "invalid worker protocol transition")).
Proof. vm_compute. eexists. split; [reflexivity|]. split; reflexivity. Qed.
