(* ===== verification/Supervisor.v ===== *)
(** Supervision of the gateway's background worker process:
    [openpine/gateway/worker_supervisor.py].

    The supervisor is a coroutine that talks to processes, clocks and the
    event loop.  It is written here in a small monad over its own state and
    the trace of everything it has asked and been told; the environment answers
    each question as any function of the trace so far, so that every sequence
    of answers occurs for some environment.  A coroutine can be cancelled at
    any of its await points.  Times are integers in one unit; the fail-safe is
    the callable the gateway passes in.  Logging is left out. *)

From S2P Require Import Prelude.

(** ** Data *)

(** [SupervisorConfig]. *)
Record SupervisorConfig := mkSupervisorConfig {
  poll_interval : Z;
  backoff_initial : Z;
  backoff_max : Z;
  max_restarts : Z;
  restart_window : Z;
  shutdown_timeout : Z;
  terminate_timeout : Z;
  kill_timeout : Z;
  heartbeat_stale_after : Z;
  startup_readiness_timeout : Z;
  fail_safe_max_attempts : Z;
  fail_safe_retry : Z;
  fail_safe_attempt_timeout : Z
}.

(** [__post_init__]; [None] when the configuration is accepted. *)
Definition check_config (c : SupervisorConfig) : option string :=
  if poll_interval c <=? 0 then Some "poll_interval_seconds must be positive"
  else if (backoff_initial c <? 0) || (backoff_max c <? 0) then Some "restart backoff must be non-negative"
  else if max_restarts c <? 0 then Some "max_restarts must be non-negative"
  else if restart_window c <=? 0 then Some "restart_window_seconds must be positive"
  else if Z.min (shutdown_timeout c) (Z.min (terminate_timeout c) (kill_timeout c)) <? 0
  then Some "shutdown timeouts must be non-negative"
  else if heartbeat_stale_after c <=? 0 then Some "heartbeat_stale_seconds must be positive"
  else if startup_readiness_timeout c <=? 0 then Some "startup_readiness_timeout_seconds must be positive"
  else if (fail_safe_max_attempts c <=? 0) || (fail_safe_retry c <? 0) then Some "fail-safe retry policy is invalid"
  else if fail_safe_attempt_timeout c <=? 0 then Some "fail_safe_attempt_timeout_seconds must be positive"
  else None.

Definition proc := nat.

(** How a fail-safe task ends. *)
Inductive fs_done := FsOk | FsErr (message : string) | FsCancelled.

Inductive FailSafeStatus := NotRun | FsRunning | FsStatusOk | FsFailed.

#[export] Instance FailSafeStatus_eq_dec : EqDecision FailSafeStatus.
Proof. solve_decision. Defined.

(** The attributes of a [WorkerSupervisor].  The events and the heartbeat of a
    process are named by it; [fs_task] says that a fail-safe task is running. *)
Record Sup := mkSup {
  process : option proc;
  stop_event : option proc;
  ready_event : option proc;
  heartbeat : option proc;
  process_started : option Z;
  start_failed_process : option proc;
  start_failed_liveness : option bool;
  monitor_task : bool;
  stopping : bool;
  restart_times : list Z;
  restart_count : Z;
  last_transition : option Z;
  last_exitcode : option Z;
  degraded : bool;
  reason : option string;
  fail_safe_status : FailSafeStatus;
  fail_safe_attempts : Z;
  fail_safe_error : option string;
  fs_task : bool
}.

Definition sup_init : Sup :=
  mkSup None None None None None None None false false [] 0 None None false None NotRun 0 None false.

(** ** The trace and the environment *)

(** Why the monotonic clock is read. *)
Inductive clock_site := AtCutoff | AtRestart | AtStart | AtStartupCheck.

(** What the factory returned: a tuple of two values, of four, of another length. *)
Inductive created := Pair | Quadruple | BadTuple.

(** Everything asked and answered.  [EFactory p None]: the factory raised. *)
Inductive event :=
| EFactory (p : proc) (r : option created)
| EStart (p : proc) (ok : bool)
| EOnProcess (p : proc) (ok : bool)
| EAlive (p : proc) (r : option bool)
| ETerminate (p : proc) (ok : bool)
| EKill (p : proc) (ok : bool)
| EJoin (p : proc) (ok : bool)
| EExitcode (p : proc) (r : option (option Z))
| EReady (p : proc) (r : option bool)
| EHeartbeat (p : proc) (r : option Z)
| EStopEvent (p : proc) (ok : bool)
| EClock (site : clock_site) (t : Z)
| EWall (t : Z)
| EAwait
| EFailSafe (r : option fs_done).

(** What an await on something that may raise gives. *)
Inductive awaited := AwDone | AwRaised | AwCancelled.

(** A wait for the fail-safe task: [None] when it timed out. *)
Inductive waited := WaitCancelled | Waited (r : option fs_done).

(** The answers, by the trace so far (newest event first). *)
Record Env := mkEnv {
  env_factory : list event -> option created;
  env_start : list event -> proc -> bool;
  env_on_process : option (list event -> proc -> bool);
  env_alive : list event -> proc -> option bool;
  env_terminate : list event -> proc -> bool;
  env_kill : list event -> proc -> bool;
  env_join : list event -> proc -> awaited;
  env_exitcode : list event -> proc -> option (option Z);
  env_ready : list event -> proc -> option bool;
  env_heartbeat : list event -> proc -> option Z;
  env_stop_event : list event -> proc -> bool;
  env_monotonic : list event -> Z;
  env_wall : list event -> Z;
  env_sleep : list event -> awaited;
  env_background : list event -> option fs_done;
  env_wait : list event -> waited;
  env_shield : list event -> option fs_done
}.

Record World := mkWorld { sup : Sup; trace : list event }.

(** A coroutine returns, raises an [Exception], or is cancelled; [Suspended]
    is a run observed only up to some point. *)
Inductive outcome (A : Type) := Ret (a : A) | Exc | Cancelled | Suspended.
Arguments Ret {A} a.
Arguments Exc {A}.
Arguments Cancelled {A}.
Arguments Suspended {A}.

Definition M (A : Type) : Type := World -> World * outcome A.

#[export] Instance M_ret : MRet M := fun A a w => (w, Ret a).
#[export] Instance M_bind : MBind M := fun A B k m w =>
  match m w with
  | (w', Ret a) => k a w'
  | (w', Exc) => (w', Exc)
  | (w', Cancelled) => (w', Cancelled)
  | (w', Suspended) => (w', Suspended)
  end.

Definition get {A} (f : Sup -> A) : M A := fun w => (w, Ret (f (sup w))).
Definition put (f : Sup -> Sup) : M unit := fun w => (mkWorld (f (sup w)) (trace w), Ret tt).
Definition ask {A} (f : list event -> A) (log : A -> event) : M A := fun w =>
  let a := f (trace w) in (mkWorld (sup w) (log a :: trace w), Ret a).
Definition fail_with {A} (o : outcome A) : M A := fun w => (w, o).

(** Attribute updates. *)
Definition set_processes (p : option proc) (ready hb : option proc) (s : Sup) : Sup :=
  mkSup p p ready hb (process_started s) (start_failed_process s) (start_failed_liveness s) (monitor_task s)
    (stopping s) (restart_times s) (restart_count s) (last_transition s) (last_exitcode s) (degraded s) (reason s)
    (fail_safe_status s) (fail_safe_attempts s) (fail_safe_error s) (fs_task s).
Definition set_started (t : option Z) (s : Sup) : Sup :=
  mkSup (process s) (stop_event s) (ready_event s) (heartbeat s) t (start_failed_process s) (start_failed_liveness s)
    (monitor_task s) (stopping s) (restart_times s) (restart_count s) (last_transition s) (last_exitcode s)
    (degraded s) (reason s) (fail_safe_status s) (fail_safe_attempts s) (fail_safe_error s) (fs_task s).
Definition set_start_failed (p : option proc) (l : option bool) (s : Sup) : Sup :=
  mkSup (process s) (stop_event s) (ready_event s) (heartbeat s) (process_started s) p l
    (monitor_task s) (stopping s) (restart_times s) (restart_count s) (last_transition s) (last_exitcode s)
    (degraded s) (reason s) (fail_safe_status s) (fail_safe_attempts s) (fail_safe_error s) (fs_task s).
Definition set_flags (task stop : bool) (s : Sup) : Sup :=
  mkSup (process s) (stop_event s) (ready_event s) (heartbeat s) (process_started s) (start_failed_process s)
    (start_failed_liveness s) task stop (restart_times s) (restart_count s) (last_transition s) (last_exitcode s)
    (degraded s) (reason s) (fail_safe_status s) (fail_safe_attempts s) (fail_safe_error s) (fs_task s).
Definition set_restarts (times : list Z) (count : Z) (s : Sup) : Sup :=
  mkSup (process s) (stop_event s) (ready_event s) (heartbeat s) (process_started s) (start_failed_process s)
    (start_failed_liveness s) (monitor_task s) (stopping s) times count (last_transition s) (last_exitcode s)
    (degraded s) (reason s) (fail_safe_status s) (fail_safe_attempts s) (fail_safe_error s) (fs_task s).
Definition set_transition (t : option Z) (s : Sup) : Sup :=
  mkSup (process s) (stop_event s) (ready_event s) (heartbeat s) (process_started s) (start_failed_process s)
    (start_failed_liveness s) (monitor_task s) (stopping s) (restart_times s) (restart_count s) t (last_exitcode s)
    (degraded s) (reason s) (fail_safe_status s) (fail_safe_attempts s) (fail_safe_error s) (fs_task s).
Definition set_exitcode (c : option Z) (s : Sup) : Sup :=
  mkSup (process s) (stop_event s) (ready_event s) (heartbeat s) (process_started s) (start_failed_process s)
    (start_failed_liveness s) (monitor_task s) (stopping s) (restart_times s) (restart_count s) (last_transition s) c
    (degraded s) (reason s) (fail_safe_status s) (fail_safe_attempts s) (fail_safe_error s) (fs_task s).
Definition set_health (d : bool) (r : option string) (s : Sup) : Sup :=
  mkSup (process s) (stop_event s) (ready_event s) (heartbeat s) (process_started s) (start_failed_process s)
    (start_failed_liveness s) (monitor_task s) (stopping s) (restart_times s) (restart_count s) (last_transition s)
    (last_exitcode s) d r (fail_safe_status s) (fail_safe_attempts s) (fail_safe_error s) (fs_task s).
Definition set_fail_safe (st : FailSafeStatus) (n : Z) (e : option string) (task : bool) (s : Sup) : Sup :=
  mkSup (process s) (stop_event s) (ready_event s) (heartbeat s) (process_started s) (start_failed_process s)
    (start_failed_liveness s) (monitor_task s) (stopping s) (restart_times s) (restart_count s) (last_transition s)
    (last_exitcode s) (degraded s) (reason s) st n e task.

Section Supervisor.

Variable cfg : SupervisorConfig.
Variable env : Env.

(** ** Small steps *)

Definition time_time : M Z := ask (env_wall env) EWall.
Definition monotonic (site : clock_site) : M Z := ask (env_monotonic env) (EClock site).

(** [_mark_degraded]. *)
Definition mark_degraded (why : string) : M unit :=
  t ← time_time; put (fun s => set_transition (Some t) (set_health true (Some why) s)).

Definition set_reason_degraded (why : string) : M unit := put (set_health true (Some why)).

(** [_finish_fail_safe_task], the done callback of the task. *)
Definition finish_fail_safe_task (r : fs_done) : M unit :=
  put (fun s =>
    match r with
    | FsCancelled => set_fail_safe FsFailed (fail_safe_attempts s) (Some "fail-safe task cancelled") false s
    | FsOk => set_fail_safe FsStatusOk (fail_safe_attempts s) None false s
    | FsErr e => set_fail_safe FsFailed (fail_safe_attempts s) (Some e) false s
    end).

(** While a coroutine is suspended the fail-safe task may end. *)
Definition background : M unit :=
  running ← get fs_task;
  if running : bool then
    r ← ask (env_background env) EFailSafe;
    match r with Some d => finish_fail_safe_task d | None => mret tt end
  else mret tt.

(** [await asyncio.sleep(...)]. *)
Definition sleep : M unit :=
  r ← ask (env_sleep env) (fun _ => EAwait);
  background ;;
  match r with AwDone => mret tt | AwRaised => fail_with Exc | AwCancelled => fail_with Cancelled end.

(** [_join]: a wait in a thread. *)
Definition join (p : proc) : M unit :=
  r ← ask (fun tr => env_join env tr p) (fun r => EJoin p match r with AwRaised => false | _ => true end);
  background ;;
  match r with
  | AwDone => mret tt
  | AwRaised => mark_degraded "process_join_failed"
  | AwCancelled => fail_with Cancelled
  end.

(** [_safe_is_alive]. *)
Definition safe_is_alive (p : proc) : M (option bool) :=
  r ← ask (fun tr => env_alive env tr p) (EAlive p);
  match r with
  | Some b => mret (Some b)
  | None => mark_degraded "process_status_failed" ;; mret None
  end.

(** [_safe_event_is_set]. *)
Definition safe_event_is_set (e : option proc) : M bool :=
  match e with
  | None => mret false
  | Some p =>
      r ← ask (fun tr => env_ready env tr p) (EReady p);
      match r with Some b => mret b | None => mark_degraded "ready_status_failed" ;; mret false end
  end.

(** [_safe_exitcode]. *)
Definition safe_exitcode (p : proc) : M (option Z) :=
  r ← ask (fun tr => env_exitcode env tr p) (EExitcode p);
  match r with Some c => mret c | None => mark_degraded "process_status_failed" ;; mret None end.

(** A call that only matters when it raises. *)
Definition attempt (f : list event -> bool) (log : bool -> event) (why : string) : M unit :=
  ok ← ask f log; if ok : bool then mret tt else mark_degraded why.

Definition try_terminate (p : proc) : M unit :=
  attempt (fun tr => env_terminate env tr p) (ETerminate p) "process_terminate_failed".
Definition try_kill (p : proc) : M unit :=
  attempt (fun tr => env_kill env tr p) (EKill p) "process_kill_failed".

Definition transition_now : M unit := t ← time_time; put (set_transition (Some t)).

(** ** Health *)

(** [snapshot], the fields its readers use. *)
Record Snapshot := mkSnapshot {
  snap_enabled : bool;
  snap_alive : option bool;
  snap_ready : bool;
  snap_heartbeat_age : option Z;
  snap_heartbeat_stale : bool;
  snap_exitcode : option Z;
  snap_last_exitcode : option Z;
  snap_restart_count : Z;
  snap_last_transition : option Z;
  snap_degraded : bool;
  snap_reason : option string
}.

(** The age of the heartbeat and whether it is stale. *)
Definition heartbeat_status (h : option proc) : M (option Z * bool) :=
  match h with
  | None => mret (None, true)
  | Some p =>
      v ← ask (fun tr => env_heartbeat env tr p) (EHeartbeat p);
      match v with
      | None => mark_degraded "heartbeat_status_failed" ;; mret (None, true)
      | Some beat =>
          if 0 <? beat then
            now ← time_time;
            let age := Z.max 0 (now - beat) in mret (Some age, heartbeat_stale_after cfg <? age)
          else mret (None, true)
      end
  end.

Definition snapshot : M Snapshot :=
  p ← get process;
  alive ← match p with None => mret (Some false) | Some p => safe_is_alive p end;
  ready_signal ← (ev ← get ready_event; safe_event_is_set ev);
  '(age, stale) ← (h ← get heartbeat; heartbeat_status h);
  exitcode ← match p with None => mret None | Some p => safe_exitcode p end;
  s ← get id;
  mret (mkSnapshot true alive (bool_decide (alive = Some true) && ready_signal && negb stale) age stale exitcode
          (last_exitcode s) (restart_count s) (last_transition s) (degraded s) (reason s)).

(** What a gateway's state holds: a supervisor (with its snapshot), a bare
    process (with what asking it gave), or nothing. *)
Inductive WorkerState :=
| Supervised (snap : Snapshot)
| Unsupervised (alive : option bool) (exitcode : option Z)
| NoWorker.

Definition worker_runtime_snapshot (w : WorkerState) : Snapshot :=
  match w with
  | Supervised snap => snap
  | Unsupervised alive exitcode =>
      mkSnapshot true alive false None true exitcode exitcode 0 None true (Some "legacy_unsupervised")
  | NoWorker => mkSnapshot false (Some false) false None false None None 0 None false (Some "disabled")
  end.

Definition worker_accepts_strategy_activation (w : WorkerState) : bool * Snapshot :=
  let status := worker_runtime_snapshot w in
  (if negb (snap_enabled status) then true
   else bool_decide (snap_alive status = Some true) && snap_ready status &&
        negb (snap_heartbeat_stale status) && negb (snap_degraded status), status).

(** ** Starting a process *)

(** The factory makes a new process object each time. *)
Definition fresh_proc (tr : list event) : proc :=
  length (List.filter (fun e => match e with EFactory _ _ => true | _ => false end) tr).

Definition call_factory : M (proc * option created) :=
  ask (fun tr => (fresh_proc tr, env_factory env tr)) (fun '(p, r) => EFactory p r).

(** [_start_process]. *)
Definition start_process : M bool :=
  put (set_start_failed None None) ;;
  '(p, r) ← call_factory;
  match r with
  | None | Some BadTuple => mark_degraded "process_factory_failed" ;; mret false
  | Some shape =>
      let extra := match shape with Quadruple => Some p | _ => None end in
      put (set_processes (Some p) extra extra) ;;
      ok ← ask (fun tr => env_start env tr p) (EStart p);
      if ok : bool then
        t ← monotonic AtStart;
        put (fun s => set_health true (Some "worker_starting") (set_started (Some t) s)) ;;
        transition_now ;;
        match env_on_process env with
        | None => mret tt
        | Some f => attempt (fun tr => f tr p) (EOnProcess p) "process_callback_failed"
        end ;;
        mret true
      else
        put (set_start_failed (Some p) None) ;;
        liveness ← safe_is_alive p;
        put (set_start_failed (Some p) liveness) ;;
        mark_degraded "process_start_failed" ;;
        mret false
  end.

(** [_terminate_unhealthy_process]: escalate until death is verified. *)
Definition terminate_unhealthy_process (p : proc) : M bool :=
  try_terminate p ;;
  join p ;;
  liveness ← safe_is_alive p;
  (if bool_decide (liveness = Some false) then mret tt else try_kill p ;; join p) ;;
  code ← safe_exitcode p;
  put (set_exitcode code) ;;
  transition_now ;;
  liveness ← safe_is_alive p;
  if bool_decide (liveness = Some false) then mret true
  else set_reason_degraded "unhealthy_process_shutdown_incomplete" ;; mret false.

(** ** The fail-safe *)

(** [asyncio.wait({task}, timeout=...)]: the task's end, unless it timed out. *)
Definition wait_fail_safe : M (option fs_done) :=
  r ← ask (env_wait env) (fun r => EFailSafe match r with Waited d => d | WaitCancelled => None end);
  match r with
  | WaitCancelled => fail_with Cancelled
  | Waited None => mret None
  | Waited (Some d) => finish_fail_safe_task d ;; mret (Some d)
  end.

Definition still_running : M unit :=
  put (fun s => set_fail_safe FsRunning (fail_safe_attempts s)
                  (Some "fail-safe attempt timed out and is still running") (fs_task s) s).

(** The attempts [n], [n + 1], ... of [_invoke_fail_safe_safely], [left] of them. *)
Fixpoint fail_safe_loop (left : nat) (n : Z) : M unit :=
  match left with
  | O => mret tt
  | S left' =>
      put (fun s => set_fail_safe FsRunning n (fail_safe_error s) true s) ;;
      r ← wait_fail_safe;
      match r with
      | None => still_running
      | Some FsOk => put (fun s => set_fail_safe FsStatusOk (fail_safe_attempts s) None (fs_task s) s)
      | Some (FsErr e) =>
          put (fun s => set_fail_safe FsFailed (fail_safe_attempts s) (Some e) (fs_task s) s) ;;
          (if n <? fail_safe_max_attempts cfg then sleep else mret tt) ;;
          fail_safe_loop left' (n + 1)
      | Some FsCancelled => fail_with Cancelled
      end
  end.

(** [_invoke_fail_safe_safely]: join the running task or make the attempts. *)
Definition invoke_fail_safe_safely : M unit :=
  running ← get fs_task;
  if running : bool then
    r ← wait_fail_safe;
    match r with None => still_running | Some _ => mret tt end
  else fail_safe_loop (Z.to_nat (fail_safe_max_attempts cfg)) 1.

(** [_ensure_terminal_fail_safe]. *)
Definition ensure_terminal_fail_safe : M unit :=
  st ← get fail_safe_status;
  if bool_decide (st = FsStatusOk) then mret tt else invoke_fail_safe_safely.

(** [await asyncio.shield(task)]: [None] when the waiting coroutine is cancelled. *)
Definition shield_fail_safe : M fs_done :=
  r ← ask (env_shield env) EFailSafe;
  match r with
  | None | Some FsCancelled =>
      match r with Some d => finish_fail_safe_task d | None => mret tt end ;; fail_with Cancelled
  | Some d => finish_fail_safe_task d ;; mret d
  end.

(** [_wait_for_fail_safe_before_restart]. *)
Definition wait_for_fail_safe_before_restart : M bool :=
  running ← get fs_task;
  d ← (if running : bool then shield_fail_safe else mret FsOk);
  match d with
  | FsErr _ => mret false
  | _ => st ← get fail_safe_status; mret (bool_decide (st = FsStatusOk))
  end.

(** [_contain_start_failed_process]. *)
Definition contain_start_failed_process : M bool :=
  p ← get start_failed_process;
  match p with
  | None => mret true
  | Some p =>
      liveness ← get start_failed_liveness;
      contained ← terminate_unhealthy_process p;
      (if contained : bool then put (set_start_failed None None) else mret tt) ;;
      mret (contained && bool_decide (liveness = Some false))
  end.

(** After a failed start: [true] when the loop may go on. *)
Definition contain_or_stop : M bool :=
  p ← get start_failed_process;
  match p with
  | None => mret true
  | Some _ =>
      ok ← contain_start_failed_process;
      if ok : bool then mret true else ensure_terminal_fail_safe ;; mret false
  end.

(** ** Restarting and monitoring *)

(** The back-off before the next restart. *)
Definition backoff_delay (n : nat) : Z := Z.min (backoff_initial cfg * 2 ^ Z.of_nat n) (backoff_max cfg).

(** The stamps before the window are dropped; a restart is stamped. *)
Definition forget_old_restarts : M unit :=
  now ← monotonic AtCutoff;
  put (fun s => set_restarts (List.filter (fun t => now - restart_window cfg <=? t) (restart_times s))
                  (restart_count s) s).
Definition stamp_restart : M unit :=
  t ← monotonic AtRestart;
  put (fun s => set_restarts (restart_times s ++ [t]) (restart_count s + 1) s).

(** [_restart_until_started]; [fuel] bounds the iterations observed. *)
Fixpoint restart_until_started (fuel : nat) (incident : option string) (fail_safe_on_exhaustion : bool) : M bool :=
  match fuel with
  | O => fail_with Suspended
  | S fuel' =>
      stop ← get stopping;
      if stop : bool then mret false
      else
        forget_old_restarts ;;
        times ← get restart_times;
        if max_restarts cfg <=? Z.of_nat (length times) then
          set_reason_degraded "restart_budget_exhausted" ;;
          (if fail_safe_on_exhaustion : bool then invoke_fail_safe_safely else mret tt) ;;
          mret false
        else
          (if backoff_delay (length times) =? 0 then mret tt else sleep) ;;
          stop ← get stopping;
          if stop : bool then mret false
          else
            stamp_restart ;;
            started ← start_process;
            if started : bool then
              set_reason_degraded match incident with
                                  | Some why => why +:+ "_restarted"
                                  | None => "worker_restarted"
                                  end ;;
              mret true
            else
              go_on ← contain_or_stop;
              if go_on : bool then restart_until_started fuel' incident fail_safe_on_exhaustion else mret false
  end.

(** A live worker that must be replaced: fail-safe, death, fail-safe done,
    then a restart.  [false] ends the monitor. *)
Definition replace_unhealthy (fuel : nat) (p : proc) (why : string) : M bool :=
  set_reason_degraded why ;;
  invoke_fail_safe_safely ;;
  dead ← terminate_unhealthy_process p;
  if negb dead then mret false
  else
    safe ← wait_for_fail_safe_before_restart;
    if negb safe then mark_degraded (why +:+ "_fail_safe_incomplete") ;; mret false
    else restart_until_started fuel (Some why) false.

Definition str_endswith (suffix s : string) : bool :=
  let n := String.length s in let k := String.length suffix in
  (k <=? n)%nat && bool_decide (String.substring (n - k) k s = suffix).

(** A ready worker: clear the degraded flag after a start or a restart. *)
Definition note_ready : M unit :=
  s ← get id;
  let fs_fine := bool_decide (fail_safe_status s = NotRun) || bool_decide (fail_safe_status s = FsStatusOk) in
  if bool_decide (reason s = Some "worker_starting") && fs_fine then
    put (set_health false (Some "ready")) ;; transition_now
  else if from_option (str_endswith "_restarted") false (reason s) && fs_fine then
    put (set_health false (Some "recovered")) ;; transition_now
  else mret tt.

(** One round of [_monitor] after its sleep: [false] ends the monitor. *)
Definition monitor_alive (fuel : nat) (p : proc) : M bool :=
  status ← snapshot;
  if snap_ready status && negb (snap_heartbeat_stale status) then note_ready ;; mret true
  else
    ready ← (ev ← get ready_event; safe_event_is_set ev);
    if ready : bool then replace_unhealthy fuel p "heartbeat_stale"
    else
      started_at ← get process_started;
      elapsed ← match started_at with
                | None => mret 0
                | Some t0 => now ← monotonic AtStartupCheck; mret (Z.max 0 (now - t0))
                end;
      if startup_readiness_timeout cfg <=? elapsed then replace_unhealthy fuel p "startup_readiness_timeout"
      else mret true.

Definition monitor_round (fuel : nat) (p : option proc) : M bool :=
  match p with
  | None => mark_degraded "process_missing" ;; restart_until_started fuel None true
  | Some p =>
      alive ← safe_is_alive p;
      match alive with
      | None => invoke_fail_safe_safely ;; terminate_unhealthy_process p ;; mret false
      | Some true => monitor_alive fuel p
      | Some false =>
          join p ;;
          code ← safe_exitcode p;
          put (set_exitcode code) ;;
          transition_now ;;
          restart_until_started fuel None true
      end
  end.

(** [except Exception] of a round; [p] is the process it had read. *)
Definition monitor_failed (p : option proc) : M unit :=
  mark_degraded "monitor_failed" ;;
  invoke_fail_safe_safely ;;
  match p with
  | None => mret tt
  | Some p =>
      dead ← terminate_unhealthy_process p;
      if dead : bool then mret tt else mark_degraded "monitor_failure_shutdown_incomplete"
  end.

(** [try: ... except Exception]; cancellation is not an [Exception]. *)
Definition catch {A} (m : M A) (handler : M A) : M A := fun w =>
  match m w with (w', Exc) => handler w' | r => r end.

(** The loop of [_monitor], observed for [fuel] rounds. *)
Fixpoint monitor_loop (fuel : nat) : M unit :=
  match fuel with
  | O => fail_with Suspended
  | S fuel' =>
      stop ← get stopping;
      if stop : bool then mret tt
      else
        go_on ← catch (sleep ;;
                       p ← get process;
                       catch (monitor_round fuel' p) (monitor_failed p ;; mret false))
                      (monitor_failed None ;; mret false);
        if go_on : bool then monitor_loop fuel' else mret tt
  end.

(** [_monitor]. *)
Definition monitor (fuel : nat) (initial_start_failed : bool) : M unit :=
  go_on ← (if initial_start_failed then
             contained ← contain_or_stop;
             if contained : bool then restart_until_started fuel None true else mret false
           else mret true);
  if go_on : bool then monitor_loop fuel else mret tt.

(** [start]: the first process; the result is what its monitor runs with. *)
Definition start : M (option bool) :=
  task ← get monitor_task;
  if task : bool then mret None
  else
    put (set_flags false false) ;;
    started ← start_process;
    put (set_flags true false) ;;
    mret (Some (negb started)).

(** [_await_fail_safe_completion]: [env_wait] answers the bounded wait. *)
Definition await_fail_safe_completion : M bool :=
  running ← get fs_task;
  if running : bool then
    r ← ask (env_wait env) (fun r => EFailSafe match r with Waited d => d | WaitCancelled => None end);
    match r with
    | WaitCancelled => fail_with Cancelled
    | Waited None => mark_degraded "fail_safe_shutdown_incomplete" ;; mret false
    | Waited (Some FsOk) => finish_fail_safe_task FsOk ;; mret true
    | Waited (Some (FsErr e)) =>
        finish_fail_safe_task (FsErr e) ;; mark_degraded "fail_safe_shutdown_failed" ;; mret false
    | Waited (Some FsCancelled) => finish_fail_safe_task FsCancelled ;; fail_with Cancelled
    end
  else mret true.

(** [stop], after the monitor task has been cancelled and awaited. *)
Definition stop : M bool :=
  put (set_flags false true) ;;
  safe_to_close ← await_fail_safe_completion;
  s ← get id;
  match stop_event s with
  | None => mret tt
  | Some p => attempt (fun tr => env_stop_event env tr p) (EStopEvent p) "stop_event_failed"
  end ;;
  match process s with
  | None => mret safe_to_close
  | Some p =>
      join p ;;
      liveness ← safe_is_alive p;
      (if bool_decide (liveness = Some false) then mret tt else try_terminate p ;; join p) ;;
      liveness ← safe_is_alive p;
      (if bool_decide (liveness = Some false) then mret tt else try_kill p ;; join p) ;;
      liveness ← safe_is_alive p;
      code ← safe_exitcode p;
      put (set_exitcode code) ;;
      transition_now ;;
      if bool_decide (liveness = Some false) then
        (if safe_to_close : bool then s ← get id; put (set_health (degraded s) (Some "stopped")) else mret tt) ;;
        mret safe_to_close
      else set_reason_degraded "shutdown_incomplete" ;; mret false
  end.

(** ** Sessions *)

(** The monitor runs as a task of its own until it ends or is cancelled, which
    is all [stop] waits for: whatever its outcome, the state it left is where
    [stop] goes on. *)
Definition as_task {A} (m : M A) : M unit := fun w => ((m w).1, Ret tt).

(** [start], the monitor, [stop]. *)
Definition session (fuel : nat) : M bool :=
  r ← start;
  match r with
  | None => mret tt
  | Some failed => as_task (monitor fuel failed)
  end ;;
  stop.

(** The supervisor is started again only after [stop] answered [True]. *)
Fixpoint sessions (fuels : list nat) : M unit :=
  match fuels with
  | [] => mret tt
  | fuel :: fuels' => closed ← session fuel; if closed : bool then sessions fuels' else mret tt
  end.

(** ** Running a step under a preorder of worlds *)

Definition runs {A} (R : relation World) (m : M A) : Prop := forall w, R w (m w).1.

Create HintDb runs.

Section Runs.

Context (R : relation World) `{!PreOrder R}.

Lemma runs_ret {A} (a : A) : runs R (mret a : M A).
Proof. intros w. reflexivity. Qed.

Lemma runs_fail {A} (o : outcome A) : runs R (fail_with o).
Proof. intros w. reflexivity. Qed.

Lemma runs_get {A} (f : Sup -> A) : runs R (get f).
Proof. intros w. reflexivity. Qed.

Lemma runs_bind {A B} (m : M A) (k : A -> M B) : runs R m -> (forall a, runs R (k a)) -> runs R (m ≫= k).
Proof.
  intros Hm Hk w. specialize (Hm w). unfold mbind, M_bind. destruct (m w) as [w' [a| | |]]; simpl in *; [|done..].
  etransitivity; [exact Hm|apply Hk].
Qed.

Lemma runs_put f : (forall s tr, R (mkWorld s tr) (mkWorld (f s) tr)) -> runs R (put f).
Proof. intros H [s tr]. apply H. Qed.

Lemma runs_ask {A} (f : list event -> A) log :
  (forall s tr a, R (mkWorld s tr) (mkWorld s (log a :: tr))) -> runs R (ask f log).
Proof. intros H [s tr]. apply H. Qed.

Lemma runs_catch {A} (m h : M A) : runs R m -> runs R h -> runs R (catch m h).
Proof.
  intros Hm Hh w. specialize (Hm w). unfold catch. destruct (m w) as [w' [a| | |]]; simpl in *; try done.
  etransitivity; [exact Hm|apply Hh].
Qed.

End Runs.

#[local] Hint Extern 0 (runs _ _) => (first [apply runs_ret|apply runs_fail|apply runs_get]; apply _) : runs.

(** Split a step into its primitive ones; what is left is about [put] and [ask]. *)
Ltac runs_step :=
  intros;
  match goal with
  | |- runs _ (_ ≫= _) => apply runs_bind; [try apply _| |]
  | |- runs _ (catch _ _) => apply runs_catch; [try apply _| |]
  | |- runs _ (match ?x with _ => _ end) => destruct x
  | |- runs _ (let '(_, _) := ?x in _) => destruct x
  | |- runs _ _ => solve [auto with runs]
  end.

Ltac runs_all := repeat runs_step.

(** ** Steps that start nothing *)

Definition mild_event (e : event) : bool :=
  match e with EStart _ _ | EFactory _ _ | EClock AtRestart _ => false | _ => true end.

(** The process and the restart stamps are kept, and nothing is started. *)
Definition mild (w w' : World) : Prop :=
  process (sup w') = process (sup w) /\ restart_times (sup w') = restart_times (sup w) /\
  exists ext, trace w' = ext ++ trace w /\ Forall (fun e => mild_event e = true) ext.

#[local] Instance mild_preorder : PreOrder mild.
Proof.
  split.
  - intros w. split_and!; [done..|]. by exists [].
  - intros x y z (P1 & T1 & e1 & E1 & F1) (P2 & T2 & e2 & E2 & F2). split_and!; [congruence..|].
    exists (e2 ++ e1). rewrite E2, E1, app_assoc. split; [done|by apply Forall_app].
Qed.

Lemma mild_put f :
  (forall s, process (f s) = process s) -> (forall s, restart_times (f s) = restart_times s) -> runs mild (put f).
Proof. intros H1 H2. apply runs_put. intros s tr. split_and!; [apply H1|apply H2|]. by exists []. Qed.

Lemma mild_ask {A} (f : list event -> A) log : (forall a, mild_event (log a) = true) -> runs mild (ask f log).
Proof. intros H. apply runs_ask. intros s tr a. split_and!; [done..|]. exists [log a]. auto. Qed.

#[local] Hint Extern 1 (runs mild (put _)) => (apply mild_put; [reflexivity|reflexivity]) : runs.
#[local] Hint Extern 1 (runs mild (ask _ _)) =>
  (apply mild_ask; intros; repeat match goal with |- context [match ?x with _ => _ end] => destruct x end; reflexivity) : runs.

Lemma mild_mark_degraded why : runs mild (mark_degraded why).
Proof. unfold mark_degraded, time_time. runs_all. Qed.
#[local] Hint Resolve mild_mark_degraded : runs.

Lemma mild_finish r : runs mild (finish_fail_safe_task r).
Proof. apply mild_put; intros s; by destruct r. Qed.
#[local] Hint Resolve mild_finish : runs.

Lemma mild_background : runs mild background.
Proof. unfold background. runs_all. Qed.
#[local] Hint Resolve mild_background : runs.

Lemma mild_sleep : runs mild sleep.
Proof. unfold sleep. runs_all. Qed.
Lemma mild_join p : runs mild (join p).
Proof. unfold join. runs_all. Qed.
Lemma mild_alive p : runs mild (safe_is_alive p).
Proof. unfold safe_is_alive. runs_all. Qed.
Lemma mild_event_is_set e : runs mild (safe_event_is_set e).
Proof. unfold safe_event_is_set. runs_all. Qed.
Lemma mild_exitcode p : runs mild (safe_exitcode p).
Proof. unfold safe_exitcode. runs_all. Qed.
Lemma mild_attempt f log why : (forall b, mild_event (log b) = true) -> runs mild (attempt f log why).
Proof. intros H. unfold attempt. apply runs_bind; [apply _|by apply mild_ask|]. runs_all. Qed.
Lemma mild_transition : runs mild transition_now.
Proof. unfold transition_now, time_time. runs_all. Qed.
#[local] Hint Resolve mild_sleep mild_join mild_alive mild_event_is_set mild_exitcode mild_transition : runs.
#[local] Hint Extern 1 (runs mild (attempt _ _ _)) => (apply mild_attempt; reflexivity) : runs.

Lemma mild_heartbeat h : runs mild (heartbeat_status h).
Proof. unfold heartbeat_status, time_time. runs_all. Qed.
#[local] Hint Resolve mild_heartbeat : runs.
Lemma mild_snapshot : runs mild snapshot.
Proof. unfold snapshot. runs_all. Qed.
Lemma mild_wait : runs mild wait_fail_safe.
Proof. unfold wait_fail_safe. runs_all. Qed.
Lemma mild_still_running : runs mild still_running.
Proof. unfold still_running. runs_all. Qed.
Lemma mild_reason why : runs mild (set_reason_degraded why).
Proof. unfold set_reason_degraded. runs_all. Qed.
#[local] Hint Resolve mild_snapshot mild_wait mild_still_running mild_reason : runs.

Lemma mild_fail_safe_loop left n : runs mild (fail_safe_loop left n).
Proof. revert n. induction left as [|left IH]; intros n; cbn [fail_safe_loop]; runs_all; apply IH. Qed.
#[local] Hint Resolve mild_fail_safe_loop : runs.
Lemma mild_invoke : runs mild invoke_fail_safe_safely.
Proof. unfold invoke_fail_safe_safely. runs_all. Qed.
#[local] Hint Resolve mild_invoke : runs.
Lemma mild_ensure : runs mild ensure_terminal_fail_safe.
Proof. unfold ensure_terminal_fail_safe. runs_all. Qed.
Lemma mild_shield : runs mild shield_fail_safe.
Proof. unfold shield_fail_safe. runs_all. Qed.
#[local] Hint Resolve mild_ensure mild_shield : runs.
Lemma mild_wait_before_restart : runs mild wait_for_fail_safe_before_restart.
Proof. unfold wait_for_fail_safe_before_restart. runs_all. Qed.
Lemma mild_terminate p : runs mild (terminate_unhealthy_process p).
Proof. unfold terminate_unhealthy_process, try_terminate, try_kill. runs_all. Qed.
Lemma mild_note_ready : runs mild note_ready.
Proof. unfold note_ready. runs_all. Qed.
#[local] Hint Resolve mild_wait_before_restart mild_terminate mild_note_ready : runs.
Lemma mild_contain : runs mild contain_start_failed_process.
Proof. unfold contain_start_failed_process. runs_all. Qed.
#[local] Hint Resolve mild_contain : runs.
Lemma mild_contain_or_stop : runs mild contain_or_stop.
Proof. unfold contain_or_stop. runs_all. Qed.
Lemma mild_monitor_failed p : runs mild (monitor_failed p).
Proof. unfold monitor_failed. runs_all. Qed.
Lemma mild_await_completion : runs mild await_fail_safe_completion.
Proof. unfold await_fail_safe_completion. runs_all. Qed.
#[local] Hint Resolve mild_contain_or_stop mild_monitor_failed mild_await_completion : runs.
Lemma mild_stop : runs mild stop.
Proof. unfold stop, try_terminate, try_kill. runs_all. Qed.

(** ** No overlapping workers *)

(** The processes that were started and have not been seen dead since. *)
Fixpoint may_live (tr : list event) : list proc :=
  match tr with
  | [] => []
  | EStart p _ :: tr' => p :: may_live tr'
  | EAlive p (Some false) :: tr' => List.filter (fun q => negb (q =? p)%nat) (may_live tr')
  | _ :: tr' => may_live tr'
  end.

(** Whenever a process was started, every earlier one had been seen dead. *)
Fixpoint no_overlap (tr : list event) : Prop :=
  match tr with
  | [] => True
  | EStart _ _ :: tr' => may_live tr' = [] /\ no_overlap tr'
  | _ :: tr' => no_overlap tr'
  end.

Lemma may_live_ext ext tr :
  Forall (fun e => mild_event e = true) ext ->
  (forall q, q ∈ may_live (ext ++ tr) -> q ∈ may_live tr) /\ (no_overlap tr -> no_overlap (ext ++ tr)).
Proof.
  induction 1 as [|e ext He _ [IH1 IH2]]; [done|]. split.
  - intros q Hq. apply IH1. destruct e as [| | |p [[]|]| | | | | | | | | | |]; simpl in *; try done.
    apply list_elem_of_In, filter_In in Hq as [Hq _]. by apply list_elem_of_In.
  - intros Ht. destruct e; simpl in *; auto; done.
Qed.

(** The states between steps: only the current process may be alive. *)
Definition owned (w : World) : Prop :=
  no_overlap (trace w) /\ forall q, q ∈ may_live (trace w) -> process (sup w) = Some q.

(** Nothing can be alive. *)
Definition clear (w : World) : Prop := no_overlap (trace w) /\ forall q, q ∉ may_live (trace w).

Lemma clear_owned w : clear w -> owned w.
Proof. intros [H1 H2]. split; [done|]. intros q Hq. by apply H2 in Hq. Qed.

Lemma mild_owned w w' : mild w w' -> owned w -> owned w'.
Proof.
  intros (Hp & _ & ext & He & Hf) [H1 H2]. destruct (may_live_ext ext (trace w) Hf) as [Hl Hn].
  rewrite <-He in *. split; [auto|]. intros q Hq. rewrite Hp. auto.
Qed.

Lemma mild_clear w w' : mild w w' -> clear w -> clear w'.
Proof.
  intros (_ & _ & ext & He & Hf) [H1 H2]. destruct (may_live_ext ext (trace w) Hf) as [Hl Hn].
  rewrite <-He in *. split; [auto|]. intros q Hq. by apply (H2 q), Hl.
Qed.

(** [{P} m {Q}], with [X] whenever [m] does not return. *)
Definition triple_exc {A} (X P : World -> Prop) (m : M A) (Q : A -> World -> Prop) : Prop :=
  forall w, P w -> match m w with (w', Ret a) => Q a w' | (w', _) => X w' end.

Abbreviation triple := (triple_exc owned).

Lemma triple_bind {A B X} P (m : M A) (k : A -> M B) Q Q' :
  triple_exc X P m Q -> (forall a, triple_exc X (Q a) (k a) Q') -> triple_exc X P (m ≫= k) Q'.
Proof.
  intros Hm Hk w Hw. specialize (Hm w Hw). unfold mbind, M_bind. destruct (m w) as [w' [a| | |]]; [|done..].
  by apply Hk.
Qed.

Lemma triple_ret {A X} (P : World -> Prop) (a : A) (Q : A -> World -> Prop) :
  (forall w, P w -> Q a w) -> triple_exc X P (mret a : M A) Q.
Proof. intros H w Hw. by apply H. Qed.

Lemma triple_pre {A X} (P P' : World -> Prop) (m : M A) Q :
  (forall w, P w -> P' w) -> triple_exc X P' m Q -> triple_exc X P m Q.
Proof. intros HP H w Hw. by apply H, HP. Qed.

Lemma triple_owned {A} (m : M A) : runs mild m -> triple owned m (fun _ => owned).
Proof. intros Hm w Hw. pose proof (mild_owned _ _ (Hm w) Hw). by destruct (m w) as [w' [a| | |]]. Qed.

Lemma triple_clear {A} (m : M A) : runs mild m -> triple clear m (fun _ => clear).
Proof.
  intros Hm w Hw. pose proof (mild_clear _ _ (Hm w) Hw). destruct (m w) as [w' [a| | |]]; simpl in *; auto using clear_owned.
Qed.

Lemma triple_get {A X} (P : World -> Prop) (f : Sup -> A) : triple_exc X P (get f) (fun a w => P w /\ a = f (sup w)).
Proof. intros w Hw. by split. Qed.

(** Owning nothing but [p], [p] seen dead. *)
Definition dead_after (p : proc) (b : bool) (w : World) : Prop := owned w /\ (b = true -> p ∉ may_live (trace w)).

Lemma alive_dead p : triple owned (safe_is_alive p) (fun r => dead_after p (bool_decide (r = Some false))).
Proof.
  intros w Hw. pose proof (mild_owned _ _ (mild_alive p w) Hw) as Ho. unfold safe_is_alive, mbind, M_bind in *.
  simpl in *. destruct (env_alive env (trace w) p) as [[]|]; simpl in *; split; try done.
  intros _ Hq. apply list_elem_of_In, filter_In in Hq as [_ Hq]. simpl in Hq. rewrite Nat.eqb_refl in Hq. done.
Qed.

Lemma terminate_dead p : triple owned (terminate_unhealthy_process p) (dead_after p).
Proof.
  unfold terminate_unhealthy_process. unfold try_terminate, try_kill.
  do 2 (eapply triple_bind; [apply triple_owned; auto with runs|intros ?]).
  eapply triple_bind; [apply triple_owned; auto with runs|intros l]. simpl.
  do 4 (eapply triple_bind; [apply triple_owned; runs_all|intros ?]). simpl.
  eapply triple_bind; [apply alive_dead|]. intros r. simpl.
  destruct (bool_decide (r = Some false)) eqn:E; [by apply triple_ret|].
  eapply triple_bind; [|intros ?; apply triple_ret; intros w Hw; split; [exact Hw|done]].
  eapply triple_pre; [|apply triple_owned; runs_all]. by intros w [].
Qed.

(** What a failed start leaves behind. *)
Definition failed_start (w : World) : Prop :=
  match start_failed_process (sup w) with
  | None => clear w
  | Some p => owned w /\ process (sup w) = Some p
  end.

Lemma start_process_spec :
  triple clear start_process (fun started w => if started : bool then owned w else failed_start w).
Proof.
  intros [s tr] [Hn Hl]. simpl in *. unfold start_process, call_factory, mbind, M_bind. simpl.
  assert (Hnil : may_live tr = []).
  { destruct (may_live tr) as [|q l]; [done|]. exfalso. apply (Hl q). set_solver. }
  assert (Hfail : forall t e, failed_start
    (mkWorld (set_transition t (set_health true e (set_start_failed None None s)))
       (EWall (env_wall env (EFactory (fresh_proc tr) (env_factory env tr) :: tr))
        :: EFactory (fresh_proc tr) (env_factory env tr) :: tr))).
  { intros. split; [done|exact Hl]. }
  destruct (env_factory env tr) as [shape|] eqn:Ef; [|apply Hfail].
  destruct shape; simpl; [| |apply Hfail];
    (destruct (env_start env _ _) eqn:Es; simpl;
     [destruct (env_on_process env) as [f|]; simpl; [unfold attempt, mbind, M_bind; simpl; destruct (f _ _); simpl|];
      (split; [by split|]; intros q Hq; apply elem_of_cons in Hq as [->|Hq]; [done|by apply Hl in Hq])
     |unfold safe_is_alive, mbind, M_bind; simpl; destruct (env_alive env _ _) as [[]|]; simpl;
      (split; [|done]; split; [by split|]; intros q Hq; simpl in Hq; rewrite ?Nat.eqb_refl, Hnil in Hq; simpl in Hq);
      try (apply elem_of_cons in Hq as [->|Hq]; [done|]); by apply not_elem_of_nil in Hq]).
Qed.

Lemma contain_spec : triple failed_start contain_or_stop (fun go_on w => if go_on : bool then clear w else owned w).
Proof.
  unfold contain_or_stop. eapply triple_bind; [apply triple_get|]. intros [p|].
  - assert (Hc : triple (fun w => owned w /\ process (sup w) = Some p /\ start_failed_process (sup w) = Some p)
               contain_start_failed_process (fun ok w => if ok : bool then clear w else owned w)).
    { unfold contain_start_failed_process. eapply triple_bind; [apply triple_get|]. intros q.
      destruct q as [q|]; [|intros w ((_ & _ & ?) & ?); congruence].
      eapply triple_bind; [apply triple_get|]. intros l. intros w (((Ho & Hp & Hs) & Hq) & _).
      assert (q = p) as -> by congruence.
      assert (Hw : triple (fun w => owned w /\ process (sup w) = Some p) (terminate_unhealthy_process p)
                     (fun b w => owned w /\ (b = true -> clear w))).
      { intros v [Ho' Hp']. pose proof (terminate_dead p v Ho') as H. pose proof (mild_terminate p v) as (Hpp & _).
        destruct (terminate_unhealthy_process p v) as [v' [b| | |]]; simpl in *; try done.
        destruct H as [[Hn' Hl'] Hd]. split; [done|]. intros ->. split; [done|]. intros r Hr.
        pose proof (Hl' r Hr) as E. assert (r = p) as -> by congruence. by apply Hd. }
      revert w Ho Hp Hs Hq. intros w Ho Hp _ _.
      refine (triple_bind _ _ _ _ _ Hw _ w (conj Ho Hp)). intros b. destruct b.
      - eapply triple_bind; [eapply triple_pre; [|apply triple_clear; runs_all]; intros v [_ Hv]; auto|].
        intros []. apply triple_ret. intros v Hv. destruct (bool_decide (l = Some false)); simpl; auto using clear_owned.
      - apply (triple_bind _ _ _ (fun _ => owned)); [apply triple_ret; by intros v []|].
        intros []. by apply triple_ret. }
    eapply triple_bind; [eapply triple_pre; [|exact Hc]|].
    + intros w [Hf Hp]. unfold failed_start in Hf. rewrite <-Hp in Hf. by destruct Hf.
    + intros []; [by apply triple_ret|]. eapply triple_bind; [apply triple_owned; runs_all|]. intros []. by apply triple_ret.
  - apply triple_ret. intros w [Hf Hp]. unfold failed_start in Hf. by rewrite <-Hp in Hf.
Qed.

(** Steps that keep [clear] although they are not mild. *)
Lemma clear_forget : triple clear forget_old_restarts (fun _ => clear).
Proof. intros [s tr] [H1 H2]. by split. Qed.

Lemma clear_stamp : triple clear stamp_restart (fun _ => clear).
Proof. intros [s tr] [H1 H2]. by split. Qed.

Lemma restart_spec fuel incident fs :
  triple clear (restart_until_started fuel incident fs) (fun _ => owned).
Proof.
  induction fuel as [|fuel IH]; cbn [restart_until_started]; [intros w Hw; by apply clear_owned|].
  eapply triple_bind; [apply triple_clear; auto with runs|]. intros [].
  { apply triple_ret. auto using clear_owned. }
  eapply triple_bind; [apply clear_forget|]. intros [].
  eapply triple_bind; [apply triple_clear; auto with runs|]. intros times.
  destruct (max_restarts cfg <=? _).
  { do 2 (eapply triple_bind; [apply triple_clear; runs_all|intros []]). apply triple_ret. auto using clear_owned. }
  eapply triple_bind; [apply triple_clear; runs_all|intros []].
  eapply triple_bind; [apply triple_clear; auto with runs|]. intros [].
  { apply triple_ret. auto using clear_owned. }
  eapply triple_bind; [apply clear_stamp|]. intros [].
  eapply triple_bind; [apply start_process_spec|]. intros [].
  - eapply triple_bind; [apply triple_owned; runs_all|]. intros []. by apply triple_ret.
  - eapply triple_bind; [apply contain_spec|]. intros []; [exact IH|]. by apply triple_ret.
Qed.

(** The current process, seen dead, leaves nothing that may be alive. *)
Lemma dead_clear w p : dead_after p true w -> process (sup w) = Some p -> clear w.
Proof.
  intros [[Hn Hl] Hd] Hp. split; [done|]. intros q Hq. pose proof (Hl q Hq). assert (q = p) as -> by congruence.
  by apply Hd.
Qed.

(** A mild step keeps the current process. *)
Lemma keep_process {A} (m : M A) p (Q : A -> World -> Prop) :
  runs mild m -> triple owned m Q ->
  triple (fun w => owned w /\ process (sup w) = Some p) m (fun a w => Q a w /\ process (sup w) = Some p).
Proof.
  intros Hm HQ w [Ho Hp]. pose proof (HQ w Ho) as H. destruct (Hm w) as (Hpp & _).
  destruct (m w) as [w' [a| | |]]; simpl in *; [split; [done|congruence]|done..].
Qed.

Lemma replace_spec fuel p why :
  triple (fun w => owned w /\ process (sup w) = Some p) (replace_unhealthy fuel p why) (fun _ => owned).
Proof.
  unfold replace_unhealthy.
  do 2 (eapply triple_bind; [apply keep_process; [|apply triple_owned]; runs_all|intros []; simpl]).
  eapply triple_bind; [apply keep_process; [auto with runs|apply terminate_dead]|]. intros []; simpl.
  - eapply triple_bind; [eapply triple_pre; [|apply triple_clear; auto with runs]|].
    { intros w [Hd Hp]. by eapply dead_clear. }
    intros []; simpl; [apply restart_spec|].
    eapply triple_bind; [apply triple_clear; auto with runs|]. intros []. apply triple_ret. auto using clear_owned.
  - apply triple_ret. by intros w [[Ho _] _].
Qed.

Lemma monitor_alive_spec fuel p :
  triple (fun w => owned w /\ process (sup w) = Some p) (monitor_alive fuel p) (fun _ => owned).
Proof.
  unfold monitor_alive. eapply triple_bind; [apply keep_process; [|apply triple_owned]; auto with runs|]. intros st. simpl.
  destruct (snap_ready st && _).
  { eapply triple_bind; [apply keep_process; [|apply triple_owned]; auto with runs|]. intros []. apply triple_ret.
    by intros w []. }
  eapply triple_bind; [apply keep_process; [|apply triple_owned]; runs_all|]. intros []; simpl; [apply replace_spec|].
  eapply triple_bind; [apply keep_process; [|apply triple_owned]; auto with runs|]. intros t0. simpl.
  eapply triple_bind; [apply keep_process; [|apply triple_owned]; unfold monotonic; runs_all|]. intros el. simpl.
  destruct (_ <=? el); [apply replace_spec|]. apply triple_ret. by intros w [].
Qed.

Lemma monitor_round_spec fuel p :
  triple (fun w => owned w /\ process (sup w) = p) (monitor_round fuel p) (fun _ => owned).
Proof.
  destruct p as [p|]; unfold monitor_round.
  - eapply triple_bind; [apply keep_process; [auto with runs|apply alive_dead]|]. intros [[]|]; simpl.
    + eapply triple_pre; [|apply monitor_alive_spec]. by intros w [[? _] ?].
    + eapply triple_pre; [intros w [Hd Hp]; exact (dead_clear _ _ Hd Hp)|].
      do 4 (eapply triple_bind; [apply triple_clear; runs_all|intros ?; simpl]). apply restart_spec.
    + eapply triple_pre; [by intros w [[Ho _] _]; exact Ho|].
      do 2 (eapply triple_bind; [apply triple_owned; auto with runs|intros ?]). by apply triple_ret.
  - eapply triple_pre; [|eapply triple_bind; [apply triple_clear; auto with runs|intros []; apply restart_spec]].
    intros w [[Hn Hl] Hp]. split; [done|]. intros q Hq. specialize (Hl q Hq). congruence.
Qed.

Lemma triple_catch {A} P (m h : M A) Q : triple P m Q -> triple owned h Q -> triple P (catch m h) Q.
Proof.
  intros Hm Hh w Hw. specialize (Hm w Hw). unfold catch. destruct (m w) as [w' [a| | |]]; auto. by apply Hh.
Qed.

Lemma monitor_loop_spec fuel : triple owned (monitor_loop fuel) (fun _ => owned).
Proof.
  assert (Hf : forall p, triple owned (monitor_failed p ;; mret false) (fun _ : bool => owned)).
  { intros p. eapply triple_bind; [apply triple_owned; auto with runs|]. intros []. by apply triple_ret. }
  induction fuel as [|fuel IH]; cbn [monitor_loop]; [by intros w Hw|].
  eapply triple_bind; [apply triple_owned; auto with runs|]. intros []; [by apply triple_ret|].
  eapply triple_bind; [apply triple_catch; [|apply Hf]|intros []; [exact IH|by apply triple_ret]].
  eapply triple_bind; [apply triple_owned; auto with runs|]. intros [].
  eapply triple_bind; [apply triple_get|]. intros p. apply triple_catch; [|apply Hf].
  eapply triple_pre; [|apply monitor_round_spec]. intros w [Ho ->]. done.
Qed.

Lemma monitor_spec fuel (failed : bool) :
  triple (fun w => if failed then failed_start w else owned w) (monitor fuel failed) (fun _ => owned).
Proof.
  unfold monitor. apply (triple_bind _ _ _ (fun (_ : bool) w => owned w)).
  - destruct failed; [|by apply triple_ret].
    eapply triple_bind; [apply contain_spec|]. intros []; [apply restart_spec|by apply triple_ret].
  - intros []; [apply monitor_loop_spec|by apply triple_ret].
Qed.

(** [stop] answers [True] only when nothing can be alive any more. *)
Lemma stop_spec : triple owned stop (fun closed w => if closed : bool then clear w else owned w).
Proof.
  unfold stop, try_terminate, try_kill.
  eapply triple_bind; [apply triple_owned; runs_all|intros []].
  eapply triple_bind; [apply triple_owned; auto with runs|intros safe].
  eapply triple_bind; [apply triple_get|intros s]. simpl.
  eapply (triple_bind _ _ _ (fun _ w => owned w /\ process (sup w) = process s)).
  { intros w [Ho ->]. pose proof (mild_owned w) as Hm. destruct (stop_event (sup w)); [|by split].
    match goal with |- context [attempt ?f ?l ?y w] => pose proof (mild_attempt f l y (fun _ => eq_refl) w) as Hr end.
    specialize (Hm _ Hr Ho). destruct Hr as (Hp & _). destruct (attempt _ _ _ w) as [w' [[]| | |]]; simpl in *; auto. }
  intros []. destruct (process s) as [p|].
  - eapply triple_bind; [apply keep_process; [|apply triple_owned]; auto with runs|intros []; simpl].
    eapply triple_bind; [apply keep_process; [|apply triple_owned]; auto with runs|intros l1; simpl].
    eapply triple_bind; [apply keep_process; [|apply triple_owned]; runs_all|intros []; simpl].
    eapply triple_bind; [apply keep_process; [|apply triple_owned]; auto with runs|intros l2; simpl].
    eapply triple_bind; [apply keep_process; [|apply triple_owned]; runs_all|intros []; simpl].
    eapply triple_bind; [apply keep_process; [auto with runs|apply alive_dead]|intros l3; simpl].
    destruct (bool_decide (l3 = Some false)) eqn:E.
    + eapply triple_pre; [intros w [Hd Hp]; exact (dead_clear _ _ Hd Hp)|].
      do 4 (eapply triple_bind; [apply triple_clear; runs_all|intros ?; simpl]).
      apply triple_ret. intros w Hw. destruct safe; auto using clear_owned.
    + eapply triple_pre; [intros w [[Ho _] _]; exact Ho|].
      do 4 (eapply triple_bind; [apply triple_owned; runs_all|intros ?; simpl]). by apply triple_ret.
  - apply triple_ret. intros w [[Hn Hl] Hp]. assert (clear w); [|destruct safe; auto using clear_owned].
    split; [done|]. intros q Hq. specialize (Hl q Hq). congruence.
Qed.

Lemma session_spec fuel : triple clear (session fuel) (fun closed w => if closed : bool then clear w else owned w).
Proof.
  unfold session, start. apply (triple_bind _ _ _ (fun r w =>
    match r with None => clear w | Some failed => if failed : bool then failed_start w else owned w end));
    [|intros r; apply (triple_bind _ _ _ (fun _ => owned)); [|intros _; exact stop_spec]].
  - eapply triple_bind; [apply triple_clear; auto with runs|]. intros [].
    + by apply triple_ret.
    + eapply triple_bind; [apply triple_clear; runs_all|intros []].
      eapply triple_bind; [apply start_process_spec|]. intros started.
      eapply (triple_bind _ _ _ (fun _ w => if started then owned w else failed_start w)).
      * intros [s tr]. destruct started; [|unfold failed_start; simpl; by destruct (start_failed_process s)]. done.
      * intros []. apply triple_ret. intros w Hw. by destruct started.
  - destruct r as [failed|].
    + intros w Hw. pose proof (monitor_spec fuel failed w) as Hm. unfold as_task. simpl.
      destruct (monitor fuel failed w) as [w' [[]| | |]]; simpl in *; apply Hm; by destruct failed.
    + apply triple_ret. apply clear_owned.
Qed.

Lemma sessions_spec fuels : triple clear (sessions fuels) (fun _ => owned).
Proof.
  induction fuels as [|fuel fuels IH]; simpl; [apply triple_ret; apply clear_owned|].
  eapply triple_bind; [apply session_spec|]. intros []; [exact IH|by apply triple_ret].
Qed.

(** C23: at most one worker.  However processes, clocks, the fail-safe and the event
    loop behave, wherever the monitor is cancelled, and over any number of
    sessions each started after the one before was closed: whenever a worker
    process is started, every worker started earlier has been seen dead. *)
Theorem no_overlapping_workers fuels : no_overlap (trace (sessions fuels (mkWorld sup_init [])).1).
Proof.
  assert (Hc : clear (mkWorld sup_init [])) by (split; [done|]; intros q; apply not_elem_of_nil).
  pose proof (sessions_spec fuels _ Hc) as H. by destruct (sessions fuels _) as [w [[]| | |]]; destruct H.
Qed.

(** ** The restart budget *)

(** The times of the restarts, newest first. *)
Fixpoint stamps (tr : list event) : list Z :=
  match tr with
  | [] => []
  | EClock AtRestart t :: tr' => t :: stamps tr'
  | _ :: tr' => stamps tr'
  end.

Lemma stamps_app tr tr' : stamps (tr ++ tr') = stamps tr ++ stamps tr'.
Proof. induction tr as [|e tr IH]; [done|]. destruct e as [| | | | | | | | | | |[]| | |]; simpl; by rewrite IH. Qed.

(** [max_restarts + 1] restarts take longer than the window. *)
Definition spaced (l : list Z) : Prop :=
  forall i a b, l !! i = Some b -> l !! (i + Z.to_nat (max_restarts cfg))%nat = Some a -> a + restart_window cfg < b.

(** The stamps are kept, only clocks are read. *)
Definition steady (w w' : World) : Prop :=
  restart_times (sup w') = restart_times (sup w) /\
  exists ext, trace w' = ext ++ trace w /\ stamps ext = [].

#[local] Instance steady_preorder : PreOrder steady.
Proof.
  split.
  - intros w. split; [done|]. by exists [].
  - intros x y z (T1 & e1 & E1 & F1) (T2 & e2 & E2 & F2). split; [congruence|].
    exists (e2 ++ e1). rewrite E2, E1, app_assoc. split; [done|]. by rewrite stamps_app, F1, F2.
Qed.

Lemma mild_steady w w' : mild w w' -> steady w w'.
Proof.
  intros (_ & T & ext & E & F). split; [done|]. exists ext. split; [done|].
  clear E. induction F as [|e ext He F IH]; [done|]. by destruct e as [| | | | | | | | | | |[]| | |].
Qed.

Lemma steady_of_mild {A} (m : M A) : runs mild m -> runs steady m.
Proof. intros H w. apply mild_steady, H. Qed.

Lemma steady_put f : (forall s, restart_times (f s) = restart_times s) -> runs steady (put f).
Proof. intros H. apply runs_put. intros s tr. split; [apply H|]. by exists []. Qed.

Lemma steady_ask {A} (f : list event -> A) log : (forall a, stamps [log a] = []) -> runs steady (ask f log).
Proof. intros H. apply runs_ask. intros s tr a. split; [done|]. exists [log a]. auto. Qed.

#[local] Hint Extern 1 (runs steady (put _)) => (apply steady_put; reflexivity) : runs.
#[local] Hint Extern 1 (runs steady (ask _ _)) => (apply steady_ask; intros; reflexivity) : runs.
#[local] Hint Extern 3 (runs steady _) => (apply steady_of_mild; auto with runs) : runs.

Lemma steady_start_process : runs steady start_process.
Proof.
  unfold start_process, call_factory, monotonic. runs_all. apply steady_ask. by intros [].
Qed.
#[local] Hint Resolve steady_start_process : runs.

(** [restart_times] holds the newest stamps; each of the others is older than
    the window at some reading of the clock. *)
Definition budget_ok (w : World) : Prop :=
  StronglySorted Z.ge (stamps (trace w)) /\ spaced (stamps (trace w)) /\
  exists k, restart_times (sup w) = rev (take k (stamps (trace w))) /\
    Forall (fun x => exists site t, EClock site t ∈ trace w /\ x + restart_window cfg < t) (drop k (stamps (trace w))).

Lemma steady_budget w w' : steady w w' -> budget_ok w -> budget_ok w'.
Proof.
  intros (T & ext & E & F) (Hs & Hp & k & Hk & Ho). unfold budget_ok. rewrite E, T, stamps_app, F. simpl.
  split_and!; [done..|]. exists k. split; [done|]. eapply Forall_impl; [exact Ho|].
  intros x (site & t & Ht & Hx). exists site, t. split; [set_solver|done].
Qed.

Lemma stamps_elem x tr : x ∈ stamps tr -> EClock AtRestart x ∈ tr.
Proof.
  induction tr as [|e tr IH]; intros H; [by apply not_elem_of_nil in H|].
  destruct e as [| | | | | | | | | | |[]| | |]; simpl in H; try (apply list_elem_of_further; by auto).
  apply elem_of_cons in H as [->|H]; [apply list_elem_of_here|]. apply list_elem_of_further. auto.
Qed.

(** Of a decreasing list, what is at least [c] is a prefix. *)
Lemma filter_decreasing c l :
  StronglySorted Z.ge l ->
  exists k, (k <= length l)%nat /\ List.filter (fun t => c <=? t) l = take k l /\ Forall (fun t => t < c) (drop k l).
Proof.
  induction 1 as [|a l Hl IH Ha]; [by exists 0%nat|]. destruct IH as (k & Hk & Hf & Hd). simpl.
  destruct (c <=? a) eqn:E.
  - exists (S k). simpl. split_and!; [lia|by rewrite Hf|done].
  - exists 0%nat. split_and!; [lia| |].
    + simpl. assert (Hall : Forall (fun t => t < c) l) by (eapply Forall_impl; [exact Ha|]; intros; simpl in *; lia).
      clear -Hall. induction Hall as [|x l Hx Hl IH]; [done|]. simpl. by replace (c <=? x) with false by lia.
    + simpl. constructor; [lia|]. eapply Forall_impl; [exact Ha|]. intros; simpl in *. lia.
Qed.

Lemma filter_rev {A} (f : A -> bool) l : List.filter f (rev l) = rev (List.filter f l).
Proof.
  induction l as [|x l IH]; [done|]. simpl. rewrite List.filter_app, IH. simpl. destruct (f x); simpl; [done|].
  by rewrite app_nil_r.
Qed.

Lemma StronglySorted_take {A} (R : relation A) n l : StronglySorted R l -> StronglySorted R (take n l).
Proof.
  intros H. revert n. induction H as [|a l Hl IH Ha]; intros [|n]; simpl; constructor; [apply IH|by apply Forall_take].
Qed.

(** Forgetting the stamps before the cutoff. *)
Lemma cutoff_budget s tr now :
  budget_ok (mkWorld s tr) ->
  budget_ok (mkWorld (set_restarts (List.filter (fun t => now - restart_window cfg <=? t) (restart_times s))
                        (restart_count s) s) (EClock AtCutoff now :: tr)).
Proof.
  intros (Hs & Hp & k & Hk & Ho). simpl in *. split_and!; [done..|]. simpl.
  destruct (filter_decreasing (now - restart_window cfg) (take k (stamps tr)))
    as (k' & Hle & Hf & Hd); [by apply StronglySorted_take|].
  exists k'. rewrite Hk, filter_rev, Hf. rewrite length_take in Hle. split.
  - f_equal. rewrite take_take. f_equal. lia.
  - rewrite <-(take_drop k (stamps tr)), drop_app_le by (rewrite length_take; lia). apply Forall_app. split.
    + eapply Forall_impl; [exact Hd|]. intros x Hx. simpl in Hx. exists AtCutoff, now. split; [apply list_elem_of_here|lia].
    + eapply Forall_impl; [exact Ho|]. intros x (site & t & Ht & Hx). exists site, t. split; [set_solver|done].
Qed.

Section Budget.

(** [time.monotonic] does not go back. *)
Hypothesis monotonic_clock : forall tr site t, EClock site t ∈ tr -> t <= env_monotonic env tr.

(** A restart within the budget. *)
Lemma restart_budget_step s tr :
  budget_ok (mkWorld s tr) -> Z.of_nat (length (restart_times s)) < max_restarts cfg ->
  let t := env_monotonic env tr in
  budget_ok (mkWorld (set_restarts (restart_times s ++ [t]) (restart_count s + 1) s) (EClock AtRestart t :: tr)).
Proof.
  intros (Hs & Hp & k & Hk & Ho) Hlen t. simpl in *. unfold budget_ok. cbn [sup trace stamps restart_times set_restarts].
  split_and!.
  - constructor; [done|]. apply Forall_forall. intros x Hx%stamps_elem%monotonic_clock. unfold t. lia.
  - intros [|i] a b Hb Ha; [|exact (Hp i a b Hb Ha)]. simpl in Hb. injection Hb as <-.
    rewrite Hk, length_rev, length_take in Hlen. destruct (Z.to_nat (max_restarts cfg)) as [|m] eqn:Em; [lia|].
    simpl in Ha. assert (Hdrop : drop k (stamps tr) !! (m - k)%nat = Some a).
    { rewrite lookup_drop. apply lookup_lt_Some in Ha as Hlt. rewrite <-Ha. f_equal. lia. }
    apply list_elem_of_lookup_2 in Hdrop. rewrite Forall_forall in Ho.
    destruct (Ho _ Hdrop) as (site & t' & Ht'%monotonic_clock & Hx). unfold t. lia.
  - exists (S k). simpl. rewrite Hk. split; [done|]. eapply Forall_impl; [exact Ho|].
    intros x (site & t' & Ht & Hx). exists site, t'. split; [set_solver|done].
Qed.

Lemma triple_steady {A} (m : M A) : runs steady m -> triple_exc budget_ok budget_ok m (fun _ => budget_ok).
Proof. intros Hm w Hw. pose proof (steady_budget _ _ (Hm w) Hw). by destruct (m w) as [w' [a| | |]]. Qed.

(** Room for one more restart. *)
Definition room (w : World) : Prop := budget_ok w /\ Z.of_nat (length (restart_times (sup w))) < max_restarts cfg.

Lemma triple_room {A} (m : M A) : runs steady m -> triple_exc budget_ok room m (fun _ => room).
Proof.
  intros Hm w [Hw Hl]. pose proof (steady_budget _ _ (Hm w) Hw). destruct (Hm w) as [Ht _]. unfold room.
  destruct (m w) as [w' [a| | |]]; simpl in *; [|done..]. by rewrite Ht.
Qed.

Lemma forget_budget : triple_exc budget_ok budget_ok forget_old_restarts (fun _ => budget_ok).
Proof. intros [s tr] Hw. exact (cutoff_budget _ _ (env_monotonic env tr) Hw). Qed.

Lemma stamp_budget : triple_exc budget_ok room stamp_restart (fun _ => budget_ok).
Proof. intros [s tr] [Hw Hlen]. exact (restart_budget_step s tr Hw Hlen). Qed.

(** Staying within the budget, as a preorder. *)
Definition within (w w' : World) : Prop := budget_ok w -> budget_ok w'.

#[local] Instance within_preorder : PreOrder within.
Proof. split; unfold within; [by intros w|]. intros x y z. auto. Qed.

Lemma within_of_steady {A} (m : M A) : runs steady m -> runs within m.
Proof. intros H w Hw. exact (steady_budget _ _ (H w) Hw). Qed.

Lemma within_of_triple {A} (m : M A) :
  triple_exc budget_ok budget_ok m (fun _ => budget_ok) -> runs within m.
Proof. intros H w Hw. specialize (H w Hw). by destruct (m w) as [w' [a| | |]]. Qed.

#[local] Hint Extern 3 (runs within _) => (apply within_of_steady; solve [auto with runs]) : runs.

Lemma within_restart fuel incident fs : runs within (restart_until_started fuel incident fs).
Proof.
  apply within_of_triple. revert incident fs.
  induction fuel as [|fuel IH]; intros incident fs; cbn [restart_until_started]; [by intros w Hw|].
  eapply triple_bind; [apply triple_steady; auto with runs|]. intros []; [by apply triple_ret|].
  eapply triple_bind; [apply forget_budget|]. intros [].
  eapply triple_bind; [apply triple_get|]. intros times. simpl.
  destruct (max_restarts cfg <=? Z.of_nat (length times)) eqn:E.
  { eapply triple_pre; [by intros w [Hw _]; exact Hw|].
    do 2 (eapply triple_bind; [apply triple_steady; runs_all|intros []]). by apply triple_ret. }
  eapply triple_pre with (P' := room); [intros w [Hw ->]; split; [done|lia]|].
  eapply triple_bind; [apply triple_room; runs_all|intros []].
  eapply triple_bind; [apply triple_room; auto with runs|].
  intros []; [apply triple_ret; by intros w []|].
  eapply triple_bind; [apply stamp_budget|]. intros [].
  eapply triple_bind; [apply triple_steady; auto with runs|]. intros [].
  - eapply triple_bind; [apply triple_steady; auto with runs|]. intros []. by apply triple_ret.
  - eapply triple_bind; [apply triple_steady; auto with runs|]. intros []; [apply IH|by apply triple_ret].
Qed.
#[local] Hint Resolve within_restart : runs.

Lemma within_replace fuel p why : runs within (replace_unhealthy fuel p why).
Proof. unfold replace_unhealthy. runs_all. Qed.
#[local] Hint Resolve within_replace : runs.

Lemma within_round fuel p : runs within (monitor_round fuel p).
Proof. unfold monitor_round, monitor_alive, monotonic. runs_all. Qed.
#[local] Hint Resolve within_round : runs.

Lemma within_loop fuel : runs within (monitor_loop fuel).
Proof. induction fuel as [|fuel IH]; cbn [monitor_loop]; runs_all; apply IH. Qed.
#[local] Hint Resolve within_loop : runs.

Lemma within_monitor fuel failed : runs within (monitor fuel failed).
Proof. unfold monitor. runs_all. Qed.

Lemma within_session fuel : runs within (session fuel).
Proof.
  unfold session, start. runs_all; [intros w; apply within_monitor|intros _].
  apply within_of_steady, steady_of_mild, mild_stop.
Qed.
#[local] Hint Resolve within_session : runs.

(** The restart budget holds.  If the clock does not go back, then over any run
    of the supervisor, whatever the environment does, [max_restarts + 1]
    restarts always take longer than [restart_window_seconds]: no window of that
    length contains more than [max_restarts] of them. *)
Theorem restart_budget fuels : spaced (stamps (trace (sessions fuels (mkWorld sup_init [])).1)).
Proof.
  assert (H : runs within (sessions fuels)) by (induction fuels; cbn [sessions]; runs_all; done).
  destruct (H (mkWorld sup_init [])) as (_ & Hs & _); [|exact Hs].
  simpl. split_and!; [apply SSorted_nil|intros i a b Hb; simpl in Hb; by rewrite lookup_nil in Hb|]. by exists 0%nat.
Qed.

End Budget.

(** ** Fail-safe first *)

(** Since [w0]: nothing was started; a status of success was reported by a
    fail-safe that ended since; and a running task shows as running. *)
Definition fs_since (w0 w : World) : Prop :=
  (exists ext, trace w = ext ++ trace w0 /\ (forall p ok, EStart p ok ∉ ext) /\
     (fail_safe_status (sup w) = FsStatusOk -> EFailSafe (Some FsOk) ∈ ext)) /\
  (fs_task (sup w) = true -> fail_safe_status (sup w) = FsRunning).

Definition fs_keep (w0 w w' : World) : Prop := fs_since w0 w -> fs_since w0 w'.

#[local] Instance fs_keep_preorder w0 : PreOrder (fs_keep w0).
Proof. split; unfold fs_keep; [by intros w|]. intros x y z. auto. Qed.

Lemma fs_put w0 f :
  (forall s, fail_safe_status (f s) = fail_safe_status s /\ fs_task (f s) = fs_task s) -> runs (fs_keep w0) (put f).
Proof. intros H. apply runs_put. intros s tr. destruct (H s) as [H1 H2]. unfold fs_keep, fs_since. simpl. by rewrite H1, H2. Qed.

Lemma fs_ask {A} w0 (f : list event -> A) log :
  (forall a, match log a with EStart _ _ => false | _ => true end = true) -> runs (fs_keep w0) (ask f log).
Proof.
  intros H. apply runs_ask. intros s tr a ((ext & E & Hn & Hok) & Ht). simpl in *. split; [|done].
  exists (log a :: ext). specialize (H a). simpl. rewrite E. split_and!; [done| |].
  - intros p ok Hin. apply elem_of_cons in Hin as [Heq|Hin]; [by rewrite <-Heq in H|by apply Hn in Hin].
  - intros Hs. apply list_elem_of_further. auto.
Qed.

(** The answer about the fail-safe and the callback that records it. *)
Lemma fs_finish w0 d w :
  fs_since w0 w -> EFailSafe (Some d) ∈ take 1 (trace w) ->
  (forall ext, trace w = ext ++ trace w0 -> ext <> []) -> fs_since w0 (finish_fail_safe_task d w).1.
Proof.
  intros ((ext & E & Hn & Hok) & Ht) Hin Hne. unfold finish_fail_safe_task, put. simpl. split; [|by destruct d].
  exists ext. split_and!; [done|done|]. intros Hs. assert (d = FsOk) as -> by (by destruct d).
  specialize (Hne _ E). rewrite E in Hin. destruct ext as [|e ext]; [done|]. simpl in Hin. set_solver.
Qed.

Lemma fs_asked {A} w0 (f : list event -> A) (log : A -> option fs_done) w :
  fs_since w0 w ->
  let w1 := (ask f (fun a => EFailSafe (log a)) w).1 in
  fs_since w0 w1 /\ forall d, log (f (trace w)) = Some d -> fs_since w0 (finish_fail_safe_task d w1).1.
Proof.
  intros Hw w1. assert (H1 : fs_since w0 w1) by (by apply (fs_ask w0 f (fun a => EFailSafe (log a)))).
  split; [done|]. intros d Hd. apply fs_finish; [done| |].
  - unfold w1. simpl. rewrite Hd. set_solver.
  - unfold w1. simpl. intros ext E ->. destruct Hw as ((ext' & E' & _) & _). simpl in E. rewrite E' in E.
    apply (f_equal length) in E. simpl in E. rewrite length_app in E. lia.
Qed.

Lemma fs_background w0 : runs (fs_keep w0) background.
Proof.
  intros w Hw. unfold background, mbind, M_bind. simpl. destruct (fs_task (sup w)); [|done]. simpl.
  destruct (fs_asked w0 (env_background env) id w Hw) as [H1 H2]. simpl in *.
  destruct (env_background env (trace w)) as [d|] eqn:E; [|exact H1]. exact (H2 d eq_refl).
Qed.

Lemma fs_wait w0 : runs (fs_keep w0) wait_fail_safe.
Proof.
  intros w Hw. unfold wait_fail_safe, mbind, M_bind. simpl.
  destruct (fs_asked w0 (env_wait env) (fun r => match r with Waited d => d | WaitCancelled => None end) w Hw) as [H1 H2].
  simpl in *. destruct (env_wait env (trace w)) as [|[d|]]; [exact H1| |exact H1]. exact (H2 d eq_refl).
Qed.

Lemma fs_shield w0 : runs (fs_keep w0) shield_fail_safe.
Proof.
  intros w Hw. unfold shield_fail_safe, mbind, M_bind. simpl.
  destruct (fs_asked w0 (env_shield env) id w Hw) as [H1 H2]. simpl in *.
  destruct (env_shield env (trace w)) as [[| |]|]; simpl; first [exact H1|exact (H2 _ eq_refl)].
Qed.

#[local] Hint Extern 1 (runs (fs_keep _) (put _)) => (apply fs_put; intros; split; reflexivity) : runs.
#[local] Hint Extern 1 (runs (fs_keep _) (ask _ _)) =>
  (apply fs_ask; intros; repeat match goal with |- context [match ?x with _ => _ end] => destruct x end; reflexivity) : runs.
#[local] Hint Resolve fs_background fs_wait fs_shield : runs.

Lemma fs_mark w0 why : runs (fs_keep w0) (mark_degraded why).
Proof. unfold mark_degraded, time_time. runs_all. Qed.
#[local] Hint Resolve fs_mark : runs.

Lemma fs_small w0 :
  runs (fs_keep w0) sleep /\ (forall p, runs (fs_keep w0) (join p)) /\ (forall p, runs (fs_keep w0) (safe_is_alive p)) /\
  (forall p, runs (fs_keep w0) (safe_exitcode p)) /\ runs (fs_keep w0) transition_now.
Proof. unfold sleep, join, safe_is_alive, safe_exitcode, transition_now, time_time. split_and!; runs_all. Qed.

Lemma fs_terminate w0 p : runs (fs_keep w0) (terminate_unhealthy_process p).
Proof.
  destruct (fs_small w0) as (H1 & H2 & H3 & H4 & H5).
  unfold terminate_unhealthy_process, try_terminate, try_kill, attempt, set_reason_degraded. runs_all.
Qed.

Lemma fs_before_restart w0 : runs (fs_keep w0) wait_for_fail_safe_before_restart.
Proof. unfold wait_for_fail_safe_before_restart. runs_all. Qed.

(** A status that does not claim success is a start. *)
Lemma fs_since_running w0 w :
  (exists ext, trace w = ext ++ trace w0 /\ forall p ok, EStart p ok ∉ ext) ->
  fail_safe_status (sup w) = FsRunning -> fs_since w0 w.
Proof. intros (ext & E & Hn) Hr. split; [|done]. exists ext. split_and!; [done|done|congruence]. Qed.

Lemma fs_same w0 w w' :
  fs_since w0 w -> trace w' = trace w -> fail_safe_status (sup w') = fail_safe_status (sup w) ->
  fs_task (sup w') = fs_task (sup w) -> fs_since w0 w'.
Proof. intros H E1 E2 E3. unfold fs_since. by rewrite E1, E2, E3. Qed.

Lemma fs_loop w0 left n : runs (fs_keep w0) (fail_safe_loop left n).
Proof.
  destruct (fs_small w0) as (H1 & _).
  assert (Hrun : forall f, (forall s, fail_safe_status (f s) = FsRunning) -> runs (fs_keep w0) (put f)).
  { intros f Hf w ((ext & E & Hn & _) & _). apply fs_since_running; [by exists ext|apply Hf]. }
  revert n. induction left as [|left IH]; intros n; cbn [fail_safe_loop]; [runs_all|].
  apply runs_bind; [apply _|by apply Hrun|]. intros [].
  intros w Hw. pose proof (fs_wait w0 w Hw) as H2.
  assert (Htask : forall r, (wait_fail_safe w).2 = Ret (Some r) -> fs_task (sup (wait_fail_safe w).1) = false /\
                  fail_safe_status (sup (wait_fail_safe w).1) = match r with FsOk => FsStatusOk | _ => FsFailed end).
  { unfold wait_fail_safe, mbind, M_bind. simpl. intros r. destruct (env_wait env (trace w)) as [|[[]|]]; simpl;
      intros [= <-]; done. }
  unfold mbind at 1, M_bind at 1. destruct (wait_fail_safe w) as [w1 [r| | |]]; simpl in *; try exact H2.
  destruct r as [[|e|]|]; simpl.
  - destruct (Htask _ eq_refl) as [T S]. apply (fs_same w0 w1); [done..|by rewrite S|done].
  - destruct (Htask _ eq_refl) as [T S].
    assert (Hf : fs_since w0 (put (fun s => set_fail_safe FsFailed (fail_safe_attempts s) (Some e) (fs_task s) s) w1).1).
    { apply (fs_same w0 w1); [done..|by rewrite S|done]. }
    assert (Hr : runs (fs_keep w0) ((if n <? fail_safe_max_attempts cfg then sleep else mret tt) ;;
                                    fail_safe_loop left (n + 1))) by (runs_all; apply IH).
    exact (Hr _ Hf).
  - exact H2.
  - apply Hrun; [done|exact H2].
Qed.

(** After [_invoke_fail_safe_safely], success means success since. *)
Lemma fs_invoke w0 w :
  0 < fail_safe_max_attempts cfg -> (fs_task (sup w) = true -> fail_safe_status (sup w) = FsRunning) ->
  (exists ext, trace w = ext ++ trace w0 /\ forall p ok, EStart p ok ∉ ext) ->
  fs_since w0 (invoke_fail_safe_safely w).1.
Proof.
  intros Hmax Ht Hext. unfold invoke_fail_safe_safely, mbind, M_bind. simpl.
  destruct (fs_task (sup w)) eqn:E.
  - pose proof (fs_wait w0 w (fs_since_running _ _ Hext (Ht eq_refl))) as H.
    destruct (wait_fail_safe w) as [w1 [[r|]| | |]]; simpl in *; try exact H.
    destruct H as ((ext & E1 & Hn & _) & _). apply fs_since_running; [by exists ext|done].
  - destruct (Z.to_nat (fail_safe_max_attempts cfg)) as [|left] eqn:El; [lia|]. cbn [fail_safe_loop].
    set (f := fun s => set_fail_safe FsRunning 1 (fail_safe_error s) true s).
    assert (Hw1 : fs_since w0 (put f w).1) by (by apply fs_since_running).
    pose proof (fs_loop w0 (S left) 1 (put f w).1 Hw1) as H. cbn [fail_safe_loop] in H.
    exact H.
Qed.

(** Every step only adds to the trace. *)
Definition extends (w w' : World) : Prop := exists ext, trace w' = ext ++ trace w.

#[local] Instance extends_preorder : PreOrder extends.
Proof.
  split; [intros w; by exists []|]. intros x y z [e1 E1] [e2 E2]. exists (e2 ++ e1). by rewrite E2, E1, app_assoc.
Qed.

Lemma extends_of_steady {A} (m : M A) : runs steady m -> runs extends m.
Proof. intros H w. destruct (H w) as (_ & ext & E & _). by exists ext. Qed.
#[local] Hint Extern 3 (runs extends _) => (apply extends_of_steady; solve [auto with runs]) : runs.

Lemma extends_restart fuel incident fs : runs extends (restart_until_started fuel incident fs).
Proof.
  assert (Hr : runs extends forget_old_restarts /\ runs extends stamp_restart).
  { split; intros [s tr]; eexists [_]; reflexivity. }
  destruct Hr. induction fuel as [|fuel IH]; cbn [restart_until_started]; runs_all.
Qed.

Lemma bind_cases {A B} (m : M A) (k : A -> M B) w :
  ((m ≫= k) w).1 = (m w).1 \/ exists a, (m w).2 = Ret a /\ (m ≫= k) w = k a (m w).1.
Proof. unfold mbind, M_bind. destruct (m w) as [w' [a| | |]]; simpl; [right; eauto|by left..]. Qed.

Lemma before_restart_true w :
  (wait_for_fail_safe_before_restart w).2 = Ret true ->
  fail_safe_status (sup (wait_for_fail_safe_before_restart w).1) = FsStatusOk.
Proof.
  unfold wait_for_fail_safe_before_restart.
  match goal with |- context [(?m ≫= ?k) w] => change ((m ≫= k) w) with (k (fs_task (sup w)) w) end. cbv beta.
  set (m := if fs_task (sup w) then _ else _). unfold mbind, M_bind. destruct (m w) as [w1 [[|e|]| | |]]; simpl; try done;
    intros [= E%bool_decide_eq_true]; exact E.
Qed.

Lemma config_attempts : check_config cfg = None -> 0 < fail_safe_max_attempts cfg.
Proof.
  unfold check_config. destruct (fail_safe_max_attempts cfg <=? 0) eqn:E; [|intros _; apply Z.leb_gt in E; lia].
  rewrite orb_true_l. by repeat case_match.
Qed.

(** Either nothing was started since [w0], or a successful fail-safe came first. *)
Definition fs_first (w0 w : World) : Prop :=
  fs_since w0 w \/
  exists later earlier, trace w = later ++ earlier ++ trace w0 /\ EFailSafe (Some FsOk) ∈ earlier /\
    forall q ok, EStart q ok ∉ earlier.

Lemma fs_first_replace fuel p why w :
  check_config cfg = None -> (fs_task (sup w) = true -> fail_safe_status (sup w) = FsRunning) ->
  fs_first w (replace_unhealthy fuel p why w).1.
Proof.
  intros Hmax%config_attempts Ht. unfold replace_unhealthy.
  match goal with |- context [(?m ≫= ?k) w] => change ((m ≫= k) w) with (k tt (m w).1) end. cbv beta.
  assert (H : fs_since w (invoke_fail_safe_safely (set_reason_degraded why w).1).1).
  { apply fs_invoke; [done|done|]. exists []. split; [done|intros ? ?; apply not_elem_of_nil]. }
  revert H. generalize (set_reason_degraded why w).1. intros w1 H1.
  match goal with |- context [(?m ≫= ?k) w1] => destruct (bind_cases m k w1) as [->|([] & _ & ->)] end; [by left|].
  revert H1. generalize (invoke_fail_safe_safely w1).1. clear w1. intros w1 H1%(fs_terminate w p).
  match goal with |- context [(?m ≫= ?k) w1] => destruct (bind_cases m k w1) as [->|(dead & _ & ->)] end; [by left|].
  revert H1. generalize (terminate_unhealthy_process p w1).1. clear w1. intros w1 H1.
  destruct dead; simpl; [|by left]. pose proof (fs_before_restart w w1 H1) as H2. clear H1.
  match goal with |- context [(?m ≫= ?k) w1] => destruct (bind_cases m k w1) as [->|(safe & Hsafe & ->)] end; [by left|].
  destruct safe; simpl.
  - apply before_restart_true in Hsafe. destruct H2 as ((ext & E & Hn & Hok) & _). right.
    destruct (extends_restart fuel (Some why) false (wait_for_fail_safe_before_restart w1).1) as [later El].
    exists later, ext. rewrite El, E. auto.
  - left. exact (fs_mark w _ _ H2).
Qed.

(** Fail-safe first.  When a worker that is still alive has to be replaced, a
    new one is started only after the fail-safe has ended successfully since
    the incident was noticed. *)
Theorem fail_safe_before_replacement fuel p why w ext q ok :
  check_config cfg = None -> (fs_task (sup w) = true -> fail_safe_status (sup w) = FsRunning) ->
  trace (replace_unhealthy fuel p why w).1 = ext ++ trace w -> EStart q ok ∈ ext ->
  exists later earlier, ext = later ++ earlier /\ EFailSafe (Some FsOk) ∈ earlier /\
    forall q' ok', EStart q' ok' ∉ earlier.
Proof.
  intros Hcfg Ht Htr Hin. destruct (fs_first_replace fuel p why w Hcfg Ht) as [((ext' & E & Hn & _) & _)|H].
  - rewrite Htr in E. apply app_inv_tail in E as ->. by apply Hn in Hin.
  - destruct H as (later & earlier & E & H1 & H2). rewrite Htr, app_assoc in E. apply app_inv_tail in E as ->. eauto.
Qed.

End Supervisor.

(** ** Runs on a concrete environment *)

Definition demo_cfg : SupervisorConfig := mkSupervisorConfig 1 1 8 2 50 1 1 1 10 5 3 1 5.

(** The latest reading of the clock. *)
Definition last_reading (tr : list event) : Z :=
  fold_right (fun e m => match e with EClock _ t => Z.max t m | _ => m end) 0 tr.

Lemma last_reading_ge tr site t : EClock site t ∈ tr -> t <= last_reading tr.
Proof.
  induction tr as [|e tr IH]; [by intros ?%elem_of_nil|]. intros [<-|H]%elem_of_cons; simpl; [lia|].
  specialize (IH H). destruct e; lia.
Qed.

(** Workers that exit as soon as they are asked, a clock that moves by [tick] at
    each reading, a fail-safe that answers [fs]. *)
Definition demo_env (tick : Z) (fs : option fs_done) : Env := {|
  env_factory := fun _ => Some Quadruple;
  env_start := fun _ _ => true;
  env_on_process := None;
  env_alive := fun _ _ => Some false;
  env_terminate := fun _ _ => true;
  env_kill := fun _ _ => true;
  env_join := fun _ _ => AwDone;
  env_exitcode := fun _ _ => Some (Some 1);
  env_ready := fun _ _ => Some false;
  env_heartbeat := fun _ _ => Some 0;
  env_stop_event := fun _ _ => true;
  env_monotonic := fun tr => last_reading tr + tick;
  env_wall := fun _ => 1;
  env_sleep := fun _ => AwDone;
  env_background := fun _ => fs;
  env_wait := fun _ => Waited fs;
  env_shield := fun _ => fs
|}.

(** Three starts (one first, two restarts), then the budget is spent. *)
Example crash_loop_stops :
  let w := (sessions demo_cfg (demo_env 1 (Some FsOk)) [20%nat] (mkWorld sup_init [])).1 in
  stamps (trace w) = [6; 3] /\ last_exitcode (sup w) = Some 1 /\ fail_safe_status (sup w) = FsStatusOk /\
  reason (sup w) = Some "stopped".
Proof. vm_compute. repeat split. Qed.

(** A slower crash loop goes on. *)
Example slow_crash_loop_restarts :
  length (stamps (trace (sessions demo_cfg (demo_env 30 (Some FsOk)) [12%nat] (mkWorld sup_init [])).1)) = 11%nat.
Proof. vm_compute. reflexivity. Qed.

Lemma restart_budget_witness :
  spaced demo_cfg (stamps (trace (sessions demo_cfg (demo_env 30 (Some FsOk)) [12%nat] (mkWorld sup_init [])).1)).
Proof.
  apply (restart_budget demo_cfg (demo_env 30 (Some FsOk))).
  intros tr site t H%last_reading_ge. change (t <= last_reading tr + 30). lia.
Defined.

Lemma fail_safe_before_replacement_witness :
  let w0 := mkWorld sup_init [] in
  let tr := trace (replace_unhealthy demo_cfg (demo_env 1 (Some FsOk)) 5 0%nat "heartbeat_stale" w0).1 in
  EStart 0%nat true ∈ tr /\
  exists later earlier, tr = later ++ earlier /\ EFailSafe (Some FsOk) ∈ earlier /\
    forall q' ok', EStart q' ok' ∉ earlier.
Proof.
  intros w0 tr. assert (Hin : EStart 0%nat true ∈ tr) by (vm_compute; repeat first [apply list_elem_of_here|apply list_elem_of_further]).
  split; [exact Hin|].
  apply (fail_safe_before_replacement demo_cfg (demo_env 1 (Some FsOk)) 5 0%nat "heartbeat_stale" w0 tr 0%nat true);
    [reflexivity|discriminate|by rewrite app_nil_r|exact Hin].
Defined.
