(* ===== verification/Security.v ===== *)
(** The gateway's security layer: [openpine/gateway/security.py].

    Bearer authentication of HTTP requests and WebSocket handshakes, the
    client address behind trusted proxies, request identifiers, and the audit
    middlewares.  Addresses and networks ([ipaddress]) and the decoding of a
    base64 token are parameters; handlers are arbitrary. *)

From Stdlib Require Import Ascii.
From S2P Require Import Prelude Json.

(** ** Text *)

(** [text.split(",")]. *)
Definition split_comma : string -> list string := split_on ","%char.

Fixpoint str_prefix (p s : string) : bool :=
  match p, s with
  | EmptyString, _ => true
  | String a p', String b s' => Ascii.eqb a b && str_prefix p' s'
  | _, _ => false
  end.

(** [str.isprintable] and [str.isascii] on this text. *)
Definition printable (s : string) : bool :=
  str_forall (fun c => let n := nat_of_ascii c in (32 <=? n)%nat && (n <=? 126)%nat) s.
Definition is_ascii (s : string) : bool := str_forall (fun c => (nat_of_ascii c <? 128)%nat) s.

Definition replace_char (a b : ascii) : string -> string := str_map (fun c => if Ascii.eqb c a then b else c).

Fixpoint str_take (n : nat) (s : string) : string :=
  match n, s with S n', String c s' => String c (str_take n' s') | _, _ => EmptyString end.

(** ** Credentials *)

Definition SAFE_WEBSOCKET_SUBPROTOCOL : string := "openpine.events.v1".
Definition TOKEN_PREFIX : string := "openpine.bearer.b64.".

(** Headers of a connection, by lower-case name; the first of a name counts. *)
Definition headers : Type := list (string * string).
Definition header (h : headers) (name : string) : option string := dget h name.

Inductive auth_outcome := OutcomeNotRequired | OutcomeMissing | OutcomeInvalid | OutcomeAuthenticated.

(** [connection.state]. *)
Record ConnState := mkConn {
  cs_request_id : string;
  cs_authenticated : bool;
  cs_outcome : auth_outcome;
  cs_principal : option string;
  cs_subprotocol : option string
}.

(** What the dependency ends in: the handler runs, or an exception. *)
Inductive auth_result := Allowed | Unauthorized401 | CompareTypeError.

Section Security.

(** [base64.urlsafe_b64decode(encoded + padding).decode("utf-8")]; [None] when
    it raises. *)
Variable decode_token : string -> option string.

(** [get_authorization_scheme_param]: split at the first space. *)
Fixpoint split_space (s : string) : string * string :=
  match s with
  | EmptyString => (EmptyString, EmptyString)
  | String c s' => if Ascii.eqb c " "%char then (EmptyString, s') else let '(a, b) := split_space s' in (String c a, b)
  end.

Definition scheme_param (authorization : option string) : string * string :=
  match authorization with None => ("", "") | Some s => split_space s end.

(** The loop over the offered subprotocols: the token of the first one that
    carries a token; [None] ends the search without one. *)
Fixpoint offered_token (offered : list string) : option string :=
  match offered with
  | [] => None
  | value :: offered' =>
      if str_prefix TOKEN_PREFIX value then
        match decode_token (String.substring (String.length TOKEN_PREFIX) (String.length value) value) with
        | None => None
        | Some token => if str_truthy token then Some token else offered_token offered'
        end
      else offered_token offered'
  end.

(** [_ConnectionHTTPBearer.__call__]: the credentials, and the subprotocol it
    selects. *)
Definition bearer (websocket : bool) (h : headers) : option string * option string :=
  if websocket then
    let offered := List.filter str_truthy (map str_strip (split_comma (default "" (header h "sec-websocket-protocol")))) in
    if bool_decide (SAFE_WEBSOCKET_SUBPROTOCOL ∈ offered) then
      match offered_token offered with
      | Some token => (Some token, Some SAFE_WEBSOCKET_SUBPROTOCOL)
      | None => (None, None)
      end
    else (None, None)
  else
    let '(scheme, credentials) := scheme_param (header h "authorization") in
    match header h "authorization" with
    | Some a => if str_truthy a && bool_decide (str_lower scheme = "bearer") then (Some credentials, None) else (None, None)
    | None => (None, None)
    end.

(** [hmac.compare_digest] of two strings: both must be ASCII. *)
Definition compare_digest (a b : string) : option bool :=
  if is_ascii a && is_ascii b then Some (bool_decide (a = b)) else None.

(** [authenticate_api], on the credentials the parser found. *)
Definition authenticate_api (configured : option string) (principal : string) (websocket : bool) (h : headers) (s : ConnState)
    : ConnState * auth_result :=
  let '(credentials, sub) := bearer websocket h in
  let s := mkConn (cs_request_id s) (cs_authenticated s) (cs_outcome s) (cs_principal s)
             (match sub with Some _ => sub | None => cs_subprotocol s end) in
  let set o := mkConn (cs_request_id s) (cs_authenticated s) o (cs_principal s) (cs_subprotocol s) in
  match configured with
  | None => (set OutcomeNotRequired, Allowed)
  | Some token =>
      match credentials with
      | None => (set OutcomeMissing, Unauthorized401)
      | Some given =>
          match compare_digest given token with
          | None => (s, CompareTypeError)
          | Some false => (set OutcomeInvalid, Unauthorized401)
          | Some true => (mkConn (cs_request_id s) true OutcomeAuthenticated (Some principal) (cs_subprotocol s), Allowed)
          end
      end
  end.

(** ** The client's address *)

Context {ip network : Type}.
Variable ip_address : string -> option ip.
Variable ip_network : string -> option network.
Variable contains : network -> ip -> bool.
Variable ip_str : ip -> string.

Definition trusted (nets : list network) (a : ip) : bool := existsb (fun n => contains n a) nets.

(** The walk from the peer through the hops, last one first. *)
Fixpoint walk (nets : list network) (candidate : ip) (hops : list ip) : ip :=
  match hops with
  | [] => candidate
  | hop :: hops' => if trusted nets candidate then walk nets hop hops' else candidate
  end.

(** [resolve_client_ip]. *)
Definition resolve_client_ip (socket_ip : string) (forwarded_for : option string) (cidrs : list string) : string :=
  match ip_address socket_ip, mapM ip_network cidrs with
  | Some peer, Some nets =>
      match opt_truthy forwarded_for with
      | Some text =>
          if trusted nets peer then
            match mapM (fun v => ip_address (str_strip v)) (split_comma text) with
            | None | Some [] => socket_ip
            | Some hops => ip_str (walk nets peer (rev hops))
            end
          else socket_ip
      | None => socket_ip
      end
  | _, _ => socket_ip
  end.

(** ** Requests *)

(** [_request_id]; [fresh] is the new uuid. *)
Definition request_id (supplied_header : option string) (fresh : string) : string :=
  let supplied := str_strip (default "" supplied_header) in
  if str_truthy supplied && (String.length supplied <=? 128)%nat && printable supplied then supplied else fresh.

Definition clean_user_agent (h : headers) : string :=
  str_take 256 (replace_char "013"%char " "%char (replace_char "010"%char " "%char (default "" (header h "user-agent")))).

Definition SECURITY_HEADERS : headers :=
  [("content-security-policy", "default-src 'none'; frame-ancestors 'none'"); ("x-frame-options", "DENY");
   ("x-content-type-options", "nosniff"); ("referrer-policy", "no-referrer");
   ("permissions-policy", "camera=(), geolocation=(), microphone=()")].

Record Response := mkResponse { status_code : Z; resp_headers : headers; resp_body : string }.

Record AccessLog := mkAccess {
  al_socket_ip : string;
  al_client_ip : string;
  al_method : string;
  al_status : Z;
  al_request_id : string;
  al_user_agent : string;
  al_authenticated : bool;
  al_principal : option string;
  al_outcome : auth_outcome
}.

(** How the rest of the application ends: a response, an [Exception], or a
    cancellation, which no [except Exception] catches. *)
Inductive handled := Answered (r : Response) | Raised | Cancelled_.

Definition access_log (method : string) (client : option string) (h : headers) (cidrs : list string) (status : Z) (s : ConnState)
    : AccessLog :=
  let socket_ip := default "unknown" client in
  mkAccess socket_ip (resolve_client_ip socket_ip (header h "x-forwarded-for") cidrs) method status (cs_request_id s)
    (clean_user_agent h) (cs_authenticated s) (cs_principal s) (cs_outcome s).

(** [audit_and_secure_request]: what is returned ([None] when the cancellation
    goes on) and what is logged.  [next] is the rest of the application, which
    may set the connection's state. *)
Definition audit_and_secure_request (method : string) (client : option string) (h : headers) (cidrs : list string) (fresh : string)
    (next : ConnState -> ConnState * handled) : option Response * AccessLog :=
  let rid := request_id (header h "x-request-id") fresh in
  let '(s, r) := next (mkConn rid false OutcomeNotRequired None None) in
  let response := match r with
                  | Answered r => Some r
                  | Raised => Some (mkResponse 500 [("content-type", "application/json")]
                                      (dumps_compact (JObj [("detail", JStr "Internal Server Error"); ("request_id", JStr rid)])))
                  | Cancelled_ => None
                  end in
  match response with
  | Some r =>
      let hardened := fold_left (fun hs nv => dset hs nv.1 nv.2) (("x-request-id", rid) :: SECURITY_HEADERS) (resp_headers r) in
      (Some (mkResponse (status_code r) hardened (resp_body r)), access_log method client h cidrs (status_code r) s)
  | None => (None, access_log method client h cidrs 500 s)
  end.

(** Messages a WebSocket application sends. *)
Inductive ws_message := WsAccept | WsHttpResponse (status : option Z) | WsClose | WsOther.

(** [audited_send]. *)
Definition audited_status (status : Z) (m : ws_message) : Z :=
  match m with
  | WsAccept => 101
  | WsHttpResponse st => default 500 st
  | WsClose => if status =? 500 then 403 else status
  | WsOther => status
  end.

(** [WebSocketAuditMiddleware]: whatever the application sent until it ended,
    one entry.  Its dictionary keeps the last header of a name. *)
Definition websocket_audit (client : option string) (raw : headers) (cidrs : list string) (fresh : string)
    (app : ConnState -> ConnState * list ws_message) : AccessLog :=
  let h := fold_left (fun d nv => dset d nv.1 nv.2) raw [] in
  let rid := request_id (header h "x-request-id") fresh in
  let '(s, sent) := app (mkConn rid false OutcomeNotRequired None None) in
  access_log "WEBSOCKET" client h cidrs (fold_left audited_status sent 500) s.

(** ** Authentication *)

(** The gate.  With a token configured, the handler runs exactly when the
    connection presents that token (and the token is ASCII), the connection is
    then marked as authenticated, and in every other case it is not. *)
Theorem auth_gate token principal websocket h s :
  cs_authenticated s = false ->
  let '(s', r) := authenticate_api (Some token) principal websocket h s in
  (r = Allowed <-> (bearer websocket h).1 = Some token /\ is_ascii token = true) /\
  (cs_authenticated s' = true <-> r = Allowed) /\
  (r = Allowed -> cs_principal s' = Some principal /\ cs_outcome s' = OutcomeAuthenticated).
Proof.
  intros Hs. unfold authenticate_api. destruct (bearer websocket h) as [[given|] sub]; simpl;
    [|repeat split; intros; destruct_and?; congruence].
  unfold compare_digest. destruct (is_ascii given) eqn:Eg, (is_ascii token) eqn:Et; simpl;
    [|repeat split; intros; destruct_and?; congruence..].
  case_bool_decide; simpl; repeat split; intros; destruct_and?; congruence.
Qed.

(** A WebSocket is credited with a token only if it also offers the safe
    subprotocol, which is then the one selected. *)
Theorem websocket_token_needs_subprotocol h token sub :
  bearer true h = (Some token, sub) ->
  sub = Some SAFE_WEBSOCKET_SUBPROTOCOL /\ token <> "" /\
  exists part, part ∈ split_comma (default "" (header h "sec-websocket-protocol")) /\ str_strip part = SAFE_WEBSOCKET_SUBPROTOCOL.
Proof.
  unfold bearer. set (offered := List.filter _ _). case_bool_decide as Hin; [|done].
  destruct (offered_token offered) as [t|] eqn:Et; [|done]. intros [= <- <-]. split; [done|]. split.
  - clear Hin. induction offered as [|v l IH]; [done|]. cbn [offered_token] in Et. destruct (str_prefix _ v); [|by apply IH].
    destruct (decode_token _) as [t'|]; [|done]. destruct (str_truthy t') eqn:E; [|by apply IH]. injection Et as ->.
    unfold str_truthy in E. apply negb_true_iff, bool_decide_eq_false in E. done.
  - unfold offered in Hin. apply list_elem_of_In, filter_In in Hin as [Hin _]. apply in_map_iff in Hin as (part & E & Hp).
    exists part. split; [by apply list_elem_of_In|done].
Qed.

(** ** Addresses *)

Lemma walk_spec nets peer hops :
  trusted nets peer = true ->
  match hops with
  | [] => walk nets peer hops = peer
  | _ => exists near far hop, hops = near ++ hop :: far /\ walk nets peer hops = hop /\
           Forall (fun a => trusted nets a = true) near /\ (trusted nets hop = true -> far = [])
  end.
Proof.
  intros Hp. destruct hops as [|hop hops]; [done|]. cbn [walk]. rewrite Hp. clear Hp peer. revert hop.
  induction hops as [|hop' hops IH]; intros hop; cbn [walk].
  - exists [], [], hop. split_and!; [done|done|constructor|done].
  - destruct (trusted nets hop) eqn:E.
    + destruct (IH hop') as (near & far & x & -> & Hw & Hn & Hx). exists (hop :: near), far, x.
      split_and!; [done|exact Hw|by constructor|done].
    + exists [], (hop' :: hops), hop. split_and!; [done|done|constructor|congruence].
Qed.

(** The address of the client.  The header is believed only hop by hop: either
    the socket's own address is reported, or the reported address is a hop such
    that the socket's peer and every hop after it is a trusted proxy - and it is
    itself not a trusted proxy unless nothing is claimed before it. *)
Theorem client_ip_vouched socket_ip xff cidrs :
  resolve_client_ip socket_ip xff cidrs = socket_ip \/
  exists peer nets text far near hop,
    ip_address socket_ip = Some peer /\ mapM ip_network cidrs = Some nets /\ xff = Some text /\
    mapM (fun v => ip_address (str_strip v)) (split_comma text) = Some (far ++ hop :: near) /\
    resolve_client_ip socket_ip xff cidrs = ip_str hop /\
    trusted nets peer = true /\ Forall (fun a => trusted nets a = true) near /\ (trusted nets hop = true -> far = []).
Proof.
  unfold resolve_client_ip. destruct (ip_address socket_ip) as [peer|]; [|by left]. destruct (mapM ip_network cidrs) as [nets|]; [|by left].
  destruct (opt_truthy xff) as [text|] eqn:Ex; [|by left]. apply opt_truthy_Some in Ex as [-> _].
  destruct (trusted nets peer) eqn:Ep; [|by left]. destruct (mapM _ (split_comma text)) as [[|h hops]|] eqn:Em; [by left| |by left].
  right. pose proof (walk_spec nets peer (rev (h :: hops)) Ep) as H.
  destruct (rev (h :: hops)) as [|a l] eqn:Er; [apply (f_equal length) in Er; rewrite length_rev in Er; done|].
  destruct H as (near & far & hop & E & Hw & Hn & Hx). rewrite E in Er. apply (f_equal (@rev ip)) in Er. rewrite rev_involutive, rev_app_distr in Er.
  cbn [rev] in Er. rewrite <-app_assoc in Er. simpl in Er.
  exists peer, nets, text, (rev far), (rev near), hop. split_and!; [done|done|done|by rewrite Em, Er|by rewrite Hw|done|by apply Forall_rev|].
  intros Ht. by rewrite (Hx Ht).
Qed.

(** A claim cannot be spoofed.  Once some hop is not a trusted proxy, whatever
    (well-formed) addresses a client puts before it change nothing. *)
Theorem prepended_hops_ignored socket_ip text prefix cidrs nets hops hops' :
  mapM ip_network cidrs = Some nets -> text <> "" -> prefix <> "" ->
  mapM (fun v => ip_address (str_strip v)) (split_comma text) = Some hops ->
  mapM (fun v => ip_address (str_strip v)) (split_comma prefix) = Some hops' ->
  Exists (fun a => trusted nets a = false) hops ->
  resolve_client_ip socket_ip (Some (prefix +:+ "," +:+ text)) cidrs = resolve_client_ip socket_ip (Some text) cidrs.
Proof.
  intros Hn Ht Hpre Hh Hh' Hex.
  assert (Hsplit : split_comma (prefix +:+ "," +:+ text) = split_comma prefix ++ split_comma text).
  { clear. unfold split_comma. induction prefix as [|c p IH]; [done|].
    change (String c p +:+ "," +:+ text) with (String c (p +:+ "," +:+ text)). cbn [split_on]. destruct (Ascii.eqb c ","%char); [by rewrite IH|].
    rewrite IH. destruct (split_on ","%char p) eqn:E; [|done]. exfalso. destruct p as [|c' p]; [done|]. cbn [split_on] in E.
    destruct (Ascii.eqb c' ","%char); [done|]. by destruct (split_on ","%char p). }
  unfold resolve_client_ip. rewrite Hn. destruct (ip_address socket_ip) as [peer|]; [|done].
  assert (Hwalk : forall l l' c, Exists (fun a => trusted nets a = false) l -> walk nets c (l ++ l') = walk nets c l).
  { clear. intros l l' c H. revert c. induction H as [a l Ha|a l Hl IH]; intros c; cbn [walk app].
    - destruct (trusted nets c); [|done]. destruct l as [|b l]; cbn [walk app]; [destruct l'; cbn [walk]; by rewrite ?Ha|by rewrite Ha].
    - destruct (trusted nets c); [apply IH|done]. }
  replace (opt_truthy (Some (prefix +:+ "," +:+ text))) with (Some (prefix +:+ "," +:+ text)).
  2:{ symmetry. apply opt_truthy_Some. split; [done|]. by destruct prefix. }
  replace (opt_truthy (Some text)) with (Some text) by (symmetry; by apply opt_truthy_Some).
  destruct (trusted nets peer) eqn:Ep; [|done]. 
  assert (Hm : mapM (fun v => ip_address (str_strip v)) (split_comma prefix ++ split_comma text) = Some (hops' ++ hops)).
  { apply mapM_Some. apply mapM_Some in Hh, Hh'. by apply Forall2_app. }
  rewrite Hsplit, Hm, Hh.
  destruct hops as [|h hops]; [by inversion Hex|]. destruct (hops' ++ h :: hops) as [|a l] eqn:El; [by destruct hops'|].
  rewrite <-El, rev_app_distr, Hwalk; [done|]. apply Exists_exists in Hex as (x & Hx & Hf). apply Exists_exists. exists x.
  split; [|done]. apply list_elem_of_In, in_rev. rewrite rev_involutive. by apply list_elem_of_In.
Qed.

(** ** Responses and logs *)

Lemma dset_headers_get (l : headers) hs name value :
  NoDup l.*1 -> (name, value) ∈ l -> header (fold_left (fun hs nv => dset hs nv.1 nv.2) l hs) name = Some value.
Proof.
  unfold header. intros Hd Hin. induction l as [|[n v] l IH] using rev_ind; [by apply not_elem_of_nil in Hin|].
  rewrite fold_left_app. simpl. rewrite fmap_app in Hd. apply NoDup_app in Hd as (Hd & Hdisj & _).
  apply elem_of_app in Hin as [Hin|Hin].
  - rewrite dget_dset_ne; [by apply IH|]. intros ->. apply (Hdisj name); [|set_solver]. apply list_elem_of_fmap. by exists (name, value).
  - apply list_elem_of_singleton in Hin as [= -> ->]. apply dget_dset_eq.
Qed.

(** Hardened and audited.  Whatever the application does - answers, fails or
    is cancelled - exactly the given entry is logged for the request; a response
    that goes out carries the request's identifier and every security header
    with its fixed value, even over the application's own, and the log has its
    status; a failure goes out as a bare 500. *)
Theorem response_hardened method client h cidrs fresh next :
  let rid := request_id (header h "x-request-id") fresh in
  let '(response, entry) := audit_and_secure_request method client h cidrs fresh next in
  let '(_, r) := next (mkConn rid false OutcomeNotRequired None None) in
  al_status entry = from_option status_code 500 response /\
  (response = None <-> r = Cancelled_) /\
  (r = Raised -> from_option status_code 0 response = 500 /\
     from_option resp_body "" response = dumps_compact (JObj [("detail", JStr "Internal Server Error"); ("request_id", JStr rid)])) /\
  (forall resp, response = Some resp -> header (resp_headers resp) "x-request-id" = Some rid /\
     Forall (fun nv => header (resp_headers resp) nv.1 = Some nv.2) SECURITY_HEADERS).
Proof.
  intros rid. unfold audit_and_secure_request. fold rid. destruct (next _) as [s r].
  assert (Hh : forall hs, let hs' := fold_left (fun hs nv => dset hs nv.1 nv.2) (("x-request-id", rid) :: SECURITY_HEADERS) hs in
     header hs' "x-request-id" = Some rid /\ Forall (fun nv => header hs' nv.1 = Some nv.2) SECURITY_HEADERS).
  { intros hs. assert (Hd : NoDup ((("x-request-id", rid) :: SECURITY_HEADERS).*1)) by (apply (bool_decide_unpack _); vm_compute; exact I).
    split; [apply dset_headers_get; [exact Hd|apply list_elem_of_here]|]. apply Forall_forall. intros [n v] Hin.
    apply dset_headers_get; [exact Hd|by apply list_elem_of_further]. }
  destruct r as [r| |]; cbn zeta iota beta; (split_and!; [done|done|done|]); intros resp [= <-];
    [exact (Hh (resp_headers r))|exact (Hh [("content-type", "application/json")])].
Qed.

(** The identifier in the log and the response is the client's only if it is
    short printable text. *)
Theorem request_id_bounded supplied fresh :
  let rid := request_id supplied fresh in
  rid = fresh \/ (rid <> "" /\ (String.length rid <= 128)%nat /\ printable rid = true).
Proof.
  unfold request_id. set (s := str_strip _). destruct (_ && _) eqn:E; [|by left]. right.
  apply andb_true_iff in E as [[H1 H2]%andb_true_iff H3]. unfold str_truthy in H1. apply negb_true_iff, bool_decide_eq_false in H1.
  split_and!; [done|by apply Nat.leb_le|done].
Qed.

Lemma str_take_forall p n s : str_forall p s = true -> str_forall p (str_take n s) = true.
Proof.
  revert s. induction n as [|n IH]; intros [|c s]; simpl; try done. intros [H1 H2]%andb_true_iff. rewrite H1. simpl. by apply IH.
Qed.

(** No line break of a client reaches the log through its user agent, and at
    most 256 characters do. *)
Theorem user_agent_one_line h :
  str_forall (fun c => negb (Ascii.eqb c "010"%char) && negb (Ascii.eqb c "013"%char)) (clean_user_agent h) = true /\
  (String.length (clean_user_agent h) <= 256)%nat.
Proof.
  unfold clean_user_agent. generalize (default "" (header h "user-agent")). intros s. split.
  - apply str_take_forall. induction s as [|c s IH]; [done|]. cbn [replace_char str_map str_forall] in *.
    rewrite IH, andb_true_r. destruct c as [[] [] [] [] [] [] [] []]; reflexivity.
  - generalize (replace_char "013"%char " "%char (replace_char "010"%char " "%char s)). clear s. generalize 256%nat.
    intros n. induction n as [|n IH]; intros [|c s]; simpl; try lia. specialize (IH s). lia.
Qed.

(** ** Limits *)

(** A token with a character outside ASCII is not refused with 401: comparing
    it raises, the request ends as an internal error, and the log keeps the
    outcome it started with. *)
Theorem non_ascii_token_errors token principal websocket h s given :
  (bearer websocket h).1 = Some given -> is_ascii given = false ->
  let '(s', r) := authenticate_api (Some token) principal websocket h s in r = CompareTypeError /\ cs_outcome s' = cs_outcome s.
Proof.
  intros Hb Ha. unfold authenticate_api. destruct (bearer websocket h) as [c sub]. simpl in Hb. subst c. unfold compare_digest. by rewrite Ha.
Qed.

(** A client behind a trusted proxy hides its address from the log with one
    malformed hop: the proxy's address is reported instead. *)
Theorem malformed_hop_hides_client socket_ip text part cidrs :
  part ∈ split_comma text -> ip_address (str_strip part) = None ->
  resolve_client_ip socket_ip (Some text) cidrs = socket_ip.
Proof.
  intros Hin Hp. unfold resolve_client_ip. destruct (ip_address socket_ip); [|done]. destruct (mapM ip_network cidrs) as [nets|]; [|done].
  destruct (opt_truthy (Some text)) as [text'|] eqn:Et; [|done]. apply opt_truthy_Some in Et as [[= ->] _]. destruct (trusted _ _); [|done].
  destruct (mapM _ (split_comma text')) as [hops|] eqn:Em; [|done]. exfalso. apply mapM_Some in Em.
  apply list_elem_of_lookup in Hin as [n Hn]. destruct (Forall2_lookup_l _ _ _ _ _ Em Hn) as (y & _ & Hy). simpl in Hy. congruence.
Qed.

End Security.

(** ** Witnesses *)

(** Dotted quads and networks of them. *)
Definition octet (s : string) : option Z :=
  if str_isdigit s && (String.length s <=? 3)%nat && (bool_decide (s = "0") || negb (str_prefix "0" s)) then
    let n := fold_left (fun n c => 10 * n + (Z.of_nat (nat_of_ascii c) - 48)) (String.list_ascii_of_string s) 0 in
    if n <=? 255 then Some n else None
  else None.

Definition ipv4 (s : string) : option Z :=
  match mapM octet (split_on "."%char s) with
  | Some [a; b; c; d] => Some (((a * 256 + b) * 256 + c) * 256 + d)
  | _ => None
  end.

Definition ipv4_net (s : string) : option (Z * Z) :=
  match split_on "/"%char s with
  | [a] => a ← ipv4 a; Some (a, 1)
  | [a; n] => a ← ipv4 a; n ← octet n; if n <=? 32 then Some (a, 2 ^ (32 - n)) else None
  | _ => None
  end.

Definition ipv4_contains (n : Z * Z) (a : Z) : bool := n.1 / n.2 =? a / n.2.

Definition ipv4_str (a : Z) : string :=
  pretty (a / 16777216) +:+ "." +:+ pretty (a / 65536 mod 256) +:+ "." +:+ pretty (a / 256 mod 256) +:+ "." +:+ pretty (a mod 256).

Abbreviation resolve4 := (resolve_client_ip ipv4 ipv4_net ipv4_contains ipv4_str).

Example resolve_examples :
  resolve4 "10.0.0.1" (Some "6.6.6.6, 203.0.113.9, 10.1.2.3") ["10.0.0.0/8"] = "203.0.113.9" /\
  resolve4 "10.0.0.1" (Some "203.0.113.9, nonsense") ["10.0.0.0/8"] = "10.0.0.1" /\
  resolve4 "198.51.100.7" (Some "203.0.113.9") ["10.0.0.0/8"] = "198.51.100.7".
Proof. vm_compute. repeat split. Qed.

Lemma prepended_hops_ignored_witness :
  resolve4 "10.0.0.1" (Some ("6.6.6.6" +:+ "," +:+ "203.0.113.9, 10.1.2.3")) ["10.0.0.0/8"] =
  resolve4 "10.0.0.1" (Some "203.0.113.9, 10.1.2.3") ["10.0.0.0/8"].
Proof.
  apply (prepended_hops_ignored ipv4 ipv4_net ipv4_contains ipv4_str "10.0.0.1" "203.0.113.9, 10.1.2.3" "6.6.6.6" ["10.0.0.0/8"]
           [(167772160, 16777216)] [3405803785; 167838211] [101058054]); [reflexivity|discriminate|discriminate|reflexivity|reflexivity|].
  apply Exists_cons_hd. reflexivity.
Defined.

Lemma auth_gate_witness :
  let h := [("authorization", "Bearer s3cret")] in
  (authenticate_api (fun _ => None) (Some "s3cret") "lan-operator" false h (mkConn "r" false OutcomeNotRequired None None)).2 = Allowed.
Proof.
  intros h. pose proof (auth_gate (fun _ => None) "s3cret" "lan-operator" false h (mkConn "r" false OutcomeNotRequired None None) eq_refl) as H.
  destruct (authenticate_api _ _ _ _ _ _) as [s' r]. apply (proj1 H). split; reflexivity.
Defined.
