(* ===== verification/EventBus.v ===== *)
(** The durable event bus: [openpine/events/bus.py], [openpine/events/types.py]
    and the normalizer of the events table in
    [openpine/storage/schema_compat.py].

    Events are written to the table before their subscribers are called.  The
    table is the connection's view: committed rows and the rows of the open
    transaction.  Handlers are arbitrary code that may use the bus again.
    Which statements fail (a locked database, a full disk) is an input. *)

From S2P Require Import Prelude Json.

(** ** Data *)

Inductive EventType :=
  CANDLE_CLOSED | AGGREGATE_CLOSED | STRATEGY_RUNTIME_ERROR | JOB_STARTED | JOB_DONE | JOB_FAILED.

#[export] Instance EventType_eq_dec : EqDecision EventType.
Proof. solve_decision. Defined.

Definition event_value (t : EventType) : string :=
  match t with
  | CANDLE_CLOSED => "candle_closed" | AGGREGATE_CLOSED => "aggregate_closed"
  | STRATEGY_RUNTIME_ERROR => "strategy_runtime_error" | JOB_STARTED => "job_started"
  | JOB_DONE => "job_done" | JOB_FAILED => "job_failed"
  end.

Definition event_types : list EventType :=
  [CANDLE_CLOSED; AGGREGATE_CLOSED; STRATEGY_RUNTIME_ERROR; JOB_STARTED; JOB_DONE; JOB_FAILED].

(** [EventType(text)]; [None] is a [ValueError]. *)
Definition event_of_value (s : string) : option EventType :=
  List.find (fun t => bool_decide (event_value t = s)) event_types.

Record Event := mkEvent {
  event_id : string;
  event_type : EventType;
  payload : json;
  timestamp_ms : Z;
  durable : bool
}.

(** A row of the events table, with the columns of both of its histories. *)
Record EventRow := mkRow {
  row_id : string;
  row_type : string;
  row_payload_json : option string;
  row_payload : option string;
  row_created_at : option Z;
  row_timestamp_ms : option Z;
  row_durable : option Z;
  row_status : option string
}.

(** [ensure_events_compat_schema], on a table that has all columns: backfill in
    both directions, then the defaults. *)
Definition backfill (r : EventRow) : EventRow :=
  let pj := match row_payload_json r with None => row_payload r | v => v end in
  let p := match row_payload r with None => pj | v => v end in
  let ca := match row_created_at r with None => row_timestamp_ms r | v => v end in
  let ts := match row_timestamp_ms r with None => ca | v => v end in
  mkRow (row_id r) (row_type r) pj p ca ts (Some (default 1 (row_durable r))) (Some (default "NEW" (row_status r))).

(** The bus: the table and the subscribers, by handler number. *)
Record Bus := mkBus {
  committed : list EventRow;
  pending : list EventRow;
  subscribers : dict EventType (list nat)
}.

Definition visible (b : Bus) : list EventRow := committed b ++ pending b.

(** [subscribe] and [unsubscribe] ([list.remove]: the first one). *)
Definition subscribe (b : Bus) (t : EventType) (h : nat) : Bus :=
  mkBus (committed b) (pending b) (dset (subscribers b) t (default [] (dget (subscribers b) t) ++ [h])).

Fixpoint remove_first (h : nat) (l : list nat) : list nat :=
  match l with [] => [] | x :: l' => if bool_decide (x = h) then l' else x :: remove_first h l' end.

Definition unsubscribe (b : Bus) (t : EventType) (h : nat) : Bus :=
  mkBus (committed b) (pending b) (dset (subscribers b) t (remove_first h (default [] (dget (subscribers b) t)))).

(** Which of the two statements of a write fail. *)
Record Faults := mkFaults { insert_fails : bool; commit_fails : bool }.

Inductive persist_error := InsertFailed | DuplicateId | CommitFailed.

Definition row_of (e : Event) : EventRow :=
  let text := dumps (payload e) in
  mkRow (event_id e) (event_value (event_type e)) (Some text) (Some text) (Some (timestamp_ms e)) (Some (timestamp_ms e))
    (Some 1) (Some "NEW").

(** [_persist]. *)
Definition persist (b : Bus) (e : Event) (f : Faults) : Bus * result persist_error unit :=
  if negb (durable e) then (b, Ok tt)
  else if insert_fails f then (b, Err InsertFailed)
  else if bool_decide (event_id e ∈ row_id <$> visible b) then (b, Err DuplicateId)
  else
    let b1 := mkBus (committed b) (pending b ++ [row_of e]) (subscribers b) in
    if commit_fails f then (b1, Err CommitFailed)
    else (mkBus (visible b1) [] (subscribers b), Ok tt).

(** A transaction rolled back by someone else on the connection. *)
Definition rollback (b : Bus) : Bus := mkBus (committed b) [] (subscribers b).

Section Bus.

(** What a handler does to the bus, and whether it raises. *)
Variable run_handler : nat -> Event -> Bus -> Bus * bool.

(** [_notify_subscribers], over the copied list: an exception is logged. *)
Fixpoint notify (b : Bus) (e : Event) (handlers : list nat) : Bus * list nat :=
  match handlers with
  | [] => (b, [])
  | h :: handlers' =>
      let '(b1, _) := run_handler h e b in
      let '(b2, called) := notify b1 e handlers' in (b2, h :: called)
  end.

(** [emit]: the handlers called, and the error raised. *)
Definition emit (b : Bus) (e : Event) (f : Faults) : Bus * list nat * result persist_error unit :=
  let '(b1, r) := persist b e f in
  match r with
  | Err err => (b1, [], Err err)
  | Ok _ =>
      let '(b2, called) := notify b1 e (default [] (dget (subscribers b1) (event_type e))) in (b2, called, Ok tt)
  end.

(** [emit_candle_closed] and [emit_strategy_runtime_error]: [id] and [now] are
    the generated identifier and the clock. *)
Definition emit_candle_closed (b : Bus) (id : string) (now : Z) (instrument timeframe bar : json) (bar_time : Z) (f : Faults)
    : Bus * list nat * result persist_error unit :=
  emit b (mkEvent id CANDLE_CLOSED
            (JObj [("instrument_key", instrument); ("timeframe", timeframe); ("bar_timestamp", JNum (pretty bar_time)); ("bar", bar)])
            now true) f.

Definition emit_strategy_runtime_error (b : Bus) (id : string) (now : Z) (fields : list (string * json)) (f : Faults)
    : Bus * list nat * result persist_error unit :=
  emit b (mkEvent id STRATEGY_RUNTIME_ERROR (JObj fields) now true) f.

(** ** Reading *)

Inductive read_error := UnknownType (text : string) | BadPayload | NullColumn.

(** One row as an [Event]. *)
Definition event_of_row (r : EventRow) : result read_error Event :=
  match event_of_value (row_type r), row_payload r, row_timestamp_ms r with
  | None, _, _ => Err (UnknownType (row_type r))
  | _, None, _ | _, _, None => Err NullColumn
  | Some t, Some text, Some ts =>
      match loads text with
      | Err _ => Err BadPayload
      | Ok p => Ok (mkEvent (row_id r) t p ts (negb (default 1 (row_durable r) =? 0)))
      end
  end.

(** [get_events]: filtered, newest first, at most [limit] (a negative limit is
    none). *)
Definition select_rows (b : Bus) (t : option EventType) (since : option Z) : list EventRow :=
  List.filter (fun r =>
    match t with None => true | Some t => bool_decide (row_type r = event_value t) end &&
    match since with None => true | Some s => match row_timestamp_ms r with Some ts => s <=? ts | None => false end end) (visible b).

Definition newer (r s : EventRow) : bool := default 0 (row_timestamp_ms s) <=? default 0 (row_timestamp_ms r).

Definition get_events (b : Bus) (t : option EventType) (since : option Z) (limit : Z) : result read_error (list Event) :=
  let rows := sort_by newer (select_rows b t since) in
  result_map event_of_row (if limit <? 0 then rows else firstn (Z.to_nat limit) rows).

(** ** Persist, then notify *)

Lemma notify_called b e handlers : (notify b e handlers).2 = handlers.
Proof.
  revert b. induction handlers as [|h l IH]; intros b; simpl; [done|]. destruct (run_handler h e b) as [b1 raised].
  specialize (IH b1). destruct (notify b1 e l). simpl in *. by f_equal.
Qed.

Lemma persist_ok b e f b' : persist b e f = (b', Ok tt) ->
  subscribers b' = subscribers b /\ (durable e = true -> row_of e ∈ committed b') /\ (durable e = false -> b' = b).
Proof.
  unfold persist. destruct (durable e); simpl; [|intros [= <-]; done].
  destruct (insert_fails f); [done|]. case_bool_decide; [done|]. destruct (commit_fails f); [done|].
  intros [= <-]. split; [done|]. split; [|done]. intros _. unfold visible. simpl. set_solver.
Qed.

(** No event without its row.  [emit] fails exactly when the write fails, and
    then calls no subscriber; otherwise every subscriber registered at that
    moment is called once, in order of registration, whatever the others do or
    raise - and when the first one runs, a durable event is committed. *)
Theorem emit_persists_first b e f :
  let '(b', called, r) := emit b e f in
  match r with
  | Err err => called = [] /\ persist b e f = (b', Err err)
  | Ok _ => called = default [] (dget (subscribers b) (event_type e)) /\
            exists b1, persist b e f = (b1, Ok tt) /\ (durable e = true -> row_of e ∈ committed b1) /\
              b' = (notify b1 e called).1
  end.
Proof.
  unfold emit. destruct (persist b e f) as [b1 [[]|err]] eqn:E; [|done].
  destruct (persist_ok _ _ _ _ E) as (Hs & Hd & _). pose proof (notify_called b1 e (default [] (dget (subscribers b1) (event_type e)))) as Hn.
  destruct (notify b1 e _) as [b2 called] eqn:En. simpl in Hn. subst called. rewrite Hs in *. split; [done|].
  exists b1. split_and!; [done|done|]. by rewrite En.
Qed.

(** The payload survives: a durable event that was emitted reads back as it
    was, by type and time, until something removes its row. *)
Theorem emitted_event_reads_back b e f b1 :
  plain (payload e) = true -> durable e = true -> persist b e f = (b1, Ok tt) ->
  forall events, get_events b1 (Some (event_type e)) (Some (timestamp_ms e)) (-1) = Ok events -> e ∈ events.
Proof.
  intros Hp Hd E events Hg. destruct (persist_ok _ _ _ _ E) as (_ & Hrow & _). specialize (Hrow Hd).
  assert (Hin : row_of e ∈ sort_by newer (select_rows b1 (Some (event_type e)) (Some (timestamp_ms e)))).
  { apply elem_of_sort_by. unfold select_rows. apply list_elem_of_In, filter_In. split.
    - apply list_elem_of_In. unfold visible. set_solver.
    - simpl. rewrite bool_decide_true by done. simpl. lia. }
  assert (Hev : event_of_row (row_of e) = Ok e).
  { unfold event_of_row, row_of. simpl. assert (event_of_value (event_value (event_type e)) = Some (event_type e)) as ->
      by (by destruct (event_type e)). rewrite loads_dumps by done. destruct e as [i t p ts du]. simpl in *. by rewrite Hd. }
  unfold get_events in Hg. simpl in Hg. apply result_map_ok in Hg.
  apply list_elem_of_lookup in Hin as [i Hi]. destruct (Forall2_lookup_l _ _ _ _ _ Hg Hi) as (y & Hy & Hry).
  rewrite Hev in Hry. injection Hry as ->. by eapply list_elem_of_lookup_2.
Qed.

(** Newest first: what [get_events] returns is in order of time. *)
Theorem get_events_ordered b t since limit events :
  get_events b t since limit = Ok events -> StronglySorted (fun x y => timestamp_ms y <= timestamp_ms x) events.
Proof.
  unfold get_events. set (rows := sort_by newer _). intros H%result_map_ok.
  assert (Hs : StronglySorted (fun r s => newer r s = true) rows).
  { apply sort_by_sorted; unfold newer; intros; [rewrite !Z.leb_le|rewrite !Z.leb_le in *]; lia. }
  assert (Hs' : StronglySorted (fun r s => newer r s = true) (if limit <? 0 then rows else firstn (Z.to_nat limit) rows)).
  { destruct (limit <? 0); [done|]. clearbody rows. clear -Hs. revert rows Hs. generalize (Z.to_nat limit). intros n.
    induction n as [|n IH]; intros [|r l] Hs; simpl; [constructor..|]. inversion Hs as [|? ? Hl Hf]; subst.
    constructor; [by apply IH|]. rewrite Forall_forall in *. intros x Hx. apply Hf.
    rewrite <-(firstn_skipn n l). apply elem_of_app. by left. }
  clear Hs. revert H Hs'. generalize (if limit <? 0 then rows else firstn (Z.to_nat limit) rows). intros l. clear rows.
  assert (Hts : forall r e, event_of_row r = Ok e -> default 0 (row_timestamp_ms r) = timestamp_ms e).
  { intros r e He. unfold event_of_row in He. destruct (event_of_value _), (row_payload r), (row_timestamp_ms r); try done.
    destruct (loads _); [|done]. by injection He as <-. }
  intros H. induction H as [|r e l es Hre Hl IH]; intros Hs; [constructor|]. inversion Hs as [|? ? Hsl Hf]; subst.
  constructor; [by apply IH|]. rewrite Forall_forall in Hf. apply Forall_forall. intros x Hx.
  apply list_elem_of_lookup in Hx as [i Hi]. destruct (Forall2_lookup_r _ _ _ _ _ Hl Hi) as (r' & Hr' & Hrx).
  specialize (Hf r' ltac:(by eapply list_elem_of_lookup_2)). unfold newer in Hf. apply Z.leb_le in Hf.
  by rewrite (Hts _ _ Hre), (Hts _ _ Hrx) in Hf.
Qed.

End Bus.

(** ** The table's two histories *)

(** The normalizer fills in, never over: a row with either text column ends
    with both, equal unless they differed before; the same for the two time
    columns; and doing it again changes nothing. *)
Theorem backfill_spec r :
  let r' := backfill r in
  backfill r' = r' /\
  (is_Some (row_payload r) \/ is_Some (row_payload_json r) -> is_Some (row_payload r') /\ is_Some (row_payload_json r')) /\
  (is_Some (row_timestamp_ms r) \/ is_Some (row_created_at r) -> is_Some (row_timestamp_ms r') /\ is_Some (row_created_at r')) /\
  (forall v, row_payload r = Some v -> row_payload r' = Some v) /\
  (forall v, row_payload_json r = Some v -> row_payload_json r' = Some v) /\
  (forall v, row_timestamp_ms r = Some v -> row_timestamp_ms r' = Some v) /\
  (forall v, row_created_at r = Some v -> row_created_at r' = Some v).
Proof. destruct r as [i t [pj|] [p|] [ca|] [ts|] d s]; unfold backfill; simpl; split_and!; naive_solver. Qed.

(** ** Limits *)

Definition quiet : nat -> Event -> Bus -> Bus * bool := fun _ _ b => (b, false).

(** [_persist] does not roll back.  When the commit fails, [emit] raises and
    nobody is notified, but the row stays in the open transaction: emitting the
    event again fails on its identifier, and the next event that is committed
    makes it durable without its subscribers ever having been called. *)
Theorem failed_commit_surfaces_later b e e2 f f2 :
  durable e = true -> durable e2 = true -> event_id e <> event_id e2 -> insert_fails f = false -> commit_fails f = true ->
  event_id e ∉ row_id <$> visible b -> event_id e2 ∉ row_id <$> visible b ->
  let '(b1, called1, r1) := emit quiet b e f in
  called1 = [] /\ r1 = Err CommitFailed /\ (insert_fails f2 = false -> (emit quiet b1 e f2).2 = Err DuplicateId) /\
  let '(b2, _, r2) := emit quiet b1 e2 (mkFaults false false) in r2 = Ok tt /\ row_of e ∈ committed b2.
Proof.
  intros Hd Hd2 Hne Hi Hc Hn Hn2. unfold emit at 1, persist. rewrite Hd, Hi, Hc. simpl. rewrite bool_decide_false by done.
  set (b1 := mkBus _ _ _). assert (Hv : visible b1 = visible b ++ [row_of e]) by (unfold visible, b1; simpl; by rewrite app_assoc).
  split; [done|]. split; [done|]. split.
  - intros Hi2. unfold emit, persist. rewrite Hd, Hi2. simpl. rewrite bool_decide_true; [done|]. rewrite Hv, fmap_app. set_solver.
  - unfold emit, persist. rewrite Hd2. simpl. rewrite bool_decide_false.
    2:{ rewrite Hv, fmap_app. simpl. set_solver. }
    set (b2 := mkBus _ _ _). destruct (notify quiet b2 e2 _) as [b3 called] eqn:E. split; [done|].
    assert (Hq : forall l b, (notify quiet b e2 l).1 = b).
    { clear. intros l. induction l as [|h l IH]; intros b; simpl; [done|]. specialize (IH b). by destruct (notify quiet b e2 l). }
    specialize (Hq (default [] (dget (subscribers b2) (event_type e2))) b2). rewrite E in Hq. simpl in Hq. subst b3.
    unfold b2. simpl. unfold visible, b1. simpl. set_solver.
Qed.

(** One row of a type this version does not know makes every listing that
    selects it fail. *)
Theorem unknown_type_blocks_listing b r :
  event_of_value (row_type r) = None -> r ∈ visible b ->
  (exists e, get_events b None None (-1) = Err e).
Proof.
  intros Hr Hin. unfold get_events. simpl. destruct (result_map _ _) as [events|e] eqn:E; [|by exists e]. exfalso.
  apply result_map_ok in E. assert (Hin' : r ∈ sort_by newer (select_rows b None None)).
  { apply elem_of_sort_by. unfold select_rows. apply list_elem_of_In, filter_In. split; [by apply list_elem_of_In|done]. }
  apply list_elem_of_lookup in Hin' as [i Hi]. destruct (Forall2_lookup_l _ _ _ _ _ E Hi) as (y & _ & Hy).
  unfold event_of_row in Hy. rewrite Hr in Hy. done.
Qed.

(** ** Witnesses *)

Definition demo_event (id : string) (ts : Z) : Event := mkEvent id JOB_DONE (JObj [("job", JStr "j1"); ("attempt", JNum "2")]) ts true.
Definition demo_bus : Bus := subscribe (subscribe (mkBus [] [] []) JOB_DONE 7) JOB_DONE 3.

Lemma emitted_event_reads_back_witness :
  let e := demo_event "evt_1" 1000 in
  let b1 := (persist demo_bus e (mkFaults false false)).1 in
  get_events b1 (Some JOB_DONE) (Some 1000) (-1) = Ok [e] /\ e ∈ [e].
Proof.
  intros e b1. assert (Hp : persist demo_bus e (mkFaults false false) = (b1, Ok tt)) by (vm_compute; reflexivity).
  assert (Hg : get_events b1 (Some JOB_DONE) (Some 1000) (-1) = Ok [e]) by (vm_compute; reflexivity).
  split; [exact Hg|]. exact (emitted_event_reads_back demo_bus e (mkFaults false false) b1 eq_refl eq_refl Hp [e] Hg).
Defined.

Lemma get_events_ordered_witness :
  exists events, get_events (emit quiet (emit quiet demo_bus (demo_event "a" 5) (mkFaults false false)).1.1 (demo_event "b" 9)
     (mkFaults false false)).1.1 None None 10 = Ok events /\ length events = 2%nat /\
     StronglySorted (fun x y => timestamp_ms y <= timestamp_ms x) events.
Proof.
  eexists. split; [vm_compute; reflexivity|]. split; [reflexivity|].
  eapply (get_events_ordered (emit quiet (emit quiet demo_bus (demo_event "a" 5) (mkFaults false false)).1.1 (demo_event "b" 9)
     (mkFaults false false)).1.1 None None 10). vm_compute. reflexivity.
Defined.
