(* ===== verification/Ledger.v ===== *)
(** The strategy ledger: [openpine/storage/strategy_ledger.py] over the tables
    of [openpine/storage/migrations/007_strategy_trade_ledger.sql].

    A statement and its commit are one step.  SQLite stores a NaN as NULL, so a
    NaN in a NOT NULL column is refused and elsewhere it reads back as [None].
    The metadata dictionaries are JSON texts. *)

From Stdlib Require Import SpecFloat.
From S2P Require Import Prelude PyFloat.

Inductive LedgerSource := HISTORY | PAPER | LIVE.
Inductive PositionSide := FLAT | LONG | SHORT.
Inductive TradeStatus := OPEN | CLOSED.

#[export] Instance LedgerSource_eq_dec : EqDecision LedgerSource.
Proof. solve_decision. Defined.
#[export] Instance PositionSide_eq_dec : EqDecision PositionSide.
Proof. solve_decision. Defined.
#[export] Instance TradeStatus_eq_dec : EqDecision TradeStatus.
Proof. solve_decision. Defined.

(** The columns of the UNIQUE constraint of [strategy_positions]. *)
Record PositionKey := mkPositionKey {
  k_strategy_id : string;
  k_account_id : string;
  k_exchange : string;
  k_market_type : string;
  k_symbol : string;
  k_price_type : string;
  k_timeframe : string
}.

#[export] Instance PositionKey_eq_dec : EqDecision PositionKey.
Proof. solve_decision. Defined.

(** [StrategyPosition], its key columns together. *)
Record StrategyPosition := mkPosition {
  pos_key : PositionKey;
  position_id : string;
  pos_source : LedgerSource;
  pos_side : PositionSide;
  pos_qty : float;
  avg_price : option float;
  realized_pnl : float;
  unrealized_pnl : option float;
  opened_at : option Z;
  last_bar_time : option Z;
  pos_metadata : option string;
  pos_created_at : Z;
  pos_updated_at : Z
}.

(** [StrategyTrade]. *)
Record StrategyTrade := mkTrade {
  trade_id : string;
  tr_strategy_id : string;
  tr_account_id : string;
  tr_run_id : option string;
  tr_order_id : option string;
  tr_exchange : string;
  tr_market_type : string;
  tr_symbol : string;
  tr_price_type : string;
  tr_timeframe : string;
  tr_source : LedgerSource;
  tr_status : TradeStatus;
  tr_entry_id : option string;
  tr_exit_id : option string;
  tr_direction : string;
  entry_time : Z;
  exit_time : option Z;
  entry_price : float;
  exit_price : option float;
  tr_qty : float;
  gross_pnl : option float;
  net_pnl : option float;
  fee : option float;
  bars_held : option Z;
  tr_metadata : option string;
  tr_created_at : Z;
  tr_updated_at : Z
}.

(** The rows hold what [_row_to_position] and [_row_to_trade] read back. *)
Record LedgerDB := mkLedger { positions : list StrategyPosition; trades : list StrategyTrade }.

Inductive ledger_error := NotNullFailed (column : string) | UniqueFailed (column : string).

(** A bound REAL parameter as it reads back. *)
Definition sql_real (x : float) : option float := if is_nan x then None else Some x.
Definition sql_real_opt (x : option float) : option float := x ≫= sql_real.

(** ** Positions *)

Definition norm_key (k : PositionKey) : PositionKey :=
  mkPositionKey (k_strategy_id k) (k_account_id k) (str_lower (k_exchange k)) (str_lower (k_market_type k)) (str_upper (k_symbol k))
    (str_lower (k_price_type k)) (k_timeframe k).

(** [get_position]. *)
Definition get_position (db : LedgerDB) (k : PositionKey) : option StrategyPosition :=
  List.find (fun p => bool_decide (pos_key p = norm_key k)) (positions db).

(** DO UPDATE SET: everything but the key, the id and the creation time. *)
Definition update_position (new old : StrategyPosition) : StrategyPosition :=
  mkPosition (pos_key old) (position_id old) (pos_source new) (pos_side new) (pos_qty new) (avg_price new) (realized_pnl new)
    (unrealized_pnl new) (opened_at new) (last_bar_time new) (pos_metadata new) (pos_created_at old) (pos_updated_at new).

(** INSERT ... ON CONFLICT(key) DO UPDATE. *)
Definition insert_position (db : LedgerDB) (row : StrategyPosition) : result ledger_error LedgerDB :=
  if is_nan (pos_qty row) then Err (NotNullFailed "qty")
  else if is_nan (realized_pnl row) then Err (NotNullFailed "realized_pnl")
  else if existsb (fun p => bool_decide (pos_key p = pos_key row)) (positions db) then
    Ok (mkLedger (map (fun p => if bool_decide (pos_key p = pos_key row) then update_position row p else p) (positions db)) (trades db))
  else if existsb (fun p => bool_decide (position_id p = position_id row)) (positions db) then Err (UniqueFailed "position_id")
  else Ok (mkLedger (positions db ++ [row]) (trades db)).

(** [upsert_position]: the table, and the object it returns. *)
Definition upsert_position (db : LedgerDB) (p : StrategyPosition) (now : Z) : result ledger_error (LedgerDB * StrategyPosition) :=
  let existing := get_position db (pos_key p) in
  let id := match existing with Some e => position_id e | None => position_id p end in
  let created := match existing with Some e => pos_created_at e | None => pos_created_at p end in
  let row := mkPosition (norm_key (pos_key p)) id (pos_source p) (pos_side p) (pos_qty p) (sql_real_opt (avg_price p)) (realized_pnl p)
               (sql_real_opt (unrealized_pnl p)) (opened_at p) (last_bar_time p) (pos_metadata p) created now in
  let! db' := insert_position db row in
  Ok (db', mkPosition (pos_key p) id (pos_source p) (pos_side p) (pos_qty p) (avg_price p) (realized_pnl p) (unrealized_pnl p)
             (opened_at p) (last_bar_time p) (pos_metadata p) created now).

(** ** Trades *)

(** The row [record_trade] inserts, as it reads back. *)
Definition trade_row (t : StrategyTrade) (now : Z) : StrategyTrade :=
  mkTrade (trade_id t) (tr_strategy_id t) (tr_account_id t) (tr_run_id t) (tr_order_id t) (str_lower (tr_exchange t))
    (str_lower (tr_market_type t)) (str_upper (tr_symbol t)) (str_lower (tr_price_type t)) (tr_timeframe t) (tr_source t) (tr_status t)
    (tr_entry_id t) (tr_exit_id t) (tr_direction t) (entry_time t) (exit_time t) (entry_price t) (sql_real_opt (exit_price t)) (tr_qty t)
    (sql_real_opt (gross_pnl t)) (sql_real_opt (net_pnl t)) (sql_real_opt (fee t)) (bars_held t) (tr_metadata t) (tr_created_at t) now.

Definition record_trade (db : LedgerDB) (t : StrategyTrade) (now : Z) : result ledger_error LedgerDB :=
  if is_nan (entry_price t) then Err (NotNullFailed "entry_price")
  else if is_nan (tr_qty t) then Err (NotNullFailed "qty")
  else if bool_decide (trade_id t ∈ trade_id <$> trades db) then Err (UniqueFailed "trade_id")
  else Ok (mkLedger (positions db) (trades db ++ [trade_row t now])).

(** ORDER BY entry_time, trade_id. *)
Definition trade_leb (a b : StrategyTrade) : bool :=
  (entry_time a <? entry_time b) || ((entry_time a =? entry_time b) && str_leb (trade_id a) (trade_id b)).

Definition trade_matches (strategy : option string) (source : option LedgerSource) (status : option TradeStatus) (t : StrategyTrade) : bool :=
  match strategy with None => true | Some s => bool_decide (tr_strategy_id t = s) end &&
  match source with None => true | Some s => bool_decide (tr_source t = s) end &&
  match status with None => true | Some s => bool_decide (tr_status t = s) end.

(** [list_trades]. *)
Definition list_trades (db : LedgerDB) (strategy : option string) (source : option LedgerSource) (status : option TradeStatus)
    : list StrategyTrade :=
  sort_by trade_leb (List.filter (trade_matches strategy source status) (trades db)).

(** ** Invariant *)

(** What the constraints of the tables promise. *)
Definition ledger_ok (db : LedgerDB) : Prop :=
  NoDup (pos_key <$> positions db) /\ NoDup (position_id <$> positions db) /\ NoDup (trade_id <$> trades db) /\
  Forall (fun p => norm_key (pos_key p) = pos_key p) (positions db).

Lemma norm_key_idem k : norm_key (norm_key k) = norm_key k.
Proof. unfold norm_key. simpl. by rewrite !str_lower_idem, str_upper_idem. Qed.

Lemma existsb_key {B} `{EqDecision B} (f : StrategyPosition -> B) l k : existsb (fun p => bool_decide (f p = k)) l = true <-> k ∈ f <$> l.
Proof.
  rewrite existsb_exists, list_elem_of_fmap. split.
  - intros (p & Hp & Hk%bool_decide_eq_true). exists p. split; [done|by apply list_elem_of_In].
  - intros (p & -> & Hp%list_elem_of_In). exists p. split; [done|by apply bool_decide_eq_true].
Qed.

Lemma map_update_fields {B} (f : StrategyPosition -> B) row l :
  (forall p, f (update_position row p) = f p) ->
  f <$> map (fun p => if bool_decide (pos_key p = pos_key row) then update_position row p else p) l = f <$> l.
Proof. intros Hf. induction l as [|p l IH]; [done|]. rewrite map_cons, !fmap_cons, IH. f_equal. by case_bool_decide. Qed.

Lemma insert_position_ok db row db' :
  ledger_ok db -> norm_key (pos_key row) = pos_key row -> insert_position db row = Ok db' -> ledger_ok db'.
Proof.
  intros (H1 & H2 & H3 & H4) Hn. unfold insert_position. destruct (is_nan _); [done|]. destruct (is_nan _); [done|].
  destruct (existsb _ (positions db)) eqn:Ek.
  - intros [= <-]. split_and!; simpl; [by rewrite map_update_fields|by rewrite map_update_fields|done|].
    apply Forall_forall. intros p Hp. apply list_elem_of_In, in_map_iff in Hp as (x & <- & Hx%list_elem_of_In).
    rewrite Forall_forall in H4. case_bool_decide; simpl; by apply H4.
  - destruct (existsb (fun p => bool_decide (position_id p = _)) _) eqn:Ei; [done|]. intros [= <-].
    split_and!; simpl; [| |done|].
    + rewrite fmap_app. apply NoDup_app. split_and!; [done| |apply NoDup_singleton]. intros k Hk [->|[]%not_elem_of_nil]%elem_of_cons.
      by apply existsb_key in Hk; rewrite Hk in Ek.
    + rewrite fmap_app. apply NoDup_app. split_and!; [done| |apply NoDup_singleton]. intros k Hk [->|[]%not_elem_of_nil]%elem_of_cons.
      by apply existsb_key in Hk; rewrite Hk in Ei.
    + apply Forall_app. split; [done|]. by constructor.
Qed.

(** Every operation keeps the tables' constraints. *)
Lemma upsert_ok db p now db' q : ledger_ok db -> upsert_position db p now = Ok (db', q) -> ledger_ok db'.
Proof.
  intros Hok. unfold upsert_position. destruct (insert_position _ _) as [d|] eqn:E; [|done]. simpl. intros [= <- _].
  eapply insert_position_ok; [exact Hok| |exact E]. apply norm_key_idem.
Qed.

Lemma record_ok db t now db' : ledger_ok db -> record_trade db t now = Ok db' -> ledger_ok db'.
Proof.
  intros (H1 & H2 & H3 & H4). unfold record_trade. destruct (is_nan _); [done|]. destruct (is_nan _); [done|].
  case_bool_decide as Hi; [done|]. intros [= <-]. split_and!; simpl; try done.
  rewrite fmap_app. apply NoDup_app. split_and!; [done| |apply NoDup_singleton]. by intros k Hk [->|[]%not_elem_of_nil]%elem_of_cons.
Qed.

(** ** Positions read back *)

Definition pos_find (k : PositionKey) (l : list StrategyPosition) : option StrategyPosition :=
  List.find (fun p => bool_decide (pos_key p = k)) l.

Lemma pos_find_update row k l :
  pos_find k (map (fun p => if bool_decide (pos_key p = pos_key row) then update_position row p else p) l) =
  (if bool_decide (k = pos_key row) then update_position row <$> pos_find k l else pos_find k l).
Proof.
  unfold pos_find. induction l as [|p l IH]; [by destruct (bool_decide (k = pos_key row))|]. cbn [map List.find].
  destruct (bool_decide (pos_key p = pos_key row)) eqn:E1; simpl; destruct (bool_decide (pos_key p = k)) eqn:E2; simpl; try exact IH.
  - apply bool_decide_eq_true in E1, E2. by rewrite bool_decide_eq_true_2 by congruence.
  - apply bool_decide_eq_false in E1. apply bool_decide_eq_true in E2. by rewrite bool_decide_eq_false_2 by congruence.
Qed.

Lemma pos_find_app k l p : pos_find k (l ++ [p]) =
  match pos_find k l with Some x => Some x | None => if bool_decide (pos_key p = k) then Some p else None end.
Proof. unfold pos_find. induction l as [|x l IH]; simpl; [done|]. by destruct (bool_decide (pos_key x = k)). Qed.

Lemma pos_find_None k l : k ∉ pos_key <$> l -> pos_find k l = None.
Proof.
  intros H. unfold pos_find. destruct (List.find _ l) as [p|] eqn:E; [|done]. apply List.find_some in E as [Hi Hk].
  apply bool_decide_eq_true in Hk as <-. destruct H. apply list_elem_of_fmap. exists p. split; [done|by apply list_elem_of_In].
Qed.

(** The upsert under its key, and elsewhere. *)
Lemma insert_position_find db row db' k : insert_position db row = Ok db' ->
  pos_find k (positions db') =
    (if bool_decide (k = pos_key row) then Some (match pos_find k (positions db) with Some e => update_position row e | None => row end)
     else pos_find k (positions db)) /\ trades db' = trades db.
Proof.
  unfold insert_position. destruct (is_nan _); [done|]. destruct (is_nan _); [done|]. destruct (existsb _ (positions db)) eqn:Ek.
  - intros [= <-]. split; [|done]. simpl. rewrite pos_find_update. case_bool_decide as E; [|done]. subst.
    destruct (pos_find (pos_key row) (positions db)) eqn:Ef; [done|]. apply existsb_exists in Ek as (p & Hp & Hk).
    unfold pos_find in Ef. by rewrite (List.find_none _ _ Ef p Hp) in Hk.
  - destruct (existsb (fun p => bool_decide (position_id p = _)) _); [done|]. intros [= <-]. split; [|done]. simpl.
    rewrite pos_find_app. case_bool_decide as E.
    + subst. rewrite pos_find_None; [by rewrite bool_decide_eq_true_2|]. intros Hk. apply existsb_key in Hk. congruence.
    + rewrite bool_decide_eq_false_2 by congruence. by destruct (pos_find k (positions db)).
Qed.

(** One position per strategy, account, market and timeframe.  Whatever was
    stored before, after [upsert_position] the position under that key, however
    its exchange, market and symbol are capitalised, reads back with the figures
    just given - a NaN average or unrealized profit as missing - and with the
    identifier and creation time of the first position under that key; every
    other position and every trade is as before. *)
Theorem upsert_reads_back db p now db' q :
  upsert_position db p now = Ok (db', q) ->
  (exists r, get_position db' (pos_key p) = Some r /\
    pos_source r = pos_source p /\ pos_side r = pos_side p /\ pos_qty r = pos_qty p /\ realized_pnl r = realized_pnl p /\
    avg_price r = sql_real_opt (avg_price p) /\ unrealized_pnl r = sql_real_opt (unrealized_pnl p) /\
    last_bar_time r = last_bar_time p /\ pos_updated_at r = now /\
    (position_id r, pos_created_at r) = match get_position db (pos_key p) with
                                        | Some e => (position_id e, pos_created_at e)
                                        | None => (position_id p, pos_created_at p)
                                        end /\
    position_id q = position_id r) /\
  (forall k, norm_key k <> norm_key (pos_key p) -> get_position db' k = get_position db k) /\
  trades db' = trades db.
Proof.
  unfold upsert_position. destruct (insert_position _ _) as [d|] eqn:E; [|done]. simpl. intros [= <- <-].
  change (get_position d (pos_key p)) with (pos_find (norm_key (pos_key p)) (positions d)).
  change (get_position db (pos_key p)) with (pos_find (norm_key (pos_key p)) (positions db)) in E |- *. split; [|split].
  - destruct (insert_position_find _ _ _ (norm_key (pos_key p)) E) as [-> _]. simpl. rewrite bool_decide_eq_true_2 by done.
    destruct (pos_find (norm_key (pos_key p)) (positions db)) as [e|]; eexists; (split; [done|]); by split_and!.
  - intros k Hk. destruct (insert_position_find _ _ _ (norm_key k) E) as [Hf _]. simpl in Hf. by rewrite bool_decide_eq_false_2 in Hf.
  - by destruct (insert_position_find _ _ _ (norm_key (pos_key p)) E) as [_ ->].
Qed.

(** ** Trades *)

Lemma trade_leb_total a b : trade_leb a b = true \/ trade_leb b a = true.
Proof.
  unfold trade_leb. destruct (Z.lt_trichotomy (entry_time a) (entry_time b)) as [H|[H|H]].
  - left. by rewrite (proj2 (Z.ltb_lt _ _) H).
  - rewrite H, Z.ltb_irrefl, Z.eqb_refl. simpl. apply str_leb_total.
  - right. by rewrite (proj2 (Z.ltb_lt _ _) H).
Qed.

Lemma trade_leb_trans a b c : trade_leb a b = true -> trade_leb b c = true -> trade_leb a c = true.
Proof.
  unfold trade_leb. rewrite !orb_true_iff, !andb_true_iff, !Z.ltb_lt, !Z.eqb_eq. intros [H1|[E1 H1]] [H2|[E2 H2]]; [left; lia..|].
  right. split; [congruence|]. by eapply str_leb_trans.
Qed.

(** [list_trades] lists exactly the recorded trades that match, in order of
    entry and identifier. *)
Theorem list_trades_exact db strategy source status :
  StronglySorted (fun a b => trade_leb a b = true) (list_trades db strategy source status) /\
  forall t, t ∈ list_trades db strategy source status <-> t ∈ trades db /\ trade_matches strategy source status t = true.
Proof.
  split; [apply sort_by_sorted; [apply trade_leb_total|apply trade_leb_trans]|]. intros t. unfold list_trades.
  rewrite elem_of_sort_by, list_elem_of_In, filter_In, <- list_elem_of_In. done.
Qed.

(** A trade is recorded at most once, whatever is recorded again. *)
Theorem record_once db t now db' t' now' :
  record_trade db t now = Ok db' -> trade_id t' = trade_id t -> is_ok (record_trade db' t' now') = false.
Proof.
  unfold record_trade. destruct (is_nan _); [done|]. destruct (is_nan _); [done|]. case_bool_decide; [done|]. intros [= <-] E. simpl.
  destruct (is_nan _); [done|]. destruct (is_nan _); [done|]. rewrite bool_decide_eq_true_2; [done|]. rewrite E, fmap_app. set_solver.
Qed.

(** ** Witness *)

Definition demo_key (ex sym : string) : PositionKey := mkPositionKey "s1" "" ex "spot" sym "trade" "1m".

Definition demo_position (ex sym id : string) (avg : float) : StrategyPosition :=
  mkPosition (demo_key ex sym) id PAPER LONG (float_of_Z 2) (Some avg) f_zero None None (Some 60) None 5 5.

Lemma upsert_reads_back_witness :
  exists db db' q r, upsert_position (mkLedger [] []) (demo_position "Binance" "btcusdt" "pos_1" (float_of_Z 7)) 6 = Ok (db, q) /\
    is_ok (upsert_position db (demo_position "BINANCE" "BTCusdt" "pos_2" S754_nan) 9) = true /\
    get_position db' (demo_key "binance" "BTCUSDT") = Some r /\ position_id r = "pos_1" /\ pos_updated_at r = 9 /\ avg_price r = None.
Proof.
  destruct (upsert_position (mkLedger [] []) (demo_position "Binance" "btcusdt" "pos_1" (float_of_Z 7)) 6) as [[db q]|] eqn:E1; [|discriminate E1].
  destruct (upsert_position db (demo_position "BINANCE" "BTCusdt" "pos_2" S754_nan) 9) as [[db' q']|] eqn:E2;
    [|injection E1 as <- <-; discriminate E2].
  destruct (upsert_reads_back _ _ _ _ _ E2) as [(r & Hg & _ & _ & _ & _ & Ha & _ & _ & Hu & Hi & _) _].
  exists db, db', q, r. split; [done|]. split; [by rewrite E2|]. split; [exact Hg|]. injection E1 as <- <-. injection Hi as Hi _. done.
Defined.
