(* ===== verification/JobExecutor.v ===== *)
(** The strategy job executor: [openpine/workers/strategy_job_executor.py], over
    the registry, the data layer, the scheduler, the state store and the ledger,
    and the guards of [run_isolated_artifact] of [openpine/runtime/isolated_run.py].

    A call of [process] is one step; its readings of the clock are one [now], and
    the identifiers it makes up are inputs.  What the runtime answers for a bar is
    a parameter, as is the hash of a trade's identity.  A runtime state is known
    by its serialized text, the text of [None] being "null". *)

From Stdlib Require Import Ascii SpecFloat.
From S2P Require Import Prelude PyFloat Scheduler Coverage DataOrchestrator Json Mtf Fanout PeriodicFetcher StateStore Ledger Registry.

(** ** What the runtime gives back *)

(** A position: an object with attributes, or a mapping, which has none of them. *)
Record PositionAttrs := mkAttrs {
  pa_size : float;
  pa_direction : string;
  pa_avg_price : option float;
  pa_realized_profit : option float;
  pa_open_profit : option float
}.

Inductive PositionView := PosObject (a : PositionAttrs) | PosMapping.

Record OpenTrade := mkOpenTrade { ot_qty : float; ot_direction : string; ot_entry_price : float }.

Record ClosedTrade := mkClosedTrade {
  ct_id : json;
  ct_entry_id : option string;
  ct_exit_id : option string;
  ct_direction : string;
  ct_entry_time : Z;
  ct_exit_time : option Z;
  ct_entry_price : float;
  ct_exit_price : option float;
  ct_qty : float;
  ct_profit : option float;
  ct_commission_entry : option float;
  ct_commission_exit : option float;
  ct_bars_held : option Z
}.

(** The exported state: its text, and the position its broker state shows. *)
Record ResumeState := mkResume { rs_text : string; rs_position : option PositionView }.

Record RunResult := mkRun {
  rr_status : string;
  rr_resume : option ResumeState;
  rr_open_trades : list OpenTrade;
  rr_net_profit : option float;
  rr_closed : list ClosedTrade
}.

Inductive exec_error :=
| UnsupportedJobType
| BadInput
| MissingFields (names : list string)
| UnknownStrategy
| BadSeriesRequest (e : mtf_error)
| NotIterable
| BadTimeframeText
| BadNumber
| BarUnavailable (e : data_error)
| ExpectedOneBar (got : nat)
| SnapshotFailed (e : state_error)
| RuntimeRaised (text : string)
| RuntimeStatus (status : string)
| LedgerFailed (e : ledger_error).

Inductive StrategyJobStatus := XDONE | XFAILED | XSKIPPED.

Record ExecResult := mkExecResult {
  er_job_id : string;
  er_strategy_id : string;
  er_status : StrategyJobStatus;
  er_bar_time : option Z;
  er_snapshot_id : option string;
  er_trades : Z;
  er_skipped : option string;
  er_error : option exec_error
}.

(** The inputs of one call: the clock, the identifiers made up, the signature
    of the index file after a save. *)
Record CallInputs := mkInputs { ci_now : Z; ci_snapshot_id : string; ci_position_id : string; ci_stat : Z * Z }.

(** ** JSON payloads *)

(** A number is true unless its digits before the exponent are all zero. *)
Fixpoint nonzero_literal (s : string) : bool :=
  match s with
  | EmptyString => false
  | String c s' =>
      if Ascii.eqb c "e"%char || Ascii.eqb c "E"%char then false
      else (ascii_digit c && negb (Ascii.eqb c "0"%char)) || nonzero_literal s'
  end.

Definition json_truthy (v : json) : bool :=
  match v with
  | JNull => false
  | JBool b => b
  | JNum l => nonzero_literal l
  | JStr s => str_truthy s
  | JArr l => negb (bool_decide (length l = 0%nat))
  | JObj l => negb (bool_decide (length l = 0%nat))
  end.

Definition opt_json_truthy (v : option json) : option json := x ← v; if json_truthy x then Some x else None.

(** ** Reading what the runtime gives back *)

Definition fgt0 (x : float) : bool := fltb f_zero x.
Definition flt0 (x : float) : bool := fltb x f_zero.

(** [_float_or_none(...) or 0.0]. *)
Definition float_or_zero (x : option float) : float := match x with Some v => if feqb v f_zero then f_zero else v | None => f_zero end.

(** [_result_position]; [py_sum] is [sum] on floats. *)
Definition result_position (py_sum : list float -> float) (r : RunResult) : option PositionView :=
  match rr_open_trades r with
  | [] => None
  | t :: _ =>
      let qty := py_sum (map ot_qty (rr_open_trades r)) in
      let direction := if str_truthy (ot_direction t) then ot_direction t else "flat" in
      let avg := if feqb qty f_zero then None
                 else Some (fdiv (py_sum (map (fun t => fmul (ot_entry_price t) (ot_qty t)) (rr_open_trades r))) qty) in
      let size := if bool_decide (direction = "long") then qty else if bool_decide (direction = "short") then SFopp qty else f_zero in
      Some (PosObject (mkAttrs size direction avg (rr_net_profit r) None))
  end.

(** [_broker_position(resume_state) or _result_position(raw_result)]. *)
Definition position_of (py_sum : list float -> float) (r : RunResult) : option PositionView :=
  match rr_resume r ≫= rs_position with Some p => Some p | None => result_position py_sum r end.

(** [getattr] with defaults: a mapping shows none of the attributes. *)
Definition attrs_of (v : PositionView) : PositionAttrs :=
  match v with PosObject a => a | PosMapping => mkAttrs f_zero "" None None None end.

Definition side_of (a : PositionAttrs) : PositionSide :=
  let direction := str_lower (pa_direction a) in
  if fgt0 (pa_size a) || bool_decide (direction = "long") then LONG
  else if flt0 (pa_size a) || bool_decide (direction = "short") then SHORT else FLAT.

(** The text of a runtime state, and back. *)
Definition state_text (s : option ResumeState) : string := match s with Some r => rs_text r | None => "null" end.
Definition text_state (t : string) : option string := if bool_decide (t = "null") then None else Some t.

Section Executor.

Context {Bytes O : Type}.
Variable encode : StatePayload -> result string (Bytes * string).
Variable decode : Bytes -> string -> result string StatePayload.
Variable sha256 : Bytes -> string.
Variable byte_size : Bytes -> Z.
Variable parse_timeframe : string -> option Timeframe.
Variable py_sum : list float -> float.
(** [str] and [int] of JSON values that are not text and not integer literals. *)
Variable other_text : json -> string.
Variable other_int : json -> option Z.
Variable data : BarSource O.
(** [_run_strategy]. *)
Variable run_strategy : Strategy -> Timeframe -> Bar -> option string -> result string RunResult.
(** [_ledger_trade_id]. *)
Variable ledger_trade_id : string -> LedgerSource -> ClosedTrade -> string.
Variable error_text : exec_error -> string.

(** Everything the executor writes to. *)
Record Exec := mkExec {
  x_orch : O;
  x_disk : @Disk Bytes;
  x_mem : Mem;
  x_ledger : option LedgerDB;
  x_sched : Scheduler
}.

Definition X (A : Type) : Type := Exec -> Exec * result exec_error A.

Definition xret {A} (a : A) : X A := fun w => (w, Ok a).
Definition xlift {A} (r : result exec_error A) : X A := fun w => (w, r).
Definition xbind {A B} (m : X A) (k : A -> X B) : X B := fun w =>
  match m w with (w1, Ok a) => k a w1 | (w1, Err e) => (w1, Err e) end.

Notation "'do' x <- m ; k" := (xbind m (fun x => k)) (at level 10, x name, m at level 100, k at level 200).

Definition on_sched (f : Scheduler -> Scheduler) : X unit := fun w =>
  (mkExec (x_orch w) (x_disk w) (x_mem w) (x_ledger w) (f (x_sched w)), Ok tt).

(** ** The payload *)

Definition REQUIRED : list string := ["bar_time"; "instrument_key"; "strategy_id"; "timeframe"].

(** [_job_payload]. *)
Definition job_payload (job : Job) : result exec_error (list (string * json)) :=
  let fields := match job_input job with
                | None => Ok []
                | Some text => match loads text with Ok (JObj l) => Ok l | _ => Err BadInput end
                end in
  let! l := fields in
  match List.filter (fun k => match jget l k with None => true | Some _ => false end) REQUIRED with
  | [] => Ok l
  | missing => Err (MissingFields missing)
  end.

(** [_validate_job]. *)
Definition validate_job (job : Job) : result exec_error unit :=
  match job_type job with
  | PAPER_BAR_PROCESS | LIVE_BAR_PROCESS | OBSERVE_BAR_PROCESS => let! _ := job_payload job in Ok tt
  | _ => Err UnsupportedJobType
  end.

Definition as_text (v : json) : string := match v with JStr s => s | v => other_text v end.

Definition as_int (v : json) : result exec_error Z :=
  match match v with JNum l => literal_int l | _ => None end with
  | Some z => Ok z
  | None => match other_int v with Some z => Ok z | None => Err BadNumber end
  end.

Definition required (l : list (string * json)) (k : string) : json := default JNull (jget l k).

(** [_instrument_from_payload]. *)
Definition instrument_from_payload (s : Strategy) (l : list (string * json)) : string * string * string :=
  let raw := match opt_json_truthy (jget l "instrument_key") with Some v => as_text v | None => "" end in
  match split_on ":"%char raw with
  | e :: m :: sym :: _ => (e, m, sym)
  | _ => (str_lower (st_exchange s), str_lower (st_market_type s), str_upper (st_symbol s))
  end.

(** The query of [_load_target_bar]. *)
Definition target_query (s : Strategy) (l : list (string * json)) : result exec_error BarQuery :=
  let '(e, m, sym) := instrument_from_payload s l in
  match parse_timeframe (as_text (required l "timeframe")) with
  | None => Err BadTimeframeText
  | Some tf =>
      let! t := as_int (required l "bar_time") in
      let! close := match opt_json_truthy (jget l "bar_close_time") with
                    | Some v => as_int v
                    | None => Ok (t + match duration_ms tf with Some d => Z.pos d | None => 0 end)
                    end in
      Ok (mkQuery e m sym tf t close "storage" "fail")
  end.

Definition load_target_bar (s : Strategy) (l : list (string * json)) : X (Timeframe * Bar) := fun w =>
  match target_query s l with
  | Err e => (w, Err e)
  | Ok q =>
      let '(o, r) := stored_bars data (x_orch w) q in
      let w1 := mkExec o (x_disk w) (x_mem w) (x_ledger w) (x_sched w) in
      match r with
      | Err e => (w1, Err (BarUnavailable e))
      | Ok [b] => (w1, Ok (bq_timeframe q, b))
      | Ok bs => (w1, Err (ExpectedOneBar (length bs)))
      end
  end.

(** [_state_key]. *)
Definition state_instrument (s : Strategy) : string :=
  dumps_compact (JObj [("exchange", JStr (str_lower (st_exchange s))); ("market", JStr (str_lower (st_market_type s)));
                       ("symbol", JStr (str_upper (st_symbol s))); ("price_type", JStr (str_lower (st_price_type s)))]).

Definition state_timeframe (tf : Timeframe) : string := dumps_compact (JObj [("canonical", JStr (canonical tf))]).

Definition state_filters (s : Strategy) (tf : Timeframe) (before : option Z) : Filters :=
  mkFilters (Some (Registry.artifact_id s)) (Some (Registry.params_hash s)) (Some (state_instrument s)) (Some (state_timeframe tf)) None before.

(** ** The state store *)

Definition latest_meta (s : Strategy) (tf : Timeframe) : X (option SnapshotMetadata) := fun w =>
  let '(p, m) := latest_snapshot_metadata (x_disk w) (x_mem w) (strategy_id s) (state_filters s tf None) in
  (mkExec (x_orch w) (x_disk w) p (x_ledger w) (x_sched w), Ok m).

(** [load_runtime_snapshot]. *)
Definition load_runtime_snapshot (s : Strategy) (tf : Timeframe) (before : Z) : X (option string) := fun w =>
  let '(p, r) := load_latest_compatible decode sha256 (x_disk w) (x_mem w) (strategy_id s) (state_filters s tf (Some before)) in
  let w1 := mkExec (x_orch w) (x_disk w) p (x_ledger w) (x_sched w) in
  match r with
  | Err e => (w1, Err (SnapshotFailed e))
  | Ok None => (w1, Ok None)
  | Ok (Some st) => (w1, Ok (text_state (state_data st)))
  end.

Definition runtime_state (s : Strategy) (tf : Timeframe) (b : Bar) (r : RunResult) (now : Z) : StrategyState :=
  mkStrategyState (strategy_id s) (Registry.artifact_id s) (Registry.params_hash s) (state_instrument s) (state_timeframe tf)
    (state_text (rr_resume r)) (Coverage.bar_time b) now.

(** [save_runtime_snapshot]. *)
Definition save_runtime_snapshot (s : Strategy) (tf : Timeframe) (b : Bar) (r : RunResult) (rsn : string) (ci : CallInputs)
    : X (option SnapshotMetadata) := fun w =>
  let '(d, p, res) := save_snapshot encode sha256 byte_size (x_disk w) (x_mem w) (runtime_state s tf b r (ci_now ci)) rsn false None
                        (ci_snapshot_id ci) (ci_now ci) (ci_stat ci) in
  (mkExec (x_orch w) d p (x_ledger w) (x_sched w), match res with Ok m => Ok m | Err e => Err (SnapshotFailed e) end).

(** ** The ledger *)

Definition parse_tf (text : string) : result exec_error Timeframe :=
  match parse_timeframe text with Some tf => Ok tf | None => Err BadTimeframeText end.

(** The row of [_record_position]. *)
Definition ledger_position (s : Strategy) (source : LedgerSource) (tf : Timeframe) (b : Bar) (a : PositionAttrs) (ci : CallInputs)
    : StrategyPosition :=
  mkPosition (mkPositionKey (strategy_id s) "" (st_exchange s) (st_market_type s) (st_symbol s) (st_price_type s) (canonical tf))
    (ci_position_id ci) source (side_of a) (fabs (pa_size a)) (pa_avg_price a) (float_or_zero (pa_realized_profit a)) (pa_open_profit a)
    None (Some (Coverage.bar_time b)) None (ci_now ci) (ci_now ci).

(** [_record_position]. *)
Definition record_position (s : Strategy) (source : LedgerSource) (b : Bar) (r : RunResult) (ci : CallInputs) (db : LedgerDB)
    : LedgerDB * result exec_error unit :=
  match position_of py_sum r with
  | None => (db, Ok tt)
  | Some v =>
      match parse_tf (st_timeframe s) with
      | Err e => (db, Err e)
      | Ok tf =>
          match upsert_position db (ledger_position s source tf b (attrs_of v) ci) (ci_now ci) with
          | Ok (db', _) => (db', Ok tt)
          | Err e => (db, Err (LedgerFailed e))
          end
      end
  end.

(** Is the trade closed on this bar? *)
Definition closed_on (b : Bar) (t : ClosedTrade) : bool :=
  match ct_exit_time t with
  | None => false
  | Some x => negb ((x <? Coverage.bar_time b) || (bar_time_close b <? x))
  end.

(** The row of [_record_closed_trades]. *)
Definition ledger_trade (s : Strategy) (source : LedgerSource) (tf : Timeframe) (t : ClosedTrade) (now : Z) : StrategyTrade :=
  mkTrade (ledger_trade_id (strategy_id s) source t) (strategy_id s) "" None None (st_exchange s) (st_market_type s) (st_symbol s)
    (st_price_type s) (canonical tf) source CLOSED (ct_entry_id t) (ct_exit_id t) (ct_direction t) (ct_entry_time t) (ct_exit_time t)
    (ct_entry_price t) (ct_exit_price t) (fabs (ct_qty t)) (ct_profit t) (ct_profit t)
    (Some (fadd (float_or_zero (ct_commission_entry t)) (float_or_zero (ct_commission_exit t)))) (ct_bars_held t)
    (Some (dumps_compact (JObj [("job_id", ct_id t)]))) now now.

(** [_record_closed_trades]: trade after trade, each committed. *)
Fixpoint record_closed_trades (s : Strategy) (source : LedgerSource) (b : Bar) (now : Z) (l : list ClosedTrade) (db : LedgerDB) (n : Z)
    : LedgerDB * result exec_error Z :=
  match l with
  | [] => (db, Ok n)
  | t :: l' =>
      if closed_on b t then
        match parse_tf (st_timeframe s) with
        | Err e => (db, Err e)
        | Ok tf =>
            match record_trade db (ledger_trade s source tf t now) now with
            | Ok db' => record_closed_trades s source b now l' db' (n + 1)
            | Err e => (db, Err (LedgerFailed e))
            end
        end
      else record_closed_trades s source b now l' db n
  end.

(** [_record_ledger]. *)
Definition record_ledger (s : Strategy) (job : Job) (b : Bar) (r : RunResult) (ci : CallInputs) : X Z := fun w =>
  match x_ledger w with
  | None => (w, Ok 0)
  | Some db =>
      if bool_decide (job_type job = OBSERVE_BAR_PROCESS) then (w, Ok 0)
      else
        let source := if bool_decide (job_type job = LIVE_BAR_PROCESS) then LIVE else PAPER in
        let with_db d := mkExec (x_orch w) (x_disk w) (x_mem w) (Some d) (x_sched w) in
        match record_position s source b r ci db with
        | (db1, Err e) => (with_db db1, Err e)
        | (db1, Ok _) => let '(db2, n) := record_closed_trades s source b (ci_now ci) (rr_closed r) db1 0 in (with_db db2, n)
        end
  end.

(** ** The executor *)

Definition status_value (s : StrategyJobStatus) : string :=
  match s with XDONE => "done" | XFAILED => "failed" | XSKIPPED => "skipped" end.

Definition opt_json {A} (f : A -> json) (o : option A) : json := match o with Some a => f a | None => JNull end.

(** [_result_dict]. *)
Definition result_dict (r : ExecResult) : string :=
  dumps_compact (JObj [("status", JStr (status_value (er_status r))); ("strategy_id", JStr (er_strategy_id r));
    ("bar_time", opt_json (fun z => JNum (pretty z)) (er_bar_time r)); ("snapshot_id", opt_json JStr (er_snapshot_id r));
    ("trades_recorded", JNum (pretty (er_trades r))); ("skipped_reason", opt_json JStr (er_skipped r));
    ("error", opt_json (fun e => JStr (error_text e)) (er_error r))]).

(** The items of an MTF field: those of a list, and what iterating over text or
    a mapping gives, which has no symbol and no timeframe. *)
Definition series_items (v : json) : result exec_error (option (list Request)) :=
  match v with
  | JNull => Ok None
  | JArr items => Ok (Some (map (request_of_json other_text) items))
  | JStr text => Ok (Some (repeat (mkRequest "" "") (String.length text)))
  | JObj l => Ok (Some (repeat (mkRequest "" "") (length l)))
  | JNum _ | JBool _ => Err NotIterable
  end.

(** The MTF requests of the payload must be admissible. *)
Definition admit_series (s : Strategy) (l : list (string * json)) : result exec_error unit :=
  match jget l "mtf_series" with
  | None => Ok tt
  | Some v =>
      let htf := as_text <$> opt_json_truthy (jget l "htf_timeframe") in
      let! series := series_items v in
      match admitted_mtf_requests parse_timeframe (st_symbol s) htf series with Ok _ => Ok tt | Err e => Err (BadSeriesRequest e) end
  end.

(** The strategy and the bar of a job. *)
Definition job_target (reg : RegWorld) (job : Job) : X (Strategy * (Timeframe * Bar)) :=
  do _ <- xlift (validate_job job);
  do l <- xlift (job_payload job);
  do s <- xlift (match get_strategy reg (as_text (required l "strategy_id")) with Ok s => Ok s | Err _ => Err UnknownStrategy end);
  do _ <- xlift (admit_series s l);
  do tb <- load_target_bar s l;
  xret (s, tb).

(** Run, save, record, given the state to resume from. *)
Definition finish_bar (s : Strategy) (tf : Timeframe) (b : Bar) (job : Job) (ci : CallInputs) (resume : option string) : X ExecResult :=
  do r <- xlift (match run_strategy s tf b resume with Ok r => Ok r | Err e => Err (RuntimeRaised e) end);
  let status := str_lower (rr_status r) in
  do _ <- xlift (if existsb (String.eqb status) ["ok"; "completed"] then Ok tt else Err (RuntimeStatus status));
  do snap <- save_runtime_snapshot s tf b r (JobType_value (job_type job)) ci;
  do n <- record_ledger s job b r ci;
  xret (mkExecResult (job_id job) (strategy_id s) XDONE (Some (Coverage.bar_time b)) (snapshot_id <$> snap) n None None).

(** A bar not processed before. *)
Definition run_bar (s : Strategy) (tf : Timeframe) (b : Bar) (job : Job) (ci : CallInputs) : X ExecResult :=
  do _ <- on_sched (fun sc => mark_running sc (job_id job) (ci_now ci));
  do resume <- load_runtime_snapshot s tf (Coverage.bar_time b - 1);
  finish_bar s tf b job ci resume.

(** The body of [process] before its [except]. *)
Definition process_body (reg : RegWorld) (job : Job) (ci : CallInputs) : X ExecResult :=
  do st <- job_target reg job;
  let '(s, (tf, b)) := st in
  do meta <- latest_meta s tf;
  do r <- match meta with
          | Some m =>
              if Coverage.bar_time b <=? StateStore.bar_time m then
                xret (mkExecResult (job_id job) (strategy_id s) XSKIPPED (Some (Coverage.bar_time b)) (Some (snapshot_id m)) 0
                        (Some "already_processed") None)
              else run_bar s tf b job ci
          | None => run_bar s tf b job ci
          end;
  do _ <- on_sched (fun sc => mark_done sc (job_id job) (Some (result_dict r)) (ci_now ci));
  xret r.

(** [process]. *)
Definition process (reg : RegWorld) (job : Job) (ci : CallInputs) (w : Exec) : Exec * ExecResult :=
  match process_body reg job ci w with
  | (w1, Ok r) => (w1, r)
  | (w1, Err e) =>
      (mkExec (x_orch w1) (x_disk w1) (x_mem w1) (x_ledger w1) (mark_failed (x_sched w1) (job_id job) (error_text e) (ci_now ci)),
       mkExecResult (job_id job) (default "" (job_strategy_id job)) XFAILED None None 0 None (Some e))
  end.

(** ** What a call touches *)

Definition with_orch (o : O) (w : Exec) : Exec := mkExec o (x_disk w) (x_mem w) (x_ledger w) (x_sched w).
Definition with_mem (p : Mem) (w : Exec) : Exec := mkExec (x_orch w) (x_disk w) p (x_ledger w) (x_sched w).
Definition with_sched (sc : Scheduler) (w : Exec) : Exec := mkExec (x_orch w) (x_disk w) (x_mem w) (x_ledger w) sc.

Lemma xlift_bind {A B} (r : result exec_error A) (k : A -> X B) w :
  xbind (xlift r) k w = match r with Ok a => k a w | Err e => (w, Err e) end.
Proof. by destruct r. Qed.

Lemma job_target_frame reg job w : exists o, (job_target reg job w).1 = with_orch o w.
Proof.
  assert (Hid : w = with_orch (x_orch w) w) by (by destruct w). unfold job_target.
  rewrite xlift_bind. destruct (validate_job job); [|eauto]. rewrite xlift_bind. destruct (job_payload job) as [l|]; [|eauto].
  rewrite xlift_bind. destruct (get_strategy reg _) as [s|]; [|eauto]. rewrite xlift_bind. destruct (admit_series s l); [|eauto].
  unfold xbind, load_target_bar. destruct (target_query s l) as [q|]; [|eauto]. destruct (stored_bars data (x_orch w) q) as [o [bs|e]].
  - destruct bs as [|b1 [|b2 bs]]; by exists o.
  - by exists o.
Qed.

(** The state store's answer when a bar's job arrives. *)
Definition processed_before (w : Exec) (s : Strategy) (tf : Timeframe) (b : Bar) : option SnapshotMetadata :=
  match (latest_snapshot_metadata (x_disk w) (x_mem w) (strategy_id s) (state_filters s tf None)).2 with
  | Some m => if Coverage.bar_time b <=? StateStore.bar_time m then Some m else None
  | None => None
  end.

Definition skipped_result (job : Job) (s : Strategy) (b : Bar) (m : SnapshotMetadata) : ExecResult :=
  mkExecResult (job_id job) (strategy_id s) XSKIPPED (Some (Coverage.bar_time b)) (Some (snapshot_id m)) 0 (Some "already_processed") None.

(** A bar that was processed before is skipped: besides the job's status,
    nothing is written. *)
Lemma process_skips reg job ci w w1 s tf b m :
  job_target reg job w = (w1, Ok (s, (tf, b))) -> processed_before w s tf b = Some m ->
  let '(w', r) := process reg job ci w in
  r = skipped_result job s b m /\ x_disk w' = x_disk w /\ x_ledger w' = x_ledger w /\
  x_sched w' = mark_done (x_sched w) (job_id job) (Some (result_dict r)) (ci_now ci).
Proof.
  intros Ht Hm. destruct (job_target_frame reg job w) as [o Ho]. rewrite Ht in Ho. simpl in Ho. subst w1.
  unfold process, process_body, xbind. rewrite Ht. unfold latest_meta, processed_before, latest_snapshot_metadata in *.
  simpl in *. destruct (max_by _ _) as [m'|]; [|done].
  destruct (Coverage.bar_time b <=? StateStore.bar_time m') eqn:E; [|done]. injection Hm as ->. done.
Qed.

(** The rest of a call on a bar that was not processed before. *)
Lemma process_runs reg job ci w w1 s tf b :
  job_target reg job w = (w1, Ok (s, (tf, b))) -> processed_before w s tf b = None ->
  exists o, w1 = with_orch o w /\
  process_body reg job ci w =
    xbind (run_bar s tf b job ci) (fun r => xbind (on_sched (fun sc => mark_done sc (job_id job) (Some (result_dict r)) (ci_now ci)))
      (fun _ => xret r)) (with_mem (reload_if_changed (x_disk w) (x_mem w)) w1).
Proof.
  intros Ht Hm. destruct (job_target_frame reg job w) as [o Ho]. rewrite Ht in Ho. simpl in Ho. subst w1. exists o. split; [done|].
  unfold process_body. unfold xbind at 1. rewrite Ht. unfold xbind at 1, latest_meta. cbn [x_disk x_mem with_orch].
  unfold processed_before, latest_snapshot_metadata in *. cbn [fst snd] in *.
  destruct (max_by _ _) as [m'|]; [|reflexivity]. destruct (Coverage.bar_time b <=? StateStore.bar_time m'); [done|reflexivity].
Qed.

Lemma reload_fields (d : @Disk Bytes) p :
  save_policy (reload_if_changed d p) = save_policy p /\ max_snapshots (reload_if_changed d p) = max_snapshots p.
Proof. unfold reload_if_changed, load_metadata_index. case_bool_decide; [done|]. by destruct (index d). Qed.

Lemma reload_idem (d : @Disk Bytes) p : reload_if_changed d (reload_if_changed d p) = reload_if_changed d p.
Proof.
  unfold reload_if_changed at 2 3. case_bool_decide as E; [unfold reload_if_changed; by rewrite bool_decide_eq_true_2|].
  unfold reload_if_changed, load_metadata_index. destruct (index d) eqn:Ei; simpl.
  - by case_bool_decide.
  - by case_bool_decide.
  - by rewrite bool_decide_eq_true_2.
Qed.

(** Loading after the index was looked at already. *)
Lemma load_reloaded s tf t (w w2 : Exec) :
  x_disk w2 = x_disk w -> x_mem w2 = reload_if_changed (x_disk w) (x_mem w) ->
  (load_runtime_snapshot s tf t w2).2 = (load_runtime_snapshot s tf t w).2.
Proof.
  intros Hd Hm. unfold load_runtime_snapshot, load_latest_compatible, latest_snapshot_metadata. rewrite Hd, Hm, reload_idem.
  cbn [fst snd]. destruct (max_by _ _) as [m|]; [|done]. by destruct (load_state _ _ _ _) as [[?|]|].
Qed.

Lemma record_ledger_frame s job b r ci w :
  let '(w', res) := record_ledger s job b r ci w in
  x_disk w' = x_disk w /\ x_mem w' = x_mem w /\ x_sched w' = x_sched w /\ x_orch w' = x_orch w /\
  match res with Err (SnapshotFailed _ | RuntimeRaised _ | RuntimeStatus _) => False | _ => True end.
Proof.
  assert (Hp : forall source db, match record_position s source b r ci db with (_, Err (LedgerFailed _ | BadTimeframeText)) | (_, Ok _) => True | _ => False end).
  { intros source db. unfold record_position, parse_tf. destruct (position_of py_sum r); [|done].
    destruct (parse_timeframe _); [|done]. by destruct (upsert_position _ _ _) as [[? ?]|]. }
  assert (Hc : forall source l db n, match record_closed_trades s source b (ci_now ci) l db n with
                                     | (_, Err (LedgerFailed _ | BadTimeframeText)) | (_, Ok _) => True | _ => False end).
  { intros source l. induction l as [|t l IH]; intros db n; simpl; [done|]. destruct (closed_on b t); [|apply IH].
    unfold parse_tf. destruct (parse_timeframe _); [|done]. destruct (record_trade _ _ _); [apply IH|done]. }
  unfold record_ledger. destruct (x_ledger w) as [db|]; [|done]. case_bool_decide; [done|].
  set (source := if bool_decide _ then LIVE else PAPER). specialize (Hp source db). destruct (record_position s source b r ci db) as [db1 [u|e]].
  - specialize (Hc source (rr_closed r) db1 0). destruct (record_closed_trades _ _ _ _ _ _ _) as [db2 [n|e]]; split_and!; try done. by destruct e.
  - split_and!; try done. by destruct e.
Qed.

(** How far a bar's run went when it returned, or failed only in the ledger. *)
Definition past_save {A} (res : result exec_error A) : Prop :=
  match res with Ok _ | Err (LedgerFailed _) => True | _ => False end.

Lemma finish_bar_saved s tf b job ci resume w w' res :
  finish_bar s tf b job ci resume w = (w', res) -> save_policy (x_mem w) = EVERY_BAR -> past_save res ->
  exists rr meta, run_strategy s tf b resume = Ok rr /\
    save_snapshot encode sha256 byte_size (x_disk w) (x_mem w) (runtime_state s tf b rr (ci_now ci)) (JobType_value (job_type job)) false None
      (ci_snapshot_id ci) (ci_now ci) (ci_stat ci) = (x_disk w', x_mem w', Ok (Some meta)).
Proof.
  intros E Hpol Hp. unfold finish_bar in E. rewrite xlift_bind in E.
  destruct (run_strategy s tf b resume) as [rr|e] eqn:Er; [|by injection E as <- <-]. exists rr.
  rewrite xlift_bind in E. destruct (existsb _ _); [|by injection E as <- <-]. unfold xbind at 1, save_runtime_snapshot in E.
  destruct (save_snapshot _ _ _ _ _ _ _ _ _ _ _ _) as [[d p] sres] eqn:Es.
  assert (exists m, sres = Ok m) as [m ->] by (destruct sres; [eauto|by injection E as <- <-]).
  assert (exists meta, m = Some meta) as [meta ->].
  { unfold save_snapshot, interval_skips in Es. rewrite bool_decide_eq_false_2 in Es by congruence. cbn [andb] in Es.
    destruct (encode _) as [[packed enc]|]; [|done]. destruct (negb _); [done|]. destruct (commit_snapshot _ _ _ _).
    injection Es as _ _ <-. eauto. }
  exists meta. split; [done|]. cbn in E. unfold xbind in E.
  match type of E with context [record_ledger ?s ?j ?b ?r ?c ?w1] => pose proof (record_ledger_frame s j b r c w1) as Hf;
    destruct (record_ledger s j b r c w1) as [w2 [n|e]] end;
    destruct Hf as (Hd & Hm & _); cbn in Hd, Hm; injection E as <- <-; by rewrite Hd, Hm.
Qed.

Lemma run_bar_saved s tf b job ci w w' res :
  run_bar s tf b job ci w = (w', res) -> save_policy (x_mem w) = EVERY_BAR -> past_save res ->
  exists resume rr meta p,
    (load_runtime_snapshot s tf (Coverage.bar_time b - 1) w).2 = Ok resume /\ run_strategy s tf b resume = Ok rr /\
    save_snapshot encode sha256 byte_size (x_disk w) p (runtime_state s tf b rr (ci_now ci)) (JobType_value (job_type job)) false None
      (ci_snapshot_id ci) (ci_now ci) (ci_stat ci) = (x_disk w', x_mem w', Ok (Some meta)) /\
    max_snapshots p = max_snapshots (x_mem w).
Proof.
  intros E Hpol Hp. unfold run_bar in E. unfold xbind at 1, on_sched in E. unfold xbind at 1, load_runtime_snapshot in E.
  unfold load_runtime_snapshot. unfold load_latest_compatible, latest_snapshot_metadata in *. cbn [x_disk x_mem fst snd] in *.
  set (p := reload_if_changed (x_disk w) (x_mem w)) in *. destruct (reload_fields (x_disk w) (x_mem w)) as [Hpp Hpm]. fold p in Hpp, Hpm.
  set (loaded := match max_by _ _ with Some m => _ | None => _ end) in *.
  destruct loaded as [[st|]|e]; [| |by injection E as <- <-];
    (apply finish_bar_saved in E as (rr & meta & Hr & Hs); [|simpl; congruence|done]); cbn [x_disk x_mem] in Hs; eexists _, rr, meta, p; by split_and!.
Qed.

(** ** Each bar once *)

(** What identifies a strategy's states. *)
Definition same_config (s s' : Strategy) : Prop :=
  strategy_id s' = strategy_id s /\ Registry.artifact_id s' = Registry.artifact_id s /\
  Registry.params_hash s' = Registry.params_hash s /\ state_instrument s' = state_instrument s.

(** A snapshot of a strategy passes the filters of the same configuration. *)
Lemma filters_match s s2 tf tf2 before m :
  same_config s s2 -> canonical tf2 = canonical tf -> sm_status m = "active" -> StateStore.artifact_id m = Registry.artifact_id s ->
  StateStore.params_hash m = Registry.params_hash s -> StateStore.instrument_key m = state_instrument s ->
  sm_timeframe m = state_timeframe tf ->
  meta_matches (state_filters s2 tf2 before) m = match before with None => true | Some t => StateStore.bar_time m <=? t end.
Proof.
  intros (_ & Ha & Hh & Hi) Htf Hact Ea Eh Ei Et. unfold meta_matches, state_filters, opt_match.
  cbn [f_artifact_id f_params_hash f_instrument_key f_timeframe f_data_fingerprint f_at_or_before].
  unfold state_timeframe in *. rewrite Ha, Hh, Hi, Htf, Ea, Eh, Ei, Et, Hact. by rewrite !bool_decide_eq_true_2.
Qed.

Section Once.

Context (reg : RegWorld) (job : Job) (ci : CallInputs) (w w1 w' : Exec) (res : ExecResult) (s : Strategy) (tf : Timeframe) (b : Bar).
Hypothesis Htarget : job_target reg job w = (w1, Ok (s, (tf, b))).
Hypothesis Hfresh : processed_before w s tf b = None.
Hypothesis Hprocess : process reg job ci w = (w', res).
Hypothesis Hpolicy : save_policy (x_mem w) = EVERY_BAR.
Hypothesis Hmax : 1 <= max_snapshots (x_mem w).
Hypothesis Hindex : index (x_disk w) <> IndexBad.
(** The strategy's stored snapshots are of earlier bars. *)
Hypothesis Hnewest :
  Forall (fun m => pair_leb (Coverage.bar_time b, ci_now ci) (meta_key m) = false /\ snapshot_id m <> ci_snapshot_id ci)
    (of_strategy (strategy_id s) (index_entries (x_disk w))).

Lemma process_saved :
  er_status res = XDONE \/ (exists e, er_error res = Some (LedgerFailed e)) ->
  exists resume rr meta p,
    (load_runtime_snapshot s tf (Coverage.bar_time b - 1) (with_mem (reload_if_changed (x_disk w) (x_mem w)) w1)).2 = Ok resume /\
    run_strategy s tf b resume = Ok rr /\
    save_snapshot encode sha256 byte_size (x_disk w) p (runtime_state s tf b rr (ci_now ci)) (JobType_value (job_type job)) false None
      (ci_snapshot_id ci) (ci_now ci) (ci_stat ci) = (x_disk w', x_mem w', Ok (Some meta)) /\ 1 <= max_snapshots p.
Proof.
  intros Hres. destruct (process_runs reg job ci w w1 s tf b Htarget Hfresh) as (o & Ho & Hbody).
  destruct (reload_fields (x_disk w) (x_mem w)) as [Hpp Hpm]. set (w2 := with_mem _ w1) in *.
  unfold process in Hprocess. rewrite Hbody in Hprocess. unfold xbind, on_sched, xret in Hprocess.
  destruct (run_bar s tf b job ci w2) as [w3 r3] eqn:Erun.
  assert (Hpast : past_save r3 /\ x_disk w' = x_disk w3 /\ x_mem w' = x_mem w3).
  { destruct r3 as [r|e]; injection Hprocess as <- <-; simpl in *; [done|]. destruct Hres as [|[e' [= ->]]]; done. }
  destruct Hpast as (Hpast & Hd & Hm). destruct (run_bar_saved s tf b job ci w2 w3 r3 Erun) as (resume & rr & meta & p & H1 & H2 & H3 & H4);
    [simpl; congruence|done|].
  assert (Hdisk : x_disk w2 = x_disk w) by (unfold w2; by rewrite Ho).
  assert (Hmem : max_snapshots (x_mem w2) = max_snapshots (x_mem w)) by (unfold w2; simpl; exact Hpm).
  exists resume, rr, meta, p. rewrite Hd, Hm, <- Hdisk. split_and!; try done. lia.
Qed.

(** The disk of a later time: in the meantime any processes have opened their
    stores, saved, deleted, invalidated and read, but nobody saved or
    invalidated this strategy's states or deleted the bar's snapshot. *)
Definition later_disk (w2 : Exec) : Prop :=
  exists evs stores, Forall (fun x => spares_snapshot (strategy_id s) (ci_snapshot_id ci) x.2) evs /\
    x_disk w2 = (fold_left (system_exec encode sha256 byte_size) evs (x_disk w', stores)).1.

(** A view of the index that is out of date, and is read again, or that has
    this strategy's entries as the saving process left them. *)
Definition fresh_view (w2 : Exec) : Prop :=
  index_signature (x_mem w2) <> index_stat (x_disk w2) \/
  dget (snapshots (x_mem w2)) (strategy_id s) = dget (snapshots (x_mem w')) (strategy_id s).

(** Whoever looks later finds the bar processed. *)
Lemma later_seen reg2 job2 w2 w3 s2 tf2 b2 :
  er_status res = XDONE \/ (exists e, er_error res = Some (LedgerFailed e)) ->
  job_target reg2 job2 w2 = (w3, Ok (s2, (tf2, b2))) ->
  later_disk w2 -> fresh_view w2 ->
  same_config s s2 -> canonical tf2 = canonical tf -> Coverage.bar_time b2 <= Coverage.bar_time b ->
  exists m, processed_before w2 s2 tf2 b2 = Some m.
Proof.
  intros Hres Ht2 Hd2 Hm2 Hc Htf Hb. pose proof (proj1 Hc) as Hid. destruct (process_saved Hres) as (resume & rr & meta & p & _ & _ & Hs & Hp).
  pose proof (saved_on_top encode sha256 byte_size _ _ _ _ _ _ _ _ _ _ _ Hindex Hp Hs Hnewest) as (_ & _ & older & _ & _ & _ & Htop & _).
  pose proof (saved_kept encode sha256 byte_size _ _ _ _ _ _ _ _ _ _ _ Hindex Hp Hs Hnewest) as Hkept.
  destruct (save_snapshot_spec _ _ _ _ _ _ _ _ _ _ _ _ _ _ Hs) as (_ & _ & _ & _ & _ & Hsid & Hsm & Hk & Hact & _ & _ & Ea & Eh & Ei & Et & _).
  change (sm_strategy_id meta = strategy_id s) in Hsm. change (dget (snapshots (x_mem w')) (strategy_id s) = Some (older ++ [meta])) in Htop.
  destruct Hd2 as (evs & stores & Hev & Hd2). rewrite <-Hsm, <-Hsid in Hev.
  apply (system_keeps encode sha256 byte_size meta evs (x_disk w', stores) Hev) in Hkept. rewrite <-Hd2 in Hkept.
  destruct (kept_found meta (x_disk w2) (x_mem w2) (state_filters s2 tf2 None) Hkept) as (m' & Hm' & Hle).
  - destruct Hm2 as [|Hm2]; [by left|]. right. rewrite Hsm, Hm2, Htop. simpl. apply elem_of_app. right. by left.
  - by rewrite (filters_match s s2 tf tf2).
  - exists m'. unfold processed_before. rewrite Hid, <-Hsm, Hm'. rewrite (proj2 (Z.leb_le _ _)); [done|].
    rewrite Hk in Hle. unfold pair_leb in Hle. simpl in Hle. lia.
Qed.

(** C19: each bar once.  [process] has reported a bar done, under the policy
    that saves after every bar and a maximum of at least one snapshot, in a
    store with a readable index whose snapshots of the strategy are of earlier
    bars.  Then a later job for that bar or an earlier one, of a strategy with
    the same configuration on the same timeframe - a redelivery, another worker,
    another process - is skipped: nothing is run, the snapshots and the ledger
    stay as they are, and the job is marked done.  In between, any processes
    may use the store in whatever way, but for the strategy's own states being
    saved or invalidated and the bar's snapshot deleted; and the later job's
    view of the index is out of date or has the strategy's entries as the
    first job left them. *)
Theorem bar_processed_once reg2 job2 ci2 w2 w3 s2 tf2 b2 :
  er_status res = XDONE ->
  job_target reg2 job2 w2 = (w3, Ok (s2, (tf2, b2))) ->
  later_disk w2 -> fresh_view w2 ->
  same_config s s2 -> canonical tf2 = canonical tf -> Coverage.bar_time b2 <= Coverage.bar_time b ->
  let '(w4, r) := process reg2 job2 ci2 w2 in
  er_status r = XSKIPPED /\ er_trades r = 0 /\ x_disk w4 = x_disk w2 /\ x_ledger w4 = x_ledger w2 /\
  x_sched w4 = mark_done (x_sched w2) (job_id job2) (Some (result_dict r)) (ci_now ci2).
Proof.
  intros Hd Ht2 Hd2 Hm2 Hc Htf Hb. destruct (later_seen reg2 job2 w2 w3 s2 tf2 b2 (or_introl Hd) Ht2 Hd2 Hm2 Hc Htf Hb) as [m Hm].
  pose proof (process_skips reg2 job2 ci2 w2 w3 s2 tf2 b2 m Ht2 Hm) as H. destruct (process reg2 job2 ci2 w2) as [w4 r].
  destruct H as (-> & ? & ? & ?). by split_and!.
Qed.

(** A failure in the ledger is not made good.  The snapshot is saved before the
    trades are recorded; if recording fails, the job is reported failed, but
    every later attempt at the bar is skipped as already processed, so its
    trades and its position never reach the ledger. *)
Theorem ledger_failure_not_retried e reg2 job2 ci2 w2 w3 s2 tf2 b2 :
  er_error res = Some (LedgerFailed e) ->
  job_target reg2 job2 w2 = (w3, Ok (s2, (tf2, b2))) ->
  later_disk w2 -> fresh_view w2 ->
  same_config s s2 -> canonical tf2 = canonical tf -> Coverage.bar_time b2 <= Coverage.bar_time b ->
  let '(w4, r) := process reg2 job2 ci2 w2 in er_status r = XSKIPPED /\ x_ledger w4 = x_ledger w2.
Proof.
  intros He Ht2 Hd2 Hm2 Hc Htf Hb.
  destruct (later_seen reg2 job2 w2 w3 s2 tf2 b2 (or_intror (ex_intro _ e He)) Ht2 Hd2 Hm2 Hc Htf Hb) as [m Hm].
  pose proof (process_skips reg2 job2 ci2 w2 w3 s2 tf2 b2 m Ht2 Hm) as H. destruct (process reg2 job2 ci2 w2) as [w4 r].
  destruct H as (-> & ? & ? & ?). by split_and!.
Qed.

(** Bars chain.  After a bar was reported done, the next bar of the strategy is
    run from exactly the state that bar's run exported, whichever process takes
    it up. *)
Theorem next_bar_resumes w2 s2 tf2 t :
  (forall resume rr, run_strategy s tf b resume = Ok rr ->
     survives encode decode (runtime_state s tf b rr (ci_now ci)) None) ->
  er_status res = XDONE ->
  x_disk w2 = x_disk w' -> index_signature (x_mem w2) <> Some (ci_stat ci) \/ x_mem w2 = x_mem w' ->
  same_config s s2 -> canonical tf2 = canonical tf -> Coverage.bar_time b <= t ->
  exists resume rr, run_strategy s tf b resume = Ok rr /\
    (load_runtime_snapshot s2 tf2 t w2).2 = Ok (text_state (state_text (rr_resume rr))).
Proof.
  intros Hdec Hd Hd2 Hm2 Hc Htf Hb. pose proof (proj1 Hc) as Hid. destruct (process_saved (or_introl Hd)) as (resume & rr & meta & p & _ & Hrun & Hs & Hp).
  exists resume, rr. split; [done|].
  pose proof (saved_is_latest encode sha256 byte_size _ _ _ _ _ _ _ _ _ _ _ Hindex Hp Hs (x_mem w2) (state_filters s2 tf2 (Some t)) Hnewest Hm2) as Hl.
  pose proof (saved_loads encode decode sha256 byte_size _ _ _ _ _ _ _ _ _ _ _ Hindex Hp Hs (Hdec _ _ Hrun) Hnewest) as Hload.
  destruct (save_snapshot_spec _ _ _ _ _ _ _ _ _ _ _ _ _ _ Hs) as (_ & _ & _ & _ & _ & _ & _ & Hk & Hact & _ & _ & Ea & Eh & Ei & Et & _).
  change (st_strategy_id _) with (strategy_id s) in Hl. injection Hk as Hbt _. simpl in Hbt.
  unfold load_runtime_snapshot, load_latest_compatible. rewrite Hd2, Hid.
  destruct (latest_snapshot_metadata (x_disk w') (x_mem w2) (strategy_id s) (state_filters s2 tf2 (Some t))) as [q o]. simpl in Hl.
  rewrite Hl; [by rewrite Hload|].
  rewrite (filters_match s s2 tf tf2), Hbt by done. by apply Z.leb_le.
Qed.

(** A bar newer than the one reported done is not skipped. *)
Lemma newer_not_seen w2 s2 tf2 b2 :
  er_status res = XDONE ->
  x_disk w2 = x_disk w' -> index_signature (x_mem w2) <> Some (ci_stat ci) \/ x_mem w2 = x_mem w' ->
  same_config s s2 -> canonical tf2 = canonical tf -> Coverage.bar_time b < Coverage.bar_time b2 ->
  processed_before w2 s2 tf2 b2 = None.
Proof.
  intros Hd Hd2 Hm2 Hc Htf Hb. pose proof (proj1 Hc) as Hid. destruct (process_saved (or_introl Hd)) as (resume & rr & meta & p & _ & _ & Hs & Hp).
  pose proof (saved_is_latest encode sha256 byte_size _ _ _ _ _ _ _ _ _ _ _ Hindex Hp Hs (x_mem w2) (state_filters s2 tf2 None) Hnewest Hm2) as Hl.
  destruct (save_snapshot_spec _ _ _ _ _ _ _ _ _ _ _ _ _ _ Hs) as (_ & _ & _ & _ & _ & _ & _ & Hk & Hact & _ & _ & Ea & Eh & Ei & Et & _).
  change (st_strategy_id _) with (strategy_id s) in Hl. unfold processed_before. rewrite Hd2, Hid, Hl.
  - injection Hk as Hbt _. simpl in Hbt. rewrite Hbt. by rewrite (proj2 (Z.leb_gt _ _) Hb).
  - by rewrite (filters_match s s2 tf tf2).
Qed.

(** The isolated runtime stops after one bar.  It refuses to resume from a
    state, and the executor hands it the state that the previous bar exported:
    once a bar was done, the job of every later bar of the strategy fails. *)
Theorem isolated_runtime_stops reg2 job2 ci2 w2 w3 s2 tf2 b2 :
  (forall resume rr, run_strategy s tf b resume = Ok rr ->
     survives encode decode (runtime_state s tf b rr (ci_now ci)) None) ->
  (forall s tf b x, run_strategy s tf b (Some x) = Err "RESUME_UNSUPPORTED_FOR_WORKER_PROTOCOL") ->
  (forall resume rr, run_strategy s tf b resume = Ok rr -> exists rs, rr_resume rr = Some rs /\ rs_text rs <> "null") ->
  er_status res = XDONE -> job_target reg2 job2 w2 = (w3, Ok (s2, (tf2, b2))) ->
  x_disk w2 = x_disk w' -> index_signature (x_mem w2) <> Some (ci_stat ci) \/ x_mem w2 = x_mem w' ->
  same_config s s2 -> canonical tf2 = canonical tf -> Coverage.bar_time b < Coverage.bar_time b2 ->
  er_error (process reg2 job2 ci2 w2).2 = Some (RuntimeRaised "RESUME_UNSUPPORTED_FOR_WORKER_PROTOCOL").
Proof.
  intros Hdec Hiso Hexp Hd Ht2 Hd2 Hm2 Hc Htf Hb.
  destruct (process_runs reg2 job2 ci2 w2 w3 s2 tf2 b2 Ht2 (newer_not_seen w2 s2 tf2 b2 Hd Hd2 Hm2 Hc Htf Hb)) as (o & -> & Hbody).
  destruct (next_bar_resumes w2 s2 tf2 (Coverage.bar_time b2 - 1) Hdec Hd Hd2 Hm2 Hc Htf ltac:(lia)) as (resume & rr & Hrun & Hload).
  destruct (Hexp resume rr Hrun) as (rs & Hrs & Hnull). rewrite Hrs in Hload. unfold text_state in Hload. simpl in Hload.
  rewrite bool_decide_eq_false_2 in Hload by done.
  unfold process. rewrite Hbody. unfold xbind at 1, run_bar, on_sched. unfold xbind at 1. cbv beta iota. set (w4 := mkExec _ _ _ _ _).
  rewrite <- (load_reloaded s2 tf2 (Coverage.bar_time b2 - 1) w2 w4) in Hload by done. unfold xbind at 1.
  destruct (load_runtime_snapshot s2 tf2 (Coverage.bar_time b2 - 1) w4) as [w5 r5]. simpl in Hload. subst r5.
  unfold finish_bar. rewrite xlift_bind, Hiso. done.
Qed.

End Once.

(** ** Every job is answered *)

Lemma run_bar_sched s tf b job ci w :
  let '(w', res) := run_bar s tf b job ci w in
  x_sched w' = mark_running (x_sched w) (job_id job) (ci_now ci) /\ match res with Ok r => er_status r = XDONE /\ er_error r = None | Err _ => True end.
Proof.
  unfold run_bar, on_sched. unfold xbind at 1, load_runtime_snapshot. unfold xbind at 1. cbn [x_disk x_mem].
  destruct (load_latest_compatible _ _ _ _ _ _) as [p [[st|]|e]]; [| |done].
  1, 2: unfold finish_bar; rewrite xlift_bind; destruct (run_strategy _ _ _ _) as [rr|e]; [|done];
    rewrite xlift_bind; destruct (existsb _ _); [|done]; unfold xbind at 1, save_runtime_snapshot;
    destruct (save_snapshot _ _ _ _ _ _ _ _ _ _ _ _) as [[d q] [m|e]]; [|done]; cbn; unfold xbind;
    match goal with |- context [record_ledger ?s ?j ?b ?r ?c ?w1] => pose proof (record_ledger_frame s j b r c w1) as Hf;
      destruct (record_ledger s j b r c w1) as [w2 [n|e]] end; destruct Hf as (_ & _ & Hsc & _); (split; [exact Hsc|done]).
Qed.

(** What a call does to the scheduler. *)
Lemma process_sched reg job ci w :
  let '(w', r) := process reg job ci w in
  exists sc, (sc = x_sched w \/ sc = mark_running (x_sched w) (job_id job) (ci_now ci)) /\
    x_sched w' = match er_error r with
                 | Some e => mark_failed sc (job_id job) (error_text e) (ci_now ci)
                 | None => mark_done sc (job_id job) (Some (result_dict r)) (ci_now ci)
                 end /\ (er_status r = XFAILED <-> is_Some (er_error r)).
Proof.
  destruct (job_target_frame reg job w) as [o Ho]. unfold process. destruct (job_target reg job w) as [w1 [[s [tf b]]|e]] eqn:Ht; simpl in Ho.
  2: { unfold process_body, xbind. rewrite Ht. exists (x_sched w). subst w1. simpl. split; [by left|]. split; [done|]. split; [eauto|done]. }
  destruct (processed_before w s tf b) as [m|] eqn:Hm.
  - pose proof (process_skips reg job ci w w1 s tf b m Ht Hm) as H. unfold process in H.
    destruct (process_body reg job ci w) as [w' [r|e]]; destruct H as (Hr & _ & _ & Hs); [|by simplify_eq].
    exists (x_sched w). split; [by left|]. rewrite Hr in Hs |- *. split; [exact Hs|]. split; [done|by intros [? [=]]].
  - destruct (process_runs reg job ci w w1 s tf b Ht Hm) as (o' & Hw1 & ->). unfold xbind, on_sched, xret.
    match goal with |- context [run_bar s tf b job ci ?w2] => pose proof (run_bar_sched s tf b job ci w2) as Hs;
      destruct (run_bar s tf b job ci w2) as [w3 [r|e]] end; destruct Hs as [Hs Hst]; rewrite Hw1 in Hs; simpl in *.
    + destruct Hst as [Hst He]. exists (x_sched w3). rewrite He, Hst. split; [right; done|]. split; [done|]. split; [done|by intros [? [=]]].
    + exists (x_sched w3). split; [by right|]. split; [done|]. split; [eauto|done].
Qed.

Lemma get_finish sc jid ref j f : dget (jobs sc) jid = Some ref -> objects sc !! ref = Some j ->
  get_job (finish sc jid ref f) jid = Some (f j).
Proof.
  intros Hd Ho. unfold finish. rewrite Ho. unfold free_key, get_job.
  assert (H : forall sc', jobs sc' = jobs sc -> objects sc' = alter f ref (objects sc) ->
    (ref ← dget (jobs sc') jid; objects sc' !! ref) = Some (f j)).
  { intros sc' -> ->. rewrite Hd. simpl. by rewrite list_lookup_alter_eq, Ho. }
  destruct (opt_truthy _); [case_bool_decide|]; by apply H.
Qed.

Lemma get_mark_running sc jid now j : get_job sc jid = Some j -> get_job (mark_running sc jid now) jid = Some (set_running now j).
Proof.
  unfold get_job at 1, mark_running. destruct (dget (jobs sc) jid) as [ref|] eqn:Hd; [|done]. simpl. intros Ho.
  rewrite list_lookup_alter_eq, Ho. simpl. unfold get_job.
  destruct (opt_truthy _); simpl; rewrite Hd; simpl; by rewrite list_lookup_alter_eq, Ho.
Qed.

(** Every job is answered.  Whatever the job asks for and whatever fails on the
    way, [process] returns, and the scheduler's job ends as the result says:
    failed with the error's text, or done with the result's dictionary. *)
Theorem job_always_answered reg job ci w j :
  get_job (x_sched w) (job_id job) = Some j ->
  let '(w', r) := process reg job ci w in
  exists j', get_job (x_sched w') (job_id job) = Some j' /\ finished_at j' = Some (ci_now ci) /\
    match er_error r with
    | Some e => er_status r = XFAILED /\ job_status j' = JFAILED /\ job_error j' = Some (error_text e)
    | None => er_status r <> XFAILED /\ job_status j' = JDONE /\ job_result j' = Some (result_dict r)
    end.
Proof.
  intros Hj. pose proof (process_sched reg job ci w) as H. destruct (process reg job ci w) as [w' r].
  destruct H as (sc & Hsc & Hs & Hst). rewrite Hs.
  assert (exists j0, get_job sc (job_id job) = Some j0) as [j0 Hj0] by (destruct Hsc as [->| ->]; [eauto|by eexists; apply get_mark_running]).
  unfold get_job in Hj0. destruct (dget (jobs sc) (job_id job)) as [ref|] eqn:Hd; [|done]. simpl in Hj0.
  destruct (er_error r) as [e|]; unfold mark_done, mark_failed; rewrite Hd; (eexists; split; [by apply get_finish|]); simpl;
    (split; [done|]).
  - split_and!; [apply Hst; eauto|done..].
  - split_and!; [|done..]. intros [? [=]]%Hst.
Qed.

(** ** The jobs of the fan-out *)

(** [_enqueue_strategy_job]: the input of a job. *)
Definition fanout_fields (series : list MtfSeriesKey) (s : StrategyInstance) (b : MarketBar) (k : RawMarketKey) (cfg : FanoutConfig)
    : list (string * json) :=
  [("strategy_id", JStr (si_strategy_id s)); ("artifact_id", JStr (si_artifact_id s));
   ("params_hash", JStr (si_params_hash s)); ("instrument_key", JStr (Fanout.instrument_key k));
   ("timeframe", JStr (canonical (mb_timeframe b))); ("bar_time", JNum (pretty (Coverage.bar_time (mb_bar b))));
   ("bar_close_time", JNum (pretty (bar_time_close (mb_bar b)))); ("source", JStr (fo_source cfg));
   ("mtf_series", JArr (map key_json series))].

Definition fanout_input (series : list MtfSeriesKey) (s : StrategyInstance) (b : MarketBar) (k : RawMarketKey) (cfg : FanoutConfig) : string :=
  dumps_compact (JObj (fanout_fields series s b k cfg)).

Lemma fanout_plain series s b k cfg : plain (JObj (fanout_fields series s b k cfg)) = true.
Proof.
  assert (Hs : forallb plain (map key_json series) = true) by (induction series; simpl; [done|]; by rewrite IHseries).
  cbn [fanout_fields plain forallb snd]. rewrite Hs.
  by rewrite (proj1 (literal_pretty (Coverage.bar_time (mb_bar b)))), (proj1 (literal_pretty (bar_time_close (mb_bar b)))).
Qed.

Lemma nonzero_pretty z : 0 < z -> nonzero_literal (pretty z) = true.
Proof.
  intros Hz. destruct z as [|p|p]; [lia| |lia]. change (pretty (Z.pos p)) with (pretty_N_go (N.pos p) "").
  destruct (pretty_pos (N.pos p) "" ltac:(lia) eq_refl) as (c & t & -> & Hc & H0 & _). cbn [nonzero_literal]. rewrite Hc, H0.
  destruct (Ascii.eqb c "e"%char) eqn:E1; [by apply Ascii.eqb_eq in E1; subst|].
  destruct (Ascii.eqb c "E"%char) eqn:E2; [by apply Ascii.eqb_eq in E2; subst|]. done.
Qed.

Definition no_colon (s : string) : bool := str_forall (fun c => negb (Ascii.eqb c ":"%char)) s.

Lemma split_no_colon a rest : no_colon a = true -> split_on ":"%char (a +:+ ":" +:+ rest) = a :: split_on ":"%char rest.
Proof.
  induction a as [|c a IH]; [done|]. cbn [no_colon str_forall]. intros [Hc Ha]%andb_true_iff.
  change ((String c a) +:+ ":" +:+ rest) with (String c (a +:+ ":" +:+ rest)). cbn [split_on].
  destruct (Ascii.eqb c ":"%char); [done|]. by rewrite IH.
Qed.

(** The executor understands the fan-out's jobs.  From the input written for a
    strategy, a bar and a market whose names hold no colon, [process] reads back
    that strategy's identifier, and loads exactly that bar: the query names the
    market, the bar's timeframe and the interval from its opening to its close. *)
Theorem fanout_job_understood s series mb k cfg job tf :
  job_input job = Some (fanout_input series (to_instance s) mb k cfg) ->
  job_type job = job_type_for_mode (st_mode s) ->
  no_colon (mk_exchange k) = true -> no_colon (mk_market_type k) = true -> no_colon (mk_symbol k) = true ->
  parse_timeframe (canonical (mb_timeframe mb)) = Some tf -> 0 < bar_time_close (mb_bar mb) ->
  exists l, validate_job job = Ok tt /\ job_payload job = Ok l /\ as_text (required l "strategy_id") = strategy_id s /\
    target_query s l = Ok (mkQuery (mk_exchange k) (mk_market_type k) (mk_symbol k) tf (Coverage.bar_time (mb_bar mb))
                             (bar_time_close (mb_bar mb)) "storage" "fail").
Proof.
  intros Hin Hty He Hm Hs Htf Hclose. set (l := fanout_fields series (to_instance s) mb k cfg).
  assert (Hpay : job_payload job = Ok l).
  { unfold job_payload. rewrite Hin. unfold fanout_input. rewrite loads_dumps_compact by apply fanout_plain. reflexivity. }
  exists l. split_and!; [|done|reflexivity|].
  - unfold validate_job. rewrite Hty, Hpay. unfold job_type_for_mode. by repeat case_bool_decide.
  - unfold target_query, instrument_from_payload.
    change (jget l "instrument_key") with (Some (JStr (Fanout.instrument_key k))).
    change (jget l "bar_close_time") with (Some (JNum (pretty (bar_time_close (mb_bar mb))))).
    change (required l "timeframe") with (JStr (canonical (mb_timeframe mb))).
    change (required l "bar_time") with (JNum (pretty (Coverage.bar_time (mb_bar mb)))).
    assert (Hraw : match opt_json_truthy (Some (JStr (Fanout.instrument_key k))) with Some v => as_text v | None => "" end = Fanout.instrument_key k).
    { simpl. unfold str_truthy. by case_bool_decide as E; [rewrite E|]. }
    rewrite Hraw. unfold Fanout.instrument_key. rewrite !split_no_colon by done. cbn [as_text]. rewrite Htf.
    unfold as_int. rewrite (proj2 (literal_pretty (Coverage.bar_time (mb_bar mb)))). cbn [result_bind opt_json_truthy mbind option_bind json_truthy].
    rewrite nonzero_pretty by done. by rewrite (proj2 (literal_pretty (bar_time_close (mb_bar mb)))).
Qed.

End Executor.

(** ** The isolated runtime *)

(** A run whose worker emitted no intent is refused. *)
Definition live_tape (r : RunResult) (tape : list json) : result string RunResult :=
  if bool_decide (length tape = 0%nat) then Err "live pinelib tape is empty" else Ok r.

(** The guards of [run_isolated_artifact] around the worker session, whose
    result and intents are [session]. *)
Definition run_isolated_artifact (session : result string (RunResult * list json)) (resume : option string) : result string RunResult :=
  match resume with
  | Some _ => Err "RESUME_UNSUPPORTED_FOR_WORKER_PROTOCOL"
  | None => let! ' (r, tape) := session in live_tape r tape
  end.

(** ** Witnesses *)

Definition x_parse (s : string) : option Timeframe := if bool_decide (s = "1m") then Some (mkTimeframe "1m" (Some 60%positive)) else None.

Definition x_strategy : Strategy :=
  mkStrat "s1" "one" "p" "a" "{}" "h" "BTCUSDT" "1m" "binance" "usdm" "trade" "paper" true false "running" 0 0 None "[]".

Definition x_reg : RegWorld := mkRegWorld (mkDB [x_strategy] (Some (mkCircuit false None 0)) []) None.

Definition x_data : BarSource unit :=
  mkBarSource unit (fun o _ _ => (o, Ok tt)) (fun o q => (o, Ok [w_bar (start_ms q)])).

Definition x_market : RawMarketKey := mkMarketKey "binance" "usdm" "BTCUSDT" "trade".

Definition x_mbar (t : Z) : MarketBar := mkMarketBar "binance" "usdm" "BTCUSDT" (mkTimeframe "1m" (Some 60%positive)) (w_bar t).

Definition x_job (id : string) (t : Z) : Job :=
  mkJob PAPER_BAR_PROCESS id (Some "s1") JPENDING None (Some "s1") 50 0 0 None None None None
    (Some (fanout_input [] (to_instance x_strategy) (x_mbar t) x_market w_cfg)) None None 0 3.

Definition x_trade (t : Z) (qty : float) : ClosedTrade :=
  mkClosedTrade (JStr "t") None None "long" t (Some t) f_zero None qty None None None None.

(** A runtime that closes one trade per bar, of the given quantity. *)
Definition x_run (qty : float) (s : Strategy) (tf : Timeframe) (b : Bar) (resume : option string) : result string RunResult :=
  Ok (mkRun "ok" (Some (mkResume ("state" +:+ pretty (Coverage.bar_time b)) None)) [] None [x_trade (Coverage.bar_time b) qty]).

Definition x_isolated (s : Strategy) (tf : Timeframe) (b : Bar) : option string -> result string RunResult :=
  run_isolated_artifact (let! r := x_run f_zero s tf b None in Ok (r, [JNull])).

Definition x_trade_id (sid : string) (source : LedgerSource) (t : ClosedTrade) : string := sid +:+ ":" +:+ pretty (ct_entry_time t).

Definition x_inputs (n : Z) : CallInputs := mkInputs n ("snap" +:+ pretty n) ("pos" +:+ pretty n) (n, 1).

Definition x_world : @Exec StatePayload unit :=
  mkExec tt empty_disk (w_mem 4) (Some (mkLedger [] [])) (mkScheduler [x_job "j1" 60] [] [("j1", 0%nat)] [] [] []).

Abbreviation x_target := (@job_target StatePayload unit x_parse (fun _ => "") (fun _ => None) x_data x_reg).
Abbreviation x_process run :=
  (process w_encode w_decode w_sha w_size x_parse no_sum (fun _ => "") (fun _ => None) x_data run x_trade_id (fun _ => "error") x_reg).

(** The world after a bar's first job, and the targets of its jobs. *)
Definition x_after (run : Strategy -> Timeframe -> Bar -> option string -> result string RunResult) : Exec * ExecResult :=
  x_process run (x_job "j1" 60) (x_inputs 100) x_world.

Lemma x_target_1 : x_target (x_job "j1" 60) x_world = (x_world, Ok (x_strategy, (mkTimeframe "1m" (Some 60%positive), w_bar 60))).
Proof. vm_compute. reflexivity. Qed.

Abbreviation x_tf := (mkTimeframe "1m" (Some 60%positive)).

Lemma x_target_2 run : run = x_run f_zero \/ run = x_run S754_nan \/ run = x_isolated ->
  x_target (x_job "j2" 60) (x_after run).1 = ((x_after run).1, Ok (x_strategy, (x_tf, w_bar 60))) /\
  x_target (x_job "j3" 120) (x_after run).1 = ((x_after run).1, Ok (x_strategy, (x_tf, w_bar 120))).
Proof. intros [->|[->| ->]]; split; vm_compute; reflexivity. Qed.

Lemma x_same : same_config x_strategy x_strategy.
Proof. by split_and!. Qed.

Lemma bar_processed_once_witness :
  let w' := (x_after (x_run f_zero)).1 in
  length (trades (default (mkLedger [] []) (x_ledger w'))) = 1%nat /\
  let '(w4, r) := x_process (x_run f_zero) (x_job "j2" 60) (x_inputs 200) w' in er_status r = XSKIPPED /\ x_ledger w4 = x_ledger w'.
Proof.
  split; [vm_compute; reflexivity|].
  pose proof (bar_processed_once w_encode w_decode w_sha w_size x_parse no_sum (fun _ => "") (fun _ => None) x_data (x_run f_zero) x_trade_id
    (fun _ => "error") x_reg (x_job "j1" 60) (x_inputs 100) x_world x_world (x_after (x_run f_zero)).1 (x_after (x_run f_zero)).2 x_strategy x_tf
    (w_bar 60) x_target_1 ltac:(vm_compute; reflexivity) (surjective_pairing _) eq_refl ltac:(simpl; lia) ltac:(discriminate) ltac:(constructor)
    x_reg (x_job "j2" 60) (x_inputs 200) (x_after (x_run f_zero)).1 (x_after (x_run f_zero)).1 x_strategy x_tf (w_bar 60)
    ltac:(vm_compute; reflexivity) (proj1 (x_target_2 _ (or_introl eq_refl))) (ex_intro _ [] (ex_intro _ ∅ (conj (List.Forall_nil _) eq_refl))) (or_intror eq_refl) x_same eq_refl (Z.le_refl _)) as H.
  destruct (x_process _ (x_job "j2" 60) (x_inputs 200) _) as [w4 r4]. destruct H as (H1 & _ & _ & H2 & _). by split.
Defined.

Lemma ledger_failure_not_retried_witness :
  let w' := (x_after (x_run S754_nan)).1 in
  er_error (x_after (x_run S754_nan)).2 = Some (LedgerFailed (NotNullFailed "qty")) /\
  let '(w4, r) := x_process (x_run S754_nan) (x_job "j2" 60) (x_inputs 200) w' in er_status r = XSKIPPED /\ x_ledger w4 = Some (mkLedger [] []).
Proof.
  split; [vm_compute; reflexivity|].
  pose proof (ledger_failure_not_retried w_encode w_decode w_sha w_size x_parse no_sum (fun _ => "") (fun _ => None) x_data (x_run S754_nan)
    x_trade_id (fun _ => "error") x_reg (x_job "j1" 60) (x_inputs 100) x_world x_world (x_after (x_run S754_nan)).1 (x_after (x_run S754_nan)).2
    x_strategy x_tf (w_bar 60) x_target_1 ltac:(vm_compute; reflexivity) (surjective_pairing _) eq_refl ltac:(simpl; lia) ltac:(discriminate)
    ltac:(constructor) (NotNullFailed "qty")
    x_reg (x_job "j2" 60) (x_inputs 200) (x_after (x_run S754_nan)).1 (x_after (x_run S754_nan)).1 x_strategy x_tf (w_bar 60)
    ltac:(vm_compute; reflexivity) (proj1 (x_target_2 _ (or_intror (or_introl eq_refl)))) (ex_intro _ [] (ex_intro _ ∅ (conj (List.Forall_nil _) eq_refl))) (or_intror eq_refl) x_same eq_refl
    (Z.le_refl _)) as H.
  destruct (x_process _ (x_job "j2" 60) (x_inputs 200) _) as [w4 r4]. destruct H as [H1 ->]. split; [done|]. vm_compute. reflexivity.
Defined.

Lemma x_codec st fp : survives w_encode w_decode st fp.
Proof. intros packed enc H. injection H as <- <-. reflexivity. Qed.

Lemma next_bar_resumes_witness :
  (load_runtime_snapshot w_decode w_sha x_strategy x_tf 119 (x_after (x_run f_zero)).1).2 = Ok (Some "state60").
Proof.
  destruct (next_bar_resumes w_encode w_decode w_sha w_size x_parse no_sum (fun _ => "") (fun _ => None) x_data (x_run f_zero) x_trade_id
    (fun _ => "error") x_reg (x_job "j1" 60) (x_inputs 100) x_world x_world (x_after (x_run f_zero)).1 (x_after (x_run f_zero)).2 x_strategy x_tf
    (w_bar 60) x_target_1 ltac:(vm_compute; reflexivity) (surjective_pairing _) eq_refl ltac:(simpl; lia) ltac:(discriminate) ltac:(constructor)
    (x_after (x_run f_zero)).1 x_strategy x_tf 119 (fun _ _ _ => x_codec _ _) ltac:(vm_compute; reflexivity) eq_refl (or_intror eq_refl) x_same eq_refl
    ltac:(simpl; lia)) as (resume & rr & Hr & ->).
  unfold x_run in Hr. injection Hr as <-. vm_compute. reflexivity.
Defined.

Lemma isolated_runtime_stops_witness :
  er_status (x_after x_isolated).2 = XDONE /\
  er_error (x_process x_isolated (x_job "j3" 120) (x_inputs 200) (x_after x_isolated).1).2
    = Some (RuntimeRaised "RESUME_UNSUPPORTED_FOR_WORKER_PROTOCOL").
Proof.
  split; [vm_compute; reflexivity|].
  refine (isolated_runtime_stops w_encode w_decode w_sha w_size x_parse no_sum (fun _ => "") (fun _ => None) x_data x_isolated x_trade_id
    (fun _ => "error") x_reg (x_job "j1" 60) (x_inputs 100) x_world x_world (x_after x_isolated).1 (x_after x_isolated).2 x_strategy x_tf
    (w_bar 60) x_target_1 ltac:(vm_compute; reflexivity) (surjective_pairing _) eq_refl ltac:(simpl; lia) ltac:(discriminate) ltac:(constructor)
    x_reg (x_job "j3" 120) (x_inputs 200) (x_after x_isolated).1 (x_after x_isolated).1 x_strategy x_tf (w_bar 120) (fun _ _ _ => x_codec _ _) (fun _ _ _ _ => eq_refl) _
    ltac:(vm_compute; reflexivity) (proj2 (x_target_2 _ (or_intror (or_intror eq_refl)))) eq_refl (or_intror eq_refl) x_same eq_refl
    ltac:(simpl; lia)).
  intros [x|] rr Hr; [discriminate Hr|]. unfold x_isolated, run_isolated_artifact, live_tape, x_run in Hr. cbn [result_bind] in Hr.
  injection Hr as <-. eexists. split; [reflexivity|]. vm_compute. discriminate.
Defined.

Lemma job_always_answered_witness :
  let '(w', r) := x_process (x_run f_zero) (x_job "j1" 60) (x_inputs 100) x_world in
  exists j', get_job (x_sched w') "j1" = Some j' /\ job_status j' = JDONE.
Proof.
  pose proof (job_always_answered w_encode w_decode w_sha w_size x_parse no_sum (fun _ => "") (fun _ => None) x_data (x_run f_zero) x_trade_id
    (fun _ => "error") x_reg (x_job "j1" 60) (x_inputs 100) x_world (x_job "j1" 60) eq_refl) as H.
  assert (He : er_error (x_process (x_run f_zero) (x_job "j1" 60) (x_inputs 100) x_world).2 = None) by (vm_compute; reflexivity).
  destruct (x_process (x_run f_zero) (x_job "j1" 60) (x_inputs 100) x_world) as [w r]. cbn [snd] in He.
  destruct H as (j' & H1 & _ & H2). rewrite He in H2. exists j'. split; [exact H1|apply H2].
Defined.

Lemma fanout_job_understood_witness :
  exists l, job_payload (x_job "j1" 60) = Ok l /\
    target_query x_parse (fun _ => "") (fun _ => None) x_strategy l = Ok (mkQuery "binance" "usdm" "BTCUSDT" x_tf 60 120 "storage" "fail").
Proof.
  destruct (fanout_job_understood x_parse (fun _ => "") (fun _ => None) x_strategy [] (x_mbar 60) x_market w_cfg (x_job "j1" 60) x_tf
    eq_refl eq_refl eq_refl eq_refl eq_refl eq_refl ltac:(simpl; lia)) as (l & _ & H1 & _ & H2). by exists l.
Defined.
