(* ===== verification/Threads.v ===== *)
(** Threads over one shared state, and a rely-guarantee logic for them.

    A thread is a tree of commands: what it does next depends on what the last
    command answered.  Commands are atomic; between two of them any other
    thread or the world outside may act.  A thread is specified by what it
    relies on ([rely], what the others may do between its commands) and is
    obliged to keep the shared invariant and what the others rely on.  The
    logic is used by [BacktestFacts]. *)

From S2P Require Import Prelude.

(** ** Programs *)

Inductive prog (Cmd : Type -> Type) (A : Type) : Type :=
| Ret (a : A)
| Act (X : Type) (c : Cmd X) (k : X -> prog Cmd A).
Arguments Ret {Cmd A} a.
Arguments Act {Cmd A X} c k.

Fixpoint prog_bind {Cmd A B} (p : prog Cmd A) (k : A -> prog Cmd B) : prog Cmd B :=
  match p with
  | Ret a => k a
  | Act c k' => Act c (fun x => prog_bind (k' x) k)
  end.

Arguments prog_bind {Cmd A B} & p k.

Definition act {Cmd X} (c : Cmd X) : prog Cmd X := Act c Ret.

Notation "'do!' x ':=' p 'in' k" := (prog_bind p (fun x => k))
  (at level 10, x name, p at level 100, k at level 200) : openpine_scope.
Notation "'do!' ' x ':=' p 'in' k" := (prog_bind p (fun x => k))
  (at level 10, x strict pattern, p at level 100, k at level 200) : openpine_scope.

(** Programs that may raise. *)
Definition try_bind {Cmd E A B} (p : prog Cmd (result E A)) (k : A -> prog Cmd (result E B)) : prog Cmd (result E B) :=
  prog_bind p (fun r => match r with Ok a => k a | Err e => Ret (Err e) end).

Arguments try_bind {Cmd E A B} & p k.

Notation "'try!' x ':=' p 'in' k" := (try_bind p (fun x => k))
  (at level 10, x name, p at level 100, k at level 200) : openpine_scope.

Definition ok {Cmd E A} (a : A) : prog Cmd (result E A) := Ret (Ok a).
Definition raise {Cmd E A} (e : E) : prog Cmd (result E A) := Ret (Err e).

(** What a thread relies on may happen any number of times. *)
Class RelyPreOrder {State Tid : Type} (rely : Tid -> State -> State -> Prop) : Prop :=
  rely_preorder :: forall t, PreOrder (rely t).

(** ** Running them

    [perform c e s] is the effect of command [c] in state [s] when the world
    makes the choice [e]; [None] when the command has to wait. *)
Section Threads.
Context {State Choice Outside Tid Args Out : Type} {Cmd : Type -> Type} `{Countable Tid}.
Variable perform : forall X, Cmd X -> Choice -> State -> option (State * X).
Variable outside : Outside -> State -> State.
(** A new thread: whether it may start, with its effect, and its program. *)
Variable enter : Tid -> Args -> State -> option State.
Variable body : Tid -> Args -> State -> prog Cmd Out.

Record System := mkSystem { shared : State; threads : gmap Tid (Args * prog Cmd Out) }.

Inductive thread_event :=
| Spawn (t : Tid) (a : Args)
| Step (t : Tid) (e : Choice)
| Happen (o : Outside).

Definition exec (w : System) (ev : thread_event) : System :=
  match ev with
  | Spawn t a =>
      match threads w !! t, enter t a (shared w) with
      | None, Some s => mkSystem s (<[t := (a, body t a s)]> (threads w))
      | _, _ => w
      end
  | Step t e =>
      match threads w !! t with
      | Some (a, Act c k) =>
          match perform _ c e (shared w) with
          | Some (s, x) => mkSystem s (<[t := (a, k x)]> (threads w))
          | None => w
          end
      | _ => w
      end
  | Happen o => mkSystem (outside o (shared w)) (threads w)
  end.

Definition run_events (w : System) (evs : list thread_event) : System := fold_left exec evs w.

(** ** The logic *)

Variable inv : State -> Prop.
Variable rely : Tid -> State -> State -> Prop.
Context `{!RelyPreOrder rely}.

(** What a step of thread [t] owes to the others. *)
Definition guar (t : Tid) (s s' : State) : Prop := forall t', t' <> t -> rely t' s s'.

(** Whatever the others do, every step of [p] from [s] keeps the invariant and
    the guarantee, and if [p] returns then [Q] holds of the answer. *)
Fixpoint safe {A} (t : Tid) (p : prog Cmd A) (Q : A -> State -> Prop) (s : State) : Prop :=
  match p with
  | Ret a => forall s', rely t s s' -> inv s' -> Q a s'
  | Act c k => forall s', rely t s s' -> inv s' -> forall e s'' x,
      perform _ c e s' = Some (s'', x) -> inv s'' /\ guar t s' s'' /\ safe t (k x) Q s''
  end.

Lemma safe_rely {A} t (p : prog Cmd A) Q s s' : safe t p Q s -> rely t s s' -> safe t p Q s'.
Proof. destruct p; simpl; intros Hs Hr; intros; eapply Hs; eauto; etransitivity; eauto. Qed.

Lemma safe_bind {A B} t (p : prog Cmd A) (k : A -> prog Cmd B) Q Q' s :
  safe t p Q s -> (forall a s', inv s' -> Q a s' -> safe t (k a) Q' s') -> inv s -> safe t (prog_bind p k) Q' s.
Proof.
  revert s. induction p as [a | X c k0 IH]; simpl; intros s Hp Hk Hi.
  - apply Hk; [done|]. apply Hp; [reflexivity | done].
  - intros s' Hr Hi' e s'' x He. destruct (Hp s' Hr Hi' e s'' x He) as (? & ? & ?). split_and!; auto.
Qed.

Lemma safe_weaken {A} t (p : prog Cmd A) (Q Q' : A -> State -> Prop) s :
  safe t p Q s -> (forall a s', inv s' -> Q a s' -> Q' a s') -> safe t p Q' s.
Proof.
  revert s. induction p as [a | X c k IH]; simpl; intros s Hp Hq; [auto|].
  intros s' Hr Hi e s'' x He. destruct (Hp s' Hr Hi e s'' x He) as (? & ? & ?). split_and!; auto.
Qed.

(** Assertions that survive what the others do. *)
Definition stable (t : Tid) (P : State -> Prop) : Prop := forall s s', P s -> rely t s s' -> inv s' -> P s'.

Lemma safe_ret {A} t (a : A) (Q : A -> State -> Prop) s : stable t (Q a) -> Q a s -> safe t (Ret a) Q s.
Proof. intros Hst HQ s' Hr Hi. eapply Hst; eauto. Qed.

(** One command under a stable assertion. *)
Lemma safe_act {A X} t (P : State -> Prop) (c : Cmd X) (k : X -> prog Cmd A) Q s :
  stable t P -> P s ->
  (forall s0 e s1 x, inv s0 -> P s0 -> perform _ c e s0 = Some (s1, x) -> inv s1 /\ guar t s0 s1 /\ safe t (k x) Q s1) ->
  safe t (Act c k) Q s.
Proof. intros Hst HP Hc s0 Hr Hi e s1 x He. eapply Hc; eauto. Qed.

(** *** Specifications *)

(** From a state with [P], the program is safe and returns with [Q]. *)
Definition spec {A} (t : Tid) (P : State -> Prop) (p : prog Cmd A) (Q : A -> State -> Prop) : Prop :=
  forall s, inv s -> P s -> safe t p Q s.

Lemma spec_weaken {A} t (P P' : State -> Prop) (p : prog Cmd A) (Q Q' : A -> State -> Prop) :
  spec t P p Q -> (forall s, inv s -> P' s -> P s) -> (forall a s, inv s -> Q a s -> Q' a s) -> spec t P' p Q'.
Proof. intros Hp HP HQ s Hi Hs. eapply safe_weaken; eauto. Qed.

Lemma spec_bind {A B} t P (p : prog Cmd A) (k : A -> prog Cmd B) Q Q' :
  spec t P p Q -> (forall a, spec t (Q a) (k a) Q') -> spec t P (prog_bind p k) Q'.
Proof. intros Hp Hk s Hi Hs. eapply safe_bind; eauto. Qed.

Lemma spec_ret {A} t (P : State -> Prop) (a : A) (Q : A -> State -> Prop) :
  stable t P -> (forall s, inv s -> P s -> Q a s) -> spec t P (Ret a) Q.
Proof. intros Hst HQ s Hi Hs s' Hr Hi'. apply HQ; [done|]. by eapply Hst. Qed.

Lemma spec_act {X} t (P : State -> Prop) (c : Cmd X) (Q : X -> State -> Prop) :
  stable t P -> (forall x, stable t (Q x)) ->
  (forall s e s' x, inv s -> P s -> perform _ c e s = Some (s', x) -> inv s' /\ guar t s s' /\ Q x s') ->
  spec t P (act c) Q.
Proof.
  intros Hst HQ Hc s Hi Hs s0 Hr Hi0 e s1 x He. destruct (Hc s0 e s1 x Hi0) as (? & ? & ?); [by eapply Hst | done|].
  split_and!; [done | done|]. intros s2 Hr2 Hi2. by eapply HQ.
Qed.

(** A command that may raise. *)
Lemma spec_try {E A B} t P (p : prog Cmd (result E A)) (k : A -> prog Cmd (result E B)) (Q : result E A -> State -> Prop)
    (Q' : result E B -> State -> Prop) :
  spec t P p Q -> (forall a, spec t (Q (Ok a)) (k a) Q') ->
  (forall e, stable t (Q (Err e))) -> (forall e s, inv s -> Q (Err e) s -> Q' (Err e) s) -> spec t P (try_bind p k) Q'.
Proof. intros Hp Hk Hst He. eapply spec_bind; [done|]. intros [a|e]; [apply Hk|]. apply spec_ret; auto. Qed.

Lemma stable_and t (P Q : State -> Prop) : stable t P -> stable t Q -> stable t (fun s => P s /\ Q s).
Proof. intros HP HQ s s' [] Hr Hi. split; eauto. Qed.

Lemma stable_pure t (P : Prop) : stable t (fun _ => P).
Proof. by intros s s' HP _ _. Qed.

Lemma stable_impl t (P : Prop) (Q : State -> Prop) : stable t Q -> stable t (fun s => P -> Q s).
Proof. intros HQ s s' Himp Hr Hi HP. eauto. Qed.

(** Threads that start safe stay safe, whatever the interleaving. *)
Section Sound.
Variable post : Tid -> Args -> Out -> State -> Prop.
Hypothesis outside_ok : forall o s, inv s -> inv (outside o s) /\ forall t, rely t s (outside o s).
Hypothesis enter_ok : forall t a s s', inv s -> enter t a s = Some s' ->
  inv s' /\ guar t s s' /\ safe t (body t a s') (post t a) s'.

Definition all_safe (w : System) : Prop :=
  inv (shared w) /\ forall t a p, threads w !! t = Some (a, p) -> safe t p (post t a) (shared w).

Lemma exec_safe w ev : all_safe w -> all_safe (exec w ev).
Proof.
  intros [Hi Hs]. destruct ev as [t a | t e | o]; simpl.
  - destruct (threads w !! t) eqn:Ht; [done|]. destruct (enter t a (shared w)) as [s|] eqn:He; [|done].
    destruct (enter_ok _ _ _ _ Hi He) as (Hi' & Hg & Hb). split; [done|]. intros t' a' p'. simpl.
    destruct (decide (t' = t)) as [->|Hne].
    + rewrite lookup_insert_eq. by intros [= <- <-].
    + rewrite lookup_insert_ne by done. intros Hp. eapply safe_rely; [eauto|]. by apply Hg.
  - destruct (threads w !! t) as [[a [o | X c k]]|] eqn:Ht; [done| |done].
    destruct (perform X c e (shared w)) as [[s x]|] eqn:He; [|done].
    destruct (Hs _ _ _ Ht (shared w) ltac:(reflexivity) Hi e s x He) as (Hi' & Hg & Hb).
    split; [done|]. intros t' a' p'. simpl. destruct (decide (t' = t)) as [->|Hne].
    + rewrite lookup_insert_eq. by intros [= <- <-].
    + rewrite lookup_insert_ne by done. intros Hp. eapply safe_rely; [eauto|]. by apply Hg.
  - destruct (outside_ok o _ Hi) as [Hi' Hr]. split; [done|]. intros t a p Hp. eapply safe_rely; eauto.
Qed.

Lemma events_safe w evs : all_safe w -> all_safe (run_events w evs).
Proof. revert w. induction evs as [|ev evs IH]; intros w Hw; [done|]. by apply IH, exec_safe. Qed.

(** A thread that has returned has its postcondition. *)
Lemma returned_post w t a o : all_safe w -> threads w !! t = Some (a, Ret o) -> post t a o (shared w).
Proof. intros [Hi Hs] Ht. apply (Hs _ _ _ Ht); [reflexivity | done]. Qed.

End Sound.
End Threads.

Arguments System State Tid Args Out Cmd {_ _}.
Arguments thread_event Choice Outside Tid Args : clear implicits.
Arguments Spawn {Choice Outside Tid Args} t a.
Arguments Step {Choice Outside Tid Args} t e.
Arguments Happen {Choice Outside Tid Args} o.
