(* ===== verification/BacktestRuns.v ===== *)
(** Backtest runs of the gateway: the ownership, cancellation and admission
    part of [openpine/gateway/routes/backtest.py].

    A background task computes each run in a worker process of its own; cancel
    requests may arrive at any time.  The module's dictionaries, guarded by one
    lock, say who owns which worker, whether a run has ended and how, and which
    runs keep a permit of the concurrency limit.  The state is [Gateway]; each
    function under the lock is one atomic operation, and the coroutines and
    compute threads are programs of [Threads] over the commands [Cmd].  What
    the operating system, the database and the strategy's data answer is the
    world's choice; what a process family may do is [happen].  Progress
    messages, queues and traceback texts are left out.  Loops are observed for
    a number of rounds and then wait for ever. *)

From S2P Require Import Prelude Threads.

(** ** Data *)

(** [_BacktestWorker] and, above the line of attributes, its processes: the
    supervisor ([alive]) and the callable with its descendants ([kids]).
    [w_run] is the run the worker was made for. *)
Record Worker := mkWorker {
  w_run : string;
  alive : bool;
  kids : bool;
  published : bool;
  popen : bool;
  cleanup_complete : bool;
  killed : bool;
  owned_pid : bool;
  cancel_requested : bool;
  cleanup_proven : bool;
  lock_held : bool
}.

Definition new_worker (r : string) : Worker :=
  mkWorker r false false false false false false false false false false.

(** The module's globals, [state.backtest_cancel_requests], the limiter's
    semaphore, the leases not yet released, and the status column of the runs.
    [issued] and [accepted] only record: the lease a run was started with, and
    the runs whose cancellation was accepted. *)
Record Gateway := mkGateway {
  ACTIVE_WORKERS : gmap string nat;
  RETAINED_WORKERS : gmap string (list nat);
  STARTING_RUNS : gset string;
  TERMINAL_RUNS : gset string;
  TERMINAL_OUTCOMES : gmap string string;
  RETAINED_LEASES : gmap string nat;
  cancel_requests : gset string;
  workers : gmap nat Worker;
  permits : nat;
  leases_out : gset nat;
  next_lease : nat;
  run_status : gmap string string;
  issued : gmap string nat;
  accepted : gset string
}.

Definition gateway_init (capacity : nat) : Gateway :=
  mkGateway ∅ ∅ ∅ ∅ ∅ ∅ ∅ ∅ capacity ∅ 0 ∅ ∅ ∅.

Definition set_owners (active : gmap string nat) (retained : gmap string (list nat)) (s : Gateway) : Gateway :=
  mkGateway active retained (STARTING_RUNS s) (TERMINAL_RUNS s) (TERMINAL_OUTCOMES s) (RETAINED_LEASES s)
    (cancel_requests s) (workers s) (permits s) (leases_out s) (next_lease s) (run_status s) (issued s) (accepted s).

Definition set_starting (l : gset string) (s : Gateway) : Gateway :=
  mkGateway (ACTIVE_WORKERS s) (RETAINED_WORKERS s) l (TERMINAL_RUNS s) (TERMINAL_OUTCOMES s) (RETAINED_LEASES s)
    (cancel_requests s) (workers s) (permits s) (leases_out s) (next_lease s) (run_status s) (issued s) (accepted s).

Definition set_outcome (r o : string) (s : Gateway) : Gateway :=
  mkGateway (ACTIVE_WORKERS s) (RETAINED_WORKERS s) (STARTING_RUNS s) ({[r]} ∪ TERMINAL_RUNS s)
    (<[r := o]> (TERMINAL_OUTCOMES s)) (RETAINED_LEASES s) (cancel_requests s) (workers s) (permits s) (leases_out s)
    (next_lease s) (run_status s) (issued s) (accepted s).

Definition set_leases (held : gmap string nat) (n : nat) (out : gset nat) (s : Gateway) : Gateway :=
  mkGateway (ACTIVE_WORKERS s) (RETAINED_WORKERS s) (STARTING_RUNS s) (TERMINAL_RUNS s) (TERMINAL_OUTCOMES s) held
    (cancel_requests s) (workers s) n out (next_lease s) (run_status s) (issued s) (accepted s).

Definition set_cancels (cancels acc : gset string) (s : Gateway) : Gateway :=
  mkGateway (ACTIVE_WORKERS s) (RETAINED_WORKERS s) (STARTING_RUNS s) (TERMINAL_RUNS s) (TERMINAL_OUTCOMES s)
    (RETAINED_LEASES s) cancels (workers s) (permits s) (leases_out s) (next_lease s) (run_status s) (issued s) acc.

Definition set_workers (l : gmap nat Worker) (s : Gateway) : Gateway :=
  mkGateway (ACTIVE_WORKERS s) (RETAINED_WORKERS s) (STARTING_RUNS s) (TERMINAL_RUNS s) (TERMINAL_OUTCOMES s)
    (RETAINED_LEASES s) (cancel_requests s) l (permits s) (leases_out s) (next_lease s) (run_status s) (issued s) (accepted s).

(** [UPDATE backtest_runs SET status = ... WHERE run_id = ...]. *)
Definition set_status (r st : string) (s : Gateway) : Gateway :=
  mkGateway (ACTIVE_WORKERS s) (RETAINED_WORKERS s) (STARTING_RUNS s) (TERMINAL_RUNS s) (TERMINAL_OUTCOMES s)
    (RETAINED_LEASES s) (cancel_requests s) (workers s) (permits s) (leases_out s) (next_lease s)
    (alter (fun _ => st) r (run_status s)) (issued s) (accepted s).

Definition upd_worker (f : Worker -> Worker) (w : nat) (s : Gateway) : Gateway := set_workers (alter f w (workers s)) s.

(** ** The functions under [_ACTIVE_BACKTEST_WORKERS_LOCK] *)

(** [_RETAINED_BACKTEST_WORKERS.get(run_id, ())]. *)
Definition retained_of (s : Gateway) (r : string) : list nat := default [] (RETAINED_WORKERS s !! r).

(** [_backtest_workers]: the active worker, then the others retained. *)
Definition backtest_workers (r : string) (s : Gateway) : list nat :=
  let active := match ACTIVE_WORKERS s !! r with Some w => [w] | None => [] end in
  fold_left (fun ws w => if bool_decide (w ∈ ws) then ws else ws ++ [w]) (retained_of s r) active.

(** [_set_backtest_worker_starting]. *)
Definition set_backtest_worker_starting (r : string) (starting : bool) (s : Gateway) : Gateway :=
  set_starting (if starting then {[r]} ∪ STARTING_RUNS s else STARTING_RUNS s ∖ {[r]}) s.

(** [_request_backtest_cancel]. *)
Definition request_backtest_cancel (r : string) (s : Gateway) : Gateway * bool :=
  if bool_decide (r ∈ TERMINAL_RUNS s) then (s, false)
  else (set_cancels ({[r]} ∪ cancel_requests s) ({[r]} ∪ accepted s) s, true).

(** [_admit_backtest_worker_start]. *)
Definition admit_backtest_worker_start (r : string) (w : nat) (s : Gateway) : Gateway * bool :=
  if bool_decide (r ∈ cancel_requests s) || bool_decide (r ∈ TERMINAL_RUNS s) || bool_decide (r ∈ STARTING_RUNS s)
     || bool_decide (is_Some (ACTIVE_WORKERS s !! r)) || bool_decide (retained_of s r <> [])
     || bool_decide (is_Some (RETAINED_LEASES s !! r))
  then (s, false)
  else (set_starting ({[r]} ∪ STARTING_RUNS s) (set_owners (ACTIVE_WORKERS s) (<[r := [w]]> (RETAINED_WORKERS s)) s), true).

(** [_seal_backtest_terminal_if_quiescent]. *)
Definition seal_backtest_terminal_if_quiescent (r : string) (s : Gateway) : Gateway * (list nat * bool) :=
  let ws := backtest_workers r s in
  if bool_decide (ws <> []) || bool_decide (r ∈ STARTING_RUNS s) then (s, (ws, false))
  else match TERMINAL_OUTCOMES s !! r with
       | Some _ => (s, ([], true))
       | None => (set_outcome r "cancelled" s, ([], true))
       end.

(** [_seal_backtest_success_if_quiescent]. *)
Definition seal_backtest_success_if_quiescent (r : string) (s : Gateway) : Gateway * (list nat * bool) :=
  let ws := backtest_workers r s in
  if bool_decide (ws <> []) || bool_decide (r ∈ STARTING_RUNS s) || bool_decide (r ∈ cancel_requests s)
     || bool_decide (r ∈ TERMINAL_RUNS s)
  then (s, (ws, false))
  else (set_outcome r "success" s, ([], true)).

(** [_seal_backtest_failure]. *)
Definition seal_backtest_failure (r : string) (replace_outcome : option string) (s : Gateway) : Gateway * bool :=
  match TERMINAL_OUTCOMES s !! r with
  | Some existing =>
      if bool_decide (Some existing <> replace_outcome) then (s, false) else (set_outcome r "failed" s, true)
  | None => (set_outcome r "failed" s, true)
  end.

Definition has_ownership (r : string) (s : Gateway) : bool :=
  bool_decide (is_Some (ACTIVE_WORKERS s !! r)) || bool_decide (retained_of s r <> []) || bool_decide (r ∈ STARTING_RUNS s).

(** [_retain_backtest_admission_lease]; [None]: "already retained". *)
Definition retain_backtest_admission_lease (r : string) (l : nat) (s : Gateway) : Gateway * option bool :=
  if negb (has_ownership r s) then (s, Some false)
  else match RETAINED_LEASES s !! r with
       | Some existing =>
           if bool_decide (existing <> l) then (s, None) else (s, Some true)
       | None => (set_leases (<[r := l]> (RETAINED_LEASES s)) (permits s) (leases_out s) s, Some true)
       end.

(** [_BacktestLease.release], with the semaphore's. *)
Definition release (l : nat) (s : Gateway) : Gateway :=
  if bool_decide (l ∈ leases_out s) then set_leases (RETAINED_LEASES s) (S (permits s)) (leases_out s ∖ {[l]}) s else s.

(** [_register_backtest_worker]; [false]: "already registered". *)
Definition register_backtest_worker (r : string) (w : nat) (s : Gateway) : Gateway * bool :=
  let other := List.filter (fun c => negb (c =? w)%nat) (retained_of s r) in
  if bool_decide (is_Some (ACTIVE_WORKERS s !! r)) || bool_decide (other <> []) then (s, false)
  else (set_owners (<[r := w]> (ACTIVE_WORKERS s)) (delete r (RETAINED_WORKERS s)) s, true).

(** [_retain_backtest_worker_for_retry]. *)
Definition retain_backtest_worker_for_retry (r : string) (w : nat) (s : Gateway) : Gateway :=
  if bool_decide (ACTIVE_WORKERS s !! r = Some w) then s
  else if bool_decide (w ∈ retained_of s r) then s
  else set_owners (ACTIVE_WORKERS s) (<[r := retained_of s r ++ [w]]> (RETAINED_WORKERS s)) s.

(** [_unregister_backtest_worker]; the lease it pops is released at once. *)
Definition unregister_backtest_worker (r : string) (w : nat) (s : Gateway) : Gateway :=
  let active := if bool_decide (ACTIVE_WORKERS s !! r = Some w) then delete r (ACTIVE_WORKERS s) else ACTIVE_WORKERS s in
  let retained := match RETAINED_WORKERS s !! r with
                  | None => RETAINED_WORKERS s
                  | Some l => match List.filter (fun c => negb (c =? w)%nat) l with
                              | [] => delete r (RETAINED_WORKERS s)
                              | l' => <[r := l']> (RETAINED_WORKERS s)
                              end
                  end in
  let s1 := set_owners active retained s in
  if has_ownership r s1 then s1
  else match RETAINED_LEASES s1 !! r with
       | Some l => release l (set_leases (delete r (RETAINED_LEASES s1)) (permits s1) (leases_out s1) s1)
       | None => s1
       end.

(** [_BacktestAdmissionLimiter.try_acquire]. *)
Definition try_acquire (s : Gateway) : option (Gateway * nat) :=
  match permits s with
  | 0%nat => None
  | S n =>
      let l := next_lease s in
      Some (mkGateway (ACTIVE_WORKERS s) (RETAINED_WORKERS s) (STARTING_RUNS s) (TERMINAL_RUNS s) (TERMINAL_OUTCOMES s)
              (RETAINED_LEASES s) (cancel_requests s) (workers s) n ({[l]} ∪ leases_out s) (S l) (run_status s)
              (issued s) (accepted s), l)
  end.

(** ** Commands *)

(** [_BacktestCancelled], any other exception, and an HTTP error. *)
Inductive exn := BacktestCancelled | OtherError | HTTPException (code : Z).

(** What [out.get] gives: nothing yet, progress, or the final message. *)
Inductive polled := Empty | Progress | Final (good : bool).

Inductive Cmd : Type -> Type :=
| NewWorker (r : string) : Cmd (result exn nat)
| AdmitStart (r : string) (w : nat) : Cmd bool
| SetStarting (r : string) (b : bool) : Cmd unit
| RequestCancel (r : string) : Cmd bool
| CancelRequested (r : string) : Cmd bool
| DiscardCancel (r : string) : Cmd unit
| TerminalOutcome (r : string) : Cmd (option string)
| SealTerminal (r : string) : Cmd (list nat * bool)
| SealSuccess (r : string) : Cmd (list nat * bool)
| SealFailure (r : string) (replace_outcome : option string) : Cmd bool
| RetainLease (r : string) (l : nat) : Cmd (result exn bool)
| ReleaseLease (l : nat) : Cmd unit
| RegisterWorker (r : string) (w : nat) : Cmd (result exn unit)
| RetainForRetry (r : string) (w : nat) : Cmd unit
| Unregister (r : string) (w : nat) : Cmd unit
| StartProcess (w : nat) : Cmd (result exn unit)
| ReceiveIdentity (w : nat) : Cmd (result exn bool)
| SetIdentity (w : nat) : Cmd unit
| ProcessAlive (w : nat) : Cmd bool
| WorkerAlive (w : nat) : Cmd (result exn bool)
| ProcIsolated (w : nat) : Cmd (result exn bool)
| PinWorker (w : nat) : Cmd (result exn bool)
| SignalTerm (w : nat) : Cmd (result exn unit)
| SignalKill (w : nat) : Cmd (result exn unit)
| JoinWorker (w : nat) : Cmd (result exn unit)
| CleanupEvent (w : nat) : Cmd bool
| CleanupProven (w : nat) : Cmd bool
| SetProven (w : nat) : Cmd unit
| SetCancelRequested (w : nat) : Cmd unit
| WorkerCancelled (w : nat) : Cmd bool
| AcquireLock (w : nat) : Cmd unit
| ReleaseLock (w : nat) : Cmd unit
| QueueGet (w : nat) : Cmd (result exn polled)
| CloseQueue (w : nat) : Cmd (result exn unit)
| GetStatus (r : string) : Cmd (result exn (option string))
| MarkRun (r st : string) : Cmd (result exn unit)
| SaveResult (r : string) : Cmd (result exn unit)
| TimeLeft : Cmd bool
| Elsewhere : Cmd (result exn nat)
| Never : Cmd Empty_set.

(** What the world decides about a command: that it fails, or what it gives. *)
Record Choice := mkChoice { fails : bool; pick : nat }.

Definition worker (s : Gateway) (w : nat) : Worker := default (new_worker "") (workers s !! w).

Definition with_alive (a p : bool) (k : Worker) : Worker :=
  mkWorker (w_run k) a (kids k) (published k) p (cleanup_complete k) (killed k) (owned_pid k) (cancel_requested k)
    (cleanup_proven k) (lock_held k).
Definition with_kids (b : bool) (k : Worker) : Worker :=
  mkWorker (w_run k) (alive k) b (published k) (popen k) (cleanup_complete k) (killed k) (owned_pid k)
    (cancel_requested k) (cleanup_proven k) (lock_held k).
Definition with_published (k : Worker) : Worker :=
  mkWorker (w_run k) (alive k) (kids k) true (popen k) (cleanup_complete k) (killed k) (owned_pid k)
    (cancel_requested k) (cleanup_proven k) (lock_held k).
Definition with_cleanup (k : Worker) : Worker :=
  mkWorker (w_run k) (alive k) false (published k) (popen k) true (killed k) (owned_pid k) (cancel_requested k)
    (cleanup_proven k) (lock_held k).
Definition with_killed (k : Worker) : Worker :=
  mkWorker (w_run k) (alive k) (kids k) (published k) (popen k) (cleanup_complete k) true (owned_pid k)
    (cancel_requested k) (cleanup_proven k) (lock_held k).
Definition with_identity (k : Worker) : Worker :=
  mkWorker (w_run k) (alive k) (kids k) (published k) (popen k) (cleanup_complete k) (killed k) true
    (cancel_requested k) (cleanup_proven k) (lock_held k).
Definition with_cancel (k : Worker) : Worker :=
  mkWorker (w_run k) (alive k) (kids k) (published k) (popen k) (cleanup_complete k) (killed k) (owned_pid k) true
    (cleanup_proven k) (lock_held k).
Definition with_proven (k : Worker) : Worker :=
  mkWorker (w_run k) (alive k) (kids k) (published k) (popen k) (cleanup_complete k) (killed k) (owned_pid k)
    (cancel_requested k) true (lock_held k).
Definition with_lock (b : bool) (k : Worker) : Worker :=
  mkWorker (w_run k) (alive k) (kids k) (published k) (popen k) (cleanup_complete k) (killed k) (owned_pid k)
    (cancel_requested k) (cleanup_proven k) b.

(** [worker.process.is_alive()]. *)
Definition process_alive (k : Worker) : bool := popen k && alive k.

(** [_backtest_worker_is_alive]: by the pinned identity once it is known. *)
Definition worker_alive (k : Worker) : bool := if owned_pid k then alive k else process_alive k.

Definition answer {X} (s : Gateway) (x : X) : option (Gateway * X) := Some (s, x).

(** A command that may raise before it does anything. *)
Definition attempt {X} (e : Choice) (s : Gateway) (r : Gateway * X) : option (Gateway * result exn X) :=
  if fails e then answer s (Err OtherError) else answer r.1 (Ok r.2).

(** [StartProcess] that raises may have created the child all the same.
    [ReceiveIdentity] waits while the supervisor lives and has not written; it
    gives [false], end of file, when the supervisor died before it wrote.
    [PinWorker] may see the process gone.  [_join_backtest_worker] raises for a
    process that was never started and whose identity is not known. *)
Definition perform (X : Type) (c : Cmd X) (e : Choice) (s : Gateway) : option (Gateway * X) :=
  match c in Cmd Y return option (Gateway * Y) with
  | NewWorker r =>
      let w := fresh (dom (workers s)) in
      attempt e s (set_workers (<[w := new_worker r]> (workers s)) s, w)
  | AdmitStart r w => Some (admit_backtest_worker_start r w s)
  | SetStarting r b => answer (set_backtest_worker_starting r b s) tt
  | RequestCancel r => Some (request_backtest_cancel r s)
  | CancelRequested r => answer s (bool_decide (r ∈ cancel_requests s))
  | DiscardCancel r => answer (set_cancels (cancel_requests s ∖ {[r]}) (accepted s) s) tt
  | TerminalOutcome r => answer s (TERMINAL_OUTCOMES s !! r)
  | SealTerminal r => Some (seal_backtest_terminal_if_quiescent r s)
  | SealSuccess r => Some (seal_backtest_success_if_quiescent r s)
  | SealFailure r o => Some (seal_backtest_failure r o s)
  | RetainLease r l =>
      match retain_backtest_admission_lease r l s with
      | (s', Some b) => answer s' (Ok b)
      | (s', None) => answer s' (Err OtherError)
      end
  | ReleaseLease l => answer (release l s) tt
  | RegisterWorker r w =>
      match register_backtest_worker r w s with
      | (s', true) => answer s' (Ok tt)
      | (s', false) => answer s' (Err OtherError)
      end
  | RetainForRetry r w => answer (retain_backtest_worker_for_retry r w s) tt
  | Unregister r w => answer (unregister_backtest_worker r w s) tt
  | StartProcess w =>
      if fails e then
        answer (if (pick e =? 0)%nat then s else upd_worker (with_alive true false) w s) (Err OtherError)
      else answer (upd_worker (with_alive true true) w s) (Ok tt)
  | ReceiveIdentity w =>
      if fails e then answer s (Err OtherError)
      else if published (worker s w) then answer s (Ok true)
      else if alive (worker s w) then None
      else answer s (Ok false)
  | SetIdentity w => answer (upd_worker with_identity w s) tt
  | ProcessAlive w => answer s (process_alive (worker s w))
  | WorkerAlive w => if owned_pid (worker s w) && fails e then answer s (Err OtherError)
                     else answer s (Ok (worker_alive (worker s w)))
  | ProcIsolated w => if fails e || negb (alive (worker s w)) then answer s (Err OtherError)
                      else answer s (Ok (0 <? pick e)%nat)
  | PinWorker w => if fails e then answer s (Err OtherError)
                   else answer s (Ok (owned_pid (worker s w) && alive (worker s w) && (0 <? pick e)%nat))
  | SignalTerm w => attempt e s (s, tt)
  | SignalKill w => attempt e s (upd_worker with_killed w s, tt)
  | JoinWorker w => if popen (worker s w) || owned_pid (worker s w) then answer s (Ok tt) else answer s (Err OtherError)
  | CleanupEvent w => answer s (cleanup_complete (worker s w) && negb (fails e))
  | CleanupProven w => answer s (cleanup_proven (worker s w))
  | SetProven w => answer (upd_worker with_proven w s) tt
  | SetCancelRequested w => answer (upd_worker with_cancel w s) tt
  | WorkerCancelled w => answer s (cancel_requested (worker s w))
  | AcquireLock w => if lock_held (worker s w) then None else answer (upd_worker (with_lock true) w s) tt
  | ReleaseLock w => answer (upd_worker (with_lock false) w s) tt
  | QueueGet w =>
      attempt e s (s, match pick e with 0%nat => Empty | 1%nat => Progress | 2%nat => Final true | _ => Final false end)
  | CloseQueue w => attempt e s (s, tt)
  | GetStatus r => attempt e s (s, run_status s !! r)
  | MarkRun r st => attempt e s (set_status r st s, tt)
  | SaveResult r => attempt e s (set_status r "done" s, tt)
  | TimeLeft => answer s (negb (fails e))
  | Elsewhere => attempt e s (s, pick e)
  | Never => None
  end.

(** What processes do on their own: a supervisor publishes its identity, forks
    the callable ([_supervised_backtest_process_entry] publishes first), ends
    its family and sets the event, or exits; descendants exit. *)
Inductive os_event := OsPublish (w : nat) | OsFork (w : nat) | OsCleanup (w : nat) | OsExit (w : nat) | OsKidsExit (w : nat).

Definition os_worker (ev : os_event) : nat :=
  match ev with OsPublish w | OsFork w | OsCleanup w | OsExit w | OsKidsExit w => w end.

Definition os_change (ev : os_event) (k : Worker) : Worker :=
  match ev with
  | OsPublish _ => if alive k then with_published k else k
  | OsFork _ => if alive k && published k && negb (cleanup_complete k) then with_kids true k else k
  | OsCleanup _ => if alive k then with_cleanup k else k
  | OsExit _ => with_alive false (popen k) k
  | OsKidsExit _ => with_kids false k
  end.

Definition happen (ev : os_event) (s : Gateway) : Gateway := upd_worker (os_change ev) (os_worker ev) s.

(** ** The compute thread *)

Abbreviation thr A := (prog Cmd (result exn A)).

(** [finally]: [after] runs whatever became of [p]; what it raises wins. *)
Definition finally {A} (p : thr A) (after : thr unit) : thr A :=
  do! r := p in do! f := after in match f with Ok _ => Ret r | Err e => Ret (Err e) end.

(** Observed long enough: the thread is still running. *)
Definition still_running {A} : prog Cmd A := Act Never (fun x : Empty_set => match x with end).

(** The loop of [_terminate_backtest_worker]: SIGKILL only once the family's
    cleanup is complete.  [pinned]: a descriptor is open. *)
Fixpoint wait_for_exit (n : nat) (w : nat) (pinned : bool) : thr unit :=
  match n with
  | O => still_running
  | S n' =>
      try! alive := act (WorkerAlive w) in
      if negb alive then ok tt
      else
        do! left := act TimeLeft in
        if negb left then ok tt
        else
          try! _u := act (JoinWorker w) in
          do! cleaned := act (CleanupEvent w) in
          if negb cleaned then wait_for_exit n' w pinned
          else
            try! alive' := act (WorkerAlive w) in
            if negb alive' then wait_for_exit n' w pinned
            else
              try! pin := (if pinned then ok true else act (PinWorker w)) in
              try! _u := (if pin then act (SignalKill w) else ok tt) in
              act (JoinWorker w)
  end.

(** The body of [_terminate_backtest_worker], inside [with worker.lock]. *)
Definition terminate_locked (n : nat) (w : nat) : thr bool :=
  do! proven := act (CleanupProven w) in
  if proven then try! _u := act (JoinWorker w) in ok true
  else
    try! alive := act (WorkerAlive w) in
    try! pinned := (if negb alive then ok false
                    else try! pin := act (PinWorker w) in
                         try! _u := (if pin then act (SignalTerm w) else act (JoinWorker w)) in ok pin) in
    try! _u := wait_for_exit n w pinned in
    try! alive' := act (WorkerAlive w) in
    if alive' then ok false
    else
      try! _u := act (JoinWorker w) in
      do! cleaned := act (CleanupEvent w) in
      if negb cleaned then ok false
      else do! _u := act (SetProven w) in ok true.

(** [_terminate_backtest_worker]. *)
Definition terminate_backtest_worker (n : nat) (w : nat) : thr bool :=
  do! _u := act (AcquireLock w) in
  do! r := terminate_locked n w in
  do! _u := act (ReleaseLock w) in Ret r.

(** [_cleanup_registered_backtest_worker]. *)
Definition cleanup_registered_backtest_worker (n : nat) (r : string) (w : nat) : thr bool :=
  try! proven := terminate_backtest_worker n w in
  if proven then do! _u := act (Unregister r w) in ok true else ok false.

(** What every failed start-up ends with: the worker is dropped when its end
    is proven and retained otherwise, and the run is no longer starting. *)
Definition abandon_start (r : string) (w : nat) (cleanup_ok : bool) : prog Cmd unit :=
  do! _u := (if cleanup_ok then act (Unregister r w) else act (RetainForRetry r w)) in
  act (SetStarting r false).

(** [except BaseException] after [proc.start()] raised. *)
Definition failed_start (n : nat) (r : string) (w : nat) : thr unit :=
  do! identity := act (ReceiveIdentity w) in
  do! cleanup_ok :=
    (match identity with
     | Ok true =>
         do! _u := act (SetIdentity w) in
         do! t := terminate_backtest_worker n w in
         Ret (match t with Ok b => b | Err _ => false end)
     | Ok false => Ret true
     | Err _ => Ret false
     end) in
  do! _u := act (CloseQueue w) in
  do! _u := abandon_start r w cleanup_ok in
  raise OtherError.

(** The same for the three failures after the start: setup, isolation and
    registration. *)
Definition failed_setup (n : nat) (r : string) (w : nat) : thr unit :=
  do! t := terminate_backtest_worker n w in
  do! _u := act (CloseQueue w) in
  do! _u := abandon_start r w (match t with Ok b => b | Err _ => false end) in
  raise OtherError.

(** The wait for an isolated process group: [None] when the time is over or
    the process gone. *)
Fixpoint await_isolation (n : nat) (w : nat) : thr bool :=
  match n with
  | O => still_running
  | S n' =>
      do! alive := act (ProcessAlive w) in
      if negb alive then ok false
      else
        do! left := act TimeLeft in
        if negb left then ok false
        else try! isolated := act (ProcIsolated w) in if isolated then ok true else await_isolation n' w
  end.

(** After [proc.start()]: identity, isolation, registration. *)
Definition set_up (n : nat) (r : string) (w : nat) : thr unit :=
  do! identity := act (ReceiveIdentity w) in
  do! isolated :=
    (match identity with
     | Ok true =>
         do! _u := act (SetIdentity w) in
         do! disagrees := act Elsewhere in
         match disagrees with Ok 0%nat => await_isolation n w | _ => raise OtherError end
     | _ => raise OtherError
     end) in
  match isolated with
  | Err _ => failed_setup n r w
  | Ok isolated =>
      do! alive := act (ProcessAlive w) in
      if alive && negb isolated then failed_setup n r w
      else
        do! registered := act (RegisterWorker r w) in
        match registered with
        | Err _ => failed_setup n r w
        | Ok _ => do! _u := act (SetStarting r false) in ok tt
        end
  end.

(** Reading what is left in the queue of a finished process. *)
Fixpoint drain (n : nat) (w : nat) : thr (option bool) :=
  match n with
  | O => still_running
  | S n' =>
      try! m := act (QueueGet w) in
      match m with
      | Empty => ok None
      | Progress => try! _u := act Elsewhere in drain n' w
      | Final good => ok (Some good)
      end
  end.

(** [run_id in cancel_requests or worker.cancel_requested.is_set()]. *)
Definition cancelled (r : string) (w : nat) : prog Cmd bool :=
  do! c := act (CancelRequested r) in if c then Ret true else act (WorkerCancelled w).

(** The loop that waits for the final message. *)
Fixpoint poll (n : nat) (r : string) (w : nat) : thr (option bool) :=
  match n with
  | O => still_running
  | S n' =>
      do! c := cancelled r w in
      if c then
        try! stopped := terminate_backtest_worker n' w in
        if stopped then raise BacktestCancelled else raise OtherError
      else
        try! m := act (QueueGet w) in
        match m with
        | Final good => ok (Some good)
        | Progress => try! _u := act Elsewhere in poll n' r w
        | Empty =>
            do! alive := act (ProcessAlive w) in
            if alive then poll n' r w
            else do! c' := cancelled r w in if c' then raise BacktestCancelled else ok None
        end
  end.

(** The [try] of the compute loop: the result of the run. *)
Definition compute (n : nat) (r : string) (w : nat) : thr unit :=
  try! final := poll n r w in
  try! final' := (match final with Some g => ok (Some g) | None => drain n w end) in
  match final' with Some true => ok tt | _ => raise OtherError end.

(** The [finally] of [_execute_backtest_process]. *)
Definition final_cleanup (n : nat) (r : string) (w : nat) : thr unit :=
  do! c := cleanup_registered_backtest_worker n r w in
  do! q := act (CloseQueue w) in
  match c, q with Ok true, Ok _ => ok tt | _, _ => raise OtherError end.

(** [_execute_backtest_process]. *)
Definition execute_backtest_process (n : nat) (r : string) : thr unit :=
  try! w := act (NewWorker r) in
  do! admitted := act (AdmitStart r w) in
  if negb admitted then try! _u := act (CloseQueue w) in raise BacktestCancelled
  else
    do! started := act (StartProcess w) in
    match started with
    | Err _ => failed_start n r w
    | Ok _ =>
        try! _u := set_up n r w in
        finally (compute n r w) (final_cleanup n r w)
    end.

(** ** The background task

    [terminal_reservation] is a local variable of the coroutine that outlives
    an exception: a piece of the body returns it together with whether the
    coroutine returns now, or what was raised. *)
Abbreviation phase := (prog Cmd (option string * result exn bool)).

Definition and_then (p : phase) (k : option string -> phase) : phase :=
  do! x := p in match x with (res, Ok false) => k res | stop => Ret stop end.

(** [cancel_if_requested]. *)
Definition cancel_if_requested (r : string) (res : option string) : phase :=
  do! c := act (CancelRequested r) in
  if negb c then Ret (res, Ok false)
  else
    do! outcome := act (TerminalOutcome r) in
    match outcome with
    | Some _ => Ret (res, Ok true)
    | None =>
        do! ' (_, sealed) := act (SealTerminal r) in
        if sealed then
          do! m := act (MarkRun r "cancelled") in
          match m with
          | Err e => Ret (Some "cancelled", Err e)
          | Ok _ =>
              do! _u := act (DiscardCancel r) in
              do! broadcast := act Elsewhere in
              Ret (Some "cancelled", match broadcast with Ok _ => Ok true | Err e => Err e end)
          end
        else
          do! outcome := act (TerminalOutcome r) in
          match outcome with Some _ => Ret (res, Ok true) | None => Ret (res, Err OtherError) end
    end.

(** A step whose failure is handled on the spot: the run is marked failed and
    the coroutine returns.  [0] is its success, any other answer a failure it
    handles, an exception one it does not. *)
Definition handled_step (r : string) (res : option string) : phase :=
  do! x := act Elsewhere in
  match x with
  | Err e => Ret (res, Err e)
  | Ok 0%nat => Ret (res, Ok false)
  | Ok _ => do! m := act (MarkRun r "failed") in Ret (res, match m with Ok _ => Ok true | Err e => Err e end)
  end.

(** Code that only may raise. *)
Definition plain_step (res : option string) : phase :=
  do! x := act Elsewhere in Ret (res, match x with Ok _ => Ok false | Err e => Err e end).

Definition compute_step (n : nat) (r : string) (res : option string) : phase :=
  do! x := execute_backtest_process n r in Ret (res, match x with Ok _ => Ok false | Err e => Err e end).

(** Reserve success, save, forget the cancel request. *)
Definition success_step (r : string) (res : option string) : phase :=
  do! ' (_, sealed) := act (SealSuccess r) in
  if negb sealed then
    do! outcome := act (TerminalOutcome r) in
    match outcome with
    | Some _ => Ret (res, Ok true)
    | None => and_then (cancel_if_requested r res) (fun res => Ret (res, Err OtherError))
    end
  else
    do! broadcast := act Elsewhere in
    match broadcast with
    | Err e => Ret (Some "success", Err e)
    | Ok _ =>
        do! saved := act (SaveResult r) in
        match saved with
        | Err e => Ret (Some "success", Err e)
        | Ok _ =>
            do! broadcast := act Elsewhere in
            match broadcast with
            | Err e => Ret (Some "success", Err e)
            | Ok _ => do! _u := act (DiscardCancel r) in Ret (Some "success", Ok true)
            end
        end
    end.

(** The [try] of [_run_backtest_background]: strategy, artifact, bars, set-up,
    compute, success. *)
Definition background_body (n : nat) (r : string) : phase :=
  and_then (handled_step r None) (fun res =>
  and_then (cancel_if_requested r res) (fun res =>
  and_then (handled_step r res) (fun res =>
  and_then (cancel_if_requested r res) (fun res =>
  and_then (handled_step r res) (fun res =>
  and_then (cancel_if_requested r res) (fun res =>
  and_then (plain_step res) (fun res =>
  and_then (cancel_if_requested r res) (fun res =>
  and_then (plain_step res) (fun res =>
  and_then (compute_step n r res) (fun res =>
  and_then (cancel_if_requested r res) (fun res =>
  success_step r res))))))))))).

(** [except _BacktestCancelled]. *)
Definition on_cancelled (r : string) : thr unit :=
  do! outcome := act (TerminalOutcome r) in
  match outcome with
  | Some _ => ok tt
  | None =>
      do! ' (_, sealed) := act (SealTerminal r) in
      if negb sealed then
        do! outcome := act (TerminalOutcome r) in
        match outcome with Some _ => ok tt | None => raise OtherError end
      else
        try! _u := act (MarkRun r "cancelled") in
        try! _u := act Elsewhere in
        do! _u := act (DiscardCancel r) in ok tt
  end.

(** [except Exception]. *)
Definition on_error (r : string) (res : option string) : thr unit :=
  do! existing := act (TerminalOutcome r) in
  match existing, res with
  | Some _, None => ok tt
  | _, _ =>
      do! sealed := act (SealFailure r res) in
      if negb sealed then ok tt
      else
        try! _u := act Elsewhere in
        do! _u := act (MarkRun r "failed") in
        do! _u := act (DiscardCancel r) in ok tt
  end.

(** The [finally]: keep the lease while a worker is owned, or release it. *)
Definition settle_lease (r : string) (l : nat) : thr unit :=
  try! retained := act (RetainLease r l) in
  if retained then ok tt else do! _u := act (ReleaseLease l) in ok tt.

(** [_run_backtest_background]. *)
Definition run_backtest_background (n : nat) (r : string) (l : nat) : thr unit :=
  finally
    (do! ' (res, outcome) := background_body n r in
     match outcome with
     | Ok _ => ok tt
     | Err BacktestCancelled => on_cancelled r
     | Err _ => on_error r res
     end)
    (settle_lease r l).

(** ** Cancel requests *)

Record ActionAnswer := mkAnswer { ans_status : string; ans_accepted : bool }.

(** One round over the workers: whether each was proven gone. *)
Fixpoint cleanup_round (n : nat) (r : string) (ws : list nat) (proven : bool) : thr bool :=
  match ws with
  | [] => ok proven
  | w :: ws' =>
      do! _u := act (SetCancelRequested w) in
      do! left := act TimeLeft in
      if negb left then cleanup_round n r ws' false
      else
        try! stopped := cleanup_registered_backtest_worker n r w in
        cleanup_round n r ws' (proven && stopped)
  end.

(** [cleanup_all_owned_workers]: whether the run is sealed, and whether any
    worker was found. *)
Fixpoint cleanup_all_owned_workers (n : nat) (r : string) (found : bool) : thr (bool * bool) :=
  match n with
  | O => still_running
  | S n' =>
      do! ' (ws, sealed) := act (SealTerminal r) in
      if sealed then ok (true, found)
      else match ws with
           | [] => do! left := act TimeLeft in
                   if negb left then ok (false, found) else cleanup_all_owned_workers n' r found
           | _ =>
               try! proven := cleanup_round n' r ws true in
               if negb proven then ok (false, true) else cleanup_all_owned_workers n' r true
           end
  end.

(** [run_action] with the action "cancel". *)
Definition run_action (n : nat) (r : string) : thr ActionAnswer :=
  try! run := act (GetStatus r) in
  match run with
  | None => raise (HTTPException 404)
  | Some status =>
      do! requested := act (RequestCancel r) in
      if negb requested then ok (mkAnswer status false)
      else
        try! cleaned := cleanup_all_owned_workers n r false in
        if negb cleaned.1 then raise (HTTPException 503)
        else if negb (bool_decide (status ∈ ["queued"; "running"])) then
          do! _u := act (DiscardCancel r) in ok (mkAnswer status false)
        else if cleaned.2 then
          try! _u := act (MarkRun r "cancelled") in
          do! _u := act (DiscardCancel r) in
          try! _u := act Elsewhere in
          ok (mkAnswer "cancelled" true)
        else
          try! _u := act Elsewhere in ok (mkAnswer "cancelling" false)
  end.

(** ** The gateway

    A run's task starts with a fresh run id and a permit; a cancel request may
    name any run. *)
Inductive thread := Task (r : string) | CancelRequest (i : nat).

#[export] Instance thread_eq_dec : EqDecision thread.
Proof. solve_decision. Defined.
#[export] Instance thread_countable : Countable thread.
Proof.
  refine (inj_countable' (fun t => match t with Task r => inl r | CancelRequest i => inr i end)
            (fun x => match x with inl r => Task r | inr i => CancelRequest i end) _).
  by intros [].
Defined.

(** What a thread is given: the rounds it is observed for, and the run a
    request is about. *)
Record Call := mkCall { rounds : nat; target : string }.

Inductive outcome := TaskEnds (x : result exn unit) | Answered (x : result exn ActionAnswer).

Definition thread_body (t : thread) (c : Call) (s : Gateway) : prog Cmd outcome :=
  match t with
  | Task r => do! x := run_backtest_background (rounds c) r (default 0%nat (issued s !! r)) in Ret (TaskEnds x)
  | CancelRequest _ => do! x := run_action (rounds c) (target c) in Ret (Answered x)
  end.

(** Nothing has been recorded for the run. *)
Definition unused (r : string) (s : Gateway) : Prop :=
  run_status s !! r = None /\ TERMINAL_OUTCOMES s !! r = None /\ (r ∉ TERMINAL_RUNS s) /\ (r ∉ STARTING_RUNS s) /\
  ACTIVE_WORKERS s !! r = None /\ RETAINED_WORKERS s !! r = None /\ RETAINED_LEASES s !! r = None /\
  (r ∉ cancel_requests s) /\ (r ∉ accepted s) /\ issued s !! r = None /\
  map_Forall (fun _ k => w_run k <> r) (workers s).

#[export] Instance unused_dec r s : Decision (unused r s).
Proof. apply _. Defined.

(** [create_run] with the permit of [run_backtest]: no permit, no run. *)
Definition start_run (r : string) (s : Gateway) : option Gateway :=
  if decide (unused r s) then
    match try_acquire s with
    | None => None
    | Some (s1, l) =>
        Some (mkGateway (ACTIVE_WORKERS s1) (RETAINED_WORKERS s1) (STARTING_RUNS s1) (TERMINAL_RUNS s1)
                (TERMINAL_OUTCOMES s1) (RETAINED_LEASES s1) (cancel_requests s1) (workers s1) (permits s1)
                (leases_out s1) (next_lease s1) (<[r := "running"]> (run_status s1)) (<[r := l]> (issued s1)) (accepted s1))
    end
  else None.

Definition thread_enter (t : thread) (c : Call) (s : Gateway) : option Gateway :=
  match t with Task r => start_run r s | CancelRequest _ => Some s end.

Definition gateway_events := thread_event Choice os_event thread Call.

Definition gateway_run (capacity : nat) (evs : list gateway_events) : System Gateway thread Call outcome Cmd :=
  run_events perform happen thread_enter thread_body (mkSystem (gateway_init capacity) ∅) evs.

