(* ===== verification/BacktestFacts.v ===== *)
(** What holds of the backtest runs of [BacktestRuns] whatever threads and
    processes do: the invariant of the module's dictionaries, what each thread
    relies on, and the operations' proofs against them. *)

From S2P Require Import Prelude Threads BacktestRuns.

(** ** The invariant *)

Definition owns (s : Gateway) (r : string) (w : nat) : Prop :=
  ACTIVE_WORKERS s !! r = Some w \/ w ∈ retained_of s r.

(** Nothing of the worker's family computes, nor will once it was started. *)
Definition quiet (k : Worker) : Prop := kids k = false /\ (alive k = false \/ cleanup_complete k = true).

Definition worker_ok (k : Worker) : Prop :=
  (cleanup_complete k = true -> kids k = false) /\ (published k = false -> kids k = false) /\
  (cleanup_proven k = true -> cleanup_complete k = true) /\ (killed k = true -> cleanup_complete k = true).

(** Ended, with nothing left that could compute or start to. *)
Definition sealed (s : Gateway) (r : string) : Prop :=
  (r ∈ TERMINAL_RUNS s) /\ (r ∉ STARTING_RUNS s) /\ forall w, ~ owns s r w.

Record gateway_inv (capacity : nat) (s : Gateway) : Prop := {
  inv_owner : forall r w, owns s r w -> exists k, workers s !! w = Some k /\ w_run k = r;
  inv_single : forall r w w', owns s r w -> owns s r w' -> w = w';
  inv_live : forall w k, workers s !! w = Some k -> ~ quiet k -> owns s (w_run k) w;
  inv_worker : forall w k, workers s !! w = Some k -> worker_ok k;
  inv_terminal : forall r, r ∈ TERMINAL_RUNS s <-> is_Some (TERMINAL_OUTCOMES s !! r);
  inv_sealed : forall r o, TERMINAL_OUTCOMES s !! r = Some o -> o <> "failed" -> sealed s r;
  inv_accepted : forall r, r ∈ accepted s ->
    (r ∈ cancel_requests s \/ r ∈ TERMINAL_RUNS s) /\ TERMINAL_OUTCOMES s !! r <> Some "success";
  inv_done : forall r, run_status s !! r = Some "done" -> (r ∈ TERMINAL_RUNS s) /\ (r ∉ accepted s);
  inv_leases : forall r l, RETAINED_LEASES s !! r = Some l ->
    issued s !! r = Some l /\ (r ∉ STARTING_RUNS s) /\ exists w, owns s r w;
  inv_permit : forall r w, owns s r w -> exists l, issued s !! r = Some l /\ l ∈ leases_out s;
  inv_issued : forall r r' l, issued s !! r = Some l -> issued s !! r' = Some l -> r = r';
  inv_next : forall r l, issued s !! r = Some l -> (l < next_lease s)%nat;
  inv_out : forall l, l ∈ leases_out s -> (l < next_lease s)%nat;
  inv_lent : forall l, l ∈ leases_out s -> exists r, issued s !! r = Some l;
  inv_count : (permits s + size (leases_out s) = capacity)%nat
}.
Arguments inv_owner {_ _}.
Arguments inv_single {_ _}.
Arguments inv_live {_ _}.
Arguments inv_worker {_ _}.
Arguments inv_terminal {_ _}.
Arguments inv_sealed {_ _}.
Arguments inv_accepted {_ _}.
Arguments inv_done {_ _}.
Arguments inv_leases {_ _}.
Arguments inv_permit {_ _}.
Arguments inv_issued {_ _}.
Arguments inv_next {_ _}.
Arguments inv_out {_ _}.
Arguments inv_lent {_ _}.
Arguments inv_count {_ _}.

(** ** What the threads rely on *)

(** A worker only moves on. *)
Definition ages (k k' : Worker) : Prop :=
  w_run k' = w_run k /\ (cleanup_complete k = true -> cleanup_complete k' = true).

(** What everybody relies on. *)
Record common (s s' : Gateway) : Prop := {
  c_sealed : forall r, sealed s r -> sealed s' r;
  c_outcome : forall r o, TERMINAL_OUTCOMES s !! r = Some o ->
    TERMINAL_OUTCOMES s' !! r = Some o \/ TERMINAL_OUTCOMES s' !! r = Some "failed";
  c_accepted : accepted s ⊆ accepted s';
  c_worker : forall w k, workers s !! w = Some k -> exists k', workers s' !! w = Some k' /\ ages k k';
  c_issued : forall r l, issued s !! r = Some l -> issued s' !! r = Some l;
  c_next : (next_lease s <= next_lease s')%nat;
  c_out : forall l, (l < next_lease s)%nat -> l ∉ leases_out s -> l ∉ leases_out s'
}.

(** What others do not do to a process: start it, or revive its family. *)
Definition unstarted (k k' : Worker) : Prop :=
  (alive k' = true -> alive k = true) /\ (kids k' = true -> kids k = true \/ alive k = true) /\
  (cleanup_complete k' = true -> cleanup_complete k = true \/ alive k = true).

(** What the task of run [r] relies on as well. *)
Record private (r : string) (s s' : Gateway) : Prop := {
  p_starting : r ∈ STARTING_RUNS s' <-> r ∈ STARTING_RUNS s;
  p_owns : forall w, owns s' r w -> owns s r w;
  p_dropped : forall w, owns s r w -> owns s' r w \/ exists k, workers s' !! w = Some k /\ cleanup_complete k = true;
  p_lease : RETAINED_LEASES s' !! r = RETAINED_LEASES s !! r \/
    RETAINED_LEASES s' !! r = None /\
    exists l, RETAINED_LEASES s !! r = Some l /\ (l < next_lease s')%nat /\ l ∉ leases_out s';
  p_out : forall l, issued s !! r = Some l -> RETAINED_LEASES s !! r = None -> l ∈ leases_out s -> l ∈ leases_out s';
  p_outcome : forall o, TERMINAL_OUTCOMES s !! r = Some o -> TERMINAL_OUTCOMES s' !! r = Some o;
  p_worker : forall w k k', workers s !! w = Some k -> workers s' !! w = Some k' -> w_run k = r -> unstarted k k'
}.

Definition harmless (s s' : Gateway) : Prop := common s s' /\ forall r, private r s s'.
Definition harmless_but (r : string) (s s' : Gateway) : Prop := common s s' /\ forall r', r' <> r -> private r' s s'.

Definition gateway_rely (t : thread) (s s' : Gateway) : Prop :=
  common s s' /\ match t with Task r => private r s s' | CancelRequest _ => True end.

Lemma ages_refl k : ages k k.
Proof. by split. Qed.

Lemma ages_trans k1 k2 k3 : ages k1 k2 -> ages k2 k3 -> ages k1 k3.
Proof. intros [] []. split; [congruence | auto]. Qed.

Lemma unstarted_refl k : unstarted k k.
Proof. split_and!; auto. Qed.

Lemma unstarted_trans k1 k2 k3 : unstarted k1 k2 -> unstarted k2 k3 -> unstarted k1 k3.
Proof. intros (A1 & B1 & C1) (A2 & B2 & C2). split_and!; [auto| |]; intros H; [destruct (B2 H) | destruct (C2 H)]; auto. Qed.

#[export] Instance common_preorder : PreOrder common.
Proof.
  split.
  - intros s. split; auto. intros w k Hk. exists k. auto using ages_refl.
  - intros s1 s2 s3 H1 H2. split.
    + intros r Hr. by apply (c_sealed _ _ H2), (c_sealed _ _ H1).
    + intros r o Ho. destruct (c_outcome _ _ H1 _ _ Ho) as [E|E]; [by apply (c_outcome _ _ H2)|].
      destruct (c_outcome _ _ H2 _ _ E); auto.
    + etransitivity; [apply (c_accepted _ _ H1) | apply (c_accepted _ _ H2)].
    + intros w k Hk. destruct (c_worker _ _ H1 _ _ Hk) as (k2 & Hk2 & ?).
      destruct (c_worker _ _ H2 _ _ Hk2) as (k3 & ? & ?). eauto using ages_trans.
    + intros r l Hi. by apply (c_issued _ _ H2), (c_issued _ _ H1).
    + pose proof (c_next _ _ H1). pose proof (c_next _ _ H2). lia.
    + intros l Hl Hn. pose proof (c_next _ _ H1). apply (c_out _ _ H2); [lia|]. by apply (c_out _ _ H1).
Qed.

Lemma private_refl r s : private r s s.
Proof. split; auto. intros w k k' ? ?. simplify_eq. intros _. apply unstarted_refl. Qed.

Lemma private_trans r s1 s2 s3 : common s1 s2 -> common s2 s3 -> private r s1 s2 -> private r s2 s3 -> private r s1 s3.
Proof.
  intros C1 C2 P1 P2. split.
  - rewrite (p_starting _ _ _ P2). apply (p_starting _ _ _ P1).
  - intros w Hw. by apply (p_owns _ _ _ P1), (p_owns _ _ _ P2).
  - intros w Hw. destruct (p_dropped _ _ _ P1 _ Hw) as [Hw2 | (k & Hk & Hc)]; [by apply (p_dropped _ _ _ P2)|].
    right. destruct (c_worker _ _ C2 _ _ Hk) as (k' & ? & [_ Ha]). eauto.
  - destruct (p_lease _ _ _ P2) as [E2 | (E2 & l & E & Hl & Ho)].
    + destruct (p_lease _ _ _ P1) as [E1 | (E1 & l & E & Hl & Ho)]; [left; congruence|].
      right. split; [congruence|]. exists l. split_and!; [done| |by apply (c_out _ _ C2)]. pose proof (c_next _ _ C2). lia.
    + right. split; [done|]. exists l. destruct (p_lease _ _ _ P1) as [E1 | (E1 & ?)]; [|congruence].
      split_and!; [congruence | done | done].
  - intros l Hi Hn Ho. apply (p_out _ _ _ P2); [by apply (c_issued _ _ C1)| |by apply (p_out _ _ _ P1)].
    destruct (p_lease _ _ _ P1) as [E1 | (E1 & ?)]; congruence.
  - intros o Ho. by apply (p_outcome _ _ _ P2), (p_outcome _ _ _ P1).
  - intros w k k' Hk Hk' Hr. destruct (c_worker _ _ C1 _ _ Hk) as (k2 & Hk2 & [Hr2 _]).
    eapply unstarted_trans; [eapply (p_worker _ _ _ P1); eauto | eapply (p_worker _ _ _ P2); eauto; congruence].
Qed.

#[export] Instance gateway_rely_preorder : RelyPreOrder gateway_rely.
Proof.
  intros t. split.
  - intros s. split; [reflexivity|]. destruct t; auto using private_refl.
  - intros s1 s2 s3 [C1 P1] [C2 P2]. split; [by etransitivity|]. destruct t; eauto using private_trans.
Qed.

#[export] Instance harmless_preorder : PreOrder harmless.
Proof.
  split.
  - intros s. split; [reflexivity|]. auto using private_refl.
  - intros s1 s2 s3 [C1 P1] [C2 P2]. split; [by etransitivity|]. eauto using private_trans.
Qed.

Abbreviation gateway_guar := (guar gateway_rely).

Lemma harmless_rely t s s' : harmless s s' -> gateway_rely t s s'.
Proof. intros [C P]. split; [done|]. destruct t; auto. Qed.

Lemma harmless_guar t s s' : harmless s s' -> gateway_guar t s s'.
Proof. intros H t' _. by apply harmless_rely. Qed.

Lemma harmless_but_guar r s s' : harmless_but r s s' -> gateway_guar (Task r) s s'.
Proof. intros [C P] t' Ht. split; [done|]. destruct t'; [apply P; congruence | done]. Qed.

Lemma harmless_weaken r s s' : harmless s s' -> harmless_but r s s'.
Proof. intros [C P]. split; auto. Qed.

(** ** Workers *)

Lemma lookup_upd f w s w' k' : workers (upd_worker f w s) !! w' = Some k' ->
  exists k, workers s !! w' = Some k /\ k' = (if decide (w = w') then f k else k).
Proof.
  simpl. destruct (decide (w = w')) as [->|Hne].
  - rewrite lookup_alter_eq. destruct (workers s !! w') as [k|]; [|done]. intros [= <-]. eauto.
  - rewrite lookup_alter_ne by done. eauto.
Qed.

Lemma lookup_upd_fwd f w s w' k : workers s !! w' = Some k ->
  workers (upd_worker f w s) !! w' = Some (if decide (w = w') then f k else k).
Proof. intros Hk. simpl. rewrite lookup_alter. case_decide; subst; by rewrite Hk. Qed.

Lemma worker_lookup s w k : workers s !! w = Some k -> worker s w = k.
Proof. intros Hk. unfold worker. by rewrite Hk. Qed.

Lemma upd_worker_inv cap f w s : gateway_inv cap s ->
  (forall k, workers s !! w = Some k -> worker_ok k ->
     w_run (f k) = w_run k /\ worker_ok (f k) /\ (~ quiet (f k) -> quiet k -> owns s (w_run k) w)) ->
  gateway_inv cap (upd_worker f w s).
Proof.
  intros Hi Hf. split; try apply Hi.
  - intros r w' Hw. destruct (inv_owner Hi _ _ Hw) as (k & Hk & Hr). eexists. split; [by apply lookup_upd_fwd|].
    case_decide; [subst|done]. by destruct (Hf _ Hk (inv_worker Hi _ _ Hk)) as (-> & _).
  - intros w' k' Hk' Hq. apply lookup_upd in Hk' as (k & Hk & ->). case_decide; [subst|by apply (inv_live Hi)].
    destruct (Hf _ Hk (inv_worker Hi _ _ Hk)) as (-> & _ & Ho). destruct (decide (kids k = false /\ (alive k = false \/ cleanup_complete k = true))).
    + by apply Ho.
    + by apply (inv_live Hi).
  - intros w' k' Hk'. apply lookup_upd in Hk' as (k & Hk & ->). pose proof (inv_worker Hi _ _ Hk).
    case_decide; [subst; by destruct (Hf _ Hk H) as (_ & ? & _) | done].
Qed.

Lemma upd_worker_common f w s : (forall k, ages k (f k)) -> common s (upd_worker f w s).
Proof.
  intros Hf. split; auto. intros w' k Hk. eexists. split; [by apply lookup_upd_fwd|]. case_decide; auto using ages_refl.
Qed.

Lemma upd_worker_private r f w s :
  (forall k, workers s !! w = Some k -> w_run k = r -> unstarted k (f k)) -> private r s (upd_worker f w s).
Proof.
  intros Hf. split; auto. intros w' k k' Hk Hk' Hr. apply lookup_upd in Hk' as (k0 & Hk0 & ->). simplify_eq.
  case_decide; [subst; eauto | apply unstarted_refl].
Qed.

Lemma upd_worker_harmless f w s :
  (forall k, ages k (f k)) -> (forall k, unstarted k (f k)) -> harmless s (upd_worker f w s).
Proof. split; [by apply upd_worker_common | intros; by apply upd_worker_private]. Qed.

(** Attributes that say nothing about processes. *)
Definition bookkeeping (f : Worker -> Worker) : Prop := forall k,
  w_run (f k) = w_run k /\ alive (f k) = alive k /\ kids (f k) = kids k /\ published (f k) = published k /\
  cleanup_complete (f k) = cleanup_complete k.

Lemma bookkeeping_harmless f w s : bookkeeping f -> harmless s (upd_worker f w s).
Proof.
  intros Hf. apply upd_worker_harmless; intros k; destruct (Hf k) as (R & A & K & P & C).
  - split; congruence.
  - unfold unstarted. rewrite A, K, C. auto.
Qed.

Lemma bookkeeping_inv cap f w s : gateway_inv cap s -> bookkeeping f ->
  (forall k, workers s !! w = Some k -> cleanup_proven (f k) = true -> cleanup_proven k = true \/ cleanup_complete k = true) ->
  (forall k, workers s !! w = Some k -> killed (f k) = true -> killed k = true \/ cleanup_complete k = true) ->
  gateway_inv cap (upd_worker f w s).
Proof.
  intros Hi Hf Hp Hk. apply upd_worker_inv; [done|]. intros k Hw (O1 & O2 & O3 & O4).
  destruct (Hf k) as (R & A & K & P & C). unfold worker_ok, quiet. rewrite A, K, P, C. split_and!; auto.
  - intros H. destruct (Hp _ Hw H); auto.
  - intros H. destruct (Hk _ Hw H); auto.
  - intros H H'. done.
Qed.

Lemma os_change_ok ev k : worker_ok k ->
  w_run (os_change ev k) = w_run k /\ worker_ok (os_change ev k) /\ ages k (os_change ev k) /\ unstarted k (os_change ev k) /\
  (quiet k -> quiet (os_change ev k)).
Proof.
  unfold worker_ok, ages, unstarted, quiet.
  destruct ev as [w|w|w|w|w], k as [r a kd p po c ki ow ca pr lo]; simpl;
    destruct a, kd, p, c; simpl; intuition congruence.
Qed.

Lemma os_change_harmless ev k : ages k (os_change ev k) /\ unstarted k (os_change ev k).
Proof.
  unfold ages, unstarted.
  destruct ev as [w|w|w|w|w], k as [r a kd p po c ki ow ca pr lo]; simpl; destruct a, kd, p, c; simpl; intuition congruence.
Qed.

Lemma happen_ok cap ev s : gateway_inv cap s -> gateway_inv cap (happen ev s) /\ harmless s (happen ev s).
Proof.
  intros Hi. split.
  - apply upd_worker_inv; [done|]. intros k Hk Ho. destruct (os_change_ok ev k Ho) as (? & ? & _ & _ & Hq). split_and!; auto.
    intros H1 H2. by apply Hq in H2.
  - apply upd_worker_harmless; intros k; apply os_change_harmless.
Qed.

Lemma new_worker_inv cap r w s : gateway_inv cap s -> workers s !! w = None ->
  gateway_inv cap (set_workers (<[w := new_worker r]> (workers s)) s).
Proof.
  intros Hi Hn. split; try apply Hi; simpl.
  - intros r' w' Hw. destruct (inv_owner Hi _ _ Hw) as (k & Hk & ?). exists k. split; [|done].
    by rewrite lookup_insert_ne by congruence.
  - intros w' k'. rewrite lookup_insert_Some. intros [[<- <-] | [_ Hk]] Hq; [|by apply (inv_live Hi)].
    destruct Hq. split; simpl; auto.
  - intros w' k'. rewrite lookup_insert_Some. intros [[<- <-] | [_ Hk]]; [|by apply (inv_worker Hi _ _ Hk)].
    by split_and!.
Qed.

Lemma new_worker_harmless r w s : workers s !! w = None -> harmless s (set_workers (<[w := new_worker r]> (workers s)) s).
Proof.
  intros Hn. split; [split; auto | intros r'; split; auto]; simpl.
  - intros w' k Hk. exists k. rewrite lookup_insert_ne by congruence. auto using ages_refl.
  - intros w' k k' Hk. rewrite lookup_insert_ne by congruence. intros Hk' _. simplify_eq. apply unstarted_refl.
Qed.

(** [proc.start()] of an owned worker, and of one of the task's own run. *)
Lemma start_inv cap p w s : gateway_inv cap s ->
  (forall k, workers s !! w = Some k -> owns s (w_run k) w) -> gateway_inv cap (upd_worker (with_alive true p) w s).
Proof. intros Hi Hw. apply upd_worker_inv; [done|]. intros k Hk Ho. split_and!; auto. Qed.

Lemma start_harmless_but r p w s : (forall k, workers s !! w = Some k -> w_run k = r) ->
  harmless_but r s (upd_worker (with_alive true p) w s).
Proof.
  intros Hr. split.
  - apply upd_worker_common. intros k. by split.
  - intros r' Hne. apply upd_worker_private. intros k Hk Hk'. rewrite (Hr _ Hk) in Hk'. done.
Qed.

(** ** Ownership *)

Lemma elem_backtest_workers s r w : w ∈ backtest_workers r s <-> owns s r w.
Proof.
  unfold backtest_workers, owns. set (l := retained_of s r). clearbody l.
  assert (H : forall acc, w ∈ fold_left (fun ws w => if bool_decide (w ∈ ws) then ws else ws ++ [w]) l acc <-> w ∈ acc \/ w ∈ l).
  { induction l as [|x l IH]; intros acc; simpl; [rewrite elem_of_nil; tauto|].
    rewrite IH, elem_of_cons. case_bool_decide; rewrite ?elem_of_app, ?list_elem_of_singleton; [|tauto].
    split; [tauto|]. intros [?|[->|?]]; auto. }
  rewrite H. destruct (ACTIVE_WORKERS s !! r) as [w'|]; rewrite ?list_elem_of_singleton, ?elem_of_nil; [|naive_solver].
  split; intros [E|E]; subst; auto; simplify_eq; auto.
Qed.

Lemma no_workers s r : backtest_workers r s = [] <-> forall w, ~ owns s r w.
Proof.
  split.
  - intros E w Hw. apply elem_backtest_workers in Hw. rewrite E in Hw. by apply elem_of_nil in Hw.
  - intros Hn. destruct (backtest_workers r s) as [|w l] eqn:E; [done|]. destruct (Hn w).
    apply elem_backtest_workers. rewrite E. constructor.
Qed.

Lemma has_ownership_false s r : has_ownership r s = false <-> (forall w, ~ owns s r w) /\ r ∉ STARTING_RUNS s.
Proof.
  unfold has_ownership, owns. rewrite !orb_false_iff, !bool_decide_eq_false. split.
  - intros [[Ha Hr] Hs]. split; [|done]. intros w [Hw|Hw]; [apply Ha; eauto|].
    apply Hr. intros E. rewrite E in Hw. by apply elem_of_nil in Hw.
  - intros [Hn Hs]. split_and!; [| |done].
    + intros [w Hw]. apply (Hn w). auto.
    + intros Hr. destruct (retained_of s r) as [|w l] eqn:E; [done|]. apply (Hn w). right. constructor.
Qed.

Lemma owns_set_owners active retained s r w :
  owns (set_owners active retained s) r w <-> (active !! r = Some w \/ w ∈ default [] (retained !! r)).
Proof. done. Qed.

(** [SetStarting _ False]. *)
Lemma stop_starting_inv cap r s : gateway_inv cap s -> gateway_inv cap (set_backtest_worker_starting r false s).
Proof.
  intros Hi. split; try apply Hi; simpl.
  - intros r' o Ho Hf. destruct (inv_sealed Hi _ _ Ho Hf) as (? & ? & ?). split_and!; [done | simpl; set_solver | done].
  - intros r' l Hl. destruct (inv_leases Hi _ _ Hl) as (? & ? & ?). split_and!; [done | set_solver | done].
Qed.

Lemma stop_starting_harmless_but r s : harmless_but r s (set_backtest_worker_starting r false s).
Proof.
  split; [split; auto | intros r' Hne; split; auto]; simpl.
  - intros r' (? & ? & ?). split_and!; [done | simpl; set_solver | done].
  - intros w k ?. eauto using ages_refl.
  - set_solver.
  - intros w k k' ? ?. simplify_eq. intros _. apply unstarted_refl.
Qed.

(** Changes that leave workers, leases and owners alone. *)
Lemma same_worker s w k : workers s !! w = Some k -> exists k', workers s !! w = Some k' /\ ages k k'.
Proof. eauto using ages_refl. Qed.

Lemma same_unstarted s w k k' : workers s !! w = Some k -> workers s !! w = Some k' -> unstarted k k'.
Proof. intros. simplify_eq. apply unstarted_refl. Qed.

#[local] Hint Resolve same_worker same_unstarted : core.

(** ** Cancel requests, outcomes, rows *)

Lemma request_cancel_ok cap r s s' b : gateway_inv cap s -> request_backtest_cancel r s = (s', b) ->
  gateway_inv cap s' /\ harmless s s' /\ (b = true -> r ∈ accepted s').
Proof.
  intros Hi. unfold request_backtest_cancel. case_bool_decide as Ht; intros [= <- <-]; [split_and!; [done|reflexivity|done]|].
  split_and!.
  - split; try apply Hi; simpl.
    + intros r'. rewrite !elem_of_union, !elem_of_singleton. intros [->|Ha].
      * split; [auto|]. intros E. apply Ht, (inv_terminal Hi). eauto.
      * destruct (inv_accepted Hi _ Ha) as [[?|?] ?]; auto.
    + intros r' Hd. destruct (inv_done Hi _ Hd). split; [done|]. rewrite elem_of_union, elem_of_singleton. naive_solver.
  - split; [split; auto; simpl; set_solver | intros r'; split; eauto].
  - simpl. set_solver.
Qed.

Lemma discard_cancel_ok cap r s : gateway_inv cap s -> r ∈ TERMINAL_RUNS s ->
  gateway_inv cap (set_cancels (cancel_requests s ∖ {[r]}) (accepted s) s).
Proof.
  intros Hi Ht. split; try apply Hi. simpl. intros r' Ha. destruct (inv_accepted Hi _ Ha) as [Hc Ho]. split; [|done].
  destruct (decide (r' = r)) as [->|]; [auto|]. destruct Hc; set_solver.
Qed.

Lemma discard_cancel_harmless r s : harmless s (set_cancels (cancel_requests s ∖ {[r]}) (accepted s) s).
Proof. split; [split; auto | intros r'; split; eauto]. Qed.

(** Choosing the outcome of a run. *)
Lemma set_outcome_inv cap r o s : gateway_inv cap s ->
  (o <> "failed" -> (r ∉ STARTING_RUNS s) /\ (forall w, ~ owns s r w)) ->
  (o = "success" -> r ∉ accepted s) -> gateway_inv cap (set_outcome r o s).
Proof.
  intros Hi Hq Hs. split; try apply Hi; simpl.
  - intros r'. rewrite elem_of_union, elem_of_singleton, lookup_insert_is_Some', (inv_terminal Hi). naive_solver.
  - intros r' o'. rewrite lookup_insert_Some. intros [[<- <-]|[Hne Ho]] Hf.
    + destruct (Hq Hf). split_and!; [simpl; set_solver | done | done].
    + destruct (inv_sealed Hi _ _ Ho Hf) as (? & ? & ?). split_and!; [simpl; set_solver | done | done].
  - intros r' Ha. destruct (inv_accepted Hi _ Ha) as [Hc Ho]. split; [set_solver|].
    rewrite lookup_insert_Some. intros [[<- ->]|[_ ?]]; [by apply (Hs eq_refl) | done].
  - intros r' Hd. destruct (inv_done Hi _ Hd). set_solver.
Qed.

Lemma set_outcome_common r o s :
  (TERMINAL_OUTCOMES s !! r = None \/ o = "failed") -> common s (set_outcome r o s).
Proof.
  intros Ho. split; eauto.
  - intros r' (? & ? & ?). split_and!; [simpl; set_solver | done | done].
  - intros r' o' Ho'. simpl. destruct (decide (r' = r)) as [->|]; [|rewrite lookup_insert_ne by done; auto].
    rewrite lookup_insert_eq. destruct Ho as [?| ->]; [congruence | auto].
Qed.

Lemma set_outcome_private r r' o s : r' <> r \/ TERMINAL_OUTCOMES s !! r' = None -> private r' s (set_outcome r o s).
Proof.
  intros H. split; eauto. intros o' Ho. simpl. rewrite lookup_insert_ne; [done|]. intros ->. destruct H; congruence.
Qed.

Lemma seal_terminal_ok cap r s s' ws b : gateway_inv cap s -> seal_backtest_terminal_if_quiescent r s = (s', (ws, b)) ->
  gateway_inv cap s' /\ harmless s s' /\ (b = true -> sealed s' r).
Proof.
  intros Hi. unfold seal_backtest_terminal_if_quiescent.
  destruct (bool_decide (backtest_workers r s <> []) || bool_decide (r ∈ STARTING_RUNS s)) eqn:E;
    [intros [= <- <- <-]; split_and!; [done | reflexivity | done]|].
  apply orb_false_iff in E as [E1 E2]. rewrite bool_decide_eq_false in E1, E2.
  apply dec_stable in E1. pose proof (proj1 (no_workers s r) E1) as Hn.
  destruct (TERMINAL_OUTCOMES s !! r) as [o|] eqn:Ho; intros [= <- <- <-].
  - split_and!; [done | reflexivity|]. intros _. split_and!; [apply (inv_terminal Hi); eauto | done | done].
  - split_and!.
    + apply set_outcome_inv; [done | done | discriminate].
    + split; [apply set_outcome_common; auto|]. intros r'. apply set_outcome_private.
      destruct (decide (r' = r)) as [->|]; auto.
    + intros _. split_and!; [simpl; set_solver | done | done].
Qed.

Lemma seal_success_ok cap r s s' ws b : gateway_inv cap s -> seal_backtest_success_if_quiescent r s = (s', (ws, b)) ->
  gateway_inv cap s' /\ harmless_but r s s' /\ (b = true -> TERMINAL_OUTCOMES s' !! r = Some "success").
Proof.
  intros Hi. unfold seal_backtest_success_if_quiescent. destruct (_ || _) eqn:E;
    [intros [= <- <- <-]; split_and!; [done | by apply harmless_weaken | done]|].
  rewrite !orb_false_iff, !bool_decide_eq_false in E. destruct E as [[[E1 E2] E3] E4].
  apply dec_stable in E1. pose proof (proj1 (no_workers s r) E1).
  assert (Ho : TERMINAL_OUTCOMES s !! r = None).
  { destruct (TERMINAL_OUTCOMES s !! r) eqn:Ho; [|done]. destruct E4. apply (inv_terminal Hi). eauto. }
  intros [= <- <- <-]. split_and!.
  - apply set_outcome_inv; [done | done|]. intros _ Ha. destruct (inv_accepted Hi _ Ha) as [[?|?] _]; done.
  - split; [apply set_outcome_common; auto|]. intros r' Hne. apply set_outcome_private. auto.
  - intros _. simpl. by rewrite lookup_insert_eq.
Qed.

Lemma seal_failure_ok cap r o s s' b : gateway_inv cap s -> seal_backtest_failure r o s = (s', b) ->
  gateway_inv cap s' /\ harmless_but r s s' /\ (b = true -> r ∈ TERMINAL_RUNS s').
Proof.
  intros Hi. unfold seal_backtest_failure. intros E.
  assert (H : (s', b) = (s, false) \/ (s', b) = (set_outcome r "failed" s, true)).
  { destruct (TERMINAL_OUTCOMES s !! r); [case_bool_decide|]; rewrite <- E; auto. }
  destruct H as [[= -> ->]|[= -> ->]]; [split_and!; [done | by apply harmless_weaken | done]|].
  split_and!.
  - apply set_outcome_inv; done.
  - split; [apply set_outcome_common; auto|]. intros r' Hne. apply set_outcome_private. auto.
  - intros _. simpl. set_solver.
Qed.

Lemma set_status_inv cap r st s : gateway_inv cap s ->
  (st = "done" -> (r ∈ TERMINAL_RUNS s) /\ r ∉ accepted s) -> gateway_inv cap (set_status r st s).
Proof.
  intros Hi Hd. split; try apply Hi. simpl. intros r'. destruct (decide (r' = r)) as [->|].
  - rewrite lookup_alter_eq. destruct (run_status s !! r); [|done]. intros [= ->]. auto.
  - rewrite lookup_alter_ne by done. apply (inv_done Hi).
Qed.

Lemma set_status_harmless r st s : harmless s (set_status r st s).
Proof. split; [split; auto | intros r'; split; eauto]. Qed.

(** ** Owners and leases of one run *)

(** [s'] differs from [s] at most in owners and lease of [r], and in permits. *)
Record only_run (r : string) (s s' : Gateway) : Prop := {
  o_starting : STARTING_RUNS s' = STARTING_RUNS s;
  o_terminal : TERMINAL_RUNS s' = TERMINAL_RUNS s;
  o_outcomes : TERMINAL_OUTCOMES s' = TERMINAL_OUTCOMES s;
  o_cancels : cancel_requests s' = cancel_requests s;
  o_workers : workers s' = workers s;
  o_next : next_lease s' = next_lease s;
  o_status : run_status s' = run_status s;
  o_issued : issued s' = issued s;
  o_accepted : accepted s' = accepted s;
  o_owns : forall r' w, r' <> r -> owns s' r' w <-> owns s r' w;
  o_leases : forall r', r' <> r -> RETAINED_LEASES s' !! r' = RETAINED_LEASES s !! r';
  o_out : leases_out s' ⊆ leases_out s;
  o_kept : forall r' l, r' <> r -> issued s !! r' = Some l -> l ∈ leases_out s -> l ∈ leases_out s'
}.

Lemma only_run_inv cap r s s' : gateway_inv cap s -> only_run r s s' ->
  (forall w, owns s' r w -> exists k, workers s !! w = Some k /\ w_run k = r) ->
  (forall w w', owns s' r w -> owns s' r w' -> w = w') ->
  (forall w k, workers s !! w = Some k -> w_run k = r -> ~ quiet k -> owns s' r w) ->
  (sealed s r -> forall w, ~ owns s' r w) ->
  (forall l, RETAINED_LEASES s' !! r = Some l -> issued s !! r = Some l /\ (r ∉ STARTING_RUNS s) /\ exists w, owns s' r w) ->
  (forall w, owns s' r w -> exists l, issued s !! r = Some l /\ l ∈ leases_out s') ->
  (permits s' + size (leases_out s') = cap)%nat ->
  gateway_inv cap s'.
Proof.
  intros Hi [E1 E2 E3 E4 E5 E6 E7 E8 E9 Ho Hl Hout Hkept] Howner Hsingle Hlive Hsealed Hleases Hpermit Hcount.
  assert (Hr : forall r', r' = r \/ r' <> r) by (intros r'; destruct (decide (r' = r)); auto).
  split; rewrite ?E1, ?E2, ?E3, ?E4, ?E5, ?E6, ?E7, ?E8, ?E9; try apply Hi; try done.
  - intros r' w. destruct (Hr r') as [->|Hne]; [auto|]. rewrite Ho by done. apply Hi.
  - intros r' w w'. destruct (Hr r') as [->|Hne]; [auto|]. rewrite !Ho by done. apply Hi.
  - intros w k Hk Hq. destruct (Hr (w_run k)) as [E|Hne]; [rewrite E; eauto|]. apply Ho; [done|]. by apply (inv_live Hi).
  - intros r' o HO Hf. pose proof (inv_sealed Hi _ _ HO Hf) as Hs. destruct Hs as (H1 & H2 & H3) eqn:EH.
    unfold sealed. rewrite E1, E2. split_and!; [done | done|]. intros w. destruct (Hr r') as [->|Hne]; [by apply Hsealed|].
    rewrite Ho by done. apply H3.
  - intros r' l. destruct (Hr r') as [->|Hne]; [auto|]. rewrite Hl by done. intros HL.
    destruct (inv_leases Hi _ _ HL) as (? & ? & w & ?). split_and!; [done | done|]. exists w. by apply Ho.
  - intros r' w. destruct (Hr r') as [->|Hne]; [exact (Hpermit w)|]. rewrite Ho by done. intros Hw.
    destruct (inv_permit Hi _ _ Hw) as (l & ? & ?). exists l. eauto.
  - intros l Hl'. apply (inv_out Hi). by apply Hout.
  - intros l Hl'. apply (inv_lent Hi). by apply Hout.
Qed.

Lemma only_run_common r s s' : only_run r s s' -> (sealed s r -> forall w, ~ owns s' r w) -> common s s'.
Proof.
  intros [E1 E2 E3 E4 E5 E6 E7 E8 E9 Ho Hl Hout Hkept] Hs. split; rewrite ?E3, ?E5, ?E6, ?E8, ?E9; eauto.
  intros r' (H1 & H2 & H3). unfold sealed. rewrite E1, E2. split_and!; [done | done|]. intros w.
  destruct (decide (r' = r)) as [->|Hne]; [apply Hs; by split_and! | by rewrite Ho].
Qed.

Lemma only_run_private r r' s s' : only_run r s s' -> r' <> r -> private r' s s'.
Proof.
  intros [E1 E2 E3 E4 E5 E6 E7 E8 E9 Ho Hl Hout Hkept] Hne. split; rewrite ?E1, ?E3, ?E5; eauto.
  - intros w. by rewrite Ho.
  - intros w Hw. left. by apply Ho.
Qed.

Lemma only_run_harmless_but r s s' : only_run r s s' -> (sealed s r -> forall w, ~ owns s' r w) -> harmless_but r s s'.
Proof. intros Ho Hs. split; [by eapply only_run_common|]. intros r' Hne. by eapply only_run_private. Qed.

Lemma owners_only_run r active retained s :
  (forall r', r' <> r -> active !! r' = ACTIVE_WORKERS s !! r' /\ retained !! r' = RETAINED_WORKERS s !! r') ->
  only_run r s (set_owners active retained s).
Proof.
  intros H. split; try done. intros r' w Hne. destruct (H r' Hne) as [Ha Hr].
  unfold owns, retained_of. simpl. by rewrite Ha, Hr.
Qed.

(** The permit of a run that owns nothing goes back. *)
Lemma release_count cap l s : gateway_inv cap s -> (permits (release l s) + size (leases_out (release l s)) = cap)%nat.
Proof.
  intros Hi. unfold release. case_bool_decide as Hl; simpl; [|apply (inv_count Hi)].
  pose proof (inv_count Hi). assert (size (leases_out s) = S (size (leases_out s ∖ {[l]}))); [|lia].
  rewrite size_difference by set_solver. rewrite size_singleton.
  assert (size (leases_out s) <> 0%nat); [|lia]. rewrite size_non_empty_iff. set_solver.
Qed.

Lemma release_out l s : leases_out (release l s) = leases_out s ∖ {[l]}.
Proof. unfold release. case_bool_decide; [done|]. set_solver. Qed.

Lemma release_only_run cap r l s : gateway_inv cap s -> issued s !! r = Some l -> only_run r s (release l s).
Proof.
  intros Hi Hl. assert (H : forall r' l', r' <> r -> issued s !! r' = Some l' -> l' <> l).
  { intros r' l' Hne Hl' ->. by destruct Hne; eapply (inv_issued Hi). }
  unfold release. case_bool_decide; split; try done; simpl; [set_solver|]. intros r' l' Hne Hl' Ho. pose proof (H _ _ Hne Hl'). set_solver.
Qed.

Lemma release_ok cap r l s : gateway_inv cap s -> issued s !! r = Some l -> (forall w, ~ owns s r w) ->
  gateway_inv cap (release l s) /\ harmless_but r s (release l s).
Proof.
  intros Hi Hl Hn. pose proof (release_only_run _ _ _ _ Hi Hl) as Ho.
  assert (E : forall w, owns (release l s) r w <-> owns s r w) by (intros w; unfold release; by case_bool_decide).
  split.
  - eapply only_run_inv; eauto.
    + intros w Hw. by apply E, Hn in Hw.
    + intros w w' Hw. by apply E, Hn in Hw.
    + intros w k Hk <- Hq. apply E. by apply (inv_live Hi).
    + intros _ w Hw. by apply E, Hn in Hw.
    + intros l'. replace (RETAINED_LEASES (release l s)) with (RETAINED_LEASES s) by (unfold release; by case_bool_decide).
      intros Hl'. destruct (inv_leases Hi _ _ Hl') as (_ & _ & w & Hw). by apply Hn in Hw.
    + intros w Hw. by apply E, Hn in Hw.
    + by apply release_count.
  - apply only_run_harmless_but; [done|]. intros _ w Hw. by apply E, Hn in Hw.
Qed.

Lemma others_insert {A} (m : gmap string A) (r : string) (x : A) r' : r' <> r -> <[r := x]> m !! r' = m !! r'.
Proof. intros. by rewrite lookup_insert_ne. Qed.

Lemma others_delete {A} (m : gmap string A) (r r' : string) : r' <> r -> delete r m !! r' = m !! r'.
Proof. intros. by rewrite lookup_delete_ne. Qed.

#[local] Hint Resolve others_insert others_delete : core.

(** While the run is starting, its task may own the worker or not. *)
Lemma own_inv cap r w s s' : gateway_inv cap s -> only_run r s s' -> r ∈ STARTING_RUNS s ->
  (exists k, workers s !! w = Some k /\ w_run k = r) -> (forall w', owns s r w' -> w' = w) ->
  RETAINED_LEASES s' !! r = None -> permits s' = permits s -> leases_out s' = leases_out s ->
  (exists l, issued s !! r = Some l /\ l ∈ leases_out s) ->
  (forall w', owns s' r w' <-> w' = w) -> gateway_inv cap s' /\ harmless_but r s s'.
Proof.
  intros Hi Ho Hst Hk Hown Hl Hp Hout Hperm E. assert (Hs : sealed s r -> forall w', ~ owns s' r w') by (by intros (_ & ? & _)).
  split; [|by apply only_run_harmless_but].
  eapply only_run_inv; eauto.
  - intros w' ->%E. done.
  - intros w1 w2 ->%E ->%E. done.
  - intros w' k Hw <- Hq. apply E, Hown. by apply (inv_live Hi).
  - intros l. by rewrite Hl.
  - intros w' _. by rewrite Hout.
  - rewrite Hp, Hout. apply (inv_count Hi).
Qed.

Lemma register_ok cap r w s s' b : gateway_inv cap s -> r ∈ STARTING_RUNS s ->
  (exists k, workers s !! w = Some k /\ w_run k = r) -> (forall w', owns s r w' -> w' = w) ->
  RETAINED_LEASES s !! r = None -> (exists l, issued s !! r = Some l /\ l ∈ leases_out s) ->
  register_backtest_worker r w s = (s', b) -> gateway_inv cap s' /\ harmless_but r s s'.
Proof.
  intros Hi Hst Hk Hown Hl Hperm. unfold register_backtest_worker. case_bool_decide as Ha; simpl;
    [intros [= <- <-]; split; [done | by apply harmless_weaken]|].
  case_bool_decide; intros [= <- <-]; [split; [done | by apply harmless_weaken]|].
  eapply own_inv; eauto.
  - apply owners_only_run. intros r' Hne. split; auto.
  - intros w'. rewrite owns_set_owners, lookup_insert_eq, lookup_delete_eq. simpl. rewrite elem_of_nil. naive_solver.
Qed.

Lemma retain_worker_ok cap r w s : gateway_inv cap s -> r ∈ STARTING_RUNS s ->
  (exists k, workers s !! w = Some k /\ w_run k = r) -> (forall w', owns s r w' -> w' = w) ->
  RETAINED_LEASES s !! r = None -> (exists l, issued s !! r = Some l /\ l ∈ leases_out s) ->
  gateway_inv cap (retain_backtest_worker_for_retry r w s) /\ harmless_but r s (retain_backtest_worker_for_retry r w s).
Proof.
  intros Hi Hst Hk Hown Hl Hperm. unfold retain_backtest_worker_for_retry.
  case_bool_decide as Ha; [split; [done | by apply harmless_weaken]|].
  case_bool_decide; [split; [done | by apply harmless_weaken]|].
  eapply own_inv; eauto.
  - apply owners_only_run. intros r' Hne. split; auto.
  - intros w'. rewrite owns_set_owners, lookup_insert_eq. simpl.
    rewrite elem_of_app, list_elem_of_singleton. split; [|auto]. intros [Hw|[Hw|Hw]]; [..|done]; apply Hown; first [by left | by right].
Qed.

Lemma admit_ok cap r w s s' b : gateway_inv cap s -> (exists k, workers s !! w = Some k /\ w_run k = r) ->
  (exists l, issued s !! r = Some l /\ l ∈ leases_out s) -> admit_backtest_worker_start r w s = (s', b) ->
  gateway_inv cap s' /\ harmless_but r s s' /\
  (if b then (r ∈ STARTING_RUNS s') /\ (forall w', owns s' r w' <-> w' = w) else s' = s).
Proof.
  intros Hi Hk Hperm. unfold admit_backtest_worker_start. destruct (_ || _) eqn:E;
    [intros [= <- <-]; split_and!; [done | by apply harmless_weaken | done]|].
  rewrite !orb_false_iff, !bool_decide_eq_false in E. destruct E as [[[[[E1 E2] E3] E4] E5] E6].
  intros [= <- <-].
  set (s1 := set_starting ({[r]} ∪ STARTING_RUNS s) s).
  assert (Hnone : forall w', ~ owns s r w').
  { intros w' [Hw|Hw]; [apply E4; eauto|]. apply E5. intros En. rewrite En in Hw. by apply elem_of_nil in Hw. }
  assert (H1 : gateway_inv cap s1).
  { split; try apply Hi; simpl.
    - intros r' o Ho Hf. destruct (inv_sealed Hi _ _ Ho Hf) as (H1 & H2 & H3). split_and!; [done| |done].
      simpl. rewrite elem_of_union, elem_of_singleton. intros [->|?]; done.
    - intros r' l Hl'. destruct (inv_leases Hi _ _ Hl') as (? & ? & ?). split_and!; [done| |done].
      rewrite elem_of_union, elem_of_singleton. intros [->|?]; [|done]. apply E6. eauto. }
  assert (H2 : harmless_but r s s1).
  { split; [split; eauto|intros r' Hne; split; eauto].
    - intros r' (Ht & Hs' & Ho). split_and!; [done| |done]. simpl. rewrite elem_of_union, elem_of_singleton. intros [->|?]; done.
    - simpl. set_solver. }
  destruct (own_inv cap r w s1 (set_owners (ACTIVE_WORKERS s1) (<[r := [w]]> (RETAINED_WORKERS s1)) s1)) as [H3 H4]; auto.
  - apply owners_only_run. auto.
  - simpl. set_solver.
  - intros w' Hw. by apply Hnone in Hw.
  - simpl. destruct (RETAINED_LEASES s !! r) eqn:Hr; [|done]. destruct E6. eauto.
  - intros w'. rewrite owns_set_owners, lookup_insert_eq. simpl. rewrite list_elem_of_singleton. split; [|auto].
    intros [Hw|?]; [|done]. destruct E4. eauto.
  - split_and!.
    + done.
    + destruct H2 as [C2 P2], H4 as [C4 P4]. split; [by etransitivity|]. intros r' Hne. eapply private_trans; eauto.
    + simpl. set_solver.
    + intros w'. unfold owns, retained_of. simpl. rewrite lookup_insert_eq. simpl. rewrite list_elem_of_singleton. split; [|auto].
      intros [Hw|?]; [|done]. destruct E4. eauto.
Qed.

Lemma retain_lease_ok cap r l s s' b : gateway_inv cap s -> issued s !! r = Some l -> r ∉ STARTING_RUNS s ->
  RETAINED_LEASES s !! r = None -> retain_backtest_admission_lease r l s = (s', b) ->
  gateway_inv cap s' /\ harmless_but r s s' /\
  ((b = Some true /\ RETAINED_LEASES s' !! r = Some l) \/ (b = Some false /\ s' = s /\ forall w, ~ owns s r w)).
Proof.
  intros Hi Hl Hst Hn. unfold retain_backtest_admission_lease.
  destruct (has_ownership r s) eqn:Ho; simpl.
  - rewrite Hn. intros [= <- <-].
    assert (Hw : exists w, owns s r w).
    { destruct (backtest_workers r s) as [|w ws] eqn:E.
      - assert (H : has_ownership r s = false); [|congruence]. apply has_ownership_false. split; [by apply no_workers | done].
      - exists w. apply elem_backtest_workers. rewrite E. constructor. }
    split_and!.
    + split; try apply Hi. simpl. intros r' l'. rewrite lookup_insert_Some. intros [[<- <-]|[_ Hl']]; [auto|by apply (inv_leases Hi)].
    + split; [split; eauto | intros r' Hne; split; eauto; left; simpl; auto].
    + left. split; [done|]. simpl. by rewrite lookup_insert_eq.
  - intros [= <- <-]. apply has_ownership_false in Ho as [Ho _]. split_and!; [done | by apply harmless_weaken | auto].
Qed.

(** [_unregister_backtest_worker] before the lease. *)
Definition dropped (r : string) (w : nat) (s : Gateway) : Gateway :=
  set_owners (if bool_decide (ACTIVE_WORKERS s !! r = Some w) then delete r (ACTIVE_WORKERS s) else ACTIVE_WORKERS s)
    (match RETAINED_WORKERS s !! r with
     | None => RETAINED_WORKERS s
     | Some l => match List.filter (fun c => negb (c =? w)%nat) l with
                 | [] => delete r (RETAINED_WORKERS s)
                 | l' => <[r := l']> (RETAINED_WORKERS s)
                 end
     end) s.

Lemma elem_others (l : list nat) w w' : w' ∈ List.filter (fun c => negb (c =? w)%nat) l <-> w' ∈ l /\ w' <> w.
Proof. rewrite !list_elem_of_In, filter_In, negb_true_iff, Nat.eqb_neq. done. Qed.

Lemma dropped_only_run r w s : only_run r s (dropped r w s).
Proof.
  apply owners_only_run. intros r' Hne. split; [case_bool_decide; auto|].
  destruct (RETAINED_WORKERS s !! r); [|done]. destruct (List.filter _ _); auto.
Qed.

Lemma dropped_owns r w s w' : owns (dropped r w s) r w' <-> owns s r w' /\ w' <> w.
Proof.
  unfold dropped. rewrite owns_set_owners. unfold owns, retained_of.
  assert (E1 : (if bool_decide (ACTIVE_WORKERS s !! r = Some w) then delete r (ACTIVE_WORKERS s) else ACTIVE_WORKERS s) !! r
    = Some w' <-> ACTIVE_WORKERS s !! r = Some w' /\ w' <> w).
  { case_bool_decide as Ha; [rewrite lookup_delete_eq, Ha; naive_solver|]. split; [|tauto]. intros E. split; [done|]. congruence. }
  rewrite E1. destruct (RETAINED_WORKERS s !! r) as [l|] eqn:Hr; simpl; [|rewrite Hr; simpl; rewrite elem_of_nil; tauto].
  assert (E2 : w' ∈ default [] ((match List.filter (fun c => negb (c =? w)%nat) l with
      | [] => delete r (RETAINED_WORKERS s) | l' => <[r := l']> (RETAINED_WORKERS s) end) !! r) <-> w' ∈ l /\ w' <> w).
  { rewrite <- elem_others. destruct (List.filter _ l) as [|x l'] eqn:E; [by rewrite lookup_delete_eq|]. by rewrite lookup_insert_eq. }
  rewrite E2. tauto.
Qed.

Lemma unregister_eq r w s : unregister_backtest_worker r w s =
  if has_ownership r (dropped r w s) then dropped r w s
  else match RETAINED_LEASES s !! r with
       | Some l => release l (set_leases (delete r (RETAINED_LEASES s)) (permits s) (leases_out s) (dropped r w s))
       | None => dropped r w s
       end.
Proof. done. Qed.

(** A worker that is proven gone, or was never there, may be dropped. *)
Lemma unregister_ok cap r w s : gateway_inv cap s -> (forall k, workers s !! w = Some k -> quiet k) ->
  gateway_inv cap (unregister_backtest_worker r w s) /\ harmless_but r s (unregister_backtest_worker r w s) /\
  ((forall w', owns s r w' -> w' = w -> exists k, workers s !! w = Some k /\ cleanup_complete k = true) ->
   private r s (unregister_backtest_worker r w s)).
Proof.
  intros Hi Hq. rewrite unregister_eq. pose proof (dropped_only_run r w s) as Hd.
  set (s1 := dropped r w s) in *.
  assert (Hlive : forall w' k, workers s !! w' = Some k -> w_run k = r -> ~ quiet k -> owns s1 r w').
  { intros w' k Hk <- Hn. apply dropped_owns. split; [by apply (inv_live Hi)|]. intros ->. by apply Hn, (Hq k). }
  assert (Hseal : sealed s r -> forall w', ~ owns s1 r w').
  { intros (_ & _ & Hn) w' [Hw _]%dropped_owns. by apply (Hn w'). }
  assert (Hshape : exists s', (if has_ownership r s1 then s1 else match RETAINED_LEASES s !! r with
       | Some l => release l (set_leases (delete r (RETAINED_LEASES s)) (permits s) (leases_out s) s1)
       | None => s1 end) = s' /\ only_run r s s' /\ (forall w', owns s' r w' <-> owns s1 r w') /\
     (permits s' + size (leases_out s') = cap)%nat /\ workers s' = workers s /\
     ((RETAINED_LEASES s' !! r = RETAINED_LEASES s !! r /\ leases_out s' = leases_out s /\
       (RETAINED_LEASES s !! r = None \/ exists w', owns s1 r w')) \/
      (RETAINED_LEASES s' !! r = None /\ (forall w', ~ owns s1 r w') /\
       exists l, RETAINED_LEASES s !! r = Some l /\ leases_out s' = leases_out s ∖ {[l]}))).
  { destruct (has_ownership r s1) eqn:Ho.
    - exists s1. split_and!; try done; [apply (inv_count Hi)|]. left. split_and!; [done | done|].
      destruct (RETAINED_LEASES s !! r) eqn:Hl; [right | by left].
      destruct (inv_leases Hi _ _ Hl) as (_ & Hst & _).
      destruct (backtest_workers r s1) as [|w' ws] eqn:E.
      + assert (H : has_ownership r s1 = false); [|congruence]. apply has_ownership_false. split; [by apply no_workers | done].
      + exists w'. apply elem_backtest_workers. rewrite E. constructor.
    - apply has_ownership_false in Ho as [Hn Hst].
      destruct (RETAINED_LEASES s !! r) as [l|] eqn:Hl; [|exists s1; split_and!; try done; [apply (inv_count Hi) | auto]].
      set (s2 := set_leases _ _ _ s1).
      destruct (inv_leases Hi _ _ Hl) as (Hiss & _ & w0 & Hw0). destruct (inv_permit Hi _ _ Hw0) as (l' & Hl' & Hout).
      assert (l' = l) as -> by congruence. clear Hl'.
      assert (E : release l s2 = set_leases (delete r (RETAINED_LEASES s)) (S (permits s)) (leases_out s ∖ {[l]}) s1).
      { unfold release. by rewrite bool_decide_true. }
      rewrite E. eexists. split_and!; [reflexivity| |intros w'; split; intros Hx; exact Hx| |done|].
      + destruct Hd as [E1 E2 E3 E4 E5 E6 E7 E8 E9 Ho Hle Hou Hk]. split; try done; simpl.
        * intros r' Hne. by apply others_delete.
        * set_solver.
        * intros r' l'' Hne Hiss' Hin. rewrite elem_of_difference, elem_of_singleton. split; [done|]. intros ->.
          by destruct Hne; eapply (inv_issued Hi).
      + pose proof (release_count cap l s Hi) as H. unfold release in H. by rewrite bool_decide_true in H.
      + right. split_and!; [by simpl; rewrite lookup_delete_eq | done | eauto]. }
  destruct Hshape as (s' & -> & Hor & Hown & Hcount & Hw & Hcase).
  assert (Hsub : forall w', owns s' r w' -> owns s r w') by (intros w' Hw'; apply Hown, dropped_owns in Hw'; tauto).
  assert (Hseal' : sealed s r -> forall w', ~ owns s' r w') by (intros Hs w' Hw'; eapply Hseal; [done|]; by apply Hown).
  split_and!.
  - eapply only_run_inv; eauto.
    + intros w' Hw'. by apply (inv_owner Hi), Hsub.
    + intros w1 w2 H1 H2. eapply (inv_single Hi); eauto.
    + intros w' k Hk Hr Hn. apply Hown. eauto.
    + intros l Hl. destruct Hcase as [(E & _ & Hc)|(E & _)]; [|congruence]. rewrite E in Hl.
      destruct (inv_leases Hi _ _ Hl) as (? & ? & _). split_and!; [done | done|].
      destruct Hc as [Hc|[w' Hc]]; [congruence|]. exists w'. by apply Hown.
    + intros w' Hw'. destruct (inv_permit Hi _ _ (Hsub _ Hw')) as (l & ? & ?). exists l. split; [done|].
      destruct Hcase as [(_ & -> & _)|(_ & Hn & _)]; [done|]. apply Hown in Hw'. by apply Hn in Hw'.
  - by apply only_run_harmless_but.
  - intros Hcl. destruct Hor as [E1 E2 E3 E4 E5 E6 E7 E8 E9 Ho Hle Hou Hk]. split; rewrite ?E1, ?E3, ?Hw; eauto.
    + intros w' Hw'. destruct (decide (w' = w)) as [->|]; [right; eauto|]. left. by apply Hown, dropped_owns.
    + destruct Hcase as [(E & _)|(E & _ & l & Hl & Eo)]; [by left|]. right. split; [done|]. exists l.
      destruct (inv_leases Hi _ _ Hl) as (Hiss & _). rewrite E6, Eo. split_and!; [done | by apply (inv_next Hi r) | set_solver].
    + intros l _ Hn Hin. destruct Hcase as [(_ & -> & _)|(_ & _ & l' & ? & _)]; [done | congruence].
Qed.

(** ** A new run *)

(** What a task knows of its run between its steps: it holds the lease that was
    issued to it, and is not starting a worker. *)
Definition holds_lease (r : string) (l : nat) (s : Gateway) : Prop :=
  issued s !! r = Some l /\ (l ∈ leases_out s) /\ RETAINED_LEASES s !! r = None.

Lemma start_run_ok cap r s s' : gateway_inv cap s -> start_run r s = Some s' ->
  gateway_inv cap s' /\ harmless_but r s s' /\ exists l, holds_lease r l s' /\ r ∉ STARTING_RUNS s'.
Proof.
  intros Hi. unfold start_run. destruct (decide (unused r s)) as [Hu|]; [|done].
  destruct Hu as (U1 & U2 & U3 & U4 & U5 & U6 & U7 & U8 & U9 & U10 & U11).
  unfold try_acquire. destruct (permits s) as [|n] eqn:Hp; [done|]. intros [= <-].
  assert (Hfresh : next_lease s ∉ leases_out s) by (intros Hx; apply (inv_out Hi) in Hx; lia).
  split_and!.
  - split; try apply Hi; simpl.
    + intros r' Hd. destruct (decide (r' = r)) as [->|]; [by rewrite lookup_insert_eq in Hd|].
      rewrite lookup_insert_ne in Hd by done. by apply (inv_done Hi).
    + intros r' l Hl. assert (r' <> r) by congruence. rewrite lookup_insert_ne by done. by apply (inv_leases Hi).
    + intros r' w Hw. destruct (inv_permit Hi _ _ Hw) as (l & Hl & ?). exists l.
      assert (r' <> r) by congruence. rewrite lookup_insert_ne by done. set_solver.
    + intros r1 r2 l. rewrite !lookup_insert_Some. intros [[<- <-]|[_ H1]] [[<- Hx]|[_ H2]]; [done | | |by eapply (inv_issued Hi)].
      * apply (inv_next Hi) in H2. lia.
      * subst. apply (inv_next Hi) in H1. lia.
    + intros r' l. rewrite lookup_insert_Some. intros [[<- <-]|[? H]]; [lia|]. apply (inv_next Hi) in H. lia.
    + intros l. rewrite elem_of_union, elem_of_singleton. intros [->|H]; [lia|]. apply (inv_out Hi) in H. lia.
    + intros l. rewrite elem_of_union, elem_of_singleton. intros [->|Hl]; [exists r; by rewrite lookup_insert_eq|].
      destruct (inv_lent Hi _ Hl) as [r' Hr']. exists r'. rewrite lookup_insert_ne; [done | congruence].
    + rewrite size_union by set_solver. rewrite size_singleton. pose proof (inv_count Hi). lia.
  - split; [split; eauto | intros r' Hne; split; eauto]; simpl.
    + intros r' l Hl. rewrite lookup_insert_ne; [done | congruence].
    + lia.
    + intros l Hl Hn. rewrite elem_of_union, elem_of_singleton. intros [->|?]; [lia | done].
    + intros l _ _ Hl. rewrite elem_of_union. by right.
  - exists (next_lease s). unfold holds_lease. split_and!; simpl; [by rewrite lookup_insert_eq | by apply elem_of_union_l, elem_of_singleton | done | done].
Qed.
