(* ===== verification/BacktestSafety.v ===== *)
(** The threads of [BacktestRuns] proved against the rely-guarantee
    specifications of [BacktestFacts], and what follows for every run: at most
    one process family, none after the run has ended, cancellations that win,
    and permits that come back. *)

From S2P Require Import Prelude Threads BacktestRuns BacktestFacts.

Create HintDb stable discriminated.

Section Proofs.
#[local] Set Default Proof Using "Type".
Variable capacity : nat.

Abbreviation inv := (gateway_inv capacity).
Abbreviation gspec := (spec perform inv gateway_rely).
Abbreviation gstable := (stable inv gateway_rely).

(** ** Stable assertions *)

(** The family was ended and will not come back. *)
Definition clean (w : nat) (s : Gateway) : Prop := exists k, workers s !! w = Some k /\ cleanup_complete k = true.

Definition mine (r : string) (w : nat) (s : Gateway) : Prop := exists k, workers s !! w = Some k /\ w_run k = r.

Definition gone (r : string) (w : nat) (s : Gateway) : Prop :=
  exists k, workers s !! w = Some k /\ w_run k = r /\ alive k = false /\ kids k = false.

Definition unborn (r : string) (w : nat) (s : Gateway) : Prop :=
  exists k, workers s !! w = Some k /\ w_run k = r /\ alive k = false /\ kids k = false /\ cleanup_complete k = false.

Definition only_owner (r : string) (w : nat) (s : Gateway) : Prop := forall w', owns s r w' -> w' = w.

Definition ended (r : string) (s : Gateway) : Prop := is_Some (TERMINAL_OUTCOMES s !! r).

Lemma stable_clean t w : gstable t (clean w).
Proof.
  intros s s' (k & Hk & Hc) [C _] _. destruct (c_worker _ _ C _ _ Hk) as (k' & ? & [_ Ha]). exists k'. auto.
Qed.

Lemma stable_ended t r : gstable t (ended r).
Proof. intros s s' [o Ho] [C _] _. destruct (c_outcome _ _ C _ _ Ho); unfold ended; eauto. Qed.

Lemma stable_sealed t r : gstable t (fun s => sealed s r).
Proof. intros s s' Hs [C _] _. by apply (c_sealed _ _ C). Qed.

Lemma stable_holds r l : gstable (Task r) (holds_lease r l).
Proof.
  intros s s' (Hi & Ho & Hn) [C P] _. split_and!.
  - by apply (c_issued _ _ C).
  - by apply (p_out _ _ _ P).
  - destruct (p_lease _ _ _ P) as [E|[E _]]; congruence.
Qed.

Lemma stable_starting r : gstable (Task r) (fun s => r ∈ STARTING_RUNS s).
Proof. intros s s' Hs [_ P] _. by apply (p_starting _ _ _ P). Qed.

Lemma stable_not_starting r : gstable (Task r) (fun s => r ∉ STARTING_RUNS s).
Proof. intros s s' Hs [_ P] _ Hx. by apply Hs, (p_starting _ _ _ P). Qed.

Lemma stable_only_owner r w : gstable (Task r) (only_owner r w).
Proof. intros s s' Hs [_ P] _ w' Hw. by apply Hs, (p_owns _ _ _ P). Qed.

Lemma stable_no_owner r : gstable (Task r) (fun s => forall w, ~ owns s r w).
Proof. intros s s' Hs [_ P] _ w Hw. by apply (Hs w), (p_owns _ _ _ P). Qed.

Lemma stable_mine t r w : gstable t (mine r w).
Proof. intros s s' (k & Hk & Hr) [C _] _. destruct (c_worker _ _ C _ _ Hk) as (k' & ? & [? _]). exists k'. split; congruence. Qed.

Lemma stable_gone r w : gstable (Task r) (gone r w).
Proof.
  intros s s' (k & Hk & Hr & Ha & Hc) [C P] _. destruct (c_worker _ _ C _ _ Hk) as (k' & Hk' & [? _]).
  destruct (p_worker _ _ _ P _ _ _ Hk Hk' Hr) as (A & K & _). exists k'. split_and!; [done | congruence | |].
  - destruct (alive k'); [by rewrite A in Ha | done].
  - destruct (kids k'); [by destruct K; congruence | done].
Qed.

Lemma stable_unborn r w : gstable (Task r) (unborn r w).
Proof.
  intros s s' (k & Hk & Hr & Ha & Hc & Hcl) [C P] _. destruct (c_worker _ _ C _ _ Hk) as (k' & Hk' & [? _]).
  destruct (p_worker _ _ _ P _ _ _ Hk Hk' Hr) as (A & K & L). exists k'. split_and!; [done | congruence | | |].
  - destruct (alive k'); [by rewrite A in Ha | done].
  - destruct (kids k'); [by destruct K; congruence | done].
  - destruct (cleanup_complete k'); [by destruct L; congruence | done].
Qed.

Lemma stable_owns_unborn r w : gstable (Task r) (fun s => unborn r w s /\ owns s r w).
Proof.
  intros s s' [Hu Ho] Hr Hi. pose proof (stable_unborn r w _ _ Hu Hr Hi) as Hu'. split; [done|].
  destruct Hr as [C P]. destruct (p_dropped _ _ _ P _ Ho) as [?|(k & Hk & Hc)]; [done|].
  destruct Hu' as (k' & ? & _ & _ & _ & ?). congruence.
Qed.

Lemma stable_success r : gstable (Task r) (fun s => TERMINAL_OUTCOMES s !! r = Some "success").
Proof. intros s s' Hs [_ P] _. by apply (p_outcome _ _ _ P). Qed.

#[local] Hint Resolve stable_and stable_pure stable_impl stable_clean stable_ended stable_sealed stable_holds stable_starting
  stable_not_starting stable_only_owner stable_no_owner stable_mine stable_gone stable_unborn stable_owns_unborn
  stable_success : stable.

(** ** Commands that need nothing *)

Definition harmless_cmd {X} (c : Cmd X) : bool :=
  match c with
  | AdmitStart _ _ | SetStarting _ _ | DiscardCancel _ | SealSuccess _ | SealFailure _ _ | RetainLease _ _
  | ReleaseLease _ | RegisterWorker _ _ | RetainForRetry _ _ | Unregister _ _ | StartProcess _ | SignalKill _
  | SetProven _ | SaveResult _ => false
  | MarkRun _ st => negb (bool_decide (st = "done"))
  | _ => true
  end.

Lemma harmless_cmd_ok {X} (c : Cmd X) e s s' x : harmless_cmd c = true -> inv s -> perform X c e s = Some (s', x) ->
  inv s' /\ harmless s s'.
Proof.
  intros Hc Hi. destruct c; try done; simpl; unfold attempt, answer; simpl;
    repeat match goal with
    | |- context [if ?b then _ else _] => destruct b
    end; try (by intros [= <- <-]; split; [done | reflexivity]); try done.
  - intros [= <- <-]. assert (Hf : workers s !! fresh (dom (workers s)) = None) by (apply not_elem_of_dom, is_fresh).
    split; [by apply new_worker_inv | by apply new_worker_harmless].
  - intros E. injection E as E1. destruct (request_cancel_ok capacity r s s' x) as (? & ? & _); auto.
  - intros E. injection E as E1. destruct x as [ws b]. destruct (seal_terminal_ok capacity r s s' ws b) as (? & ? & _); auto.
  - intros [= <- <-]. split; [by apply bookkeeping_inv; auto | by apply bookkeeping_harmless].
  - intros [= <- <-]. split; [by apply bookkeeping_inv; auto | by apply bookkeeping_harmless].
  - intros [= <- <-]. split; [by apply bookkeeping_inv; auto | by apply bookkeeping_harmless].
  - intros [= <- <-]. split; [by apply bookkeeping_inv; auto | by apply bookkeeping_harmless].
  - intros [= <- <-]. split; [|apply set_status_harmless]. apply set_status_inv; [done|]. intros ->. done.
Qed.

(** A harmless step keeps every stable assertion. *)
Lemma spec_harmless {X} t (P : Gateway -> Prop) (c : Cmd X) (R : X -> Gateway -> Prop) :
  gstable t P -> (forall x, gstable t (R x)) ->
  (forall s e s' x, inv s -> P s -> perform _ c e s = Some (s', x) -> inv s' /\ harmless s s' /\ R x s') ->
  gspec t P (act c) (fun x s => P s /\ R x s).
Proof.
  intros HP HR Hc. apply spec_act; [done | intros x; by apply stable_and|].
  intros s e s' x Hi Hs He. destruct (Hc s e s' x Hi Hs He) as (Hi' & Hh & Hr). split_and!; [done | by apply harmless_guar | | done].
  eapply HP; [done | by apply harmless_rely | done].
Qed.

Lemma neutral_act {X} t (P : Gateway -> Prop) (c : Cmd X) :
  gstable t P -> harmless_cmd c = true -> gspec t P (act c) (fun _ => P).
Proof.
  intros HP Hc. eapply spec_weaken; [apply (spec_harmless t P c (fun _ _ => True)) | done | by intros ? ? ? []];
    [done | intros; apply stable_pure|].
  intros s e s' x Hi _ He. destruct (harmless_cmd_ok c e s s' x Hc Hi He). auto.
Qed.

Ltac st := intros; cbn beta; auto 6 with stable.

(** [True] is only answered for a family that was ended. *)
Definition proves (w : nat) (r : result exn bool) (s : Gateway) : Prop := r = Ok true -> clean w s.

Lemma stable_proves t w r : gstable t (proves w r).
Proof. unfold proves. auto with stable. Qed.
#[local] Hint Resolve stable_proves : stable.

(** An exception passes with what is known. *)
Ltac on_raise := intros ? ? ?; cbn beta; unfold proves; naive_solver.

(** One neutral command, then the rest. *)
Ltac step_neutral :=
  lazymatch goal with
  | |- spec _ _ _ _ _ (try_bind _ _) _ =>
      eapply spec_try; [exact _|apply neutral_act; [st | done]| |st|try by on_raise]
  | |- spec _ _ _ _ _ (prog_bind _ _) _ => eapply spec_bind; [exact _|apply neutral_act; [st | done]|]
  end; cbn beta.

(** A sub-program with the postcondition [Q], then the rest. *)
Ltac step R :=
  lazymatch goal with
  | |- spec _ _ _ _ _ (try_bind _ _) _ => eapply spec_try with (Q := R); [exact _| | |st|try by on_raise]
  | |- spec _ _ _ _ _ (prog_bind _ _) _ => eapply spec_bind with (Q := R); [exact _| |]
  end; cbn beta.

Ltac ret := apply spec_ret; [st|].

(** ** Terminating a worker *)

(** The cleanup event is only ever seen set when the family is gone. *)
Lemma spec_cleanup_event t P w : gstable t P ->
  gspec t P (act (CleanupEvent w)) (fun b s => P s /\ (b = true -> clean w s)).
Proof.
  intros HP. apply spec_harmless; [done | st|]. intros s e s' x Hi _. simpl. unfold answer. intros [= <- <-].
  split_and!; [done | reflexivity|]. rewrite andb_true_iff. intros [Hc _]. unfold worker in Hc.
  destruct (workers s !! w) as [k|] eqn:Hk; [exists k; auto | done].
Qed.

Lemma spec_set_proven t P w : gstable t P -> gspec t (fun s => P s /\ clean w s) (act (SetProven w)) (fun _ s => P s /\ clean w s).
Proof.
  intros HP. eapply spec_weaken; [apply (spec_harmless t (fun s => P s /\ clean w s) _ (fun _ _ => True)) | done | by intros ? ? ? []];
    [st | st|]. intros s e s' x Hi [_ (k & Hk & Hc)]. simpl. intros [= <- <-].
  split_and!; [|by apply bookkeeping_harmless|done]. apply bookkeeping_inv; [done | done | |auto].
  intros k' Hk' _. right. congruence.
Qed.

Lemma spec_signal_kill t P w : gstable t P ->
  gspec t (fun s => P s /\ clean w s) (act (SignalKill w)) (fun _ s => P s /\ clean w s).
Proof.
  intros HP. eapply spec_weaken; [apply (spec_harmless t (fun s => P s /\ clean w s) _ (fun _ _ => True)) | done | by intros ? ? ? []];
    [st | st|]. intros s e s' x Hi [_ (k & Hk & Hc)]. simpl. unfold attempt, answer. destruct (fails e); intros [= <- <-].
  - split_and!; [done | reflexivity | done].
  - split_and!; [|by apply bookkeeping_harmless|done]. apply bookkeeping_inv; [done | done | auto|].
    intros k' Hk' _. right. congruence.
Qed.

Lemma spec_never {A} t P Q : gspec t P (@still_running A) Q.
Proof. intros s _ _ s' _ _ e s'' x He. done. Qed.

Lemma wait_for_exit_spec t P n w pinned : gstable t P -> gspec t P (wait_for_exit n w pinned) (fun _ => P).
Proof.
  intros HP. revert pinned. induction n as [|n IH]; intros pinned; [apply spec_never|]. cbn [wait_for_exit].
  step_neutral. intros [|]; cbn [negb]; [|by ret]. step_neutral. intros [|]; cbn [negb]; [|by ret].
  step_neutral. intros _. step (fun (b : bool) s => P s /\ (b = true -> clean w s)); [by apply spec_cleanup_event|].
  intros [|]; cbn [negb].
  - eapply spec_weaken with (P := fun s => P s /\ clean w s) (Q := fun _ => P); [|naive_solver|done].
    step_neutral. intros [|]; cbn [negb].
    + step (fun (_ : result exn bool) s => P s /\ clean w s); [destruct pinned; [by ret | apply neutral_act; [st|done]]|].
      intros pin. step (fun (_ : result exn ()) s => P s /\ clean w s); [destruct pin; [by apply spec_signal_kill | by ret]|].
      intros _. eapply spec_weaken; [apply neutral_act; [exact HP | done] | naive_solver | done].
    + eapply spec_weaken; [apply IH | naive_solver | done].
  - eapply spec_weaken; [apply IH | naive_solver | done].
Qed.

Lemma terminate_locked_spec t P n w : gstable t P ->
  gspec t P (terminate_locked n w) (fun r s => P s /\ proves w r s).
Proof.
  intros HP. unfold terminate_locked.
  step (fun (b : bool) s => P s /\ (b = true -> clean w s)).
  { apply spec_harmless; [done | st|]. intros s e s' x Hi _. simpl. unfold answer. intros [= <- <-].
    split_and!; [done | reflexivity|]. unfold worker. destruct (workers s !! w) as [k|] eqn:Hk; [|done].
    simpl. intros Hp. exists k. destruct (inv_worker Hi _ _ Hk) as (_ & _ & Hpr & _). auto. }
  intros [|]; cbn [negb].
  - eapply spec_weaken with (P := fun s => P s /\ clean w s) (Q := fun r s => P s /\ proves w r s); [|naive_solver|done].
    step_neutral. intros _. ret. unfold proves. naive_solver.
  - eapply spec_weaken with (P := P) (Q := fun r s => P s /\ proves w r s); [|naive_solver|done].
    step_neutral. intros alive.
    step (fun (_ : result exn bool) => P); [|].
    { destruct alive; cbn [negb]; [|by ret]. step_neutral. intros pin.
      step (fun (_ : result exn ()) => P); [destruct pin; by apply neutral_act|]. intros _. by ret. }
    intros pinned. step (fun (_ : result exn ()) => P); [by apply wait_for_exit_spec|].
    intros _. step_neutral. intros [|]; [by ret|]. step_neutral. intros _.
    step (fun (b : bool) s => P s /\ (b = true -> clean w s)); [by apply spec_cleanup_event|].
    intros [|]; cbn [negb].
    + eapply spec_weaken with (P := fun s => P s /\ clean w s) (Q := fun r s => P s /\ proves w r s); [|naive_solver|done].
      step (fun (_ : ()) s => P s /\ clean w s); [by apply spec_set_proven|]. intros _. ret. unfold proves. naive_solver.
    + apply spec_ret; [st|]. unfold proves. naive_solver.
Qed.

Lemma terminate_spec t P n w : gstable t P ->
  gspec t P (terminate_backtest_worker n w) (fun r s => P s /\ proves w r s).
Proof.
  intros HP. unfold terminate_backtest_worker. step_neutral. intros _.
  step (fun r s => P s /\ proves w r s); [by apply terminate_locked_spec|]. intros r.
  step_neutral. intros _. by ret.
Qed.

(** ** Starting and abandoning a worker *)

(** What the task knows while its worker is starting. *)
Definition starting (r : string) (l w : nat) (s : Gateway) : Prop :=
  holds_lease r l s /\ (r ∈ STARTING_RUNS s) /\ only_owner r w s /\ mine r w s.

(** And between workers. *)
Definition resting (r : string) (l : nat) (s : Gateway) : Prop := holds_lease r l s /\ r ∉ STARTING_RUNS s.

Lemma stable_starting_worker r l w : gstable (Task r) (starting r l w).
Proof. unfold starting. auto 10 with stable. Qed.

Lemma stable_resting r l : gstable (Task r) (resting r l).
Proof. unfold resting. auto with stable. Qed.
#[local] Hint Resolve stable_starting_worker stable_resting : stable.

(** A command of the task that only touches its own run. *)
Lemma spec_own {X} r (P : Gateway -> Prop) (c : Cmd X) (Q : X -> Gateway -> Prop) :
  gstable (Task r) P -> (forall x, gstable (Task r) (Q x)) ->
  (forall s e s' x, inv s -> P s -> perform _ c e s = Some (s', x) -> inv s' /\ harmless_but r s s' /\ Q x s') ->
  gspec (Task r) P (act c) Q.
Proof.
  intros HP HQ Hc. apply spec_act; [done | done|]. intros s e s' x Hi Hs He.
  destruct (Hc s e s' x Hi Hs He) as (? & ? & ?). split_and!; [done | by apply harmless_but_guar | done].
Qed.

Lemma spec_stop_starting r l w :
  gspec (Task r) (starting r l w) (act (SetStarting r false)) (fun _ => resting r l).
Proof.
  apply spec_own; [st | st|]. intros s e s' x Hi (Hl & Hs & _). simpl. intros [= <- <-].
  split_and!; [by apply stop_starting_inv | apply stop_starting_harmless_but|]. split; [done|]. simpl. set_solver.
Qed.

Lemma holds_permit r l s : holds_lease r l s -> exists l, issued s !! r = Some l /\ l ∈ leases_out s.
Proof. intros (? & ? & _). eauto. Qed.

Lemma spec_retain_for_retry r l w :
  gspec (Task r) (starting r l w) (act (RetainForRetry r w)) (fun _ => starting r l w).
Proof.
  apply spec_own; [st | st|]. intros s e s' x Hi (Hl & Hs & Ho & Hm). simpl. intros [= <- <-].
  destruct (retain_worker_ok capacity r w s) as [Hi' Hh]; auto; [apply Hl | by eapply holds_permit|].
  split_and!; [done | done|]. unfold retain_backtest_worker_for_retry in *.
  case_bool_decide; [by split_and!|]. case_bool_decide; [by split_and!|]. split_and!; try done.
  intros w' Hw. eapply (inv_single Hi'); [exact Hw|]. apply owns_set_owners. right. rewrite lookup_insert_eq. simpl. set_solver.
Qed.

Lemma clean_quiet s w k : inv s -> clean w s -> workers s !! w = Some k -> quiet k.
Proof.
  intros Hi (k' & Hk' & Hc) Hk. assert (k' = k) as -> by congruence. split; [|auto]. destruct (inv_worker Hi _ _ Hk) as (Hcl & _). auto.
Qed.

(** While the lease is the task's, dropping a worker only drops it. *)
Lemma unregister_held r w s : RETAINED_LEASES s !! r = None -> unregister_backtest_worker r w s = dropped r w s.
Proof. intros Hl. rewrite unregister_eq, Hl. by destruct (has_ownership _ _). Qed.

Lemma unregister_harmless r w s : inv s -> clean w s ->
  inv (unregister_backtest_worker r w s) /\ harmless s (unregister_backtest_worker r w s).
Proof.
  intros Hi Hc. destruct (unregister_ok capacity r w s Hi) as (Hi' & [C P] & Pr); [intros k; by apply clean_quiet|].
  split; [done|]. split; [done|]. intros r'. destruct (decide (r' = r)) as [->|]; [|by apply P].
  apply Pr. intros w' _ ->. done.
Qed.

Lemma spec_unregister t P r w : gstable t P ->
  gspec t (fun s => P s /\ clean w s) (act (Unregister r w)) (fun _ s => P s /\ clean w s).
Proof.
  intros HP. eapply spec_weaken; [apply (spec_harmless t (fun s => P s /\ clean w s) _ (fun _ _ => True)) | done | by intros ? ? ? []];
    [st | st|]. intros s e s' x Hi [_ Hc]. simpl. intros [= <- <-]. destruct (unregister_harmless r w s Hi Hc). auto.
Qed.

Lemma cleanup_registered_spec t P n r w : gstable t P ->
  gspec t P (cleanup_registered_backtest_worker n r w) (fun res s => P s /\ proves w res s).
Proof.
  intros HP. unfold cleanup_registered_backtest_worker.
  step (fun res s => P s /\ proves w res s); [by apply terminate_spec|]. intros [|].
  - eapply spec_weaken with (P := fun s => P s /\ clean w s) (Q := fun r s => P s /\ proves w r s);
      [|unfold proves; naive_solver|done].
    step (fun (_ : ()) s => P s /\ clean w s); [by apply spec_unregister|]. intros _. ret. unfold proves. naive_solver.
  - ret. unfold proves. naive_solver.
Qed.

(** What may be dropped: a family that was ended, or one that never was. *)
Definition finished (r : string) (w : nat) (s : Gateway) : Prop := gone r w s \/ clean w s.

Lemma stable_finished r w : gstable (Task r) (finished r w).
Proof.
  intros s s' [Hg|Hc] Hr Hi; [left; by eapply stable_gone | right; by eapply stable_clean].
Qed.
#[local] Hint Resolve stable_finished : stable.

Lemma spec_drop_own r l w :
  gspec (Task r) (fun s => starting r l w s /\ finished r w s) (act (Unregister r w)) (fun _ => starting r l w).
Proof.
  apply spec_own; [st | st|]. intros s e s' x Hi [(Hl & Hs & Ho & k & Hk & Hr) Hf]. simpl. intros [= <- <-].
  assert (Hq : forall k, workers s !! w = Some k -> quiet k).
  { intros k' Hk'. destruct Hf as [(k2 & ? & _ & ? & ?)|Hc]; [|by apply clean_quiet with s w].
    assert (k2 = k') as -> by congruence. split; auto. }
  destruct (unregister_ok capacity r w s Hi Hq) as (Hi' & Hh & _). split_and!; [done | done|].
  rewrite unregister_held in * by apply Hl. split_and!; try done; [|by exists k].
  intros w' [Hw _]%dropped_owns. by apply Ho.
Qed.

Lemma abandon_spec r l w b :
  gspec (Task r) (fun s => starting r l w s /\ (b = true -> finished r w s)) (abandon_start r w b) (fun _ => resting r l).
Proof.
  unfold abandon_start. step (fun (_ : ()) => starting r l w).
  - destruct b.
    + eapply spec_weaken; [apply spec_drop_own | naive_solver | done].
    + eapply spec_weaken; [apply spec_retain_for_retry | naive_solver | done].
  - intros _. apply (spec_stop_starting r l w).
Qed.

Lemma failed_start_spec n r l w : gspec (Task r) (starting r l w) (failed_start n r w) (fun res s => resting r l s /\ res <> Ok tt).
Proof.
  unfold failed_start.
  step (fun (x : result exn bool) s => starting r l w s /\ (x = Ok false -> gone r w s)).
  { apply spec_harmless; [st | st|]. intros s e s' x Hi (_ & _ & _ & k & Hk & Hr). simpl. unfold answer.
    destruct (fails e); [intros [= <- <-]; split_and!; [done | reflexivity | done]|].
    rewrite (worker_lookup _ _ _ Hk). destruct (published k) eqn:Hp; [intros [= <- <-]; split_and!; [done | reflexivity | done]|].
    destruct (alive k) eqn:Ha; [done|]. intros [= <- <-]. split_and!; [done | reflexivity|]. intros _. exists k.
    destruct (inv_worker Hi _ _ Hk) as (_ & Hpub & _). auto. }
  intros identity.
  step (fun (b : bool) s => starting r l w s /\ (b = true -> finished r w s)).
  { destruct identity as [[|]|].
    - eapply spec_weaken with (P := starting r l w) (Q := fun (b : bool) s => starting r l w s /\ (b = true -> finished r w s));
        [|naive_solver|done].
      step_neutral. intros _. step (fun res s => starting r l w s /\ proves w res s); [apply terminate_spec; st|].
      intros t. ret. intros s _ [Hs Hp]. split; [done|]. destruct t as [[|]|]; [|done|done]. intros _. right. by apply Hp.
    - ret. intros s _ [Hs Hg]. split; [done|]. intros _. left. by apply Hg.
    - ret. intros s _ [Hs _]. done. }
  intros b. step_neutral. intros _. step (fun (_ : ()) => resting r l); [apply abandon_spec|]. intros _. ret. naive_solver.
Qed.

Lemma failed_setup_spec n r l w : gspec (Task r) (starting r l w) (failed_setup n r w) (fun res s => resting r l s /\ res <> Ok tt).
Proof.
  unfold failed_setup. step (fun res s => starting r l w s /\ proves w res s); [apply terminate_spec; st|].
  intros t. step_neutral. intros _. step (fun (_ : ()) => resting r l).
  - eapply spec_weaken; [apply (abandon_spec r l) | | done]. intros s _ [Hs Hp]. split; [done|].
    destruct t as [[|]|]; [|done|done]. intros _. right. by apply Hp.
  - intros _. ret. naive_solver.
Qed.

Lemma await_isolation_spec t P n w : gstable t P -> gspec t P (await_isolation n w) (fun _ => P).
Proof.
  intros HP. induction n as [|n IH]; [apply spec_never|]. cbn [await_isolation].
  step_neutral. intros [|]; cbn [negb]; [|by ret]. step_neutral. intros [|]; cbn [negb]; [|by ret].
  step_neutral. intros [|]; [by ret | done].
Qed.

(** After the set-up the task's only worker is registered. *)
Definition computing (r : string) (l w : nat) (s : Gateway) : Prop := resting r l s /\ only_owner r w s.

Lemma stable_computing r l w : gstable (Task r) (computing r l w).
Proof. unfold computing. auto with stable. Qed.
#[local] Hint Resolve stable_computing : stable.

Lemma set_up_spec n r l w :
  gspec (Task r) (starting r l w) (set_up n r w)
    (fun res s => resting r l s /\ (res = Ok tt -> only_owner r w s)).
Proof.
  unfold set_up. step_neutral. intros identity.
  step (fun (_ : result exn bool) => starting r l w).
  { destruct identity as [[|]|]; [|by ret|by ret]. step_neutral. intros _. step_neutral.
    intros [[|]|]; [by apply await_isolation_spec; st|by ret|by ret]. }
  assert (Hfail : gspec (Task r) (starting r l w) (failed_setup n r w) (fun res s => resting r l s /\ (res = Ok tt -> only_owner r w s))).
  { eapply spec_weaken; [apply failed_setup_spec | done | naive_solver]. }
  intros [isolated|]; [|exact Hfail]. step_neutral. intros alive. destruct (alive && negb isolated); [exact Hfail|].
  step (fun (_ : result exn ()) => starting r l w).
  { apply spec_own; [st | st|]. intros s e s' x Hi (Hl & Hs & Ho & Hm). simpl.
    destruct (register_backtest_worker r w s) as [s1 b] eqn:E.
    destruct (register_ok capacity r w s s1 b) as [Hi' Hh]; auto; [apply Hl | by eapply holds_permit|].
    assert (Hst : starting r l w s1).
    { unfold register_backtest_worker in E. case_bool_decide; simpl in E; [injection E as <- _; by split_and!|].
      case_bool_decide; injection E as <- _; [by split_and!|]. split_and!; try done.
      intros w' Hw. rewrite owns_set_owners, lookup_insert_eq, lookup_delete_eq in Hw. simpl in Hw.
      destruct Hw as [Hw|Hw]; [congruence | by apply elem_of_nil in Hw]. }
    destruct b; unfold answer; intros [= <- <-]; auto. }
  intros [[]|]; [|exact Hfail]. step (fun (_ : ()) s => resting r l s /\ only_owner r w s).
  - apply spec_own; [st | st|]. intros s e s' x Hi (Hl & Hs & Ho & _). simpl. intros [= <- <-].
    split_and!; [by apply stop_starting_inv | apply stop_starting_harmless_but| |done]. split; [done|]. simpl. set_solver.
  - intros _. ret. naive_solver.
Qed.

(** ** Computing *)

Lemma drain_spec t P n w : gstable t P -> gspec t P (drain n w) (fun _ => P).
Proof.
  intros HP. induction n as [|n IH]; [apply spec_never|]. cbn [drain].
  step_neutral. intros [| |good]; [by ret| |by ret]. step_neutral. intros _. done.
Qed.

Lemma cancelled_spec t P r w : gstable t P -> gspec t P (cancelled r w) (fun _ => P).
Proof. intros HP. unfold cancelled. step_neutral. intros [|]; [by ret | by apply neutral_act]. Qed.

Lemma poll_spec t P n r w : gstable t P -> gspec t P (poll n r w) (fun _ => P).
Proof.
  intros HP. induction n as [|n IH]; [apply spec_never|]. cbn [poll].
  step (fun (_ : bool) => P); [by apply cancelled_spec|]. intros [|].
  - step (fun (_ : result exn bool) => P); [eapply spec_weaken; [by apply terminate_spec | done | naive_solver]|].
    intros [|]; by ret.
  - step_neutral. intros [| |good]; [|step_neutral; intros _; done|by ret].
    step_neutral. intros [|]; [done|]. step (fun (_ : bool) => P); [by apply cancelled_spec|]. intros [|]; by ret.
Qed.

Lemma compute_spec t P n r w : gstable t P -> gspec t P (compute n r w) (fun _ => P).
Proof.
  intros HP. unfold compute. step (fun (_ : result exn (option bool)) => P); [by apply poll_spec|].
  intros final. step (fun (_ : result exn (option bool)) => P); [destruct final; [by ret | by apply drain_spec]|].
  intros [[|]|]; by ret.
Qed.

(** When the cleanup succeeds the run owns no worker any more. *)
Lemma cleanup_own_spec n r l w :
  gspec (Task r) (computing r l w) (cleanup_registered_backtest_worker n r w)
    (fun res s => computing r l w s /\ (res = Ok true -> forall w', ~ owns s r w')).
Proof.
  unfold cleanup_registered_backtest_worker.
  step (fun res s => computing r l w s /\ proves w res s); [apply terminate_spec; st|].
  intros [|].
    + eapply spec_weaken with (P := fun s => computing r l w s /\ clean w s)
        (Q := fun (res : result exn bool) s => computing r l w s /\ (res = Ok true -> forall w', ~ owns s r w')); [|unfold proves; naive_solver|done].
      step (fun (_ : ()) s => computing r l w s /\ forall w', ~ owns s r w').
      * eapply spec_weaken; [apply (spec_harmless (Task r) (fun s => computing r l w s /\ clean w s) _
          (fun _ s => forall w', ~ owns s r w')) | done | naive_solver]; [st | st|].
        intros s e s' x Hi [[[Hl _] Ho] Hc]. simpl. intros [= <- <-].
        destruct (unregister_harmless r w s Hi Hc). split_and!; [done | done|].
        rewrite unregister_held by apply Hl. intros w' [Hw Hne]%dropped_owns. by apply Hne, Ho.
      * intros _. ret. naive_solver.
    + ret. unfold proves. naive_solver.
Qed.

Lemma final_cleanup_spec n r l w :
  gspec (Task r) (computing r l w) (final_cleanup n r w)
    (fun res s => computing r l w s /\ (res = Ok tt -> forall w', ~ owns s r w')).
Proof.
  unfold final_cleanup. step (fun (res : result exn bool) s => computing r l w s /\ (res = Ok true -> forall w', ~ owns s r w')); [apply cleanup_own_spec|].
  intros c. step_neutral. intros q. destruct c as [[|]|]; [destruct q|..]; ret; naive_solver.
Qed.

(** A result is only returned once nothing of the run's family is left. *)
Lemma execute_spec n r l :
  gspec (Task r) (resting r l) (execute_backtest_process n r)
    (fun res s => resting r l s /\ (res = Ok tt -> forall w', ~ owns s r w')).
Proof.
  unfold execute_backtest_process.
  step (fun (x : result exn nat) s => resting r l s /\ (forall w, x = Ok w -> unborn r w s)).
  { apply spec_harmless; [st | | ].
    - intros x s s' Hx Hr Hi w Hw. eapply stable_unborn; eauto.
    - intros s e s' x Hi _ He. destruct (harmless_cmd_ok (NewWorker r) e s s' x) as [Hi' Hh]; [done..|]. split_and!; [done | done|].
      intros w ->. revert He. simpl. unfold attempt, answer. destruct (fails e); [done|]. intros [= <- <-].
      exists (new_worker r). simpl. by rewrite lookup_insert_eq. }
  intros w. eapply spec_weaken with (P := fun s => resting r l s /\ unborn r w s)
    (Q := fun (res : result exn ()) s => resting r l s /\ (res = Ok tt -> forall w', ~ owns s r w')); [|naive_solver|done].
  step (fun (b : bool) s => if b then starting r l w s /\ unborn r w s /\ owns s r w else resting r l s).
  { apply spec_own; [st | intros [|]; st|]. intros s e s' b Hi [[Hl Hs] Hu]. simpl. intros E. injection E as E.
    destruct Hu as (k & Hk & Hr & Hrest). destruct (admit_ok capacity r w s s' b) as (Hi' & Hh & Hb); [done | by exists k | by eapply holds_permit | done|].
    split_and!; [done | done|]. destruct b; [|by rewrite Hb; split]. destruct Hb as [Hst Ho].
    assert (Hw : workers s' = workers s) by (unfold admit_backtest_worker_start in E; case_match; by injection E as <-).
    assert (Hl' : holds_lease r l s') by (unfold admit_backtest_worker_start in E; case_match; by injection E as <-).
    split_and!.
    - split_and!; [done | done | by intros w' ?%Ho | exists k; by rewrite Hw].
    - exists k. by rewrite Hw.
    - by apply Ho. }
  intros [|]; cbn [negb].
  - step (fun (_ : result exn ()) => starting r l w).
    { apply spec_own; [|st|].
      - intros s s' (H1 & H2 & H3) Hr Hi. split; [by eapply stable_starting_worker|]. by eapply stable_owns_unborn.
      - intros s e s' x Hi (Hst & (k & Hk & Hr & Hrest) & Ho). simpl. unfold answer.
        assert (Hgo : forall p, inv (upd_worker (with_alive true p) w s) /\ harmless_but r s (upd_worker (with_alive true p) w s) /\
            starting r l w (upd_worker (with_alive true p) w s)).
        { intros p. split_and!.
          - apply start_inv; [done|]. intros k' Hk'. assert (k' = k) as -> by congruence. by rewrite Hr.
          - apply start_harmless_but. intros k' Hk'. congruence.
          - destruct Hst as (? & ? & ? & _). split_and!; try done. eexists. split; [by apply lookup_upd_fwd|]. by rewrite decide_True. }
        destruct (fails e); [|intros [= <- <-]; apply Hgo]. destruct (pick e =? 0)%nat; intros [= <- <-]; [|apply Hgo].
        split_and!; [done | by apply harmless_weaken | done]. }
    intros [[]|].
    + step (fun (res : result exn ()) s => resting r l s /\ (res = Ok tt -> only_owner r w s)); [apply set_up_spec|].
      intros []. eapply spec_weaken with (P := computing r l w)
        (Q := fun (res : result exn ()) s => resting r l s /\ (res = Ok tt -> forall w', ~ owns s r w')); [|unfold computing; naive_solver|done].
      unfold finally. step (fun (_ : result exn ()) => computing r l w); [apply compute_spec; st|]. intros x.
      step (fun (res : result exn ()) s => computing r l w s /\ (res = Ok tt -> forall w', ~ owns s r w')); [apply final_cleanup_spec|].
      intros [[]|]; ret; unfold computing; naive_solver.
    + eapply spec_weaken; [apply failed_start_spec | done | naive_solver].
  - step_neutral. intros _. ret. naive_solver.
  - intros s s' [Hs _] Hr Hi. split; [by eapply stable_resting | done].
Qed.
(** ** The background task *)

Lemma spec_seal_terminal t P r : gstable t P ->
  gspec t P (act (SealTerminal r)) (fun x s => P s /\ (x.2 = true -> sealed s r)).
Proof.
  intros HP. apply spec_harmless; [done | st|]. intros s e s' [ws b] Hi _. simpl. intros E. injection E as E.
  by apply (seal_terminal_ok capacity r s s' ws b).
Qed.

Lemma sealed_ended r s : inv s -> sealed s r -> ended r s.
Proof. intros Hi (Ht & _). by apply (inv_terminal Hi). Qed.

Lemma spec_discard t P r : gstable t P -> gspec t (fun s => P s /\ ended r s) (act (DiscardCancel r)) (fun _ => P).
Proof.
  intros HP. eapply spec_weaken; [apply (spec_harmless t (fun s => P s /\ ended r s) _ (fun _ _ => True)) | done | naive_solver];
    [st | st|]. intros s e s' x Hi [_ Hd]. simpl. intros [= <- <-].
  split_and!; [|apply discard_cancel_harmless|done]. apply discard_cancel_ok; [done|]. by apply (inv_terminal Hi).
Qed.

Lemma and_then_spec t P (p : phase) k : gstable t P -> gspec t P p (fun _ => P) -> (forall res, gspec t P (k res) (fun _ => P)) ->
  gspec t P (and_then p k) (fun _ => P).
Proof. intros HP Hp Hk. unfold and_then. step (fun (_ : option string * result exn bool) => P); [done|]. intros [res [[|]|]]; [by ret|done|by ret]. Qed.

Lemma cancel_if_requested_spec t P r res : gstable t P -> gspec t P (cancel_if_requested r res) (fun _ => P).
Proof.
  intros HP. unfold cancel_if_requested. step_neutral. intros [|]; cbn [negb]; [|by ret]. step_neutral. intros [o|]; [by ret|].
  step (fun (x : list nat * bool) s => P s /\ (x.2 = true -> sealed s r)); [by apply spec_seal_terminal|].
  intros [ws [|]]; cbn [snd].
  - eapply spec_weaken with (P := fun s => P s /\ ended r s) (Q := fun _ => P); [|intros s Hi [HPs Hs]; split; [done|]; eapply sealed_ended; eauto|done].
    step_neutral. intros [[]|]; [|by ret; naive_solver]. step (fun (_ : ()) => P); [by apply spec_discard|]. intros _.
    step_neutral. intros broadcast. by ret.
  - eapply spec_weaken with (P := P) (Q := fun _ => P); [|naive_solver|done]. step_neutral. intros [o|]; by ret.
Qed.

Lemma handled_step_spec t P r res : gstable t P -> gspec t P (handled_step r res) (fun _ => P).
Proof. intros HP. unfold handled_step. step_neutral. intros [[|]|]; [by ret| |by ret]. step_neutral. intros m. by ret. Qed.

Lemma plain_step_spec t P res : gstable t P -> gspec t P (plain_step res) (fun _ => P).
Proof. intros HP. unfold plain_step. step_neutral. intros x. by ret. Qed.

Lemma success_step_spec r l res : gspec (Task r) (resting r l) (success_step r res) (fun _ => resting r l).
Proof.
  unfold success_step.
  step (fun (x : list nat * bool) s => resting r l s /\ (x.2 = true -> TERMINAL_OUTCOMES s !! r = Some "success")).
  { apply spec_own; [st | st|]. intros s e s' [ws b] Hi Hs. simpl. intros E. injection E as E.
    destruct (seal_success_ok capacity r s s' ws b) as (? & ? & Ho); [done..|]. split_and!; [done | done | | exact Ho].
    unfold seal_backtest_success_if_quiescent in E. case_match; injection E as <- _; done. }
  intros [ws [|]]; cbn [snd negb].
  - eapply spec_weaken with (P := fun s => resting r l s /\ TERMINAL_OUTCOMES s !! r = Some "success") (Q := fun _ => resting r l);
      [|naive_solver|done].
    step_neutral. intros [|]; [|by ret; naive_solver].
    step (fun (_ : result exn ()) s => resting r l s /\ TERMINAL_OUTCOMES s !! r = Some "success").
    { eapply spec_weaken; [apply (spec_harmless (Task r) (fun s => resting r l s /\ TERMINAL_OUTCOMES s !! r = Some "success") _ (fun _ _ => True))
        | done | naive_solver]; [st | st|].
      intros s e s' x Hi [_ Ho]. simpl. unfold attempt, answer. destruct (fails e); intros [= <- <-]; [split_and!; [done | reflexivity | done]|].
      split_and!; [|apply set_status_harmless|done]. apply set_status_inv; [done|]. intros _.
      split; [apply (inv_terminal Hi); eauto|]. intros Ha. by destruct (inv_accepted Hi _ Ha). }
    intros [[]|]; [|by ret; naive_solver]. step_neutral. intros [|]; [|by ret; naive_solver].
    step (fun (_ : ()) => resting r l); [|by intros _; ret]. eapply spec_weaken; [apply (spec_discard (Task r) (resting r l)); st | | done].
    intros s _ [Hs Ho]. split; [done|]. unfold ended. eauto.
  - eapply spec_weaken with (P := resting r l) (Q := fun _ => resting r l); [|naive_solver|done].
    step_neutral. intros [o|]; [by ret|]. apply and_then_spec; [st | apply cancel_if_requested_spec; st|]. intros res'. by ret.
Qed.

Lemma background_body_spec n r l : gspec (Task r) (resting r l) (background_body n r) (fun _ => resting r l).
Proof.
  unfold background_body.
  repeat (apply and_then_spec; [st | first [apply handled_step_spec; st | apply cancel_if_requested_spec; st
    | apply plain_step_spec; st | idtac] |intros ?]).
  - unfold compute_step. step (fun (_ : result exn ()) => resting r l).
    + eapply spec_weaken; [apply execute_spec | done | naive_solver].
    + intros x. by ret.
  - apply success_step_spec.
Qed.

Lemma on_cancelled_spec t P r : gstable t P -> gspec t P (on_cancelled r) (fun _ => P).
Proof.
  intros HP. unfold on_cancelled. step_neutral. intros [o|]; [by ret|].
  step (fun (x : list nat * bool) s => P s /\ (x.2 = true -> sealed s r)); [by apply spec_seal_terminal|].
  intros [ws [|]]; cbn [snd negb].
  - eapply spec_weaken with (P := fun s => P s /\ ended r s) (Q := fun _ => P); [|intros s Hi [HPs Hs]; split; [done|]; eapply sealed_ended; eauto|done].
    step_neutral. intros _. step_neutral. intros _. step (fun (_ : ()) => P); [by apply spec_discard|]. intros _. by ret.
  - eapply spec_weaken with (P := P) (Q := fun _ => P); [|naive_solver|done]. step_neutral. intros [o|]; by ret.
Qed.

Lemma on_error_spec r l res : gspec (Task r) (resting r l) (on_error r res) (fun _ => resting r l).
Proof.
  unfold on_error. step_neutral. intros existing.
  assert (H : gspec (Task r) (resting r l) (do! sealed := act (SealFailure r res) in
      if negb sealed then ok tt
      else try! _u := act Elsewhere in
           do! _u := act (MarkRun r "failed") in
           do! _u := act (DiscardCancel r) in ok tt) (fun _ => resting r l)).
  { step (fun (b : bool) s => resting r l s /\ (b = true -> ended r s)).
    { apply spec_own; [st | st|]. intros s e s' b Hi Hs. simpl. intros E. injection E as E.
      destruct (seal_failure_ok capacity r res s s' b) as (Hi' & ? & He); [done..|]. split_and!; [done | done | |].
      - unfold seal_backtest_failure in E. repeat case_match; injection E as <- _; done.
      - intros Hb. apply (inv_terminal Hi'). by apply He. }
    intros [|]; cbn [negb]; [|by ret; naive_solver].
    eapply spec_weaken with (P := fun s => resting r l s /\ ended r s) (Q := fun _ => resting r l); [|naive_solver|done].
    step_neutral. intros _. step_neutral. intros _. step (fun (_ : ()) => resting r l); [apply spec_discard; st|]. intros _. by ret. }
  destruct existing, res; [exact H | by ret | exact H | exact H].
Qed.

(** The lease is back, or kept for a worker the run still owns. *)
Definition settled (r : string) (l : nat) (s : Gateway) : Prop :=
  issued s !! r = Some l /\ (r ∉ STARTING_RUNS s) /\ (l < next_lease s)%nat /\
  (RETAINED_LEASES s !! r = Some l \/ l ∉ leases_out s).

Lemma stable_settled r l : gstable (Task r) (settled r l).
Proof.
  intros s s' (H1 & H2 & H3 & H4) [C P] Hi. pose proof (c_next _ _ C). split_and!; [by apply (c_issued _ _ C) | | lia|].
  - intros Hx. by apply H2, (p_starting _ _ _ P).
  - destruct H4 as [Hl|Ho]; [|right; by apply (c_out _ _ C)].
    destruct (p_lease _ _ _ P) as [E|(E & l' & ? & _ & ?)]; [left; congruence|]. right. by assert (l' = l) as -> by congruence.
Qed.
#[local] Hint Resolve stable_settled : stable.

Lemma settle_lease_spec r l : gspec (Task r) (resting r l) (settle_lease r l) (fun _ => settled r l).
Proof.
  unfold settle_lease.
  step (fun (x : result exn bool) s => match x with Ok false => resting r l s /\ forall w, ~ owns s r w | _ => settled r l s end).
  - apply spec_own; [st | intros [[|]|]; st|]. intros s e s' x Hi [(Hl & Ho & Hn) Hs]. simpl.
    destruct (retain_backtest_admission_lease r l s) as [s1 b] eqn:E.
    destruct (retain_lease_ok capacity r l s s1 b) as (Hi' & Hh & [[-> Hk]|(-> & -> & Hno)]); [done..| |].
    + unfold answer. intros [= <- <-]. split_and!; [done | done|]. destruct (inv_leases Hi' _ _ Hk) as (Hiss & Hst & _).
      split_and!; [done | done | by apply (inv_next Hi' r) | by left].
    + unfold answer. intros [= <- <-]. split_and!; [done | done | done | done].
  - intros [|]; [by ret|]. step (fun (_ : ()) => settled r l); [|by intros _; ret].
    apply spec_own; [st | st|]. intros s e s' x Hi [[(Hl & Ho & Hn) Hs] Hno]. simpl. intros [= <- <-].
    destruct (release_ok capacity r l s) as [Hi' Hh]; [done..|]. split_and!; [done | done|].
    pose proof (release_out l s) as Eo. pose proof (inv_next Hi _ _ Hl).
    unfold settled. rewrite Eo. unfold release. rewrite bool_decide_true by done. simpl. split_and!; [done | done | done|]. right. set_solver.
Qed.

Lemma run_backtest_background_spec n r l :
  gspec (Task r) (resting r l) (run_backtest_background n r l) (fun _ => settled r l).
Proof.
  unfold run_backtest_background, finally. step (fun (_ : result exn ()) => resting r l).
  - step (fun (_ : option string * result exn bool) => resting r l); [apply background_body_spec|].
    intros [res [b|[| |c]]]; [by ret | apply on_cancelled_spec; st | apply on_error_spec | apply on_error_spec].
  - intros x. step (fun (_ : result exn ()) => settled r l); [apply settle_lease_spec|]. intros [|]; by ret.
Qed.
(** ** Cancel requests *)

Lemma stable_accepted t r : gstable t (fun s => r ∈ accepted s).
Proof. intros s s' Ha [C _] _. by apply (c_accepted _ _ C). Qed.
#[local] Hint Resolve stable_accepted : stable.

Lemma cleanup_round_spec t P n r ws proven : gstable t P -> gspec t P (cleanup_round n r ws proven) (fun _ => P).
Proof.
  intros HP. revert proven. induction ws as [|w ws IH]; intros proven; [by ret|]. cbn [cleanup_round].
  step_neutral. intros _. step_neutral. intros [|]; cbn [negb]; [|done].
  step (fun (_ : result exn bool) => P); [eapply spec_weaken; [by apply cleanup_registered_spec | done | naive_solver]|]. done.
Qed.

(** The run is sealed when the cleanup says so. *)
Definition seals (r : string) (x : result exn (bool * bool)) (s : Gateway) : Prop := forall f, x = Ok (true, f) -> sealed s r.

Lemma stable_seals t r x : gstable t (seals r x).
Proof. intros s s' Hs Hr Hi f Hf. eapply stable_sealed; eauto. Qed.
#[local] Hint Resolve stable_seals : stable.

Lemma cleanup_all_spec t P n r found : gstable t P ->
  gspec t P (cleanup_all_owned_workers n r found) (fun x s => P s /\ seals r x s).
Proof.
  intros HP. revert found. induction n as [|n IH]; intros found; [apply spec_never|]. cbn [cleanup_all_owned_workers].
  step (fun (x : list nat * bool) s => P s /\ (x.2 = true -> sealed s r)); [by apply spec_seal_terminal|].
  intros [ws [|]]; cbn [snd].
  - ret. unfold seals. naive_solver.
  - eapply spec_weaken with (P := P) (Q := fun x s => P s /\ seals r x s); [|naive_solver|done].
    assert (H : gspec t P (try! proven := cleanup_round n r ws true in
        if negb proven then ok (false, true) else cleanup_all_owned_workers n r true) (fun x s => P s /\ seals r x s)).
    { eapply spec_try with (Q := fun _ => P); [exact _ | by apply cleanup_round_spec | | st | by unfold seals].
      intros [|]; cbn [negb]; [done|]. ret. unfold seals. naive_solver. }
    destruct ws; [|exact H]. step_neutral. intros [|]; cbn [negb]; [done|]. ret. unfold seals. naive_solver.
Qed.

(** What an accepted cancellation leaves. *)
Definition cancelled_run (r : string) (x : result exn ActionAnswer) (s : Gateway) : Prop :=
  forall a, x = Ok a -> ans_accepted a = true -> sealed s r /\ r ∈ accepted s.

Lemma run_action_spec t n r : gspec t (fun _ => True) (run_action n r) (cancelled_run r).
Proof.
  unfold run_action. eapply spec_try with (Q := fun _ _ => True); [exact _ | by apply neutral_act; [apply stable_pure|] | | |].
  2: { intros. apply stable_pure. }
  2: { intros e s _ _ a Ha. done. }
  intros [status|]; [|by apply spec_ret; [apply stable_pure|]; intros s _ _ a Ha].
  eapply spec_bind with (Q := fun (b : bool) s => True /\ (b = true -> r ∈ accepted s)); [exact _| |].
  { apply spec_harmless; [apply stable_pure | st|]. intros s e s' b Hi _. simpl. intros E. injection E as E.
    by apply (request_cancel_ok capacity r s s' b). }
  intros [|]; cbn [negb]; [|by apply spec_ret; [st|]; intros s _ _ a [= <-]].
  eapply spec_weaken with (P := fun s => r ∈ accepted s) (Q := cancelled_run r); [|naive_solver|done].
  eapply spec_try with (Q := fun x s => (r ∈ accepted s) /\ seals r x s); [exact _ | apply cleanup_all_spec; st | | st | by intros e s _ _ a].
  intros [[|] f]; cbn [fst snd negb]; [|by apply spec_ret; [st|]; intros s _ _ a].
  eapply spec_weaken with (P := fun s => (r ∈ accepted s) /\ sealed s r) (Q := cancelled_run r); [|unfold seals; naive_solver|done].
  destruct (negb _).
  - step (fun (_ : ()) s => (r ∈ accepted s) /\ sealed s r).
    + eapply spec_weaken; [apply (spec_discard t (fun s => (r ∈ accepted s) /\ sealed s r)); st | | done].
      intros s Hi [? Hs]. split_and!; [done | done |]. by apply sealed_ended.
    + intros _. apply spec_ret; [st|]. intros s _ _ a [= <-]. done.
  - destruct f.
    + eapply spec_try with (Q := fun (_ : result exn ()) s => (r ∈ accepted s) /\ sealed s r);
        [exact _ | by apply neutral_act; [st|] | | st | by intros e s _ _ a].
      intros _. step (fun (_ : ()) s => (r ∈ accepted s) /\ sealed s r).
      * eapply spec_weaken; [apply (spec_discard t (fun s => (r ∈ accepted s) /\ sealed s r)); st | | done].
        intros s Hi [? Hs]. split_and!; [done | done |]. by apply sealed_ended.
      * intros _. eapply spec_try with (Q := fun (_ : result exn nat) s => (r ∈ accepted s) /\ sealed s r);
          [exact _ | by apply neutral_act; [st|] | | st | by intros e s _ _ a].
        intros _. apply spec_ret; [st|]. intros s _ [Ha Hs] a _ _. done.
    + eapply spec_try with (Q := fun (_ : result exn nat) s => (r ∈ accepted s) /\ sealed s r);
        [exact _ | by apply neutral_act; [st|] | | st | by intros e s _ _ a].
      intros _. apply spec_ret; [st|]. intros s _ _ a [= <-]. done.
Qed.

(** ** Every interleaving *)

Definition thread_post (t : thread) (c : Call) (o : outcome) (s : Gateway) : Prop :=
  match t, o with
  | Task r, TaskEnds _ => exists l, settled r l s
  | CancelRequest _, Answered x => cancelled_run (target c) x s
  | _, _ => False
  end.

Lemma stable_thread_post t c o : gstable t (thread_post t c o).
Proof.
  intros s s' H Hr Hi. destruct t, o; simpl in *; try done.
  - destruct H as [l H]. exists l. by eapply stable_settled.
  - intros a Ha Hacc. destruct (H a Ha Hacc). split; [by eapply stable_sealed | by eapply stable_accepted].
Qed.

Abbreviation safe_system := (all_safe perform inv gateway_rely thread_post).

Lemma thread_enter_ok t c s s' : inv s -> thread_enter t c s = Some s' ->
  inv s' /\ gateway_guar t s s' /\ safe perform inv gateway_rely t (thread_body t c s') (thread_post t c) s'.
Proof.
  intros Hi. destruct t as [r|i]; cbn [thread_enter thread_body].
  - intros He. destruct (start_run_ok capacity r s s' Hi He) as (Hi' & Hh & l & Hl & Hs).
    split_and!; [done | by apply harmless_but_guar|].
    destruct Hl as (Hiss & Ho & Hn). rewrite Hiss. change (default 0%nat (Some l)) with l.
    eapply safe_bind; [exact _|apply run_backtest_background_spec; [done | by split_and!]| |done].
    intros x s1 Hi1 Hx. apply safe_ret; [apply stable_thread_post | by exists l].
  - intros [= <-]. split_and!; [done | intros t' _; reflexivity|].
    eapply safe_bind; [exact _|by apply run_action_spec| |done].
    intros x s1 Hi1 Hx. apply safe_ret; [apply stable_thread_post | done].
Qed.

Lemma outside_ok ev s : inv s -> inv (happen ev s) /\ forall t, gateway_rely t s (happen ev s).
Proof. intros Hi. destruct (happen_ok capacity ev s Hi) as [? ?]. split; [done|]. intros t. by apply harmless_rely. Qed.

Lemma gateway_init_inv : inv (gateway_init capacity).
Proof.
  split; simpl; try set_solver; try done.
  - intros r w [Hw|Hw]; [done | by apply elem_of_nil in Hw].
  - intros r w w' [Hw|Hw]; [done | by apply elem_of_nil in Hw].
  - intros r. rewrite lookup_empty. split; [set_solver | by intros []].
  - intros r w [Hw|Hw]; [done | by apply elem_of_nil in Hw].
Qed.

(** Every reachable gateway satisfies the invariant, and every thread its
    specification. *)
Lemma gateway_run_safe evs : safe_system (gateway_run capacity evs).
Proof.
  apply events_safe; [exact _ | apply outside_ok | apply thread_enter_ok|]. split; [apply gateway_init_inv | done].
Qed.

End Proofs.

(** ** What follows for the gateway *)

Lemma run_app capacity evs evs' :
  gateway_run capacity (evs ++ evs') = run_events perform happen thread_enter thread_body (gateway_run capacity evs) evs'.
Proof. apply fold_left_app. Qed.

(** A thread that may always be watching. *)
Lemma other_request t : exists i, CancelRequest i <> t.
Proof. destruct t as [r|i]; [by exists 0%nat|]. exists (S i). intros [=]. lia. Qed.

Lemma exec_common capacity w ev : all_safe perform (gateway_inv capacity) gateway_rely thread_post w ->
  common (shared w) (shared (exec perform happen thread_enter thread_body w ev)).
Proof.
  intros [Hi Hs]. destruct ev as [t a | t e | o]; simpl.
  - destruct (threads w !! t); [reflexivity|]. destruct (thread_enter t a (shared w)) as [s|] eqn:He; [|reflexivity].
    destruct (thread_enter_ok capacity t a _ _ Hi He) as (_ & Hg & _). destruct (other_request t) as [i Hne]. by apply (Hg (CancelRequest i)).
  - destruct (threads w !! t) as [[a [o | X c k]]|] eqn:Ht; [reflexivity| |reflexivity].
    destruct (perform X c e (shared w)) as [[s x]|] eqn:He; [|reflexivity].
    destruct (Hs _ _ _ Ht (shared w) ltac:(reflexivity) Hi e s x He) as (_ & Hg & _).
    destruct (other_request t) as [i Hne]. by apply (Hg (CancelRequest i)).
  - apply (happen_ok capacity); exact Hi.
Qed.

Lemma later_common capacity evs evs' :
  common (shared (gateway_run capacity evs)) (shared (gateway_run capacity (evs ++ evs'))).
Proof.
  induction evs' as [|ev evs' IH] using rev_ind; [by rewrite app_nil_r|].
  rewrite app_assoc, (run_app _ (evs ++ evs')). etransitivity; [exact IH|]. apply (exec_common capacity), gateway_run_safe.
Qed.

Lemma run_inv capacity evs : gateway_inv capacity (shared (gateway_run capacity evs)).
Proof. apply gateway_run_safe. Qed.

(** Some process of the run's family still computes, or still may. *)
Definition computes (s : Gateway) (r : string) : Prop :=
  exists w k, workers s !! w = Some k /\ w_run k = r /\ ~ quiet k.

Lemma sealed_not_computing capacity s r : gateway_inv capacity s -> sealed s r -> ~ computes s r.
Proof. intros Hi (_ & _ & Hn) (w & k & Hk & <- & Hq). by apply (Hn w), (inv_live Hi). Qed.

(** At most one process family computes for a run, whatever tasks, cancel requests
    and processes do: two workers of one run that may still compute are the same. *)
Theorem one_family_per_run capacity evs w w' k k' :
  let s := shared (gateway_run capacity evs) in
  workers s !! w = Some k -> workers s !! w' = Some k' -> ~ quiet k -> ~ quiet k' -> w_run k = w_run k' -> w = w'.
Proof.
  intros s Hk Hk' Hq Hq' E. pose proof (run_inv capacity evs) as Hi.
  apply (inv_single Hi (w_run k)); [|rewrite E]; by apply (inv_live Hi).
Qed.

(** C33: no more runs compute at once than the limiter has permits. *)
Theorem families_within_capacity capacity evs rs :
  NoDup rs -> Forall (computes (shared (gateway_run capacity evs))) rs -> (length rs <= capacity)%nat.
Proof.
  intros Hn Hc. pose proof (run_inv capacity evs) as Hi. set (s := shared (gateway_run capacity evs)) in *.
  set (lease := fun r => default 0%nat (issued s !! r)).
  assert (H : forall r, r ∈ rs -> issued s !! r = Some (lease r) /\ lease r ∈ leases_out s).
  { intros r Hr. rewrite Forall_forall in Hc. destruct (Hc _ Hr) as (w & k & Hk & <- & Hq).
    destruct (inv_permit Hi (w_run k) w) as (l & Hl & Ho); [by apply (inv_live Hi)|]. unfold lease. by rewrite Hl. }
  assert (Hs : list_to_set (lease <$> rs) ⊆ leases_out s).
  { intros l. rewrite elem_of_list_to_set, list_elem_of_fmap. intros (r & -> & Hr). by apply H. }
  apply subseteq_size in Hs. rewrite size_list_to_set, length_fmap in Hs; [pose proof (inv_count Hi); lia|].
  apply NoDup_fmap_2_strong; [|done]. intros r r' Hr Hr' E. destruct (H _ Hr) as [H1 _], (H _ Hr') as [H2 _].
  rewrite E in H1. by eapply (inv_issued Hi).
Qed.

(** C32: once a run is recorded as succeeded or cancelled nothing of it computes, and
    nothing of it ever will. *)
Theorem ended_run_is_quiet capacity evs evs' r o :
  TERMINAL_OUTCOMES (shared (gateway_run capacity evs)) !! r = Some o -> o <> "failed" ->
  ~ computes (shared (gateway_run capacity (evs ++ evs'))) r.
Proof.
  intros Ho Hf. eapply sealed_not_computing; [apply run_inv|].
  apply (c_sealed _ _ (later_common capacity evs evs')). by eapply (inv_sealed (run_inv capacity evs)).
Qed.

(** C34: when a cancel request was answered as accepted, no process of the run computes
    any more, and the run is never recorded as done, whatever happens later. *)
Theorem accepted_cancellation_wins capacity evs evs' i c a :
  threads (gateway_run capacity evs) !! CancelRequest i = Some (c, Ret (Answered (Ok a))) -> ans_accepted a = true ->
  let s := shared (gateway_run capacity (evs ++ evs')) in
  ~ computes s (target c) /\ run_status s !! target c <> Some "done".
Proof.
  intros Ht Ha s. pose proof (returned_post _ _ _ _ _ _ _ _ (gateway_run_safe capacity evs) Ht) as Hp.
  destruct (Hp a eq_refl Ha) as [Hs Hacc]. pose proof (later_common capacity evs evs') as C.
  pose proof (run_inv capacity (evs ++ evs')) as Hi. split.
  - by eapply sealed_not_computing, (c_sealed _ _ C).
  - intros Hd. destruct (inv_done Hi _ Hd) as [_ Hn]. by apply Hn, (c_accepted _ _ C).
Qed.

(** Leases are issued to tasks only. *)
Lemma perform_issued X (c : Cmd X) e s s' x : perform X c e s = Some (s', x) -> issued s' = issued s.
Proof.
  destruct c; simpl; unfold attempt, answer; intros He;
    repeat match type of He with context [if ?b then _ else _] => destruct b end; try (by injection He as <- _); try done.
  - injection He as E. unfold admit_backtest_worker_start in E. case_match; by injection E as <-.
  - injection He as E. unfold request_backtest_cancel in E. case_match; by injection E as <-.
  - injection He as E. unfold seal_backtest_terminal_if_quiescent in E. repeat case_match; by injection E as <-.
  - injection He as E. unfold seal_backtest_success_if_quiescent in E. case_match; by injection E as <-.
  - injection He as E. unfold seal_backtest_failure in E. repeat case_match; by injection E as <-.
  - unfold retain_backtest_admission_lease in He. repeat case_match; simplify_eq; done.
  - injection He as <- _. unfold release. by case_match.
  - unfold register_backtest_worker in He. repeat case_match; simplify_eq; done.
  - injection He as <- _. unfold retain_backtest_worker_for_retry. by repeat case_match.
  - injection He as <- _. rewrite unregister_eq. destruct (has_ownership _ _); [done|].
    destruct (RETAINED_LEASES s !! r); [|done]. unfold release. by case_match.
Qed.

Lemma issued_to_task capacity evs r l : issued (shared (gateway_run capacity evs)) !! r = Some l ->
  is_Some (threads (gateway_run capacity evs) !! Task r).
Proof.
  revert r l. induction evs as [|ev evs IH] using rev_ind; intros r l; [done|].
  rewrite run_app. simpl. set (w := gateway_run capacity evs) in *. clearbody w.
  destruct ev as [t a | t e | o]; simpl; [| |apply IH].
  - destruct (threads w !! t) eqn:Ht; [apply IH|]. destruct (thread_enter t a (shared w)) as [s|] eqn:He; [|apply IH]. simpl.
    rewrite lookup_insert_is_Some'. destruct t as [r'|i]; simpl in He; [|injection He as <-; eauto].
    unfold start_run, try_acquire in He. destruct (decide (unused r' (shared w))); [|done].
    destruct (permits (shared w)); [done|]. injection He as <-. simpl. rewrite lookup_insert_Some.
    intros [[-> _]|[_ Hl]]; eauto.
  - destruct (threads w !! t) as [[a [o | X c k]]|] eqn:Ht; [apply IH| |apply IH].
    destruct (perform X c e (shared w)) as [[s x]|] eqn:He; [|apply IH]. simpl.
    rewrite (perform_issued _ _ _ _ _ _ He), lookup_insert_is_Some'. eauto.
Qed.

(** When every task and request has returned and no worker is retained, every
    permit of the limiter is back: none is lost and none is released twice. *)
Theorem permits_return capacity evs :
  let w := gateway_run capacity evs in
  (forall t c p, threads w !! t = Some (c, p) -> exists o, p = Ret o) ->
  (forall r k, ~ owns (shared w) r k) -> permits (shared w) = capacity.
Proof.
  intros w Hret Hno. pose proof (run_inv capacity evs) as Hi.
  assert (He : leases_out (shared w) = ∅).
  { apply set_eq. intros l. split; [|set_solver]. intros Hl. exfalso. destruct (inv_lent Hi _ Hl) as [r Hr].
    destruct (issued_to_task _ _ _ _ Hr) as [[c p] Ht]. destruct (Hret _ _ _ Ht) as [o ->].
    pose proof (returned_post _ _ _ _ _ _ _ _ (gateway_run_safe capacity evs) Ht) as Hp.
    destruct o; [|done]. destruct Hp as (l' & Hl' & _ & _ & Hc). assert (l' = l) as -> by congruence.
    destruct Hc as [Hc|Hc]; [|done]. destruct (inv_leases Hi _ _ Hc) as (_ & _ & k & Hk). by apply (Hno r k). }
  pose proof (inv_count Hi) as Hc. fold w in Hc. rewrite He, size_empty in Hc. lia.
Qed.

(** A supervisor is only killed once its family's cleanup is complete, so that
    no descendant loses its owner. *)
Theorem sigkill_after_cleanup capacity evs w k :
  workers (shared (gateway_run capacity evs)) !! w = Some k -> killed k = true -> cleanup_complete k = true /\ kids k = false.
Proof.
  intros Hk Hkill. destruct (inv_worker (run_inv capacity evs) _ _ Hk) as (Hkids & _ & _ & Hc). auto.
Qed.

(** ** Concrete runs *)

Module RunDemo.
Definition good : Choice := mkChoice false 0.
Definition bad : Choice := mkChoice true 0.
Definition chosen (n : nat) : Choice := mkChoice false n.
Definition T (l : list Choice) : list gateway_events := Step (Task "r") <$> l.
Definition C (l : list Choice) : list gateway_events := Step (CancelRequest 0) <$> l.
Definition times (n : nat) : list Choice := replicate n good.
Definition submit : gateway_events := Spawn (Task "r") (mkCall 9 "").
Definition cancel : gateway_events := Spawn (CancelRequest 0) (mkCall 9 "r").

(** The task up to its registered worker, which computes. *)
Definition registered : list gateway_events :=
  submit :: T (times 13) ++ [Happen (OsPublish 0); Happen (OsFork 0)] ++ T (times 5 ++ [chosen 1] ++ times 3).
Definition family_ends : list gateway_events := [Happen (OsKidsExit 0); Happen (OsCleanup 0); Happen (OsExit 0)].
Definition good_run : list gateway_events :=
  registered ++ T (times 2 ++ [chosen 2] ++ times 3 ++ [chosen 1; good]) ++ family_ends ++ T (times 17).
Definition cancelled_run : list gateway_events :=
  registered ++ [cancel] ++ C (times 7 ++ [chosen 1; good]) ++ family_ends ++ C (times 12).

Definition statuses (evs : list gateway_events) : option string * option string :=
  let s := shared (gateway_run 2 evs) in (run_status s !! "r", TERMINAL_OUTCOMES s !! "r").
Definition answer_of (evs : list gateway_events) (t : thread) : option outcome :=
  match (threads (gateway_run 2 evs) !! t : option (Call * prog Cmd outcome)) with Some (_, Ret x) => Some x | _ => None end.
Definition working : Worker := mkWorker "r" true true true true false false true false false false.

Example good_run_done :
  (statuses good_run, answer_of good_run (Task "r"), permits (shared (gateway_run 2 good_run)))
  = ((Some "done", Some "success"), Some (TaskEnds (Ok tt)), 2%nat).
Proof. vm_compute. reflexivity. Qed.

Lemma one_family_per_run_witness :
  let s := shared (gateway_run 2 registered) in workers s !! 0%nat = Some working /\ ~ quiet working /\ 0%nat = 0%nat.
Proof.
  split; [vm_compute; reflexivity|]. split; [by intros [? _]|].
  apply (one_family_per_run 2 registered 0 0 working working);
    [vm_compute; reflexivity | vm_compute; reflexivity | by intros [? _] | by intros [? _] | reflexivity].
Defined.

Lemma ended_run_is_quiet_witness :
  TERMINAL_OUTCOMES (shared (gateway_run 2 good_run)) !! "r" = Some "success" /\
  ~ computes (shared (gateway_run 2 (good_run ++ [cancel]))) "r".
Proof. split; [vm_compute; reflexivity|]. apply (ended_run_is_quiet 2 good_run [cancel] "r" "success"); [vm_compute; reflexivity | discriminate]. Defined.

Lemma cancelled_answer :
  threads (gateway_run 2 cancelled_run) !! CancelRequest 0 =
  Some (mkCall 9 "r", Ret (Answered (Ok (mkAnswer "cancelled" true)))).
Proof. vm_compute. reflexivity. Qed.

Lemma accepted_cancellation_wins_witness :
  let s := shared (gateway_run 2 (cancelled_run ++ T (times 9))) in
  ~ computes s (target (mkCall 9 "r")) /\ run_status s !! target (mkCall 9 "r") <> Some "done".
Proof.
  refine (accepted_cancellation_wins 2 cancelled_run (T (times 9)) 0 (mkCall 9 "r") (mkAnswer "cancelled" true) cancelled_answer _).
  reflexivity.
Defined.

Lemma registered_computes : computes (shared (gateway_run 2 registered)) "r".
Proof. exists 0%nat, working. split_and!; [vm_compute; reflexivity | reflexivity | by intros [? _]]. Qed.

Lemma families_within_capacity_witness :
  computes (shared (gateway_run 2 registered)) "r" /\ (1 <= 2)%nat.
Proof.
  split; [exact registered_computes|].
  refine (families_within_capacity 2 registered ["r"] _ _); [apply NoDup_singleton | apply Forall_singleton, registered_computes].
Defined.

Definition returned (x : Call * prog Cmd outcome) : bool := match x.2 with Ret _ => true | Act _ _ => false end.

Lemma good_run_returned t c p : threads (gateway_run 2 good_run) !! t = Some (c, p) -> exists o, p = Ret o.
Proof.
  assert (E : map_to_list (returned <$> threads (gateway_run 2 good_run)) = [(Task "r", true)]) by (vm_compute; reflexivity).
  intros Ht. assert (H : (t, returned (c, p)) ∈ [(Task "r", true)]).
  { rewrite <- E. apply elem_of_map_to_list. by rewrite lookup_fmap, Ht. }
  apply list_elem_of_singleton in H. destruct p as [o|]; [by exists o | by injection H].
Qed.

Lemma good_run_owns_nothing r k : ~ owns (shared (gateway_run 2 good_run)) r k.
Proof.
  assert (Ea : ACTIVE_WORKERS (shared (gateway_run 2 good_run)) = ∅) by (vm_compute; reflexivity).
  assert (Er : RETAINED_WORKERS (shared (gateway_run 2 good_run)) = ∅) by (vm_compute; reflexivity).
  unfold owns, retained_of. rewrite Ea, Er, !lookup_empty. intros [Hk|Hk]; [done | by apply elem_of_nil in Hk].
Qed.

Lemma permits_return_witness : permits (shared (gateway_run 2 good_run)) = 2%nat.
Proof. apply (permits_return 2 good_run); [exact good_run_returned | exact good_run_owns_nothing]. Defined.

(** A run cancelled before its worker starts is never marked cancelled: the
    request answers "cancelling", the task sees the outcome and returns, and
    the row still says running. *)
Example early_cancellation_not_recorded :
  let evs := submit :: T (times 3) ++ [cancel] ++ C (times 4) ++ T (times 4) in
  (statuses evs, answer_of evs (Task "r"), answer_of evs (CancelRequest 0))
  = ((Some "running", Some "cancelled"), Some (TaskEnds (Ok tt)), Some (Answered (Ok (mkAnswer "cancelling" false)))).
Proof. vm_compute. reflexivity. Qed.

(** A cancel request between the worker's admission and its start fails: it
    joins a process that was never started. *)
Example cancel_before_start_raises :
  answer_of (submit :: T (times 11) ++ [cancel] ++ C (times 12)) (CancelRequest 0) = Some (Answered (Err OtherError)).
Proof. vm_compute. reflexivity. Qed.

(** A request that cleans up after the task has failed marks the failed run
    cancelled. *)
Example cancel_overwrites_failure :
  let not_proven := times 3 ++ [chosen 1] ++ times 2 ++ [bad] ++ times 2 in
  let evs := registered ++ [cancel] ++ C (times 5) ++ T (good :: not_proven ++ not_proven ++ times 7) ++
    C (times 3 ++ [chosen 1; good]) ++ family_ends ++ C (times 12) in
  (statuses evs, answer_of evs (CancelRequest 0))
  = ((Some "cancelled", Some "failed"), Some (Answered (Ok (mkAnswer "cancelled" true)))).
Proof. vm_compute. reflexivity. Qed.
End RunDemo.
