(* ===== verification/BacktestRequests.v ===== *)
(** Requests for backtest runs: the idempotency table, the admission limiter and
    [run_backtest] of [openpine/gateway/routes/backtest.py].

    A request may carry an idempotency key.  It claims the key, takes a permit,
    creates the run, persists the job, binds the key to the run and schedules
    the run's task.  The handler never awaits, so that one request is one step
    of this process; the table is shared with other processes, whose operations
    on it come between two requests ([OtherProcess]) or between a request's
    claim and its completion ([an_meanwhile]).

    All the gateway's threads share one connection to the database.  A statement
    takes effect on it at once and is stored by the next commit, whoever makes
    it; when that commit fails nothing is rolled back, so that the effect stays
    in the open transaction until some other commit or rollback of the
    connection ([Commits], [RollsBack]).  [idempotency] is the table as the
    connection has it and [stored] as the database has it.  While they differ
    no other process writes: the open transaction has the write lock.

    What the strategy registry, the estimate and the databases answer to one
    request are the other fields of its [Answers].  The task itself is modelled
    in [BacktestRuns]; here it only returns its permit, at the moment its lease
    is released (a lease kept for a clean-up is still on lease).  A run row
    whose own INSERT is not committed is not followed. *)

From S2P Require Import Prelude.

(** ** The idempotency table *)

(** A row of [api_idempotency]; its key is scope and idempotency key. *)
Record IdempotencyRow := mkRow {
  row_hash : string;
  row_token : string;
  row_result : option string;
  row_created : Z;
  row_updated : Z
}.

Abbreviation IdempotencyTable := (gmap (string * string) IdempotencyRow).

Definition IDEMPOTENCY_PENDING_TTL_MS : Z := 5 * 60 * 1000.
Definition IDEMPOTENCY_RESULT_TTL_MS : Z := 7 * 24 * 60 * 60 * 1000.
Definition run_scope : string := "backtest.run".

(** [_IdempotencyClaim]. *)
Record IdempotencyClaim := mkClaim { result_id : option string; claim_token : option string }.

(** The HTTP errors and, last, an exception of the storage. *)
Inductive request_error := HTTPException (status : Z) (detail : string) | StorageError.

#[global] Instance IdempotencyRow_eq_dec : EqDecision IdempotencyRow.
Proof. solve_decision. Defined.

(** The rows the two DELETE statements of a claim remove. *)
Definition expired (now : Z) (key : string * string) (row : IdempotencyRow) : bool :=
  bool_decide (key.1 = run_scope) &&
  match row_result row with
  | None => row_updated row <? now - IDEMPOTENCY_PENDING_TTL_MS
  | Some _ => row_updated row <? now - IDEMPOTENCY_RESULT_TTL_MS
  end.

(** The first of them alone. *)
Definition purge_pending (now : Z) (t : IdempotencyTable) : IdempotencyTable :=
  filter (fun '(k, row) => expired now k row && bool_decide (row_result row = None) = false) t.

Definition purge (now : Z) (t : IdempotencyTable) : IdempotencyTable :=
  filter (fun '(k, row) => expired now k row = false) t.

(** [_claim_backtest_idempotency_storage]. *)
Definition claim_backtest_idempotency (now : Z) (token key hash : string) (t : IdempotencyTable)
    : IdempotencyTable * result request_error IdempotencyClaim :=
  let t1 := purge now t in
  match t1 !! (run_scope, key) with
  | None => (<[(run_scope, key) := mkRow hash token None now now]> t1, Ok (mkClaim None (Some token)))
  | Some row =>
      (t1, if negb (bool_decide (row_hash row = hash)) then
             Err (HTTPException 409 "Idempotency-Key was already used with a different request")
           else match opt_truthy (row_result row) with
                | None => Err (HTTPException 409 "The idempotent backtest request is still being scheduled")
                | Some run => Ok (mkClaim (Some run) None)
                end)
  end.

(** The rows [hash], [token] and a pending result select. *)
Definition claimed (hash token : string) (row : IdempotencyRow) : bool :=
  bool_decide (row_hash row = hash) && bool_decide (row_token row = token) && bool_decide (row_result row = None).

(** [_complete_backtest_idempotency_storage]; a claim that is not there any
    more was superseded, which the caller reports as a conflict. *)
Definition complete_backtest_idempotency (now : Z) (key hash token run : string) (t : IdempotencyTable)
    : IdempotencyTable * result request_error unit :=
  match t !! (run_scope, key) with
  | Some row =>
      if claimed hash token row then
        (<[(run_scope, key) := mkRow (row_hash row) (row_token row) (Some run) (row_created row) now]> t, Ok tt)
      else (t, Err (HTTPException 409 "Idempotency claim expired or was superseded"))
  | None => (t, Err (HTTPException 409 "Idempotency claim expired or was superseded"))
  end.

(** [_release_backtest_idempotency_storage]. *)
Definition release_backtest_idempotency (key hash token : string) (t : IdempotencyTable) : IdempotencyTable :=
  match t !! (run_scope, key) with
  | Some row => if claimed hash token row then delete (run_scope, key) t else t
  | None => t
  end.

(** What any process does to the table. *)
Inductive table_op :=
  | Claim (now : Z) (token key hash : string)
  | Complete (now : Z) (key hash token run : string)
  | Release (key hash token : string).

Definition table_step (t : IdempotencyTable) (op : table_op) : IdempotencyTable :=
  match op with
  | Claim now token key hash => (claim_backtest_idempotency now token key hash t).1
  | Complete now key hash token run => (complete_backtest_idempotency now key hash token run t).1
  | Release key hash token => release_backtest_idempotency key hash token t
  end.

(** ** The limiter *)

(** [_BacktestAdmissionLimiter]: its capacity and what its semaphore holds. *)
Record Limiter := mkLimiter { capacity : Z; free : Z }.

(** [max(1, min(32, int(raw_limit)))], and 2 for a text [int] refuses. *)
Definition backtest_limit (raw : option Z) : Z :=
  match raw with Some n => Z.max 1 (Z.min 32 n) | None => 2 end.

(** [_backtest_admission_limiter]: the current limiter is the last one made; a
    new one, with all permits, takes its place when the limit has changed, and
    leases go back to the limiter they came from. *)
Definition backtest_admission_limiter (raw : option Z) (limiters : list Limiter) : list Limiter :=
  let limit := backtest_limit raw in
  match last limiters with
  | Some l => if negb (capacity l =? limit) then limiters ++ [mkLimiter limit limit] else limiters
  | None => limiters ++ [mkLimiter limit limit]
  end.

(** [try_acquire]: a lease is the index of its limiter. *)
Definition try_acquire (limiters : list Limiter) : option (list Limiter * nat) :=
  let i := pred (length limiters) in
  match limiters !! i with
  | Some l => if free l <=? 0 then None else Some (<[i := mkLimiter (capacity l) (free l - 1)]> limiters, i)
  | None => None
  end.

Definition release_permit (i : nat) (limiters : list Limiter) : list Limiter :=
  alter (fun l => mkLimiter (capacity l) (free l + 1)) i limiters.

(** ** [run_backtest] *)

(** The gateway: the table, as its connection has it and as it is stored, the
    limiters, the runs with strategy and status, and the background tasks with
    the lease each holds. *)
Record Requests := mkRequests {
  idempotency : IdempotencyTable;
  stored : IdempotencyTable;
  limiters : list Limiter;
  run_rows : gmap string (string * string);
  scheduled : list (string * nat)
}.

Definition requests_init : Requests := mkRequests ∅ ∅ [] ∅ [].

(** What of the strategy the handler reads. *)
Record StrategyView := mkStrategyView { sv_archived : bool; sv_pine_id : option string; sv_artifact_id : option string }.

Record RunRequest := mkRunRequest {
  rq_strategy : string;
  rq_from : Z;
  rq_to : Z;
  rq_key : option string;
  rq_hash : string
}.

(** Where the storage of a claim raises, and where that of one statement and
    its commit does. *)
Inductive claim_fault := AtFirstDelete | AtSecondDelete | AtInsert | AtCommit | AtSelect.
Inductive statement_fault := InStatement | InCommit.

(** What the world answers while one request runs. *)
Record Answers := mkAnswers {
  an_admitted : result request_error unit;
  an_strategy : option StrategyView;
  an_profile : result request_error unit;
  an_estimate : Z * Z;
  an_limit : option Z;
  an_now : Z;
  an_later : Z;
  an_token : string;
  an_claim_fails : option claim_fault;
  an_meanwhile : list table_op;
  an_run_id : option string;
  an_persist : result request_error unit;
  an_complete_fails : option statement_fault;
  an_mark_fails : bool;
  an_release_fails : option statement_fault;
  an_schedule_fails : bool
}.

Record RunResponse := mkResponse { rp_run : string; rp_strategy : string; rp_status : string }.

Definition set_idempotency (t : IdempotencyTable) (s : Requests) : Requests :=
  mkRequests t (stored s) (limiters s) (run_rows s) (scheduled s).
Definition set_limiters (l : list Limiter) (s : Requests) : Requests :=
  mkRequests (idempotency s) (stored s) l (run_rows s) (scheduled s).
Definition set_rows (rows : gmap string (string * string)) (s : Requests) : Requests :=
  mkRequests (idempotency s) (stored s) (limiters s) rows (scheduled s).
Definition set_row (run : string) (row : string * string) (s : Requests) : Requests := set_rows (<[run := row]> (run_rows s)) s.
Definition set_scheduled (l : list (string * nat)) (s : Requests) : Requests :=
  mkRequests (idempotency s) (stored s) (limiters s) (run_rows s) l.

(** [SQLiteStorage.commit] and [rollback]. *)
Definition commit (s : Requests) : Requests := mkRequests (idempotency s) (idempotency s) (limiters s) (run_rows s) (scheduled s).
Definition rollback (s : Requests) : Requests := mkRequests (stored s) (stored s) (limiters s) (run_rows s) (scheduled s).

(** What another process does, when it gets the write lock. *)
Definition other_process (s : Requests) (op : table_op) : Requests :=
  if bool_decide (idempotency s = stored s) then commit (set_idempotency (table_step (stored s) op) s) else s.

(** [admission_lease.release()]. *)
Definition give_back (lease : nat) (s : Requests) : Requests := set_limiters (release_permit lease (limiters s)) s.

(** [mark_failed]. *)
Definition mark_failed (fails : bool) (run : string) (s : Requests) : Requests :=
  if fails then s
  else commit match run_rows s !! run with Some (strategy, _) => set_row run (strategy, "failed") s | None => s end.

Definition unavailable {A} : result request_error A := Err (HTTPException 503 "Backtest idempotency storage is unavailable").

(** [_release_backtest_idempotency]: its failure is a 503 of its own. *)
Definition release_claim (a : Answers) (q : RunRequest) (token : option string) (s : Requests)
    : Requests * result request_error unit :=
  match rq_key q, token with
  | Some key, Some token =>
      let s1 := set_idempotency (release_backtest_idempotency key (rq_hash q) token (idempotency s)) s in
      match an_release_fails a with
      | Some InStatement => (s, unavailable)
      | Some InCommit => (s1, unavailable)
      | None => (commit s1, Ok tt)
      end
  | _, _ => (s, Ok tt)
  end.

(** The checks before anything is written. *)
Definition check_request (a : Answers) (q : RunRequest) : result request_error unit :=
  let! _u := an_admitted a in
  guard! negb (rq_to q <=? rq_from q) else HTTPException 400 "from_time must be before to_time" in
  match an_strategy a with
  | None => Err (HTTPException 404 ("Strategy not found: " +:+ rq_strategy q))
  | Some s =>
      guard! negb (sv_archived s) else HTTPException 400 "Archived strategy is not available for backtests" in
      match opt_truthy (sv_pine_id s), opt_truthy (sv_artifact_id s) with
      | Some _, Some _ =>
          let! _u := an_profile a in
          guard! negb ((an_estimate a).2 <=? (an_estimate a).1)
            else HTTPException 400 "No listed market data found in selected range" in
          Ok tt
      | _, _ => Err (HTTPException 400 "Strategy has no pine_id or artifact_id. Compile first.")
      end
  end.

(** [_claim_backtest_idempotency]: the statements before the one that raises
    have had their effect, and nothing rolls it back. *)
Definition claim_storage (a : Answers) (key hash : string) (s : Requests)
    : Requests * result request_error IdempotencyClaim :=
  let t := idempotency s in
  let '(t1, c) := claim_backtest_idempotency (an_now a) (an_token a) key hash t in
  match an_claim_fails a with
  | Some AtFirstDelete => (s, unavailable)
  | Some AtSecondDelete => (set_idempotency (purge_pending (an_now a) t) s, unavailable)
  | Some AtInsert => (set_idempotency (purge (an_now a) t) s, unavailable)
  | Some AtCommit => (set_idempotency t1 s, unavailable)
  | Some AtSelect =>
      (commit (set_idempotency t1 s), match c with Ok (mkClaim None (Some _)) => c | _ => unavailable end)
  | None => (commit (set_idempotency t1 s), c)
  end.

(** The claim: [inl] a response to repeat, [inr] the token of a new claim. *)
Definition claim_key (a : Answers) (q : RunRequest) (s : Requests)
    : Requests * result request_error (RunResponse + option string) :=
  match rq_key q with
  | None => (s, Ok (inr None))
  | Some key =>
      match claim_storage a key (rq_hash q) s with
      | (s1, Err e) => (s1, Err e)
      | (s1, Ok c) =>
          match result_id c with
          | None => (s1, Ok (inr (claim_token c)))
          | Some run =>
              (s1, match run_rows s !! run with
                   | None => Err (HTTPException 409 "The idempotent backtest result is no longer available")
                   | Some (strategy, status) => Ok (inl (mkResponse run strategy status))
                   end)
          end
      end
  end.

(** Scheduling the task, the last step. *)
Definition schedule_run (a : Answers) (q : RunRequest) (lease : nat) (run : string) (s : Requests)
    : Requests * result request_error RunResponse :=
  if an_schedule_fails a then
    (mark_failed (an_mark_fails a) run (give_back lease s), Err (HTTPException 503 "Unable to schedule backtest"))
  else (set_scheduled ((run, lease) :: scheduled s) s, Ok (mkResponse run (rq_strategy q) "queued")).

(** [_complete_backtest_idempotency]: a claim that was superseded is rolled back,
    an UPDATE whose commit raises is not. *)
Definition complete_storage (a : Answers) (key hash token run : string) (s : Requests) : Requests * result request_error unit :=
  match an_complete_fails a with
  | Some InStatement => (s, unavailable)
  | f =>
      match complete_backtest_idempotency (an_later a) key hash token run (idempotency s) with
      | (_, Err e) => (rollback s, Err e)
      | (t, Ok _) =>
          match f with
          | Some _ => (set_idempotency t s, unavailable)
          | None => (commit (set_idempotency t s), Ok tt)
          end
      end
  end.

(** Binding the key to the run. *)
Definition bind_run (a : Answers) (q : RunRequest) (token : option string) (lease : nat) (run : string) (s : Requests)
    : Requests * result request_error RunResponse :=
  match rq_key q, token with
  | Some key, Some tok =>
      match complete_storage a key (rq_hash q) tok run s with
      | (s1, Ok _) => schedule_run a q lease run s1
      | (s1, Err e) => ((release_claim a q token (mark_failed (an_mark_fails a) run (give_back lease s1))).1, Err e)
      end
  | _, _ => schedule_run a q lease run s
  end.

(** After the permit: the run, its job, its key, its task.  [persist_gateway_job]
    is not guarded: when it raises, nothing is undone. *)
Definition start_run (a : Answers) (q : RunRequest) (token : option string) (lease : nat) (s : Requests)
    : Requests * result request_error RunResponse :=
  match an_run_id a with
  | None =>
      let '(s1, r) := release_claim a q token (give_back lease s) in
      (s1, Err match r with Err e => e | Ok _ => HTTPException 503 "Backtest storage is unavailable" end)
  | Some run =>
      let s1 := commit (set_row run (rq_strategy q, "running") s) in
      match an_persist a with
      | Err e => (s1, Err e)
      | Ok _ => bind_run a q token lease run s1
      end
  end.

(** [run_backtest]. *)
Definition run_backtest (a : Answers) (q : RunRequest) (s : Requests) : Requests * result request_error RunResponse :=
  match check_request a q with
  | Err e => (s, Err e)
  | Ok _ =>
      match claim_key a q s with
      | (s1, Err e) => (s1, Err e)
      | (s1, Ok (inl response)) => (s1, Ok response)
      | (s0, Ok (inr token)) =>
          let s1 := foldl other_process s0 (an_meanwhile a) in
          let ls := backtest_admission_limiter (an_limit a) (limiters s1) in
          match try_acquire ls with
          | None =>
              let '(s2, r) := release_claim a q token (set_limiters ls s1) in
              (s2, Err match r with
                       | Err e => e
                       | Ok _ => HTTPException 429 "Backtest capacity is saturated; retry after an active run finishes"
                       end)
          | Some (ls', lease) => start_run a q token lease (set_limiters ls' s1)
          end
      end
  end.

(** What happens to the gateway: a request, a task that ends and returns its
    permit, a run whose row is deleted, another process at the table, and a
    commit or a rollback of the connection by whoever else uses it. *)
Inductive request_event :=
  | Request (a : Answers) (q : RunRequest)
  | TaskEnds (i : nat)
  | DeleteRun (run : string)
  | OtherProcess (op : table_op)
  | Commits
  | RollsBack.

Definition request_step (s : Requests) (ev : request_event) : Requests :=
  match ev with
  | Request a q => (run_backtest a q s).1
  | TaskEnds i =>
      match scheduled s !! i with
      | Some (_, lease) => give_back lease (set_scheduled (delete i (scheduled s)) s)
      | None => s
      end
  | DeleteRun run => commit (set_rows (delete run (run_rows s)) s)
  | OtherProcess op => other_process s op
  | Commits => commit s
  | RollsBack => rollback s
  end.

Definition run_requests (s : Requests) (evs : list request_event) : Requests := foldl request_step s evs.

(** What holds of the table as this process has it and as it is stored. *)
Definition both (P : IdempotencyTable -> Prop) (s : Requests) : Prop := P (idempotency s) /\ P (stored s).

Lemma both_commit (P : IdempotencyTable -> Prop) s : P (idempotency s) -> both P (commit s).
Proof. done. Qed.

Lemma both_rollback (P : IdempotencyTable -> Prop) s : P (stored s) -> both P (rollback s).
Proof. done. Qed.

(** ** The table keeps what is bound *)

Definition bound (key hash run : string) (since : Z) (t : IdempotencyTable) : Prop :=
  ∃ row, t !! (run_scope, key) = Some row /\ row_hash row = hash /\
         row_result row = Some run /\ row_updated row = since.

(** The clock an operation reads to decide what has expired. *)
Definition op_clock (op : table_op) : option Z := match op with Claim now _ _ _ => Some now | _ => None end.
Definition in_time (limit : Z) (op : table_op) : Prop :=
  forall now, op_clock op = Some now -> now <= limit.

(** A request's own clock and those of the processes beside it. *)
Definition event_in_time (limit : Z) (ev : request_event) : Prop :=
  match ev with
  | Request a _ => an_now a <= limit /\ Forall (in_time limit) (an_meanwhile a)
  | OtherProcess op => in_time limit op
  | _ => True
  end.

Section Binding.
#[local] Set Default Proof Using "Type".
Variables (key hash run : string) (since : Z).
Abbreviation limit := (since + IDEMPOTENCY_RESULT_TTL_MS).
Abbreviation kept := (bound key hash run since).

Lemma purge_lookup now t k :
  purge now t !! k = match t !! k with Some row => if expired now k row then None else Some row | None => None end.
Proof.
  unfold purge. rewrite map_lookup_filter. destruct (t !! k) as [row|]; cbn; [|done].
  destruct (expired now k row) eqn:E; case_guard; naive_solver.
Qed.

Lemma purge_keeps now t : now <= limit -> kept t -> kept (purge now t).
Proof.
  intros L (row & E & H & R & U). exists row. split; [|done].
  rewrite purge_lookup, E. unfold expired. rewrite R, U.
  case_bool_decide; cbn; [|done].
  destruct (since <? now - IDEMPOTENCY_RESULT_TTL_MS) eqn:X; [lia|done].
Qed.

Lemma kept_insert t k row : k <> (run_scope, key) -> kept t -> kept (<[k := row]> t).
Proof. intros N (r & E & H). exists r. by rewrite lookup_insert_ne. Qed.

Lemma kept_delete t k : k <> (run_scope, key) -> kept t -> kept (delete k t).
Proof. intros N (r & E & H). exists r. by rewrite lookup_delete_ne. Qed.

(** A bound row is no pending claim. *)
Lemma kept_not_claimed t h token row :
  kept t -> t !! (run_scope, key) = Some row -> claimed h token row = false.
Proof.
  intros (r & E & _ & R & _) E'. simplify_eq. unfold claimed. rewrite R.
  by rewrite (bool_decide_eq_false_2 (Some run = None)), ?andb_false_r.
Qed.

Lemma claim_keeps now token k h t :
  now <= limit -> kept t -> kept (claim_backtest_idempotency now token k h t).1.
Proof.
  intros L K%(purge_keeps now _ L). unfold claim_backtest_idempotency.
  destruct (purge now t !! (run_scope, k)) as [row|] eqn:E; [done|].
  apply kept_insert; [|done]. intros ?; simplify_eq. destruct K as (? & ? & _). congruence.
Qed.

Lemma complete_keeps now k h token r t : kept t -> kept (complete_backtest_idempotency now k h token r t).1.
Proof.
  intros K. unfold complete_backtest_idempotency.
  destruct (t !! (run_scope, k)) as [row|] eqn:E; [|done].
  destruct (claimed h token row) eqn:C; [|done].
  apply kept_insert; [|done]. intros ?; simplify_eq. by rewrite (kept_not_claimed _ _ _ _ K E) in C.
Qed.

Lemma release_keeps k h token t : kept t -> kept (release_backtest_idempotency k h token t).
Proof.
  intros K. unfold release_backtest_idempotency.
  destruct (t !! (run_scope, k)) as [row|] eqn:E; [|done].
  destruct (claimed h token row) eqn:C; [|done].
  apply kept_delete; [|done]. intros ?; simplify_eq. by rewrite (kept_not_claimed _ _ _ _ K E) in C.
Qed.

Lemma table_step_keeps op t : in_time limit op -> kept t -> kept (table_step t op).
Proof.
  destruct op; cbn; intros L K; [apply claim_keeps|apply complete_keeps|apply release_keeps]; try done.
  by apply L.
Qed.

Lemma table_steps_keep ops t : Forall (in_time limit) ops -> kept t -> kept (foldl table_step t ops).
Proof.
  intros F. revert t. induction F as [|op ops I F IH]; cbn; intros t K; [done|].
  by apply IH, table_step_keeps.
Qed.

(** No claim of the key succeeds while it is bound. *)
Lemma claim_bound now token h t :
  now <= limit -> kept t ->
  (claim_backtest_idempotency now token key h t).2 =
    if bool_decide (hash = h) then
      match opt_truthy (Some run) with
      | Some r => Ok (mkClaim (Some r) None)
      | None => Err (HTTPException 409 "The idempotent backtest request is still being scheduled")
      end
    else Err (HTTPException 409 "Idempotency-Key was already used with a different request").
Proof.
  intros L (row & E & H & R & _)%(purge_keeps now _ L). unfold claim_backtest_idempotency.
  rewrite E, H, R. by case_bool_decide.
Qed.

Lemma complete_bound now h token r t :
  kept t ->
  (complete_backtest_idempotency now key h token r t).2 =
    Err (HTTPException 409 "Idempotency claim expired or was superseded").
Proof.
  intros K. pose proof K as (row & E & _). unfold complete_backtest_idempotency. rewrite E.
  by rewrite (kept_not_claimed _ _ _ _ K E).
Qed.

Lemma purge_pending_keeps now t : kept t -> kept (purge_pending now t).
Proof.
  intros (row & E & H & R & U). exists row. split; [|done]. unfold purge_pending. apply map_lookup_filter_Some.
  split; [done|]. by rewrite R, bool_decide_eq_false_2, andb_false_r.
Qed.

(** *** through the handler *)

Lemma other_process_keeps op s : in_time limit op -> both kept s -> both kept (other_process s op).
Proof. intros L [K1 K2]. unfold other_process. case_bool_decide; [apply both_commit, table_step_keeps|]; done. Qed.

Lemma other_processes_keep ops s : Forall (in_time limit) ops -> both kept s -> both kept (foldl other_process s ops).
Proof.
  intros F. revert s. induction F as [|op ops I F IH]; cbn; intros s K; [done|].
  by apply IH, other_process_keeps.
Qed.

Lemma release_claim_keeps a q token s : both kept s -> both kept (release_claim a q token s).1.
Proof.
  intros [K1 K2]. unfold release_claim. destruct (rq_key q) as [k|], token as [tok|]; try done.
  pose proof (release_keeps k (rq_hash q) tok _ K1) as K. destruct (an_release_fails a) as [[]|]; done.
Qed.

Lemma mark_failed_keeps fails r s : both kept s -> both kept (mark_failed fails r s).
Proof. intros [K1 K2]. unfold mark_failed. destruct fails; [done|]. destruct (run_rows s !! r) as [[]|]; done. Qed.

Lemma schedule_keeps a q lease r s : both kept s -> both kept (schedule_run a q lease r s).1.
Proof. intros K. unfold schedule_run. destruct (an_schedule_fails a); [by apply mark_failed_keeps|done]. Qed.

Lemma complete_storage_keeps a k h token r s : both kept s -> both kept (complete_storage a k h token r s).1.
Proof.
  intros [K1 K2]. unfold complete_storage. pose proof (complete_keeps (an_later a) k h token r _ K1) as K.
  destruct (an_complete_fails a) as [[]|]; [done|..];
    destruct (complete_backtest_idempotency _ _ _ _ _ _) as [t [?|e]]; done.
Qed.

Lemma bind_keeps a q token lease r s : both kept s -> both kept (bind_run a q token lease r s).1.
Proof.
  intros K. unfold bind_run. pose proof (schedule_keeps a q lease r s K) as D.
  destruct (rq_key q) as [k|], token as [tok|]; try done.
  pose proof (complete_storage_keeps a k (rq_hash q) tok r s K) as K1.
  destruct (complete_storage _ _ _ _ _ _) as [s1 [?|e]]; cbn in K1; [by apply schedule_keeps|].
  by apply release_claim_keeps, mark_failed_keeps.
Qed.

Lemma start_keeps a q token lease s : both kept s -> both kept (start_run a q token lease s).1.
Proof.
  intros K. unfold start_run. destruct (an_run_id a) as [r|].
  - assert (K1 : both kept (commit (set_row r (rq_strategy q, "running") s))) by apply both_commit, K.
    destruct (an_persist a); [by apply bind_keeps|done].
  - pose proof (release_claim_keeps a q token (give_back lease s) K) as K1.
    by destruct (release_claim _ _ _ _).
Qed.

Lemma claim_storage_keeps a k h s : an_now a <= limit -> both kept s -> both kept (claim_storage a k h s).1.
Proof.
  intros L [K1 K2]. unfold claim_storage. pose proof (claim_keeps (an_now a) (an_token a) k h _ L K1) as K.
  pose proof (purge_keeps (an_now a) _ L K1). pose proof (purge_pending_keeps (an_now a) _ K1).
  destruct (claim_backtest_idempotency _ _ _ _ _) as [t c]. destruct (an_claim_fails a) as [[]|]; done.
Qed.

Lemma claim_key_keeps a q s : an_now a <= limit -> both kept s -> both kept (claim_key a q s).1.
Proof.
  intros L K. unfold claim_key. destruct (rq_key q) as [k|]; [|done].
  pose proof (claim_storage_keeps a k (rq_hash q) s L K) as K1.
  destruct (claim_storage _ _ _ _) as [s1 [[[res|] ?]|e]]; done.
Qed.

Lemma run_backtest_keeps a q s :
  event_in_time limit (Request a q) -> both kept s -> both kept (run_backtest a q s).1.
Proof.
  intros [L M] K. unfold run_backtest. destruct (check_request a q); [|done].
  pose proof (claim_key_keeps a q s L K) as K1.
  destruct (claim_key a q s) as [s1 [[resp|token]|e]]; cbn in *; [done| |done].
  apply (other_processes_keep _ _ M) in K1. set (s2 := foldl other_process s1 _) in *.
  destruct (try_acquire _) as [[ls lease]|]; [by apply start_keeps|].
  pose proof (release_claim_keeps a q token (set_limiters (backtest_admission_limiter (an_limit a) (limiters s2)) s2) K1) as K2.
  by destruct (release_claim _ _ _ _).
Qed.

Lemma request_step_keeps ev s : event_in_time limit ev -> both kept s -> both kept (request_step s ev).
Proof.
  destruct ev as [a q|i|r|op| |]; cbn; intros L K.
  - by apply run_backtest_keeps.
  - by destruct (scheduled s !! i) as [[]|].
  - apply both_commit, K.
  - by apply other_process_keeps.
  - apply both_commit, K.
  - apply both_rollback, K.
Qed.

Lemma requests_keep evs s : Forall (event_in_time limit) evs -> both kept s -> both kept (run_requests s evs).
Proof.
  intros F. revert s. induction F as [|ev evs I F IH]; cbn; intros s K; [done|].
  by apply IH, request_step_keeps.
Qed.
End Binding.

(** A response to a request with a key comes with the binding. *)
Lemma schedule_ok a q lease run s s1 resp :
  schedule_run a q lease run s = (s1, Ok resp) -> rp_run resp = run /\ idempotency s1 = idempotency s /\ stored s1 = stored s.
Proof. unfold schedule_run. case_match; intros; by simplify_eq/=. Qed.

Lemma bind_ok a q key token lease run s s1 resp :
  rq_key q = Some key -> bind_run a q (Some token) lease run s = (s1, Ok resp) ->
  both (bound key (rq_hash q) (rp_run resp) (an_later a)) s1.
Proof.
  unfold bind_run, complete_storage. intros ->. destruct (an_complete_fails a) as [[]|]; [done|..];
    unfold complete_backtest_idempotency, claimed;
    (destruct (idempotency s !! (run_scope, key)) as [row|] eqn:E; [|done]); repeat case_bool_decide; try done.
  cbn. intros (-> & I & D)%schedule_ok. unfold both. rewrite I, D. cbn.
  split; eexists; by rewrite lookup_insert_eq.
Qed.

Lemma start_ok a q key token lease s s1 resp :
  rq_key q = Some key -> start_run a q (Some token) lease s = (s1, Ok resp) ->
  both (bound key (rq_hash q) (rp_run resp) (an_later a)) s1.
Proof.
  unfold start_run. intros K. destruct (an_run_id a); [|by destruct (release_claim _ _ _ _)].
  destruct (an_persist a); [by apply bind_ok|done].
Qed.

(** What a claim of a key that succeeds tells. *)
Lemma claim_storage_ok a key hash s s1 c :
  claim_storage a key hash s = (s1, Ok c) ->
  exists t, claim_backtest_idempotency (an_now a) (an_token a) key hash (idempotency s) = (t, Ok c) /\
            s1 = commit (set_idempotency t s).
Proof.
  unfold claim_storage. destruct (claim_backtest_idempotency _ _ _ _ _) as [t r].
  destruct (an_claim_fails a) as [[]|]; try done; [|intros [= <- ->]; eauto].
  destruct r as [[[run|] [tok|]]|e]; try done. intros [= <- <-]. eauto.
Qed.

Lemma claim_key_ok a q key s s1 r :
  rq_key q = Some key -> claim_key a q s = (s1, Ok r) ->
  match r with
  | inl resp => scheduled s1 = scheduled s /\
      exists since, both (bound key (rq_hash q) (rp_run resp) since) s1 /\
                    an_now a - IDEMPOTENCY_RESULT_TTL_MS <= since
  | inr token => token = Some (an_token a)
  end.
Proof.
  unfold claim_key. intros ->. destruct (claim_storage _ _ _ _) as [s0 [c|e]] eqn:C; [|done].
  apply claim_storage_ok in C as (t & C & ->). revert C.
  unfold claim_backtest_idempotency.
  destruct (purge _ _ !! (run_scope, key)) as [row|] eqn:E; [|intros; by simplify_eq/=].
  case_bool_decide; cbn; [|done].
  destruct (opt_truthy (row_result row)) as [run|] eqn:R; cbn; [|done].
  apply opt_truthy_Some in R as [R _]. intros [= <- <-]. cbn.
  destruct (run_rows s !! run) as [[strategy status]|]; [|done]. intros; simplify_eq/=.
  split; [done|]. exists (row_updated row). split; [split; by exists row|].
  rewrite purge_lookup in E. repeat case_match; simplify_eq. unfold expired in *.
  rewrite R in *. rewrite bool_decide_eq_true_2 in * by done. cbn in *. lia.
Qed.

Lemma answered_bound a q key s s1 resp :
  rq_key q = Some key -> run_backtest a q s = (s1, Ok resp) ->
  exists since, both (bound key (rq_hash q) (rp_run resp) since) s1 /\
    (since = an_later a \/ scheduled s1 = scheduled s /\ an_now a - IDEMPOTENCY_RESULT_TTL_MS <= since).
Proof.
  intros K. unfold run_backtest. destruct (check_request a q); [|done].
  destruct (claim_key a q s) as [s0 [r|e]] eqn:C; [|done].
  pose proof (claim_key_ok _ _ _ _ _ _ K C) as O. destruct r as [resp'|token].
  - destruct O as [S (since & B & L)]. intros; simplify_eq. exists since. auto.
  - cbn in O. subst token. destruct (try_acquire _) as [[ls lease]|]; [|by destruct (release_claim _ _ _ _)].
    intros S%(start_ok _ _ _ _ _ _ _ _ K). eauto.
Qed.

(** A request whose key is bound starts nothing. *)
Lemma claim_storage_same a key hash s :
  scheduled (claim_storage a key hash s).1 = scheduled s /\ run_rows (claim_storage a key hash s).1 = run_rows s /\
  limiters (claim_storage a key hash s).1 = limiters s.
Proof.
  unfold claim_storage. destruct (claim_backtest_idempotency _ _ _ _ _). by destruct (an_claim_fails a) as [[]|].
Qed.

Lemma bound_request a q key hash run since s :
  rq_key q = Some key -> bound key hash run since (idempotency s) ->
  an_now a <= since + IDEMPOTENCY_RESULT_TTL_MS ->
  let '(s1, r) := run_backtest a q s in
  scheduled s1 = scheduled s /\ run_rows s1 = run_rows s /\ limiters s1 = limiters s /\
  (forall resp, r = Ok resp -> rp_run resp = run /\ rq_hash q = hash).
Proof.
  intros K B L. unfold run_backtest. destruct (check_request a q); [|by repeat split].
  unfold claim_key. rewrite K. pose proof (claim_storage_same a key (rq_hash q) s) as (S1 & S2 & S3).
  destruct (claim_storage _ _ _ _) as [s1 [c|e]] eqn:C; cbn in S1, S2, S3; [|by repeat split].
  apply claim_storage_ok in C as (t & C & _).
  pose proof (claim_bound _ _ _ _ (an_now a) (an_token a) (rq_hash q) _ L B) as O. rewrite C in O. cbn in O.
  case_bool_decide; [|done]. destruct (str_truthy run); [|done]. injection O as ->. cbn.
  destruct (run_rows s !! run) as [[strategy status]|]; repeat split; try done; naive_solver.
Qed.

(** C35: once a request with an idempotency key has been answered with a run,
    then until the result has been kept for its seven days, whatever other
    requests, task ends, deletions, operations of other processes, commits and
    rollbacks come in between: a later request with that key is answered with
    that run or with an error, only when its body hashes alike, and starts
    nothing; and no other claim of the key can be completed, not in this
    process nor, on the stored table, in another. *)
Theorem one_run_per_key a q key s s1 resp
    (K : rq_key q = Some key) (A : run_backtest a q s = (s1, Ok resp)) :
  exists since,
    (since = an_later a \/ scheduled s1 = scheduled s /\ an_now a - IDEMPOTENCY_RESULT_TTL_MS <= since) /\
    forall evs, Forall (event_in_time (since + IDEMPOTENCY_RESULT_TTL_MS)) evs ->
      let later := run_requests s1 evs in
      (forall a' q', rq_key q' = Some key -> an_now a' <= since + IDEMPOTENCY_RESULT_TTL_MS ->
         let '(s', r) := run_backtest a' q' later in
         scheduled s' = scheduled later /\ run_rows s' = run_rows later /\ limiters s' = limiters later /\
         (forall resp', r = Ok resp' -> rp_run resp' = rp_run resp /\ rq_hash q' = rq_hash q)) /\
      (forall now hash token run,
         (complete_backtest_idempotency now key hash token run (idempotency later)).2 =
           Err (HTTPException 409 "Idempotency claim expired or was superseded") /\
         (complete_backtest_idempotency now key hash token run (stored later)).2 =
           Err (HTTPException 409 "Idempotency claim expired or was superseded")).
Proof.
  destruct (answered_bound _ _ _ _ _ _ K A) as (since & B & S). exists since. split; [done|].
  intros evs F. destruct (requests_keep _ _ _ _ evs s1 F B) as [B1 B2]. split.
  - intros a' q' K' L. by apply (bound_request a' q' key _ _ since).
  - intros. split; by apply (complete_bound key (rq_hash q) (rp_run resp) since).
Qed.

(** ** The permits *)

Definition held (i : nat) (leases : list nat) : Z := Z.of_nat (length (filter (eq i) leases)).

(** Every limiter's permits are free or on lease, none twice; when leases may
    have been lost ([leaky]), some may be missing. *)
Definition fair (leaky : bool) (ls : list Limiter) (leases : list nat) : Prop :=
  Forall (fun i => (i < length ls)%nat) leases /\
  forall i l, ls !! i = Some l ->
    0 <= free l /\ if leaky then free l + held i leases <= capacity l else free l + held i leases = capacity l.

Section Permits.
#[local] Set Default Proof Using "Type".
Variable leaky : bool.

#[global] Instance fair_perm ls : Proper (Permutation ==> iff) (fair leaky ls).
Proof.
  intros l1 l2 P. unfold fair. rewrite P.
  assert (Q : forall i, held i l1 = held i l2) by (intros i; unfold held; by rewrite P).
  split; intros [H H1]; (split; [done|]); intros i l E; specialize (H1 i l E); specialize (Q i); destruct leaky; lia.
Qed.

Lemma held_cons i j leases : held i (j :: leases) = held i leases + if decide (i = j) then 1 else 0.
Proof. unfold held. rewrite filter_cons. case_decide; cbn; lia. Qed.

Lemma held_out n leases : Forall (fun i => (i < n)%nat) leases -> held n leases = 0.
Proof. induction 1; [done|]. rewrite held_cons. case_decide; lia. Qed.

Lemma fair_refresh raw ls leases :
  fair leaky ls leases -> fair leaky (backtest_admission_limiter raw ls) leases.
Proof.
  intros [B H]. unfold backtest_admission_limiter.
  assert (N : fair leaky (ls ++ [mkLimiter (backtest_limit raw) (backtest_limit raw)]) leases).
  { split.
    - eapply Forall_impl; [done|]. cbn. intros. rewrite length_app. lia.
    - intros i l [E|[L E]]%lookup_app_Some; [by apply H|].
      apply list_lookup_singleton_Some in E as [E <-]. assert (i = length ls) by lia. subst i.
      rewrite held_out by done. cbn. unfold backtest_limit. repeat case_match; lia. }
  destruct (last ls) as [l|]; [destruct (negb _)|]; done.
Qed.

Lemma fair_acquire ls ls' i leases :
  try_acquire ls = Some (ls', i) -> fair leaky ls leases -> fair leaky ls' (i :: leases).
Proof.
  unfold try_acquire. intros T [B H].
  destruct (ls !! _) as [l|] eqn:E; [|done]. destruct (free l <=? 0) eqn:F; [done|]. simplify_eq.
  pose proof (lookup_lt_Some _ _ _ E). split.
  - constructor; [by rewrite length_insert|]. eapply Forall_impl; [done|]. cbn. intros. by rewrite length_insert.
  - intros j m. rewrite list_lookup_insert_Some, held_cons. intros [(<- & <- & _)|[N Ej]]; cbn.
    + specialize (H _ _ E). rewrite decide_True by done. destruct leaky; lia.
    + specialize (H _ _ Ej). rewrite decide_False by done. destruct leaky; lia.
Qed.

Lemma fair_release ls i leases : fair leaky ls (i :: leases) -> fair leaky (release_permit i ls) leases.
Proof.
  intros [B H]. apply Forall_cons in B as [_ B]. unfold release_permit. split.
  - eapply Forall_impl; [done|]. cbn. intros. by rewrite length_alter.
  - intros j m. destruct (decide (j = i)) as [->|N].
    + rewrite list_lookup_alter_eq. intros (l & E & ->)%fmap_Some. specialize (H _ _ E).
      rewrite held_cons, decide_True in H by done. cbn. destruct leaky; lia.
    + rewrite list_lookup_alter_ne by done. intros E. specialize (H _ _ E).
      rewrite held_cons, decide_False in H by done. destruct leaky; lia.
Qed.

Lemma fair_lose ls i leases : leaky = true -> fair leaky ls (i :: leases) -> fair leaky ls leases.
Proof.
  intros ->. intros [B H]. apply Forall_cons in B as [_ B]. split; [done|].
  intros j m E. specialize (H _ _ E). rewrite held_cons in H. case_decide; lia.
Qed.
End Permits.

(** The leases of the scheduled tasks, after those a request has in hand. *)
Definition accounted (leaky : bool) (hand : list nat) (s : Requests) : Prop :=
  fair leaky (limiters s) (hand ++ (scheduled s).*2).

(** A request that loses no lease: its job is persisted. *)
Definition persisted (ev : request_event) : Prop := match ev with Request a _ => an_persist a = Ok tt | _ => True end.

Section Accounting.
#[local] Set Default Proof Using "Type".
Variable leaky : bool.
Abbreviation good := (accounted leaky).

Lemma good_row hand run row s : good hand (set_row run row s) <-> good hand s.
Proof. done. Qed.

Lemma good_commit hand s : good hand (commit s) <-> good hand s.
Proof. done. Qed.

Lemma good_mark_failed hand fails run s : good hand (mark_failed fails run s) <-> good hand s.
Proof. unfold mark_failed. destruct fails; [done|]. by destruct (run_rows s !! run) as [[]|]. Qed.

Lemma good_release_claim hand a q token s : good hand (release_claim a q token s).1 <-> good hand s.
Proof. unfold release_claim. destruct (rq_key q), token; try done. by destruct (an_release_fails a) as [[]|]. Qed.

Lemma good_complete hand a key h tok run s : good hand (complete_storage a key h tok run s).1 <-> good hand s.
Proof.
  unfold complete_storage. destruct (an_complete_fails a) as [[]|]; [done|..];
    by destruct (complete_backtest_idempotency _ _ _ _ _ _) as [t [?|?]].
Qed.

Lemma good_other hand op s : good hand (other_process s op) <-> good hand s.
Proof. unfold other_process. by case_bool_decide. Qed.

Lemma good_others hand ops s : good hand (foldl other_process s ops) <-> good hand s.
Proof. revert s. induction ops as [|op ops IH]; cbn; intros s; [done|]. by rewrite IH, good_other. Qed.

Lemma good_give_back lease hand s : good (lease :: hand) s -> good hand (give_back lease s).
Proof. apply fair_release. Qed.

Lemma good_schedule a q lease run s : good [lease] s -> good [] (schedule_run a q lease run s).1.
Proof.
  intros G. unfold schedule_run. case_match; cbn; [by apply good_mark_failed, good_give_back|done].
Qed.

Lemma good_bind a q token lease run s : good [lease] s -> good [] (bind_run a q token lease run s).1.
Proof.
  intros G. unfold bind_run. pose proof (good_schedule a q lease run s G) as D.
  destruct (rq_key q) as [key|], token as [tok|]; try done.
  apply (good_complete _ a key (rq_hash q) tok run) in G.
  destruct (complete_storage _ _ _ _ _ _) as [s1 [?|e]]; cbn in *; [by apply good_schedule|].
  by apply good_release_claim, good_mark_failed, good_give_back.
Qed.

Lemma good_start a q token lease s :
  leaky = true \/ an_persist a = Ok tt -> good [lease] s -> good [] (start_run a q token lease s).1.
Proof.
  intros P G. unfold start_run. destruct (an_run_id a) as [run|].
  - destruct (an_persist a) eqn:E; cbn; [by apply good_bind|].
    destruct P as [P|P]; [|done]. by apply (fair_lose _ _ lease).
  - apply good_give_back in G. apply (good_release_claim _ a q token) in G. by destruct (release_claim _ _ _ _).
Qed.

Lemma claim_key_same a q s :
  limiters (claim_key a q s).1 = limiters s /\ scheduled (claim_key a q s).1 = scheduled s.
Proof.
  unfold claim_key. destruct (rq_key q) as [key|]; [|done].
  destruct (claim_storage_same a key (rq_hash q) s) as (S & _ & L).
  by destruct (claim_storage _ _ _ _) as [s1 [[[run|] ?]|e]].
Qed.

Lemma good_run_backtest a q s :
  leaky = true \/ an_persist a = Ok tt -> good [] s -> good [] (run_backtest a q s).1.
Proof.
  intros P G. unfold run_backtest. destruct (check_request a q); [|done].
  assert (G1 : good [] (claim_key a q s).1)
    by (unfold accounted; by destruct (claim_key_same a q s) as [-> ->]).
  destruct (claim_key a q s) as [s0 [[resp|token]|e]]; cbn in *; [done| |done].
  apply (good_others [] (an_meanwhile a)) in G1. set (s1 := foldl other_process s0 _) in *.
  destruct (try_acquire _) as [[ls lease]|] eqn:T.
  - apply good_start; [done|]. apply (fair_acquire _ _ _ _ _ T), fair_refresh, G1.
  - destruct (release_claim _ _ _ _) as [s2 r] eqn:R. cbn. apply (f_equal fst) in R. cbn in R. subst s2.
    apply good_release_claim. by apply (fair_refresh _ (an_limit a)) in G1.
Qed.

Lemma good_step ev s : leaky = true \/ persisted ev -> good [] s -> good [] (request_step s ev).
Proof.
  destruct ev as [a q|i|run|op| |]; cbn; intros P G; try done; [by apply good_run_backtest| |by apply good_other].
  destruct (scheduled s !! i) as [[run lease]|] eqn:E; [|done].
  apply good_give_back. revert G. unfold accounted. cbn.
  intros G. eapply fair_perm; [|exact G].
  apply delete_Permutation, (fmap_Permutation snd) in E. by rewrite E.
Qed.

Lemma good_run evs s :
  leaky = true \/ Forall persisted evs -> good [] s -> good [] (run_requests s evs).
Proof.
  revert s. induction evs as [|ev evs IH]; cbn; intros s P G; [done|].
  apply IH; [|apply good_step; [|done]].
  - destruct P as [P|P%Forall_cons]; [by left|right; tauto].
  - destruct P as [P|P%Forall_cons]; [by left|right; tauto].
Qed.
End Accounting.

(** C36: in every history, from an idle gateway, no limiter ever has more scheduled
    tasks than its capacity, and none of its permits is free while it is on
    lease; and when every job was persisted, every permit is accounted for: it
    is free or a scheduled task holds it, so that all are free again when all
    tasks have ended. *)
Theorem permits_accounted evs i l (E : limiters (run_requests requests_init evs) !! i = Some l) :
  let leased := held i (scheduled (run_requests requests_init evs)).*2 in
  0 <= free l /\ free l + leased <= capacity l /\
  (Forall persisted evs -> free l + leased = capacity l).
Proof.
  assert (I : forall leaky, accounted leaky [] requests_init)
    by (intros leaky; split; [by apply Forall_nil|done]).
  destruct (good_run true evs _ (or_introl eq_refl) (I true)) as [_ G]. specialize (G i l E) as [F L].
  repeat split; [done|done|]. intros P.
  by apply (good_run false evs _ (or_intror P) (I false)).
Qed.

(** ** What a refused request leaves *)

Lemma purge_Forall (P : string * string -> IdempotencyRow -> Prop) now t :
  map_Forall P t -> map_Forall P (purge now t).
Proof.
  intros M k row. rewrite purge_lookup. destruct (t !! k) as [r|] eqn:E; [|done].
  destruct (expired now k r); [done|]. intros; simplify_eq. by apply M.
Qed.

Section Refused.
#[local] Set Default Proof Using "Type".
Variables (key hash token : string).

(** The token is on no pending row but that of this request's claim. *)
Definition mine (t : IdempotencyTable) : Prop :=
  map_Forall (fun k row => row_result row = None -> row_token row = token ->
                           k = (run_scope, key) /\ row_hash row = hash) t.

Definition unclaimed (t : IdempotencyTable) : Prop :=
  map_Forall (fun _ row => row_result row = None -> row_token row <> token) t.

Definition foreign (op : table_op) : Prop := match op with Claim _ tok _ _ => tok <> token | _ => True end.

Lemma unclaimed_mine t : unclaimed t -> mine t.
Proof. intros N k row E R T. by destruct (N k row E R). Qed.

Lemma mine_purge now t : mine t -> mine (purge now t).
Proof. apply purge_Forall. Qed.

Lemma unclaimed_purge now t : unclaimed t -> unclaimed (purge now t).
Proof. apply purge_Forall. Qed.

Lemma unclaimed_purge_pending now t : unclaimed t -> unclaimed (purge_pending now t).
Proof.
  intros M k row H. unfold purge_pending in H. rewrite map_lookup_filter_Some in H. destruct H as [H _]. exact (M k row H).
Qed.

Lemma mine_step op t : foreign op -> mine t -> mine (table_step t op).
Proof.
  destruct op as [now tok k h|now k h tok r|k h tok]; cbn; intros F M.
  - unfold claim_backtest_idempotency. apply (mine_purge now) in M.
    destruct (purge now t !! _); [done|]. by apply map_Forall_insert_2.
  - unfold complete_backtest_idempotency. repeat case_match; try done. by apply map_Forall_insert_2.
  - unfold release_backtest_idempotency. repeat case_match; try done. by apply map_Forall_delete.
Qed.

Lemma mine_others ops s : Forall foreign ops -> both mine s -> both mine (foldl other_process s ops).
Proof.
  intros F. revert s. induction F as [|op ops Fo F IH]; cbn; intros s M; [done|]. apply IH. unfold other_process.
  case_bool_decide; [|done]. apply both_commit, mine_step, M. done.
Qed.

Lemma mine_claim now t : unclaimed t -> mine (claim_backtest_idempotency now token key hash t).1.
Proof.
  intros N%(unclaimed_purge now). unfold claim_backtest_idempotency.
  destruct (purge now t !! _) as [row|]; [by apply unclaimed_mine|].
  apply map_Forall_insert_2; [done|by apply unclaimed_mine].
Qed.

Lemma refused_claim now t e :
  unclaimed t -> (claim_backtest_idempotency now token key hash t).2 = Err e ->
  unclaimed (claim_backtest_idempotency now token key hash t).1.
Proof.
  intros N%(unclaimed_purge now). unfold claim_backtest_idempotency.
  by destruct (purge now t !! _) as [row|].
Qed.

Lemma mine_release t : mine t -> unclaimed (release_backtest_idempotency key hash token t).
Proof.
  intros M k row. unfold release_backtest_idempotency.
  destruct (t !! (run_scope, key)) as [mrow|] eqn:E; [destruct (claimed hash token mrow) eqn:C|].
  - intros [N E']%lookup_delete_Some R T. by destruct (M k row E' R T).
  - intros E' R T. destruct (M k row E' R T) as [-> H]. simplify_eq.
    unfold claimed in C. by rewrite R, !bool_decide_eq_true_2 in C.
  - intros E' R T. destruct (M k row E' R T) as [-> H]. congruence.
Qed.

Lemma mine_complete now run t :
  mine t -> mine (complete_backtest_idempotency now key hash token run t).1.
Proof. intros M. by apply (mine_step (Complete now key hash token run)). Qed.

Lemma completed_claim now run t u :
  mine t -> (complete_backtest_idempotency now key hash token run t).2 = Ok u ->
  unclaimed (complete_backtest_idempotency now key hash token run t).1.
Proof.
  intros M. unfold complete_backtest_idempotency. repeat case_match; try done. intros _ k row.
  cbn. rewrite lookup_insert_Some. intros [[<- <-]|[N E']] R T; [done|]. by destruct (M k row E' R T).
Qed.
End Refused.

Definition undone (lease : nat) (s s1 : Requests) : Prop :=
  scheduled s1 = scheduled s /\ limiters s1 = release_permit lease (limiters s).

Lemma release_claim_same a q token s :
  scheduled (release_claim a q token s).1 = scheduled s /\ limiters (release_claim a q token s).1 = limiters s.
Proof. unfold release_claim. destruct (rq_key q), token; try done. by destruct (an_release_fails a) as [[]|]. Qed.

Lemma undone_release_claim lease a q token s s1 : undone lease s s1 -> undone lease s (release_claim a q token s1).1.
Proof. unfold undone. by destruct (release_claim_same a q token s1) as [-> ->]. Qed.

Lemma undone_mark_failed lease fails run s s1 : undone lease s s1 -> undone lease s (mark_failed fails run s1).
Proof. unfold mark_failed. destruct fails; [done|]. by destruct (run_rows s1 !! run) as [[]|]. Qed.

Lemma both_mark_failed P fails run s : both P s -> both P (mark_failed fails run s).
Proof. intros [H1 H2]. unfold mark_failed. destruct fails; [done|]. by destruct (run_rows s !! run) as [[]|]. Qed.

Lemma release_claim_nobody a q key s :
  rq_key q = Some key -> an_release_fails a = None -> mine key (rq_hash q) (an_token a) (idempotency s) ->
  both (unclaimed (an_token a)) (release_claim a q (Some (an_token a)) s).1.
Proof. unfold release_claim. intros -> -> M. by apply both_commit, mine_release. Qed.

Lemma schedule_refused a q lease run s s1 e :
  schedule_run a q lease run s = (s1, Err e) -> undone lease s s1 /\ forall P, both P s -> both P s1.
Proof.
  unfold schedule_run. destruct (an_schedule_fails a); intros; simplify_eq.
  split; [by apply undone_mark_failed|]. intros P B. by apply both_mark_failed.
Qed.

(** Completing the claim leaves no pending row of it when it succeeds, and
    otherwise none but its own. *)
Lemma complete_storage_left a key hash run s :
  both (mine key hash (an_token a)) s ->
  let '(s1, r) := complete_storage a key hash (an_token a) run s in
  scheduled s1 = scheduled s /\ limiters s1 = limiters s /\
  match r with Ok _ => both (unclaimed (an_token a)) s1 | Err _ => both (mine key hash (an_token a)) s1 end.
Proof.
  intros [M1 M2]. unfold complete_storage. pose proof (mine_complete _ _ _ (an_later a) run _ M1) as M.
  pose proof (completed_claim key hash (an_token a) (an_later a) run (idempotency s)) as C.
  destruct (an_complete_fails a) as [[]|]; [done|..];
    (destruct (complete_backtest_idempotency _ _ _ _ _ _) as [t [u|e]]; [|done]).
  - done.
  - split_and!; [done..|]. apply both_commit. by apply (C u).
Qed.

Lemma complete_storage_same a key hash token run s :
  scheduled (complete_storage a key hash token run s).1 = scheduled s /\ limiters (complete_storage a key hash token run s).1 = limiters s.
Proof.
  unfold complete_storage. destruct (an_complete_fails a) as [[]|]; [done|..];
    by destruct (complete_backtest_idempotency _ _ _ _ _ _) as [t [u|e]].
Qed.

Lemma bind_refused a q token lease run s s1 e :
  bind_run a q token lease run s = (s1, Err e) ->
  undone lease s s1 /\
  (forall key, rq_key q = Some key -> token = Some (an_token a) -> an_release_fails a = None ->
     both (mine key (rq_hash q) (an_token a)) s -> both (unclaimed (an_token a)) s1).
Proof.
  unfold bind_run. destruct (rq_key q) as [key|] eqn:K, token as [tok|]; try by intros [? ?]%schedule_refused.
  pose proof (complete_storage_same a key (rq_hash q) tok run s) as [S L].
  pose proof (complete_storage_left a key (rq_hash q) run s) as C.
  destruct (complete_storage a key (rq_hash q) tok run s) as [s2 [u|e']] eqn:E; cbn in S, L.
  - intros [[S1 L1] B]%schedule_refused. split; [unfold undone; by rewrite S1, L1, S, L|].
    intros key' [= <-] [= ->] R M. rewrite E in C. by apply B, C.
  - intros [= <- <-]. split; [apply undone_release_claim, undone_mark_failed; split; [done|]; cbn; by rewrite L|].
    intros key' [= <-] [= ->] R M. rewrite E in C. apply (release_claim_nobody _ _ _ _ K R).
    apply (both_mark_failed (mine key (rq_hash q) (an_token a))). by apply C.
Qed.

Lemma start_refused a q token lease s s1 e :
  an_persist a = Ok tt -> start_run a q token lease s = (s1, Err e) ->
  undone lease s s1 /\
  (forall key, rq_key q = Some key -> token = Some (an_token a) -> an_release_fails a = None ->
     both (mine key (rq_hash q) (an_token a)) s -> both (unclaimed (an_token a)) s1).
Proof.
  unfold start_run. intros P. rewrite P. destruct (an_run_id a) as [run|].
  - intros [U B]%bind_refused. split; [exact U|]. intros key K T R M. apply (B key K T R), both_commit, M.
  - destruct (release_claim _ _ _ _) as [s2 r] eqn:E. apply (f_equal fst) in E. cbn in E. subst s2.
    intros; simplify_eq. split; [by apply undone_release_claim|].
    intros key K -> R M. by apply (release_claim_nobody _ _ key _ K R), M.
Qed.

Lemma others_same ops s :
  scheduled (foldl other_process s ops) = scheduled s /\ limiters (foldl other_process s ops) = limiters s.
Proof.
  revert s. induction ops as [|op ops IH]; cbn; intros s; [done|]. destruct (IH (other_process s op)) as [-> ->].
  unfold other_process. by case_bool_decide.
Qed.

Lemma release_acquired ls ls' i : try_acquire ls = Some (ls', i) -> release_permit i ls' = ls.
Proof.
  unfold try_acquire. destruct (ls !! _) as [l|] eqn:E; [|done]. destruct (free l <=? 0); [done|].
  intros; simplify_eq. unfold release_permit. apply list_eq. intros j.
  destruct (decide (j = pred (length ls))) as [->|N].
  - rewrite list_lookup_alter_eq, list_lookup_insert_eq by by eapply lookup_lt_Some.
    rewrite E. cbn. destruct l; do 2 f_equal; cbn; lia.
  - by rewrite list_lookup_alter_ne, list_lookup_insert_ne by done.
Qed.

(** A claim that is refused, and one that is granted.  Only a claim that fails
    at its commit leaves a row and no claim. *)
Lemma claim_key_left a q key s s0 r :
  rq_key q = Some key -> an_claim_fails a <> Some AtCommit ->
  claim_key a q s = (s0, r) -> both (unclaimed (an_token a)) s ->
  match r with
  | Err _ => both (unclaimed (an_token a)) s0
  | Ok (inr token) => token = Some (an_token a) /\ both (mine key (rq_hash q) (an_token a)) s0
  | Ok (inl _) => True
  end.
Proof.
  unfold claim_key. intros -> NC C [N N2].
  pose proof (mine_claim key (rq_hash q) (an_token a) (an_now a) _ N) as M.
  pose proof (refused_claim key (rq_hash q) (an_token a) (an_now a) (idempotency s)) as F.
  pose proof (unclaimed_purge (an_token a) (an_now a) _ N) as N'.
  pose proof (unclaimed_purge_pending (an_token a) (an_now a) _ N) as N''.
  destruct (claim_storage _ _ _ _) as [s1 [c|e]] eqn:E.
  - apply claim_storage_ok in E as (t & E & ->). rewrite E in M, F. cbn in M. unfold claim_backtest_idempotency in E. destruct (purge _ _ !! (run_scope, key)) as [row|]; [|by simplify_eq/=].
    destruct (negb _); [done|]. destruct (opt_truthy _) as [run|]; [|done]. simplify_eq/=.
    by destruct (run_rows s !! run) as [[strategy status]|]; simplify_eq.
  - simplify_eq. unfold claim_storage in E.
    destruct (claim_backtest_idempotency _ _ _ _ _) as [t c] eqn:B. cbn in M, F.
    destruct (an_claim_fails a) as [[]|]; simplify_eq; try done; [|by apply both_commit, (F e)].
    apply both_commit. cbn. unfold claim_backtest_idempotency in B.
    destruct (purge _ _ !! (run_scope, key)) as [row|]; by simplify_eq/=.
Qed.

(** C37: A request that is answered with an error, whatever the error, schedules
    nothing and gives its permit back, provided its job could be persisted (see
    [leaked_permit]).  And when it had claimed a key, with a token that no
    other claim has, no pending claim with that token is left, in this process
    or stored, provided that neither the commit of the claim nor the release
    of it raises (see [commit_leaves_claim] and [release_leaves_claim]). *)
Theorem refused_request_undone a q s s1 e
    (A : run_backtest a q s = (s1, Err e)) (P : an_persist a = Ok tt) :
  scheduled s1 = scheduled s /\
  (limiters s1 = limiters s \/ limiters s1 = backtest_admission_limiter (an_limit a) (limiters s)) /\
  (forall key, rq_key q = Some key -> an_claim_fails a <> Some AtCommit -> an_release_fails a = None ->
     both (unclaimed (an_token a)) s -> Forall (foreign (an_token a)) (an_meanwhile a) ->
     both (unclaimed (an_token a)) s1).
Proof.
  unfold run_backtest in A. destruct (check_request a q); [|simplify_eq; auto].
  pose proof (claim_key_same a q s) as [L S].
  destruct (claim_key a q s) as [s0 r] eqn:C; cbn in L, S.
  assert (G : forall key, rq_key q = Some key -> an_claim_fails a <> Some AtCommit -> both (unclaimed (an_token a)) s -> _)
    by exact (fun key K NC => claim_key_left a q key s s0 r K NC C).
  destruct r as [[resp|token]|e']; [done| |cbn in G; simplify_eq; rewrite L, S; split; [done|split; [by left|eauto]]].
  pose proof (others_same (an_meanwhile a) s0) as [S0 L0].
  destruct (try_acquire _) as [[ls lease]|] eqn:T; cbn in T.
  - apply start_refused in A as [[S1 L1] B]; [|done]. cbn in S1, L1.
    rewrite S1, L1, (release_acquired _ _ _ T), S0, L0, L, S. split; [done|]. split; [by right|].
    intros key K NC R N F. destruct (G key K NC N) as [-> M]. apply (B key K eq_refl R). by apply mine_others.
  - destruct (release_claim _ _ _ _) as [s2 r] eqn:E. simplify_eq. apply (f_equal fst) in E. cbn in E. subst s1.
    set (s1 := foldl other_process s0 (an_meanwhile a)) in *.
    destruct (release_claim_same a q token (set_limiters (backtest_admission_limiter (an_limit a) (limiters s1)) s1)) as [-> ->].
    cbn. rewrite S0, L0, L, S. split; [done|]. split; [by right|].
    intros key K NC R N F. destruct (G key K NC N) as [-> M]. apply (release_claim_nobody _ _ _ _ K R). cbn. by apply mine_others.
Qed.

Module RequestDemo.

Definition answers (now : Z) (token run : string) : Answers :=
  mkAnswers (Ok tt) (Some (mkStrategyView false (Some "p1") (Some "a1"))) (Ok tt) (0, 10) (Some 2) now (now + 5) token
    None [] (Some run) (Ok tt) None false None false.

Definition unpersisted (a : Answers) : Answers :=
  mkAnswers (an_admitted a) (an_strategy a) (an_profile a) (an_estimate a) (an_limit a) (an_now a) (an_later a)
    (an_token a) (an_claim_fails a) (an_meanwhile a) (an_run_id a) (Err StorageError) (an_complete_fails a)
    (an_mark_fails a) (an_release_fails a) (an_schedule_fails a).

(** Another process claims the same key once this request's claim has been
    purged as stale. *)
Definition overtaken (a : Answers) (key hash : string) : Answers :=
  mkAnswers (an_admitted a) (an_strategy a) (an_profile a) (an_estimate a) (an_limit a) (an_now a) (an_later a)
    (an_token a) (an_claim_fails a)
    [Claim (an_now a + IDEMPOTENCY_PENDING_TTL_MS + 1) "other" key hash] (an_run_id a) (Ok tt) (an_complete_fails a)
    (an_mark_fails a) (an_release_fails a) (an_schedule_fails a).

(** Storage that raises at one point of the claim, the completion or the release. *)
Definition with_faults (c : option claim_fault) (f r : option statement_fault) (a : Answers) : Answers :=
  mkAnswers (an_admitted a) (an_strategy a) (an_profile a) (an_estimate a) (an_limit a) (an_now a) (an_later a)
    (an_token a) c (an_meanwhile a) (an_run_id a) (an_persist a) f (an_mark_fails a) r (an_schedule_fails a).

Definition request (key : option string) (hash : string) : RunRequest := mkRunRequest "s1" 0 10 key hash.

Definition first : Requests * result request_error RunResponse :=
  run_backtest (answers 1000 "t1" "run1") (request (Some "key-0001") "h1") requests_init.

(** The response says "queued" while the row says "running". *)
Example queued_is_running :
  first.2 = Ok (mkResponse "run1" "s1" "queued") /\ run_rows first.1 !! "run1" = Some ("s1", "running").
Proof. vm_compute. done. Qed.

Example repeated_request :
  (run_backtest (answers 2000 "t2" "run2") (request (Some "key-0001") "h1") first.1).2 =
    Ok (mkResponse "run1" "s1" "running") /\
  (run_backtest (answers 2000 "t2" "run2") (request (Some "key-0001") "h2") first.1).2 =
    Err (HTTPException 409 "Idempotency-Key was already used with a different request").
Proof. vm_compute. done. Qed.

(** A claim that grew stale while its request ran loses to the other process's. *)
Example overtaken_request :
  let a := overtaken (answers 1000 "t1" "run1") "key-0001" "h1" in
  let '(s, r) := run_backtest a (request (Some "key-0001") "h1") requests_init in
  r = Err (HTTPException 409 "Idempotency claim expired or was superseded") /\ scheduled s = [] /\
  run_rows s !! "run1" = Some ("s1", "failed").
Proof. vm_compute. done. Qed.

(** [persist_gateway_job] is the one call after the permit that nothing
    guards: when it raises, the permit is never returned, the key stays pending
    and the run "running" with no task.  Two such requests and every later one
    is refused for capacity, though no task is left. *)
Example leaked_permit :
  let s := run_requests requests_init
    [Request (unpersisted (answers 1000 "t1" "run1")) (request (Some "key-0001") "h1");
     Request (unpersisted (answers 2000 "t2" "run2")) (request (Some "key-0002") "h1")] in
  scheduled s = [] /\ limiters s = [mkLimiter 2 0] /\ run_rows s !! "run1" = Some ("s1", "running") /\
  (run_backtest (answers 3000 "t3" "run3") (request (Some "key-0001") "h1") s).2 =
    Err (HTTPException 409 "The idempotent backtest request is still being scheduled") /\
  (run_backtest (answers 3000 "t3" "run3") (request None "h1") s).2 =
    Err (HTTPException 429 "Backtest capacity is saturated; retry after an active run finishes").
Proof. vm_compute. done. Qed.

(** A claim whose commit raises is answered with 503 and stays, pending, in the
    open transaction: the client's next attempt is refused as a duplicate, and
    the next commit of anything stores the claim for other processes too. *)
Example commit_leaves_claim :
  let q := request (Some "key-0001") "h1" in
  let '(s, r) := run_backtest (with_faults (Some AtCommit) None None (answers 1000 "t1" "run1")) q requests_init in
  r = unavailable /\ stored s = ∅ /\
  (run_backtest (answers 2000 "t2" "run2") q s).2 =
    Err (HTTPException 409 "The idempotent backtest request is still being scheduled") /\
  (claim_backtest_idempotency 2000 "t2" "key-0001" "h1" (stored (request_step s Commits))).2 =
    Err (HTTPException 409 "The idempotent backtest request is still being scheduled").
Proof. vm_compute. done. Qed.

(** A completion whose commit raises is answered with 503, and the run is marked
    as failed; the commit of that stores the completion, so that the key is
    bound to the failed run, which every repetition is answered with. *)
Example failed_run_bound :
  let q := request (Some "key-0001") "h1" in
  let '(s, r) := run_backtest (with_faults None (Some InCommit) None (answers 1000 "t1" "run1")) q requests_init in
  r = unavailable /\ scheduled s = [] /\
  (run_backtest (answers 2000 "t2" "run2") q s).2 = Ok (mkResponse "run1" "s1" "failed").
Proof. vm_compute. done. Qed.

(** A release that raises leaves the claim of a refused request. *)
Example release_leaves_claim :
  let q := request (Some "key-0001") "h1" in
  let full := mkRequests ∅ ∅ [mkLimiter 2 0] ∅ [] in
  let '(s, r) := run_backtest (with_faults None None (Some InStatement) (answers 1000 "t1" "run1")) q full in
  r = unavailable /\ row_token <$> stored s !! (run_scope, "key-0001") = Some "t1".
Proof. vm_compute. done. Qed.

Lemma first_answer :
  run_backtest (answers 1000 "t1" "run1") (request (Some "key-0001") "h1") requests_init =
    (first.1, Ok (mkResponse "run1" "s1" "queued")).
Proof. change (run_backtest _ _ _) with first. rewrite (surjective_pairing first) at 1. by f_equal. Qed.

Lemma one_run_per_key_witness :
  exists since, since = 1005 \/ scheduled first.1 = [] /\ 1000 - IDEMPOTENCY_RESULT_TTL_MS <= since.
Proof.
  destruct (one_run_per_key (answers 1000 "t1" "run1") (request (Some "key-0001") "h1") "key-0001" requests_init
    first.1 (mkResponse "run1" "s1" "queued") eq_refl first_answer) as (since & H & _).
  exists since. exact H.
Defined.

Lemma permits_accounted_witness :
  let s := run_requests requests_init [Request (answers 1000 "t1" "run1") (request None "h1")] in
  limiters s = [mkLimiter 2 1] /\ 1 + held 0 (scheduled s).*2 = 2.
Proof.
  split; [vm_compute; reflexivity|].
  apply (permits_accounted [Request (answers 1000 "t1" "run1") (request None "h1")] 0 (mkLimiter 2 1) eq_refl).
  repeat constructor.
Defined.

Lemma refused_request_undone_witness :
  let a := overtaken (answers 1000 "t1" "run1") "key-0001" "h1" in
  let '(s1, r) := run_backtest a (request (Some "key-0001") "h1") requests_init in
  scheduled s1 = [] /\ both (unclaimed "t1") s1.
Proof.
  cbv zeta. destruct (run_backtest _ _ _) as [s1 r] eqn:E.
  destruct (refused_request_undone (overtaken (answers 1000 "t1" "run1") "key-0001" "h1")
    (request (Some "key-0001") "h1") requests_init s1
    (HTTPException 409 "Idempotency claim expired or was superseded")) as (H & _ & C).
  - rewrite E. f_equal. apply (f_equal snd) in E. vm_compute in E. symmetry. exact E.
  - reflexivity.
  - split; [exact H|]. apply (C "key-0001"); [reflexivity|discriminate|reflexivity|split; apply map_Forall_empty|].
    repeat constructor; discriminate.
Defined.

End RequestDemo.
