(* ===== verification/Faults.v ===== *)
(** Programs whose commands may fail half-way and whose process may die, and a
    weakest precondition for them.

    The programs are those of [Threads], run alone.  [wp b p Q D s]: from [s],
    with at most [b] failing commands, [p] ends in [Q], which is told how many
    failures are left, and whenever the process dies, at any command or within
    it, the state it leaves satisfies [D].  Used by [BacktestStore]. *)

From S2P Require Import Prelude Threads.

(** How a command goes: it is done; it raises after [n] parts of its work, as
    far as it has parts; the process dies after [n] parts of it. *)
Inductive luck := Done | Fails (n : nat) | Dies (n : nat).

Definition is_failure (e : luck) : bool := match e with Fails _ => true | _ => false end.
Definition failures (es : list luck) : nat := length (List.filter is_failure es).

Section Faults.
Context {State : Type} {Cmd : Type -> Type}.

(** [perform c None] is the command done, [perform c (Some n)] its failure. *)
Variable perform : forall X, Cmd X -> option nat -> State -> State * X.
Arguments perform {X}.

(** [None]: the process has died, or dies before its next command. *)
Fixpoint run {A} (es : list luck) (p : prog Cmd A) (s : State) {struct p} : State * option A :=
  match p with
  | Ret a => (s, Some a)
  | Act c k =>
      match es with
      | [] => (s, None)
      | Done :: es' => let '(s', x) := perform c None s in run es' (k x) s'
      | Fails n :: es' => let '(s', x) := perform c (Some n) s in run es' (k x) s'
      | Dies n :: _ => ((perform c (Some n) s).1, None)
      end
  end.

(** Nothing fails. *)
Fixpoint run_ok {A} (p : prog Cmd A) (s : State) : State * A :=
  match p with
  | Ret a => (s, a)
  | Act c k => let '(s', x) := perform c None s in run_ok (k x) s'
  end.

Fixpoint wp {A} (b : nat) (p : prog Cmd A) (Q : nat -> A -> State -> Prop) (D : State -> Prop) (s : State) : Prop :=
  D s /\
  match p with
  | Ret a => Q b a s
  | Act c k =>
      (let '(s', x) := perform c None s in wp b (k x) Q D s') /\
      (forall n, let '(s', x) := perform c (Some n) s in
         D s' /\ match b with O => True | S b' => wp b' (k x) Q D s' end)
  end.

Lemma wp_dead {A} b (p : prog Cmd A) Q D s : wp b p Q D s -> D s.
Proof. by destruct p; intros [? _]. Qed.

Lemma wp_ret {A} b (a : A) (Q : nat -> A -> State -> Prop) (D : State -> Prop) s : D s -> Q b a s -> wp b (Ret a) Q D s.
Proof. done. Qed.

Lemma wp_mono {A} b (p : prog Cmd A) (Q Q' : nat -> A -> State -> Prop) (D D' : State -> Prop) s :
  wp b p Q D s -> (forall b' a s', Q b' a s' -> Q' b' a s') -> (forall s', D s' -> D' s') -> wp b p Q' D' s.
Proof.
  intros H HQ HD. revert b s H. induction p as [a|X c k IH]; simpl; intros b s [Hd H]; [auto|].
  destruct H as [H1 H2]. split; [auto|]. split.
  - destruct (perform c None s). auto.
  - intros n. specialize (H2 n). destruct (perform c (Some n) s). destruct H2. destruct b; auto.
Qed.

Lemma wp_bind {A B} b (p : prog Cmd A) (k : A -> prog Cmd B) Q D s :
  wp b p (fun b' a s' => wp b' (k a) Q D s') D s -> wp b (prog_bind p k) Q D s.
Proof.
  revert b s. induction p as [a|X c k0 IH]; simpl; intros b s [Hd H]; [done|].
  destruct H as [H1 H2]. split; [done|]. split.
  - destruct (perform c None s). auto.
  - intros n. specialize (H2 n). destruct (perform c (Some n) s). destruct H2. destruct b; auto.
Qed.

(** Failures are never given back. *)
Lemma wp_budget {A} b (p : prog Cmd A) Q D s : wp b p Q D s -> wp b p (fun b' a s' => (b' <= b)%nat /\ Q b' a s') D s.
Proof.
  revert b s. induction p as [a|X c k IH]; simpl; intros b s [Hd H]; [auto|].
  destruct H as [H1 H2]. split; [done|]. split.
  - destruct (perform c None s). auto.
  - intros n. specialize (H2 n). destruct (perform c (Some n) s). destruct H2 as [? H2]. split; [done|]. destruct b; [done|].
    apply IH in H2. eapply wp_mono; [exact H2|simpl; intros b' a s2 [? ?]; split; [lia|done]|done].
Qed.

(** A step whose specification is known. *)
Lemma wp_seq {A B} b (p : prog Cmd A) (k : A -> prog Cmd B) (Q1 : nat -> A -> State -> Prop) Q (D : State -> Prop) s :
  wp b p Q1 D s -> (forall b' a s', Q1 b' a s' -> D s' -> wp b' (k a) Q D s') -> wp b (prog_bind p k) Q D s.
Proof.
  intros H Hk. apply wp_bind. revert b s H. induction p as [a|X c k0 IH]; simpl; intros b s [Hd H].
  - split; [done|]. by apply Hk.
  - destruct H as [H1 H2]. split; [done|]. split.
    + destruct (perform c None s). auto.
    + intros n. specialize (H2 n). destruct (perform c (Some n) s). destruct H2. destruct b; auto.
Qed.

(** The same for a step that may raise: an exception ends the program. *)
Lemma wp_try {E A B} b (p : prog Cmd (result E A)) (k : A -> prog Cmd (result E B))
    (Q1 : nat -> A -> State -> Prop) (R1 : nat -> E -> State -> Prop) (Q : nat -> result E B -> State -> Prop)
    (D : State -> Prop) s :
  wp b p (fun b' r s' => match r with Ok a => Q1 b' a s' | Err e => R1 b' e s' end) D s ->
  (forall b' e s', R1 b' e s' -> Q b' (Err e) s') ->
  (forall b' a s', Q1 b' a s' -> D s' -> wp b' (k a) Q D s') -> wp b (try_bind p k) Q D s.
Proof. intros H HE Hk. eapply wp_seq; [done|]. intros b' [a|e] s' Hr Hd; [by apply Hk|]. split; auto. Qed.

(** One command. *)
Lemma wp_act {A X} b (c : Cmd X) (k : X -> prog Cmd A) (Q : nat -> A -> State -> Prop) (D : State -> Prop) s :
  D s -> wp b (k (perform c None s).2) Q D (perform c None s).1 ->
  (forall n, D (perform c (Some n) s).1) ->
  (forall n b', b = S b' -> wp b' (k (perform c (Some n) s).2) Q D (perform c (Some n) s).1) ->
  wp b (Act c k) Q D s.
Proof.
  intros Hd Hk Hn Hf. split; [done|]. split.
  - by destruct (perform c None s).
  - intros n. specialize (Hn n). specialize (Hf n). destruct (perform c (Some n) s). split; [done|]. destruct b; auto.
Qed.

(** A command that only looks and cannot fail. *)
Lemma wp_look {A X} b (c : Cmd X) (k : X -> prog Cmd A) (Q : nat -> A -> State -> Prop) (D : State -> Prop) s x :
  D s -> (forall f, perform c f s = (s, x)) -> (forall b', (b' <= b)%nat -> wp b' (k x) Q D s) -> wp b (Act c k) Q D s.
Proof.
  intros Hd E Hk. apply wp_act; [done|..].
  - rewrite E. by apply Hk.
  - intros n. by rewrite E.
  - intros n b' ->. rewrite E. apply Hk. lia.
Qed.

(** Programs each command of which keeps [I], done or not. *)
Definition keeps {A} (I : State -> Prop) (p : prog Cmd A) : Prop := forall b s, I s -> wp b p (fun _ _ => I) I s.

Lemma keeps_ret {A} I (a : A) : keeps I (Ret a).
Proof. by intros b s H. Qed.

Lemma keeps_act {A X} I (c : Cmd X) (k : X -> prog Cmd A) :
  (forall f s, I s -> I (perform c f s).1) -> (forall x, keeps I (k x)) -> keeps I (Act c k).
Proof. intros Hc Hk b s H. apply wp_act; [done|by apply Hk, Hc|auto|]. intros n b' _. by apply Hk, Hc. Qed.

Lemma keeps_bind {A B} I (p : prog Cmd A) (k : A -> prog Cmd B) :
  keeps I p -> (forall a, keeps I (k a)) -> keeps I (prog_bind p k).
Proof. intros Hp Hk b s H. eapply wp_seq; [by apply Hp|]. intros b' a s' H' _. by apply Hk. Qed.

Lemma keeps_try {E A B} I (p : prog Cmd (result E A)) (k : A -> prog Cmd (result E B)) :
  keeps I p -> (forall a, keeps I (k a)) -> keeps I (try_bind p k).
Proof. intros Hp Hk. apply keeps_bind; [done|]. intros [a|e]; [auto|apply keeps_ret]. Qed.

(** What [wp] says of the runs. *)
Lemma wp_run {A} b (p : prog Cmd A) Q D s es :
  wp b p Q D s -> (failures es <= b)%nat ->
  match run es p s with
  | (s', Some a) => D s' /\ exists b', (b <= b' + failures es)%nat /\ Q b' a s'
  | (s', None) => D s'
  end.
Proof.
  revert b s es. induction p as [a|X c k IH]; simpl; intros b s es [Hd H] Hb; [split; [done|]; exists b; split; [lia|done]|].
  destruct H as [H1 H2]. destruct es as [|[|n|n] es]; [done|..].
  - destruct (perform c None s) as [s' x]. by apply (IH x b s' es).
  - specialize (H2 n). destruct (perform c (Some n) s) as [s' x]. destruct H2 as [_ H2].
    unfold failures in *. cbn in *. destruct b as [|b]; [lia|].
    assert (Hb' : (length (List.filter is_failure es) <= b)%nat) by lia.
    generalize (IH x b s' es H2 Hb'). destruct (run es (k x) s') as [s2 [a|]]; [|done]. intros R.
    destruct R as (Rd & b' & ? & ?). split; [done|]. exists b'. split; [lia|done].
  - specialize (H2 n). destruct (perform c (Some n) s). by destruct H2.
Qed.

Lemma keeps_run {A} I (p : prog Cmd A) s es : keeps I p -> I s -> I (run es p s).1.
Proof.
  intros Hp H. pose proof (wp_run (failures es) p _ I s es (Hp (failures es) s H) (le_n _)) as W.
  destruct (run es p s) as [s' [a|]]; [|done]. by destruct W.
Qed.

Lemma wp_run_ok {A} b (p : prog Cmd A) Q D s : wp b p Q D s -> Q b (run_ok p s).2 (run_ok p s).1.
Proof.
  revert s. induction p as [a|X c k IH]; simpl; intros s [_ H]; [done|].
  destruct H as [H _]. destruct (perform c None s). by apply IH.
Qed.

Lemma run_ok_bind {A B} (p : prog Cmd A) (k : A -> prog Cmd B) s :
  run_ok (prog_bind p k) s = run_ok (k (run_ok p s).2) (run_ok p s).1.
Proof. revert s. induction p as [a|X c k0 IH]; simpl; intros s; [done|]. destruct (perform c None s). apply IH. Qed.

(** A run without failures that is long enough is [run_ok]. *)
Lemma run_ok_run {A} (p : prog Cmd A) s : exists n, forall m, (n <= m)%nat ->
  run (replicate m Done) p s = ((run_ok p s).1, Some (run_ok p s).2).
Proof.
  revert s. induction p as [a|X c k IH]; intros s; [by exists 0%nat; intros []|].
  simpl. destruct (perform c None s) as [s' x] eqn:E. destruct (IH x s') as [n Hn]. exists (S n).
  intros [|m] Hm; [lia|]. apply Hn. lia.
Qed.

End Faults.
