(* ===== verification/BacktestStore.v ===== *)
(** The results of backtests: [openpine/storage/backtest_storage.py] over the
    tables of [openpine/storage/migrations/003_backtest_metrics_schema.sql].

    A result is files under a run's directory and rows of three tables.  The
    directory is written under a temporary name, renamed into place and then
    committed to the tables; a restart rolls back what was not committed.  Each
    operation is a program of commands on the disk and the database that may
    fail half-way or with which the process may die ([Faults]); a transaction
    is one command.  An event loop runs one operation at a time.

    What pandas writes for records is a parameter.  Paths of directories are
    (strategy, run, kind); run identifiers are generated ("run_<hex>_<ms>") and
    hold no dot, so that the three kinds of names of two runs never meet, and
    keys of rows made from a run and a type or a number are pairs.  SQLite
    stores a NaN as NULL.  The speed figures are left out. *)

From Stdlib Require Import SpecFloat.
From S2P Require Import Prelude PyFloat Threads Faults Artifacts.

(** ** Data *)

(** What of a trade of the engine is stored; [t_record] is its row in the
    trades file ([_trade_artifact_records]). *)
Record Trade := mkTrade {
  t_id : string;
  t_exit_id : option string;
  t_exit_reason : option string;
  t_direction : string;
  t_entry_time : Z;
  t_exit_time : option Z;
  t_entry_price : float;
  t_exit_price : option float;
  t_stop_price : option float;
  t_take_profit_price : option float;
  t_qty : float;
  t_profit : option float;
  t_profit_percent : option float;
  t_commission_entry : float;
  t_commission_exit : float;
  t_bars_held : option Z;
  t_record : string
}.

(** A row of [backtest_trades]; its key stands for "<run>_trade_<i>". *)
Record TradeRow := mkTradeRow {
  trade_key : string * nat;
  tw_strategy : string;
  tw_entry_id : string;
  tw_exit_id : option string;
  tw_direction : string;
  tw_entry_time : Z;
  tw_exit_time : option Z;
  tw_entry_price : float;
  tw_exit_price : option float;
  tw_stop_price : option float;
  tw_take_profit_price : option float;
  tw_qty : float;
  tw_gross_pnl : option float;
  tw_net_pnl : option float;
  tw_net_pnl_pct : option float;
  tw_fee : option float;
  tw_slippage : option float;
  tw_bars_held : option Z;
  tw_exit_reason : option string;
  tw_created : Z
}.

(** A row of [backtest_artifacts]; its key stands for "<run>_<type>", and its
    path for the run's directory and a file name. *)
Record ArtifactRow := mkArtifactRow {
  artifact_key : string * string;
  aw_strategy : string;
  aw_file : string;
  aw_format : string;
  aw_row_count : option Z;
  aw_created : Z
}.

(** The columns of [backtest_runs] a result sets. *)
Record RunResult := mkRunResult {
  rs_metrics : list (option float);
  rs_bars_processed : Z;
  rs_result_json : string;
  rs_report_path : string;
  rs_equity_curve_path : option string;
  rs_bar_outputs_path : option string;
  rs_plot_outputs_path : option string
}.

Record RunRow := mkRunRow {
  rw_strategy : string;
  rw_status : string;
  rw_started : Z;
  rw_finished : option Z;
  rw_error : option string;
  rw_result : option RunResult;
  rw_updated : Z
}.

Inductive DirKind := Final | Tmp | Backup (hex : string).

#[export] Instance DirKind_eq_dec : EqDecision DirKind.
Proof. solve_decision. Defined.
#[export] Instance DirKind_countable : Countable DirKind.
Proof.
  refine (inj_countable' (fun k => match k with Final => inl true | Tmp => inl false | Backup h => inr h end)
            (fun x => match x with inl true => Final | inl false => Tmp | inr h => Backup h end) _).
  by intros [].
Defined.

(** A directory: its files' names and contents. *)
Abbreviation Dir := (gmap string string).
Abbreviation DirKey := (string * string * DirKind)%type.

Record Store := mkStore {
  dirs : gmap DirKey Dir;
  run_rows : gmap string RunRow;
  trade_rows : list TradeRow;
  artifact_rows : list ArtifactRow
}.

Definition set_dirs (d : gmap DirKey Dir) (s : Store) : Store := mkStore d (run_rows s) (trade_rows s) (artifact_rows s).
Definition set_runs (r : gmap string RunRow) (s : Store) : Store := mkStore (dirs s) r (trade_rows s) (artifact_rows s).

Inductive exn := OSError | ValueError | RuntimeError | DatabaseError.

(** What [save_result] is called with; [sa_hex] is the fresh name of a backup. *)
Record SaveArgs := mkSave {
  sa_run : string;
  sa_hex : string;
  sa_metrics : list (option float);
  sa_result_json : string;
  sa_trades : list Trade;
  sa_equity : option (list string);
  sa_bars : option (list string);
  sa_plots : option (list string);
  sa_csv : string;
  sa_report : string;
  sa_markdown : string;
  sa_now : Z
}.

Definition null_of_nan (x : option float) : option float :=
  match x with Some f => if is_nan f then None else Some f | None => None end.

Definition non_empty {A} (l : option (list A)) : option (list A) :=
  match l with Some (x :: l') => Some (x :: l') | _ => None end.

(** [_trade_db_rows]. *)
Definition trade_db_rows (a : SaveArgs) (strategy : string) : list TradeRow :=
  imap (fun i t => mkTradeRow (sa_run a, i) strategy (t_id t) (t_exit_id t) (t_direction t) (t_entry_time t) (t_exit_time t)
                     (t_entry_price t) (null_of_nan (t_exit_price t)) (null_of_nan (t_stop_price t))
                     (null_of_nan (t_take_profit_price t)) (t_qty t) (null_of_nan (t_profit t)) (null_of_nan (t_profit t))
                     (null_of_nan (t_profit_percent t))
                     (null_of_nan (Some (fadd (t_commission_entry t) (t_commission_exit t)))) (Some f_zero)
                     (t_bars_held t) (match opt_truthy (t_exit_id t) with Some x => Some x | None => t_exit_reason t end)
                     (sa_now a)) (sa_trades a).

(** The columns that must not be null. *)
Definition trade_storable (t : Trade) : bool := negb (is_nan (t_entry_price t)) && negb (is_nan (t_qty t)).

(** ** The programs *)

Inductive Cmd : Type -> Type :=
  | StrategyOf (run : string) : Cmd (result exn (option string))
  | Compute : Cmd (result exn unit)
  | PathExists (d : DirKey) : Cmd bool
  | HasFile (d : DirKey) (file : string) : Cmd bool
  | MkDir (d : DirKey) : Cmd (result exn unit)
  | WriteFile (d : DirKey) (file content : string) : Cmd (result exn unit)
  | CountRows (d : DirKey) (file : string) : Cmd (result exn unit)
  | Rename (d d' : DirKey) : Cmd (result exn unit)
  | Rmtree (d : DirKey) : Cmd (result exn unit)
  | CommitResult (strategy : string) (a : SaveArgs) : Cmd (result exn unit)
  | DeleteRows (run : string) : Cmd (result exn unit)
  | Backups (strategy run : string) : Cmd (list string)
  | Interrupted : Cmd (result exn (list (string * string)))
  | FailInterrupted (now : Z) : Cmd (result exn Z).

Definition active_statuses : list string := ["queued"; "running"; "cancelling"].
Definition active (row : RunRow) : bool := bool_decide (rw_status row ∈ active_statuses).

Section Files.

(** What [parquet.write_dataframe] writes for records, and the number of rows
    [parquet.row_count] finds in a file. *)
Variable parquet : list string -> string.
Variable row_count : string -> option Z.

(** The files of a result in the order they are written, with the type of those
    that are artifacts ([_write_result_artifacts]). *)
Definition result_files (a : SaveArgs) : list (option string * string * string) :=
  match non_empty (sa_equity a) with Some l => [(Some "equity_curve", "equity_curve.parquet", parquet l)] | None => [] end ++
  match sa_trades a with [] => [] | l => [(Some "trades", "trades.parquet", parquet (t_record <$> l))] end ++
  match non_empty (sa_bars a) with Some l => [(Some "bar_outputs", "bar_outputs.parquet", parquet l)] | None => [] end ++
  match non_empty (sa_plots a) with
  | Some l => [(Some "plot_outputs", "plot_outputs.parquet", parquet l); (None, "plot_outputs.csv", sa_csv a)]
  | None => []
  end ++
  [(Some "report_json", "report.json", sa_report a); (Some "report_md", "report.md", sa_markdown a)].

(** [artifact_paths]: types and file names. *)
Definition artifact_paths (a : SaveArgs) : list (string * string) :=
  omap (fun '(ty, file, _) => match ty with Some t => Some (t, file) | None => None end) (result_files a).

(** The types whose rows are counted, and the format of a file. *)
Definition counted (ty : string) : bool := bool_decide (ty ∈ ["equity_curve"; "trades"; "bar_outputs"; "plot_outputs"]).
Definition file_format (file : string) : string :=
  if String.eqb (String.substring (String.length file - 8) 8 file) ".parquet" then "parquet" else "json".

(** [_artifact_db_row] for a file of a directory; [None]: its rows cannot be
    counted. *)
Definition artifact_db_row (a : SaveArgs) (strategy : string) (d : Dir) (p : string * string) : option ArtifactRow :=
  let row c := mkArtifactRow (sa_run a, p.1) strategy p.2 (file_format p.2) c (sa_now a) in
  match counted p.1, d !! p.2 with
  | true, Some content => match row_count content with Some n => Some (row (Some n)) | None => None end
  | _, _ => Some (row None)
  end.

(** [_update_run_result_row]. *)
Definition run_result (a : SaveArgs) : RunResult :=
  mkRunResult (null_of_nan <$> sa_metrics a)
    (Z.max (match sa_bars a with Some l => Z.of_nat (length l) | None => 0 end)
       (match sa_equity a with Some l => Z.of_nat (length l) | None => 0 end))
    (sa_result_json a) "report.json"
    ((fun _ => "equity_curve.parquet") <$> sa_equity a)
    ((fun _ => "bar_outputs.parquet") <$> sa_bars a)
    ((fun _ => "plot_outputs.parquet") <$> non_empty (sa_plots a)).

Definition done_row (a : SaveArgs) (row : RunRow) : RunRow :=
  mkRunRow (rw_strategy row) "done" (rw_started row) (Some (sa_now a)) (rw_error row) (Some (run_result a)) (sa_now a).

(** [_save_result_db_records]: all or nothing. *)
Definition commit_result (strategy : string) (a : SaveArgs) (s : Store) : Store * result exn unit :=
  let d := default ∅ (dirs s !! (strategy, sa_run a, Final)) in
  if negb (forallb trade_storable (sa_trades a))
     || existsb (fun r => existsb (fun r' => bool_decide (trade_key r = trade_key r')) (trade_rows s)) (trade_db_rows a strategy)
  then (s, Err DatabaseError)
  else match mapM (artifact_db_row a strategy d) (artifact_paths a) with
       | None => (s, Err RuntimeError)
       | Some rows =>
           if existsb (fun r => existsb (fun r' => bool_decide (artifact_key r = artifact_key r')) (artifact_rows s)) rows
           then (s, Err DatabaseError)
           else (mkStore (dirs s) (alter (done_row a) (sa_run a) (run_rows s)) (trade_rows s ++ trade_db_rows a strategy)
                   (artifact_rows s ++ rows), Ok tt)
       end.

(** The backups of a run. *)
Definition backups_of (strategy run : string) (s : Store) : list string :=
  omap (fun '((st, r, k), _) =>
          match k with Backup h => if bool_decide (st = strategy /\ r = run) then Some h else None | _ => None end)
       (map_to_list (dirs s)).

Definition interrupted (s : Store) : list (string * string) :=
  omap (fun '(run, row) => if active row then Some (run, rw_strategy row) else None) (map_to_list (run_rows s)).

(** The rows [recover_incomplete_runs] fails. *)
Definition fail_row (now : Z) (row : RunRow) : RunRow :=
  if active row then
    mkRunRow (rw_strategy row) "failed" (rw_started row) (Some now)
      (Some "Gateway restarted before the backtest completed") (rw_result row) now
  else row.

(** Whether the filesystem may report the failure of a rename that it has made,
    as [_publish_result_artifacts] expects of an unusual one. *)
Variable late : bool.

Definition takes_effect (failed : option nat) : bool :=
  match failed with None => true | Some O => false | Some (S _) => late end.

(** A command that raises leaves a text cut short, a directory with some files
    gone, or a rename made, and otherwise does nothing. *)
Definition perform (X : Type) (c : Cmd X) (failed : option nat) (s : Store) : Store * X :=
  match c in Cmd Y return Store * Y with
  | StrategyOf run => (s, match failed with None => Ok (rw_strategy <$> run_rows s !! run) | Some _ => Err DatabaseError end)
  | Compute => (s, match failed with None => Ok tt | Some _ => Err RuntimeError end)
  | PathExists d => (s, bool_decide (is_Some (dirs s !! d)))
  | HasFile d file => (s, bool_decide (is_Some (dirs s !! d ≫= lookup file)))
  | MkDir d =>
      match failed, dirs s !! d with
      | None, None => (set_dirs (<[d := ∅]> (dirs s)) s, Ok tt)
      | None, Some _ => (s, Ok tt)
      | Some _, _ => (s, Err OSError)
      end
  | WriteFile d file content =>
      match dirs s !! d, failed with
      | None, _ => (s, Err OSError)
      | Some f, None => (set_dirs (<[d := <[file := content]> f]> (dirs s)) s, Ok tt)
      | Some f, Some n => (set_dirs (<[d := <[file := String.substring 0 n content]> f]> (dirs s)) s, Err OSError)
      end
  | CountRows d file =>
      (s, match failed, dirs s !! d ≫= lookup file with
          | None, Some content => match row_count content with Some _ => Ok tt | None => Err RuntimeError end
          | None, None => Ok tt
          | Some _, _ => Err RuntimeError
          end)
  | Rename d d' =>
      let r := match failed with None => Ok tt | Some _ => Err OSError end in
      if takes_effect failed then
        match dirs s !! d with
        | Some f =>
            if bool_decide (default ∅ (dirs s !! d') = ∅) then (set_dirs (<[d' := f]> (delete d (dirs s))) s, r)
            else (s, Err OSError)
        | None => (s, Err OSError)
        end
      else (s, Err OSError)
  | Rmtree d =>
      match dirs s !! d, failed with
      | None, _ => (s, Err OSError)
      | Some _, None => (set_dirs (delete d (dirs s)) s, Ok tt)
      | Some f, Some n => (set_dirs (<[d := list_to_map (drop n (map_to_list f))]> (dirs s)) s, Err OSError)
      end
  | CommitResult strategy a => match failed with None => commit_result strategy a s | Some _ => (s, Err DatabaseError) end
  | DeleteRows run =>
      match failed with
      | None => (mkStore (dirs s) (delete run (run_rows s))
                   (List.filter (fun r => negb (bool_decide ((trade_key r).1 = run))) (trade_rows s))
                   (List.filter (fun r => negb (bool_decide ((artifact_key r).1 = run))) (artifact_rows s)), Ok tt)
      | Some _ => (s, Err DatabaseError)
      end
  | Backups strategy run => (s, backups_of strategy run s)
  | Interrupted => (s, match failed with None => Ok (interrupted s) | Some _ => Err DatabaseError end)
  | FailInterrupted now =>
      match failed with
      | None => (set_runs (fail_row now <$> run_rows s) s, Ok (Z.of_nat (length (interrupted s))))
      | Some _ => (s, Err DatabaseError)
      end
  end.

Abbreviation io A := (prog Cmd (result exn A)).

(** [_path_under_root] of a run's directory, its temporary and backup names:
    only the strategy and the run come from outside. *)
Definition check_path (strategy run : string) : io unit :=
  if valid_component strategy && valid_component run then ok tt else raise ValueError.

Fixpoint each {A} (l : list A) (f : A -> io unit) : io unit :=
  match l with [] => ok tt | x :: l' => try! _u := f x in each l' f end.

(** [_publish_result_artifacts]: whether there is a backup now. *)
Definition publish (tmp run_dir backup_dir : DirKey) (paths : list (string * string)) : io bool :=
  try! _u := each paths (fun p => do! there := act (HasFile tmp p.2) in if there then ok tt else raise RuntimeError) in
  do! old := act (PathExists run_dir) in
  try! _u := (if old then act (Rename run_dir backup_dir) else ok tt) in
  do! published := act (Rename tmp run_dir) in
  match published with
  | Ok _ => ok old
  | Err e =>
      do! backup := act (PathExists backup_dir) in
      if old && backup then
        do! restored :=
          (do! new := act (PathExists run_dir) in
           try! _u := (if new then act (Rmtree run_dir) else ok tt) in
           act (Rename backup_dir run_dir)) in
        match restored with Ok _ => raise e | Err _ => raise RuntimeError end
      else raise e
  end.

(** The [try] of [save_result], with whether the files were published and
    whether there is a backup, which the handler looks at. *)
Definition save_body (strategy : string) (a : SaveArgs) : prog Cmd (bool * bool * result exn unit) :=
  let run_dir := (strategy, sa_run a, Final) in
  let tmp := (strategy, sa_run a, Tmp) in
  do! written :=
    (try! _u := act Compute in
     try! _u := each (result_files a) (fun '(_, file, content) => act (WriteFile tmp file content)) in
     try! _u := each (artifact_paths a) (fun p => if counted p.1 then act (CountRows tmp p.2) else ok tt) in
     publish tmp run_dir (strategy, sa_run a, Backup (sa_hex a)) (artifact_paths a)) in
  match written with
  | Err e => Ret (false, false, Err e)
  | Ok backup => do! r := act (CommitResult strategy a) in Ret (true, backup, r)
  end.

(** The [except Exception]. *)
Definition undo_save (strategy : string) (a : SaveArgs) (published backup : bool) (e : exn) : io unit :=
  let run_dir := (strategy, sa_run a, Final) in
  let tmp := (strategy, sa_run a, Tmp) in
  let backup_dir := (strategy, sa_run a, Backup (sa_hex a)) in
  do! t := act (PathExists tmp) in
  try! _u := (if t then act (Rmtree tmp) else ok tt) in
  do! b := (if backup then act (PathExists backup_dir) else Ret false) in
  do! f := act (PathExists run_dir) in
  try! _u :=
    (if b then try! _u := (if f then act (Rmtree run_dir) else ok tt) in act (Rename backup_dir run_dir)
     else if published && f then act (Rmtree run_dir) else ok tt) in
  raise e.

(** [save_result]. *)
Definition save_result (a : SaveArgs) : io unit :=
  try! found := act (StrategyOf (sa_run a)) in
  let strategy := default "" found in
  try! _u := check_path strategy (sa_run a) in
  try! _u := act (MkDir (strategy, sa_run a, Tmp)) in
  do! ' (published, backup, r) := save_body strategy a in
  match r with
  | Err e => undo_save strategy a published backup e
  | Ok _ =>
      do! b := (if backup then act (PathExists (strategy, sa_run a, Backup (sa_hex a))) else Ret false) in
      do! _u := (if b then act (Rmtree (strategy, sa_run a, Backup (sa_hex a))) else Ret (Ok tt)) in
      ok tt
  end.

(** [if path.exists(): shutil.rmtree(path)]. *)
Definition remove (d : DirKey) : io unit :=
  do! there := act (PathExists d) in if there then act (Rmtree d) else ok tt.

(** [_rollback_incomplete_artifact_publication]. *)
Definition rollback_publication (strategy run : string) : io unit :=
  try! _u := check_path strategy run in
  do! backups := act (Backups strategy run) in
  if (1 <? length backups)%nat then raise RuntimeError
  else
    try! _u := remove (strategy, run, Tmp) in
    match backups with
    | h :: _ =>
        try! _u := remove (strategy, run, Final) in
        act (Rename (strategy, run, Backup h) (strategy, run, Final))
    | [] => remove (strategy, run, Final)
    end.

(** [recover_incomplete_runs]. *)
Definition recover_incomplete_runs (now : Z) : io Z :=
  try! runs := act Interrupted in
  try! _u := each runs (fun '(run, strategy) => rollback_publication strategy run) in
  act (FailInterrupted now).

(** [delete_run]. *)
Definition delete_run (run : string) : io bool :=
  try! found := act (StrategyOf run) in
  match found with
  | None => ok false
  | Some strategy =>
      try! _u := act (DeleteRows run) in
      try! _u := check_path strategy run in
      try! _u := remove (strategy, run, Final) in
      ok true
  end.

(** [create_run] under a fresh identifier, and the marks. *)
Definition create_run (run strategy : string) (now : Z) (s : Store) : Store :=
  set_runs (<[run := mkRunRow strategy "running" now None None None now]> (run_rows s)) s.

Definition mark_running (run : string) (s : Store) : Store :=
  set_runs (alter (fun r => mkRunRow (rw_strategy r) "running" (rw_started r) (rw_finished r) (rw_error r) (rw_result r)
                                     (rw_updated r)) run (run_rows s)) s.

Definition mark_ended (status run message : string) (now : Z) (s : Store) : Store :=
  set_runs (alter (fun r => mkRunRow (rw_strategy r) status (rw_started r) (Some now) (Some message) (rw_result r) now)
                  run (run_rows s)) s.

Definition mark_failed : string -> string -> Z -> Store -> Store := mark_ended "failed".
Definition mark_cancelled : string -> string -> Z -> Store -> Store := mark_ended "cancelled".

(** [list_trades] without a limit, in the order of the index for equal times,
    and [list_artifacts]. *)
Definition list_trades (run : string) (s : Store) : list TradeRow :=
  sort_by (fun a b => tw_entry_time a <=? tw_entry_time b)
    (List.filter (fun r => bool_decide ((trade_key r).1 = run)) (trade_rows s)).

Definition list_artifacts (run : string) (s : Store) : list ArtifactRow :=
  List.filter (fun r => bool_decide ((artifact_key r).1 = run)) (artifact_rows s).

End Files.
