(* ===== verification/BacktestStoreFacts.v ===== *)
(** What the operations of [BacktestStore] leave, whatever fails and wherever
    the process dies. *)

From Stdlib Require Import SpecFloat.
From S2P Require Import Prelude PyFloat Threads Faults Artifacts BacktestStore.

Section Facts.
#[local] Set Default Proof Using "Type".

Variable parquet : list string -> string.
Variable row_count : string -> option Z.
Variable late : bool.

(** A table that was written has as many rows as it was given records. *)
Hypothesis row_count_parquet : forall l, row_count (parquet l) = Some (Z.of_nat (length l)).

Abbreviation files := (result_files parquet).
Abbreviation perf := (perform parquet row_count late).
Abbreviation wps := (wp perf).

(** ** The files of a result *)

(** What [save_result] makes of the temporary directory, which it finds empty
    unless an earlier save of the run broke off. *)
Definition write_all (d : Dir) (l : list (option string * string * string)) : Dir :=
  foldl (fun d '(_, file, content) => <[file := content]> d) d l.
Definition published (stale : Dir) (a : SaveArgs) : Dir := write_all stale (files a).
Definition files_of (a : SaveArgs) : Dir := published ∅ a.

Lemma write_all_lookup l d file :
  NoDup ((fun x => x.1.2) <$> l) ->
  write_all d l !! file =
    match List.find (fun x => bool_decide (x.1.2 = file)) l with Some x => Some x.2 | None => d !! file end.
Proof.
  revert d. induction l as [|[[ty g] c] l IH]; intros d N; [done|]. cbn in N. apply NoDup_cons in N as [N1 N].
  change (write_all d ((ty, g, c) :: l)) with (write_all (<[g := c]> d) l). rewrite IH by done. cbn.
  case_bool_decide as E; subst.
  - destruct (List.find _ l) as [x|] eqn:F; [|by rewrite lookup_insert_eq].
    apply List.find_some in F as [F E]. apply bool_decide_eq_true in E. exfalso. apply N1.
    rewrite <- E. apply list_elem_of_fmap. exists x. split; [done|]. by apply list_elem_of_In.
  - destruct (List.find _ l); [done|]. by rewrite lookup_insert_ne.
Qed.

Lemma file_names_differ a : NoDup ((fun x => x.1.2) <$> files a).
Proof.
  unfold result_files.
  destruct (non_empty (sa_equity a)), (sa_trades a), (non_empty (sa_bars a)), (non_empty (sa_plots a));
    cbn; apply (bool_decide_unpack _); vm_compute; exact I.
Qed.

Lemma published_lookup stale a ty file content :
  (ty, file, content) ∈ files a -> published stale a !! file = Some content.
Proof.
  intros H. unfold published. rewrite write_all_lookup by apply file_names_differ.
  pose proof (file_names_differ a) as N. induction (files a) as [|x l IH]; [by apply not_elem_of_nil in H|].
  cbn in N. apply NoDup_cons in N as [N1 N]. cbn. apply elem_of_cons in H as [<-|H].
  - cbn. by rewrite bool_decide_eq_true_2.
  - case_bool_decide as E; [|by apply IH]. exfalso. apply N1. rewrite E. apply list_elem_of_fmap. by exists (ty, file, content).
Qed.

(** The artifacts are files of the result, and those whose rows are counted
    are tables. *)
Lemma artifact_path_file stale a p : p ∈ artifact_paths parquet a ->
  exists content, published stale a !! p.2 = Some content /\ (counted p.1 = true -> exists l, content = parquet l).
Proof.
  unfold artifact_paths. rewrite list_elem_of_omap. intros ([[ty file] content] & H & E).
  destruct ty as [ty|]; [|done]. simplify_eq. exists content. split; [by eapply published_lookup|].
  cbn. intros C. revert H. unfold result_files.
  destruct (non_empty (sa_equity a)), (sa_trades a), (non_empty (sa_bars a)), (non_empty (sa_plots a)); cbn;
    rewrite ?elem_of_cons, ?elem_of_nil; intros H; destruct_or?; simplify_eq; eauto; done.
Qed.

(** ** The three directories of a save *)

Section Save.
Variables (strategy : string) (a : SaveArgs) (stale : Dir).
Abbreviation W := (published stale a).
Abbreviation T := (strategy, sa_run a, Tmp).
Abbreviation F := (strategy, sa_run a, Final).
Abbreviation B := (strategy, sa_run a, Backup (sa_hex a)).

(** [s] with the directories of this save as given. *)
Definition put (s : Store) (t f b : option Dir) : Store :=
  set_dirs (partial_alter (fun _ => t) T (partial_alter (fun _ => f) F (partial_alter (fun _ => b) B (dirs s)))) s.

Lemma put_T s t f b : dirs (put s t f b) !! T = t.
Proof. unfold put. cbn [dirs set_dirs]. by rewrite lookup_partial_alter_eq. Qed.
Lemma put_F s t f b : dirs (put s t f b) !! F = f.
Proof. unfold put. cbn [dirs set_dirs]. by rewrite lookup_partial_alter_ne, lookup_partial_alter_eq. Qed.
Lemma put_B s t f b : dirs (put s t f b) !! B = b.
Proof. unfold put. cbn [dirs set_dirs]. by rewrite 2!lookup_partial_alter_ne, lookup_partial_alter_eq. Qed.
Lemma put_other s t f b k : k <> T -> k <> F -> k <> B -> dirs (put s t f b) !! k = dirs s !! k.
Proof. intros. unfold put. cbn [dirs set_dirs]. by rewrite !lookup_partial_alter_ne. Qed.

Lemma put_self s : put s (dirs s !! T) (dirs s !! F) (dirs s !! B) = s.
Proof.
  destruct s as [d r ts ars]. unfold put, set_dirs. f_equal. cbn [dirs]. apply map_eq. intros k.
  destruct (decide (k = T)) as [->|]; [by rewrite lookup_partial_alter_eq|].
  rewrite lookup_partial_alter_ne by done. destruct (decide (k = F)) as [->|]; [by rewrite lookup_partial_alter_eq|].
  rewrite lookup_partial_alter_ne by done. destruct (decide (k = B)) as [->|]; [by rewrite lookup_partial_alter_eq|].
  by rewrite lookup_partial_alter_ne.
Qed.

(** Two stores that agree on the three directories, elsewhere and in the
    tables are one. *)
Lemma put_eq s s' t f b :
  run_rows s' = run_rows s -> trade_rows s' = trade_rows s -> artifact_rows s' = artifact_rows s ->
  dirs s' !! T = t -> dirs s' !! F = f -> dirs s' !! B = b ->
  (forall k, k <> T -> k <> F -> k <> B -> dirs s' !! k = dirs s !! k) -> s' = put s t f b.
Proof.
  intros R1 R2 R3 HT HF HB HO. destruct s' as [d r ts ars]. cbn [dirs run_rows trade_rows artifact_rows] in *. subst r ts ars. unfold put, set_dirs. f_equal. cbn [dirs].
  apply map_eq. intros k. destruct (decide (k = T)) as [->|]; [by rewrite lookup_partial_alter_eq|].
  rewrite lookup_partial_alter_ne by done. destruct (decide (k = F)) as [->|]; [by rewrite lookup_partial_alter_eq|].
  rewrite lookup_partial_alter_ne by done. destruct (decide (k = B)) as [->|]; [by rewrite lookup_partial_alter_eq|].
  rewrite lookup_partial_alter_ne by done. by apply HO.
Qed.

Ltac dir_step :=
  apply put_eq; try done; cbn [dirs set_dirs];
  [..|intros k ???]; rewrite ?lookup_insert_eq, ?lookup_delete_eq, ?lookup_insert_ne, ?lookup_delete_ne by done;
  rewrite ?put_T, ?put_F, ?put_B, ?put_other by done; try done;
  repeat (rewrite lookup_insert_ne by done || rewrite lookup_delete_ne by done);
  rewrite ?lookup_insert_eq, ?lookup_delete_eq, ?put_T, ?put_F, ?put_B, ?put_other by done; done.

Lemma put_set_T s t f b x : set_dirs (<[T := x]> (dirs (put s t f b))) (put s t f b) = put s (Some x) f b.
Proof. dir_step. Qed.
Lemma put_set_F s t f b x : set_dirs (<[F := x]> (dirs (put s t f b))) (put s t f b) = put s t (Some x) b.
Proof. dir_step. Qed.
Lemma put_set_B s t f b x : set_dirs (<[B := x]> (dirs (put s t f b))) (put s t f b) = put s t f (Some x).
Proof. dir_step. Qed.
Lemma put_del_T s t f b : set_dirs (delete T (dirs (put s t f b))) (put s t f b) = put s None f b.
Proof. dir_step. Qed.
Lemma put_del_F s t f b : set_dirs (delete F (dirs (put s t f b))) (put s t f b) = put s t None b.
Proof. dir_step. Qed.
Lemma put_del_B s t f b : set_dirs (delete B (dirs (put s t f b))) (put s t f b) = put s t f None.
Proof. dir_step. Qed.
Lemma put_move_TF s t f b x : set_dirs (<[F := x]> (delete T (dirs (put s t f b)))) (put s t f b) = put s None (Some x) b.
Proof. dir_step. Qed.
Lemma put_move_FB s t f b x : set_dirs (<[B := x]> (delete F (dirs (put s t f b)))) (put s t f b) = put s t None (Some x).
Proof. dir_step. Qed.
Lemma put_move_BF s t f b x : set_dirs (<[F := x]> (delete B (dirs (put s t f b)))) (put s t f b) = put s t (Some x) None.
Proof. dir_step. Qed.

(** ** The steps of a save *)

Section Steps.
Variables (s : Store) (f b : option Dir) (D : Store -> Prop).

(** Writing the files; the dead and the failed leave what they had written. *)
Lemma wp_writes l n d :
  (forall t, D (put s (Some t) f b)) ->
  wps n (each l (fun '(_, file, content) => act (WriteFile T file content)))
    (fun n' r s' => match r with
                    | Ok _ => s' = put s (Some (write_all d l)) f b
                    | Err _ => (n' < n)%nat /\ exists t, s' = put s (Some t) f b
                    end) D (put s (Some d) f b).
Proof.
  intros HD. revert n d. induction l as [|[[ty file] c] l IH]; intros n d; [by apply wp_ret|]. cbn [each].
  apply wp_act; [done|..]; cbn [perform fst snd]; rewrite put_T; cbn [fst snd prog_bind].
  - rewrite put_set_T. apply IH.
  - intros m. by rewrite put_set_T.
  - intros m n' ->. rewrite put_set_T. apply wp_ret; [done|]. split; [lia|eauto].
Qed.

(** Steps that only look at the directory written. *)
Lemma wp_looks {X} (l : list X) (g : X -> prog Cmd (result exn unit)) n d :
  D (put s d f b) ->
  (forall x n0, x ∈ l -> wps n0 (g x) (fun n' r s' => s' = put s d f b /\ (is_ok r = false -> (n' < n0)%nat)) D (put s d f b)) ->
  wps n (each l g) (fun n' r s' => s' = put s d f b /\ (is_ok r = false -> (n' < n)%nat)) D (put s d f b).
Proof.
  intros HD. revert n. induction l as [|x l IH]; intros n H; [by apply wp_ret|]. cbn [each].
  eapply wp_try; [eapply wp_mono; [apply wp_budget, (H x); left|intros n' r s'|done]|..].
  - intros (L & E & Hr). instantiate (1 := fun n' e s' => s' = put s d f b /\ (n' < n)%nat).
    instantiate (1 := fun n' _ s' => s' = put s d f b /\ (n' <= n)%nat). destruct r; cbn; auto.
  - cbn. intros n' e s' [-> L]. auto.
  - intros n' _ s' [-> L] _. eapply wp_mono; [apply IH; intros; apply H; by right| |done].
    intros n2 r s2 [E Hr]. split; [done|]. intros Er. apply Hr in Er. lia.
Qed.

Lemma wp_count_rows n :
  D (put s (Some W) f b) ->
  wps n (each (artifact_paths parquet a) (fun p => if counted p.1 then act (CountRows T p.2) else ok tt))
    (fun n' r s' => s' = put s (Some W) f b /\ (is_ok r = false -> (n' < n)%nat)) D
    (put s (Some W) f b).
Proof using row_count_parquet.
  intros HD. apply wp_looks; [done|]. intros p n0 H. destruct (counted p.1) eqn:C; [|by apply wp_ret].
  destruct (artifact_path_file stale a p H) as (content & E & Hl). destruct (Hl C) as [l ->].
  apply wp_act; [done|..]; cbn [perform fst snd]; [|done|].
  - apply wp_ret; [done|]. rewrite put_T. cbn [mbind option_bind]. rewrite E, row_count_parquet. done.
  - intros m n' ->. apply wp_ret; [done|]. split; [done|]. intros _. lia.
Qed.

Lemma wp_files_there n :
  D (put s (Some W) f b) ->
  wps n (each (artifact_paths parquet a) (fun p => do! there := act (HasFile T p.2) in if there then ok tt else raise RuntimeError))
    (fun n' r s' => s' = put s (Some W) f b /\ (is_ok r = false -> (n' < n)%nat)) D
    (put s (Some W) f b).
Proof.
  intros HD. apply wp_looks; [done|]. intros p n0 H. destruct (artifact_path_file stale a p H) as (content & E & _).
  eapply wp_look; [done| |].
  - intros fl. cbn [perform]. rewrite put_T. cbn [mbind option_bind]. by rewrite E.
  - intros n' _. by apply wp_ret.
Qed.

End Steps.

(** Renames of this save's directories. *)
Lemma rename_TF s d b : perf _ (Rename T F) None (put s (Some d) None b) = (put s None (Some d) b, Ok tt).
Proof. cbn [perform]. by rewrite put_T, put_F, put_move_TF. Qed.
Lemma rename_FB s t d : perf _ (Rename F B) None (put s t (Some d) None) = (put s t None (Some d), Ok tt).
Proof. cbn [perform]. by rewrite put_F, put_B, put_move_FB. Qed.
Lemma rename_BF s t d : perf _ (Rename B F) None (put s t None (Some d)) = (put s t (Some d) None, Ok tt).
Proof. cbn [perform]. by rewrite put_F, put_B, put_move_BF. Qed.

(** A rename that raises may have been made. *)
Lemma rename_fails_TF s d b n :
  let r := perf _ (Rename T F) (Some n) (put s (Some d) None b) in
  r.2 = Err OSError /\ (r.1 = put s (Some d) None b \/ late = true /\ r.1 = put s None (Some d) b).
Proof.
  cbn [perform]. destruct (takes_effect late (Some n)) eqn:E; [|by auto].
  rewrite put_T, put_F, put_move_TF. cbn. split; [done|]. right. split; [|done]. by destruct n.
Qed.
Lemma rename_fails_FB s t d n :
  let r := perf _ (Rename F B) (Some n) (put s t (Some d) None) in
  r.2 = Err OSError /\ (r.1 = put s t (Some d) None \/ late = true /\ r.1 = put s t None (Some d)).
Proof.
  cbn [perform]. destruct (takes_effect late (Some n)) eqn:E; [|by auto].
  rewrite put_F, put_B, put_move_FB. cbn. split; [done|]. right. split; [|done]. by destruct n.
Qed.
Lemma rename_fails_BF s t d n :
  let r := perf _ (Rename B F) (Some n) (put s t None (Some d)) in
  r.2 = Err OSError /\ (r.1 = put s t None (Some d) \/ late = true /\ r.1 = put s t (Some d) None).
Proof.
  cbn [perform]. destruct (takes_effect late (Some n)) eqn:E; [|by auto].
  rewrite put_B, put_F, put_move_BF. cbn. split; [done|]. right. split; [|done]. by destruct n.
Qed.

(** *** What a save that is not committed leaves

    Nothing but its own three directories differs, and a result that was there
    before is in its place or in the backup. *)
Definition leftover (s : Store) (f0 : option Dir) (s' : Store) : Prop :=
  exists t f b, s' = put s t f b /\ (b = f0 /\ is_Some f0 \/ b = None /\ (f = f0 \/ f0 = None)).

Lemma leftover_here s f0 t : leftover s f0 (put s t f0 None).
Proof. exists t, f0, None. auto. Qed.
Lemma leftover_backup s f0 t f : leftover s f0 (put s t f f0).
Proof. exists t, f, f0. split; [done|]. destruct f0; eauto. Qed.
Lemma leftover_none s t f : leftover s None (put s t f None).
Proof. exists t, f, None. auto. Qed.
Hint Resolve leftover_here leftover_backup leftover_none : core.

(** The same for any temporary directory. *)
Definition left_with (s : Store) (f0 f b : option Dir) : Prop := forall t, leftover s f0 (put s t f b).

Lemma left_here s f0 : left_with s f0 f0 None.
Proof. by intros t. Qed.
Lemma left_backup s f0 f : left_with s f0 f f0.
Proof. by intros t. Qed.
Lemma left_none s f : left_with s None f None.
Proof. by intros t. Qed.
Hint Resolve left_here left_backup left_none : core.

(** *** Publishing *)

Lemma wp_rename_TF s n d b (D : Store -> Prop) :
  D (put s (Some d) None b) -> D (put s None (Some d) b) ->
  wps n (act (Rename T F))
    (fun n' r s' => match r with
                    | Ok _ => n' = n /\ s' = put s None (Some d) b
                    | Err _ => n = S n' /\ (s' = put s (Some d) None b \/ late = true /\ s' = put s None (Some d) b)
                    end) D (put s (Some d) None b).
Proof.
  intros D1 D2. apply wp_act; [done|..].
  - rewrite rename_TF. cbn [fst snd]. by apply wp_ret.
  - intros m. by destruct (rename_fails_TF s d b m) as [_ [->|[_ ->]]].
  - intros m n' ->. destruct (rename_fails_TF s d b m) as [-> [->|[L ->]]]; apply wp_ret; auto.
Qed.

Lemma wp_rename_FB s n t d (D : Store -> Prop) :
  D (put s t (Some d) None) -> D (put s t None (Some d)) ->
  wps n (act (Rename F B))
    (fun n' r s' => match r with
                    | Ok _ => n' = n /\ s' = put s t None (Some d)
                    | Err _ => n = S n' /\ (s' = put s t (Some d) None \/ late = true /\ s' = put s t None (Some d))
                    end) D (put s t (Some d) None).
Proof.
  intros D1 D2. apply wp_act; [done|..].
  - rewrite rename_FB. cbn [fst snd]. by apply wp_ret.
  - intros m. by destruct (rename_fails_FB s t d m) as [_ [->|[_ ->]]].
  - intros m n' ->. destruct (rename_fails_FB s t d m) as [-> [->|[L ->]]]; apply wp_ret; auto.
Qed.

(** Bringing the old result back from the backup. *)
Lemma wp_restore s n t f o (D : Store -> Prop) :
  (forall s', leftover s (Some o) s' -> D s') ->
  wps n (do! new := act (PathExists F) in
         try! _u := (if new then act (Rmtree F) else ok tt) in act (Rename B F))
    (fun n' r s' => match r with
                    | Ok _ => (n' <= n)%nat /\ s' = put s t (Some o) None
                    | Err _ => (n' < n)%nat /\ exists f b, s' = put s t f b /\ left_with s (Some o) f b
                    end) D (put s t f (Some o)).
Proof.
  intros HD. assert (Ren : forall n1, (n1 <= n)%nat ->
    wps n1 (act (Rename B F)) (fun n' r s' => match r with
      | Ok _ => (n' <= n)%nat /\ s' = put s t (Some o) None
      | Err _ => (n' < n)%nat /\ exists f b, s' = put s t f b /\ left_with s (Some o) f b end) D (put s t None (Some o))).
  { intros n1 L1. apply wp_act; [by apply HD|..].
    - rewrite rename_BF. cbn [fst snd]. apply wp_ret; [by apply HD|]. split; [done|reflexivity].
    - intros m. destruct (rename_fails_BF s t o m) as [_ [->|[_ ->]]]; by apply HD.
    - intros m n' ->. destruct (rename_fails_BF s t o m) as [-> [->|[_ ->]]]; (apply wp_ret; [by apply HD|]);
        (split; [lia|]); eauto. }
  eapply wp_look; [by apply HD|intros fl; cbn [perform]; by rewrite put_F|]. intros n1 L1. cbn [prog_bind].
  destruct f as [d|]; [rewrite bool_decide_eq_true_2 by done|rewrite bool_decide_eq_false_2 by by intros []].
  2: by apply Ren.
  apply wp_act; [by apply HD| |intros m|intros m n' ->]; cbn [perform]; rewrite put_F; cbn [fst snd prog_bind].
  - rewrite put_del_F. by apply Ren.
  - rewrite put_set_F. by apply HD.
  - rewrite put_set_F. apply wp_ret; [by apply HD|]. split; [lia|eauto].
Qed.

(** What a failed publication leaves when it was one failure: what was there;
    after a rename that was made and raised, also a first result in its place,
    or the old one under its backup's name, or no temporary directory. *)
Definition unpublished (f0 t f b : option Dir) : Prop :=
  f = f0 /\ b = None \/
  late = true /\ t = None /\ f0 = None /\ f = Some W /\ b = None \/
  late = true /\ is_Some f0 /\ f = None /\ b = f0.

Lemma wp_publish s n f0 (D : Store -> Prop) :
  (forall s', leftover s f0 s' -> D s') -> D (put s None (Some W) f0) ->
  wps n (publish T F B (artifact_paths parquet a))
    (fun n' r s' =>
       match r with
       | Ok old => old = bool_decide (is_Some f0) /\ s' = put s None (Some W) f0
       | Err _ => (n' < n)%nat /\ exists t f b, s' = put s t f b /\ left_with s f0 f b /\ (n = S n' -> unpublished f0 t f b)
       end) D (put s (Some W) f0 None).
Proof.
  intros HD D3. unfold publish. eapply wp_try; [eapply wp_mono; [apply wp_budget, wp_files_there; by apply HD| |done]|..].
  { intros n' r s' (L & E & Hr). instantiate (1 := fun n' e s' => (n' < n)%nat /\ s' = put s (Some W) f0 None).
    instantiate (1 := fun n' _ s' => s' = put s (Some W) f0 None /\ (n' <= n)%nat). destruct r; cbn; auto. }
  { cbn. intros n' e s' [L ->]. split; [done|]. exists (Some W), f0, None. split_and!; [done..|]. intros _. by left. }
  intros n1 _ s1 [-> L1] _. eapply wp_look; [by apply HD|intros fl; cbn [perform]; by rewrite put_F|]. intros n2 L2. cbn [prog_bind].
  destruct f0 as [o|]; [rewrite bool_decide_eq_true_2 by done|rewrite bool_decide_eq_false_2 by by intros []].
  - eapply wp_try; [apply wp_rename_FB; by apply HD|..]; cbn beta.
    { intros n3 e s3 [E [->|[L ->]]]; (split; [lia|]); do 3 eexists; (split; [done|]); (split; [done|]); intros _;
        [by left|right; right; eauto]. }
    intros n3 _ s3 [-> ->] _. eapply wp_seq; [apply wp_rename_TF; [by apply HD|done]|]. cbn beta.
    intros n4 [u|e] s4 H _; [destruct H as [-> ->]; by apply wp_ret|].
    assert (Hs : exists t f, s4 = put s t f (Some o)) by (destruct H as [_ [->|[_ ->]]]; eauto).
    destruct Hs as (t & f & ->). destruct H as [E _]. 
    eapply wp_look; [by apply HD|intros fl; cbn [perform]; by rewrite put_B|]. intros n5 L5. cbn [prog_bind].
    rewrite bool_decide_eq_true_2 by done. cbn [andb].
    eapply wp_seq; [apply wp_restore; exact HD|]. cbn beta. intros n6 [u|e'] s6 [L6 H] _.
    + subst s6. apply wp_ret; [by apply HD|]. split; [lia|]. do 3 eexists. split; [done|]. split; [done|]. intros _. by left.
    + destruct H as (f' & b' & -> & H). apply wp_ret; [by apply HD|]. split; [lia|]. do 3 eexists. split; [done|].
      split; [done|]. lia.
  - cbn [ok try_bind prog_bind]. eapply wp_seq; [apply wp_rename_TF; [by apply HD|done]|]. cbn beta.
    intros n4 [u|e] s4 H _; [destruct H as [-> ->]; by apply wp_ret|].
    assert (Hs : exists t f, s4 = put s t f None /\ unpublished None t f None)
      by (destruct H as [_ [->|[L ->]]]; do 2 eexists; (split; [done|]); [by left|right; left; auto]).
    destruct Hs as (t & f & -> & Hu). destruct H as [E _].
    eapply wp_look; [by apply HD|intros fl; cbn [perform]; by rewrite put_B|]. intros n5 L5. cbn [prog_bind andb].
    apply wp_ret; [by apply HD|]. split; [lia|]. do 3 eexists. split; [done|]. split; [done|]. by intros _.
Qed.
Section Undo.
Variables (s : Store) (f0 : option Dir) (D : Store -> Prop).
Hypothesis HD : forall s', leftover s f0 s' -> D s'.

(** Before the files were published only the temporary directory is removed. *)
Lemma wp_undo_unpublished n e t f b :
  left_with s f0 f b ->
  wps n (undo_save strategy a false false e)
    (fun n' r s' => is_ok r = false /\ leftover s f0 s' /\ (n' = n -> s' = put s None f b)) D (put s t f b).
Proof using HD.
  intros HL. unfold undo_save. eapply wp_look; [by apply HD|intros fl; cbn [perform]; by rewrite put_T|].
  intros n1 L1. cbn [prog_bind].
  assert (End : forall n2, (n2 <= n)%nat -> wps n2
    (do! b0 := Ret false in do! f1 := act (PathExists F) in
     try! _u := (if b0 then try! _u := (if f1 then act (Rmtree F) else ok tt) in act (Rename B F)
                 else if false && f1 then act (Rmtree F) else ok tt) in raise e)
    (fun n' (r : result exn unit) s' => is_ok r = false /\ leftover s f0 s' /\ (n' = n -> s' = put s None f b)) D (put s None f b)).
  { intros n2 L2. cbn [prog_bind]. eapply wp_look; [by apply HD|done|]. intros n3 L3.
    cbn [andb prog_bind try_bind ok]. apply wp_ret; [by apply HD|]. done. }
  destruct t as [t|]; [rewrite bool_decide_eq_true_2 by done|rewrite bool_decide_eq_false_2 by by intros []].
  2: { cbn [ok try_bind prog_bind]. by apply End. }
  apply wp_act; [by apply HD| |intros m|intros m n' ->]; cbn [perform]; rewrite put_T; cbn [fst snd prog_bind].
  - rewrite put_del_T. by apply End.
  - rewrite put_set_T. by apply HD.
  - rewrite put_set_T. apply wp_ret; [by apply HD|]. split; [done|]. split; [done|]. lia.
Qed.

(** After they were published they are removed and the old result put back. *)
Lemma wp_undo_published n e d :
  wps n (undo_save strategy a true (bool_decide (is_Some f0)) e)
    (fun n' r s' => is_ok r = false /\ leftover s f0 s' /\ (n' = n -> s' = put s None f0 None)) D (put s None (Some d) f0).
Proof using HD.
  unfold undo_save. eapply wp_look; [by apply HD|intros fl; cbn [perform]; by rewrite put_T|].
  intros n1 L1. rewrite bool_decide_eq_false_2 by by intros []. cbn [prog_bind try_bind ok].
  assert (Look : forall n2 (k : bool -> prog Cmd (result exn unit)) Q,
    (forall n3, (n3 <= n2)%nat -> wps n3 (k true) Q D (put s None (Some d) f0)) ->
    wps n2 (do! x := act (PathExists F) in k x) Q D (put s None (Some d) f0)).
  { intros n2 k Q Hk. eapply wp_look; [by apply HD|intros fl; cbn [perform]; by rewrite put_F|].
    intros n3 L3. cbn [prog_bind]. rewrite bool_decide_eq_true_2 by done. auto. }
  destruct f0 as [o|]; [rewrite bool_decide_eq_true_2 by done|rewrite bool_decide_eq_false_2 by by intros []].
  - eapply wp_look; [by apply HD|intros fl; cbn [perform]; by rewrite put_B|]. intros n2 L2.
    rewrite bool_decide_eq_true_2 by done. cbn [prog_bind]. apply Look. intros n3 L3. cbn [prog_bind try_bind].
    apply wp_act; [by apply HD|..].
    + cbn [perform]. rewrite put_F. cbn [fst snd prog_bind]. rewrite put_del_F.
      apply wp_act; [by apply HD|..].
      * rewrite rename_BF. cbn [fst snd]. apply wp_ret; [by apply HD|]. cbn. auto.
      * intros m. destruct (rename_fails_BF s None o m) as [_ [->|[_ ->]]]; by apply HD.
      * intros m n' ->. destruct (rename_fails_BF s None o m) as [-> [->|[_ ->]]]; (apply wp_ret; [by apply HD|]);
          (split; [done|]); (split; [auto|lia]).
    + intros m. cbn [perform]. rewrite put_F. cbn [fst]. rewrite put_set_F. by apply HD.
    + intros m n' ->. cbn [perform]. rewrite put_F. cbn [fst snd prog_bind]. rewrite put_set_F.
      apply wp_ret; [by apply HD|]. split; [done|]. split; [auto|lia].
  - cbn [prog_bind]. apply Look. intros n3 L3. cbn [andb prog_bind try_bind]. apply wp_act; [by apply HD|..].
    + cbn [perform]. rewrite put_F. cbn [fst snd prog_bind]. rewrite put_del_F. apply wp_ret; [by apply HD|]. cbn. auto.
    + intros m. cbn [perform]. rewrite put_F. cbn [fst]. rewrite put_set_F. by apply HD.
    + intros m n' ->. cbn [perform]. rewrite put_F. cbn [fst snd prog_bind]. rewrite put_set_F.
      apply wp_ret; [by apply HD|]. split; [done|]. split; [auto|lia].
Qed.

End Undo.

(** ** What a save commits *)

Definition rows_of : list ArtifactRow :=
  default [] (mapM (artifact_db_row row_count a strategy (files_of a)) (artifact_paths parquet a)).

(** The transaction is accepted: no null where none may be and no row twice. *)
Definition commits (s : Store) : bool :=
  forallb trade_storable (sa_trades a) &&
  negb (existsb (fun r => existsb (fun r' => bool_decide (trade_key r = trade_key r')) (trade_rows s)) (trade_db_rows a strategy)) &&
  negb (existsb (fun r => existsb (fun r' => bool_decide (artifact_key r = artifact_key r')) (artifact_rows s)) rows_of).

Definition committed (s : Store) : Store :=
  mkStore (dirs s) (alter (done_row a) (sa_run a) (run_rows s)) (trade_rows s ++ trade_db_rows a strategy)
    (artifact_rows s ++ rows_of).

Lemma same_rows p : p ∈ artifact_paths parquet a ->
  artifact_db_row row_count a strategy W p = artifact_db_row row_count a strategy (files_of a) p.
Proof.
  intros H. pose proof H as (c1 & E1 & _)%(artifact_path_file stale). unfold artifact_db_row. rewrite E1.
  assert (E2 : files_of a !! p.2 = Some c1); [|by rewrite E2].
  apply list_elem_of_omap in H as ([[[ty|] file] content] & H & E); [|done]. cbn in E. simplify_eq. cbn [fst snd] in *.
  unfold files_of. by rewrite (published_lookup stale a (Some ty) file content H) in E1; rewrite (published_lookup ∅ a (Some ty) file content H).
Qed.

Lemma artifact_rows_made : mapM (artifact_db_row row_count a strategy W) (artifact_paths parquet a) = Some rows_of.
Proof using row_count_parquet.
  rewrite (Forall_mapM_ext _ (artifact_db_row row_count a strategy (files_of a))) by (apply Forall_forall; apply same_rows). unfold rows_of. destruct (mapM _ _) eqn:E; [done|]. apply mapM_None in E. exfalso.
  apply Exists_exists in E as (p & H & E). destruct (artifact_path_file ∅ a p H) as (content & C & Hl).
  unfold artifact_db_row, files_of in E. rewrite C in E. destruct (counted p.1) eqn:K; [|done].
  destruct (Hl eq_refl) as [l ->]. by rewrite row_count_parquet in E.
Qed.

Lemma put_committed s t f b : put (committed s) t f b =
  mkStore (dirs (put s t f b)) (run_rows (committed s)) (trade_rows (committed s)) (artifact_rows (committed s)).
Proof. done. Qed.

Lemma commit_put s b :
  perf _ (CommitResult strategy a) None (put s None (Some W) b) =
  if commits s then (put (committed s) None (Some W) b, Ok tt)
  else (put s None (Some W) b, Err DatabaseError).
Proof using row_count_parquet.
  cbn [perform]. unfold commit_result. rewrite put_F. cbn [from_option id default]. rewrite artifact_rows_made.
  unfold commits. cbn [trade_rows artifact_rows put set_dirs].
  destruct (forallb _ _); [|done]. cbn [negb orb andb].
  destruct (existsb _ (trade_db_rows a strategy)); [done|]. cbn [negb orb andb].
  by destruct (existsb _ rows_of).
Qed.

(** What a save may leave when its process dies. *)
Definition interrupted_save (s s' : Store) : Prop :=
  leftover s (dirs s !! F) s' \/ commits s = true /\
  exists b, s' = put (committed s) None (Some W) b /\ (dirs s !! F = None -> b = None).

(** The body of the [try]. *)
Lemma wp_save_body n f0 (D : Store -> Prop) s :
  f0 = dirs s !! F -> (forall s', interrupted_save s s' -> D s') ->
  wps n (save_body parquet strategy a)
    (fun n' r s' =>
       match r with
       | (true, backup, Ok _) => commits s = true /\ backup = bool_decide (is_Some f0) /\ (n' <= n)%nat /\
                                 s' = put (committed s) None (Some W) f0
       | (true, backup, Err _) => (n' < n \/ commits s = false /\ n' <= n)%nat /\ backup = bool_decide (is_Some f0) /\
                                  s' = put s None (Some W) f0
       | (false, backup, r) => is_ok r = false /\ backup = false /\ (n' < n)%nat /\
           exists t f b, s' = put s t f b /\ left_with s f0 f b /\ (n = S n' -> unpublished f0 t f b)
       end) D (put s (Some stale) f0 None).
Proof using row_count_parquet.
  intros E0 HD. assert (HL : forall s', leftover s f0 s' -> D s') by (intros; apply HD; left; by rewrite <- E0).
  assert (HW : D (put s None (Some W) f0)) by (apply HL, leftover_backup).
  assert (Before : forall n' t, (n' < n)%nat -> (n' < n)%nat /\ exists t' f b, put s (Some t) f0 None = put s t' f b /\
            left_with s f0 f b /\ (n = S n' -> unpublished f0 t' f b)).
  { intros n' t L. split; [done|]. exists (Some t), f0, None. split_and!; [done..|]. intros _. by left. }
  unfold save_body. eapply wp_seq.
  - instantiate (1 := fun n' r s' => match r with
      | Ok old => (n' <= n)%nat /\ old = bool_decide (is_Some f0) /\ s' = put s None (Some W) f0
      | Err _ => (n' < n)%nat /\ exists t f b, s' = put s t f b /\ left_with s f0 f b /\ (n = S n' -> unpublished f0 t f b) end).
    apply wp_act; [by apply HL|..]; [|intros m; cbn [perform fst]; by apply HL|].
    2: { intros m n' ->. cbn [perform fst snd]. apply wp_ret; [by apply HL|]. apply Before. lia. }
    cbn [perform fst snd prog_bind].
    eapply wp_try; [eapply wp_mono; [apply wp_budget, wp_writes; intros; by apply HL| |done]|..].
    { intros n1 r s1 [L H].
      instantiate (1 := fun n1 e s1 => (n1 < n)%nat /\ exists t, s1 = put s (Some t) f0 None).
      instantiate (1 := fun n1 _ s1 => (n1 <= n)%nat /\ s1 = put s (Some W) f0 None). destruct r; auto. }
    { intros n1 e s1 (L & t & ->). by apply Before. }
    intros n1 _ s1 [L1 ->] _.
    eapply wp_try; [eapply wp_mono; [apply wp_budget, wp_count_rows; by apply HL| |done]|..].
    { intros n2 r s2 (L & H & Hr).
      instantiate (1 := fun n2 e s2 => (n2 < n)%nat /\ s2 = put s (Some W) f0 None).
      instantiate (1 := fun n2 _ s2 => (n2 <= n)%nat /\ s2 = put s (Some W) f0 None).
      destruct r; cbn in *; (split; [|done]); [lia|]. specialize (Hr eq_refl). lia. }
    { intros n2 e s2 (L & ->). by apply Before. }
    intros n2 _ s2 [L2 ->] _.
    eapply wp_mono; [apply wp_budget, wp_publish; [exact HL|exact HW]| |done].
    intros n3 [old|e] s3 [L3 H]; [destruct H as [-> ->]; split; [lia|done]|].
    destruct H as (L & t & f & b & -> & Hl & Hu). split; [lia|]. exists t, f, b. split_and!; [done|done|]. intros E. apply Hu. lia.
  - intros n1 [old|e] s1 H _; [|apply wp_ret; [destruct H as (L & t & f & b & -> & H & _); by apply HL|destruct H; auto]].
    destruct H as (L & -> & ->). cbn beta iota. apply wp_act; [by apply HL|..].
    + rewrite commit_put. destruct (commits s) eqn:C; cbn [fst snd].
      * apply wp_ret; [apply HD; right; split; [done|]; exists f0; split; [done|congruence]|]. auto.
      * apply wp_ret; [by apply HL|]. auto.
    + intros m. cbn [perform fst]. by apply HL.
    + intros m n' ->. cbn [perform snd fst]. apply wp_ret; [by apply HL|]. split; [left; lia|done].
Qed.

Lemma interrupted_leftover s s' : leftover s (dirs s !! F) s' -> interrupted_save s s'.
Proof. by left. Qed.
Hint Resolve interrupted_leftover : core.

(** What a save that raises leaves of a store: the store, or the store without
    a stale temporary directory; after a failed rename that was made, also a
    first result without rows, or the old one under its backup's name. *)
Definition undone (renamed : Prop) (s s' : Store) : Prop :=
  s' = s \/ s' = put s None (dirs s !! F) None \/
  renamed /\ late = true /\
    (dirs s !! F = None /\ s' = put s None (Some W) None \/
     is_Some (dirs s !! F) /\ s' = put s None None (dirs s !! F)).

Lemma mkdir_T s t f b : perf _ (MkDir T) None (put s t f b) = (put s (Some (default ∅ t)) f b, Ok tt).
Proof. cbn [perform]. rewrite put_T. destruct t as [t|]; [done|]. by rewrite put_set_T. Qed.

(** [save_result] under a fresh name for the backup. *)
Lemma wp_save_result n s :
  dirs s !! B = None -> stale = default ∅ (dirs s !! T) -> strategy = default "" (rw_strategy <$> run_rows s !! sa_run a) ->
  wps n (save_result parquet a)
    (fun n' r s' =>
       match r with
       | Ok _ => commits s = true /\ is_Some (run_rows s !! sa_run a) /\
                 exists b, s' = put (committed s) None (Some W) b /\ (n' = n -> b = None)
       | Err _ => leftover s (dirs s !! F) s' /\
                  ((n <= n' + if commits s then 1 else 0)%nat -> undone (n = S n') s s')
       end) (interrupted_save s) s.
Proof using row_count_parquet.
  intros HB HT HS. remember (dirs s !! F) as f0 eqn:HF.
  assert (P : put s (dirs s !! T) f0 None = s) by (rewrite HF, <- HB at 1; apply put_self).
  assert (L0 : leftover s f0 s) by (rewrite <- P at 2; apply leftover_here).
  assert (HL : forall s', leftover s f0 s' -> interrupted_save s s') by (intros; left; by rewrite <- HF).
  assert (Same : forall n' (e : exn), wps n' (Ret (Err e)) (fun n' (r : result exn unit) s' =>
    match r with
    | Ok _ => commits s = true /\ is_Some (run_rows s !! sa_run a) /\
              exists b, s' = put (committed s) None (Some W) b /\ (n' = n -> b = None)
    | Err _ => leftover s f0 s' /\ ((n <= n' + if commits s then 1 else 0)%nat -> undone (n = S n') s s') end) (interrupted_save s) s).
  { intros n' e. apply wp_ret; [by apply HL|]. split; [done|]. intros _. by left. }
  unfold save_result, try_bind at 1. cbn [act prog_bind]. apply wp_act; [by apply HL|..]; cbn [perform fst snd];
    [|by intros _; apply HL|by intros; apply Same].
  rewrite <- HS. unfold check_path. destruct (valid_component strategy && _) eqn:V; [|by apply Same].
  cbn [ok try_bind prog_bind].
  assert (HR : is_Some (run_rows s !! sa_run a)).
  { destruct (run_rows s !! sa_run a) as [row|]; [done|]. cbn in HS. by rewrite HS in V. }
  assert (Made : perf _ (MkDir T) None s = (put s (Some stale) f0 None, Ok tt)).
  { rewrite HT, <- P at 1. apply mkdir_T. }
  apply wp_act; [by apply HL|rewrite Made; cbn [fst snd]|by intros m; apply HL|intros m n' ->; by apply Same].
  cbn [prog_bind]. eapply wp_seq; [by apply (wp_save_body n f0)|].
  intros n1 [[published backup] r] s1 H _. destruct r as [u|e].
  - destruct published; [|by destruct H]. destruct H as (C & -> & L & ->).
    assert (D1 : forall b, (f0 = None -> b = None) -> interrupted_save s (put (committed s) None (Some W) b))
      by (intros; right; split; [done|]; eexists; split; [done|]; by rewrite <- HF).
    destruct f0 as [o|]; [rewrite bool_decide_eq_true_2 by done|rewrite bool_decide_eq_false_2 by by intros []].
    + eapply wp_look; [by apply D1|intros fl; cbn [perform]; by rewrite put_B|]. intros n2 L2. cbn [prog_bind].
      rewrite bool_decide_eq_true_2 by done.
      apply wp_act; [by apply D1| |intros m|intros m n' ->]; cbn [perform]; rewrite put_B; cbn [fst snd prog_bind].
      * rewrite put_del_B. apply wp_ret; [by apply D1|]. eauto 6.
      * rewrite put_set_B. by apply D1.
      * rewrite put_set_B. apply wp_ret; [by apply D1|]. split; [done|]. split; [done|].
        eexists. split; [done|lia].
    + apply wp_ret; [by apply D1|]. eauto 6.
  - destruct published.
    + destruct H as (L & -> & ->). eapply wp_mono; [apply wp_budget, wp_undo_published; by apply HL| |done].
      intros n2 [u|e'] s2 (L2 & Hr & Hl & E); [done|]. split; [done|]. intros Hn. right. left. rewrite <- HF. apply E.
      destruct (commits s); [lia|]. destruct L as [L|[_ L]]; lia.
    + destruct H as (_ & -> & L & t & f & b & -> & Hl & Hn).
      eapply wp_mono; [apply wp_budget, (wp_undo_unpublished s f0 _ HL); exact Hl| |done].
      intros n2 [u|e'] s2 (L2 & Hr & Hl2 & E); [done|]. split; [done|]. intros Hs. destruct (commits s); [|lia].
      assert (n1 = n2) as -> by lia. specialize (E eq_refl). subst s2. unfold undone. rewrite <- HF.
      destruct (Hn ltac:(lia)) as [[-> ->]|[(Hl' & -> & -> & -> & ->)|(Hl' & Hf & -> & ->)]]; [by right; left|..];
        (right; right; split; [lia|]; split; [done|]); [by left|by right].
Qed.

End Save.

(** ** Recovery *)

(** The directories a recovery removes. *)
Definition doomed (s : Store) (k : DirKey) : bool :=
  match k with
  | (_, _, Backup _) => false
  | (strategy, run, _) => bool_decide ((run, strategy) ∈ interrupted s)
  end.

Definition no_backups (s : Store) : Prop := forall strategy run h, dirs s !! (strategy, run, Backup h) = None.

(** What a complete recovery makes of a store without backups. *)
Definition recovered (now : Z) (s : Store) : Store :=
  mkStore (filter (fun kv => doomed s kv.1 = false) (dirs s)) (fail_row now <$> run_rows s) (trade_rows s) (artifact_rows s).

(** Alike but for what a recovery removes anyway. *)
Definition agree (s s' : Store) : Prop :=
  run_rows s' = run_rows s /\ trade_rows s' = trade_rows s /\ artifact_rows s' = artifact_rows s /\
  forall k, doomed s k = false -> dirs s' !! k = dirs s !! k.

Definition valid_paths (p : string * string) : Prop := valid_component p.2 = true /\ valid_component p.1 = true.

Lemma agree_refl s : agree s s.
Proof. done. Qed.
Hint Resolve agree_refl : core.

Lemma agree_interrupted s s' : agree s s' -> interrupted s' = interrupted s.
Proof. intros (R & _). unfold interrupted. by rewrite R. Qed.

Lemma agree_doomed s s' k : agree s s' -> doomed s' k = doomed s k.
Proof. intros A. unfold doomed. by rewrite (agree_interrupted _ _ A). Qed.

Lemma recovered_lookup now s k : dirs (recovered now s) !! k = if doomed s k then None else dirs s !! k.
Proof.
  unfold recovered. cbn [dirs]. rewrite map_lookup_filter. destruct (dirs s !! k) as [d|]; [|by destruct (doomed s k)].
  cbn. destruct (doomed s k) eqn:E; case_guard; done.
Qed.

Lemma recovered_eq now s s' : agree s s' -> (forall k, doomed s k = true -> dirs s' !! k = None) ->
  set_runs (fail_row now <$> run_rows s') s' = recovered now s.
Proof.
  intros A H. pose proof A as (R & RT & RA & RD). unfold recovered, set_runs. rewrite R, RT, RA. f_equal.
  apply map_eq. intros k. pose proof (recovered_lookup now s k) as E. unfold recovered in E. cbn [dirs] in E. rewrite E.
  destruct (doomed s k) eqn:K; [by apply H|by apply RD].
Qed.

Lemma recovered_agree now s s' : agree s s' -> recovered now s' = recovered now s.
Proof.
  intros A. pose proof A as (R & RT & RA & RD). unfold recovered. rewrite R, RT, RA. f_equal.
  apply map_eq. intros k. pose proof (recovered_lookup now s k) as E1. pose proof (recovered_lookup now s' k) as E2.
  unfold recovered in E1, E2. cbn [dirs] in E1, E2. rewrite E1, E2, (agree_doomed _ _ _ A).
  destruct (doomed s k) eqn:K; [done|by apply RD].
Qed.

Lemma agree_no_backups s s' : agree s s' -> no_backups s -> no_backups s'.
Proof. intros (_ & _ & _ & RD) H st r h. by rewrite RD. Qed.

Lemma agree_dir s s' d k : doomed s k = true -> agree s s' -> agree s (set_dirs (partial_alter d k (dirs s')) s').
Proof.
  intros K (R & RT & RA & RD). split_and!; [done..|]. intros k' K'. cbn [dirs set_dirs].
  rewrite lookup_partial_alter_ne by congruence. by apply RD.
Qed.

Lemma backups_none s strategy run : no_backups s -> backups_of strategy run s = [].
Proof.
  intros H. unfold backups_of.
  assert (F : forall x, x ∈ map_to_list (dirs s) -> exists st r k d, x = (st, r, k, d) /\ forall h, k <> Backup h).
  { intros [[[st r] k] d] E%elem_of_map_to_list. exists st, r, k, d. split; [done|]. intros h ->. by rewrite H in E. }
  induction (map_to_list (dirs s)) as [|x l IH]; [done|]. cbn.
  destruct (F x ltac:(left)) as (st & r & k & d & -> & N). destruct k as [| |h]; [..|by destruct (N h)]; apply IH; intros; apply F; by right.
Qed.

(** The base store of a recovery: no backups. *)
Section Recovery.
Variable s : Store.
Hypothesis HB : no_backups s.

(** Removing a directory if it is there. *)
Lemma wp_remove (D : Store -> Prop) n k s0 :
  doomed s k = true -> agree s s0 -> (forall s', agree s s' -> D s') ->
  wps n (remove k)
    (fun n' r s' => agree s s' /\ (forall k', dirs s0 !! k' = None -> dirs s' !! k' = None) /\
                    match r with Ok _ => dirs s' !! k = None | Err _ => (n' < n)%nat end) D s0.
Proof.
  intros K A HD. eapply wp_look; [by apply HD|done|]. intros n1 L1. cbn [prog_bind].
  destruct (dirs s0 !! k) as [d|] eqn:E; [rewrite bool_decide_eq_true_2 by done|rewrite bool_decide_eq_false_2 by by intros []].
  2: { apply wp_ret; [by apply HD|]. auto. }
  apply wp_act; [by apply HD| |intros m|intros m n' ->]; cbn [perform]; rewrite E; cbn [fst snd].
  - apply wp_ret; [apply HD; by apply (agree_dir _ _ (fun _ => None))|]. split; [by apply (agree_dir _ _ (fun _ => None))|]. cbn [dirs set_dirs]. split; [|by rewrite lookup_delete_eq].
    intros k' N. destruct (decide (k' = k)) as [->|]; [by rewrite lookup_delete_eq|by rewrite lookup_delete_ne].
  - apply HD. by apply (agree_dir _ _ (fun _ => Some _)).
  - apply wp_ret; [apply HD; by apply (agree_dir _ _ (fun _ => Some _))|].
    split; [by apply (agree_dir _ _ (fun _ => Some _))|]. split; [|lia]. cbn [dirs set_dirs].
    intros k' N. rewrite lookup_insert_ne by congruence. done.
Qed.

Lemma wp_rollback (D : Store -> Prop) n run strategy s0 :
  (run, strategy) ∈ interrupted s -> agree s s0 -> (forall s', agree s s' -> D s') ->
  wps n (rollback_publication strategy run)
    (fun n' r s' => agree s s' /\ (forall k', dirs s0 !! k' = None -> dirs s' !! k' = None) /\
       match r with
       | Ok _ => dirs s' !! (strategy, run, Tmp) = None /\ dirs s' !! (strategy, run, Final) = None
       | Err _ => valid_paths (run, strategy) -> (n' < n)%nat
       end) D s0.
Proof using HB.
  intros I A HD. unfold rollback_publication, check_path.
  destruct (valid_component strategy && valid_component run) eqn:V.
  2: { apply wp_ret; [by apply HD|]. split; [done|]. split; [done|]. intros [V1 V2]. cbn in V1, V2. by rewrite V1, V2 in V. }
  cbn [ok try_bind prog_bind]. eapply wp_look; [by apply HD|done|]. intros n1 L1.
  rewrite backups_none by by eapply agree_no_backups. cbn [prog_bind length Nat.ltb Nat.leb].
  assert (KT : doomed s (strategy, run, Tmp) = true) by by apply bool_decide_eq_true_2.
  assert (KF : doomed s (strategy, run, Final) = true) by by apply bool_decide_eq_true_2.
  eapply wp_try.
  - eapply wp_mono; [apply wp_budget, (wp_remove D n1 _ s0 KT A HD)| |done]. intros n2 r s2 (L2 & A2 & N2 & H).
    instantiate (1 := fun n2 e s2 => agree s s2 /\ (forall k', dirs s0 !! k' = None -> dirs s2 !! k' = None) /\ (n2 < n)%nat).
    instantiate (1 := fun n2 _ s2 => agree s s2 /\ (forall k', dirs s0 !! k' = None -> dirs s2 !! k' = None) /\
      dirs s2 !! (strategy, run, Tmp) = None /\ (n2 <= n)%nat). destruct r; split_and!; auto; lia.
  - intros n2 e s2 (A2 & N2 & L2). split_and!; auto.
  - intros n2 _ s2 (A2 & N2 & H & L2) _. eapply wp_mono; [apply (wp_remove D n2 _ s2 KF A2 HD)| |done].
    intros n3 r s3 (A3 & N3 & H3). split_and!; auto. destruct r; [auto|lia].
Qed.

Lemma wp_rollbacks (D : Store -> Prop) l n s0 :
  (forall p, p ∈ l -> p ∈ interrupted s) -> agree s s0 -> (forall s', agree s s' -> D s') ->
  wps n (each l (fun '(run, strategy) => rollback_publication strategy run))
    (fun n' r s' => agree s s' /\ (forall k', dirs s0 !! k' = None -> dirs s' !! k' = None) /\
       match r with
       | Ok _ => forall run strategy, (run, strategy) ∈ l ->
                   dirs s' !! (strategy, run, Tmp) = None /\ dirs s' !! (strategy, run, Final) = None
       | Err _ => Forall valid_paths l -> (n' < n)%nat
       end) D s0.
Proof using HB.
  intros Hl A HD. revert n s0 A. induction l as [|[run strategy] l IH]; intros n s0 A; cbn [each].
  { apply wp_ret; [by apply HD|]. split_and!; [done..|]. intros run strategy []%elem_of_nil. }
  eapply wp_try.
  - eapply wp_mono; [apply wp_budget, (wp_rollback D n run strategy s0); [apply Hl; left|done|done]| |done].
    intros n1 r s1 (L & A1 & N1 & H).
    instantiate (1 := fun n1 e s1 => agree s s1 /\ (forall k', dirs s0 !! k' = None -> dirs s1 !! k' = None) /\
      (valid_paths (run, strategy) -> (n1 < n)%nat)).
    instantiate (1 := fun n1 _ s1 => agree s s1 /\ (forall k', dirs s0 !! k' = None -> dirs s1 !! k' = None) /\ (n1 <= n)%nat /\
      dirs s1 !! (strategy, run, Tmp) = None /\ dirs s1 !! (strategy, run, Final) = None). destruct r; auto.
  - intros n1 e s1 (A1 & N1 & H). split_and!; auto. intros V. inversion V. auto.
  - intros n1 _ s1 (A1 & N1 & L1 & T1 & F1) _. eapply wp_mono; [apply (IH (fun p Hp => Hl p (list_elem_of_further _ _ _ Hp)) n1 s1 A1)| |done].
    intros n2 r s2 (A2 & N2 & H2). split_and!; auto. destruct r as [u|e].
    + intros r' st' [E|E]%elem_of_cons; [simplify_eq; auto|auto].
    + intros V. inversion V. specialize (H2 ltac:(done)). lia.
Qed.

(** The whole recovery, begun anywhere an earlier one broke off. *)
Lemma wp_recover n now s0 :
  agree s s0 ->
  wps n (recover_incomplete_runs now)
    (fun n' r s' =>
       match r with
       | Ok k => s' = recovered now s /\ k = Z.of_nat (length (interrupted s))
       | Err _ => agree s s' /\ (Forall valid_paths (interrupted s) -> (n' < n)%nat)
       end) (fun s' => agree s s' \/ s' = recovered now s) s0.
Proof using HB.
  intros A. unfold recover_incomplete_runs. eapply wp_try.
  - instantiate (1 := fun n' e s' => agree s s' /\ (n' < n)%nat).
    instantiate (1 := fun n' l s' => l = interrupted s /\ s' = s0 /\ (n' <= n)%nat).
    apply wp_act; [by left| |intros m|intros m n' ->]; cbn [perform fst snd].
    + apply wp_ret; [by left|]. cbn. by rewrite (agree_interrupted _ _ A).
    + by left.
    + apply wp_ret; [by left|]. split; [done|lia].
  - intros n1 e s1 [A1 L1]. split; [done|intros; lia].
  - intros n1 l s1 (-> & -> & L1) _. eapply wp_try.
    + eapply wp_mono; [apply wp_budget, (wp_rollbacks (fun s' => agree s s' \/ s' = recovered now s)); auto| |done].
      intros n2 r s2 (L2 & A2 & _ & H2).
      instantiate (1 := fun n2 e s2 => agree s s2 /\ (Forall valid_paths (interrupted s) -> (n2 < n)%nat)).
      instantiate (1 := fun n2 _ s2 => agree s s2 /\ (n2 <= n)%nat /\ forall run strategy, (run, strategy) ∈ interrupted s ->
                   dirs s2 !! (strategy, run, Tmp) = None /\ dirs s2 !! (strategy, run, Final) = None).
      destruct r; [split_and!; [done|lia|done]|]. split; [done|]. intros V. specialize (H2 V). lia.
    + auto.
    + intros n2 _ s2 (A2 & L2 & H2) _.
      assert (E : set_runs (fail_row now <$> run_rows s2) s2 = recovered now s).
      { apply recovered_eq; [done|]. intros [[st run] [| |h]] K; [..|done]; apply bool_decide_eq_true in K; by apply H2. }
      apply wp_act; [by left| |intros m|intros m n' ->]; cbn [perform fst snd].
      * rewrite E, (agree_interrupted _ _ A2). apply wp_ret; [by right|done].
      * by left.
      * apply wp_ret; [by left|]. split; [done|]. intros _. lia.
Qed.

End Recovery.

(** A recovered store has nothing interrupted. *)
Lemma recovered_inactive now s run row : run_rows (recovered now s) !! run = Some row -> active row = false.
Proof.
  cbn [recovered run_rows]. rewrite lookup_fmap. intros (row' & _ & ->)%fmap_Some. unfold fail_row.
  destruct (active row') eqn:E; [|done]. by vm_compute.
Qed.

Lemma inactive_interrupted s : (forall run row, run_rows s !! run = Some row -> active row = false) -> interrupted s = [].
Proof.
  intros H. unfold interrupted.
  assert (F : forall x, x ∈ map_to_list (run_rows s) -> active x.2 = false)
    by (intros [run row] E%elem_of_map_to_list; by eapply H).
  induction (map_to_list _) as [|[run row] l IH]; [done|]. cbn. pose proof (F (run, row) ltac:(left)) as E. cbn in E.
  rewrite E. apply IH. intros; apply F; by right.
Qed.

Lemma recovered_interrupted now s : interrupted (recovered now s) = [].
Proof. apply inactive_interrupted. intros run row. apply recovered_inactive. Qed.

Lemma recovered_idle now s : (forall run row, run_rows s !! run = Some row -> active row = false) -> recovered now s = s.
Proof.
  intros H. pose proof (inactive_interrupted s H) as E. destruct s as [d rows ts ars]. unfold recovered. f_equal.
  - apply map_eq. intros k. pose proof (recovered_lookup now (mkStore d rows ts ars) k) as L. unfold recovered in L. cbn [dirs] in L.
    cbn [dirs]. rewrite L. destruct (doomed _ k) eqn:K; [|done]. destruct k as [[st run] [| |h]]; cbn in K; [..|done];
      apply bool_decide_eq_true in K; rewrite E in K; by apply not_elem_of_nil in K.
  - cbn [run_rows] in *. apply map_eq. intros run. rewrite lookup_fmap. destruct (rows !! run) as [row|] eqn:R; [|done].
    cbn. unfold fail_row. by rewrite (H run row R).
Qed.

Lemma recovered_twice now now' s : recovered now' (recovered now s) = recovered now s.
Proof. apply recovered_idle. intros run row. apply recovered_inactive. Qed.

Lemma recovered_no_backups now s : no_backups s -> no_backups (recovered now s).
Proof. intros H st r h. rewrite recovered_lookup. cbn. by rewrite H. Qed.

(** ** What a recovery does when nothing fails *)

Lemma elem_of_backups st run h s : h ∈ backups_of st run s <-> is_Some (dirs s !! (st, run, Backup h)).
Proof.
  unfold backups_of. rewrite list_elem_of_omap. split.
  - intros ([[[st' run'] k] d] & E%elem_of_map_to_list & H). destruct k as [| |h']; try done.
    case_bool_decide as C; [|done]. destruct C as [-> ->]. simplify_eq. eauto.
  - intros [d E]. exists (st, run, Backup h, d). split; [by apply elem_of_map_to_list|]. cbn. by rewrite bool_decide_eq_true_2.
Qed.

Lemma backups_NoDup st run s : NoDup (backups_of st run s).
Proof.
  unfold backups_of. pose proof (NoDup_fst_map_to_list (dirs s)) as N. revert N.
  assert (G : forall l : list (DirKey * Dir), NoDup l.*1 -> NoDup (omap (fun '((st0, r, k), _) =>
    match k with Backup h => if bool_decide (st0 = st /\ r = run) then Some h else None | _ => None end) l)); [|apply G].
  intros l. induction l as [|[[[st' run'] k] d] l IH]; cbn; intros N; [constructor|]. apply NoDup_cons in N as [N1 N].
  destruct k as [| |h]; [by apply IH..|]. case_bool_decide as C; [|by apply IH]. destruct C as [-> ->].
  constructor; [|by apply IH]. rewrite list_elem_of_omap. intros ([[[st' run'] k] d'] & E & H).
  destruct k as [| |h']; try done. case_bool_decide as C; [|done]. destruct C as [-> ->]. simplify_eq.
  apply N1. apply list_elem_of_fmap. by exists (st, run, Backup h, d').
Qed.

(** At most one backup, as the recovery wants it, and what is in it. *)
Definition one_backup (s : Store) (p : string * string) : Prop :=
  forall h h', is_Some (dirs s !! (p.2, p.1, Backup h)) -> is_Some (dirs s !! (p.2, p.1, Backup h')) -> h = h'.

Definition backed_up (s : Store) (p : string * string) : option Dir :=
  match backups_of p.2 p.1 s with h :: _ => dirs s !! (p.2, p.1, Backup h) | [] => None end.

Lemma one_backup_cases s p : one_backup s p ->
  backups_of p.2 p.1 s = [] /\ backed_up s p = None /\ (forall h, dirs s !! (p.2, p.1, Backup h) = None) \/
  exists h d, backups_of p.2 p.1 s = [h] /\ backed_up s p = Some d /\ dirs s !! (p.2, p.1, Backup h) = Some d /\
              (forall h', h' <> h -> dirs s !! (p.2, p.1, Backup h') = None).
Proof.
  intros O. pose proof (backups_NoDup p.2 p.1 s) as N. pose proof (fun h => elem_of_backups p.2 p.1 h s) as M. unfold backed_up.
  destruct (backups_of p.2 p.1 s) as [|h l].
  - left. split_and!; [done..|]. intros h. apply eq_None_not_Some. intros H%M. by apply not_elem_of_nil in H.
  - right. destruct (proj1 (M h) ltac:(left)) as [d E]. exists h, d. split_and!; [|done..|].
    + destruct l as [|h' l]; [done|]. apply NoDup_cons in N as [N _]. exfalso. apply N.
      rewrite (O h h'); [left|by eauto|apply M; by right; left].
    + intros h' Hne. apply eq_None_not_Some. intros H. apply Hne. by apply O; [|eauto].
Qed.

Lemma backed_up_eq s s' p : one_backup s p -> (forall h, dirs s' !! (p.2, p.1, Backup h) = dirs s !! (p.2, p.1, Backup h)) ->
  one_backup s' p /\ backed_up s' p = backed_up s p.
Proof.
  intros O E. assert (O' : one_backup s' p) by (intros h h'; rewrite !E; apply O). split; [done|].
  destruct (one_backup_cases s p O) as [(_ & -> & N)|(h & d & _ & -> & D & N)];
    destruct (one_backup_cases s' p O') as [(_ & -> & N')|(h' & d' & _ & -> & D' & N')]; [done|..].
  - rewrite E, N in D'. done.
  - rewrite <- E, N' in D. done.
  - destruct (decide (h' = h)) as [->|Hne]; [congruence|]. rewrite E, (N _ Hne) in D'. done.
Qed.

Abbreviation run_perf := (run_ok perf).

Lemma remove_ok k s : run_perf (remove k) s = (set_dirs (delete k (dirs s)) s, Ok tt).
Proof.
  unfold remove. cbn [act prog_bind run_ok perform]. destruct (dirs s !! k) as [d|] eqn:E.
  - rewrite bool_decide_eq_true_2 by done. cbn [act run_ok perform]. by rewrite E.
  - rewrite bool_decide_eq_false_2 by by intros []. cbn [ok run_ok]. rewrite delete_id by done. by destruct s.
Qed.

(** The store after the rollback of one run. *)
Definition rolled (s : Store) (p : string * string) : Store :=
  set_dirs (partial_alter (fun _ => backed_up s p) (p.2, p.1, Final)
             (filter (fun kv => kv.1.1 <> (p.2, p.1)) (dirs s))) s.

Lemma rolled_lookup s p st run k :
  dirs (rolled s p) !! (st, run, k) =
    if decide ((run, st) = p) then match k with Final => backed_up s p | _ => None end else dirs s !! (st, run, k).
Proof.
  unfold rolled. cbn [dirs set_dirs]. destruct p as [run0 st0]. cbn [fst snd]. destruct (decide ((run, st) = (run0, st0))) as [[= -> ->]|N].
  - destruct (decide (k = Final)) as [->|Nk]; [by rewrite lookup_partial_alter_eq|].
    rewrite lookup_partial_alter_ne by congruence. rewrite map_lookup_filter_None_2; [by destruct k|]. right. intros d _ H. by apply H.
  - rewrite lookup_partial_alter_ne by congruence. rewrite map_lookup_filter. destruct (dirs s !! (st, run, k)) as [d|]; [|done].
    cbn. case_guard as C; [done|]. by simplify_eq.
Qed.

Lemma rollback_ok s p : valid_paths p -> one_backup s p ->
  run_perf (rollback_publication p.2 p.1) s = (rolled s p, Ok tt).
Proof.
  intros [V1 V2] O. destruct p as [run st]. cbn [fst snd] in *. unfold rollback_publication, check_path. rewrite V1, V2.
  cbn [andb ok try_bind prog_bind run_ok act perform].
  assert (Eq : forall d, (forall st' run' k, d !! (st', run', k) = dirs (rolled s (run, st)) !! (st', run', k)) ->
                         set_dirs d s = rolled s (run, st)).
  { intros d H. unfold rolled, set_dirs. f_equal. apply map_eq. intros [[st' run'] k]. apply H. }
  destruct (one_backup_cases s _ O) as [(B & U & N)|(h & x & B & U & D & N)]; cbn [fst snd] in *; rewrite B;
    cbn [length Nat.ltb Nat.leb]; unfold try_bind; rewrite !run_ok_bind, remove_ok; cbn [fst snd].
  - rewrite remove_ok. f_equal. apply Eq. intros st' run' k. rewrite rolled_lookup. cbn [dirs set_dirs].
    destruct (decide _) as [[= -> ->]|Hne]; [|by rewrite !lookup_delete_ne by congruence]. rewrite U.
    destruct k as [| |h]; [by rewrite lookup_delete_eq|by rewrite lookup_delete_ne, lookup_delete_eq|].
    by rewrite !lookup_delete_ne.
  - rewrite run_ok_bind, remove_ok. cbn [fst snd act run_ok perform takes_effect dirs set_dirs].
    rewrite !lookup_delete_ne, D by done. rewrite lookup_delete_eq. cbn [default]. rewrite bool_decide_eq_true_2 by done.
    f_equal. apply Eq. intros st' run' k. rewrite rolled_lookup. cbn [dirs set_dirs].
    destruct (decide _) as [[= -> ->]|Hne].
    2: { rewrite lookup_insert_ne, !lookup_delete_ne by congruence. done. }
    rewrite U. destruct k as [| |h']; [by rewrite lookup_insert_eq|..].
    + by rewrite lookup_insert_ne, 2!lookup_delete_ne, lookup_delete_eq.
    + rewrite lookup_insert_ne by done. destruct (decide (h' = h)) as [->|Nh]; [by rewrite lookup_delete_eq|].
      rewrite !lookup_delete_ne by congruence. by apply N.
Qed.

Lemma rollbacks_ok l s : NoDup l -> Forall valid_paths l -> Forall (one_backup s) l ->
  exists s', run_perf (each l (fun '(run, strategy) => rollback_publication strategy run)) s = (s', Ok tt) /\
    run_rows s' = run_rows s /\ trade_rows s' = trade_rows s /\ artifact_rows s' = artifact_rows s /\
    forall st run k, dirs s' !! (st, run, k) =
      if decide ((run, st) ∈ l) then match k with Final => backed_up s (run, st) | _ => None end else dirs s !! (st, run, k).
Proof.
  revert s. induction l as [|p l IH]; intros s N V O.
  { exists s. split_and!; [done..|]. intros st run k. rewrite decide_False; [done|]. apply not_elem_of_nil. }
  apply NoDup_cons in N as [N1 N]. inversion_clear V as [|? ? Vp Vl]. inversion_clear O as [|? ? Op Ol].
  assert (Fr : forall q, q ∈ l -> one_backup s q -> one_backup (rolled s p) q /\ backed_up (rolled s p) q = backed_up s q).
  { intros q Hq Oq. apply backed_up_eq; [done|]. intros h. rewrite rolled_lookup. rewrite decide_False; [done|].
    destruct q. cbn. by intros <-. }
  destruct (IH (rolled s p) N Vl) as (s' & E & R & RT & RA & RD).
  { rewrite Forall_forall in Ol |- *. intros q Hq. by apply Fr; [|apply Ol]. }
  exists s'. split.
  { cbn [each]. unfold try_bind. rewrite run_ok_bind. destruct p as [run st]. pose proof (rollback_ok s (run, st) Vp Op) as Rp.
    cbn [fst snd] in Rp. rewrite Rp. exact E. }
  split_and!; [done..|]. intros st run k. rewrite RD, rolled_lookup. destruct (decide ((run, st) = p)) as [<-|Hne].
  - rewrite (decide_False (P := _ ∈ l)) by done. rewrite decide_True by left. done.
  - destruct (decide ((run, st) ∈ l)) as [H|H].
    + rewrite decide_True by by right. destruct k; [|done..]. apply Fr; [done|]. rewrite Forall_forall in Ol. by apply Ol.
    + rewrite decide_False; [done|]. intros [?|?]%elem_of_cons; done.
Qed.

Lemma interrupted_NoDup s : NoDup (interrupted s).
Proof.
  unfold interrupted. pose proof (NoDup_fst_map_to_list (run_rows s)) as N. revert N. generalize (map_to_list (run_rows s)).
  intros l. induction l as [|[run row] l IH]; cbn; intros N; [constructor|]. apply NoDup_cons in N as [N1 N].
  destruct (active row); [|by apply IH]. constructor; [|by apply IH]. rewrite list_elem_of_omap.
  intros ([run' row'] & E & H). destruct (active row'); [|done]. simplify_eq. apply N1. apply list_elem_of_fmap. by exists (run, row').
Qed.

Lemma elem_of_interrupted s run st :
  (run, st) ∈ interrupted s <-> exists row, run_rows s !! run = Some row /\ active row = true /\ rw_strategy row = st.
Proof.
  unfold interrupted. rewrite list_elem_of_omap. split.
  - intros ([run' row] & E%elem_of_map_to_list & H). destruct (active row) eqn:A; [|done]. simplify_eq. eauto.
  - intros (row & E & A & <-). exists (run, row). split; [by apply elem_of_map_to_list|]. by rewrite A.
Qed.

(** What the recovery has done to a store: every interrupted run is failed and
    has no directory but, in its place, what was in its backup. *)
Definition recovered_to (now : Z) (s s' : Store) : Prop :=
  run_rows s' = fail_row now <$> run_rows s /\ trade_rows s' = trade_rows s /\ artifact_rows s' = artifact_rows s /\
  forall st run k, dirs s' !! (st, run, k) =
    if decide ((run, st) ∈ interrupted s) then match k with Final => backed_up s (run, st) | _ => None end
    else dirs s !! (st, run, k).

(** Nothing keeps the recovery from its end. *)
Definition recoverable (s : Store) : Prop := Forall (fun p => valid_paths p /\ one_backup s p) (interrupted s).

Lemma recovery_answers now s : recoverable s ->
  exists s', run_perf (recover_incomplete_runs now) s = (s', Ok (Z.of_nat (length (interrupted s)))) /\ recovered_to now s s'.
Proof.
  intros H. apply Forall_and in H as [V O].
  destruct (rollbacks_ok (interrupted s) s (interrupted_NoDup s) V O) as (s1 & E & R & RT & RA & RD).
  exists (set_runs (fail_row now <$> run_rows s1) s1). unfold recover_incomplete_runs, try_bind.
  cbn [act prog_bind run_ok perform]. rewrite run_ok_bind, E. cbn [fst snd act run_ok perform].
  assert (I : interrupted s1 = interrupted s) by (unfold interrupted; by rewrite R). rewrite I. split; [done|].
  split_and!; cbn [set_runs run_rows trade_rows artifact_rows dirs]; [by rewrite R|done..].
Qed.

(** ** What a recovery cannot touch

    Whatever backups there are: the rows of results stay, so do the directories
    of runs that are not interrupted, and no run gets a directory that has
    none. *)
Definition untouched (now : Z) (s s' : Store) : Prop :=
  trade_rows s' = trade_rows s /\ artifact_rows s' = artifact_rows s /\
  (run_rows s' = run_rows s \/ run_rows s' = fail_row now <$> run_rows s) /\
  (forall st run k, (run, st) ∉ interrupted s -> dirs s' !! (st, run, k) = dirs s !! (st, run, k)) /\
  (forall st run k, is_Some (dirs s' !! (st, run, k)) -> exists k', is_Some (dirs s !! (st, run, k'))).

Lemma untouched_dir now s s' st run k o :
  (run, st) ∈ interrupted s -> (is_Some o -> exists k', is_Some (dirs s' !! (st, run, k'))) -> untouched now s s' ->
  untouched now s (set_dirs (partial_alter (fun _ => o) (st, run, k) (dirs s')) s').
Proof.
  intros I Ho (RT & RA & RR & RD & RN). split_and!; [done..| |]; cbn [dirs set_dirs].
  - intros st' run' k' N. rewrite lookup_partial_alter_ne; [by apply RD|]. intros [= <- <- <-]. by destruct N.
  - intros st' run' k'. destruct (decide ((st', run', k') = (st, run, k))) as [[= -> -> ->]|N].
    + rewrite lookup_partial_alter_eq. intros H. destruct (Ho H) as [k1 H1]. by eapply RN.
    + rewrite lookup_partial_alter_ne by done. apply RN.
Qed.

Lemma untouched_rmtree now s st run k :
  (run, st) ∈ interrupted s -> forall f s', untouched now s s' -> untouched now s (perf _ (Rmtree (st, run, k)) f s').1.
Proof.
  intros I f s' U. cbn [perform]. destruct (dirs s' !! (st, run, k)) as [d|] eqn:E; [|by destruct f].
  destruct f; cbn [fst]; [apply (untouched_dir now s s' st run k (Some _) I)|apply (untouched_dir now s s' st run k None I)]; eauto.
Qed.

Lemma untouched_rename now s st run k k' :
  (run, st) ∈ interrupted s -> forall f s', untouched now s s' -> untouched now s (perf _ (Rename (st, run, k) (st, run, k')) f s').1.
Proof.
  intros I f s' U. cbn [perform]. destruct (takes_effect late f); [|done].
  destruct (dirs s' !! (st, run, k)) as [d|] eqn:E; [|done]. case_bool_decide; [|done]. cbn [fst].
  destruct U as (RT & RA & RR & RD & RN). split_and!; [done..| |]; cbn [dirs set_dirs].
  - intros st1 run1 k1 N. assert (forall x, (st, run, x) <> (st1, run1, k1)) by (intros x [= <- <- <-]; by destruct N).
    rewrite lookup_insert_ne, lookup_delete_ne by done. by apply RD.
  - intros st1 run1 k1. destruct (decide ((st, run) = (st1, run1))) as [[= <- <-]|N]; [intros _; by eapply (RN st run k)|].
    rewrite lookup_insert_ne, lookup_delete_ne by congruence. apply RN.
Qed.

Lemma each_keeps {X} I (l : list X) (g : X -> prog Cmd (result exn unit)) :
  (forall x, x ∈ l -> keeps perf I (g x)) -> keeps perf I (each l g).
Proof.
  intros H. induction l as [|x l IH]; [apply keeps_ret|]. apply keeps_try; [apply H; left|].
  intros _. apply IH. intros y Hy. apply H. by right.
Qed.

Lemma remove_untouched now s st run k : (run, st) ∈ interrupted s -> keeps perf (untouched now s) (remove (st, run, k)).
Proof.
  intros I. apply keeps_act; [done|]. intros []; [|apply keeps_ret].
  apply keeps_act; [by apply untouched_rmtree|intros; apply keeps_ret].
Qed.

Lemma rollback_untouched now s st run : (run, st) ∈ interrupted s -> keeps perf (untouched now s) (rollback_publication st run).
Proof.
  intros I. unfold rollback_publication. apply keeps_try; [unfold check_path; destruct (_ && _); apply keeps_ret|].
  intros _. apply keeps_act; [done|]. intros l. destruct (1 <? length l)%nat; [apply keeps_ret|].
  apply keeps_try; [by apply remove_untouched|]. intros _. destruct l as [|h l]; [by apply remove_untouched|].
  apply keeps_try; [by apply remove_untouched|]. intros _.
  apply keeps_act; [by apply untouched_rename|intros; apply keeps_ret].
Qed.

Lemma wp_recover_untouched n now s :
  wps n (recover_incomplete_runs now) (fun _ _ => untouched now s) (untouched now s) s.
Proof.
  assert (U0 : untouched now s s) by (split_and!; eauto). eapply wp_try.
  - instantiate (1 := fun _ _ s' => s' = s). instantiate (1 := fun _ l s' => l = interrupted s /\ s' = s).
    apply wp_act; [done|..]; [by apply wp_ret|done|]. intros m n' ->. by apply wp_ret.
  - by intros n1 e s1 ->.
  - intros n1 l s1 [-> ->] _. apply (keeps_try _ _ _ _); [|..|done].
    + apply each_keeps. intros [run st] H. by apply rollback_untouched.
    + intros _. apply keeps_act; [|intros; apply keeps_ret].
      intros [] s2 (RT & RA & RR & RD); [done|]. split_and!; [done|done| |apply RD|apply RD]. cbn [run_rows set_runs perform fst]. right.
      destruct RR as [->| ->]; [done|]. apply map_eq. intros run. rewrite !lookup_fmap.
      destruct (run_rows s !! run) as [row|]; [|done]. cbn. unfold fail_row. destruct (active row) eqn:A; [|by rewrite A].
      by vm_compute (active _).
Qed.

(** ** Deletion *)

(** The rows of the run are gone, and at most its directory with them. *)
Definition deleted (run : string) (s s' : Store) : Prop :=
  run_rows s' = delete run (run_rows s) /\
  trade_rows s' = List.filter (fun r => negb (bool_decide ((trade_key r).1 = run))) (trade_rows s) /\
  artifact_rows s' = List.filter (fun r => negb (bool_decide ((artifact_key r).1 = run))) (artifact_rows s) /\
  (forall k, dirs s !! k = None -> dirs s' !! k = None) /\
  forall st r k, r <> run -> dirs s' !! (st, r, k) = dirs s !! (st, r, k).

Lemma wp_delete n run s : wps n (delete_run run) (fun _ _ s' => s' = s \/ deleted run s s') (fun s' => s' = s \/ deleted run s s') s.
Proof.
  unfold delete_run. eapply wp_try.
  - instantiate (1 := fun _ _ s' => s' = s). instantiate (1 := fun _ _ s' => s' = s).
    apply wp_act; [by left| |intros m|intros m n' ->]; cbn [perform fst snd]; [|by left|]; apply wp_ret; auto.
  - auto.
  - intros n1 [strategy|] s1 -> _; [|apply wp_ret; auto]. cbn [try_bind prog_bind act].
    apply wp_act; [by left| |intros m|intros m n' ->]; cbn [perform fst snd]; [|by left|apply wp_ret; auto].
    set (s1 := mkStore _ _ _ _). assert (D1 : deleted run s s1) by (split_and!; done). clearbody s1. revert s1 D1.
    assert (K : keeps perf (deleted run s)
                  (try! _u := check_path strategy run in try! _u := remove (strategy, run, Final) in ok true)).
    { apply keeps_try; [unfold check_path; destruct (_ && _); apply keeps_ret|]. intros _.
      apply keeps_try; [|intros; apply keeps_ret].
      apply keeps_act; [done|]. intros []; [|apply keeps_ret]. apply keeps_act; [|intros; apply keeps_ret].
      intros f s2 (R & RT & RA & RN & RD). cbn [perform]. destruct (dirs s2 !! _) as [d|] eqn:E; [|by destruct f].
      assert (X : forall o, deleted run s (set_dirs (partial_alter (fun _ => o) (strategy, run, Final) (dirs s2)) s2)).
      { intros o. split_and!; [done..| |]; cbn [dirs set_dirs].
        - intros k N. rewrite lookup_partial_alter_ne; [by apply RN|]. intros <-. by rewrite RN in E.
        - intros st r k N. rewrite lookup_partial_alter_ne by congruence. by apply RD. }
      destruct f; [apply (X (Some _))|apply (X None)]. }
    intros s1 D1. eapply wp_mono; [by apply K|by right|by right].
Qed.

End Facts.
