(* ===== verification/BacktestStoreSafety.v ===== *)
(** The theorems about the results of backtests: a save is all or nothing, a
    save that breaks off is rolled back by the next start, a recovery may itself
    break off, and a run that is "done" has its files, in every history. *)

From Stdlib Require Import SpecFloat.
From S2P Require Import Prelude PyFloat Threads Faults Artifacts BacktestStore BacktestStoreFacts.

Section Safety.
#[local] Set Default Proof Using "Type".

Variable parquet : list string -> string.
Variable row_count : string -> option Z.
Variable late : bool.
Hypothesis row_count_parquet : forall l, row_count (parquet l) = Some (Z.of_nat (length l)).

Abbreviation io_run := (run (perform parquet row_count late)).
Abbreviation io_ok := (run_ok (perform parquet row_count late)).
Abbreviation saved_as := (committed parquet row_count).

(** The strategy [save_result] finds for a run. *)
Definition strategy_of (run : string) (s : Store) : string := default "" (rw_strategy <$> run_rows s !! run).

(** The backup's name is fresh. *)
Definition fresh_backup (a : SaveArgs) (s : Store) : Prop :=
  dirs s !! (strategy_of (sa_run a) s, sa_run a, Backup (sa_hex a)) = None.

(** The files of an earlier save of the run that broke off. *)
Definition stale_files (a : SaveArgs) (s : Store) : Dir := default ∅ (dirs s !! (strategy_of (sa_run a) s, sa_run a, Tmp)).

(** The store after a save: the rows, the directory with all files, and the
    backup if it could not be removed. *)
Definition after_save (a : SaveArgs) (s : Store) (backup : option Dir) : Store :=
  let strategy := strategy_of (sa_run a) s in
  put strategy a (saved_as strategy a s) None (Some (published parquet (stale_files a s) a)) backup.

Abbreviation accepts a s := (commits parquet row_count (strategy_of (sa_run a) s) a s).
Abbreviation undone_by a s := (undone parquet late (strategy_of (sa_run a) s) a (stale_files a s)).
Abbreviation died_in a s := (interrupted_save parquet row_count (strategy_of (sa_run a) s) a (stale_files a s) s).

Lemma wp_save a n s :
  fresh_backup a s ->
  wp (perform parquet row_count late) n (save_result parquet a)
    (fun n' r s' =>
       match r with
       | Ok _ => accepts a s = true /\ is_Some (run_rows s !! sa_run a) /\
                 exists b, s' = after_save a s b /\ (n' = n -> b = None)
       | Err _ => leftover (strategy_of (sa_run a) s) a s (dirs s !! (strategy_of (sa_run a) s, sa_run a, Final)) s' /\
                  ((n <= n' + if accepts a s then 1 else 0)%nat -> undone_by a s (n = S n') s s')
       end) (died_in a s) s.
Proof using row_count_parquet. intros H. by apply wp_save_result. Qed.

Lemma save_dies a s es : fresh_backup a s ->
  (io_run es (save_result parquet a) s).2 = None -> died_in a s (io_run es (save_result parquet a) s).1.
Proof using row_count_parquet.
  intros C. pose proof (wp_run _ _ _ _ _ _ es (wp_save a (failures es) s C) (le_n _)) as H.
  by destruct (io_run es (save_result parquet a) s) as [s' [r|]].
Qed.

(** C38: A save is all or nothing.  Whatever commands fail, at whatever point and
    half-way: if it returns, the run's directory holds the files of the result,
    over those of the temporary directory it found, if an earlier save had left
    one, and the rows are written.  If it raises because of one failure, or
    because the database refuses the rows, the disk and the tables are what
    they were, but for such a temporary directory, which is removed.  There is
    one exception, on a filesystem that may report the failure of a rename it
    has made: then the files of a first result stay without rows, or those of
    an old one stay under their backup's name.  The name of the backup is
    fresh. *)
Theorem save_all_or_nothing a s es (C : fresh_backup a s) :
  match io_run es (save_result parquet a) s with
  | (s', Some (Ok _)) => accepts a s = true /\ exists b, s' = after_save a s b /\ (failures es = 0%nat -> b = None)
  | (s', Some (Err _)) => (failures es <= if accepts a s then 1 else 0)%nat -> undone_by a s (failures es = 1%nat) s s'
  | (s', None) => died_in a s s'
  end.
Proof using row_count_parquet.
  pose proof (wp_run _ _ _ _ _ _ es (wp_budget _ _ _ _ _ _ (wp_save a (failures es) s C)) (le_n _)) as H.
  destruct (io_run es (save_result parquet a) s) as [s' [[u|e]|]]; [..|done].
  - destruct H as (_ & n & L & L' & A & _ & b & -> & Hb). split; [done|]. exists b. split; [done|]. intros E. apply Hb. lia.
  - destruct H as (_ & n & L & _ & _ & H). intros F.
    destruct (H ltac:(lia)) as [->|[->|(E & Hl & X)]]; [by left|by right; left|]. right. right. split_and!; [|done|done].
    destruct (accepts a s); lia.
Qed.

Lemma recovered_to_unique now s s1 s2 : recovered_to now s s1 -> recovered_to now s s2 -> s1 = s2.
Proof.
  destruct s1 as [d1 r1 t1 a1], s2 as [d2 r2 t2 a2]. intros (R1 & T1 & A1 & D1) (R2 & T2 & A2 & D2).
  cbn [dirs run_rows trade_rows artifact_rows] in *. subst. f_equal. apply map_eq. intros [[st run] k]. by rewrite D1, D2.
Qed.

Lemma interrupted_put strategy a s t f b : interrupted (put strategy a s t f b) = interrupted s.
Proof. done. Qed.

(** The backups of other runs are those from before the save. *)
Lemma put_backed_up strategy a s s0 t f b p :
  dirs s0 = dirs s -> p.1 <> sa_run a -> one_backup s p ->
  one_backup (put strategy a s0 t f b) p /\ backed_up (put strategy a s0 t f b) p = backed_up s p.
Proof.
  intros E N O. apply backed_up_eq; [done|]. intros h. rewrite put_other by congruence. by rewrite E.
Qed.

(** Those of its own run are what it left. *)
Lemma put_own_backup strategy a s t f b :
  (forall h, dirs s !! (strategy, sa_run a, Backup h) = None) ->
  one_backup (put strategy a s t f b) (sa_run a, strategy) /\ backed_up (put strategy a s t f b) (sa_run a, strategy) = b.
Proof.
  intros NB. assert (L : forall h, dirs (put strategy a s t f b) !! (strategy, sa_run a, Backup h) = if decide (h = sa_hex a) then b else None).
  { intros h. destruct (decide (h = sa_hex a)) as [->|N]; [by rewrite put_B|]. rewrite put_other by congruence. apply NB. }
  assert (O : one_backup (put strategy a s t f b) (sa_run a, strategy)).
  { intros h h'. cbn [fst snd]. rewrite !L. destruct (decide (h = _)) as [->|]; [|by intros []].
    destruct (decide (h' = _)) as [->|]; [done|by intros _ []]. }
  split; [done|]. destruct (one_backup_cases _ _ O) as [(_ & -> & N)|(h & d & _ & -> & D & _)]; cbn [fst snd] in *.
  - specialize (N (sa_hex a)). rewrite L, decide_True in N by done. done.
  - rewrite L in D. by destruct (decide _).
Qed.

(** A save that was not committed leaves the recovery what it would have done
    anyway, and at most an old result to put back. *)
Lemma recovered_leftover a s now row f0 s' base :
  run_rows s !! sa_run a = Some row -> active row = true -> recoverable s ->
  (forall h, dirs s !! (rw_strategy row, sa_run a, Backup h) = None) ->
  leftover (rw_strategy row) a s f0 s' -> recovered_to now s base ->
  recoverable s' /\ forall after, recovered_to now s' after ->
    after = base \/ exists old, f0 = Some old /\ after = set_dirs (<[(rw_strategy row, sa_run a, Final) := old]> (dirs base)) base.
Proof.
  intros R Ha V NB (t & f & b & -> & H) HB. set (st := rw_strategy row) in *.
  destruct (put_own_backup st a s t f b NB) as [Oo Ob].
  assert (I : (sa_run a, st) ∈ interrupted s) by (apply elem_of_interrupted; eauto).
  assert (I' : forall p, p ∈ interrupted s -> p.1 = sa_run a -> p = (sa_run a, st)).
  { intros [r st'] (row' & E & _ & <-)%elem_of_interrupted Er. cbn in Er. subst r. rewrite R in E. by simplify_eq. }
  unfold recoverable in V. rewrite Forall_forall in V.
  assert (V' : recoverable (put st a s t f b)).
  { unfold recoverable. rewrite interrupted_put. apply Forall_forall. intros p Hp. destruct (V p Hp) as [Vp Op]. split; [done|].
    destruct (decide (p.1 = sa_run a)) as [Ep|Np]; [by rewrite (I' p Hp Ep)|]. by apply (put_backed_up st a s s t f b). }
  split; [done|]. intros after HA.
  assert (Hex : recovered_to now (put st a s t f b) (set_dirs (partial_alter (fun _ => b) (st, sa_run a, Final) (dirs base)) base)).
  { destruct HB as (RB & TB & AB & DB). split_and!; [done..|]. intros st' r k. rewrite interrupted_put. cbn [dirs set_dirs].
    destruct (decide ((st', r, k) = (st, sa_run a, Final))) as [[= -> -> ->]|N].
    { rewrite lookup_partial_alter_eq, decide_True by done. by rewrite Ob. }
    rewrite lookup_partial_alter_ne, DB by done. destruct (decide ((r, st') ∈ interrupted s)) as [Hi|Hi].
    - destruct k; [|done..]. destruct (decide (r = sa_run a)) as [->|Nr].
      { pose proof (I' _ Hi eq_refl) as E. by simplify_eq. }
      symmetry. by apply (put_backed_up st a s s t f b); [|..|apply V].
    - rewrite put_other; [done|..]; by intros [= -> -> ->]. }
  rewrite (recovered_to_unique _ _ _ _ HA Hex).
  assert (HN : dirs base !! (st, sa_run a, Final) = None).
  { destruct HB as (_ & _ & _ & DB). rewrite DB, decide_True by done. unfold backed_up. cbn [fst snd].
    destruct (one_backup_cases s (sa_run a, st)) as [(E & _)|(h & d & E & _ & D & _)]; [by apply V|..]; cbn [fst snd] in *.
    - by rewrite E.
    - by rewrite NB in D. }
  destruct H as [[-> [old ->]]|[-> _]]; [right; by exists old|left].
  assert (D : partial_alter (fun _ => None) (st, sa_run a, Final) (dirs base) = dirs base) by exact (delete_id (dirs base) _ HN).
  rewrite D. by destruct base.
Qed.

(** A result that was committed is nothing to a recovery. *)
Lemma recovered_committed a s now row b :
  run_rows s !! sa_run a = Some row -> recoverable s -> strategy_of (sa_run a) s = rw_strategy row ->
  recoverable (after_save a s b) /\ forall after, recovered_to now (after_save a s b) after ->
    dirs after !! (rw_strategy row, sa_run a, Final) = Some (published parquet (stale_files a s) a) /\
    run_rows after !! sa_run a = Some (done_row a row) /\
    trade_rows after = trade_rows (after_save a s b) /\ artifact_rows after = artifact_rows (after_save a s b).
Proof.
  intros R V HS. unfold after_save. rewrite HS.
  assert (A0 : forall p, p ∈ interrupted (put (rw_strategy row) a (saved_as (rw_strategy row) a s) None
             (Some (published parquet (stale_files a s) a)) b) -> p ∈ interrupted s /\ p.1 <> sa_run a).
  { intros [r st] (row' & E & Aa & <-)%elem_of_interrupted. cbn [run_rows put set_dirs committed] in E.
    destruct (decide (r = sa_run a)) as [->|Nr].
    - rewrite lookup_alter_eq, R in E. cbn in E. by simplify_eq.
    - rewrite lookup_alter_ne in E by done. split; [|done]. apply elem_of_interrupted. eauto. }
  unfold recoverable in V. rewrite Forall_forall in V. split.
  { apply Forall_forall. intros p Hp. destruct (A0 p Hp) as [Hi Hr]. destruct (V p Hi) as [Vp Op]. split; [done|].
    by apply (put_backed_up _ a s (saved_as (rw_strategy row) a s)). }
  intros after (RA & TA & AA & DA). split_and!; [|..|done|done].
  - rewrite DA, decide_False; [by rewrite put_F|]. intros Hi. by destruct (A0 _ Hi).
  - rewrite RA, lookup_fmap. cbn [run_rows put set_dirs committed]. rewrite lookup_alter_eq, R. done.
Qed.

(** C39: A save that breaks off is rolled back.  Take an active run that has no
    backup, in a store each of whose interrupted runs has a proper name and at
    most one backup.  If the process dies anywhere in the run's save, whatever
    failed before, the recovery of the next start succeeds, and either the
    result had been committed and stays, with its files, the "done" row and the
    rows of trades and artifacts; or the store becomes what that recovery would
    have made of it had the save never begun, except that an old result of the
    run may be put back, which would otherwise be removed. *)
Theorem broken_save_rolled_back a s es now row
    (R : run_rows s !! sa_run a = Some row) (Ha : active row = true)
    (NB : forall h, dirs s !! (rw_strategy row, sa_run a, Backup h) = None) (V : recoverable s) :
  let run_dir := (rw_strategy row, sa_run a, Final) in
  let s' := (io_run es (save_result parquet a) s).1 in
  let after := (io_ok (recover_incomplete_runs now) s').1 in
  let base := (io_ok (recover_incomplete_runs now) s).1 in
  (io_run es (save_result parquet a) s).2 = None ->
  is_ok (io_ok (recover_incomplete_runs now) s').2 = true /\
  (after = base \/
   (exists old, dirs s !! run_dir = Some old /\ after = set_dirs (<[run_dir := old]> (dirs base)) base) \/
   (exists b, s' = after_save a s b) /\
     dirs after !! run_dir = Some (published parquet (stale_files a s) a) /\ run_rows after !! sa_run a = Some (done_row a row) /\
     trade_rows after = trade_rows s' /\ artifact_rows after = artifact_rows s').
Proof using row_count_parquet.
  intros run_dir s' after base Hd.
  assert (HS : strategy_of (sa_run a) s = rw_strategy row) by (unfold strategy_of; by rewrite R).
  assert (C : fresh_backup a s) by (unfold fresh_backup; by rewrite HS).
  destruct (recovery_answers parquet row_count late now s V) as (base' & Eb & Hb). subst base. rewrite Eb. cbn [fst].
  pose proof (save_dies a s es C) as H. subst after s'.
  destruct (io_run es (save_result parquet a) s) as [s' o]. cbn [fst snd] in Hd |- *. subst o. specialize (H eq_refl). cbn [fst] in H.
  destruct H as [H|[_ (b & E & _)]].
  - rewrite HS in H. destruct (recovered_leftover a s now row _ s' base' R Ha V NB H Hb) as [V' Ha'].
    destruct (recovery_answers parquet row_count late now s' V') as (after & -> & HA). cbn [fst snd is_ok]. split; [done|].
    destruct (Ha' _ HA) as [->|X]; [by left|by right; left].
  - assert (E' : s' = after_save a s b) by exact E. rewrite E'.
    destruct (recovered_committed a s now row b R V HS) as [V' Ha'].
    destruct (recovery_answers parquet row_count late now (after_save a s b) V') as (after & -> & HA). cbn [fst snd is_ok]. split; [done|].
    right. right. split; [by exists b|]. by apply Ha'.
Qed.

(** A recovery may itself break off, anywhere and repeatedly failing, and
    nothing is lost by it: the next one ends in the store the first one would
    have ended in, but for the time it records. *)
Theorem recovery_restartable s es now now' (NB : no_backups s) (V : Forall valid_paths (interrupted s)) :
  let s' := (io_run es (recover_incomplete_runs now) s).1 in
  io_ok (recover_incomplete_runs now') s' = (recovered now' s, Ok (Z.of_nat (length (interrupted s)))) \/
  s' = recovered now s /\ io_ok (recover_incomplete_runs now') s' = (s', Ok 0).
Proof.
  intros s'. pose proof (wp_run _ _ _ _ _ _ es (wp_recover parquet row_count late s NB (failures es) now s (agree_refl s)) (le_n _)) as H.
  assert (Again : forall s0 s1, no_backups s0 -> Forall valid_paths (interrupted s0) -> agree s0 s1 ->
            io_ok (recover_incomplete_runs now') s1 = (recovered now' s0, Ok (Z.of_nat (length (interrupted s0))))).
  { intros s0 s1 NB0 V0 A. pose proof (wp_run_ok _ _ _ _ _ _ (wp_recover parquet row_count late s0 NB0 0 now' s1 A)) as W.
    destruct (io_ok _ s1) as [s2 [k|e]]; cbn in W; [by destruct W as [-> ->]|]. destruct W as [_ W]. specialize (W V0). lia. }
  assert (D : agree s s' \/ s' = recovered now s).
  { subst s'. destruct (io_run es _ s) as [s1 [r|]]; cbn [fst]; [by destruct H|done]. }
  destruct D as [D|D]; [left; by apply Again|right]. split; [done|]. rewrite D.
  rewrite (Again (recovered now s) (recovered now s)), recovered_twice, recovered_interrupted; [done|by apply recovered_no_backups| |done].
  by rewrite recovered_interrupted.
Qed.

(** Every result has a report. *)
Lemma rows_of_report strategy a : exists row, row ∈ rows_of parquet row_count strategy a /\ artifact_key row = (sa_run a, "report_json").
Proof using row_count_parquet.
  pose proof (artifact_rows_made parquet row_count row_count_parquet strategy a ∅) as M. apply mapM_Some in M.
  assert (P : ("report_json", "report.json") ∈ artifact_paths parquet a).
  { unfold artifact_paths, result_files. rewrite list_elem_of_omap. exists (Some "report_json", "report.json", sa_report a).
    split; [|done]. rewrite !elem_of_app. right. right. right. right. left. }
  apply list_elem_of_lookup in P as [i P]. destruct (Forall2_lookup_l _ _ _ _ _ M P) as (row & Hr & E).
  exists row. split; [by eapply list_elem_of_lookup_2|]. unfold artifact_db_row in E. cbn [fst snd] in E.
  assert (K : counted "report_json" = false) by (by vm_compute). rewrite K in E. by simplify_eq.
Qed.

Lemma not_committed_twice strategy a s r :
  r ∈ artifact_rows s -> artifact_key r = (sa_run a, "report_json") -> commits parquet row_count strategy a s = false.
Proof using row_count_parquet.
  intros Hr Er. destruct (rows_of_report strategy a) as (row & H & E). unfold commits.
  assert (X : existsb (fun r => existsb (fun r' => bool_decide (artifact_key r = artifact_key r')) (artifact_rows s))
                (rows_of parquet row_count strategy a) = true).
  { apply existsb_exists. exists row. split; [by apply list_elem_of_In|]. apply existsb_exists. exists r.
    split; [by apply list_elem_of_In|]. apply bool_decide_eq_true. congruence. }
  rewrite X. by rewrite andb_false_r.
Qed.

(** A result is written once: saving a run that has one is refused, and when
    nothing fails nothing changes but that a stale temporary directory goes. *)
Lemma save_refused a s es r :
  fresh_backup a s -> r ∈ artifact_rows s -> artifact_key r = (sa_run a, "report_json") ->
  failures es = 0%nat -> (io_run es (save_result parquet a) s).2 <> None ->
  let strategy := strategy_of (sa_run a) s in
  let s' := (io_run es (save_result parquet a) s).1 in
  s' = s \/ s' = put strategy a s None (dirs s !! (strategy, sa_run a, Final)) None.
Proof using row_count_parquet.
  intros C Hr E F Hd. pose proof (wp_run _ _ _ _ _ _ es (wp_save a 0 s C)) as H.
  rewrite (not_committed_twice _ _ _ _ Hr E), F in H. specialize (H (le_n _)).
  destruct (io_run es (save_result parquet a) s) as [s' [[u|e]|]]; cbn [fst snd] in *; [..|done].
  - by destruct H as (_ & n & _ & ? & _).
  - destruct H as (_ & n & _ & _ & H). destruct (H ltac:(lia)) as [H'|[H'|(E' & _)]]; [by left|by right|lia].
Qed.

(** ** Histories

    The store over the lives of its gateway: runs are created under identifiers
    that are never used again, and saved any number of times; saves, deletions
    and recoveries go as luck has it, and with a process that dies the next
    event is a recovery or whatever comes.  [resaved] are the runs that have
    been saved more than once. *)
Inductive store_event :=
  | Create (run strategy : string) (now : Z)
  | Save (a : SaveArgs) (es : list luck)
  | MarkRunning (run : string)
  | MarkFailed (run message : string) (now : Z)
  | MarkCancelled (run message : string) (now : Z)
  | Delete (run : string) (es : list luck)
  | Recover (now : Z) (es : list luck).

Record History := mkHistory { store : Store; used : gset string; saved : gset string; resaved : gset string }.

Definition no_store : Store := mkStore ∅ ∅ [] [].
Definition no_history : History := mkHistory no_store ∅ ∅ ∅.

Definition with_store (s : Store) (h : History) : History := mkHistory s (used h) (saved h) (resaved h).

Definition store_step (h : History) (ev : store_event) : History :=
  match ev with
  | Create run strategy now =>
      if decide (run ∈ used h) then h
      else mkHistory (create_run run strategy now (store h)) ({[run]} ∪ used h) (saved h) (resaved h)
  | Save a es =>
      mkHistory (io_run es (save_result parquet a) (store h)).1 (used h) ({[sa_run a]} ∪ saved h)
        (if decide (sa_run a ∈ saved h) then {[sa_run a]} ∪ resaved h else resaved h)
  | MarkRunning run => with_store (mark_running run (store h)) h
  | MarkFailed run message now => with_store (mark_failed run message now (store h)) h
  | MarkCancelled run message now => with_store (mark_cancelled run message now (store h)) h
  | Delete run es => with_store (io_run es (delete_run run) (store h)).1 h
  | Recover now es => with_store (io_run es (recover_incomplete_runs now) (store h)).1 h
  end.

Definition store_history (evs : list store_event) : History := foldl store_step no_history evs.

(** A save that may be made: the name of its backup is fresh, and its run is not
    "done", or nothing fails in the save and the process survives it. *)
Definition proper_save (s : Store) (a : SaveArgs) (es : list luck) : Prop :=
  fresh_backup a s /\
  ((forall row, run_rows s !! sa_run a = Some row -> rw_status row <> "done") \/
   failures es = 0%nat /\ (io_run es (save_result parquet a) s).2 <> None).

Definition proper_event (h : History) (ev : store_event) : Prop :=
  match ev with Save a es => proper_save (store h) a es | _ => True end.

(** Every save of the history is such a one. *)
Definition proper_saves (evs : list store_event) : Prop :=
  forall before ev later, evs = before ++ ev :: later -> proper_event (store_history before) ev.

(** The run's result is whole: files, rows of artifacts and trades and the
    columns of the run are those of one save, which may have found the files
    [stale] of an earlier one that broke off. *)
Definition whole (stale : Dir) (run strategy : string) (result : option RunResult) (s : Store) : Prop :=
  exists a, sa_run a = run /\
    dirs s !! (strategy, run, Final) = Some (published parquet stale a) /\
    list_artifacts run s = rows_of parquet row_count strategy a /\
    List.filter (fun r => bool_decide ((trade_key r).1 = run)) (trade_rows s) = trade_db_rows a strategy /\
    result = Some (run_result a).

(** A run with any row of a result has that of its report. *)
Definition reported (run : string) (s : Store) : Prop := exists r, r ∈ artifact_rows s /\ artifact_key r = (run, "report_json").

Definition run_whole (h : History) (run : string) (row : RunRow) : Prop :=
  exists stale, whole stale run (rw_strategy row) (rw_result row) (store h) /\ (stale = ∅ \/ run ∈ resaved h).

Record history_ok (h : History) : Prop := {
  ok_dirs : forall strategy run k, is_Some (dirs (store h) !! (strategy, run, k)) -> run ∈ saved h;
  ok_artifacts : forall r, r ∈ artifact_rows (store h) -> reported (artifact_key r).1 (store h);
  ok_trades : forall r, r ∈ trade_rows (store h) -> reported (trade_key r).1 (store h);
  ok_done : forall run row, run_rows (store h) !! run = Some row -> rw_status row = "done" -> run_whole h run row
}.

(** Whatever keeps a run's directory and rows keeps its result whole. *)
Lemma whole_frame stale run strategy result s s' :
  dirs s' !! (strategy, run, Final) = dirs s !! (strategy, run, Final) ->
  list_artifacts run s' = list_artifacts run s ->
  List.filter (fun r => bool_decide ((trade_key r).1 = run)) (trade_rows s') =
    List.filter (fun r => bool_decide ((trade_key r).1 = run)) (trade_rows s) ->
  whole stale run strategy result s -> whole stale run strategy result s'.
Proof. intros HD HA HT (a & E & H1 & H2 & H3 & H4). exists a. by rewrite HD, HA, HT. Qed.

Lemma whole_reported stale run strategy result s : whole stale run strategy result s -> reported run s.
Proof using row_count_parquet.
  intros (a & <- & _ & H & _). destruct (rows_of_report strategy a) as (r & Hr & E). rewrite <- H in Hr. exists r. split; [|done].
  unfold list_artifacts in Hr. apply list_elem_of_In, filter_In in Hr as [Hr _]. by apply list_elem_of_In.
Qed.

Lemma filter_keep {A} (f : A -> bool) l : (forall x, x ∈ l -> f x = true) -> List.filter f l = l.
Proof.
  induction l as [|x l IH]; [done|]. intros H. cbn. rewrite (H x) by left. f_equal. apply IH. intros; apply H; by right.
Qed.

Lemma filter_drop {A} (f : A -> bool) l : (forall x, x ∈ l -> f x = false) -> List.filter f l = [].
Proof. induction l as [|x l IH]; [done|]. intros H. cbn. rewrite (H x) by left. apply IH. intros; apply H; by right. Qed.

Lemma filter_other {A} (key : A -> string) run run' l :
  run <> run' ->
  List.filter (fun r => bool_decide (key r = run)) (List.filter (fun r => negb (bool_decide (key r = run'))) l) =
  List.filter (fun r => bool_decide (key r = run)) l.
Proof.
  intros N. induction l as [|x l IH]; [done|]. cbn. destruct (bool_decide_reflect (key x = run')) as [E|E]; cbn; rewrite IH; [|done].
  by rewrite bool_decide_eq_false_2 by congruence.
Qed.

Lemma rows_of_keys strategy a r : r ∈ rows_of parquet row_count strategy a -> (artifact_key r).1 = sa_run a.
Proof using row_count_parquet.
  pose proof (artifact_rows_made parquet row_count row_count_parquet strategy a ∅) as M. apply mapM_Some in M.
  intros (i & E)%list_elem_of_lookup. destruct (Forall2_lookup_r _ _ _ _ _ M E) as (p & _ & D).
  unfold artifact_db_row in D. repeat case_match; by simplify_eq.
Qed.

Lemma trade_db_rows_keys strategy a r : r ∈ trade_db_rows a strategy -> (trade_key r).1 = sa_run a.
Proof.
  intros (i & E)%list_elem_of_lookup. unfold trade_db_rows in E. rewrite list_lookup_imap in E.
  apply fmap_Some in E as (t & _ & ->). done.
Qed.

(** Steps that leave the tables of results, every directory of a "done" run, and
    no directory for a run without one. *)
Lemma history_frame h s' :
  history_ok h ->
  (forall st run k, is_Some (dirs s' !! (st, run, k)) -> run ∈ saved h) ->
  artifact_rows s' = artifact_rows (store h) -> trade_rows s' = trade_rows (store h) ->
  (forall run row, run_rows s' !! run = Some row -> rw_status row = "done" ->
     run_rows (store h) !! run = Some row /\
     dirs s' !! (rw_strategy row, run, Final) = dirs (store h) !! (rw_strategy row, run, Final)) ->
  history_ok (with_store s' h).
Proof.
  intros [O1 O2 O3 O4] HD HA HT HR. split; cbn [store with_store saved]; [done|intros r; unfold reported; cbn [store with_store]; rewrite HA; apply O2|..].
  - intros r. unfold reported. cbn [store with_store]. rewrite HT, HA. apply O3.
  - intros run row E S. destruct (HR _ _ E S) as [E' D]. destruct (O4 _ _ E' S) as (stale & W & X). exists stale. split; [|done].
    cbn [store with_store]. eapply whole_frame; [exact D|..|exact W]; [unfold list_artifacts; by rewrite HA|by rewrite HT].
Qed.

Lemma create_ok h run strategy now : history_ok h -> history_ok (store_step h (Create run strategy now)).
Proof.
  intros O. cbn [store_step]. destruct (decide (run ∈ used h)) as [|N]; [done|].
  assert (F : history_ok (with_store (create_run run strategy now (store h)) h)).
  { apply history_frame; [done|apply O|done..|]. intros r row. cbn [create_run set_runs run_rows].
    destruct (decide (r = run)) as [->|]; [rewrite lookup_insert_eq; intros; by simplify_eq|]. by rewrite lookup_insert_ne. }
  by destruct F as [F1 F2 F3 F4].
Qed.

Lemma mark_ok h run g :
  history_ok h -> (forall row, rw_status (g row) <> "done") ->
  history_ok (with_store (set_runs (alter g run (run_rows (store h))) (store h)) h).
Proof.
  intros O H. apply history_frame; [done|apply O|done..|]. intros r row. cbn [set_runs run_rows].
  destruct (decide (r = run)) as [->|]; [rewrite lookup_alter_eq|by rewrite lookup_alter_ne].
  intros (row' & _ & ->)%fmap_Some S. by destruct (H row').
Qed.

Lemma delete_ok h run es : history_ok h -> history_ok (store_step h (Delete run es)).
Proof.
  intros O. pose proof O as [O1 O2 O3 O4]. cbn [store_step].
  pose proof (wp_run _ _ _ _ _ _ es (wp_delete parquet row_count late (failures es) run (store h)) (le_n _)) as H.
  assert (D : (io_run es (delete_run run) (store h)).1 = store h \/ deleted run (store h) (io_run es (delete_run run) (store h)).1).
  { destruct (io_run es (delete_run run) (store h)) as [s' [r|]]; [by destruct H|done]. }
  clear H. revert D. generalize (io_run es (delete_run run) (store h)).1. intros s' [->|(R & RT & RA & RN & RD)]; [by destruct h|].
  assert (Rep : forall r, r <> run -> reported r (store h) -> reported r s').
  { intros r N (x & Hx & E). exists x. split; [|done]. rewrite RA. apply list_elem_of_In, filter_In.
    split; [by apply list_elem_of_In|]. rewrite E. cbn. by rewrite bool_decide_eq_false_2. }
  split; cbn [store with_store saved].
  - intros st r k [d E]. apply (O1 st r k). destruct (dirs (store h) !! (st, r, k)) eqn:E'; [done|]. by rewrite RN in E.
  - intros r Hr. rewrite RA in Hr. apply list_elem_of_In, filter_In in Hr as [Hr N]. apply negb_true_iff, bool_decide_eq_false in N.
    apply Rep; [done|]. by apply O2, list_elem_of_In.
  - intros r Hr. rewrite RT in Hr. apply list_elem_of_In, filter_In in Hr as [Hr N]. apply negb_true_iff, bool_decide_eq_false in N.
    apply Rep; [done|]. by apply O3, list_elem_of_In.
  - rewrite R. intros r row [N E]%lookup_delete_Some S. destruct (O4 r row E S) as (stale & W & X). exists stale. split; [|done].
    cbn [store with_store]. eapply whole_frame; [..|exact W].
    + apply RD. congruence.
    + unfold list_artifacts. rewrite RA. by apply (filter_other (fun r => (artifact_key r).1)).
    + rewrite RT. by apply (filter_other (fun r => (trade_key r).1)).
Qed.

Lemma recover_ok h now es : history_ok h -> history_ok (store_step h (Recover now es)).
Proof.
  intros O. cbn [store_step].
  pose proof (wp_run _ _ _ _ _ _ es (wp_recover_untouched parquet row_count late (failures es) now (store h)) (le_n _)) as H.
  assert (U : untouched now (store h) (io_run es (recover_incomplete_runs now) (store h)).1).
  { destruct (io_run es (recover_incomplete_runs now) (store h)) as [s' [r|]]; [by destruct H|done]. }
  clear H. revert U. generalize (io_run es (recover_incomplete_runs now) (store h)).1. intros s' (RT & RA & RR & RD & RN).
  apply history_frame; [done| |done..|].
  - intros st run k H. destruct (RN st run k H) as [k' H']. by eapply O.
  - intros run row E S. assert (E' : run_rows (store h) !! run = Some row).
    { destruct RR as [RR|RR]; rewrite RR in E; [done|]. rewrite lookup_fmap in E. apply fmap_Some in E as (row' & E & ->).
      unfold fail_row in *. by destruct (active row'). }
    split; [done|]. apply RD. intros (row' & E2 & A & _)%elem_of_interrupted. assert (row' = row) as -> by congruence.
    unfold active in A. rewrite S in A. by vm_compute in A.
Qed.

(** A save that is not committed leaves the tables and touches only its run. *)
Lemma save_uncommitted h a t f b :
  history_ok h ->
  (forall row, run_rows (store h) !! sa_run a = Some row -> rw_status row = "done" ->
     f = dirs (store h) !! (strategy_of (sa_run a) (store h), sa_run a, Final)) ->
  history_ok (mkHistory (put (strategy_of (sa_run a) (store h)) a (store h) t f b) (used h) ({[sa_run a]} ∪ saved h)
                (if decide (sa_run a ∈ saved h) then {[sa_run a]} ∪ resaved h else resaved h)).
Proof.
  intros [O1 O2 O3 O4] HF. set (strategy := strategy_of (sa_run a) (store h)) in *. split; cbn [store saved]; [|done|done|].
  - intros st r k H. destruct (decide (r = sa_run a)) as [->|N]; [apply elem_of_union; left; by apply elem_of_singleton|].
    rewrite put_other in H by congruence. apply elem_of_union. right. by eapply O1.
  - intros run row E S. cbn [run_rows put set_dirs] in E. destruct (O4 run row E S) as (stale & W & X). exists stale. split.
    + cbn [store]. apply (whole_frame _ _ _ _ (store h)); [|done|done|exact W]. destruct (decide (run = sa_run a)) as [->|N]; [|by rewrite put_other by congruence].
      assert (Es : rw_strategy row = strategy) by (unfold strategy, strategy_of; by rewrite E). rewrite Es, put_F. by eapply HF.
    + destruct X as [X|X]; [by left|right]. cbn [resaved]. destruct (decide _); [apply elem_of_union; by right|done].
Qed.

Lemma save_committed h a b :
  history_ok h -> commits parquet row_count (strategy_of (sa_run a) (store h)) a (store h) = true ->
  history_ok (mkHistory (after_save a (store h) b) (used h) ({[sa_run a]} ∪ saved h)
                (if decide (sa_run a ∈ saved h) then {[sa_run a]} ∪ resaved h else resaved h)).
Proof using row_count_parquet.
  intros [O1 O2 O3 O4] C. unfold after_save. set (strategy := strategy_of (sa_run a) (store h)) in *.
  assert (NR : ~ reported (sa_run a) (store h)).
  { intros (r & Hr & E). by rewrite (not_committed_twice strategy a _ r Hr E) in C. }
  assert (Rep : forall s' r, artifact_rows s' = artifact_rows (store h) ++ rows_of parquet row_count strategy a ->
            r = sa_run a \/ reported r (store h) -> reported r s').
  { intros s' r E [->|(x & Hx & Ex)]; [|exists x; split; [rewrite E; apply elem_of_app; by left|done]].
    destruct (rows_of_report strategy a) as (x & Hx & Ex). exists x. split; [rewrite E; apply elem_of_app; by right|done]. }
  split; cbn [store saved].
  - intros st r k H. destruct (decide (r = sa_run a)) as [->|N]; [apply elem_of_union; left; by apply elem_of_singleton|].
    rewrite put_other in H by congruence. apply elem_of_union. right. by eapply O1.
  - intros r H. cbn [artifact_rows put set_dirs committed] in H. apply Rep; [done|].
    apply elem_of_app in H as [H|H%rows_of_keys]; [right; by apply O2|by left].
  - intros r H. cbn [trade_rows put set_dirs committed] in H. apply Rep; [done|].
    apply elem_of_app in H as [H|H%trade_db_rows_keys]; [right; by apply O3|by left].
  - intros run row E S. cbn [run_rows put set_dirs committed] in E.
    assert (KA : forall r, r <> sa_run a -> List.filter (fun x => bool_decide ((artifact_key x).1 = r)) (rows_of parquet row_count strategy a) = []).
    { intros r N. apply filter_drop. intros x Hx%rows_of_keys. apply bool_decide_eq_false. congruence. }
    assert (KT : forall r, r <> sa_run a -> List.filter (fun x => bool_decide ((trade_key x).1 = r)) (trade_db_rows a strategy) = []).
    { intros r N. apply filter_drop. intros x Hx%trade_db_rows_keys. apply bool_decide_eq_false. congruence. }
    destruct (decide (run = sa_run a)) as [->|N].
    + rewrite lookup_alter_eq in E. apply fmap_Some in E as (row0 & E & ->).
      assert (HS : rw_strategy row0 = strategy) by (unfold strategy, strategy_of; by rewrite E).
      exists (stale_files a (store h)). cbn [done_row rw_strategy rw_result]. rewrite HS. split.
      * exists a. cbn [store]. split; [done|]. split; [by rewrite put_F|].
        unfold list_artifacts. cbn [artifact_rows trade_rows put set_dirs committed]. rewrite !List.filter_app.
        rewrite (filter_drop _ (artifact_rows _)), (filter_drop _ (trade_rows _)).
        -- rewrite !filter_keep; [done|..]; intros r Hr; apply bool_decide_eq_true;
             [by eapply trade_db_rows_keys|by eapply rows_of_keys].
        -- intros r Hr%O3. apply bool_decide_eq_false. intros E1. by rewrite E1 in Hr.
        -- intros r Hr%O2. apply bool_decide_eq_false. intros E1. by rewrite E1 in Hr.
      * unfold stale_files. cbn [resaved]. destruct (dirs (store h) !! _) as [d|] eqn:D; [right|by left].
        rewrite decide_True by by eapply O1. apply elem_of_union. left. by apply elem_of_singleton.
    + rewrite lookup_alter_ne in E by done. destruct (O4 run row E S) as (stale & W & X). exists stale. split.
      * cbn [store]. apply (whole_frame _ _ _ _ (store h)); [..|exact W]; [by rewrite put_other by congruence|..]; unfold list_artifacts;
          cbn [artifact_rows trade_rows put set_dirs committed]; by rewrite List.filter_app, ?KA, ?KT, app_nil_r.
      * destruct X as [X|X]; [by left|right]. cbn [resaved]. destruct (decide _); [apply elem_of_union; by right|done].
Qed.

Lemma save_ok h a es : history_ok h -> proper_save (store h) a es -> history_ok (store_step h (Save a es)).
Proof using row_count_parquet.
  intros O [C P]. cbn [store_step]. set (strategy := strategy_of (sa_run a) (store h)).
  pose proof (put_self strategy a (store h)) as Self. unfold fresh_backup in C. fold strategy in C. rewrite C in Self.
  assert (D : (forall row, run_rows (store h) !! sa_run a = Some row -> rw_status row <> "done") \/
              exists row, run_rows (store h) !! sa_run a = Some row /\ rw_status row = "done").
  { destruct (run_rows (store h) !! sa_run a) as [row|] eqn:R; [|by left].
    destruct (decide (rw_status row = "done")); [right; eauto|left; intros; by simplify_eq]. }
  destruct D as [D|(row & R & S)].
  - pose proof (wp_run _ _ _ _ _ _ es (wp_save a (failures es) (store h) C) (le_n _)) as H.
    assert (I : died_in a (store h) (io_run es (save_result parquet a) (store h)).1).
    { destruct (io_run es (save_result parquet a) (store h)) as [s' [r|]]; [by destruct H|done]. }
    clear H. revert I. generalize (io_run es (save_result parquet a) (store h)).1. intros s' [(t & f & b & -> & _)|[Cm (b & -> & _)]].
    + apply save_uncommitted; [done|]. intros row E S. by destruct (D row E).
    + by apply (save_committed h a b).
  - destruct P as [P|[F Hd]]; [by destruct (P row R)|].
    destruct (ok_done _ O _ _ R S) as (stale & W & _). destruct (whole_reported _ _ _ _ _ W) as (r & Hr & Er).
    destruct (save_refused a (store h) es r C Hr Er F Hd) as [E|E]; rewrite E; [|by apply save_uncommitted].
    pose proof (save_uncommitted h a (dirs (store h) !! (strategy, sa_run a, Tmp)) (dirs (store h) !! (strategy, sa_run a, Final)) None O) as Q.
    fold strategy in Q. rewrite Self in Q. by apply Q.
Qed.

Lemma history_steps_ok evs : proper_saves evs -> history_ok (store_history evs).
Proof using row_count_parquet.
  induction evs as [|ev evs IH] using rev_ind; intros P.
  { split; cbn.
    - intros strategy r k [d H]. by rewrite lookup_empty in H.
    - by intros r H%elem_of_nil.
    - by intros r H%elem_of_nil.
    - intros run row H. by rewrite lookup_empty in H. }
  unfold store_history. rewrite foldl_app. cbn [foldl]. fold (store_history evs).
  assert (O : history_ok (store_history evs)).
  { apply IH. intros before e later ->. apply (P before e (later ++ [ev])). by rewrite <- app_assoc. }
  specialize (P evs ev [] eq_refl).
  destruct ev as [run st now|a es|run|run msg now|run msg now|run es|now es];
    [by apply create_ok|by apply save_ok|by apply mark_ok|by apply mark_ok|by apply mark_ok|by apply delete_ok|by apply recover_ok].
Qed.

(** C40: A run that is "done" has its result, and all of it: in every history of
    creations, saves, marks, deletions and recoveries, whatever failed in them
    and wherever the process died, the files in its directory, its rows of
    artifacts and trades and its columns are those of one and the same save.
    If the run was saved more than once there may be files of an earlier save
    beside them.  The condition on the saves: no run is saved again once it is
    "done", unless nothing fails in that save and the process survives it; and
    the names of backups are fresh. *)
Theorem done_runs_whole evs run row
    (P : proper_saves evs) (E : run_rows (store (store_history evs)) !! run = Some row) (S : rw_status row = "done") :
  exists stale, whole stale run (rw_strategy row) (rw_result row) (store (store_history evs)) /\
    (stale = ∅ \/ run ∈ resaved (store_history evs)).
Proof using row_count_parquet. exact (ok_done _ (history_steps_ok evs P) run row E S). Qed.

End Safety.

(** ** Concrete stores *)

Module StoreDemo.

(** A file format: one letter for each record. *)
Definition letters (l : list string) : string := foldr (fun _ s => "x" +:+ s) "" l.
Definition count_letters (c : string) : option Z := Some (Z.of_nat (String.length c)).

Lemma letters_length l : String.length (letters l) = length l.
Proof. induction l as [|x l IH]; [done|]. change (S (String.length (letters l)) = S (length l)). by rewrite IH. Qed.

Lemma letters_counted l : count_letters (letters l) = Some (Z.of_nat (length l)).
Proof. unfold count_letters. by rewrite letters_length. Qed.

Definition trade (price : float) : Trade :=
  mkTrade "L" (Some "TP1") None "long" 5 (Some 9) price None None None (float_of_Z 1) (Some (float_of_Z 2)) None f_zero f_zero
    (Some 4) "trade".

Definition args (hex : string) (trades : list Trade) (equity : option (list string)) (report : string) : SaveArgs :=
  mkSave "run_1" hex [Some (float_of_Z 10)] "{}" trades equity None (Some ["p"]) "csv" report "# md" 100.

Definition result1 : SaveArgs := args "b1" [trade (float_of_Z 7)] (Some ["e1"; "e2"]) "first".
Definition result2 : SaveArgs := args "b2" [] (Some ["e1"]) "second".

Definition started : Store := create_run "run_1" "s1" 10 no_store.

Abbreviation demo := (run (perform letters count_letters false)).
Abbreviation demo_ok := (run_ok (perform letters count_letters false)).
(** On a filesystem that may report the failure of a rename it has made. *)
Abbreviation demo_late := (run (perform letters count_letters true)).

Definition report_of (s : Store) : option string := dirs s !! ("s1", "run_1", Final) ≫= lookup "report.json".
Definition status_of (s : Store) : option string := rw_status <$> run_rows s !! "run_1".

Definition once : Store := (demo_ok (save_result letters result1) started).1.

Example saved_once :
  status_of once = Some "done" /\ report_of once = Some "first" /\
  ((fun r => (artifact_key r, aw_row_count r)) <$> list_artifacts "run_1" once) =
    [(("run_1", "equity_curve"), Some 2); (("run_1", "trades"), Some 1); (("run_1", "plot_outputs"), Some 1);
     (("run_1", "report_json"), None); (("run_1", "report_md"), None)].
Proof. vm_compute. done. Qed.

(** The files of an earlier save of the run that broke off, here of trades, are
    published with the result of the next one, without rows. *)
Example stale_files_published :
  let s := (demo (replicate 7 Done ++ [Dies 0]) (save_result letters result1) started).1 in
  let '(s', r) := demo_ok (save_result letters (args "b3" [] None "third")) s in
  r = Ok tt /\ report_of s' = Some "third" /\
  (dirs s' !! ("s1", "run_1", Final) ≫= lookup "trades.parquet") = Some "x" /\
  (artifact_key <$> list_artifacts "run_1" s') = [("run_1", "plot_outputs"); ("run_1", "report_json"); ("run_1", "report_md")].
Proof. vm_compute. done. Qed.

(** One command that raises, after its work if it is a rename, and nothing else. *)
Definition one_failure (n : nat) : list luck := replicate n Done ++ [Fails 1] ++ replicate 20 Done.

(** The rename of a first result raises and was made: the files stay, though
    nothing is in the tables.  A second result's is taken back. *)
Example renamed_first_result_stays :
  let '(s, r) := demo_late (one_failure 18) (save_result letters result1) started in
  r = Some (Err OSError) /\ report_of s = Some "first" /\ list_artifacts "run_1" s = [].
Proof. vm_compute. done. Qed.

(** The process dies after [n] commands. *)
Definition dying (n : nat) : list luck := replicate n Done ++ [Dies 0].

Definition torn (n : nat) : Store :=
  (demo_ok (recover_incomplete_runs 200) (demo (dying n) (save_result letters result2) once).1).1.

(** A second save of a run that is "done" and dies between publication and
    commit: the files are the second result's, the rows the first's, the run
    stays "done", and no recovery looks at it.  A little earlier, and the run
    has no directory at all. *)
Example torn_by_second_save :
  status_of (torn 17) = Some "done" /\ report_of (torn 17) = Some "second" /\
  length (list_trades "run_1" (torn 17)) = 1%nat /\ backups_of "s1" "run_1" (torn 17) = ["b2"] /\
  status_of (torn 16) = Some "done" /\ report_of (torn 16) = None.
Proof. vm_compute. done. Qed.

(** A run with a result that is marked running again and whose save dies: after
    the publication the recovery puts the first result back; but before it, it
    deletes the first result, and so does a second recovery when the first one
    died after putting it back. *)
Definition again : Store := mark_running "run_1" once.
Definition recovery_after (n : nat) : Store := (demo_ok (recover_incomplete_runs 200) (demo (dying n) (save_result letters result2) again).1).1.

Example restored_results_deleted :
  report_of (recovery_after 17) = Some "first" /\ report_of (recovery_after 5) = None /\
  let restored := (demo (dying 6) (recover_incomplete_runs 200) (demo (dying 17) (save_result letters result2) again).1).1 in
  report_of restored = Some "first" /\ report_of (demo_ok (recover_incomplete_runs 300) restored).1 = None.
Proof. vm_compute. done. Qed.

(** Two backups of one run, and no run at all is recovered. *)
Example ambiguous_backup_blocks_all :
  let s := create_run "run_2" "s1" 20
    (set_dirs (<[("s1", "run_1", Backup "b8") := ∅]> (<[("s1", "run_1", Backup "b9") := ∅]> (dirs again))) again) in
  let r := demo_ok (recover_incomplete_runs 200) s in
  r.2 = Err RuntimeError /\ (rw_status <$> run_rows r.1 !! "run_2") = Some "running".
Proof. vm_compute. done. Qed.

(** An empty equity curve is no file, but the run's row names one. *)
Example empty_curve_path_dangles :
  let s := (demo_ok (save_result letters (args "b1" [] (Some []) "r")) started).1 in
  (row ← run_rows s !! "run_1"; result ← rw_result row; rs_equity_curve_path result) = Some "equity_curve.parquet" /\
  (dirs s !! ("s1", "run_1", Final) ≫= lookup "equity_curve.parquet") = None.
Proof. vm_compute. done. Qed.

(** A trade whose entry price is not a number refuses the whole result. *)
Example nan_trade_refused :
  demo_ok (save_result letters (args "b1" [trade S754_nan] None "r")) started = (started, Err DatabaseError).
Proof. vm_compute. done. Qed.

(** A deletion that dies after the rows leaves the files for good. *)
Example deletion_leaves_files :
  let s := (demo (dying 2) (delete_run "run_1") once).1 in
  run_rows s !! "run_1" = None /\ report_of (demo_ok (recover_incomplete_runs 200) s).1 = Some "first".
Proof. vm_compute. done. Qed.

(** *** Witnesses *)

Definition failing_write : list luck := replicate 4 Done ++ [Fails 1] ++ replicate 10 Done.

Lemma failing_write_raises : (demo failing_write (save_result letters result1) started).2 = Some (Err OSError).
Proof. by vm_compute. Qed.

Lemma started_fresh : fresh_backup result1 started.
Proof. by vm_compute. Qed.

Lemma failing_write_once : (failures failing_write <= if commits letters count_letters (strategy_of "run_1" started) result1 started then 1 else 0)%nat.
Proof. vm_compute. lia. Qed.

Lemma save_all_or_nothing_witness :
  undone letters false "s1" result1 ∅ (failures failing_write = 1%nat) started (demo failing_write (save_result letters result1) started).1.
Proof.
  pose proof (save_all_or_nothing letters count_letters false letters_counted result1 started failing_write started_fresh) as H.
  pose proof failing_write_raises as R.
  destruct (demo failing_write (save_result letters result1) started) as [s' o]. cbn [fst snd] in *. subst o.
  exact (H failing_write_once).
Defined.

Lemma started_no_backups : no_backups started.
Proof. done. Qed.
Lemma started_valid : Forall valid_paths (interrupted started).
Proof. vm_compute. repeat constructor. Qed.

(** A run with an old result, whose save dies after its publication. *)
Lemma again_row : exists row, run_rows again !! sa_run result2 = Some row /\ rw_strategy row = "s1" /\ active row = true.
Proof. vm_compute. eauto. Qed.
Lemma again_no_backup h : dirs again !! ("s1", sa_run result2, Backup h) = None.
Proof.
  destruct (dirs again !! _) as [d|] eqn:E; [|done]. apply elem_of_map_to_list, (list_elem_of_fmap_2 fst) in E.
  assert (K : (map_to_list (dirs again)).*1 = [("s1", "run_1", Final)]) by by vm_compute.
  rewrite K in E. apply list_elem_of_singleton in E. discriminate E.
Qed.
Lemma again_recoverable : recoverable again.
Proof.
  assert (I : interrupted again = [("run_1", "s1")]) by by vm_compute. unfold recoverable. rewrite I.
  repeat constructor. intros h h'. cbn [fst snd]. rewrite again_no_backup. by intros [].
Qed.
Lemma dying_is_dead : (demo (dying 17) (save_result letters result2) again).2 = None.
Proof. by vm_compute. Qed.

Lemma broken_save_rolled_back_witness :
  is_ok (demo_ok (recover_incomplete_runs 200) (demo (dying 17) (save_result letters result2) again).1).2 = true.
Proof.
  destruct again_row as (row & R & S & A).
  refine (proj1 (broken_save_rolled_back letters count_letters false letters_counted result2 again (dying 17) 200 row R A _
    again_recoverable dying_is_dead)).
  rewrite S. exact again_no_backup.
Defined.

Lemma recovery_restartable_witness :
  let s' := (demo (dying 3) (recover_incomplete_runs 200) started).1 in
  demo_ok (recover_incomplete_runs 300) s' = (recovered 300 started, Ok 1) \/
  s' = recovered 200 started /\ demo_ok (recover_incomplete_runs 300) s' = (s', Ok 0).
Proof. exact (recovery_restartable letters count_letters false started (dying 3) 200 300 started_no_backups started_valid). Defined.

(** A save that dies, a recovery, and a second save of the same run; another run
    is saved once. *)
Definition life : list store_event :=
  [Create "run_1" "s1" 10; Save result1 (dying 8); Recover 20 (replicate 30 Done); Save result2 (replicate 40 Done);
   Create "run_2" "s1" 30; Save (mkSave "run_2" "b2" [] "{}" [] None None None "" "second" "md" 40) (replicate 40 Done)].
Definition second_row : RunRow :=
  mkRunRow "s1" "done" 30 (Some 40) None (Some (mkRunResult [] 0 "{}" "report.json" None None None)) 40.
Abbreviation lived := (store_history letters count_letters false).
Lemma life_done : run_rows (store (lived life)) !! "run_2" = Some second_row.
Proof. by vm_compute. Qed.

(** A save of a run without a "done" row may be made. *)
Definition plainly (h : History) (ev : store_event) : bool :=
  match ev with
  | Save a es =>
      bool_decide (dirs (store h) !! (strategy_of (sa_run a) (store h), sa_run a, Backup (sa_hex a)) = None) &&
      negb (bool_decide ((rw_status <$> run_rows (store h) !! sa_run a) = Some "done"))
  | _ => true
  end.

Lemma plainly_proper h ev : plainly h ev = true -> proper_event letters count_letters false h ev.
Proof.
  destruct ev as [|a es| | | | |]; try done. cbn. rewrite andb_true_iff, negb_true_iff, bool_decide_eq_true, bool_decide_eq_false.
  intros [C D]. split; [exact C|]. left. intros row E S. apply D. by rewrite E, <- S.
Qed.

Lemma life_proper : proper_saves letters count_letters false life.
Proof.
  intros before ev later E. apply plainly_proper.
  assert (A : forallb (fun n => match life !! n with Some ev => plainly (lived (take n life)) ev | None => true end) (seq 0 6) = true)
    by by vm_compute.
  rewrite forallb_forall in A. specialize (A (length before)).
  assert (L : (length before < 6)%nat) by (apply (f_equal length) in E; rewrite length_app in E; cbn in E; lia).
  specialize (A ltac:(apply in_seq; lia)). rewrite E, list_lookup_middle, take_app_length in A by done. exact A.
Qed.

Lemma done_runs_whole_witness :
  exists stale, whole letters count_letters stale "run_2" "s1" (rw_result second_row) (store (lived life)) /\
    (stale = ∅ \/ "run_2" ∈ resaved (lived life)).
Proof. exact (done_runs_whole letters count_letters false letters_counted life "run_2" second_row life_proper life_done eq_refl). Defined.

End StoreDemo.
